(* ===== verification/_CoqProject ===== *)
-Q . S2P
Prelude.v
Params.v
Str.v
Mmu.v
Mp.v
Apic.v
Kalloc.v
Startup.v
Vm.v
VmSpec.v
VmUser.v
KernelMap.v
Pipe.v
Block.v
Spinlock.v
Proc.v
ProcInv.v
ProcSafe.v
ProcFork.v
Ide.v
Sleeplock.v
Bio.v
BioSpec.v
Format.v
Log.v
LogSpec.v
Crash.v
LogConc.v
Tx.v
Fs.v
FsSpec.v
FsData.v
FsWrite.v
FsFile.v
FsTrunc.v
FsStack.v
FsDir.v
Mkfs.v
MkfsSpec.v
MkfsImage.v
Boot.v
File.v
Kernel.v
ExecStack.v
Bootmain.v
Args.v
Sysfile.v
Create.v
Unlink.v
Trap.v
Segments.v
Descriptors.v
Grep.v
Printf.v
Dump.v
Userprogs.v
Ls.v
Progs.v
Console.v
Kbd.v
Uart.v
Sh.v
ShSpec.v
ShRun.v
Umalloc.v
