(* ===== verification/Prelude.v ===== *)
(** * xv6: a verification development

    xv6 is a small Unix: a boot loader, a kernel for multiprocessor PCs and the
    user programs that run on it.  This library models the C sources under src/
    in Rocq, as executable definitions with the names of the source, and proves
    what the parts promise to each other and to their users.

    ** The program and its model

    A kernel routine is a computation [M S A] on the state [S] of its component
    (below, in this file): it returns, stops the machine with a panic, gives up
    the CPU until a channel is woken, spins, or does what C leaves undefined.
    The state of a component is a record of its static variables; components are
    put together by [zoom].  Routines that wait are cut where they wait, and what
    other CPUs do in between is a step relation whose reachable states the
    theorems are about.  Integers are [Z] with the conversions of their C types
    ([u32], [i32], ...) written where the source has them.

    Storage, bottom up.
    - [Ide]: ide.c on the queue of buffers and the registers of an ATA disk.
      [Bio]: bio.c, the buffer cache, on memide.c's disk; the order of the disk
      writes is recorded.  [Block] is what it promises to its users as a type
      class, [BioSpec] the proof that it keeps it.  [Sleeplock]: sleeplock.c.
    - [Log]: log.c over any block layer.  [LogSpec]: one operation; [Crash]: a
      stop after any disk write, and recovery; [LogConc]: every interleaving of
      operations.  [Tx] is the contract of the transactions it gives.
    - [Format]: the layouts of fs.h.  [Fs]: fs.c over any transaction layer.
      [FsSpec], [FsData], [FsWrite], [FsFile]: blocks, inodes and contents against
      an abstract file system; [FsTrunc]: freeing a file; [FsStack]: the same on
      the whole stack down to the disk; [FsDir]: directories, path names and the
      inode cache.
    - [Mkfs], [MkfsSpec], [MkfsImage]: mkfs.c and the image that it makes; [Boot]:
      the kernel's file system on that image.

    Memory.  [Mmu]: mmu.h and memlayout.h; [Kalloc]: kalloc.c; [Vm]: vm.c on pages
    of bytes; [VmSpec], [VmUser]: page tables as maps from addresses to frames;
    [KernelMap]: the kernel's part of every address space.

    The machine.  [Mp]: mp.c, and mycpu of proc.c; [Apic]: lapic.c, ioapic.c and
    picirq.c; [Uart]: uart.c; [Startup]: startothers and mpmain of main.c;
    [Segments]: the descriptors of mmu.h and the routines of vm.c and trap.c that
    build them, with what the processor does with them; [Bootmain]: bootmain.c.
    Devices and the processor follow their documentation.

    Processes.  [Spinlock]: spinlock.c with the interrupt flag of each CPU;
    [Proc]: proc.c, its other components behind a class of operations; [ProcInv],
    [ProcSafe], [ProcFork]: every schedule of fork, exit, wait, kill, sleep and the
    scheduler; [Dump]: procdump.

    Files and system calls.  [Pipe]: pipe.c; [File]: file.c; [Kernel]: the kernel
    as one state, the instance of [Proc]'s operations, and exec.c; [ExecStack]:
    the stack of a new program; [Args]: argument fetching of syscall.c; [Sysfile]:
    sysfile.c; [Create], [Unlink]: its [create] and [unlink] over all of fs.c;
    [Trap]: syscall.c, sysproc.c and trap.c; [Descriptors]: the descriptors of all
    processes.

    Console.  [Console]: console.c; [Kbd]: kbd.c, its decoding of scan codes.

    User level.  [Str]: ulib.c (and string.c); [Printf]: printf.c and the printing
    of console.c; [Umalloc]: umalloc.c; [Sh], [ShSpec], [ShRun]: sh.c; [Grep]:
    grep.c; [Userprogs]: cat.c, wc.c and echo.c; [Ls]: ls.c; [Progs]: the programs
    that only make system calls (rm.c, mkdir.c, ln.c, kill.c, init.c, zombie.c).

    ** What is proved

    - Crashes (C1-C6, C17).  A file write, the creation of a file, the removal of
      one with all its blocks, and the commit of any transaction happen entirely
      or not at all when the machine stops after any disk write; recovery may
      itself be interrupted; in every interleaving the log has room
      for the operations that begin_op admits and is written only when none is
      outstanding.
    - Scheduling (C7-C9, C25, C36).  In every schedule the checks of the kernel hold,
      a process runs on one CPU at most, a parent of a zombie does not sleep for
      ever, locks exclude each other, and killed processes stop.
    - From mkfs to a read, and the boot loader (C10-C12); the processors that the
      tables of the machine list, and their start (C38, C39).
    - Drivers and channels (C13, C15, C16, C24, C37).  The disk driver serves
      requests in order, pipes are queues without lost wakeups, and what is typed
      is read as the edited line.
    - Descriptors (C14).  Well formed in every reachable state, with exact counts.
    - The file system against its abstract view (C18-C22), up to the whole of
      [create] and [unlink]: the name and the inode that come or go, with the
      blocks of the file, and everything else unchanged (C18, C19); a name that
      exists (C22).
    - The allocators (C23, C26), page tables and copies to user memory
      (C27-C29).
    - Where traps enter the kernel: gates, privileges and stack (C35).
    - The shell's parser and interpreter (C30-C32), exec's stack (C33), system call
      arguments (C34) and grep's patterns (C40).

    Theorems without a number are of the same kind; those that show where the
    code does not do what it means to say so in their comment.

    ** Bounds

    Loops whose end is not structural run on fuel, which is the number of turns
    the source can take at most, from the sizes that bound them (bytes left,
    blocks of a file, entries of a directory, length of a line); the theorems show
    that the routines return, so that the fuel is enough.  [mpinit] has the fuel as
    an argument, because it spins on some tables.  Scans over static arrays have
    the length of the array.

    ** Not modelled

    - Assembly (boot sector, kernel entry, trap entry, context switch, system call
      stubs).  The switch of a process is where a run in [Proc] ends and another
      begins; what entryother.S does with its arguments is part of [Startup].
    - main and mpenter of main.c, which call the initialisation routines in order,
      and consoleinit and pinit, which initialise a lock and a table of pointers.
      panic is an outcome of a computation, not the messages it prints.
    - Interleavings inside a file system call: a call of fs.c that finds a sleeping
      lock taken gives up the CPU and is not resumed in the middle; the log, the
      pipes, the disk driver, the console and the process table are modelled with
      theirs.  Memory is sequentially consistent.
    - The test programs (usertests.c, forktest.c, stressfs.c). *)

From stdpp Require Export base numbers list gmap strings.
From Stdlib Require Export ZArith Lia.

#[global] Open Scope Z_scope.

Declare Scope xv6_scope.
Delimit Scope xv6_scope with xv6.
#[global] Open Scope xv6_scope.

(** ** Machine integers *)

(** [uint] arithmetic: reduction modulo 2^32. *)
Definition u32 (x : Z) : Z := x mod 2 ^ 32.

(** [ushort] and [uchar] conversions. *)
Definition u16 (x : Z) : Z := x mod 2 ^ 16.
Definition u8 (x : Z) : Z := x mod 2 ^ 8.

(** [int] and [short] conversions: two's complement reinterpretation. *)
Definition i32 (x : Z) : Z :=
  let y := u32 x in if y <? 2 ^ 31 then y else y - 2 ^ 32.
Definition i16 (x : Z) : Z :=
  let y := u16 x in if y <? 2 ^ 15 then y else y - 2 ^ 16.

Lemma u32_small x : 0 ≤ x < 2 ^ 32 → u32 x = x.
Proof. intros. by apply Z.mod_small. Qed.

Lemma u32_range x : 0 ≤ u32 x < 2 ^ 32.
Proof. apply Z.mod_pos_bound. lia. Qed.

Lemma i32_small x : - 2 ^ 31 ≤ x < 2 ^ 31 → i32 x = x.
Proof.
  intros. unfold i32, u32.
  destruct (decide (0 ≤ x)).
  - rewrite Z.mod_small by lia. destruct (Z.ltb_spec x (2 ^ 31)); lia.
  - assert (x mod 2 ^ 32 = x + 2 ^ 32) as ->.
    { rewrite <- (Z.mod_add x 1) by lia. apply Z.mod_small. lia. }
    destruct (Z.ltb_spec (x + 2 ^ 32) (2 ^ 31)); lia.
Qed.

(** [lia] with division and remainder by constants. *)
Ltac dlia := intros; zify; Z.to_euclidean_division_equations; lia.

(** ** Kernel computations

    A kernel routine runs on a component state [S].  It may return
    ([Done]), stop the machine ([Panic]), give up the CPU until the channel
    is woken ([Asleep], the state being the one the other processes see), use
    up the fuel of a loop ([Diverge]), or index an array out of its bounds,
    which C leaves undefined ([Undef]). *)

Inductive chan :=
  | ChanBuf (i : nat)
  | ChanInode (i : nat)
  | ChanLog
  | ChanPipeRead (i : nat)
  | ChanPipeWrite (i : nat)
  | ChanProc (i : nat)
  | ChanTicks
  | ChanConsole.

#[global] Instance chan_eq_dec : EqDecision chan.
Proof. solve_decision. Defined.

Inductive outcome (S A : Type) :=
  | Done (a : A) (s : S)
  | Panic (msg : string)
  | Asleep (c : chan) (s : S)
  | Diverge
  | Undef.
Arguments Done {S A}.
Arguments Panic {S A}.
Arguments Asleep {S A}.
Arguments Diverge {S A}.
Arguments Undef {S A}.

Definition M (S A : Type) : Type := S → outcome S A.

#[global] Instance M_ret {S} : MRet (M S) := λ A a s, Done a s.
#[global] Instance M_bind {S} : MBind (M S) := λ A B f m s,
  match m s with
  | Done a s' => f a s'
  | Panic msg => Panic msg
  | Asleep c s' => Asleep c s'
  | Diverge => Diverge
  | Undef => Undef
  end.

Definition gets {S A} (f : S → A) : M S A := λ s, Done (f s) s.
Definition modify {S} (f : S → S) : M S unit := λ s, Done tt (f s).
Definition panic {S A} (msg : string) : M S A := λ _, Panic msg.
Definition diverge {S A} : M S A := λ _, Diverge.
Definition undef {S A} : M S A := λ _, Undef.
(** Guard an access that is defined only when [b] holds. *)
Definition require {S} (b : bool) : M S unit := if b then mret tt else undef.
Definition when {S} (b : bool) (m : M S unit) : M S unit :=
  if b then m else mret tt.

(** Run a routine of a component on the part of the state it owns. *)
Definition zoom {S T A} (get : S → T) (put : T → S → S) (m : M T A) : M S A := λ s,
  match m (get s) with
  | Done a t => Done a (put t s)
  | Panic msg => Panic msg
  | Asleep c t => Asleep c (put t s)
  | Diverge => Diverge
  | Undef => Undef
  end.

(** A spinlock seen from the one CPU that runs the routine: taking it twice
    and releasing it when it is not held are the two panics of spinlock.c. *)
Definition acquire {S} (get : S → bool) (put : bool → S → S) : M S unit := λ s,
  if get s then Panic "acquire" else Done tt (put true s).
Definition release {S} (get : S → bool) (put : bool → S → S) : M S unit := λ s,
  if get s then Done tt (put false s) else Panic "release".

(** [sleep(chan, lk)]: [unlock] releases [lk] while the process sleeps. *)
Definition sleep_on {S A} (c : chan) (unlock : S → S) : M S A := λ s, Asleep c (unlock s).

(** [for (i = from; i < from + n; i++) body(i)]. *)
Fixpoint for_range {S} (n : nat) (from : Z) (body : Z → M S unit) : M S unit :=
  match n with
  | O => mret tt
  | Datatypes.S n' => body from;; for_range n' (from + 1) body
  end.

(** *** Weakest preconditions: [wp m Q s] says that [m] run from [s] returns,
    without panic, sleep or divergence, in a state where [Q] holds. *)
Definition wp {S A} (m : M S A) (Q : A → S → Prop) (s : S) : Prop :=
  match m s with Done a s' => Q a s' | _ => False end.

Section wp.
Context {S : Type}.
Implicit Types s : S.

Lemma wp_ret {A} (a : A) (Q : A → S → Prop) s : Q a s → wp (mret a) Q s.
Proof. done. Qed.

Lemma wp_bind {A B} (m : M S A) (f : A → M S B) Q s :
  wp m (λ a s', wp (f a) Q s') s → wp (m ≫= f) Q s.
Proof. unfold wp, mbind, M_bind. by destruct (m s). Qed.

Lemma wp_mono {A} (m : M S A) (Q Q' : A → S → Prop) s :
  wp m Q s → (∀ a s', Q a s' → Q' a s') → wp m Q' s.
Proof. unfold wp. destruct (m s); naive_solver. Qed.

Lemma wp_gets {A} (f : S → A) Q s : Q (f s) s → wp (gets f) Q s.
Proof. done. Qed.

Lemma wp_modify (f : S → S) Q s : Q tt (f s) → wp (modify f) Q s.
Proof. done. Qed.

Lemma wp_acquire get put Q s :
  get s = false → Q tt (put true s) → wp (acquire get put) Q s.
Proof. intros H ?. unfold wp, acquire. by rewrite H. Qed.

Lemma wp_release get put Q s :
  get s = true → Q tt (put false s) → wp (release get put) Q s.
Proof. intros H ?. unfold wp, release. by rewrite H. Qed.

Lemma wp_when (b : bool) (m : M S unit) Q s :
  (b = true → wp m Q s) → (b = false → Q tt s) → wp (when b m) Q s.
Proof. destruct b; naive_solver. Qed.

Lemma wp_require (b : bool) (Q : unit → S → Prop) s : b = true → Q tt s → wp (require b) Q s.
Proof. by intros ->. Qed.

Lemma wp_done {A} (m : M S A) Q s a s' : m s = Done a s' → Q a s' → wp m Q s.
Proof. unfold wp. by intros ->. Qed.

Lemma wp_inv {A} (m : M S A) Q s : wp m Q s → ∃ a s', m s = Done a s' ∧ Q a s'.
Proof. unfold wp. destruct (m s); naive_solver. Qed.

Lemma wp_elim {A} (m : M S A) (Q : A → S → Prop) s a s' : wp m Q s → m s = Done a s' → Q a s'.
Proof. unfold wp. by intros HQ E; rewrite E in HQ. Qed.

Lemma bind_done {A B} (m : M S A) (f : A → M S B) s b s' :
  (m ≫= f) s = Done b s' → ∃ a s1, m s = Done a s1 ∧ f a s1 = Done b s'.
Proof. unfold mbind, M_bind. destruct (m s); naive_solver. Qed.

Lemma wp_zoom {T A} (get : S → T) put (m : M T A) Q s :
  wp m (λ a t, Q a (put t s)) (get s) → wp (zoom get put m) Q s.
Proof. unfold wp, zoom. by destruct (m (get s)). Qed.

(** The loop rule: [I i] holds before the iteration with index [i]. *)
Lemma wp_for_range (I : Z → S → Prop) (Q : unit → S → Prop) n from body s :
  I from s →
  (∀ i s', from ≤ i < from + Z.of_nat n → I i s' →
           wp (body i) (λ _, I (i + 1)) s') →
  (∀ s', I (from + Z.of_nat n) s' → Q tt s') →
  wp (for_range n from body) Q s.
Proof.
  revert from s. induction n as [|n IH]; intros from s H0 Hstep Hpost.
  - apply wp_ret, Hpost. by rewrite Z.add_0_r.
  - apply wp_bind. eapply wp_mono; [apply Hstep; [lia|done]|].
    intros [] s' HI. apply IH; [done| |].
    + intros i s'' ?. apply Hstep. lia.
    + intros s'' HI'. apply Hpost.
      by replace (from + Z.of_nat (Datatypes.S n)) with (from + 1 + Z.of_nat n) by lia.
Qed.
End wp.

(** One symbolic-execution step of a [wp] goal. *)
Ltac wp_step :=
  lazymatch goal with
  | |- wp (mret _) _ _ => apply wp_ret
  | |- wp (_ ≫= _) _ _ => apply wp_bind
  | |- wp (gets _) _ _ => apply wp_gets
  | |- wp (modify _) _ _ => apply wp_modify
  | |- wp (when _ _) _ _ => apply wp_when; intros
  | |- wp (zoom _ _ _) _ _ => apply wp_zoom
  end; cbv beta.
Ltac wp_steps := repeat wp_step.

(** *** Runs that may wait

    [wlp safe m Q s]: if [m] run from [s] returns then [Q] holds; with [safe]
    it neither panics nor uses a null pointer.  It may spin or sleep. *)
Definition wlp {S A} (safe : bool) (m : M S A) (Q : A → S → Prop) (s : S) : Prop :=
  match m s with
  | Done a s' => Q a s'
  | Panic _ | Undef => safe = false
  | Asleep _ _ | Diverge => True
  end.

Section wlp.
Context {S : Type} (safe : bool).
Implicit Types s : S.

Lemma wlp_ret {A} (a : A) (Q : A → S → Prop) s : Q a s → wlp safe (mret a) Q s.
Proof. done. Qed.
Lemma wlp_bind {A B} (m : M S A) (f : A → M S B) Q s :
  wlp safe m (λ a s', wlp safe (f a) Q s') s → wlp safe (m ≫= f) Q s.
Proof. unfold wlp, mbind, M_bind. by destruct (m s). Qed.
Lemma wlp_gets {A} (f : S → A) Q s : Q (f s) s → wlp safe (gets f) Q s.
Proof. done. Qed.
Lemma wlp_modify (f : S → S) Q s : Q tt (f s) → wlp safe (modify f) Q s.
Proof. done. Qed.
Lemma wlp_mono {A} (m : M S A) (Q Q' : A → S → Prop) s :
  wlp safe m Q s → (∀ a s', Q a s' → Q' a s') → wlp safe m Q' s.
Proof. unfold wlp. destruct (m s); naive_solver. Qed.
Lemma wlp_done {A} (m : M S A) Q s a s' : m s = Done a s' → Q a s' → wlp safe m Q s.
Proof. unfold wlp. by intros ->. Qed.
Lemma wlp_diverge {A} (m : M S A) (Q : A → S → Prop) s : m s = Diverge → wlp safe m Q s.
Proof. unfold wlp. by intros ->. Qed.
Lemma wlp_elim {A} (m : M S A) (Q : A → S → Prop) s a s' : wlp safe m Q s → m s = Done a s' → Q a s'.
Proof. unfold wlp. by intros HQ E; rewrite E in HQ. Qed.
Lemma wlp_for_range (Q : unit → S → Prop) (I : S → Prop) k from body s :
  I s → (∀ i s', I s' → wlp safe (body i) (λ _, I) s') → (∀ s', I s' → Q tt s') →
  wlp safe (for_range k from body) Q s.
Proof.
  intros HI Hb HQ. revert from s HI. induction k as [|k IH]; intros from s HI; [by apply HQ|].
  apply wlp_bind. eapply wlp_mono; [by apply Hb|]. intros [] s' HI'. by apply IH.
Qed.
(** The loop rule with the index. *)
Lemma wlp_for_index (I : Z → S → Prop) (n : nat) from (body : Z → M S unit) s :
  I from s → (∀ k s', from ≤ k < from + Z.of_nat n → I k s' → wlp safe (body k) (λ _, I (k + 1)) s') →
  wlp safe (for_range n from body) (λ _, I (from + Z.of_nat n)) s.
Proof.
  revert from s. induction n as [|n IH]; intros from s HI Hb; [by rewrite Z.add_0_r|]. apply wlp_bind. eapply wlp_mono; [apply Hb; [lia|done]|].
  cbn beta. intros [] s' HI'. replace (from + Z.of_nat (Datatypes.S n)) with (from + 1 + Z.of_nat n) by lia. apply IH; [done|]. intros k s'' Hk. apply Hb. lia.
Qed.
End wlp.

Ltac wlp_step :=
  lazymatch goal with
  | |- wlp _ (mret _) _ _ => apply wlp_ret
  | |- wlp _ (_ ≫= _) _ _ => apply wlp_bind
  | |- wlp _ (gets _) _ _ => apply wlp_gets
  | |- wlp _ (modify _) _ _ => apply wlp_modify
  end; cbv beta.
Ltac wlp_steps := repeat wlp_step.

(** ** Byte buffers

    A byte is a [Z] between 0 and 255, a buffer a list of them. *)

(** The [n] bytes at offset [off]. *)
Definition slice {A} (off n : nat) (l : list A) : list A := take n (drop off l).

(** The buffer [l] after copying [src] over it at offset [off]. *)
Definition splice {A} (off : nat) (src l : list A) : list A :=
  take off l ++ src ++ drop (off + length src) l.

(** Little-endian encodings of the x86 memory layout. *)
Fixpoint le_bytes (n : nat) (x : Z) : list Z :=
  match n with
  | O => []
  | S n' => x mod 256 :: le_bytes n' (x / 256)
  end.

(** The characters of a string. *)
Fixpoint chrs (s : string) : list Z :=
  match s with
  | EmptyString => []
  | String a s' => Z.of_N (Ascii.N_of_ascii a) :: chrs s'
  end.

Fixpoint le_value (l : list Z) : Z :=
  match l with
  | [] => 0
  | b :: l' => b + 256 * le_value l'
  end.

Definition get32 (l : list Z) (off : nat) : Z := le_value (slice off 4 l).
Definition put32 (l : list Z) (off : nat) (x : Z) : list Z := splice off (le_bytes 4 x) l.
Definition get16 (l : list Z) (off : nat) : Z := le_value (slice off 2 l).
Definition put16 (l : list Z) (off : nat) (x : Z) : list Z := splice off (le_bytes 2 x) l.

#[global] Arguments slice : simpl never.
#[global] Arguments splice : simpl never.
#[global] Arguments get32 : simpl never.
#[global] Arguments put32 : simpl never.
#[global] Arguments get16 : simpl never.
#[global] Arguments put16 : simpl never.

Section buffers.
Context {A : Type}.
Implicit Types l src : list A.

Lemma length_splice off src l :
  (off + length src ≤ length l)%nat → length (splice off src l) = length l.
Proof. intros. unfold splice. rewrite !length_app, length_take, length_drop. lia. Qed.

Lemma length_slice off n l : (off + n ≤ length l)%nat → length (slice off n l) = n.
Proof. intros. unfold slice. rewrite length_take, length_drop. lia. Qed.

Lemma lookup_splice_in off src l i :
  (off + length src ≤ length l)%nat → (off ≤ i < off + length src)%nat →
  splice off src l !! i = src !! (i - off)%nat.
Proof.
  intros. unfold splice. rewrite lookup_app_r by (rewrite length_take; lia).
  rewrite lookup_app_l by (rewrite length_take; lia).
  f_equal. rewrite length_take. lia.
Qed.

Lemma lookup_splice_out off src l i :
  (off + length src ≤ length l)%nat → (i < off ∨ off + length src ≤ i)%nat →
  splice off src l !! i = l !! i.
Proof.
  intros ? [?|?]; unfold splice.
  - rewrite lookup_app_l by (rewrite length_take; lia). by rewrite lookup_take_lt by lia.
  - rewrite lookup_app_r by (rewrite length_take; lia).
    rewrite lookup_app_r by (rewrite length_take; lia).
    rewrite lookup_drop. f_equal. rewrite length_take. lia.
Qed.

Lemma lookup_slice off n l i : (i < n)%nat → slice off n l !! i = l !! (off + i)%nat.
Proof. intros. unfold slice. by rewrite lookup_take_lt, lookup_drop by lia. Qed.

Lemma slice_ext off n l l' :
  (off + n ≤ length l)%nat → (off + n ≤ length l')%nat →
  (∀ i, (i < n)%nat → l !! (off + i)%nat = l' !! (off + i)%nat) →
  slice off n l = slice off n l'.
Proof.
  intros ?? H. apply list_eq. intros i. destruct (decide (i < n)%nat).
  - rewrite !lookup_slice by lia. by apply H.
  - by rewrite !lookup_ge_None_2 by (rewrite length_slice; lia).
Qed.

Lemma slice_splice_eq off src l :
  (off + length src ≤ length l)%nat → slice off (length src) (splice off src l) = src.
Proof.
  intros. unfold slice, splice.
  rewrite drop_app_length' by (rewrite length_take; lia).
  by rewrite take_app_length' by done.
Qed.

Lemma slice_splice_ne off off' n src l :
  (off + length src ≤ length l)%nat → (off' + n ≤ length l)%nat →
  (off' + n ≤ off ∨ off + length src ≤ off')%nat →
  slice off' n (splice off src l) = slice off' n l.
Proof.
  intros. apply slice_ext; [by rewrite length_splice|done|].
  intros i ?. apply lookup_splice_out; lia.
Qed.
End buffers.

Lemma length_le_bytes n x : length (le_bytes n x) = n.
Proof. revert x. induction n; intros; simpl; auto. Qed.

Lemma le_value_bytes n x : le_value (le_bytes n x) = x mod 256 ^ Z.of_nat n.
Proof.
  revert x. induction n as [|n IH]; intros x; simpl le_bytes; simpl le_value.
  - by rewrite Z.mod_1_r.
  - rewrite IH, Nat2Z.inj_succ, Z.pow_succ_r by lia.
    rewrite (Z.rem_mul_r x 256) by lia. lia.
Qed.

Lemma length_put32 l off x : (off + 4 ≤ length l)%nat → length (put32 l off x) = length l.
Proof. intros. unfold put32. apply length_splice. by rewrite length_le_bytes. Qed.

Lemma get32_put32_eq l off x :
  (off + 4 ≤ length l)%nat → get32 (put32 l off x) off = u32 x.
Proof.
  intros. unfold get32, put32.
  rewrite <- (length_le_bytes 4 x) at 1. rewrite slice_splice_eq.
  - by rewrite le_value_bytes.
  - by rewrite length_le_bytes.
Qed.

Lemma get32_put32_ne l off off' x :
  (off + 4 ≤ length l)%nat → (off' + 4 ≤ length l)%nat →
  (off' + 4 ≤ off ∨ off + 4 ≤ off')%nat →
  get32 (put32 l off x) off' = get32 l off'.
Proof.
  intros. unfold get32, put32. f_equal.
  apply slice_splice_ne; rewrite ?length_le_bytes; lia.
Qed.

(** Fields of a buffer made by concatenation. *)
Lemma slice_app_mid {A} (l1 l2 l3 : list A) (off n : nat) :
  off = length l1 → n = length l2 → slice off n (l1 ++ l2 ++ l3) = l2.
Proof. intros -> ->. unfold slice. by rewrite drop_app_length, take_app_length. Qed.

Lemma get16_app l1 x l3 off : off = length l1 → get16 (l1 ++ le_bytes 2 x ++ l3) off = u16 x.
Proof. intros. unfold get16. rewrite slice_app_mid by done. by rewrite le_value_bytes. Qed.

Lemma get32_app l1 x l3 off : off = length l1 → get32 (l1 ++ le_bytes 4 x ++ l3) off = u32 x.
Proof. intros. unfold get32. rewrite slice_app_mid by done. by rewrite le_value_bytes. Qed.

Lemma i16_u16_small x : - 2 ^ 15 ≤ x < 2 ^ 15 → i16 (u16 x) = x.
Proof.
  intros. unfold i16, u16. rewrite Z.mod_mod by lia. destruct (decide (0 ≤ x)).
  - rewrite Z.mod_small by lia. destruct (Z.ltb_spec x (2 ^ 15)); lia.
  - assert (x mod 2 ^ 16 = x + 2 ^ 16) as ->.
    { rewrite <- (Z.mod_add x 1) by lia. apply Z.mod_small. lia. }
    destruct (Z.ltb_spec (x + 2 ^ 16) (2 ^ 15)); lia.
Qed.

Lemma list_total_eq (l l' : list Z) (k k' : nat) : l !! k = l' !! k' → l !!! k = l' !!! k'.
Proof. intros E. by rewrite !list_lookup_total_alt, E. Qed.

(** ** Finite sets *)

Lemma size_add_le (x : Z) (X : gset Z) : (size ({[x]} ∪ X) ≤ S (size X))%nat.
Proof.
  rewrite size_union_alt, size_singleton.
  pose proof (subseteq_size (X ∖ {[x]}) X ltac:(set_solver)). lia.
Qed.

Lemma size_list_to_set_le (l : list Z) : (size (list_to_set l : gset Z) ≤ length l)%nat.
Proof.
  induction l as [|x l IH]; simpl; [done|].
  pose proof (size_add_le x (list_to_set l)). lia.
Qed.

(** ** Exhaustive checks over a byte *)

Lemma byte_cases (f : Z → bool) :
  forallb (λ k, f (Z.of_nat k)) (seq 0 256) = true → ∀ c, 0 ≤ c < 256 → f c = true.
Proof.
  intros Hall c Hc. rewrite forallb_forall in Hall. specialize (Hall (Z.to_nat c)).
  rewrite in_seq, Z2Nat.id in Hall by lia. apply Hall. lia.
Qed.

Create HintDb xv6 discriminated.
#[export] Hint Resolve length_slice length_splice length_le_bytes length_put32 : xv6.
