(* ===== verification/Params.v ===== *)
(** * Constants and layouts of the kernel headers

    The configuration constants of param.h, the on-disk format of fs.h, the
    buffer flags of buf.h, the file types of stat.h, the open modes of
    fcntl.h and the interrupt lines of traps.h. *)

From S2P Require Import Prelude.

(** ** param.h *)

Definition NPROC : nat := 64.
Definition KSTACKSIZE : Z := 4096.
Definition NCPU : nat := 8.
Definition NOFILE : nat := 16.
Definition NFILE : nat := 100.
Definition NINODE : nat := 50.
Definition NDEV : Z := 10.
Definition ROOTDEV : Z := 1.
Definition MAXARG : nat := 32.
Definition MAXOPBLOCKS : Z := 10.
Definition LOGSIZE : Z := MAXOPBLOCKS * 3.
Definition NBUF : nat := Z.to_nat (MAXOPBLOCKS * 3).
Definition FSSIZE : Z := 1000.

(** ** fs.h *)

Definition ROOTINO : Z := 1.
Definition BSIZE : nat := 512.

Record superblock := mksb {
  sb_size : Z;
  sb_nblocks : Z;
  sb_ninodes : Z;
  sb_nlog : Z;
  sb_logstart : Z;
  sb_inodestart : Z;
  sb_bmapstart : Z
}.

Definition NDIRECT : nat := 12.
Definition NINDIRECT : nat := BSIZE / 4.
Definition MAXFILE : nat := NDIRECT + NINDIRECT.
(** The largest file, in bytes. *)
Definition MAXBYTES : Z := Z.of_nat MAXFILE * Z.of_nat BSIZE.

Record dinode := mkdinode {
  d_type : Z;
  d_major : Z;
  d_minor : Z;
  d_nlink : Z;
  d_size : Z;
  d_addrs : list Z
}.

(** [sizeof(struct dinode)]: four shorts, a uint and NDIRECT+1 uints. *)
Definition DINODE_SIZE : nat := 4 * 2 + 4 + 4 * (NDIRECT + 1).

Definition IPB : Z := Z.of_nat (BSIZE / DINODE_SIZE).
Definition IBLOCK (i : Z) (sb : superblock) : Z := i / IPB + sb_inodestart sb.
Definition BPB : Z := Z.of_nat BSIZE * 8.
Definition BBLOCK (b : Z) (sb : superblock) : Z := b / BPB + sb_bmapstart sb.

Definition DIRSIZ : nat := 14.

Record dirent := mkdirent {
  de_inum : Z;
  de_name : list Z
}.

(** [sizeof(struct dirent)]. *)
Definition DIRENT_SIZE : nat := 2 + DIRSIZ.

(** A disk block. *)
Abbreviation block := (list Z).
Definition zero_block : block := replicate BSIZE 0.

(** ** buf.h *)

Definition B_VALID : Z := 2.
Definition B_DIRTY : Z := 4.

(** ** stat.h and fcntl.h *)

Definition T_DIR : Z := 1.
Definition T_FILE : Z := 2.
Definition T_DEV : Z := 3.

Definition O_RDONLY : Z := 0.
Definition O_WRONLY : Z := 1.
Definition O_RDWR : Z := 2.
Definition O_CREATE : Z := 512.

(** ** traps.h *)

Definition T_SYSCALL : Z := 64.
Definition T_IRQ0 : Z := 32.
Definition IRQ_TIMER : Z := 0.
Definition IRQ_KBD : Z := 1.
Definition IRQ_COM1 : Z := 4.
Definition IRQ_IDE : Z := 14.
Definition IRQ_ERROR : Z := 19.
Definition IRQ_SPURIOUS : Z := 31.
