(* ===== verification/Str.v ===== *)
(** * Memory and string routines (string.c, ulib.c)

    Block routines work on one flat memory, a list of bytes indexed by
    address, so that overlapping operands are overlapping ranges of the same
    list.  String routines take the memory from a pointer on; past the end of
    such a list there is a NUL. *)

From S2P Require Import Prelude.

(** ** Definitions *)

Definition at0 (p : list Z) : Z := match p with [] => 0 | c :: _ => c end.

(** The string a pointer stands for: the bytes before the first NUL. *)
Fixpoint cstr (p : list Z) : list Z :=
  match p with
  | [] => []
  | c :: p' => if c =? 0 then [] else c :: cstr p'
  end.

(** [rep stosb] and [rep stosl]. *)
Fixpoint stosb (m : list Z) (addr : nat) (data : Z) (cnt : nat) : list Z :=
  match cnt with
  | O => m
  | S cnt' => stosb (<[addr:=u8 data]> m) (S addr) data cnt'
  end.
Fixpoint stosl (m : list Z) (addr : nat) (data : Z) (cnt : nat) : list Z :=
  match cnt with
  | O => m
  | S cnt' => stosl (put32 m addr data) (addr + 4) data cnt'
  end.

Definition memset (m : list Z) (dst : nat) (c : Z) (n : nat) : list Z :=
  if (Z.rem (i32 (Z.of_nat dst)) 4 =? 0) && (n mod 4 =? 0)%nat then
    let c := Z.land c 255 in
    stosl m dst (Z.lor (Z.lor (Z.lor (Z.shiftl c 24) (Z.shiftl c 16)) (Z.shiftl c 8)) c) (n / 4)
  else stosb m dst c n.

Fixpoint memcmp (m : list Z) (s1 s2 n : nat) : Z :=
  match n with
  | O => 0
  | S n' => if m !!! s1 =? m !!! s2 then memcmp m (S s1) (S s2) n' else m !!! s1 - m !!! s2
  end.

(** [*d++ = *s++], [n] times. *)
Fixpoint copy_fwd (m : list Z) (d s n : nat) : list Z :=
  match n with
  | O => m
  | S n' => copy_fwd (<[d:=m !!! s]> m) (S d) (S s) n'
  end.
(** [*--d = *--s], [n] times. *)
Fixpoint copy_bwd (m : list Z) (d s n : nat) : list Z :=
  match n with
  | O => m
  | S n' => copy_bwd (<[(d - 1)%nat:=m !!! (s - 1)%nat]> m) (d - 1) (s - 1) n'
  end.

Definition memmove (m : list Z) (dst src n : nat) : list Z :=
  if (src <? dst)%nat && (dst <? src + n)%nat then copy_bwd m (dst + n) (src + n) n
  else copy_fwd m dst src n.

(** The user library's versions. *)
Definition umemmove (m : list Z) (dst src n : nat) : list Z := copy_fwd m dst src n.
Definition umemset (m : list Z) (dst : nat) (c : Z) (n : nat) : list Z := stosb m dst c n.

Fixpoint strncmp (p q : list Z) (n : nat) : Z :=
  match n with
  | O => 0
  | S n' =>
      if negb (at0 p =? 0) && (at0 p =? at0 q) then strncmp (tl p) (tl q) n'
      else u8 (at0 p) - u8 (at0 q)
  end.

(** The comparison runs until the strings differ or end; the length of [p]
    bounds the number of steps. *)
Fixpoint strcmp (p q : list Z) : Z :=
  match p with
  | [] => u8 0 - u8 (at0 q)
  | c :: p' =>
      if negb (c =? 0) && (c =? at0 q) then strcmp p' (tl q) else u8 c - u8 (at0 q)
  end.

(** [while(n-- > 0) *s++ = 0]. *)
Fixpoint zero_fill (s : list Z) (n : nat) : list Z :=
  match n, s with
  | S n', _ :: s' => 0 :: zero_fill s' n'
  | _, _ => s
  end.

(** [s] is the destination array. *)
Fixpoint strncpy (s t : list Z) (n : nat) : list Z :=
  match n, s with
  | S n', _ :: s' =>
      let c := at0 t in
      if c =? 0 then c :: zero_fill s' n' else c :: strncpy s' (tl t) n'
  | _, _ => s
  end.

(** The body after the test of [n]: [m] is the value [--n] leaves. *)
Fixpoint safestrcpy_loop (s t : list Z) (m : nat) : list Z :=
  match s with
  | [] => []
  | _ :: s' =>
      match m with
      | O => 0 :: s'
      | S m' =>
          let c := at0 t in
          if c =? 0 then c :: match s' with [] => [] | _ :: s'' => 0 :: s'' end
          else c :: safestrcpy_loop s' (tl t) m'
      end
  end.
Definition safestrcpy (s t : list Z) (n : Z) : list Z :=
  if n <=? 0 then s else safestrcpy_loop s t (Z.to_nat (n - 1)).

Fixpoint strlen (s : list Z) : Z :=
  match s with
  | [] => 0
  | c :: s' => if c =? 0 then 0 else 1 + strlen s'
  end.

Fixpoint strcpy (s t : list Z) : list Z :=
  match s with
  | [] => []
  | _ :: s' => let c := at0 t in if c =? 0 then c :: s' else c :: strcpy s' (tl t)
  end.

(** The index of the first [c], or [None] for a null pointer. *)
Fixpoint strchr (s : list Z) (c : Z) : option nat :=
  match s with
  | [] => None
  | x :: s' => if x =? 0 then None else if x =? c then Some O else S <$> strchr s' c
  end.

Fixpoint atoi_loop (s : list Z) (n : Z) : Z :=
  match s with
  | [] => n
  | c :: s' => if (48 <=? c) && (c <=? 57) then atoi_loop s' (i32 (n * 10 + c - 48)) else n
  end.
Definition atoi (s : list Z) : Z := atoi_loop s 0.

(** [gets]: [input] is what [read(0, &c, 1)] delivers, its end a failed read.
    The result is the string stored in [buf], without its NUL, and the unread
    input. *)
Fixpoint gets_loop (fuel : nat) (max i : Z) (input : list Z) : list Z * list Z :=
  match fuel with
  | O => ([], input)
  | S fuel' =>
      if i + 1 <? max then
        match input with
        | [] => ([], [])
        | c :: input' =>
            if (c =? 10) || (c =? 13) then ([c], input')
            else let (l, rest) := gets_loop fuel' max (i + 1) input' in (c :: l, rest)
        end
      else ([], input)
  end.
Definition ugets (max : Z) (input : list Z) : list Z * list Z :=
  gets_loop (length input + 1) max 0 input.

(** ** Copying *)

(** Byte [i] of the memory after a copy. *)
Definition copied (m : list Z) (dst src n i : nat) : option Z :=
  if decide (dst ≤ i < dst + n)%nat then m !! (src + (i - dst))%nat else m !! i.

Lemma copied_splice m dst src n :
  (dst + n ≤ length m)%nat → (src + n ≤ length m)%nat →
  ∀ i, splice dst (slice src n m) m !! i = copied m dst src n i.
Proof.
  intros Hd Hs i. unfold copied.
  assert (length (slice src n m) = n) as Hl by auto with xv6.
  case_decide as Hi.
  - rewrite lookup_splice_in by (rewrite Hl; lia). rewrite lookup_slice by lia. f_equal.
  - apply lookup_splice_out; rewrite Hl; lia.
Qed.

Lemma insert_total_lookup (m : list Z) (d s i : nat) : (s < length m)%nat → (d < length m)%nat →
  <[d:=m !!! s]> m !! i = if decide (i = d) then m !! s else m !! i.
Proof.
  intros Hs Hd. case_decide as E; subst.
  - rewrite list_lookup_insert_eq by done. by rewrite list_lookup_lookup_total_lt.
  - by rewrite list_lookup_insert_ne.
Qed.

(** Copying upwards is right unless the destination starts inside the source. *)
Lemma copy_fwd_spec n : ∀ m d s,
  (d + n ≤ length m)%nat → (s + n ≤ length m)%nat → (d ≤ s ∨ s + n ≤ d)%nat →
  ∀ i, copy_fwd m d s n !! i = copied m d s n i.
Proof.
  induction n as [|n IH]; intros m d s Hd Hs Ho i; simpl.
  { unfold copied. rewrite decide_False by lia. done. }
  rewrite IH by (rewrite ?length_insert; lia). unfold copied.
  rewrite !insert_total_lookup by lia.
  repeat case_decide; subst; try lia; f_equal; lia.
Qed.

(** Copying downwards is right unless the source starts inside the destination. *)
Lemma copy_bwd_spec n : ∀ m d s,
  (d + n ≤ length m)%nat → (s + n ≤ length m)%nat → (s ≤ d ∨ d + n ≤ s)%nat →
  ∀ i, copy_bwd m (d + n) (s + n) n !! i = copied m d s n i.
Proof.
  induction n as [|n IH]; intros m d s Hd Hs Ho i; simpl.
  { unfold copied. rewrite decide_False by lia. done. }
  replace (d + S n - 1)%nat with (d + n)%nat by lia. replace (s + S n - 1)%nat with (s + n)%nat by lia.
  rewrite IH by (rewrite ?length_insert; lia). unfold copied.
  rewrite !insert_total_lookup by lia.
  repeat case_decide; subst; try lia; f_equal; lia.
Qed.

(** [memmove] copies [n] bytes correctly for every overlap of source and
    destination: the result is the old memory with the old source bytes at
    [dst]. *)
Theorem memmove_correct m dst src n :
  (dst + n ≤ length m)%nat → (src + n ≤ length m)%nat →
  memmove m dst src n = splice dst (slice src n m) m.
Proof.
  intros Hd Hs. apply list_eq. intros i. rewrite copied_splice by done. unfold memmove.
  destruct (Nat.ltb_spec src dst), (Nat.ltb_spec dst (src + n)); simpl;
    first [apply copy_bwd_spec; lia|apply copy_fwd_spec; lia].
Qed.

Lemma memmove_correct_witness :
  memmove [1; 2; 3; 4; 5] 1 0 3 = splice 1 (slice 0 3 [1; 2; 3; 4; 5]) [1; 2; 3; 4; 5].
Proof. apply (memmove_correct [1; 2; 3; 4; 5] 1 0 3); simpl; lia. Defined.

(** the user library's [memmove] copies upwards only.  It agrees with the
    kernel's when the destination does not start inside the source, and there
    is an overlapping move on which it does not. *)
Theorem umemmove_overlap :
  (∀ m dst src n, (dst + n ≤ length m)%nat → (src + n ≤ length m)%nat →
     (dst ≤ src ∨ src + n ≤ dst)%nat → umemmove m dst src n = splice dst (slice src n m) m) ∧
  umemmove [1; 2; 3] 1 0 2 ≠ splice 1 (slice 0 2 [1; 2; 3]) [1; 2; 3].
Proof.
  split; [|by vm_compute]. intros m dst src n Hd Hs Ho. apply list_eq. intros i.
  rewrite copied_splice by done. by apply copy_fwd_spec.
Qed.

(** ** Filling *)

Lemma stosb_spec n : ∀ m addr c, (addr + n ≤ length m)%nat →
  stosb m addr c n = splice addr (replicate n (u8 c)) m.
Proof.
  induction n as [|n IH]; intros m addr c Hl; simpl.
  - unfold splice. simpl. rewrite Nat.add_0_r. by rewrite take_drop.
  - rewrite IH by (rewrite length_insert; lia). apply list_eq. intros i.
    destruct (decide (addr ≤ i < addr + S n)%nat) as [Hi|Hi].
    + rewrite (lookup_splice_in addr) by (simpl; rewrite ?length_replicate; lia).
      destruct (decide (i = addr)) as [->|Hne].
      * rewrite Nat.sub_diag. simpl. rewrite lookup_splice_out by (rewrite ?length_replicate, ?length_insert; lia).
        apply list_lookup_insert_eq. lia.
      * rewrite lookup_splice_in by (rewrite ?length_replicate, ?length_insert; lia).
        replace (i - addr)%nat with (S (i - S addr)) by lia. done.
    + rewrite (lookup_splice_out addr) by (simpl; rewrite ?length_replicate; lia).
      rewrite lookup_splice_out by (rewrite ?length_replicate, ?length_insert; lia).
      apply list_lookup_insert_ne. lia.
Qed.

Lemma splice_splice {A} (off : nat) (a b l : list A) :
  (off + length a + length b ≤ length l)%nat →
  splice (off + length a) b (splice off a l) = splice off (a ++ b) l.
Proof.
  intros Hl. pose proof (length_splice off a l) as Ha. pose proof (length_app a b) as Hab.
  apply list_eq. intros i.
  destruct (decide (off ≤ i < off + length (a ++ b))%nat) as [Hi|Hi].
  - rewrite (lookup_splice_in off (a ++ b)) by lia.
    destruct (decide (i < off + length a)%nat).
    + rewrite lookup_splice_out, lookup_splice_in, lookup_app_l by lia. done.
    + rewrite lookup_splice_in, lookup_app_r by lia. f_equal. lia.
  - rewrite !lookup_splice_out by lia. done.
Qed.

Lemma stosl_spec n : ∀ m addr v, (addr + 4 * n ≤ length m)%nat →
  stosl m addr v n = splice addr (concat (replicate n (le_bytes 4 v))) m.
Proof.
  induction n as [|n IH]; intros m addr v Hl; cbn [stosl replicate concat].
  - unfold splice. cbn [length app]. rewrite Nat.add_0_r. by rewrite take_drop.
  - rewrite IH by (rewrite length_put32; lia). unfold put32.
    rewrite <- (length_le_bytes 4 v) at 1. rewrite splice_splice; [done|].
    rewrite length_le_bytes. assert (length (concat (replicate n (le_bytes 4 v))) = 4 * n)%nat as ->; [|lia].
    clear. induction n as [|n IHn]; [done|]. cbn [replicate concat]. rewrite length_app, IHn, length_le_bytes. lia.
Qed.

(** The longword [c c c c] is four times the byte [c]. *)
Lemma le_bytes_dup c : 0 ≤ c < 256 →
  le_bytes 4 (Z.lor (Z.lor (Z.lor (Z.shiftl c 24) (Z.shiftl c 16)) (Z.shiftl c 8)) c) = replicate 4 c.
Proof.
  intros Hc. apply (bool_decide_eq_true_1 (le_bytes 4 _ = _)).
  revert c Hc. apply (byte_cases (λ c, bool_decide (le_bytes 4 _ = replicate 4 c))).
  by vm_compute.
Qed.

(** [memset] stores the low byte of [c] in each of the [n] bytes, whether
    it goes by longwords or by bytes. *)
Theorem memset_correct m dst c n :
  (dst + n ≤ length m)%nat → memset m dst c n = splice dst (replicate n (u8 c)) m.
Proof.
  intros Hl. unfold memset. destruct (_ && _) eqn:E; [|by apply stosb_spec].
  apply andb_prop in E as [_ E%Nat.eqb_eq].
  pose proof (Nat.div_mod n 4 ltac:(lia)) as Hn. rewrite E, Nat.add_0_r in Hn.
  assert (Z.land c 255 = u8 c) as -> by (unfold u8; by rewrite <- (Z.land_ones c 8)).
  rewrite stosl_spec by lia. rewrite le_bytes_dup by (apply Z.mod_pos_bound; lia). f_equal.
  rewrite Hn at 2. generalize (n / 4)%nat. clear. intros k. induction k as [|k IH]; [done|].
  replace (4 * S k)%nat with (4 + 4 * k)%nat by lia. by rewrite replicate_add, <- IH.
Qed.

Lemma memset_correct_witness :
  memset [9; 9; 9; 9; 9] 0 257 4 = splice 0 (replicate 4 (u8 257)) [9; 9; 9; 9; 9].
Proof. apply (memset_correct [9; 9; 9; 9; 9] 0 257 4). simpl. lia. Defined.

(** ** Strings *)

Definition byte (c : Z) : Prop := 0 ≤ c < 256.

Lemma u8_byte c : byte c → u8 c = c.
Proof. intros. by apply Z.mod_small. Qed.

Lemma at0_byte p : Forall byte p → byte (at0 p).
Proof. destruct 1; [unfold byte; simpl; lia|done]. Qed.

Lemma tl_byte p : Forall byte p → Forall byte (tl p).
Proof. by destruct 1. Qed.
#[local] Hint Resolve at0_byte tl_byte : xv6.

Lemma cstr_at0 p : cstr p = if at0 p =? 0 then [] else at0 p :: cstr (tl p).
Proof. by destruct p as [|c p]. Qed.

(** [strncmp] looks at its first string up to the NUL only. *)
Lemma strncmp_cstr n : ∀ p p' q, take n (cstr p) = take n (cstr p') → strncmp p q n = strncmp p' q n.
Proof.
  induction n as [|n IH]; intros p p' q; [done|]. cbn [strncmp]. rewrite (cstr_at0 p), (cstr_at0 p').
  destruct (Z.eqb_spec (at0 p) 0) as [->|Hp], (Z.eqb_spec (at0 p') 0) as [->|Hp']; try done.
  cbn [take negb]. intros [= -> Ht]. by rewrite (IH _ _ _ Ht).
Qed.

Lemma strncmp_zero n : ∀ p q, Forall byte p → Forall byte q →
  strncmp p q n = 0 ↔ take n (cstr p) = take n (cstr q).
Proof.
  induction n as [|n IH]; intros p q Hp Hq; [by rewrite !take_0|]. simpl.
  rewrite !u8_byte by auto with xv6. rewrite (cstr_at0 p), (cstr_at0 q).
  destruct (Z.eqb_spec (at0 p) 0) as [Hp0|Hp0], (Z.eqb_spec (at0 q) 0) as [Hq0|Hq0]; simpl.
  - split; [done|lia].
  - split; [lia|done].
  - destruct (Z.eqb_spec (at0 p) (at0 q)); [lia|]. split; [lia|done].
  - destruct (Z.eqb_spec (at0 p) (at0 q)) as [E|E].
    + rewrite E, IH by auto with xv6. split; [by intros ->|by intros [=]].
    + split; [lia|by intros [=]].
Qed.

Lemma zero_fill_spec n : ∀ s, (n ≤ length s)%nat → zero_fill s n = replicate n 0 ++ drop n s.
Proof. induction n as [|n IH]; intros [|c s] Hl; simpl in *; try lia; [done..|]. by rewrite IH by lia. Qed.

Lemma strncpy_spec n : ∀ s t, (n ≤ length s)%nat →
  strncpy s t n =
  take n (cstr t) ++ replicate (n - length (take n (cstr t))) 0 ++ drop n s.
Proof.
  induction n as [|n IH]; intros [|c s] t Hl; simpl in *; try lia; [done..|].
  rewrite (cstr_at0 t). destruct (Z.eqb_spec (at0 t) 0) as [E|E].
  - rewrite E, zero_fill_spec by lia. done.
  - rewrite IH by lia. done.
Qed.

Lemma cstr_nonzero p : Forall (λ c, c ≠ 0) (cstr p).
Proof. induction p as [|c p IH]; simpl; [done|]. destruct (Z.eqb_spec c 0); by constructor. Qed.

Lemma cstr_app_zero l r : Forall (λ c, c ≠ 0) l → at0 r = 0 → cstr (l ++ r) = l.
Proof.
  intros Hl Hr. induction Hl as [|c l Hc _ IH]; simpl.
  - rewrite cstr_at0, Hr. done.
  - destruct (Z.eqb_spec c 0); [done|]. by rewrite IH.
Qed.

Lemma cstr_id l : Forall (λ c, c ≠ 0) l → cstr l = l.
Proof. intros. rewrite <- (app_nil_r l) at 1. by apply cstr_app_zero. Qed.

Lemma cstr_cstr p : cstr (cstr p) = cstr p.
Proof. apply cstr_id, cstr_nonzero. Qed.

(** A name stored with [strncpy] in a full array reads back as the name,
    truncated to the array. *)
Lemma cstr_strncpy n s t : length s = n → cstr (strncpy s t n) = take n (cstr t).
Proof.
  intros Hl. rewrite strncpy_spec by lia.
  rewrite (drop_ge s) by lia. rewrite app_nil_r.
  assert (Forall (λ c, c ≠ 0) (take n (cstr t))) as Hz by apply Forall_take, cstr_nonzero.
  destruct (n - length _)%nat; [by rewrite app_nil_r, cstr_id|by apply cstr_app_zero].
Qed.

Lemma length_strncpy n s t : length s = n → length (strncpy s t n) = n.
Proof.
  intros Hl. rewrite strncpy_spec by lia. rewrite !length_app, length_replicate, length_drop, length_take. lia.
Qed.

Lemma strncpy_bytes n : ∀ s t, Forall byte s → Forall byte t → Forall byte (strncpy s t n).
Proof.
  assert (∀ n s, Forall byte s → Forall byte (zero_fill s n)) as Hz.
  { clear. induction n as [|n IH]; intros s Hs; [by destruct s|]. destruct Hs; [done|].
    constructor; [unfold byte; lia|auto]. }
  induction n as [|n IH]; intros s t Hs Ht; [by destruct s|]. destruct Hs; [done|]. simpl.
  destruct (_ =? 0); constructor; auto with xv6.
Qed.

(** names survive the directory entry.  Storing [t] with [strncpy] into an
    array of [n] bytes and comparing [u] with it by [strncmp] over [n] bytes
    reports equality exactly when [u] and [t] agree on their first [n] bytes. *)
Theorem strncmp_strncpy s t u :
  Forall byte s → Forall byte t → Forall byte u →
  strncmp u (strncpy s t (length s)) (length s) = 0 ↔
  take (length s) (cstr u) = take (length s) (cstr t).
Proof.
  intros Hs Ht Hu. rewrite strncmp_zero by (done || by apply strncpy_bytes).
  rewrite cstr_strncpy by done. by rewrite take_take, Nat.min_id.
Qed.

Lemma strncmp_strncpy_witness :
  strncmp [97; 98; 0] (strncpy [7; 7; 7] [97; 98; 0; 99] 3) 3 = 0.
Proof. apply (strncmp_strncpy [7; 7; 7] [97; 98; 0; 99] [97; 98; 0]); unfold byte; repeat constructor; lia. Defined.

Lemma safestrcpy_loop_spec m : ∀ s t, (m < length s)%nat →
  cstr (safestrcpy_loop s t m) = take m (cstr t) ∧
  length (safestrcpy_loop s t m) = length s ∧
  drop (S m) (safestrcpy_loop s t m) = drop (S m) s.
Proof.
  induction m as [|m IH]; intros [|c s] t Hl; simpl in *; try lia; [done|].
  rewrite (cstr_at0 t). destruct (Z.eqb_spec (at0 t) 0) as [E|E]; simpl.
  - rewrite E. simpl. destruct s; simpl in *; [lia|]. done.
  - destruct (IH s (tl t)) as (H1&H2&H3); [lia|]. rewrite H1, H2, H3.
    destruct (Z.eqb_spec (at0 t) 0); done.
Qed.

(** [safestrcpy] always leaves a NUL-terminated string in the first [n]
    bytes, the longest prefix of the source that fits, and writes nothing
    beyond. *)
Theorem safestrcpy_correct s t n :
  0 < n ≤ Z.of_nat (length s) →
  cstr (safestrcpy s t n) = take (Z.to_nat n - 1) (cstr t) ∧
  length (safestrcpy s t n) = length s ∧
  drop (Z.to_nat n) (safestrcpy s t n) = drop (Z.to_nat n) s.
Proof.
  intros Hn. unfold safestrcpy. destruct (Z.leb_spec n 0); [lia|].
  destruct (safestrcpy_loop_spec (Z.to_nat (n - 1)) s t) as (H1&H2&H3); [lia|].
  replace (Z.to_nat n) with (S (Z.to_nat (n - 1))) by lia. simpl. rewrite Nat.sub_0_r. auto.
Qed.

Lemma safestrcpy_correct_witness : cstr (safestrcpy [1; 1; 1; 1] [97; 98; 99; 100] 3) = [97; 98].
Proof. destruct (safestrcpy_correct [1; 1; 1; 1] [97; 98; 99; 100] 3) as [H _]; [simpl; lia|exact H]. Defined.

Lemma strlen_spec s : strlen s = Z.of_nat (length (cstr s)).
Proof. induction s as [|c s IH]; simpl; [done|]. destruct (c =? 0); simpl; lia. Qed.

(** ** Numbers *)

Definition digit (c : Z) : Prop := 48 ≤ c ≤ 57.
Definition number (ds : list Z) (n : Z) : Z := foldl (λ n c, n * 10 + (c - 48)) n ds.

Lemma number_mono ds n : Forall digit ds → 0 ≤ n → n ≤ number ds n.
Proof.
  intros Hd. revert n. induction Hd as [|c ds Hc _ IH]; intros n Hn; simpl; [lia|].
  unfold digit in Hc. specialize (IH (n * 10 + (c - 48))). lia.
Qed.

Lemma atoi_loop_spec ds : Forall digit ds → ∀ rest n, 0 ≤ n → number ds n < 2 ^ 31 →
  (∀ c r, rest = c :: r → ¬ digit c) →
  atoi_loop (ds ++ rest) n = number ds n.
Proof.
  induction 1 as [|c ds Hc Hds IH]; intros rest n Hn Hlt Hrest; simpl in *.
  - destruct rest as [|c r]; [done|]. simpl. specialize (Hrest c r eq_refl). unfold digit in Hrest.
    destruct (Z.leb_spec 48 c), (Z.leb_spec c 57); simpl; done || lia.
  - unfold digit in Hc. destruct (Z.leb_spec 48 c), (Z.leb_spec c 57); simpl; try lia.
    pose proof (number_mono ds (n * 10 + (c - 48)) Hds ltac:(lia)).
    rewrite i32_small by lia. replace (n * 10 + c - 48) with (n * 10 + (c - 48)) by lia. apply IH; done || lia.
Qed.

(** ** Lines *)

Definition newline (c : Z) : bool := (c =? 10) || (c =? 13).

Lemma gets_loop_spec fuel : ∀ max i input l rest, (length input < fuel)%nat →
  gets_loop fuel max i input = (l, rest) →
  input = l ++ rest ∧ Z.of_nat (length l) ≤ Z.max 0 (max - 1 - i) ∧
  Forall (λ c, newline c = false) (removelast l) ∧
  (rest = [] ∨ Z.of_nat (length l) = Z.max 0 (max - 1 - i) ∨ ∃ c, last l = Some c ∧ newline c = true).
Proof.
  induction fuel as [|fuel IH]; intros max i input l rest Hf Hg; [lia|]. simpl in Hg.
  destruct (Z.ltb_spec (i + 1) max); [|injection Hg as <- <-; simpl; split_and!; try done; [lia|right; left; lia]].
  destruct input as [|c input].
  { injection Hg as <- <-. simpl. split_and!; try done; [lia|by left]. }
  fold (newline c) in Hg. destruct (newline c) eqn:Hc.
  - injection Hg as <- <-. simpl. split_and!; try done; [lia|]. right; right. eauto.
  - destruct (gets_loop fuel max (i + 1) input) as [l' r'] eqn:E. injection Hg as <- <-.
    simpl in Hf. apply IH in E as (->&Hl&Hn&Hstop); [|lia].
    split_and!; [done|simpl; lia| |].
    + destruct l' as [|c' l']; [constructor|]. change (Forall (λ c, newline c = false) (c :: removelast (c' :: l'))).
      by constructor.
    + destruct Hstop as [?|[?|(c'&Hl'&?)]]; [by left|right; left; simpl; lia|].
      right; right. exists c'. split; [|done]. by destruct l'.
Qed.

(** [gets] reads one line: it takes bytes from the input in order, no
    newline before the last of them, never more than [max - 1], and it stops
    only at the end of input, when the buffer is full, or at a newline. *)
Theorem gets_correct max input l rest :
  ugets max input = (l, rest) →
  input = l ++ rest ∧ Z.of_nat (length l) ≤ Z.max 0 (max - 1) ∧
  Forall (λ c, newline c = false) (removelast l) ∧
  (rest = [] ∨ Z.of_nat (length l) = Z.max 0 (max - 1) ∨ ∃ c, last l = Some c ∧ newline c = true).
Proof.
  intros Hg. apply gets_loop_spec in Hg; [|lia]. by rewrite Z.sub_0_r in Hg.
Qed.

Lemma gets_correct_witness : [97; 10; 98] = [97; 10] ++ [98].
Proof. apply (gets_correct 100 [97; 10; 98] [97; 10] [98]). reflexivity. Defined.
