(* ===== verification/Mmu.v ===== *)
(** * Addresses and page table entries (mmu.h, memlayout.h)

    The macros as bit operations on 32-bit words, and what they are in terms
    of division. *)

From S2P Require Import Prelude.

Definition PGSIZE : Z := 4096.
Definition PTXSHIFT : Z := 12.
Definition PDXSHIFT : Z := 22.
Definition NPDENTRIES : nat := 1024.

Definition PDX (va : Z) : Z := Z.land (Z.shiftr (u32 va) PDXSHIFT) 1023.
Definition PTX (va : Z) : Z := Z.land (Z.shiftr (u32 va) PTXSHIFT) 1023.
Definition PGADDR (d t o : Z) : Z :=
  u32 (Z.lor (Z.lor (Z.shiftl d PDXSHIFT) (Z.shiftl t PTXSHIFT)) o).

(** [~(PGSIZE-1)] as a 32-bit word. *)
Definition PGMASK : Z := 4294963200.
Definition PGROUNDUP (sz : Z) : Z := Z.land (u32 (sz + PGSIZE - 1)) PGMASK.
Definition PGROUNDDOWN (a : Z) : Z := Z.land (u32 a) PGMASK.

Definition PTE_P : Z := 1.
Definition PTE_W : Z := 2.
Definition PTE_U : Z := 4.
Definition PTE_ADDR (pte : Z) : Z := Z.land (u32 pte) PGMASK.
Definition PTE_FLAGS (pte : Z) : Z := Z.land (u32 pte) 4095.

(** ** memlayout.h *)

Definition EXTMEM : Z := 1048576.
Definition PHYSTOP : Z := 234881024.
Definition DEVSPACE : Z := 4261412864.
Definition KERNBASE : Z := 2147483648.
Definition KERNLINK : Z := KERNBASE + EXTMEM.
Definition V2P (a : Z) : Z := u32 (a - KERNBASE).
Definition P2V (a : Z) : Z := u32 (a + KERNBASE).

(** ** The macros as arithmetic *)

Lemma land_mask x k n : 0 ≤ k ≤ n → 0 ≤ x < 2 ^ n → Z.land x (2 ^ n - 2 ^ k) = x / 2 ^ k * 2 ^ k.
Proof.
  intros Hk Hx. assert (2 ^ n - 2 ^ k = Z.shiftl (Z.ones (n - k)) k) as ->.
  { rewrite Z.ones_equiv, Z.shiftl_mul_pow2 by lia. rewrite <- Z.sub_1_r, Z.mul_sub_distr_r, <- Z.pow_add_r by lia.
    replace (n - k + k) with n by lia. lia. }
  apply Z.bits_inj'. intros i Hi. rewrite Z.land_spec, Z.shiftl_spec, Z.mul_pow2_bits by lia.
  destruct (decide (i < k)) as [Hik|Hik].
  - rewrite !(Z.testbit_neg_r _ (i - k)) by lia. by rewrite andb_false_r.
  - rewrite Z.div_pow2_bits by lia. replace (i - k + k) with i by lia.
    destruct (decide (i < n)) as [Hin|Hin].
    + rewrite Z.ones_spec_low by lia. by rewrite andb_true_r.
    + rewrite Z.ones_spec_high by lia. rewrite andb_false_r. symmetry.
      destruct (decide (x = 0)) as [->|]; [apply Z.bits_0|]. apply Z.bits_above_log2; [lia|].
      apply Z.log2_lt_pow2; [lia|]. apply Z.lt_le_trans with (2 ^ n); [lia|apply Z.pow_le_mono_r; lia].
Qed.

Lemma PGMASK_land x : Z.land (u32 x) PGMASK = u32 x / 4096 * 4096.
Proof. pose proof (u32_range x). by apply (land_mask (u32 x) 12 32). Qed.

Lemma PTE_FLAGS_mod x : PTE_FLAGS x = u32 x mod 4096.
Proof. unfold PTE_FLAGS. by apply (Z.land_ones (u32 x) 12). Qed.

Lemma PDX_div va : 0 ≤ va < 2 ^ 32 → PDX va = va / 2 ^ 22.
Proof.
  intros H. unfold PDX, PDXSHIFT. rewrite u32_small, Z.shiftr_div_pow2 by lia.
  change 1023 with (Z.ones 10). rewrite Z.land_ones by lia. apply Z.mod_small. dlia.
Qed.

Lemma PTX_div va : 0 ≤ va < 2 ^ 32 → PTX va = va / 2 ^ 12 mod 2 ^ 10.
Proof.
  intros H. unfold PTX, PTXSHIFT. rewrite u32_small, Z.shiftr_div_pow2 by lia.
  change 1023 with (Z.ones 10). by rewrite Z.land_ones by lia.
Qed.

Lemma PTE_ADDR_div x : PTE_ADDR x = u32 x / 4096 * 4096.
Proof. apply PGMASK_land. Qed.

Lemma PGROUNDDOWN_div a : 0 ≤ a < 2 ^ 32 → PGROUNDDOWN a = a / 4096 * 4096.
Proof. intros. unfold PGROUNDDOWN. by rewrite PGMASK_land, u32_small. Qed.

Lemma PGROUNDUP_div a : 0 ≤ a ≤ 2 ^ 32 - 4096 → PGROUNDUP a = (a + 4095) / 4096 * 4096.
Proof.
  intros. unfold PGROUNDUP, PGSIZE. replace (a + 4096 - 1) with (a + 4095) by lia.
  by rewrite PGMASK_land, u32_small by lia.
Qed.

(** The flag bits of a page-aligned address with flags. *)
Lemma lor_flags a f : a mod 4096 = 0 → 0 ≤ f < 4096 → 0 ≤ a → Z.lor a f = a + f.
Proof.
  intros Ha Hf H0. assert (Z.land a f = 0) as Hz.
  { apply Z.bits_inj'. intros i Hi. rewrite Z.land_spec, Z.bits_0.
    destruct (decide (i < 12)) as [Hlt|Hge].
    - rewrite <- (Z.mod_pow2_bits_low a 12 i) by lia. change (2 ^ 12) with 4096. by rewrite Ha, Z.bits_0.
    - rewrite <- (Z.mod_small f (2 ^ 12)) by lia. rewrite Z.mod_pow2_bits_high by lia. by rewrite andb_false_r. }
  rewrite <- Z.lxor_lor by done. by rewrite <- Z.add_nocarry_lxor.
Qed.

Lemma land_1_mod x : Z.land x 1 = x mod 2.
Proof. by apply (Z.land_ones x 1). Qed.
