(* ===== verification/Mp.v ===== *)
(** * Multiprocessor tables (mp.c, mp.h)

    The BIOS leaves a description of the processors in memory; [mpinit] finds
    it and takes the processors and the I/O interrupt controller from it.
    Memory is the bytes at kernel addresses, which mp.c only reads. *)

From S2P Require Import Prelude Params Mmu Str.

Definition MPPROC : Z := 0.
Definition MPBUS : Z := 1.
Definition MPIOAPIC : Z := 2.
Definition MPIOINTR : Z := 3.
Definition MPLINTR : Z := 4.

(** Sizes of the structures of mp.h. *)
Definition MP_SIZE : Z := 16.
Definition MPCONF_SIZE : Z := 44.
Definition MPPROC_SIZE : Z := 20.
Definition MPIOAPIC_SIZE : Z := 8.

(** What mp.c sets: [lapic], [ncpu], the [apicid]s of [cpus], [ioapicid] and the
    ports 0x22 and 0x23 of the interrupt mode register. *)
Record mpst := mkmp {
  mp_lapic : Z;
  mp_ncpu : Z;
  mp_apicids : list Z;
  mp_ioapicid : Z;
  mp_imcr : Z;
  mp_out : list (Z * Z)
}.
Definition set_lapic (v : Z) (s : mpst) : mpst := mkmp v (mp_ncpu s) (mp_apicids s) (mp_ioapicid s) (mp_imcr s) (mp_out s).
Definition add_cpu (id : Z) (s : mpst) : mpst :=
  mkmp (mp_lapic s) (mp_ncpu s + 1) (<[Z.to_nat (mp_ncpu s):=id]> (mp_apicids s)) (mp_ioapicid s) (mp_imcr s) (mp_out s).
Definition set_ioapicid (v : Z) (s : mpst) : mpst := mkmp (mp_lapic s) (mp_ncpu s) (mp_apicids s) v (mp_imcr s) (mp_out s).
Definition mp_outb (port v : Z) : M mpst unit := modify (λ s,
  mkmp (mp_lapic s) (mp_ncpu s) (mp_apicids s) (mp_ioapicid s) (if port =? 35 then v else mp_imcr s) (mp_out s ++ [(port, v)])).

Section mp.
Context (mem : Z → Z).

(** Little-endian fields. *)
Definition mem16 (a : Z) : Z := mem a + 256 * mem (a + 1).
Definition mem32 (a : Z) : Z := mem16 a + 65536 * mem16 (a + 2).
Definition bytes_at (a : Z) (n : nat) : list Z := (λ i, mem (a + i)) <$> seqZ 0 (Z.of_nat n).

(** [memcmp(p, l, 4) == 0]. *)
Definition is_at (a : Z) (l : list Z) : bool := bool_decide (bytes_at a (length l) = l).
Definition sig_mp : list Z := [95; 77; 80; 95].
Definition sig_pcmp : list Z := [80; 67; 77; 80].

Definition sum (addr : Z) (len : nat) : Z := u8 (foldr Z.add 0 (bytes_at addr len)).

Fixpoint mpsearch1_loop (fuel : nat) (p e : Z) : Z :=
  match fuel with
  | O => 0
  | Datatypes.S fuel' =>
      if p <? e then
        if is_at p sig_mp && (sum p (Z.to_nat MP_SIZE) =? 0) then p
        else mpsearch1_loop fuel' (p + MP_SIZE) e
      else 0
  end.
Definition mpsearch1 (a : Z) (len : nat) : Z :=
  let addr := P2V a in
  mpsearch1_loop (len / 16 + 1) addr (addr + Z.of_nat len).

Definition mpsearch : Z :=
  let bda := P2V 1024 in
  let p := Z.shiftl (Z.lor (Z.shiftl (mem (bda + 15)) 8) (mem (bda + 14))) 4 in
  let mp :=
    if negb (p =? 0) then mpsearch1 p 1024
    else
      let p := Z.lor (Z.shiftl (mem (bda + 20)) 8) (mem (bda + 19)) * 1024 in
      mpsearch1 (u32 (p - 1024)) 1024 in
  if negb (mp =? 0) then mp else mpsearch1 983040 (Z.to_nat 65536).

(** The addresses of the structure and of the table. *)
Definition mpconfig : option (Z * Z) :=
  let mp := mpsearch in
  if (mp =? 0) || (mem32 (mp + 4) =? 0) then None
  else
    let conf := P2V (mem32 (mp + 4)) in
    if negb (is_at conf sig_pcmp) then None
    else if negb (mem (conf + 6) =? 1) && negb (mem (conf + 6) =? 4) then None
    else if negb (sum conf (Z.to_nat (mem16 (conf + 4))) =? 0) then None
    else Some (mp, conf).

(** The loop over the entries from [p] to [e]. *)
Fixpoint mpinit_loop (fuel : nat) (p e : Z) (ismp : bool) : M mpst bool :=
  match fuel with
  | O => diverge
  | Datatypes.S fuel' =>
      if p <? e then
        let t := mem p in
        if t =? MPPROC then
          s ← gets id;
          (if mp_ncpu s <? Z.of_nat NCPU then modify (add_cpu (mem (p + 1))) else mret tt);;
          mpinit_loop fuel' (p + MPPROC_SIZE) e ismp
        else if t =? MPIOAPIC then
          modify (set_ioapicid (mem (p + 1)));;
          mpinit_loop fuel' (p + MPIOAPIC_SIZE) e ismp
        else if (t =? MPBUS) || (t =? MPIOINTR) || (t =? MPLINTR) then mpinit_loop fuel' (p + 8) e ismp
        else mpinit_loop fuel' p e false        (* the break leaves the switch *)
      else mret ismp
  end.

Definition mpinit (fuel : nat) : M mpst unit :=
  match mpconfig with
  | None => panic "Expect to run on an SMP"
  | Some (mp, conf) =>
      modify (set_lapic (mem32 (conf + 36)));;
      ismp ← mpinit_loop fuel (conf + MPCONF_SIZE) (conf + mem16 (conf + 4)) true;
      if negb ismp then panic "Didn't find a suitable machine"
      else if negb (mem (mp + 12) =? 0) then
        mp_outb 34 112;;
        v ← gets mp_imcr;
        mp_outb 35 (Z.lor v 1)
      else mret tt
  end.

(** ** The CPU that runs (proc.c) *)

(** [eflags] as read by [readeflags], and the id of the local controller. *)
Definition mycpu (eflags apicid : Z) : M mpst nat :=
  if negb (Z.land eflags 512 =? 0) then panic "mycpu called with interrupts enabled"
  else
    s ← gets id;
    match list_find (λ x, x = apicid) (take (Z.to_nat (mp_ncpu s)) (mp_apicids s)) with
    | Some (i, _) => mret i
    | None => panic "unknown apicid"
    end.
Definition cpuid (eflags apicid : Z) : M mpst Z := i ← mycpu eflags apicid; mret (Z.of_nat i).

(** ** Searching *)

Definition mp_here (p : Z) : Prop := bytes_at p 4 = sig_mp ∧ sum p 16 = 0.

Lemma mpsearch1_loop_spec fuel p n : 0 < p → (n ≤ 16 * (fuel - 1))%nat → (0 < fuel)%nat →
  let r := mpsearch1_loop fuel p (p + Z.of_nat n) in
  (r = 0 ∧ ∀ k, 0 ≤ k → 16 * k < Z.of_nat n → ¬ mp_here (p + 16 * k)) ∨
  (∃ k, 0 ≤ k ∧ 16 * k < Z.of_nat n ∧ r = p + 16 * k ∧ mp_here r ∧ ∀ k', 0 ≤ k' < k → ¬ mp_here (p + 16 * k')).
Proof.
  revert p n. induction fuel as [|fuel IH]; intros p n Hp Hn Hf; [lia|]. cbn [mpsearch1_loop]. destruct (Z.ltb_spec p (p + Z.of_nat n)) as [Hlt|Hge]; [|left; split; [done|lia]].
  assert (Hm : is_at p sig_mp && (sum p (Z.to_nat MP_SIZE) =? 0) = true ↔ mp_here p).
  { unfold is_at, mp_here. rewrite andb_true_iff, bool_decide_eq_true, Z.eqb_eq. done. }
  destruct (is_at p sig_mp && (sum p (Z.to_nat MP_SIZE) =? 0)) eqn:E.
  - right. exists 0. rewrite Z.mul_0_r, Z.add_0_r. split_and!; [lia|lia|done|by apply Hm|lia].
  - assert (Hne : ¬ mp_here p) by (intros H; apply Hm in H; congruence). unfold MP_SIZE.
    destruct (decide (n ≤ 16)%nat) as [Hs|Hs].
    { left. split; [destruct fuel; [done|]; cbn [mpsearch1_loop]; by rewrite (proj2 (Z.ltb_ge _ _)) by lia|].
      intros k Hk Hlt'. assert (k = 0) as -> by lia. by rewrite Z.mul_0_r, Z.add_0_r. }
    destruct (IH (p + 16) (n - 16)%nat) as [[Hz Hall]|(k&Hk&Hlt'&Hr&Hh&Hb)]; [lia|lia|lia|..];
      replace (p + 16 + Z.of_nat (n - 16)) with (p + Z.of_nat n) in * by lia.
    + left. split; [done|]. intros k Hk Hlt'. destruct (decide (k = 0)) as [->|]; [by rewrite Z.mul_0_r, Z.add_0_r|].
      replace (p + 16 * k) with (p + 16 + 16 * (k - 1)) by lia. apply Hall; lia.
    + right. exists (k + 1). split_and!; [lia|lia|rewrite Hr; lia|done|]. intros k' Hk'.
      destruct (decide (k' = 0)) as [->|]; [by rewrite Z.mul_0_r, Z.add_0_r|]. replace (p + 16 * k') with (p + 16 + 16 * (k' - 1)) by lia. apply Hb; lia.
Qed.

(** [mpsearch1] returns the first structure in the area. *)
Theorem mpsearch1_correct a m : 0 < P2V a →
  let r := mpsearch1 a (16 * m) in
  (r = 0 ∧ ∀ k, 0 ≤ k < Z.of_nat m → ¬ mp_here (P2V a + 16 * k)) ∨
  (∃ k, 0 ≤ k < Z.of_nat m ∧ r = P2V a + 16 * k ∧ mp_here r ∧ ∀ k', 0 ≤ k' < k → ¬ mp_here (P2V a + 16 * k')).
Proof.
  intros Ha. unfold mpsearch1. replace (16 * m / 16)%nat with m by (rewrite Nat.mul_comm; by rewrite Nat.div_mul).
  destruct (mpsearch1_loop_spec (m + 1) (P2V a) (16 * m) Ha ltac:(lia) ltac:(lia)) as [[H1 H2]|(k&H1&H2&H3&H4&H5)].
  - left. split; [done|]. intros k Hk. apply H2; lia.
  - right. exists k. split_and!; try done; lia.
Qed.

(** ** The entries of the table *)

Inductive mpent := EProc (id : Z) (rest : list Z) | EIoapic (id : Z) (rest : list Z) | EOther (t : Z) (rest : list Z).
Definition enc (x : mpent) : list Z :=
  match x with EProc id r => MPPROC :: id :: r | EIoapic id r => MPIOAPIC :: id :: r | EOther t r => t :: r end.
Definition ent_ok (x : mpent) : Prop :=
  match x with
  | EProc _ r => length r = 18%nat
  | EIoapic _ r => length r = 6%nat
  | EOther t r => length r = 7%nat ∧ (t = MPBUS ∨ t = MPIOINTR ∨ t = MPLINTR)
  end.
Definition proc_ids (xs : list mpent) : list Z := omap (λ x, match x with EProc id _ => Some id | _ => None end) xs.
Definition ioapic_of (d : Z) (xs : list mpent) : Z := foldl (λ d x, match x with EIoapic id _ => id | _ => d end) d xs.

(** What the entries do to the state. *)
Definition take_ent (s : mpst) (x : mpent) : mpst :=
  match x with
  | EProc id _ => if mp_ncpu s <? Z.of_nat NCPU then add_cpu id s else s
  | EIoapic id _ => set_ioapicid id s
  | EOther _ _ => s
  end.

Definition at_ (p : Z) (l : list Z) : Prop := ∀ i b, l !! i = Some b → mem (p + Z.of_nat i) = b.
Lemma at_app p l1 l2 : at_ p (l1 ++ l2) → at_ p l1 ∧ at_ (p + Z.of_nat (length l1)) l2.
Proof.
  intros H. split; intros i b Hi.
  - apply H. by apply lookup_app_l_Some.
  - rewrite <- Z.add_assoc, <- Nat2Z.inj_add. apply H. rewrite lookup_app_r by lia. by rewrite Nat.add_comm, Nat.add_sub.
Qed.

Lemma mpinit_ent fuel p e ismp x s : ent_ok x → at_ p (enc x) → p < e →
  mpinit_loop (Datatypes.S fuel) p e ismp s = mpinit_loop fuel (p + Z.of_nat (length (enc x))) e ismp (take_ent s x).
Proof.
  intros Hx Ha Hp. cbn [mpinit_loop]. rewrite (proj2 (Z.ltb_lt p e) Hp). pose proof (Ha 0%nat) as H0. rewrite Z.add_0_r in H0.
  pose proof (Ha 1%nat) as H1. change (Z.of_nat 1) with 1 in H1. destruct x as [id r|id r|t r]; cbn [enc length] in *.
  - rewrite (H0 MPPROC eq_refl), (H1 id eq_refl). change (MPPROC =? MPPROC) with true. cbn [ent_ok] in Hx. rewrite Hx. cbn [take_ent].
    unfold gets, modify, mbind, M_bind. cbn [Datatypes.id]. by destruct (mp_ncpu s <? Z.of_nat NCPU).
  - rewrite (H0 MPIOAPIC eq_refl), (H1 id eq_refl). change (MPIOAPIC =? MPPROC) with false. change (MPIOAPIC =? MPIOAPIC) with true. cbn [ent_ok] in Hx. by rewrite Hx.
  - rewrite (H0 t eq_refl). destruct Hx as [Hr Ht]. rewrite Hr. by destruct Ht as [->|[->| ->]].
Qed.

Lemma mpinit_ents xs fuel p e ismp s : Forall ent_ok xs → at_ p (xs ≫= enc) → p + Z.of_nat (length (xs ≫= enc)) ≤ e →
  mpinit_loop (length xs + fuel) p e ismp s = mpinit_loop fuel (p + Z.of_nat (length (xs ≫= enc))) e ismp (foldl take_ent s xs).
Proof.
  intros Hx. revert p s. induction Hx as [|x xs Hx Hxs IH]; intros p s Ha He; [by rewrite Z.add_0_r|].
  rewrite bind_cons in *. apply at_app in Ha as [Ha1 Ha2]. rewrite length_app, Nat2Z.inj_add in *.
  assert (0 < Z.of_nat (length (enc x))) by (destruct x; cbn; lia). cbn [length Nat.add foldl].
  rewrite (mpinit_ent _ _ _ _ x) by (done || lia). rewrite IH by (done || lia). f_equal. lia.
Qed.

(** The processors that are taken, in their order. *)
Lemma take_ents xs s n ids : mp_ncpu s = Z.of_nat n → (n ≤ NCPU)%nat → length (mp_apicids s) = NCPU → take n (mp_apicids s) = ids →
  let s' := foldl take_ent s xs in
  let all := take NCPU (ids ++ proc_ids xs) in
  mp_ncpu s' = Z.of_nat (length all) ∧ take (length all) (mp_apicids s') = all ∧ length (mp_apicids s') = NCPU ∧
  mp_ioapicid s' = ioapic_of (mp_ioapicid s) xs ∧ mp_lapic s' = mp_lapic s ∧ mp_imcr s' = mp_imcr s ∧ mp_out s' = mp_out s.
Proof.
  revert s n ids. induction xs as [|x xs IH]; intros s n ids Hn Hle Hlen Hids.
  - assert (length ids = n) by (rewrite <- Hids, length_take; lia). cbn [foldl proc_ids omap list_omap]. rewrite app_nil_r, take_ge by lia. by subst n.
  - cbn [foldl]. destruct x as [id r|id r|t r]; [|by apply (IH (set_ioapicid id s) n ids)|by apply (IH s n ids)].
    assert (length ids = n) as Hl by (rewrite <- Hids, length_take; lia).
    change (proc_ids (EProc id r :: xs)) with (id :: proc_ids xs). change (ioapic_of (mp_ioapicid s) (EProc id r :: xs)) with (ioapic_of (mp_ioapicid s) xs).
    change (take_ent s (EProc id r)) with (if mp_ncpu s <? Z.of_nat NCPU then add_cpu id s else s). rewrite Hn. destruct (Z.ltb_spec (Z.of_nat n) (Z.of_nat NCPU)) as [Hlt|Hge].
    + replace (ids ++ id :: proc_ids xs) with ((ids ++ [id]) ++ proc_ids xs) by (by rewrite <- app_assoc).
      apply (IH (add_cpu id s) (Datatypes.S n) (ids ++ [id])); cbn [add_cpu mp_ncpu mp_apicids]; [lia|lia|by rewrite length_insert|].
      rewrite Hn, Nat2Z.id. rewrite (take_S_r _ _ id) by (apply list_lookup_insert_eq; lia). by rewrite take_insert_ge, Hids.
    + assert (n = NCPU) as -> by lia. replace (take NCPU (ids ++ id :: proc_ids xs)) with (take NCPU (ids ++ proc_ids xs)) by (by rewrite !take_app_length').
      by apply (IH s NCPU ids).
Qed.

Lemma mycpu_index s i ids id : take (Z.to_nat (mp_ncpu s)) (mp_apicids s) = ids → NoDup ids → ids !! i = Some id → mycpu 0 id s = Done i s.
Proof.
  intros E Hd Hi. unfold mycpu. change (negb (Z.land 0 512 =? 0)) with false. cbv iota. unfold gets, mbind, M_bind. cbn [Datatypes.id]. rewrite E.
  destruct (list_find (λ x, x = id) ids) as [[j x]|] eqn:Ef.
  - apply list_find_Some in Ef as (Hj&->&_). by rewrite (NoDup_lookup _ _ _ _ Hd Hj Hi).
  - apply list_find_None in Ef. by destruct (proj1 (Forall_lookup _ _) Ef i id Hi).
Qed.

(** C38: [mpinit] reads the table.  Whatever processors, interrupt controllers,
    buses and interrupt sources the table that [mpconfig] accepts lists, it
    ends with the first NCPU processors, in the order of the table, the last
    I/O interrupt controller and the address of the local one, and switches to
    symmetric mode exactly when the structure asks for it.  From then on
    [mycpu] gives each of these processors its index. *)
Theorem mpinit_reads xs mp conf s fuel :
  mpconfig = Some (mp, conf) → Forall ent_ok xs → at_ (conf + MPCONF_SIZE) (xs ≫= enc) →
  mem16 (conf + 4) = MPCONF_SIZE + Z.of_nat (length (xs ≫= enc)) →
  mp_ncpu s = 0 → length (mp_apicids s) = NCPU → (length xs < fuel)%nat →
  ∃ s', mpinit fuel s = Done tt s' ∧
    mp_ncpu s' = Z.of_nat (length (take NCPU (proc_ids xs))) ∧
    take (Z.to_nat (mp_ncpu s')) (mp_apicids s') = take NCPU (proc_ids xs) ∧
    mp_ioapicid s' = ioapic_of (mp_ioapicid s) xs ∧
    mp_lapic s' = mem32 (conf + 36) ∧
    mp_out s' = mp_out s ++ (if mem (mp + 12) =? 0 then [] else [(34, 112); (35, Z.lor (mp_imcr s) 1)]) ∧
    (NoDup (proc_ids xs) → ∀ i id, take NCPU (proc_ids xs) !! i = Some id → mycpu 0 id s' = Done i s').
Proof.
  intros Hc Hx Ha Hl Hn Hlen Hf. unfold mpinit. rewrite Hc. replace fuel with (length xs + Datatypes.S (fuel - length xs - 1))%nat by lia.
  destruct (take_ents xs (set_lapic (mem32 (conf + 36)) s) 0 [] Hn ltac:(lia) Hlen eq_refl) as (T1&T2&T3&T4&T5&T6&T7).
  unfold modify at 1. unfold mbind at 1, M_bind at 1. unfold mbind at 1, M_bind at 1.
  rewrite (mpinit_ents xs) by (done || lia). cbn [mpinit_loop]. rewrite Hl, (proj2 (Z.ltb_ge _ _)) by lia.
  set (s1 := foldl take_ent (set_lapic (mem32 (conf + 36)) s) xs) in *. cbn [mret M_ret negb].
  rewrite app_nil_l in T1, T2. assert (T2' : take (Z.to_nat (mp_ncpu s1)) (mp_apicids s1) = take NCPU (proc_ids xs)) by (by rewrite T1, Nat2Z.id).
  destruct (mem (mp + 12) =? 0); cbn [negb]; eexists; (split; [reflexivity|]); cbn [mp_ncpu mp_apicids mp_ioapicid mp_lapic mp_imcr mp_out Z.eqb]; split_and!; try done.
  all: try (intros Hd i id Hi; apply (mycpu_index _ _ (take NCPU (proc_ids xs))); [exact T2'|eapply sublist_NoDup; [exact Hd|apply sublist_take]|exact Hi]).
  - by rewrite T7, app_nil_r.
  - rewrite T7, <- app_assoc. change (34 =? 35) with false. cbv iota. by rewrite T6.
Qed.

(** An entry of another type before the end: the [break] of the [default] case
    leaves the [switch] but not the loop, whose [p] stays where it is.
    [mpinit] never ends, instead of reporting that the machine is not suitable. *)
Theorem mpinit_unknown_entry_spins xs t mp conf s fuel :
  mpconfig = Some (mp, conf) → Forall ent_ok xs → at_ (conf + MPCONF_SIZE) ((xs ≫= enc) ++ [t]) → 4 < t →
  MPCONF_SIZE + Z.of_nat (length (xs ≫= enc)) < mem16 (conf + 4) →
  mpinit (length xs + fuel) s = Diverge.
Proof.
  intros Hc Hx Ha Ht Hl. apply at_app in Ha as [Ha1 Ha2]. unfold mpinit. rewrite Hc. unfold modify at 1. unfold mbind at 1, M_bind at 1. unfold mbind at 1, M_bind at 1.
  rewrite (mpinit_ents xs) by (done || lia).
  assert (Hs : ∀ p s b, mem p = t → p < conf + mem16 (conf + 4) → mpinit_loop fuel p (conf + mem16 (conf + 4)) b s = Diverge).
  { intros p s1 b Hp Hlt. revert b. induction fuel as [|f IH]; intros b; [done|]. cbn [mpinit_loop]. rewrite (proj2 (Z.ltb_lt _ _) Hlt), Hp.
    unfold MPPROC, MPIOAPIC, MPBUS, MPIOINTR, MPLINTR. rewrite (proj2 (Z.eqb_neq t 0)), (proj2 (Z.eqb_neq t 2)), (proj2 (Z.eqb_neq t 1)), (proj2 (Z.eqb_neq t 3)), (proj2 (Z.eqb_neq t 4)) by lia. apply IH. }
  rewrite Hs; [done| |lia]. rewrite <- (Ha2 0%nat t eq_refl). f_equal. lia.
Qed.
End mp.

(** A machine with one processor, an I/O interrupt controller and a bus, whose
    structure is in the BIOS and whose table is at 0x1000. *)
Module Demo.
Definition floating : list Z := sig_mp ++ le_bytes 4 4096 ++ [1; 4; 16; 0; 128; 0; 0; 0].
Definition entries : list mpent := [EProc 0 (replicate 18 0); EIoapic 2 (replicate 6 0); EOther MPBUS (replicate 7 0)].
Definition conf_table : list Z :=
  sig_pcmp ++ [80; 0; 4; 150] ++ replicate 26 0 ++ [3; 0; 0; 0; 224; 254; 0; 0; 0; 0] ++ (entries ≫= enc).
Definition mem (a : Z) : Z :=
  if (P2V 983040 <=? a) && (a <? P2V 983040 + 16) then floating !!! Z.to_nat (a - P2V 983040)
  else if (P2V 4096 <=? a) && (a <? P2V 4096 + 80) then conf_table !!! Z.to_nat (a - P2V 4096)
  else 0.
Definition start : mpst := mkmp 0 0 (replicate NCPU 0) 0 0 [].

Lemma mpinit_reads_witness : ∃ s', mpinit mem 4 start = Done tt s' ∧ mp_ncpu s' = 1 ∧ mp_ioapicid s' = 2 ∧ mp_lapic s' = 4276092928 ∧ mp_out s' = [(34, 112); (35, 1)].
Proof.
  destruct (mpinit_reads mem entries (P2V 983040) (P2V 4096) start 4) as (s'&E&H1&_&H2&H3&H4&_).
  - vm_compute. reflexivity.
  - repeat constructor.
  - intros i b Hi. change (entries ≫= enc) with (drop 44 conf_table) in Hi. rewrite lookup_drop in Hi. pose proof (lookup_lt_Some _ _ _ Hi) as Hlt. change (length conf_table) with 80%nat in Hlt.
    unfold mem, MPCONF_SIZE. change (P2V 983040) with 2148466688. change (P2V 4096) with 2147487744.
    rewrite (proj2 (Z.leb_gt 2148466688 _)) by lia. cbn [andb]. rewrite (proj2 (Z.leb_le _ _)), (proj2 (Z.ltb_lt _ _)) by lia. cbn [andb].
    apply list_lookup_total_correct. rewrite <- Hi. f_equal. lia.
  - vm_compute. reflexivity.
  - reflexivity.
  - reflexivity.
  - cbn. lia.
  - exists s'. split_and!; assumption.
Defined.
End Demo.
