(* ===== verification/Apic.v ===== *)
(** * Interrupt controllers and clock (ioapic.c, lapic.c, picirq.c)

    The drivers run on devices as their documentation describes them: the I/O
    controller has a register that selects and one that gives access to the
    selected register, the local controller is an array of registers that
    shows for a while that an interrupt is being delivered, and the clock
    counts on while its registers are read one by one. *)

From S2P Require Import Prelude Params Mmu.

(** ** The I/O interrupt controller *)

Definition REG_ID : Z := 0.
Definition REG_VER : Z := 1.
Definition REG_TABLE : Z := 16.
Definition INT_DISABLED : Z := 65536.

(** The device, and what [cprintf] has been given. *)
Record ioapic := mkioapic { io_reg : Z; io_regs : gmap Z Z; io_msgs : list string }.

Definition io_select (reg : Z) : M ioapic unit := modify (λ s, mkioapic reg (io_regs s) (io_msgs s)).
Definition io_data : M ioapic Z := gets (λ s, default 0 (io_regs s !! io_reg s)).
Definition io_set_data (v : Z) : M ioapic unit := modify (λ s, mkioapic (io_reg s) (<[io_reg s:=v]> (io_regs s)) (io_msgs s)).

Definition ioapicread (reg : Z) : M ioapic Z :=
  io_select reg;;
  io_data.
Definition ioapicwrite (reg data : Z) : M ioapic unit :=
  io_select reg;;
  io_set_data data.

Definition ioapicinit (ioapicid : Z) : M ioapic unit :=
  v ← ioapicread REG_VER;
  let maxintr := Z.land (Z.shiftr v 16) 255 in
  v ← ioapicread REG_ID;
  let id := Z.shiftr v 24 in
  when (negb (id =? ioapicid))
    (modify (λ s, mkioapic (io_reg s) (io_regs s) (io_msgs s ++ ["ioapicinit: id isn't equal to ioapicid; not a MP"%string])));;
  for_range (Z.to_nat (maxintr + 1)) 0 (λ i,
    ioapicwrite (REG_TABLE + 2 * i) (Z.lor INT_DISABLED (T_IRQ0 + i));;
    ioapicwrite (REG_TABLE + 2 * i + 1) 0).

Definition ioapicenable (irq cpunum : Z) : M ioapic unit :=
  ioapicwrite (REG_TABLE + 2 * irq) (T_IRQ0 + irq);;
  ioapicwrite (REG_TABLE + 2 * irq + 1) (u32 (Z.shiftl cpunum 24)).

(** *** Routing

    What the device does with line [i]: nothing, or an interrupt with a vector
    on a CPU. *)
Definition route (s : ioapic) (i : Z) : option (Z * Z) :=
  let lo := default 0 (io_regs s !! (REG_TABLE + 2 * i)) in
  let hi := default 0 (io_regs s !! (REG_TABLE + 2 * i + 1)) in
  if Z.land lo INT_DISABLED =? 0 then Some (Z.land lo 255, Z.shiftr hi 24) else None.

(** The routes after some lines have been enabled, the last call first. *)
Fixpoint routes (es : list (Z * Z)) (i : Z) : option (Z * Z) :=
  match es with
  | [] => None
  | (irq, cpu) :: es' => if decide (i = irq) then Some (T_IRQ0 + i, cpu) else routes es' i
  end.
Fixpoint enable_all (es : list (Z * Z)) : M ioapic unit :=
  match es with
  | [] => mret tt
  | (irq, cpu) :: es' => enable_all es';; ioapicenable irq cpu
  end.

(** The lines of the table: their vectors are bytes. *)
Definition irq_line (i : Z) : Prop := 0 ≤ i < 224.

Lemma line_bits i : irq_line i → Z.land (Z.lor INT_DISABLED (T_IRQ0 + i)) INT_DISABLED =? 0 = false ∧
  Z.land (T_IRQ0 + i) INT_DISABLED = 0 ∧ Z.land (T_IRQ0 + i) 255 = T_IRQ0 + i.
Proof.
  intros Hi. unfold irq_line in Hi.
  assert (forallb (λ k, let i := Z.of_nat k in negb (Z.land (Z.lor INT_DISABLED (T_IRQ0 + i)) INT_DISABLED =? 0) &&
    (Z.land (T_IRQ0 + i) INT_DISABLED =? 0) && (Z.land (T_IRQ0 + i) 255 =? T_IRQ0 + i)) (seq 0 224) = true) as Hall by by vm_compute.
  rewrite forallb_forall in Hall. specialize (Hall (Z.to_nat i)). rewrite in_seq in Hall. specialize (Hall ltac:(lia)). cbv zeta in Hall.
  rewrite Z2Nat.id in Hall by lia. apply andb_prop in Hall as [Hall H3%Z.eqb_eq]. apply andb_prop in Hall as [H1%negb_true_iff H2%Z.eqb_eq].
  done.
Qed.

Lemma cpu_bits cpu : 0 ≤ cpu < 256 → Z.shiftr (u32 (Z.shiftl cpu 24)) 24 = cpu.
Proof.
  intros Hc. rewrite u32_small by (rewrite Z.shiftl_mul_pow2 by lia; lia). rewrite Z.shiftr_shiftl_l by lia. apply Z.shiftl_0_r.
Qed.

Lemma run_ioapicwrite reg v s : ioapicwrite reg v s = Done tt (mkioapic reg (<[reg:=v]> (io_regs s)) (io_msgs s)).
Proof. done. Qed.

(** Enabling a line sets its route and no other. *)
Lemma route_enable irq cpu s : irq_line irq → 0 ≤ cpu < 256 → ∃ s', ioapicenable irq cpu s = Done tt s' ∧
  ∀ i, irq_line i → route s' i = if decide (i = irq) then Some (T_IRQ0 + i, cpu) else route s i.
Proof.
  intros Hl Hc. unfold ioapicenable. unfold mbind at 1, M_bind at 1. rewrite run_ioapicwrite, run_ioapicwrite. eexists. split; [done|].
  intros i Hi. unfold route. cbn [io_regs]. destruct (line_bits i Hi) as (_&H2&H3). case_decide as E.
  - subst irq. rewrite lookup_insert_ne, lookup_insert_eq, lookup_insert_eq by lia. change (default 0 (Some ?x)) with x. by rewrite H2, H3, cpu_bits.
  - by rewrite !lookup_insert_ne by lia.
Qed.

Lemma route_disabled i s : irq_line i → io_regs s !! (REG_TABLE + 2 * i) = Some (Z.lor INT_DISABLED (T_IRQ0 + i)) → route s i = None.
Proof. intros Hi E. unfold route. rewrite E. change (default 0 (Some ?x)) with x. by destruct (line_bits i Hi) as (->&_). Qed.

Definition maxintr (s : ioapic) : Z := Z.land (Z.shiftr (default 0 (io_regs s !! REG_VER)) 16) 255.

Lemma wp_ioapicinit id s : wp (ioapicinit id) (λ _ s', (∀ i, irq_line i → i ≤ maxintr s → route s' i = None) ∧
  (∀ r, r < REG_TABLE ∨ REG_TABLE + 2 * maxintr s + 1 < r → io_regs s' !! r = io_regs s !! r)) s.
Proof.
  unfold ioapicinit. wp_step. eapply wp_done; [done|]. cbv zeta. wp_step. eapply wp_done; [done|]. cbn [io_reg io_regs io_msgs].
  change (Z.land (Z.shiftr (default 0 (io_regs s !! REG_VER)) 16) 255) with (maxintr s).
  assert (0 ≤ maxintr s) as Hm by (unfold maxintr; rewrite Z.land_nonneg; lia).
  wp_step. set (I := λ (k : Z) (s' : ioapic), (∀ i, 0 ≤ i < k → io_regs s' !! (REG_TABLE + 2 * i) = Some (Z.lor INT_DISABLED (T_IRQ0 + i))) ∧
    (∀ r, r < REG_TABLE ∨ REG_TABLE + 2 * maxintr s + 1 < r → io_regs s' !! r = io_regs s !! r)).
  assert (∀ s1, I 0 s1 → wp (for_range (Z.to_nat (maxintr s + 1)) 0 (λ i,
    ioapicwrite (REG_TABLE + 2 * i) (Z.lor INT_DISABLED (T_IRQ0 + i));; ioapicwrite (REG_TABLE + 2 * i + 1) 0))
    (λ _ s', (∀ i, irq_line i → i ≤ maxintr s → route s' i = None) ∧
     (∀ r, r < REG_TABLE ∨ REG_TABLE + 2 * maxintr s + 1 < r → io_regs s' !! r = io_regs s !! r)) s1) as W.
  { intros s1 H1. apply (wp_for_range I); [exact H1| |].
    - intros k s2 Hk [Ha Hb]. wp_step. eapply wp_done; [apply run_ioapicwrite|]. eapply wp_done; [apply run_ioapicwrite|]. cbn [io_regs]. split; cbn [io_regs].
      + intros i Hi. rewrite lookup_insert_ne by lia. destruct (decide (i = k)) as [->|]; [apply lookup_insert_eq|].
        rewrite lookup_insert_ne by lia. apply Ha. lia.
      + intros r Hr. rewrite !lookup_insert_ne by lia. by apply Hb.
    - intros s2 [Ha Hb]. split; [|done]. intros i Hi Hm'. apply route_disabled; [done|]. apply Ha. unfold irq_line in Hi. lia. }
  apply wp_when; intros _; [wp_step|]; apply W; (split; [intros i Hi; lia|intros r _; reflexivity]).
Qed.

(** The I/O controller after [ioapicinit] and any calls of [ioapicenable]: the
    lines that have been enabled reach the CPU of the last call with the vector
    [trap] expects, and no other line interrupts. *)
Theorem ioapic_routing id es s :
  Forall (λ e, irq_line e.1 ∧ 0 ≤ e.2 < 256) es →
  ∃ s', (ioapicinit id;; enable_all es) s = Done tt s' ∧ ∀ i, irq_line i → i ≤ maxintr s → route s' i = routes es i.
Proof.
  intros Hes. destruct (wp_inv _ _ _ (wp_ioapicinit id s)) as ([]&s1&E1&H1&_). unfold mbind at 1, M_bind at 1. rewrite E1.
  induction Hes as [|[irq cpu] es [Hl Hc] _ (s2&E2&H2)]; [exists s1; split; [done|exact H1]|].
  cbn [enable_all routes]. unfold mbind, M_bind. rewrite E2. destruct (route_enable irq cpu s2 Hl Hc) as (s3&E3&H3). exists s3. split; [done|].
  intros i Hi Hm. rewrite H3 by done. case_decide; [done|]. by apply H2.
Qed.

(** ** The local interrupt controller *)

(** Registers, as indices of words. *)
Definition ID : Z := 8.
Definition VER : Z := 12.
Definition TPR : Z := 32.
Definition EOI : Z := 44.
Definition SVR : Z := 60.
Definition ESR : Z := 160.
Definition ICRLO : Z := 192.
Definition ICRHI : Z := 196.
Definition TIMER : Z := 200.
Definition PCINT : Z := 208.
Definition LINT0 : Z := 212.
Definition LINT1 : Z := 216.
Definition ERROR : Z := 220.
Definition TICR : Z := 224.
Definition TDCR : Z := 248.
Definition ENABLE : Z := 256.
Definition INIT : Z := 1280.
Definition STARTUP : Z := 1536.
Definition DELIVS : Z := 4096.
Definition ASSERT : Z := 16384.
Definition LEVEL : Z := 32768.
Definition BCAST : Z := 524288.
Definition X1 : Z := 11.
Definition PERIODIC : Z := 131072.
Definition MASKED : Z := 65536.

(** [lapic] (0 if there is none), the registers, for how many reads of [ICRLO]
    the last command is still being delivered, what has been written to the
    registers and the ports, and the stores to memory. *)
Record lapic := mklapic {
  la_base : Z;
  la_regs : gmap Z Z;
  la_busy : nat;
  la_writes : list (Z * Z);
  la_ports : list (Z * Z);
  la_mem : gmap Z Z
}.

Section lapic.
Context (delay : nat).

Definition la_store (index value : Z) (s : lapic) : lapic :=
  mklapic (la_base s) (<[index:=u32 value]> (la_regs s)) (if index =? ICRLO then delay else la_busy s)
    (la_writes s ++ [(index, u32 value)]) (la_ports s) (la_mem s).
Definition la_load (index : Z) : M lapic Z := λ s,
  let v := default 0 (la_regs s !! index) in
  if index =? ICRLO then
    Done (if (la_busy s =? 0)%nat then v else Z.lor v DELIVS)
      (mklapic (la_base s) (la_regs s) (la_busy s - 1) (la_writes s) (la_ports s) (la_mem s))
  else Done v s.
Definition la_outb (port v : Z) : M lapic unit :=
  modify (λ s, mklapic (la_base s) (la_regs s) (la_busy s) (la_writes s) (la_ports s ++ [(port, v)]) (la_mem s)).
(** A store of 16 bits. *)
Definition store16 (a v : Z) : M lapic unit :=
  modify (λ s, mklapic (la_base s) (la_regs s) (la_busy s) (la_writes s) (la_ports s) (<[a:=u16 v]> (la_mem s))).

(** Through a null pointer if there is no controller. *)
Definition lapicw (index value : Z) : M lapic unit :=
  base ← gets la_base;
  require (negb (base =? 0));;
  modify (la_store index value);;
  la_load ID;;
  mret tt.

(** [while(lapic[ICRLO] & DELIVS)]. *)
Fixpoint wait_delivery (fuel : nat) : M lapic unit :=
  match fuel with
  | O => diverge
  | Datatypes.S fuel' =>
      v ← la_load ICRLO;
      if Z.land v DELIVS =? 0 then mret tt else wait_delivery fuel'
  end.

Definition lapicinit (fuel : nat) : M lapic unit :=
  base ← gets la_base;
  if base =? 0 then mret tt
  else
    lapicw SVR (Z.lor ENABLE (T_IRQ0 + IRQ_SPURIOUS));;
    lapicw TDCR X1;;
    lapicw TIMER (Z.lor PERIODIC (T_IRQ0 + IRQ_TIMER));;
    lapicw TICR 10000000;;
    lapicw LINT0 MASKED;;
    lapicw LINT1 MASKED;;
    v ← la_load VER;
    when (4 <=? Z.land (Z.shiftr v 16) 255) (lapicw PCINT MASKED);;
    lapicw ERROR (T_IRQ0 + IRQ_ERROR);;
    lapicw ESR 0;;
    lapicw ESR 0;;
    lapicw EOI 0;;
    lapicw ICRHI 0;;
    lapicw ICRLO (Z.lor (Z.lor BCAST INIT) LEVEL);;
    wait_delivery fuel;;
    lapicw TPR 0.

Definition lapicid : M lapic Z :=
  base ← gets la_base;
  if base =? 0 then mret 0
  else v ← la_load ID; mret (Z.shiftr v 24).

Definition lapiceoi : M lapic unit :=
  base ← gets la_base;
  when (negb (base =? 0)) (lapicw EOI 0).

Definition microdelay (us : Z) : M lapic unit := mret tt.

Definition CMOS_PORT : Z := 112.
Definition WRV : Z := P2V (Z.lor (Z.shiftl 64 4) 103).

Definition lapicstartap (apicid addr : Z) : M lapic unit :=
  la_outb CMOS_PORT 15;;
  la_outb (CMOS_PORT + 1) 10;;
  store16 WRV 0;;
  store16 (WRV + 2) (Z.shiftr addr 4);;
  lapicw ICRHI (Z.shiftl apicid 24);;
  lapicw ICRLO (Z.lor (Z.lor INIT LEVEL) ASSERT);;
  microdelay 200;;
  lapicw ICRLO (Z.lor INIT LEVEL);;
  microdelay 100;;
  for_range 2 0 (λ i,
    lapicw ICRHI (Z.shiftl apicid 24);;
    lapicw ICRLO (Z.lor STARTUP (Z.shiftr addr 12));;
    microdelay 200).
End lapic.

(** [picinit], by the ports it writes. *)
Definition IO_PIC1 : Z := 32.
Definition IO_PIC2 : Z := 160.
Definition picinit : M lapic unit :=
  la_outb (IO_PIC1 + 1) 255;;
  la_outb (IO_PIC2 + 1) 255.

(** *** What the writes do to the processors

    A command to [ICRLO] goes to the processor that [ICRHI] names, or to all.
    INIT stops a processor until it gets a startup command, which has the page
    to run; a processor that runs ignores it.  INIT without ASSERT only
    synchronises the controllers. *)
Inductive apst := Stopped | Runs (addr : Z) | Idle.

Definition ipi (st : apst) (icr : Z) : apst :=
  let mode := Z.land icr 1792 in
  if mode =? INIT then (if Z.land icr ASSERT =? 0 then st else Stopped)
  else if mode =? STARTUP then
    match st with Stopped => Runs (Z.shiftl (Z.land icr 255) 12) | _ => st end
  else st.

(** A write seen by the processor [id], with the [ICRHI] of the sender. *)
Definition ap_event (id : Z) (h : Z * apst) (w : Z * Z) : Z * apst :=
  if w.1 =? ICRHI then (w.2, h.2)
  else if w.1 =? ICRLO then
    (h.1, if negb (Z.land w.2 BCAST =? 0) || (Z.shiftr h.1 24 =? id) then ipi h.2 w.2 else h.2)
  else h.
Definition ap_events (id : Z) (h : Z * apst) (ws : list (Z * Z)) : Z * apst := foldl (ap_event id) h ws.

Section drivers.
Context (delay : nat).
Implicit Types s : lapic.

Lemma wp_lapicw index value (Q : unit → lapic → Prop) s : la_base s ≠ 0 → Q tt (la_store delay index value s) →
  wp (lapicw delay index value) Q s.
Proof.
  intros Hb HQ. unfold lapicw. wp_step. wp_step. wp_step. apply wp_require; [by rewrite (proj2 (Z.eqb_neq _ _) Hb)|].
  wp_step. wp_step. wp_step. eapply wp_done; [done|]. by wp_step.
Qed.

Lemma la_store_eq i v s : la_regs (la_store delay i v s) !! i = Some (u32 v).
Proof. apply lookup_insert_eq. Qed.
Lemma la_store_ne i j v s : i ≠ j → la_regs (la_store delay i v s) !! j = la_regs s !! j.
Proof. apply lookup_insert_ne. Qed.
Lemma la_store_writes i v s : la_writes (la_store delay i v s) = la_writes s ++ [(i, u32 v)].
Proof. done. Qed.

Lemma wait_done fuel : ∀ s, (la_busy s < fuel)%nat → Z.land (default 0 (la_regs s !! ICRLO)) DELIVS = 0 →
  ∃ s', wait_delivery fuel s = Done tt s' ∧ la_writes s' = la_writes s ∧ la_regs s' = la_regs s ∧ la_base s' = la_base s.
Proof.
  induction fuel as [|fuel IH]; intros s Hb Hv; [lia|]. cbn [wait_delivery]. unfold mbind, M_bind, la_load. rewrite Z.eqb_refl.
  destruct (Nat.eqb_spec (la_busy s) 0) as [E|E].
  - rewrite Hv. cbn. eauto.
  - assert (Z.land (Z.lor (default 0 (la_regs s !! ICRLO)) DELIVS) DELIVS =? 0 = false) as ->.
    { apply Z.eqb_neq. rewrite Z.land_lor_distr_l, Hv. done. }
    destruct (IH (mklapic (la_base s) (la_regs s) (la_busy s - 1) (la_writes s) (la_ports s) (la_mem s))) as (s'&E'&?&?&?); cbn; [lia|done|].
    exists s'. done.
Qed.

(** [lapicinit] ends, whatever the controller has been doing, and leaves it
    enabled, with a periodic timer and an error interrupt on the vectors of
    traps.h and the external lines masked.  Its commands stop or start no
    processor.  Without a controller it does nothing. *)
Theorem lapicinit_correct fuel s : (delay < fuel)%nat →
  (la_base s = 0 → lapicinit delay fuel s = Done tt s) ∧
  (la_base s ≠ 0 → ∃ s' ws, lapicinit delay fuel s = Done tt s' ∧ la_writes s' = la_writes s ++ ws ∧
     la_regs s' !! SVR = Some (ENABLE + T_IRQ0 + IRQ_SPURIOUS) ∧ la_regs s' !! TIMER = Some (PERIODIC + T_IRQ0 + IRQ_TIMER) ∧
     la_regs s' !! ERROR = Some (T_IRQ0 + IRQ_ERROR) ∧ la_regs s' !! LINT0 = Some MASKED ∧ la_regs s' !! LINT1 = Some MASKED ∧
     la_regs s' !! TPR = Some 0 ∧ last (filter (λ w, w.1 = EOI) ws) = Some (EOI, 0) ∧
     ∀ id h, (ap_events id h ws).2 = h.2).
Proof.
  intros Hf. split; intros Hb; [unfold lapicinit, mbind, M_bind, gets; by rewrite Hb|].
  set (Q := λ (_ : unit) s', ∃ ws, la_writes s' = la_writes s ++ ws ∧
     la_regs s' !! SVR = Some (ENABLE + T_IRQ0 + IRQ_SPURIOUS) ∧ la_regs s' !! TIMER = Some (PERIODIC + T_IRQ0 + IRQ_TIMER) ∧
     la_regs s' !! ERROR = Some (T_IRQ0 + IRQ_ERROR) ∧ la_regs s' !! LINT0 = Some MASKED ∧ la_regs s' !! LINT1 = Some MASKED ∧
     la_regs s' !! TPR = Some 0 ∧ last (filter (λ w, w.1 = EOI) ws) = Some (EOI, 0) ∧
     ∀ id h, (ap_events id h ws).2 = h.2).
  assert (wp (lapicinit delay fuel) Q s) as W; [|apply wp_inv in W as ([]&s'&E&ws&HQ); by exists s', ws].
  unfold lapicinit. wp_step. wp_step. rewrite (proj2 (Z.eqb_neq _ _) Hb).
  do 6 (wp_step; apply wp_lapicw; [exact Hb|]). wp_step. eapply wp_done; [done|]. wp_step. apply wp_when; intros _; [apply wp_lapicw; [exact Hb|]|].
  all: do 6 (wp_step; apply wp_lapicw; [exact Hb|]); wp_step.
  all: match goal with |- wp _ _ ?s1 => destruct (wait_done fuel s1) as (s2&E2&Hw&Hr&Hb2); [exact Hf|by rewrite la_store_eq|] end.
  all: eapply wp_done; [exact E2|]; apply wp_lapicw; [rewrite Hb2; exact Hb|].
  all: eexists; split; [rewrite la_store_writes, Hw, !la_store_writes, <- !app_assoc; reflexivity|].
  all: split_and!; [rewrite la_store_ne, Hr by done; repeat (rewrite la_store_ne by done); by rewrite la_store_eq..| | |].
  all: try by rewrite la_store_eq.
  all: try by vm_compute.
  all: intros id [hi st]; reflexivity.
Qed.

(** The commands of [lapicstartap], in order. *)
Definition start_writes (apicid addr : Z) : list (Z * Z) :=
  let hi := (ICRHI, u32 (Z.shiftl apicid 24)) in
  let sipi := (ICRLO, u32 (Z.lor STARTUP (Z.shiftr addr 12))) in
  [hi; (ICRLO, Z.lor (Z.lor INIT LEVEL) ASSERT); (ICRLO, Z.lor INIT LEVEL); hi; sipi; hi; sipi].

(** The bits of a startup command for the pages below 1 MB. *)
Lemma sipi_bits k : 0 ≤ k < 256 → let v := u32 (Z.lor STARTUP k) in
  Z.land v 1792 = STARTUP ∧ Z.land v 255 = k ∧ Z.land v BCAST = 0.
Proof.
  intros Hk v. assert (forallb (λ n, let v := u32 (Z.lor STARTUP (Z.of_nat n)) in (Z.land v 1792 =? STARTUP) && (Z.land v 255 =? Z.of_nat n) &&
    (Z.land v BCAST =? 0)) (seq 0 256) = true) as Hall by by vm_compute.
  rewrite forallb_forall in Hall. specialize (Hall (Z.to_nat k)). rewrite in_seq in Hall. specialize (Hall ltac:(lia)). cbv zeta in Hall.
  rewrite Z2Nat.id in Hall by lia. fold v in Hall. apply andb_prop in Hall as [Hall H3%Z.eqb_eq]. apply andb_prop in Hall as [H1%Z.eqb_eq H2%Z.eqb_eq].
  done.
Qed.

Lemma event_hi id h v : ap_event id h (ICRHI, v) = (v, h.2).
Proof. done. Qed.
Lemma event_lo id h st v : Z.land v BCAST = 0 →
  ap_event id (h, st) (ICRLO, v) = (h, if Z.shiftr h 24 =? id then ipi st v else st).
Proof. intros E. unfold ap_event. cbn [fst snd]. by rewrite E. Qed.

Lemma start_events id apicid addr h : 0 ≤ apicid < 256 → 0 ≤ addr < 2 ^ 20 → addr mod 4096 = 0 →
  (ap_events id h (start_writes apicid addr)).2 = if decide (id = apicid) then Runs addr else h.2.
Proof.
  intros Ha Hr Hm. destruct h as [hi st].
  assert (Z.shiftr addr 12 = addr / 4096) as Es by (rewrite Z.shiftr_div_pow2 by lia; done).
  assert (0 ≤ addr / 4096 < 256) as Hk by (split; [apply Z.div_pos; lia|apply Z.div_lt_upper_bound; lia]).
  destruct (sipi_bits _ Hk) as (S1&S2&S3). unfold ap_events, start_writes. rewrite Es. set (v := u32 (Z.lor STARTUP (addr / 4096))) in *.
  pose proof (cpu_bits _ Ha) as Hb. set (w := u32 (Z.shiftl apicid 24)) in *.
  assert (Es' : ∀ st, ipi st v = match st with Stopped => Runs addr | _ => st end).
  { intros st'. unfold ipi. rewrite S1, S2. change (STARTUP =? INIT) with false. rewrite Z.eqb_refl. cbv iota.
    rewrite Z.shiftl_mul_pow2 by lia. change (2 ^ 12) with 4096. destruct st'; [|done|done]. f_equal. dlia. }
  cbn [foldl]. rewrite event_hi. do 4 rewrite ?event_hi, event_lo by done. cbn [snd]. rewrite Hb, !Es'.
  destruct (Z.eqb_spec apicid id) as [->|Hne]; [by rewrite decide_True|by rewrite decide_False].
Qed.

(** [lapicstartap] starts one processor: whatever it and the others do before,
    after the commands it runs at [addr], a page below 1 MB, and no other
    processor has noticed.  The warm reset vector, an offset and a segment,
    points to the same place.  Without a controller the call stores through a
    null pointer. *)
Theorem lapicstartap_correct apicid addr s : 0 ≤ apicid < 256 → 0 ≤ addr < 2 ^ 20 → addr mod 4096 = 0 →
  (la_base s = 0 → lapicstartap delay apicid addr s = Undef) ∧
  (la_base s ≠ 0 → ∃ s' ws off seg, lapicstartap delay apicid addr s = Done tt s' ∧ la_writes s' = la_writes s ++ ws ∧
     (∀ id h, (ap_events id h ws).2 = if decide (id = apicid) then Runs addr else h.2) ∧
     la_mem s' !! P2V 1127 = Some off ∧ la_mem s' !! P2V 1129 = Some seg ∧ seg * 16 + off = addr ∧
     la_base s' = la_base s ∧ la_regs s' !! ID = la_regs s !! ID).
Proof.
  intros Ha Hr Hm. split; intros Hb.
  - unfold lapicstartap, lapicw, la_outb, store16, modify, mbind, M_bind, gets. cbn. by rewrite Hb.
  - assert (wp (lapicstartap delay apicid addr) (λ _ s', la_writes s' = la_writes s ++ start_writes apicid addr ∧
      la_mem s' = <[WRV + 2:=u16 (Z.shiftr addr 4)]> (<[WRV:=0]> (la_mem s)) ∧ la_base s' = la_base s ∧ la_regs s' !! ID = la_regs s !! ID) s) as W.
    { unfold lapicstartap, microdelay, la_outb, store16. do 4 (wp_step; wp_step). wp_step. apply wp_lapicw; [exact Hb|].
      wp_step. apply wp_lapicw; [exact Hb|]. wp_step. wp_step. wp_step. apply wp_lapicw; [exact Hb|]. wp_step. wp_step.
      cbn [for_range]. do 2 (do 2 wp_step; apply wp_lapicw; [exact Hb|]; wp_step; apply wp_lapicw; [exact Hb|]; wp_step). wp_step.
      split_and!; [|done|done|by rewrite !la_store_ne]. rewrite !la_store_writes. cbn [la_writes]. rewrite <- !app_assoc. done. }
    apply wp_inv in W as ([]&s'&E&Hw&Hmem&Hbase&Hid). exists s', (start_writes apicid addr), 0, (addr / 16). split_and!; try done.
    + intros id h. by apply start_events.
    + rewrite Hmem. change (P2V 1127) with WRV. rewrite lookup_insert_ne by done. apply lookup_insert_eq.
    + rewrite Hmem. change (P2V 1129) with (WRV + 2). rewrite lookup_insert_eq. f_equal. rewrite Z.shiftr_div_pow2 by lia. unfold u16.
      apply Z.mod_small. dlia.
    + dlia.
Qed.
End drivers.

(** ** The clock *)

Definition CMOS_STATA : Z := 10.
Definition CMOS_STATB : Z := 11.
Definition CMOS_UIP : Z := 128.
Definition SECS : Z := 0.
Definition MINS : Z := 2.
Definition HOURS : Z := 4.
Definition DAY : Z := 7.
Definition MONTH : Z := 8.
Definition YEAR : Z := 9.

Record rtcdate := mkdate { second : Z; minute : Z; hour : Z; day : Z; month : Z; year : Z }.
#[global] Instance rtcdate_eq_dec : EqDecision rtcdate.
Proof. solve_decision. Defined.

(** The selected register, and how many reads there have been. *)
Record cmos := mkcmos { cm_sel : Z; cm_time : nat }.

Section rtc.
(** The registers as the clock has them at each read. *)
Context (rtc : nat → Z → Z).

Definition cmos_outb (v : Z) : M cmos unit := modify (λ s, mkcmos v (cm_time s)).
Definition cmos_inb : M cmos Z := λ s, Done (rtc (cm_time s) (cm_sel s)) (mkcmos (cm_sel s) (cm_time s + 1)).

Definition cmos_read (reg : Z) : M cmos Z :=
  cmos_outb reg;;
  cmos_inb.

Definition fill_rtcdate : M cmos rtcdate :=
  s ← cmos_read SECS;
  mi ← cmos_read MINS;
  h ← cmos_read HOURS;
  d ← cmos_read DAY;
  mo ← cmos_read MONTH;
  y ← cmos_read YEAR;
  mret (mkdate s mi h d mo y).

(** The loop of [cmostime]: its [t1]. *)
Fixpoint stable_date (fuel : nat) : M cmos rtcdate :=
  match fuel with
  | O => diverge
  | Datatypes.S fuel' =>
      t1 ← fill_rtcdate;
      st ← cmos_read CMOS_STATA;
      if negb (Z.land st CMOS_UIP =? 0) then stable_date fuel'
      else
        t2 ← fill_rtcdate;
        if bool_decide (t1 = t2) then mret t1 else stable_date fuel'
  end.

Definition CONV (x : Z) : Z := Z.shiftr x 4 * 10 + Z.land x 15.
Definition conv_date (bcd : bool) (t : rtcdate) : rtcdate :=
  if bcd then mkdate (CONV (second t)) (CONV (minute t)) (CONV (hour t)) (CONV (day t)) (CONV (month t)) (CONV (year t)) else t.

Definition cmostime (fuel : nat) : M cmos rtcdate :=
  sb ← cmos_read CMOS_STATB;
  let bcd := Z.land sb 4 =? 0 in
  t1 ← stable_date fuel;
  let r := conv_date bcd t1 in
  mret (mkdate (second r) (minute r) (hour r) (day r) (month r) (year r + 2000)).

(** What the clock shows at time [n]. *)
Definition clock (n : nat) : rtcdate :=
  mkdate (rtc n SECS) (rtc n MINS) (rtc n HOURS) (rtc n DAY) (rtc n MONTH) (rtc n YEAR).

(** The clock advances at most once in any thirteen reads. *)
Definition slow : Prop :=
  ∀ a, ∃ m, ∀ n, (a ≤ n < a + 13)%nat → clock n = if decide (n < m)%nat then clock a else clock (a + 12).

(** A date read register by register, from time [a] on. *)
Definition read_at (a : nat) : rtcdate :=
  mkdate (rtc a SECS) (rtc (a + 1) MINS) (rtc (a + 2) HOURS) (rtc (a + 3) DAY) (rtc (a + 4) MONTH) (rtc (a + 5) YEAR).

Lemma run_cmos_read reg s : cmos_read reg s = Done (rtc (cm_time s) reg) (mkcmos reg (cm_time s + 1)).
Proof. done. Qed.

Lemma run_fill s : fill_rtcdate s = Done (read_at (cm_time s)) (mkcmos YEAR (cm_time s + 6)).
Proof.
  unfold fill_rtcdate, mbind, M_bind. rewrite !run_cmos_read. cbn [cm_time]. unfold mret, M_ret, read_at.
  f_equal; [f_equal; f_equal; lia|f_equal; lia].
Qed.

Lemma read_at_steady a n : (∀ k, (k < 6)%nat → clock (a + k) = clock n) → read_at a = clock n.
Proof.
  intros Hk. pose proof (Hk 0%nat ltac:(lia)) as Hk0. rewrite Nat.add_0_r in Hk0.
  change (read_at a) with (mkdate (second (clock a)) (minute (clock (a + 1))) (hour (clock (a + 2))) (day (clock (a + 3)))
    (month (clock (a + 4))) (year (clock (a + 5)))).
  by rewrite Hk0, !Hk by lia.
Qed.

(** Two equal readings with the status in between are what the clock showed. *)
Lemma equal_readings a : slow → read_at a = read_at (a + 7) → ∃ n, (a ≤ n < a + 13)%nat ∧ read_at a = clock n.
Proof.
  intros Hs E. destruct (Hs a) as (m&Hm). destruct (decide (a + 6 < m)%nat) as [Hl|Hl].
  - exists a. split; [lia|]. apply read_at_steady. intros k Hk. rewrite Hm by lia. by rewrite decide_True by lia.
  - exists (a + 12)%nat. split; [lia|]. rewrite E. apply read_at_steady. intros k Hk.
    replace (a + 7 + k)%nat with (a + (7 + k))%nat by lia. rewrite Hm by lia. by rewrite decide_False by lia.
Qed.

Lemma stable_date_shown fuel : ∀ s t s', slow → stable_date fuel s = Done t s' →
  ∃ n, (cm_time s ≤ n < cm_time s')%nat ∧ t = clock n.
Proof.
  induction fuel as [|fuel IH]; intros s t s' Hs; [done|]. cbn [stable_date]. unfold mbind, M_bind. rewrite run_fill, run_cmos_read. cbn [cm_time].
  destruct (negb _).
  - intros E. apply IH in E as (n&Hn&->); [|done]. cbn [cm_time] in Hn. exists n. split; [lia|done].
  - rewrite run_fill. cbn [cm_time]. case_bool_decide as E.
    + intros [= <- <-]. cbn [cm_time]. replace (cm_time s + 6 + 1)%nat with (cm_time s + 7)%nat in E by lia.
      destruct (equal_readings _ Hs E) as (n&Hn&->). exists n. split; [lia|done].
    + intros E'. apply IH in E' as (n&Hn&->); [|done]. cbn [cm_time] in Hn. exists n. split; [lia|done].
Qed.

(** The loop ends once the clock stands still for thirteen reads. *)
Lemma stable_date_ends fuel : ∀ s T, (∀ n, (T ≤ n)%nat → clock n = clock T ∧ Z.land (rtc n CMOS_STATA) CMOS_UIP = 0) →
  (T - cm_time s < fuel)%nat → ∃ t s', stable_date fuel s = Done t s'.
Proof.
  induction fuel as [|fuel IH]; intros s T HT Hf; [lia|]. cbn [stable_date]. unfold mbind, M_bind. rewrite run_fill, run_cmos_read. cbn [cm_time].
  destruct (decide (T ≤ cm_time s)%nat) as [Hle|Hgt].
  - destruct (HT (cm_time s + 6)%nat ltac:(lia)) as [_ ->]. cbn [Z.eqb negb]. rewrite run_fill. cbn [cm_time]. rewrite bool_decide_eq_true_2; [eauto|].
    trans (clock T); [|symmetry]; apply read_at_steady; intros k Hk; apply HT; lia.
  - destruct (negb _); [apply (IH _ T); [done|cbn; lia]|]. rewrite run_fill. case_bool_decide; [eauto|]. apply (IH _ T); [done|cbn; lia].
Qed.
End rtc.

Lemma CONV_bcd n : 0 ≤ n < 100 → CONV (n / 10 * 16 + n mod 10) = n.
Proof.
  intros Hn. unfold CONV. change 15 with (Z.ones 4). rewrite Z.land_ones, Z.shiftr_div_pow2 by lia. change (2 ^ 4) with 16. dlia.
Qed.

(** The bytes that show a date of this century, in binary or in decimal digits. *)
Definition shows (bcd : bool) (t : rtcdate) : rtcdate :=
  let f n := if bcd then n / 10 * 16 + n mod 10 else n in
  mkdate (f (second t)) (f (minute t)) (f (hour t)) (f (day t)) (f (month t)) (f (year t - 2000)).
Definition date_ok (t : rtcdate) : Prop :=
  0 ≤ second t < 60 ∧ 0 ≤ minute t < 60 ∧ 0 ≤ hour t < 24 ∧ 1 ≤ day t ≤ 31 ∧ 1 ≤ month t ≤ 12 ∧ 2000 ≤ year t < 2100.

(** [cmostime] returns a date that the clock has shown, not one put together
    from two: for a clock that shows the date [date n] at time [n], in either
    format, and advances at most once in thirteen reads, the result is the
    date of a moment during the call.  And the call returns when the clock
    comes to rest, after at most as many turns as there are reads before. *)
Theorem cmostime_consistent (rtc : nat → Z → Z) (date : nat → rtcdate) bcd s fuel :
  slow rtc → (∀ n, date_ok (date n) ∧ clock rtc n = shows bcd (date n)) →
  (Z.land (rtc (cm_time s) CMOS_STATB) 4 =? 0) = bcd →
  (∀ t s', cmostime rtc fuel s = Done t s' → ∃ n, (cm_time s < n < cm_time s')%nat ∧ t = date n) ∧
  (∀ T, (∀ n, (T ≤ n)%nat → date n = date T ∧ Z.land (rtc n CMOS_STATA) CMOS_UIP = 0) → (T < fuel)%nat →
     ∃ t s', cmostime rtc fuel s = Done t s').
Proof.
  intros Hs Hd Hb. unfold cmostime, mbind, M_bind. setoid_rewrite run_cmos_read. rewrite Hb. split.
  - intros t s'. destruct (stable_date rtc fuel _) as [t1 s1| | | |] eqn:E; try done. intros [= <- <-].
    apply stable_date_shown in E as (n&Hn&->); [|done]. cbn [cm_time] in Hn. exists n. split; [lia|].
    destruct (Hd n) as [(?&?&?&?&?&?) ->]. destruct (date n) as [a b c d e f]. cbn [second minute hour day month year] in *. unfold conv_date, shows.
    destruct bcd; cbn [second minute hour day month year]; rewrite ?CONV_bcd by lia; f_equal; lia.
  - intros T HT Hf. destruct (stable_date_ends rtc fuel (mkcmos CMOS_STATB (cm_time s + 1)) T) as (t&s'&E); [|cbn; lia|eexists _, _; by rewrite E].
    intros n Hn. destruct (HT n Hn) as [E' ?]. split; [|done]. rewrite (proj2 (Hd n)), (proj2 (Hd T)). by rewrite E'.
Qed.

(** A clock that stands still in decimal digits. *)
Lemma cmostime_consistent_witness :
  let rtc := λ (_ : nat) r, if r =? YEAR then 38 else if r =? CMOS_STATA then 0 else if r =? CMOS_STATB then 0 else 16 in
  ∃ t s', cmostime rtc 1 (mkcmos 0 0) = Done t s' ∧ t = mkdate 10 10 10 10 10 2026.
Proof.
  intros rtc. destruct (cmostime_consistent rtc (λ _, mkdate 10 10 10 10 10 2026) true (mkcmos 0 0) 1) as [H1 H2].
  - intros a. exists O. intros n _. by destruct (decide (n < 0)%nat).
  - intros n. split; [repeat split; cbn; lia|reflexivity].
  - reflexivity.
  - destruct (H2 0%nat) as (t&s'&E); [done|lia|]. exists t, s'. split; [exact E|]. destruct (H1 t s' E) as (n&_&Ht). exact Ht.
Defined.
