(* ===== verification/Kalloc.v ===== *)
(** * The physical memory allocator (kalloc.c)

    Physical memory as the kernel sees it: pages at their kernel addresses,
    each a list of bytes.  The free list is threaded through the first word of
    the free pages themselves, as in the code. *)

From S2P Require Import Prelude Params Mmu.

Abbreviation page := (list Z).

Record kmem := mkkmem {
  km_mem : gmap Z page;        (** pages by kernel virtual address *)
  km_lock : bool;
  km_use_lock : bool;
  km_freelist : Z              (** kernel address of the first free page, or 0 *)
}.

Definition set_km_mem (v : gmap Z page) (s : kmem) : kmem := mkkmem v (km_lock s) (km_use_lock s) (km_freelist s).
Definition set_km_lock (v : bool) (s : kmem) : kmem := mkkmem (km_mem s) v (km_use_lock s) (km_freelist s).
Definition set_km_use_lock (v : bool) (s : kmem) : kmem := mkkmem (km_mem s) (km_lock s) v (km_freelist s).
Definition set_km_freelist (v : Z) (s : kmem) : kmem := mkkmem (km_mem s) (km_lock s) (km_use_lock s) v.

(** ** Memory accesses *)

Definition page_of (a : Z) : Z := a / 4096 * 4096.
Definition off_of (a : Z) : nat := Z.to_nat (a mod 4096).

Definition load_page (v : Z) : M kmem page := λ s,
  match km_mem s !! v with Some p => Done p s | None => Undef end.
Definition store_page (v : Z) (p : page) : M kmem unit := λ s,
  match km_mem s !! v with Some _ => Done tt (set_km_mem (<[v:=p]> (km_mem s)) s) | None => Undef end.
Definition load32 (a : Z) : M kmem Z :=
  p ← load_page (page_of a); mret (get32 p (off_of a)).
Definition store32 (a x : Z) : M kmem unit :=
  p ← load_page (page_of a); store_page (page_of a) (put32 p (off_of a) x).

(** What [memset(v, 1, PGSIZE)] and [memset(v, 0, PGSIZE)] leave. *)
Definition junk_page : page := replicate 4096 1.
Definition zero_page : page := replicate 4096 0.
#[global] Arguments junk_page : simpl never.
#[global] Arguments zero_page : simpl never.

Lemma length_junk_page : length junk_page = 4096%nat.
Proof. apply length_replicate. Qed.
Lemma length_zero_page : length zero_page = 4096%nat.
Proof. apply length_replicate. Qed.

Section kalloc.
Context (kend : Z).            (** [end], the first address after the kernel *)

Definition lock_kmem : M kmem unit :=
  u ← gets km_use_lock; when u (acquire km_lock set_km_lock).
Definition unlock_kmem : M kmem unit :=
  u ← gets km_use_lock; when u (release km_lock set_km_lock).

Definition kfree (v : Z) : M kmem unit :=
  if negb (v mod PGSIZE =? 0) || (v <? kend) || (PHYSTOP <=? V2P v) then panic "kfree"
  else
    store_page v junk_page;;
    lock_kmem;;
    r ← gets km_freelist;
    store32 v r;;
    modify (set_km_freelist v);;
    unlock_kmem.

Definition kalloc : M kmem Z :=
  lock_kmem;;
  r ← gets km_freelist;
  when (negb (r =? 0)) (n ← load32 r; modify (set_km_freelist n));;
  unlock_kmem;;
  mret r.

(** [for(; p + PGSIZE <= vend; p += PGSIZE) kfree(p)] *)
Fixpoint freerange_loop (fuel : nat) (p vend : Z) : M kmem unit :=
  match fuel with
  | O => diverge
  | S fuel' => if p + PGSIZE <=? vend then kfree p;; freerange_loop fuel' (p + PGSIZE) vend else mret tt
  end.
Definition freerange (vstart vend : Z) : M kmem unit :=
  let p := PGROUNDUP vstart in
  freerange_loop (S (Z.to_nat ((vend - p) / PGSIZE))) p vend.

Definition kinit1 (vstart vend : Z) : M kmem unit :=
  modify (set_km_lock false);;
  modify (set_km_use_lock false);;
  freerange vstart vend.
Definition kinit2 (vstart vend : Z) : M kmem unit :=
  freerange vstart vend;;
  modify (set_km_use_lock true).

(** ** The free list *)

(** A page the allocator may manage. *)
Definition valid_page (v : Z) : Prop := v mod 4096 = 0 ∧ kend ≤ v ∧ KERNBASE ≤ v < KERNBASE + PHYSTOP.

(** The pages of the list starting at [r]. *)
Fixpoint chain (m : gmap Z page) (r : Z) (l : list Z) : Prop :=
  match l with
  | [] => r = 0
  | v :: l' => r = v ∧ ∃ p, m !! v = Some p ∧ chain m (get32 p 0) l'
  end.

Record kmem_rep (s : kmem) (l : list Z) : Prop := {
  kr_chain : chain (km_mem s) (km_freelist s) l;
  kr_nodup : NoDup l;
  kr_valid v : v ∈ l → valid_page v;
  kr_pages v : valid_page v → ∃ p, km_mem s !! v = Some p ∧ length p = 4096%nat;
  kr_lock : km_lock s = false
}.

Lemma chain_ext m m' l : ∀ r, (∀ v, v ∈ l → m' !! v = m !! v) → chain m r l → chain m' r l.
Proof.
  induction l as [|v l IH]; intros r Hm; [done|]. intros [-> (p&Hp&Hc)]. split; [done|].
  exists p. split; [rewrite Hm by left; done|]. apply IH; [|done]. intros v' Hv'. apply Hm. by right.
Qed.

Lemma valid_page_of v : valid_page v → page_of v = v ∧ off_of v = 0%nat.
Proof. intros (Hm&_&?). unfold page_of, off_of. rewrite Hm. split; [|done]. dlia. Qed.

Lemma valid_V2P v : valid_page v → V2P v = v - KERNBASE ∧ 0 ≤ V2P v < PHYSTOP.
Proof.
  intros (_&_&H). change KERNBASE with 2147483648 in *. change PHYSTOP with 234881024 in *.
  unfold V2P. change KERNBASE with 2147483648. rewrite u32_small; lia.
Qed.

Lemma valid_nonzero v : valid_page v → v ≠ 0.
Proof. intros (_&_&H). change KERNBASE with 2147483648 in *. lia. Qed.

Lemma valid_u32 v : valid_page v → 0 ≤ v < 2 ^ 32.
Proof. intros (_&_&H). change KERNBASE with 2147483648 in *. change PHYSTOP with 234881024 in *. lia. Qed.
(** ** [kalloc] and [kfree] as pop and push *)

Lemma kalloc_nil s : kmem_rep s [] → kalloc s = Done 0 s.
Proof.
  intros K. destruct s as [mem lk u fl]. pose proof (kr_chain _ _ K) as Ef. pose proof (kr_lock _ _ K) as El. simpl in *. subst.
  unfold kalloc, lock_kmem, unlock_kmem, mbind, M_bind, gets, acquire, release, when, mret, M_ret. simpl.
  by destruct u.
Qed.

Lemma kalloc_cons s v l : kmem_rep s (v :: l) →
  ∃ r, kalloc s = Done v (set_km_freelist r s) ∧ kmem_rep (set_km_freelist r s) l.
Proof.
  intros K. destruct (kr_chain _ _ K) as [Ef (p&Hp&Hc)]. exists (get32 p 0).
  assert (valid_page v) as Hv by (apply (kr_valid _ _ K); left).
  destruct (valid_page_of v Hv) as [Epg Eoff]. split.
  - destruct s as [mem lk u fl]. simpl in *. subst fl. pose proof (kr_lock _ _ K) as E. simpl in E. subst lk.
    unfold kalloc, lock_kmem, unlock_kmem, load32, load_page, modify, mbind, M_bind, gets, acquire, release, when, mret, M_ret.
    assert ((v =? 0) = false) as Ez by by apply Z.eqb_neq, valid_nonzero.
    destruct u; simpl; rewrite Ez; simpl; by rewrite Epg, Eoff, Hp.
  - split; simpl; try apply K; [done| |].
    + pose proof (kr_nodup _ _ K) as [_ Hn]%NoDup_cons. done.
    + intros v' Hv'. apply (kr_valid _ _ K). by right.
Qed.

(** The page [kfree] leaves: junk, with the link in the first word. *)
Definition freed (r : Z) : page := put32 junk_page 0 r.

Lemma kfree_valid s l v : kmem_rep s l → valid_page v → v ∉ l →
  let s' := set_km_freelist v (set_km_mem (<[v:=freed (km_freelist s)]> (km_mem s)) s) in
  kfree v s = Done tt s' ∧ kmem_rep s' (v :: l).
Proof.
  intros K Hv Hn s'. destruct (kr_pages _ _ K v Hv) as (p&Hp&Hlp). destruct (valid_page_of v Hv) as [Epg Eoff].
  assert (0 ≤ km_freelist s < 2 ^ 32) as Hf.
  { pose proof (kr_chain _ _ K) as Hc. destruct l as [|w l]; [rewrite Hc; lia|]. destruct Hc as [-> _].
    apply valid_u32, (kr_valid _ _ K). left. }
  split.
  - unfold kfree. destruct (valid_V2P v Hv) as [_ HP]. destruct Hv as (Hm&Hk&_).
    rewrite (proj2 (Z.eqb_eq _ _)) by done. rewrite (proj2 (Z.ltb_ge _ _)) by done.
    rewrite (proj2 (Z.leb_gt _ _)) by lia. cbn [negb orb].
    destruct s as [mem lk u fl]. pose proof (kr_lock _ _ K) as E. simpl in *. subst lk. unfold s'. clear s'.
    unfold lock_kmem, unlock_kmem, store32, load_page, store_page, modify, mbind, M_bind, gets, acquire, release, when, mret, M_ret.
    simpl. rewrite Hp. destruct u; simpl; rewrite Epg, Eoff, lookup_insert_eq; simpl;
      by rewrite lookup_insert_eq; simpl; rewrite insert_insert_eq.
  - split; simpl.
    + split; [done|]. exists (freed (km_freelist s)). split; [apply lookup_insert_eq|].
      unfold freed. rewrite get32_put32_eq by (rewrite length_junk_page; lia). rewrite u32_small by done.
      apply (chain_ext (km_mem s)); [|apply K]. intros w Hw. rewrite lookup_insert_ne; [done|]. by intros ->.
    + constructor; [done|apply K].
    + intros w [->|Hw]%elem_of_cons; [done|]. by apply (kr_valid _ _ K).
    + intros w Hw. destruct (decide (v = w)) as [<-|Hne]; [|rewrite lookup_insert_ne by done; by apply (kr_pages _ _ K)].
      rewrite lookup_insert_eq. eexists. split; [done|]. unfold freed. by rewrite length_put32; rewrite length_junk_page; [|lia].
    + apply K.
Qed.

Lemma kfree_invalid s v : KERNBASE ≤ kend → v < 2 ^ 32 → ¬ valid_page v → kfree v s = Panic "kfree".
Proof.
  intros Hk Hv Hn. unfold kfree. destruct (Z.eqb_spec (v mod PGSIZE) 0) as [Hm|]; [|done].
  destruct (Z.ltb_spec v kend) as [|Hge]; [done|]. destruct (Z.leb_spec PHYSTOP (V2P v)) as [|Hlt]; [done|].
  exfalso. apply Hn. unfold V2P in Hlt. change KERNBASE with 2147483648 in *.
  rewrite u32_small in Hlt by lia. change PHYSTOP with 234881024 in *. unfold valid_page.
  change KERNBASE with 2147483648. change PHYSTOP with 234881024. change PGSIZE with 4096 in Hm. lia.
Qed.
(** ** Initialisation *)

(** The pages from [p], [n] of them. *)
Definition pages_from (p : Z) (n : nat) : list Z := (λ k, p + 4096 * Z.of_nat k) <$> seq 0 n.

Lemma pages_from_S p n : pages_from p (S n) = p :: pages_from (p + 4096) n.
Proof.
  unfold pages_from. cbn [seq fmap list_fmap]. f_equal; [lia|]. rewrite <- fmap_S_seq, <- list_fmap_compose.
  apply list_fmap_ext. intros _ k _. simpl. lia.
Qed.

Lemma freerange_loop_spec n : ∀ fuel s l p vend, kmem_rep s l → (n < fuel)%nat →
  Z.of_nat n = (vend - p) / 4096 → p ≤ vend + 4095 →
  (∀ v, v ∈ pages_from p n → valid_page v ∧ v ∉ l) →
  ∃ s', freerange_loop fuel p vend s = Done tt s' ∧ kmem_rep s' (reverse (pages_from p n) ++ l) ∧
    km_use_lock s' = km_use_lock s.
Proof.
  induction n as [|n IH]; intros [|fuel] s l p vend K Hf Hn Hp Hv; try lia; cbn [freerange_loop]; change PGSIZE with 4096.
  - destruct (Z.leb_spec (p + 4096) vend); [dlia|]. eauto.
  - destruct (Z.leb_spec (p + 4096) vend); [|dlia]. rewrite pages_from_S in *.
    destruct (Hv p) as [Hvp Hnp]; [left|]. destruct (kfree_valid s l p K Hvp Hnp) as [E K1].
    unfold mbind, M_bind. rewrite E. destruct (IH fuel _ _ (p + 4096) vend K1) as (s'&E'&K'&Hu); [lia|dlia|lia| |].
    + intros v Hin. split; [apply Hv; by right|]. rewrite not_elem_of_cons. split; [|apply Hv; by right].
      unfold pages_from in Hin. apply list_elem_of_fmap in Hin as (k&->&_). lia.
    + exists s'. split; [done|]. rewrite reverse_cons, <- app_assoc. split; [done|]. by rewrite Hu.
Qed.

(** ** Sequences of allocations

    The kernel allocates pages and frees those it has; [held] are the pages it has. *)
Inductive kstep : kmem * list Z → kmem * list Z → Prop :=
  | kstep_alloc s s' v held : kalloc s = Done v s' → v ≠ 0 → kstep (s, held) (s', v :: held)
  | kstep_none s s' held : kalloc s = Done 0 s' → kstep (s, held) (s', held)
  | kstep_free s s' v h1 h2 : kfree v s = Done tt s' → kstep (s, h1 ++ v :: h2) (s', h1 ++ h2).

Lemma kstep_rep l0 x y : kstep x y → (∃ l, kmem_rep x.1 l ∧ x.2 ++ l ≡ₚ l0) → NoDup l0 → Forall valid_page l0 →
  ∃ l, kmem_rep y.1 l ∧ y.2 ++ l ≡ₚ l0.
Proof.
  intros Hs (l&K&Hp) Hn Hval. destruct Hs as [s s' v held E Hv|s s' held E|s s' v h1 h2 E]; cbn [fst snd] in *.
  - destruct l as [|w l]; [rewrite (kalloc_nil s K) in E; congruence|].
    destruct (kalloc_cons s w l K) as (r&E'&K'). rewrite E' in E. injection E as <- <-. exists l. split; [done|].
    rewrite <- Hp. simpl. apply Permutation_middle.
  - destruct l as [|w l].
    + rewrite (kalloc_nil s K) in E. injection E as <-. by exists [].
    + destruct (kalloc_cons s w l K) as (r&E'&_). rewrite E' in E. injection E as Ew _.
      destruct (valid_nonzero w); [|done]. apply (kr_valid _ _ K). left.
  - assert (NoDup ((h1 ++ v :: h2) ++ l)) as Hnd by by rewrite Hp.
    assert (v ∉ l) as Hvl by (rewrite NoDup_app in Hnd; apply Hnd; set_solver).
    assert (valid_page v) as Hvv.
    { rewrite Forall_forall in Hval. apply Hval. rewrite <- Hp. set_solver. }
    destruct (kfree_valid s l v K Hvv Hvl) as [E' K']. rewrite E' in E. injection E as <-.
    exists (v :: l). split; [done|]. rewrite <- Hp. rewrite <- !app_assoc. apply Permutation_app_head. simpl.
    symmetry. apply Permutation_middle.
Qed.

(** C26: the page allocator never gives out a page twice.  After any sequence
    of [kalloc]s and [kfree]s of pages that were given out, starting with the
    free pages [l0]: the pages held are different from each other and from the
    free ones, and together they are exactly [l0]; [kalloc] never panics and
    returns 0 only when all pages are held; and [kfree] of a page that is held
    returns. *)
Theorem kalloc_exclusive s0 l0 s held : kmem_rep s0 l0 → rtc kstep (s0, []) (s, held) →
  ∃ l, kmem_rep s l ∧ held ++ l ≡ₚ l0 ∧ NoDup (held ++ l) ∧
    (∃ v s', kalloc s = Done v s' ∧ v ∉ held ∧ (v = 0 ↔ length held = length l0)) ∧
    (∀ v, v ∈ held → ∃ s', kfree v s = Done tt s').
Proof.
  intros K0 Hr. pose proof (kr_nodup _ _ K0) as Hn0.
  assert (Forall valid_page l0) as Hval by (rewrite Forall_forall; apply K0).
  assert (∃ l, kmem_rep s l ∧ held ++ l ≡ₚ l0) as (l&K&Hp).
  { assert (∃ l, kmem_rep (s0, [] : list Z).1 l ∧ (s0, [] : list Z).2 ++ l ≡ₚ l0) as H0 by by exists l0.
    change s with (s, held).1. change held with (s, held).2 at 2. revert H0.
    induction Hr as [x|x y z Hxy _ IH]; intros Hx; [done|]. apply IH. by eapply kstep_rep. }
  assert (NoDup (held ++ l)) as Hnd by by rewrite Hp.
  assert (∀ v, v ∈ held → valid_page v ∧ v ∉ l) as Hheld.
  { intros v Hv. split; [|rewrite NoDup_app in Hnd; by apply Hnd].
    rewrite Forall_forall in Hval. apply Hval. rewrite <- Hp. set_solver. }
  exists l. split_and!; try done.
  - apply Permutation_length in Hp. rewrite length_app in Hp. destruct l as [|w l].
    + exists 0, s. split_and!; [by apply kalloc_nil| |simpl in Hp; split; [lia|done]].
      intros H0. destruct (Hheld 0 H0) as [Hv0 _]. by apply (valid_nonzero 0).
    + destruct (kalloc_cons s w l K) as (r&E&K'). exists w, (set_km_freelist r s). split_and!; [done| |].
      * intros Hw. destruct (Hheld w Hw) as [_ Hw']. apply Hw'. left.
      * simpl in Hp. split; [|lia]. intros ->. destruct (valid_nonzero 0); [|done]. apply (kr_valid _ _ K). left.
  - intros v Hv. destruct (Hheld v Hv) as [Hvv Hvl]. destruct (kfree_valid s l v K Hvv Hvl) as [E _]. eauto.
Qed.
End kalloc.

(** ** A machine with four free pages *)

Module Demo.
Definition kend : Z := KERNBASE + PHYSTOP - 16384.
Definition all_pages : list Z := pages_from kend 4.
Definition boot : kmem := mkkmem (list_to_map ((λ v, (v, zero_page)) <$> all_pages)) false false 0.

Lemma valid_cases v : valid_page kend v ↔ v ∈ all_pages.
Proof.
  unfold valid_page, all_pages, pages_from. rewrite list_elem_of_fmap. unfold kend.
  change KERNBASE with 2147483648. change PHYSTOP with 234881024. split.
  - intros (Hm&Hv). exists (Z.to_nat ((v - 2382348288) / 4096)). rewrite elem_of_seq. dlia.
  - intros (k&->&Hk%elem_of_seq). dlia.
Qed.

Lemma boot_rep : kmem_rep kend boot [].
Proof.
  split; [done|constructor|by intros v ?%elem_of_nil| |done].
  intros v Hv%valid_cases. exists zero_page. split; [|apply length_zero_page]. unfold boot. cbn [km_mem].
  apply elem_of_list_to_map_1; [|apply list_elem_of_fmap; eauto].
  apply (bool_decide_eq_true_1 _). by vm_compute.
Qed.

(** After [freerange] they are free. *)
Lemma kalloc_started : ∃ s, freerange kend kend (KERNBASE + PHYSTOP) boot = Done tt s ∧ kmem_rep kend s (reverse all_pages).
Proof.
  destruct (freerange_loop_spec kend 4 5 boot [] kend (KERNBASE + PHYSTOP) boot_rep) as (s&E&K&_); [lia|done|done| |].
  - intros v Hv%valid_cases. split; [done|apply not_elem_of_nil].
  - exists s. split; [exact E|]. by rewrite app_nil_r in K.
Qed.
End Demo.

Lemma kalloc_exclusive_witness : ∃ s v s', kmem_rep Demo.kend s (reverse Demo.all_pages) ∧ kalloc s = Done v s'.
Proof.
  destruct Demo.kalloc_started as (s&_&K).
  destruct (kalloc_exclusive Demo.kend s _ s [] K (rtc_refl _ _)) as (l&_&_&_&(v&s'&E&_)&_).
  exists s, v, s'. split; [exact K|exact E].
Defined.
