(* ===== verification/Startup.v ===== *)
(** * Starting the other processors (main.c)

    [startothers] writes the entry code and its arguments below 1 MB, sends
    each processor of the table its startup commands and waits until it has
    reported.  What a processor does between the command and [mpmain] is the
    assembly of entryother.S: it takes its stack, the routine to enter and the
    page directory from the words before the code. *)

From S2P Require Import Prelude Params Mmu Kalloc Mp Apic.

(** A processor that has entered the kernel, with what it was given. *)
Record launch := mklaunch { ln_id : Z; ln_stack : Z; ln_entry : Z; ln_pgdir : Z }.

Record smp := mksmp {
  sm_mp : mpst;                 (** the processors of the table *)
  sm_lapic : lapic;             (** the controller of this processor *)
  sm_kmem : kmem;
  sm_code : list Z;             (** the bytes from [code] on *)
  sm_words : gmap Z Z;          (** the words stored before it *)
  sm_started : list Z;          (** [started] of each [struct cpu] *)
  sm_launched : list launch
}.

Definition set_sm_lapic (v : lapic) (s : smp) : smp := mksmp (sm_mp s) v (sm_kmem s) (sm_code s) (sm_words s) (sm_started s) (sm_launched s).
Definition set_sm_kmem (v : kmem) (s : smp) : smp := mksmp (sm_mp s) (sm_lapic s) v (sm_code s) (sm_words s) (sm_started s) (sm_launched s).
Definition set_sm_mp (v : mpst) (s : smp) : smp := mksmp v (sm_lapic s) (sm_kmem s) (sm_code s) (sm_words s) (sm_started s) (sm_launched s).
Definition set_code (v : list Z) (s : smp) : smp := mksmp (sm_mp s) (sm_lapic s) (sm_kmem s) v (sm_words s) (sm_started s) (sm_launched s).
Definition set_word (a v : Z) (s : smp) : smp := mksmp (sm_mp s) (sm_lapic s) (sm_kmem s) (sm_code s) (<[a:=v]> (sm_words s)) (sm_started s) (sm_launched s).
Definition set_started (i : nat) (s : smp) : smp := mksmp (sm_mp s) (sm_lapic s) (sm_kmem s) (sm_code s) (sm_words s) (<[i:=1]> (sm_started s)) (sm_launched s).
Definition add_launch (l : launch) (s : smp) : smp := mksmp (sm_mp s) (sm_lapic s) (sm_kmem s) (sm_code s) (sm_words s) (sm_started s) (sm_launched s ++ [l]).

Section startup.
(** The image of entryother.S, the addresses of [mpenter] and [entrypgdir], how
    long the controller takes for a command and how many polls a processor
    needs to get to [mpmain]. *)
Context (entryother : list Z) (mpenter entrypgdir : Z) (delay latency : nat).

Definition code : Z := P2V 28672.

Definition on_mp {A} (m : M mpst A) : M smp A := zoom sm_mp set_sm_mp m.
Definition on_lapic {A} (m : M lapic A) : M smp A := zoom sm_lapic set_sm_lapic m.
Definition on_kmem {A} (m : M kmem A) : M smp A := zoom sm_kmem set_sm_kmem m.

(** [mpmain] on the processor [id], up to the scheduler: interrupts are off. *)
Definition mpmain (id : Z) : M smp unit :=
  i ← on_mp (mycpu 0 id);
  modify (set_started i).

(** The processor [id] runs the entry code. *)
Definition entry (id : Z) : M smp unit :=
  s ← gets (λ s, s);
  let w k := default 0 (sm_words s !! (code - k)) in
  modify (add_launch (mklaunch id (w 4) (w 8) (w 12)));;
  mpmain id.

(** What it does before the poll [k] of [startothers]. *)
Definition others (k : nat) (id : Z) : M smp unit :=
  s ← gets (λ s, s);
  match (ap_events id (0, Idle) (la_writes (sm_lapic s))).2 with
  | Runs a => when (bool_decide (k = latency ∧ a = V2P code)) (entry id)
  | _ => mret tt
  end.

(** [while(c->started == 0)]. *)
Fixpoint wait_started (fuel k : nat) (c : nat) (id : Z) : M smp unit :=
  match fuel with
  | O => diverge
  | Datatypes.S fuel' =>
      s ← gets (λ s, s);
      if sm_started s !!! c =? 0 then others k id;; wait_started fuel' (Datatypes.S k) c id else mret tt
  end.

Definition startone (fuel : nat) (c : nat) : M smp unit :=
  me ← on_lapic lapicid;
  i ← on_mp (mycpu 0 me);
  if (c =? i)%nat then mret tt
  else
    stack ← on_kmem kalloc;
    modify (set_word (code - 4) (u32 (stack + KSTACKSIZE)));;
    modify (set_word (code - 8) mpenter);;
    modify (set_word (code - 12) (V2P entrypgdir));;
    id ← gets (λ s, mp_apicids (sm_mp s) !!! c);
    on_lapic (lapicstartap delay id (V2P code));;
    wait_started fuel 0 c id.

Definition startothers (fuel : nat) : M smp unit :=
  modify (set_code entryother);;
  s ← gets (λ s, s);
  for_range (Z.to_nat (mp_ncpu (sm_mp s))) 0 (λ c, startone fuel (Z.to_nat c)).

(** ** The processors *)

(** The state before processor [c] is looked at: [ids] are the processors of the
    table, this one is number [b]. *)
Record ready (ids : list Z) (b : nat) (me : Z) (s : smp) : Prop := {
  rd_ids : take (Z.to_nat (mp_ncpu (sm_mp s))) (mp_apicids (sm_mp s)) = ids;
  rd_nodup : NoDup ids;
  rd_bytes : Forall (λ id, 0 ≤ id < 256) ids;
  rd_me : ids !! b = Some me;
  rd_self : lapicid (sm_lapic s) = Done me (sm_lapic s);
  rd_base : la_base (sm_lapic s) ≠ 0;
  rd_cpus : (length ids ≤ length (sm_started s))%nat
}.

Lemma run_mycpu ids b me s i id : ready ids b me s → ids !! i = Some id → on_mp (mycpu 0 id) s = Done i s.
Proof.
  intros R Hi. unfold on_mp, zoom. rewrite (mycpu_index _ _ _ _ (rd_ids _ _ _ _ R) (rd_nodup _ _ _ _ R) Hi). by destruct s.
Qed.

(** The processor reports at the poll [latency]. *)
Lemma wait_started_run fuel ids b me c id : ∀ k s, (k ≤ latency)%nat → (latency - k + 1 < fuel)%nat → ready ids b me s → ids !! c = Some id → sm_started s !! c = Some 0 →
  (ap_events id (0, Idle) (la_writes (sm_lapic s))).2 = Runs (V2P code) →
  wait_started fuel k c id s = Done tt (set_started c (add_launch (mklaunch id (default 0 (sm_words s !! (code - 4)))
    (default 0 (sm_words s !! (code - 8))) (default 0 (sm_words s !! (code - 12)))) s)).
Proof.
  induction fuel as [|fuel IH]; intros k s Hk Hf R Hc Hz Hap; [lia|]. cbn [wait_started]. unfold mbind at 1, M_bind at 1, gets.
  rewrite (list_lookup_total_correct _ _ _ Hz). cbn [Z.eqb]. unfold others. unfold mbind, M_bind, gets. rewrite Hap.
  destruct (decide (k = latency)) as [->|Hne].
  - rewrite bool_decide_eq_true_2 by done. cbn [when]. unfold entry, mbind, M_bind, gets, modify, mpmain.
    set (s1 := add_launch _ s). assert (ready ids b me s1) as R1 by (destruct R; by split).
    unfold mbind, M_bind. rewrite (run_mycpu ids b me s1 c id R1 Hc). destruct fuel as [|fuel]; [lia|]. cbn [wait_started]. unfold mbind, M_bind, gets, modify.
    assert (sm_started (set_started c s1) !!! c = 1) as ->; [|done]. cbn. apply list_lookup_total_insert_eq. by eapply lookup_lt_Some.
  - rewrite bool_decide_eq_false_2 by tauto. cbn [when]. unfold mret at 1, M_ret at 1. apply IH; try done; lia.
Qed.

(** What processor [id] is given with the stack page [v]. *)
Definition launch_of (id v : Z) : launch := mklaunch id (u32 (v + KSTACKSIZE)) mpenter (V2P entrypgdir).

Lemma code_addr : V2P code = 28672.
Proof. by vm_compute. Qed.

Lemma lapicid_kept s s' me : la_base s' = la_base s → la_regs s' !! ID = la_regs s !! ID → lapicid s = Done me s → lapicid s' = Done me s'.
Proof.
  intros Hb Hr. unfold lapicid, gets, mbind, M_bind. rewrite Hb. destruct (la_base s =? 0); [by intros [= <-]|]. unfold la_load. cbn. rewrite Hr. by intros [= <-].
Qed.

(** One turn for another processor. *)
Lemma startone_other fuel ids b me s c id v km : (latency + 1 < fuel)%nat → ready ids b me s → ids !! c = Some id → c ≠ b →
  sm_started s !! c = Some 0 → kalloc (sm_kmem s) = Done v km →
  ∃ s', startone fuel c s = Done tt s' ∧ ready ids b me s' ∧ sm_kmem s' = km ∧
    sm_launched s' = sm_launched s ++ [launch_of id v] ∧ sm_started s' = <[c:=1]> (sm_started s) ∧ sm_code s' = sm_code s ∧ sm_mp s' = sm_mp s.
Proof.
  intros Hf R Hc Hne Hz Ek.
  assert (0 ≤ id < 256) as Hid by (apply (proj1 (Forall_lookup _ _) (rd_bytes _ _ _ _ R) c id Hc)).
  assert (mp_apicids (sm_mp s) !!! c = id) as Eid.
  { apply list_lookup_total_correct. pose proof Hc as Hc'. rewrite <- (rd_ids _ _ _ _ R), lookup_take_Some in Hc'. by destruct Hc'. }
  destruct (lapicstartap_correct delay id (V2P code) (sm_lapic s) Hid) as [_ Hs]; [rewrite code_addr; lia|rewrite code_addr; reflexivity|].
  destruct (Hs (rd_base _ _ _ _ R)) as (la'&ws&off&seg&Els&Hws&Hev&_&_&_&Hbase&Hreg). clear Hs.
  set (s1 := set_sm_kmem km s).
  set (s2 := set_word (code - 12) (V2P entrypgdir) (set_word (code - 8) mpenter (set_word (code - 4) (u32 (v + KSTACKSIZE)) s1))).
  set (s3 := set_sm_lapic la' s2).
  assert (ready ids b me s3) as R3.
  { destruct R as [R1 R2 R3 R4 R5 R6 R7]. split; try done; [by apply (lapicid_kept (sm_lapic s))|cbn; by rewrite Hbase]. }
  exists (set_started c (add_launch (launch_of id v) s3)). split; [|by destruct R3; split_and!; try done; split; try done; cbn; rewrite length_insert].
  unfold startone. unfold mbind at 1, M_bind at 1. unfold on_lapic at 1, zoom at 1. rewrite (rd_self _ _ _ _ R).
  replace (set_sm_lapic (sm_lapic s) s) with s by (by destruct s). unfold mbind at 1, M_bind at 1. rewrite (run_mycpu ids b me s b me R (rd_me _ _ _ _ R)).
  rewrite (proj2 (Nat.eqb_neq c b) Hne). unfold mbind at 1, M_bind at 1. unfold on_kmem, zoom at 1. rewrite Ek. fold s1.
  unfold modify. do 3 (unfold mbind at 1, M_bind at 1). fold s2. unfold mbind at 1, M_bind at 1, gets. change (mp_apicids (sm_mp s2)) with (mp_apicids (sm_mp s)). rewrite Eid.
  unfold mbind at 1, M_bind at 1. unfold on_lapic, zoom. change (sm_lapic s2) with (sm_lapic s). rewrite Els. fold s3.
  rewrite (wait_started_run fuel ids b me c id 0 s3); [|lia|lia|done|done|done|].
  - assert (sm_words s3 !! (code - 4) = Some (u32 (v + KSTACKSIZE))) as -> by (cbn; by rewrite !lookup_insert_ne, lookup_insert_eq by done).
    assert (sm_words s3 !! (code - 8) = Some mpenter) as -> by (cbn; by rewrite lookup_insert_ne, lookup_insert_eq by done).
    assert (sm_words s3 !! (code - 12) = Some (V2P entrypgdir)) as -> by (cbn; by rewrite lookup_insert_eq). done.
  - change (sm_lapic s3) with la'. rewrite Hws. unfold ap_events. rewrite foldl_app. unfold ap_events in Hev. rewrite Hev. by rewrite decide_True.
Qed.

Lemma startone_self fuel ids b me s : ready ids b me s → startone fuel b s = Done tt s.
Proof.
  intros R. unfold startone. unfold mbind at 1, M_bind at 1. unfold on_lapic at 1, zoom at 1. rewrite (rd_self _ _ _ _ R).
  replace (set_sm_lapic (sm_lapic s) s) with s by (by destruct s). unfold mbind at 1, M_bind at 1. rewrite (run_mycpu ids b me s b me R (rd_me _ _ _ _ R)).
  by rewrite Nat.eqb_refl.
Qed.

(** The other processors among the first [c], in the order of the table. *)
Definition others_of (ids : list Z) (b c : nat) : list Z := take (Nat.min c b) ids ++ drop (S b) (take c ids).

Lemma others_next ids b c id : ids !! c = Some id → others_of ids b (S c) = if decide (c = b) then others_of ids b c else others_of ids b c ++ [id].
Proof.
  intros Hc. unfold others_of. pose proof (lookup_lt_Some _ _ _ Hc) as Hl. case_decide as E.
  - subst c. replace (S b `min` b)%nat with b by lia. rewrite Nat.min_id. rewrite !drop_ge by (rewrite length_take; lia). done.
  - rewrite (take_S_r _ _ _ Hc). destruct (decide (c < b)%nat) as [Hlt|Hge].
    + rewrite !Nat.min_l by lia. rewrite (take_S_r _ _ _ Hc). rewrite !drop_ge by (rewrite ?length_app, ?length_take; cbn; lia). by rewrite !app_nil_r.
    + rewrite !Nat.min_r by lia. rewrite drop_app_le by (rewrite length_take; lia). by rewrite app_assoc.
Qed.

Lemma length_others ids b c : (c ≤ length ids)%nat → length (others_of ids b c) = (if decide (b < c)%nat then c - 1 else c)%nat.
Proof. intros Hc. unfold others_of. rewrite length_app, length_drop, !length_take. case_decide; lia. Qed.

(** C39: [startothers] starts every processor of the table but the one it runs on,
    once each and in the order of the table: each has entered the kernel at
    [mpenter] with the boot page directory and a stack of its own, from the
    allocator, and has reported. *)
Theorem startothers_correct kend fuel ids b me s l : (latency + 1 < fuel)%nat → ready ids b me s →
  mp_ncpu (sm_mp s) = Z.of_nat (length ids) → kmem_rep kend (sm_kmem s) l → (length ids ≤ length l + 1)%nat →
  (∀ c, (c < length ids)%nat → c ≠ b → sm_started s !! c = Some 0) →
  let os := others_of ids b (length ids) in
  ∃ s', startothers fuel s = Done tt s' ∧ sm_code s' = entryother ∧
    sm_launched s' = sm_launched s ++ zip_with launch_of os l ∧ kmem_rep kend (sm_kmem s') (drop (length os) l) ∧
    ∀ c, (c < length ids)%nat → c ≠ b → sm_started s' !! c = Some 1.
Proof.
  intros Hf R Hn K Hl Hz os.
  set (I := λ (k : Z) (s' : smp), let c := Z.to_nat k in ready ids b me s' ∧ sm_code s' = entryother ∧
    sm_launched s' = sm_launched s ++ zip_with launch_of (others_of ids b c) l ∧ kmem_rep kend (sm_kmem s') (drop (length (others_of ids b c)) l) ∧
    ∀ i, (i < length ids)%nat → i ≠ b → sm_started s' !! i = Some (if decide (i < c)%nat then 1 else 0)).
  assert (wp (startothers fuel) (λ _, I (Z.of_nat (length ids))) s) as W.
  { unfold startothers. wp_step. wp_step. wp_step. wp_step. change (sm_mp (set_code entryother s)) with (sm_mp s). rewrite Hn, Nat2Z.id.
    apply (wp_for_range I).
    - split_and!; [destruct R; by split|done|by rewrite app_nil_r|by rewrite drop_0|]. intros i Hi Hne. rewrite decide_False by lia. by apply Hz.
    - intros k s1 Hk (R1&C1&L1&K1&Z1). set (c := Z.to_nat k) in *. unfold I. replace (Z.to_nat (k + 1)) with (S c) by lia.
      destruct (lookup_lt_is_Some_2 ids c ltac:(lia)) as [id Hc]. rewrite (others_next ids b c id Hc). case_decide as E.
      + subst b. eapply wp_done; [exact (startone_self fuel ids c me s1 R1)|]. split_and!; try done.
        intros i Hi Hne. rewrite Z1 by done. destruct (decide (i < c)%nat), (decide (i < S c)%nat); first [done|exfalso; lia].
      + pose proof (length_others ids b c ltac:(lia)) as Hlo. set (o := others_of ids b c) in *.
        destruct (lookup_lt_is_Some_2 l (length o)) as [v Hv]; [pose proof (lookup_lt_Some _ _ _ (rd_me _ _ _ _ R)); case_decide; lia|].
        rewrite (drop_S _ _ _ Hv) in K1. assert (sm_started s1 !! c = Some 0) as Hzc by (rewrite Z1 by (done || lia); by rewrite decide_False by lia).
        destruct (kalloc_cons kend _ v _ K1) as (r&Ek&K2).
        destruct (startone_other fuel ids b me s1 c id v _ Hf R1 Hc E Hzc Ek) as (s2&E2&R2&Ekm&L2&S2&C2&_). eapply wp_done; [exact E2|].
        split_and!; [done|congruence| | |].
        * rewrite L2, L1, <- app_assoc. f_equal. rewrite zip_with_app_l, (drop_S _ _ _ Hv), (zip_with_take_r _ _ l) by done. done.
        * by rewrite length_app, Nat.add_1_r, Ekm.
        * intros i Hi Hne. rewrite S2. destruct (decide (i = c)) as [->|].
          -- rewrite decide_True by lia. apply list_lookup_insert_eq. by eapply lookup_lt_Some.
          -- rewrite list_lookup_insert_ne, Z1 by done. destruct (decide (i < c)%nat), (decide (i < S c)%nat); first [done|exfalso; lia].
    - intros s' Hs'. by rewrite Z.add_0_l in Hs'. }
  apply wp_inv in W as ([]&s'&E&_&C'&L'&K'&Z'). rewrite Nat2Z.id in *. exists s'. split_and!; [done..|].
  intros c Hc Hne. rewrite Z' by done. by rewrite decide_True by lia.
Qed.

(** [kalloc] may fail, and its result is not looked at: the processor is
    started with a stack that ends at address 4096. *)
Theorem startothers_no_memory kend fuel ids b me s c id : (latency + 1 < fuel)%nat → ready ids b me s → ids !! c = Some id → c ≠ b →
  sm_started s !! c = Some 0 → kmem_rep kend (sm_kmem s) [] →
  ∃ s', startone fuel c s = Done tt s' ∧ sm_launched s' = sm_launched s ++ [mklaunch id 4096 mpenter (V2P entrypgdir)].
Proof.
  intros Hf R Hc Hne Hz K. destruct (startone_other fuel ids b me s c id 0 _ Hf R Hc Hne Hz (kalloc_nil kend _ K)) as (s'&E&_&_&L&_). by exists s'.
Qed.
End startup.

(** Two processors; the boot processor is the first. *)
Module Demo.
Definition two : mpst := mkmp 4276092928 2 ([0; 3] ++ replicate 6 0) 0 0 [].
Definition start (k : kmem) : smp := mksmp two (mklapic 4276092928 {[ID:=0]} 0 [] [] ∅) k [] ∅ (replicate 8 0) [].

Lemma start_ready k : ready [0; 3] 0 0 (start k).
Proof.
  split; [done|apply (bool_decide_unpack _); by vm_compute|repeat constructor; lia|done|by vm_compute|done|cbn; lia].
Qed.

Lemma startothers_correct_witness : ∃ k s' v, startothers [1; 2] 16 32 5 7 10 (start k) = Done tt s' ∧
  sm_launched s' = [mklaunch 3 (u32 (v + KSTACKSIZE)) 16 (V2P 32)].
Proof.
  destruct Kalloc.Demo.kalloc_started as (k&_&K).
  destruct (startothers_correct [1; 2] 16 32 5 7 Kalloc.Demo.kend 10 [0; 3] 0 0 (start k) (reverse Kalloc.Demo.all_pages)) as (s'&E&_&L&_).
  - lia.
  - apply start_ready.
  - reflexivity.
  - exact K.
  - rewrite length_reverse. apply Nat.leb_le. by vm_compute.
  - intros [|[|c]] Hc Hne; cbn in Hc; [done|reflexivity|lia].
  - exists k, s', (Kalloc.Demo.kend + 12288). split; [exact E|]. rewrite L. by vm_compute.
Defined.
End Demo.
