(* ===== verification/Vm.v ===== *)
(** * Page tables and user memory (vm.c)

    Page directories and page tables are pages of the physical memory of
    [Kalloc], their entries 32-bit words.  A pointer is a kernel address and 0
    is the null pointer.  The messages of [cprintf] are not modelled. *)

From S2P Require Import Prelude Params Mmu Kalloc.

Definition present (e : Z) : bool := negb (Z.land e PTE_P =? 0).
Definition user_ok (e : Z) : bool := negb (Z.land e PTE_U =? 0).

Section vm.
Context (kend : Z).            (** [end] of the kernel image *)

(** The address of the PTE for [va], or 0. *)
Definition walkpgdir (pgdir va : Z) (alloc : bool) : M kmem Z :=
  let pde := pgdir + 4 * PDX va in
  e ← load32 pde;
  if present e then mret (P2V (PTE_ADDR e) + 4 * PTX va)
  else if negb alloc then mret 0
  else
    pgtab ← kalloc;
    if pgtab =? 0 then mret 0
    else
      store_page pgtab zero_page;;
      store32 pde (Z.lor (Z.lor (Z.lor (V2P pgtab) PTE_P) PTE_W) PTE_U);;
      mret (pgtab + 4 * PTX va).

(** The loop of [mappages] from [a] to [last]. *)
Fixpoint mappages_loop (fuel : nat) (pgdir a last pa perm : Z) : M kmem Z :=
  match fuel with
  | O => diverge
  | S fuel' =>
      pte ← walkpgdir pgdir a true;
      if pte =? 0 then mret (-1)
      else
        e ← load32 pte;
        if present e then panic "remap"
        else
          store32 pte (Z.lor (Z.lor pa perm) PTE_P);;
          if a =? last then mret 0
          else mappages_loop fuel' pgdir (u32 (a + PGSIZE)) last (u32 (pa + PGSIZE)) perm
  end.
Definition mappages (pgdir va size pa perm : Z) : M kmem Z :=
  let a := PGROUNDDOWN va in
  let last := PGROUNDDOWN (u32 (va + size - 1)) in
  mappages_loop (S (Z.to_nat (u32 (last - a) / PGSIZE))) pgdir a last pa perm.

(** [deallocuvm]: the loop runs at most once per page below [oldsz]. *)
Fixpoint deallocuvm_loop (fuel : nat) (pgdir a oldsz : Z) : M kmem unit :=
  match fuel with
  | O => diverge
  | S fuel' =>
      if a <? oldsz then
        pte ← walkpgdir pgdir a false;
        if pte =? 0 then
          deallocuvm_loop fuel' pgdir (u32 (PGADDR (PDX a + 1) 0 0 - PGSIZE + PGSIZE)) oldsz
        else
          e ← load32 pte;
          when (present e)
            (let pa := PTE_ADDR e in
             if pa =? 0 then panic "kfree"
             else kfree kend (P2V pa);; store32 pte 0);;
          deallocuvm_loop fuel' pgdir (u32 (a + PGSIZE)) oldsz
      else mret tt
  end.
Definition deallocuvm (pgdir oldsz newsz : Z) : M kmem Z :=
  if oldsz <=? newsz then mret oldsz
  else
    deallocuvm_loop (S (Z.to_nat (oldsz / PGSIZE) + 1)) pgdir (PGROUNDUP newsz) oldsz;;
    mret newsz.

(** [freevm]: the user pages, the page tables and the directory. *)
Fixpoint free_tables (n : nat) (pgdir : Z) (i : Z) : M kmem unit :=
  match n with
  | O => mret tt
  | S n' =>
      e ← load32 (pgdir + 4 * i);
      when (present e) (kfree kend (P2V (PTE_ADDR e)));;
      free_tables n' pgdir (i + 1)
  end.
Definition freevm (pgdir : Z) : M kmem unit :=
  if pgdir =? 0 then panic "freevm: no pgdir"
  else
    deallocuvm pgdir KERNBASE 0;;
    free_tables NPDENTRIES pgdir 0;;
    kfree kend pgdir.

(** The kernel's mappings; [data] is where its writable part starts. *)
Record kmap := mkkmap { k_virt : Z; k_phys_start : Z; k_phys_end : Z; k_perm : Z }.
Definition kmaps (data : Z) : list kmap :=
  [mkkmap KERNBASE 0 EXTMEM PTE_W;
   mkkmap KERNLINK (V2P KERNLINK) (V2P data) 0;
   mkkmap data (V2P data) PHYSTOP PTE_W;
   mkkmap DEVSPACE DEVSPACE 0 PTE_W].

Fixpoint setupkvm_loop (ks : list kmap) (pgdir : Z) : M kmem Z :=
  match ks with
  | [] => mret pgdir
  | k :: ks' =>
      r ← mappages pgdir (k_virt k) (u32 (k_phys_end k - k_phys_start k)) (k_phys_start k) (k_perm k);
      if r <? 0 then freevm pgdir;; mret 0
      else setupkvm_loop ks' pgdir
  end.
Definition setupkvm (data : Z) : M kmem Z :=
  pgdir ← kalloc;
  if pgdir =? 0 then mret 0
  else
    store_page pgdir zero_page;;
    if DEVSPACE <? P2V PHYSTOP then panic "PHYSTOP too high"
    else setupkvm_loop (kmaps data) pgdir.

Definition inituvm (pgdir : Z) (init : list Z) (sz : Z) : M kmem unit :=
  if PGSIZE <=? sz then panic "inituvm: more than a page"
  else
    mem ← kalloc;
    store_page mem zero_page;;
    mappages pgdir 0 PGSIZE (V2P mem) (Z.lor PTE_W PTE_U);;
    p ← load_page mem;
    store_page mem (splice 0 (take (Z.to_nat sz) init) p).

Fixpoint allocuvm_loop (fuel : nat) (pgdir a oldsz newsz : Z) : M kmem Z :=
  match fuel with
  | O => diverge
  | S fuel' =>
      if a <? newsz then
        mem ← kalloc;
        if mem =? 0 then
          deallocuvm pgdir newsz oldsz;;
          mret 0
        else
          store_page mem zero_page;;
          r ← mappages pgdir a PGSIZE (V2P mem) (Z.lor PTE_W PTE_U);
          if r <? 0 then
            deallocuvm pgdir newsz oldsz;;
            kfree kend mem;;
            mret 0
          else allocuvm_loop fuel' pgdir (u32 (a + PGSIZE)) oldsz newsz
      else mret newsz
  end.
Definition allocuvm (pgdir oldsz newsz : Z) : M kmem Z :=
  if KERNBASE <=? newsz then mret 0
  else if newsz <? oldsz then mret oldsz
  else allocuvm_loop (S (Z.to_nat (newsz / PGSIZE) + 1)) pgdir (PGROUNDUP oldsz) oldsz newsz.

Definition clearpteu (pgdir uva : Z) : M kmem unit :=
  pte ← walkpgdir pgdir uva false;
  if pte =? 0 then panic "clearpteu"
  else
    e ← load32 pte;
    store32 pte (Z.land e (Z.lnot PTE_U)).

(** The loop of [copyuvm]; at [bad] the new directory is freed. *)
Fixpoint copyuvm_loop (fuel : nat) (pgdir d i sz : Z) : M kmem Z :=
  match fuel with
  | O => diverge
  | S fuel' =>
      if i <? sz then
        pte ← walkpgdir pgdir i false;
        if pte =? 0 then panic "copyuvm: pte should exist"
        else
          e ← load32 pte;
          if negb (present e) then panic "copyuvm: page not present"
          else
            mem ← kalloc;
            if mem =? 0 then freevm d;; mret 0
            else
              p ← load_page (P2V (PTE_ADDR e));
              store_page mem p;;
              r ← mappages d i PGSIZE (V2P mem) (PTE_FLAGS e);
              if r <? 0 then kfree kend mem;; freevm d;; mret 0
              else copyuvm_loop fuel' pgdir d (u32 (i + PGSIZE)) sz
      else mret d
  end.
Definition copyuvm (data pgdir sz : Z) : M kmem Z :=
  d ← setupkvm data;
  if d =? 0 then mret 0
  else copyuvm_loop (S (Z.to_nat (sz / PGSIZE) + 1)) pgdir d 0 sz.

(** [*pte] of a null [pte] is undefined. *)
Definition uva2ka (pgdir uva : Z) : M kmem Z :=
  pte ← walkpgdir pgdir uva false;
  if pte =? 0 then undef
  else
    e ← load32 pte;
    if negb (present e) then mret 0
    else if negb (user_ok e) then mret 0
    else mret (P2V (PTE_ADDR e)).

Fixpoint copyout_loop (fuel : nat) (pgdir va : Z) (buf : list Z) (len : Z) : M kmem Z :=
  match fuel with
  | O => diverge
  | S fuel' =>
      if 0 <? len then
        let va0 := PGROUNDDOWN va in
        pa0 ← uva2ka pgdir va0;
        if pa0 =? 0 then mret (-1)
        else
          let n := Z.min (PGSIZE - (va - va0)) len in
          p ← load_page pa0;
          store_page pa0 (splice (Z.to_nat (va - va0)) (take (Z.to_nat n) buf) p);;
          copyout_loop fuel' pgdir (u32 (va0 + PGSIZE)) (drop (Z.to_nat n) buf) (len - n)
      else mret 0
  end.
Definition copyout (pgdir va : Z) (p : list Z) (len : Z) : M kmem Z :=
  copyout_loop (Z.to_nat (len / PGSIZE) + 3) pgdir va p len.
End vm.
