(* ===== verification/VmSpec.v ===== *)
(** * Page tables: correctness

    A page directory as a map from virtual pages to entries, what [walkpgdir]
    and [mappages] do to it, and which pages of memory they touch. *)

From S2P Require Import Prelude Params Mmu Kalloc Vm.

(** ** Words of pages *)

Lemma page_off v k : v mod 4096 = 0 → 0 ≤ k < 1024 → page_of (v + 4 * k) = v ∧ off_of (v + 4 * k) = (4 * Z.to_nat k)%nat.
Proof. unfold page_of, off_of. intros. split; dlia. Qed.

Lemma PDX_range va : 0 ≤ PDX va < 1024.
Proof.
  unfold PDX. change 1023 with (Z.ones 10). rewrite Z.land_ones by lia. apply Z.mod_pos_bound. lia.
Qed.
Lemma PTX_range va : 0 ≤ PTX va < 1024.
Proof.
  unfold PTX. change 1023 with (Z.ones 10). rewrite Z.land_ones by lia. apply Z.mod_pos_bound. lia.
Qed.

(** The two indices determine the page. *)
Lemma PDX_PTX_page va va' : 0 ≤ va < 2 ^ 32 → 0 ≤ va' < 2 ^ 32 →
  (PDX va = PDX va' ∧ PTX va = PTX va') ↔ va / 4096 = va' / 4096.
Proof.
  intros H H'. rewrite !PDX_div, !PTX_div by done. change (2 ^ 22) with 4194304. change (2 ^ 12) with 4096.
  change (2 ^ 10) with 1024. split; dlia.
Qed.

(** An entry made of a page-aligned address and flags. *)
Lemma entry_parts a f : a mod 4096 = 0 → 0 ≤ a → a + f < 2 ^ 32 → 0 ≤ f < 4096 →
  PTE_ADDR (a + f) = a ∧ PTE_FLAGS (a + f) = f.
Proof.
  intros Ha H0 Hlt Hf. rewrite PTE_ADDR_div, PTE_FLAGS_mod, u32_small by lia. split; dlia.
Qed.

Lemma present_odd e : present e = negb (e mod 2 =? 0).
Proof. unfold present, PTE_P. by rewrite land_1_mod. Qed.

Lemma P2V_V2P kend v : valid_page kend v → P2V (V2P v) = v.
Proof.
  intros Hv. destruct (valid_V2P kend v Hv) as [E _]. rewrite E. unfold P2V.
  replace (v - KERNBASE + KERNBASE) with v by lia. by apply u32_small, (valid_u32 kend).
Qed.

(** What [walkpgdir] stores for a new table. *)
Definition table_pde (t : Z) : Z := Z.lor (Z.lor (Z.lor (V2P t) PTE_P) PTE_W) PTE_U.

Lemma table_pde_parts kend t : valid_page kend t →
  present (u32 (table_pde t)) = true ∧ P2V (PTE_ADDR (u32 (table_pde t))) = t.
Proof.
  intros Hv. destruct (valid_V2P kend t Hv) as [E HP]. unfold table_pde. rewrite <- !Z.lor_assoc.
  change (Z.lor PTE_P (Z.lor PTE_W PTE_U)) with 7. change PHYSTOP with 234881024 in HP.
  assert (V2P t mod 4096 = 0) as Hm.
  { rewrite E. destruct Hv as (Hm&_). change KERNBASE with 2147483648. dlia. }
  rewrite lor_flags by lia. rewrite u32_small by lia.
  destruct (entry_parts (V2P t) 7) as [-> _]; [done|lia..|]. split; [|by apply (P2V_V2P kend)].
  rewrite present_odd. destruct (Z.eqb_spec ((V2P t + 7) mod 2) 0); [dlia|done].
Qed.

Section pt.
Context (kend : Z).
Implicit Types (s : kmem) (l : list Z) (m : gmap Z page).

(** ** The page table as a map *)

Definition pde_at m (pgdir i : Z) : Z := get32 (m !!! pgdir) (4 * Z.to_nat i).
Definition table_at m (pgdir i : Z) : Z := P2V (PTE_ADDR (pde_at m pgdir i)).

(** The entry for the page of [va]; 0 if there is no table for it. *)
Definition entry m (pgdir va : Z) : Z :=
  if present (pde_at m pgdir (PDX va)) then get32 (m !!! table_at m pgdir (PDX va)) (4 * Z.to_nat (PTX va)) else 0.

(** A page of the page table itself. *)
Definition owner m (pgdir v : Z) : Prop :=
  v = pgdir ∨ ∃ i, 0 ≤ i < 1024 ∧ present (pde_at m pgdir i) = true ∧ table_at m pgdir i = v.

Record pt_ok s l (pgdir : Z) : Prop := {
  pt_rep : kmem_rep kend s l;
  pt_dir : valid_page kend pgdir ∧ pgdir ∉ l;
  pt_tab i : 0 ≤ i < 1024 → present (pde_at (km_mem s) pgdir i) = true →
    valid_page kend (table_at (km_mem s) pgdir i) ∧ table_at (km_mem s) pgdir i ∉ l ∧
    table_at (km_mem s) pgdir i ≠ pgdir;
  pt_inj i j : 0 ≤ i < 1024 → 0 ≤ j < 1024 →
    present (pde_at (km_mem s) pgdir i) = true → present (pde_at (km_mem s) pgdir j) = true →
    table_at (km_mem s) pgdir i = table_at (km_mem s) pgdir j → i = j
}.

(** What the operations may do to memory besides their effect on the map:
    take pages from the front of the free list and write to them and to the
    page table. *)
Record vm_frame (pgdir : Z) s l s' l' : Prop := {
  vf_ok : pt_ok s' l' pgdir;
  vf_used : ∃ used, l = used ++ l';
  vf_mem v : v ∉ l → ¬ owner (km_mem s) pgdir v → km_mem s' !! v = km_mem s !! v;
  vf_owner v : owner (km_mem s') pgdir v → owner (km_mem s) pgdir v ∨ (v ∈ l ∧ v ∉ l');
  vf_keep v : owner (km_mem s) pgdir v → owner (km_mem s') pgdir v
}.

Lemma valid_lookup s l v : kmem_rep kend s l → valid_page kend v →
  km_mem s !! v = Some (km_mem s !!! v) ∧ length (km_mem s !!! v) = 4096%nat.
Proof.
  intros K Hv. destruct (kr_pages _ _ _ K v Hv) as (p&Hp&Hl).
  rewrite (lookup_total_correct _ _ _ Hp). done.
Qed.

Lemma run_load32 s l v k : kmem_rep kend s l → valid_page kend v → 0 ≤ k < 1024 →
  load32 (v + 4 * k) s = Done (get32 (km_mem s !!! v) (4 * Z.to_nat k)) s.
Proof.
  intros K Hv Hk. destruct (valid_lookup s l v K Hv) as [E _].
  destruct (page_off v k) as [Ep Eo]; [apply Hv|done|].
  unfold load32, load_page, mbind, M_bind. by rewrite Ep, E, Eo.
Qed.

Definition upd_mem s v p : kmem := set_km_mem (<[v:=p]> (km_mem s)) s.

Lemma run_store32 s l v k x : kmem_rep kend s l → valid_page kend v → 0 ≤ k < 1024 →
  store32 (v + 4 * k) x s = Done tt (upd_mem s v (put32 (km_mem s !!! v) (4 * Z.to_nat k) x)).
Proof.
  intros K Hv Hk. destruct (valid_lookup s l v K Hv) as [E _].
  destruct (page_off v k) as [Ep Eo]; [apply Hv|done|].
  unfold store32, load_page, store_page, mbind, M_bind. by rewrite Ep, E, E, Eo.
Qed.

Lemma run_store_page s l v p : kmem_rep kend s l → valid_page kend v → store_page v p s = Done tt (upd_mem s v p).
Proof.
  intros K Hv. destruct (valid_lookup s l v K Hv) as [E _]. unfold store_page. by rewrite E.
Qed.

(** Writing to a page that is not free keeps the allocator's state. *)
Lemma kmem_rep_upd s l v p : kmem_rep kend s l → v ∉ l → length p = 4096%nat → kmem_rep kend (upd_mem s v p) l.
Proof.
  intros K Hv Hp. split; try apply K; simpl.
  - apply (chain_ext (km_mem s)); [|apply K]. intros w Hw. rewrite lookup_insert_ne; [done|]. by intros ->.
  - intros w Hw. destruct (decide (v = w)) as [<-|Hne]; [rewrite lookup_insert_eq; eauto|].
    rewrite lookup_insert_ne by done. by apply (kr_pages _ _ _ K).
Qed.

Lemma lookup_total_upd s v p w : (km_mem (upd_mem s v p)) !!! w = if decide (v = w) then p else km_mem s !!! w.
Proof.
  simpl. case_decide as E; [subst; apply lookup_total_insert_eq|by apply lookup_total_insert_ne].
Qed.
Lemma lookup_upd_ne s v p w : v ≠ w → km_mem (upd_mem s v p) !! w = km_mem s !! w.
Proof. apply lookup_insert_ne. Qed.

Lemma get32_zero_page off : get32 zero_page off = 0.
Proof.
  unfold get32, zero_page, slice. rewrite drop_replicate, take_replicate. generalize (Nat.min 4 (4096 - off)).
  intros k. induction k as [|k IH]; [done|]. simpl. by rewrite IH.
Qed.

(** ** Composition of frames *)

Lemma vm_frame_refl pgdir s l : pt_ok s l pgdir → vm_frame pgdir s l s l.
Proof. intros P. split; [done|by exists []|done|by left|done]. Qed.

Lemma vm_frame_trans pgdir s1 l1 s2 l2 s3 l3 :
  vm_frame pgdir s1 l1 s2 l2 → vm_frame pgdir s2 l2 s3 l3 → vm_frame pgdir s1 l1 s3 l3.
Proof.
  intros [O1 [u1 ->] M1 W1 K1] [O2 [u2 ->] M2 W2 K2]. split.
  - done.
  - exists (u1 ++ u2). by rewrite app_assoc.
  - intros v Hv Ho. rewrite M2; [by apply M1|set_solver|]. intros [?|[? _]]%W1; [done|]. done.
  - intros v [Hv|[Hv Hn]]%W2; [apply W1 in Hv as [?|[? ?]]; [by left|right; set_solver]|right; set_solver].
  - auto.
Qed.

(** ** Writing an entry *)

Section store.
Context s l (pgdir va x : Z) (P : pt_ok s l pgdir) (Hva : 0 ≤ va < 2 ^ 32).
Context (Hp : present (pde_at (km_mem s) pgdir (PDX va)) = true).
Let t := table_at (km_mem s) pgdir (PDX va).
Let s' := upd_mem s t (put32 (km_mem s !!! t) (4 * Z.to_nat (PTX va)) x).

Lemma store_pte_pde i : pde_at (km_mem s') pgdir i = pde_at (km_mem s) pgdir i.
Proof.
  unfold pde_at, s'. rewrite lookup_total_upd. rewrite decide_False; [done|].
  apply (pt_tab _ _ _ P (PDX va)); [apply PDX_range|done].
Qed.

Lemma store_pte_table i : table_at (km_mem s') pgdir i = table_at (km_mem s) pgdir i.
Proof. unfold table_at. by rewrite store_pte_pde. Qed.

Lemma store_pte_owner v : owner (km_mem s') pgdir v ↔ owner (km_mem s) pgdir v.
Proof. unfold owner. setoid_rewrite store_pte_pde. setoid_rewrite store_pte_table. done. Qed.

Lemma store_pte_frame : vm_frame pgdir s l s' l.
Proof.
  destruct (pt_tab _ _ _ P (PDX va) (PDX_range va) Hp) as (Hv&Hn&Hd). fold t in Hv, Hn, Hd.
  destruct (valid_lookup s l t (pt_rep _ _ _ P) Hv) as [_ Hl].
  split.
  - split.
    + apply kmem_rep_upd; [apply P|done|]. rewrite length_put32; [done|]. pose proof (PTX_range va). lia.
    + apply P.
    + intros i Hi. rewrite store_pte_pde, store_pte_table. by apply (pt_tab _ _ _ P).
    + intros i j Hi Hj. rewrite !store_pte_pde, !store_pte_table. by apply (pt_inj _ _ _ P).
  - by exists [].
  - intros v _ Ho. apply lookup_upd_ne. intros <-. apply Ho. right. exists (PDX va).
    split_and!; [apply PDX_range..|done|done].
  - intros v Hv'. left. by apply store_pte_owner.
  - intros v Hv'. by apply store_pte_owner.
Qed.

Lemma store_pte_entry va' : 0 ≤ va' < 2 ^ 32 →
  entry (km_mem s') pgdir va' = if decide (va' / 4096 = va / 4096) then u32 x else entry (km_mem s) pgdir va'.
Proof.
  intros Hva'. destruct (pt_tab _ _ _ P (PDX va) (PDX_range va) Hp) as (Hv&_). fold t in Hv.
  destruct (valid_lookup s l t (pt_rep _ _ _ P) Hv) as [_ Hl].
  pose proof (PTX_range va) as R. pose proof (PTX_range va') as R'. pose proof (PDX_PTX_page va' va Hva' Hva) as Eq.
  unfold entry. rewrite store_pte_pde, store_pte_table. unfold s'. rewrite lookup_total_upd.
  destruct (decide (va' / 4096 = va / 4096)) as [E|E];
    [|destruct (decide (t = table_at (km_mem s) pgdir (PDX va'))) as [E'|E']].
  - apply Eq in E as [-> ->]. rewrite Hp. fold t. rewrite decide_True by done. apply get32_put32_eq. lia.
  - destruct (present (pde_at (km_mem s) pgdir (PDX va'))) eqn:Ep; [|done].
    assert (PDX va = PDX va') as Ed by (apply (pt_inj _ _ _ P); auto using PDX_range).
    rewrite <- E'. rewrite get32_put32_ne; [done|lia|lia|].
    assert (PTX va ≠ PTX va') by (intros Et; apply E, Eq; by rewrite Ed, Et). lia.
  - done.
Qed.
End store.

(** ** A new table *)

Lemma free_head_valid s t l pgdir : pt_ok s (t :: l) pgdir → valid_page kend t ∧ t ∉ l ∧ t ≠ pgdir.
Proof.
  intros P. pose proof (kr_nodup _ _ _ (pt_rep _ _ _ P)) as [? _]%NoDup_cons. split_and!; [|done|].
  - apply (kr_valid _ _ _ (pt_rep _ _ _ P)). left.
  - intros ->. destruct (pt_dir _ _ _ P) as [_ Hn]. apply Hn. left.
Qed.

Section table.
Context s (t : Z) l (pgdir va r : Z) (P : pt_ok s (t :: l) pgdir).
Context (Ha : present (pde_at (km_mem s) pgdir (PDX va)) = false).
Context (K : kmem_rep kend (set_km_freelist r s) l).
Let s1 := upd_mem (set_km_freelist r s) t zero_page.
Let s' := upd_mem s1 pgdir (put32 (km_mem s1 !!! pgdir) (4 * Z.to_nat (PDX va)) (table_pde t)).

Lemma new_table_pde i : 0 ≤ i < 1024 →
  pde_at (km_mem s') pgdir i = if decide (i = PDX va) then u32 (table_pde t) else pde_at (km_mem s) pgdir i.
Proof.
  intros Hi. destruct (free_head_valid s t l pgdir P) as (_&_&Hne). pose proof (PDX_range va).
  destruct (valid_lookup s (t :: l) pgdir (pt_rep _ _ _ P) (proj1 (pt_dir _ _ _ P))) as [_ Hl].
  unfold pde_at, s'. rewrite lookup_total_upd, decide_True by done.
  unfold s1 at 1. rewrite lookup_total_upd, decide_False by done. cbn [km_mem set_km_freelist].
  case_decide as E; [subst i; apply get32_put32_eq; lia|apply get32_put32_ne; lia].
Qed.

Lemma new_table_at i : 0 ≤ i < 1024 →
  table_at (km_mem s') pgdir i = if decide (i = PDX va) then t else table_at (km_mem s) pgdir i.
Proof.
  intros Hi. unfold table_at. rewrite new_table_pde by done. case_decide; [|done].
  apply (table_pde_parts kend). by apply (free_head_valid s t l pgdir).
Qed.

Lemma new_table_present i : 0 ≤ i < 1024 →
  present (pde_at (km_mem s') pgdir i) = bool_decide (i = PDX va) || present (pde_at (km_mem s) pgdir i).
Proof.
  intros Hi. rewrite new_table_pde by done. case_decide as E; [|by rewrite bool_decide_eq_false_2].
  rewrite bool_decide_eq_true_2 by done. apply (table_pde_parts kend). by apply (free_head_valid s t l pgdir).
Qed.

Lemma new_table_ok : pt_ok s' l pgdir.
Proof.
  destruct (free_head_valid s t l pgdir P) as (Hv&Hn&Hne). destruct (pt_dir _ _ _ P) as [Hdv Hdn]. apply not_elem_of_cons in Hdn as [Hdt Hdl].
  assert (length (km_mem s1 !!! pgdir) = 4096%nat) as Hl1.
  { unfold s1. rewrite lookup_total_upd, decide_False by done. by apply (valid_lookup s (t :: l) pgdir (pt_rep _ _ _ P)). }
  assert (Htab : ∀ i, 0 ≤ i < 1024 → present (pde_at (km_mem s) pgdir i) = true → table_at (km_mem s) pgdir i ≠ t).
  { intros i Hi Hp E. destruct (pt_tab _ _ _ P i Hi Hp) as (_&Hnt&_). apply Hnt. rewrite E. left. }
  split.
  - apply kmem_rep_upd; [|done|rewrite length_put32; [done|pose proof (PDX_range va); lia]].
    apply kmem_rep_upd; [done|done|apply length_zero_page].
  - done.
  - intros i Hi. rewrite new_table_present, new_table_at by done. case_decide as E; [done|].
    rewrite bool_decide_eq_false_2 by done. intros Hp. destruct (pt_tab _ _ _ P i Hi Hp) as (?&[? ?]%not_elem_of_cons&?). done.
  - intros i j Hi Hj. rewrite !new_table_present, !new_table_at by done.
    repeat case_decide; rewrite ?bool_decide_eq_true_2, ?bool_decide_eq_false_2 by done; try congruence; cbn [orb].
    + intros _ Hp E. symmetry in E. by apply Htab in E.
    + intros Hp _ E. by apply Htab in E.
    + by apply (pt_inj _ _ _ P).
Qed.

Lemma new_table_frame : vm_frame pgdir s (t :: l) s' l.
Proof.
  destruct (free_head_valid s t l pgdir P) as (Hv&Hn&Hne). split.
  - apply new_table_ok.
  - by exists [t].
  - intros v [Hvt Hvl]%not_elem_of_cons Ho. unfold s', s1.
    rewrite lookup_upd_ne by (intros <-; apply Ho; by left). by rewrite lookup_upd_ne.
  - intros v [->|(i&Hi&Hp&E)]; [left; by left|]. rewrite new_table_present in Hp by done. rewrite new_table_at in E by done.
    case_decide as Ei.
    + right. rewrite <- E. split; [left|done].
    + rewrite bool_decide_eq_false_2 in Hp by done. left. right. exists i. done.
  - intros v [->|(i&Hi&Hp&E)]; [by left|]. right. exists i. rewrite new_table_present, new_table_at by done.
    assert (i ≠ PDX va) as Ei by (intros ->; by rewrite Hp in Ha). rewrite decide_False by done.
    rewrite Hp, orb_true_r. done.
Qed.

Lemma new_table_entry va' : entry (km_mem s') pgdir va' = entry (km_mem s) pgdir va'.
Proof.
  destruct (free_head_valid s t l pgdir P) as (Hv&Hn&Hne). unfold entry. rewrite new_table_present, new_table_at by apply PDX_range.
  case_decide as E.
  - rewrite bool_decide_eq_true_2 by done. rewrite E, Ha. cbn [orb].
    unfold s'. rewrite lookup_total_upd, decide_False by done. unfold s1. rewrite lookup_total_upd, decide_True by done.
    apply get32_zero_page.
  - rewrite bool_decide_eq_false_2 by done. cbn [orb]. destruct (present (pde_at (km_mem s) pgdir (PDX va'))) eqn:Ep; [|reflexivity]. f_equal.
    destruct (pt_tab _ _ _ P (PDX va') (PDX_range va') Ep) as (_&[? ?]%not_elem_of_cons&?).
    unfold s'. rewrite lookup_total_upd, decide_False by done. unfold s1. by rewrite lookup_total_upd, decide_False.
Qed.
End table.
(** ** [walkpgdir] *)

Lemma walk_false s l pgdir va : pt_ok s l pgdir →
  walkpgdir pgdir va false s =
  Done (if present (pde_at (km_mem s) pgdir (PDX va)) then table_at (km_mem s) pgdir (PDX va) + 4 * PTX va else 0) s.
Proof.
  intros P. unfold walkpgdir. unfold mbind at 1, M_bind at 1.
  rewrite (run_load32 s l pgdir (PDX va) (pt_rep _ _ _ P) (proj1 (pt_dir _ _ _ P)) (PDX_range va)).
  fold (pde_at (km_mem s) pgdir (PDX va)). by destruct (present (pde_at (km_mem s) pgdir (PDX va))).
Qed.

Lemma table_nonzero s l pgdir va : pt_ok s l pgdir → present (pde_at (km_mem s) pgdir (PDX va)) = true →
  table_at (km_mem s) pgdir (PDX va) + 4 * PTX va ≠ 0.
Proof.
  intros P Hp. destruct (pt_tab _ _ _ P (PDX va) (PDX_range va) Hp) as (Hv&_).
  pose proof (PTX_range va). destruct Hv as (_&_&Hv). change KERNBASE with 2147483648 in Hv. lia.
Qed.

(** The page taken for the table of index [p], if it had none. *)
Definition table_taken s l s' l' (pgdir p : Z) : Prop :=
  (length l = length l' + if present (pde_at (km_mem s) pgdir p) then 0 else 1)%nat ∧
  ∀ i, 0 ≤ i < 1024 → present (pde_at (km_mem s') pgdir i) = bool_decide (i = p) || present (pde_at (km_mem s) pgdir i).

Lemma walk_true s l pgdir va : pt_ok s l pgdir → l ≠ [] ∨ present (pde_at (km_mem s) pgdir (PDX va)) = true →
  ∃ s' l', walkpgdir pgdir va true s = Done (table_at (km_mem s') pgdir (PDX va) + 4 * PTX va) s' ∧
    present (pde_at (km_mem s') pgdir (PDX va)) = true ∧ vm_frame pgdir s l s' l' ∧
    (∀ va', entry (km_mem s') pgdir va' = entry (km_mem s) pgdir va') ∧ table_taken s l s' l' pgdir (PDX va).
Proof.
  intros P Hl. unfold walkpgdir. unfold mbind at 1, M_bind at 1.
  rewrite (run_load32 s l pgdir (PDX va) (pt_rep _ _ _ P) (proj1 (pt_dir _ _ _ P)) (PDX_range va)).
  fold (pde_at (km_mem s) pgdir (PDX va)). destruct (present (pde_at (km_mem s) pgdir (PDX va))) eqn:Ep.
  { exists s, l. split; [reflexivity|]. split_and!; [done|by apply vm_frame_refl|done|].
    split; [rewrite Ep; lia|]. intros i _. case_bool_decide as E; [by subst|done]. }
  destruct l as [|t l]; [by destruct Hl|]. clear Hl. cbn [negb]. destruct (kalloc_cons kend s t l (pt_rep _ _ _ P)) as (r&E&K).
  destruct (free_head_valid s t l pgdir P) as (Hv&Hn&Hne).
  unfold mbind at 1, M_bind at 1. rewrite E. rewrite (proj2 (Z.eqb_neq t 0)) by by apply (valid_nonzero kend).
  unfold mbind at 1, M_bind at 1. rewrite (run_store_page (set_km_freelist r s) l t zero_page K Hv).
  unfold mbind at 1, M_bind at 1. fold (table_pde t).
  rewrite (run_store32 (upd_mem (set_km_freelist r s) t zero_page) l pgdir (PDX va) (table_pde t));
    [|apply kmem_rep_upd; [done|done|apply length_zero_page]|exact (proj1 (pt_dir _ _ _ P))|apply PDX_range].
  eexists _, l. split; [|split_and!;
    [|exact (new_table_frame s t l pgdir va r P Ep K)|exact (new_table_entry s t l pgdir va r P Ep)|]].
  - unfold mret, M_ret. f_equal. rewrite (new_table_at s t l pgdir va r P) by apply PDX_range. by rewrite decide_True.
  - rewrite (new_table_present s t l pgdir va r P) by apply PDX_range. by rewrite bool_decide_eq_true_2.
  - split; [rewrite Ep; simpl; lia|]. exact (new_table_present s t l pgdir va r P).
Qed.

(** With no free page, [walkpgdir] fails without a change if it needs a table. *)
Lemma walk_true_nil s pgdir va : pt_ok s [] pgdir → present (pde_at (km_mem s) pgdir (PDX va)) = false →
  walkpgdir pgdir va true s = Done 0 s.
Proof.
  intros P Ep. unfold walkpgdir. unfold mbind at 1, M_bind at 1.
  rewrite (run_load32 s [] pgdir (PDX va) (pt_rep _ _ _ P) (proj1 (pt_dir _ _ _ P)) (PDX_range va)).
  fold (pde_at (km_mem s) pgdir (PDX va)). rewrite Ep. cbn [negb].
  unfold mbind at 1, M_bind at 1. by rewrite (kalloc_nil kend s (pt_rep _ _ _ P)).
Qed.

(** Reading the entry [walkpgdir] points to. *)
Lemma load_pte s l pgdir va : pt_ok s l pgdir → present (pde_at (km_mem s) pgdir (PDX va)) = true →
  load32 (table_at (km_mem s) pgdir (PDX va) + 4 * PTX va) s = Done (entry (km_mem s) pgdir va) s.
Proof.
  intros P Hp. destruct (pt_tab _ _ _ P (PDX va) (PDX_range va) Hp) as (Hv&_).
  rewrite (run_load32 s l _ (PTX va) (pt_rep _ _ _ P) Hv (PTX_range va)). unfold entry. by rewrite Hp.
Qed.

(** ** [mappages] *)

(** One turn of the loop. *)
Lemma mappages_turn s l pgdir fuel va last pa perm : pt_ok s l pgdir →
  l ≠ [] ∨ present (pde_at (km_mem s) pgdir (PDX va)) = true → 0 ≤ va < 2 ^ 32 →
  present (entry (km_mem s) pgdir va) = false →
  ∃ s' l', mappages_loop (S fuel) pgdir va last pa perm s =
      (if va =? last then Done 0 s'
       else mappages_loop fuel pgdir (u32 (va + PGSIZE)) last (u32 (pa + PGSIZE)) perm s') ∧
    vm_frame pgdir s l s' l' ∧ table_taken s l s' l' pgdir (PDX va) ∧
    (∀ va', 0 ≤ va' < 2 ^ 32 → entry (km_mem s') pgdir va' =
       if decide (va' / 4096 = va / 4096) then u32 (Z.lor (Z.lor pa perm) PTE_P) else entry (km_mem s) pgdir va').
Proof.
  intros P Hl Hva Hn. destruct (walk_true s l pgdir va P Hl) as (s1&l1&E1&Hp1&F1&He1&Ht1).
  pose proof (vf_ok _ _ _ _ _ F1) as P1.
  destruct (pt_tab _ _ _ P1 (PDX va) (PDX_range va) Hp1) as (Hv&_).
  cbn [mappages_loop]. unfold mbind at 1, M_bind at 1. rewrite E1.
  rewrite (proj2 (Z.eqb_neq _ _)) by by apply (table_nonzero s1 l1).
  unfold mbind at 1, M_bind at 1. rewrite (load_pte s1 l1 pgdir va P1 Hp1), He1, Hn.
  unfold mbind at 1, M_bind at 1. rewrite (run_store32 s1 l1 _ (PTX va) _ (pt_rep _ _ _ P1) Hv (PTX_range va)).
  eexists _, l1. split; [by destruct (va =? last)|]. split_and!; [| |].
  - eapply vm_frame_trans; [done|]. by apply store_pte_frame.
  - destruct Ht1 as [Hl1 Hpr]. split; [done|]. intros i Hi. rewrite (store_pte_pde s1 l1 pgdir va _ P1 Hp1). by apply Hpr.
  - intros va' Hva'. rewrite (store_pte_entry s1 l1 pgdir va) by done. by rewrite He1.
Qed.

(** The indices among [S] that have no table yet. *)
Definition lacking s (pgdir : Z) (S : list Z) : nat := length (filter (λ i, present (pde_at (km_mem s) pgdir i) = false) S).

Lemma lacking_taken s l s' l' pgdir p S : NoDup S → p ∈ S → (∀ i, i ∈ S → 0 ≤ i < 1024) →
  table_taken s l s' l' pgdir p → (length l + lacking s' pgdir S = length l' + lacking s pgdir S)%nat.
Proof.
  intros Hnd Hp Hr [Hl Hpr]. rewrite Hl. clear Hl. unfold lacking.
  assert (Hout : ∀ S' : list Z, p ∉ S' → (∀ i, i ∈ S' → 0 ≤ i < 1024) →
    filter (λ i, present (pde_at (km_mem s') pgdir i) = false) S' = filter (λ i, present (pde_at (km_mem s) pgdir i) = false) S').
  { intros S'. induction S' as [|i S' IH]; [done|]. intros [Hi Hn]%not_elem_of_cons Hr'. rewrite !filter_cons, IH by (done || intros j Hj; apply Hr'; by right).
    rewrite Hpr by (apply Hr'; left). by rewrite bool_decide_eq_false_2. }
  apply list_elem_of_split in Hp as (S1&S2&->). apply NoDup_app in Hnd as (_&Hd&[Hn2 _]%NoDup_cons).
  assert (Hn1 : p ∉ S1) by (intros H; apply (Hd p H); left).
  rewrite !filter_app, !filter_cons, !length_app. rewrite (Hout S1), (Hout S2); [|set_solver..].
  rewrite (Hpr p) by (apply Hr; set_solver). rewrite bool_decide_eq_true_2 by done. cbn [orb].
  destruct (present (pde_at (km_mem s) pgdir p)); repeat case_decide; simpl; congruence || lia.
Qed.

(** The entry [mappages] gives to the page of [va'], in a mapping of [va] to [pa]. *)
Definition mapping (va pa perm va' : Z) : Z := u32 (Z.lor (Z.lor (pa + (va' / 4096 * 4096 - va)) perm) PTE_P).

(** [S] has the indices of the range (and maybe more): one page for each that
    lacks a table is enough. *)
Lemma mappages_loop_tight pgdir perm S n : NoDup S → (∀ i, i ∈ S → 0 ≤ i < 1024) →
  ∀ fuel s l va pa, pt_ok s l pgdir → (lacking s pgdir S ≤ length l)%nat → (n < fuel)%nat →
  0 ≤ va → va mod 4096 = 0 → va + 4096 * Z.of_nat n < 2 ^ 32 → 0 ≤ pa → pa + 4096 * Z.of_nat n < 2 ^ 32 →
  (∀ va', va ≤ va' < va + 4096 * Z.of_nat (1 + n) → PDX va' ∈ S) →
  (∀ va', va ≤ va' < va + 4096 * Z.of_nat (1 + n) → present (entry (km_mem s) pgdir va') = false) →
  ∃ s' l', mappages_loop fuel pgdir va (va + 4096 * Z.of_nat n) pa perm s = Done 0 s' ∧
    vm_frame pgdir s l s' l' ∧ (length l + lacking s' pgdir S = length l' + lacking s pgdir S)%nat ∧
    (∀ va', 0 ≤ va' < 2 ^ 32 → entry (km_mem s') pgdir va' =
       if decide (va ≤ va' < va + 4096 * Z.of_nat (1 + n)) then mapping va pa perm va'
       else entry (km_mem s) pgdir va').
Proof.
  intros Hnd Hr. induction n as [|n IH]; intros [|fuel] s l va pa P Hl Hf H0 Hm Hlt Hpa Hplt HS Habs; try lia.
  all: assert (Hroom : l ≠ [] ∨ present (pde_at (km_mem s) pgdir (PDX va)) = true) by
    (destruct l; [right|by left]; destruct (present (pde_at (km_mem s) pgdir (PDX va))) eqn:Ep; [done|exfalso];
     assert (Hin : PDX va ∈ filter (λ i, present (pde_at (km_mem s) pgdir i) = false) S) by (apply list_elem_of_filter; split; [done|apply HS; lia]);
     unfold lacking in Hl; destruct (filter _ S); [by apply elem_of_nil in Hin|simpl in Hl; lia]).
  - destruct (mappages_turn s l pgdir fuel va (va + 4096 * Z.of_nat 0) pa perm P Hroom) as (s'&l'&E&F&Ht&He);
      [lia|apply Habs; lia|].
    exists s', l'. rewrite E. rewrite (proj2 (Z.eqb_eq _ _)) by lia. split_and!; [done|done|eapply lacking_taken; [done| |done|exact Ht]; apply HS; lia|].
    intros va' Hva'. rewrite He by done. unfold mapping. repeat case_decide; try (exfalso; dlia); [|done].
    replace (pa + (va' / 4096 * 4096 - va)) with pa by dlia. done.
  - destruct (mappages_turn s l pgdir fuel va (va + 4096 * Z.of_nat (Datatypes.S n)) pa perm P Hroom) as (s1&l1&E&F&Ht&He);
      [lia|apply Habs; lia|].
    pose proof (lacking_taken s l s1 l1 pgdir (PDX va) S Hnd (HS va ltac:(lia)) Hr Ht) as Hc1.
    rewrite (proj2 (Z.eqb_neq _ _)) in E by lia. change PGSIZE with 4096 in E. rewrite !u32_small in E by lia.
    destruct (IH fuel s1 l1 (va + 4096) (pa + 4096)) as (s'&l'&E'&F'&Hc'&He');
      [apply F|lia|lia|lia|dlia|lia|lia|lia|intros va' Hva'; apply HS; lia| |].
    { intros va' Hva'. rewrite He by dlia. rewrite decide_False by dlia. apply Habs. lia. }
    exists s', l'. replace (va + 4096 + 4096 * Z.of_nat n) with (va + 4096 * Z.of_nat (Datatypes.S n)) in E' by lia.
    split_and!; [by rewrite E|by eapply vm_frame_trans|lia|].
    intros va' Hva'. rewrite He', He by done. unfold mapping. repeat case_decide; try (exfalso; dlia); try done.
    + do 3 f_equal. lia.
    + replace (pa + (va' / 4096 * 4096 - va)) with pa by dlia. done.
Qed.

(** All addresses of a page have the same entry. *)
Lemma entry_same_page m pgdir va va' : 0 ≤ va < 2 ^ 32 → 0 ≤ va' < 2 ^ 32 → va / 4096 = va' / 4096 →
  entry m pgdir va = entry m pgdir va'.
Proof. intros H H' E. apply PDX_PTX_page in E as [E1 E2]; [|done..]. unfold entry. by rewrite E1, E2. Qed.

Lemma mappages_tight s l pgdir va size pa perm S n : NoDup S → (∀ i, i ∈ S → 0 ≤ i < 1024) →
  pt_ok s l pgdir → (lacking s pgdir S ≤ length l)%nat →
  0 ≤ va → 1 ≤ size → va + size ≤ 2 ^ 32 → Z.of_nat n = (va + size - 1) / 4096 - va / 4096 →
  0 ≤ pa < 2 ^ 32 - 4096 * Z.of_nat n →
  (∀ va', va / 4096 ≤ va' / 4096 ≤ (va + size - 1) / 4096 → PDX va' ∈ S) →
  (∀ va', va / 4096 ≤ va' / 4096 ≤ (va + size - 1) / 4096 → present (entry (km_mem s) pgdir va') = false) →
  ∃ s' l', mappages pgdir va size pa perm s = Done 0 s' ∧ vm_frame pgdir s l s' l' ∧
    (length l + lacking s' pgdir S = length l' + lacking s pgdir S)%nat ∧
    (∀ va', 0 ≤ va' < 2 ^ 32 → entry (km_mem s') pgdir va' =
       if decide (va / 4096 ≤ va' / 4096 ≤ (va + size - 1) / 4096) then mapping (va / 4096 * 4096) pa perm va'
       else entry (km_mem s) pgdir va').
Proof.
  intros Hnd Hr P Hl H0 Hs Hlt Hn Hpa HS Habs. unfold mappages. rewrite (u32_small (va + size - 1)) by lia.
  rewrite !PGROUNDDOWN_div by lia. rewrite u32_small by dlia. change PGSIZE with 4096.
  replace ((va + size - 1) / 4096 * 4096) with (va / 4096 * 4096 + 4096 * Z.of_nat n) by dlia.
  destruct (mappages_loop_tight pgdir perm S n Hnd Hr (Datatypes.S (Z.to_nat ((va / 4096 * 4096 + 4096 * Z.of_nat n - va / 4096 * 4096) / 4096)))
    s l (va / 4096 * 4096) pa P) as (s'&l'&E&F&Hll&He); try done; try dlia.
  { intros va' Hva'. apply HS. dlia. }
  { intros va' Hva'. apply Habs. dlia. }
  exists s', l'. split_and!; [done|done|done|]. intros va' Hva'. rewrite He by done.
  repeat case_decide; done || (exfalso; dlia).
Qed.

(** As many pages as the range has are enough. *)
Lemma mappages_spec s l pgdir va size pa perm n : pt_ok s l pgdir → (n < length l)%nat →
  0 ≤ va → 1 ≤ size → va + size ≤ 2 ^ 32 → Z.of_nat n = (va + size - 1) / 4096 - va / 4096 →
  0 ≤ pa < 2 ^ 32 - 4096 * Z.of_nat n →
  (∀ va', va / 4096 ≤ va' / 4096 ≤ (va + size - 1) / 4096 → present (entry (km_mem s) pgdir va') = false) →
  ∃ s' l', mappages pgdir va size pa perm s = Done 0 s' ∧ vm_frame pgdir s l s' l' ∧
    (length l ≤ S n + length l')%nat ∧
    (∀ va', 0 ≤ va' < 2 ^ 32 → entry (km_mem s') pgdir va' =
       if decide (va / 4096 ≤ va' / 4096 ≤ (va + size - 1) / 4096) then mapping (va / 4096 * 4096) pa perm va'
       else entry (km_mem s) pgdir va').
Proof.
  intros P Hl H0 Hs Hlt Hn Hpa Habs.
  set (lo := PDX va). set (hi := PDX (va + size - 1)).
  assert (Hlo : lo = va / 4194304) by (unfold lo; rewrite PDX_div by lia; done).
  assert (Hhi : hi = (va + size - 1) / 4194304) by (unfold hi; rewrite PDX_div by lia; done).
  set (T := seqZ lo (hi - lo + 1)). assert (HT : (length T ≤ S n)%nat) by (unfold T; rewrite length_seqZ; dlia).
  assert (Hk : ∀ s0, (lacking s0 pgdir T ≤ S n)%nat) by (intros s0; unfold lacking; etransitivity; [apply length_filter|exact HT]).
  destruct (mappages_tight s l pgdir va size pa perm T n) as (s'&l'&E&F&Hc&He); try done.
  - apply NoDup_seqZ.
  - intros i Hi%elem_of_seqZ. dlia.
  - specialize (Hk s). lia.
  - intros va' Hva'. apply elem_of_seqZ. rewrite PDX_div by dlia. change (2 ^ 22) with 4194304. dlia.
  - exists s', l'. split_and!; [done|done|specialize (Hk s); lia|done].
Qed.
End pt.
