(* ===== verification/VmUser.v ===== *)
(** * User memory

    [allocuvm] and [copyout] seen from the process: a user address has a page
    of memory of its own, new memory is zero, and what is copied out is what
    the process reads. *)

From S2P Require Import Prelude Params Mmu Kalloc Vm VmSpec.

(** The page an entry points to. *)
Definition frame (e : Z) : Z := P2V (PTE_ADDR e).

Section user.
Context (kend pgdir : Z).
Implicit Types (s : kmem) (l : list Z).
Abbreviation pt_ok := (pt_ok kend).
Abbreviation vm_frame := (vm_frame kend).

(** The entry lets the user access the page. *)
Definition accessible s (va : Z) : bool :=
  present (entry (km_mem s) pgdir va) && user_ok (entry (km_mem s) pgdir va).
Definition user_page s (va : Z) : Z := frame (entry (km_mem s) pgdir va).

(** Each accessible page of the address space has memory of its own, which is
    neither free nor part of the page table. *)
Record um_ok s l : Prop := {
  um_pt : pt_ok s l pgdir;
  um_page va : 0 ≤ va < 2 ^ 32 → accessible s va = true →
    valid_page kend (user_page s va) ∧ user_page s va ∉ l ∧ ¬ owner (km_mem s) pgdir (user_page s va);
  um_inj va va' : 0 ≤ va < 2 ^ 32 → 0 ≤ va' < 2 ^ 32 → accessible s va = true → accessible s va' = true →
    user_page s va = user_page s va' → va / 4096 = va' / 4096
}.

(** ** Writing to a page that is neither free nor part of the page table *)

Section write.
Context s v (p : page) (Ho : ¬ owner (km_mem s) pgdir v).

Lemma write_pde i : pde_at (km_mem (upd_mem s v p)) pgdir i = pde_at (km_mem s) pgdir i.
Proof.
  unfold pde_at. rewrite lookup_total_upd, decide_False; [done|]. intros ->. apply Ho. by left.
Qed.
Lemma write_table i : table_at (km_mem (upd_mem s v p)) pgdir i = table_at (km_mem s) pgdir i.
Proof. unfold table_at. by rewrite write_pde. Qed.
Lemma write_owner w : owner (km_mem (upd_mem s v p)) pgdir w ↔ owner (km_mem s) pgdir w.
Proof. unfold owner. setoid_rewrite write_pde. setoid_rewrite write_table. done. Qed.

Lemma write_entry va : entry (km_mem (upd_mem s v p)) pgdir va = entry (km_mem s) pgdir va.
Proof.
  unfold entry. rewrite write_pde, write_table.
  destruct (present (pde_at (km_mem s) pgdir (PDX va))) eqn:Ep; [|done].
  rewrite lookup_total_upd, decide_False; [done|]. intros E. apply Ho. right.
  exists (PDX va). split_and!; [apply PDX_range..|done|done].
Qed.

Lemma write_pt_ok l : pt_ok s l pgdir → v ∉ l → length p = 4096%nat → pt_ok (upd_mem s v p) l pgdir.
Proof.
  intros P Hv Hl. split.
  - apply kmem_rep_upd; [apply (pt_rep _ _ _ _ P)|done|done].
  - apply (pt_dir _ _ _ _ P).
  - intros i Hi. rewrite write_pde, write_table. by apply (pt_tab _ _ _ _ P).
  - intros i j Hi Hj. rewrite !write_pde, !write_table. by apply (pt_inj _ _ _ _ P).
Qed.
End write.

(** Taking the first free page. *)
Lemma take_page s t l : pt_ok s (t :: l) pgdir →
  ∃ r, kalloc s = Done t (set_km_freelist r s) ∧ pt_ok (set_km_freelist r s) l pgdir.
Proof.
  intros P. destruct (kalloc_cons kend s t l (pt_rep _ _ _ _ P)) as (r&E&K). exists r. split; [done|].
  destruct (pt_dir _ _ _ _ P) as [Hd [_ Hd']%not_elem_of_cons]. split; [done|done| |apply (pt_inj _ _ _ _ P)].
  intros i Hi Hp. destruct (pt_tab _ _ _ _ P i Hi Hp) as (?&[_ ?]%not_elem_of_cons&?). done.
Qed.

(** A free page is not part of the page table. *)
Lemma free_not_owner s l v : pt_ok s l pgdir → v ∈ l → ¬ owner (km_mem s) pgdir v.
Proof.
  intros P Hv [->|(i&Hi&Hp&<-)].
  - destruct (pt_dir _ _ _ _ P) as [_ Hn]. by apply Hn.
  - destruct (pt_tab _ _ _ _ P i Hi Hp) as (_&Hn&_). by apply Hn.
Qed.

(** ** One more page *)

(** The entry of a new user page. *)
Lemma new_entry_parts t : valid_page kend t →
  u32 (Z.lor (Z.lor (V2P t) (Z.lor PTE_W PTE_U)) PTE_P) = V2P t + 7 ∧
  present (V2P t + 7) = true ∧ user_ok (V2P t + 7) = true ∧ frame (V2P t + 7) = t.
Proof.
  intros Hv. destruct (valid_V2P kend t Hv) as [E HP]. change PHYSTOP with 234881024 in HP.
  assert (V2P t mod 4096 = 0) as Hm.
  { rewrite E. destruct Hv as (Hm&_). change KERNBASE with 2147483648. dlia. }
  rewrite <- !Z.lor_assoc. change (Z.lor PTE_W (Z.lor PTE_U PTE_P)) with 7. rewrite lor_flags by lia.
  rewrite u32_small by lia. split_and!; [done| | |].
  - rewrite present_odd. destruct (Z.eqb_spec ((V2P t + 7) mod 2) 0); [dlia|done].
  - unfold user_ok, PTE_U. rewrite <- (lor_flags (V2P t) 7) by lia. rewrite Z.land_lor_distr_l.
    change (Z.land 7 4) with 4. destruct (Z.eqb_spec (Z.lor (Z.land (V2P t) 4) 4) 0) as [Ez|]; [|done].
    apply Z.lor_eq_0_iff in Ez as [_ ?]. done.
  - unfold frame. destruct (entry_parts (V2P t) 7) as [-> _]; [done|lia..|]. by apply (P2V_V2P kend).
Qed.

(** The state after one turn of [allocuvm]'s loop. *)
Lemma alloc_turn s t l a : um_ok s (t :: l) → l ≠ [] → 0 ≤ a → a mod 4096 = 0 → a + 4096 ≤ 2 ^ 32 →
  present (entry (km_mem s) pgdir a) = false →
  ∃ s1 s2 s' l', kalloc s = Done t s1 ∧ store_page t zero_page s1 = Done tt s2 ∧
    mappages pgdir a PGSIZE (V2P t) (Z.lor PTE_W PTE_U) s2 = Done 0 s' ∧
    vm_frame pgdir s (t :: l) s' l' ∧ (length l ≤ S (length l'))%nat ∧ um_ok s' l' ∧
    km_mem s' !! t = Some zero_page ∧ t ∉ l' ∧
    (∀ va', 0 ≤ va' < 2 ^ 32 → entry (km_mem s') pgdir va' =
       if decide (va' / 4096 = a / 4096) then V2P t + 7 else entry (km_mem s) pgdir va').
Proof.
  intros U Hl H0 Hm Hlt Habs. pose proof (um_pt _ _ U) as P.
  destruct (free_head_valid kend s t l pgdir P) as (Hv&Hn&Hne).
  destruct (take_page s t l P) as (r&E&P1). set (s1 := set_km_freelist r s) in *.
  assert (¬ owner (km_mem s1) pgdir t) as Ho by (apply (free_not_owner s (t :: l)); [done|left]).
  pose proof (run_store_page kend s1 l t zero_page (pt_rep _ _ _ _ P1) Hv) as Es.
  set (s2 := upd_mem s1 t zero_page).
  assert (pt_ok s2 l pgdir) as P2 by (apply write_pt_ok; [done|done|done|apply length_zero_page]).
  assert (∀ va, entry (km_mem s2) pgdir va = entry (km_mem s) pgdir va) as He2 by (intros; by apply (write_entry s1)).
  assert (∀ v, owner (km_mem s2) pgdir v ↔ owner (km_mem s) pgdir v) as Ho2 by (intros; by apply (write_owner s1)).
  destruct (mappages_spec kend s2 l pgdir a PGSIZE (V2P t) (Z.lor PTE_W PTE_U) 0) as (s'&l'&Em&F&Hll&He);
    [done|destruct l; simpl; [done|lia]|done|done|change PGSIZE with 4096; lia|change PGSIZE with 4096; dlia| | |].
  { destruct (valid_V2P kend t Hv) as [_ HP]. change PHYSTOP with 234881024 in HP. lia. }
  { intros va' Hva'. change PGSIZE with 4096 in Hva'. rewrite He2. rewrite <- Habs. f_equal. apply entry_same_page; dlia. }
  change PGSIZE with 4096 in He. destruct (new_entry_parts t Hv) as (Ee&Ep&Eu&Ef).
  assert (∀ va', 0 ≤ va' < 2 ^ 32 → entry (km_mem s') pgdir va' =
       if decide (va' / 4096 = a / 4096) then V2P t + 7 else entry (km_mem s) pgdir va') as He'.
  { intros va' Hva'. rewrite He, He2 by done. unfold mapping. repeat case_decide; try (exfalso; dlia); [|done].
    rewrite <- Ee. do 3 f_equal. dlia. }
  assert (vm_frame pgdir s (t :: l) s' l') as F'.
  { destruct F as [O [u Eu'] Mm W K]. split; [done|exists (t :: u); by rewrite Eu'| | |].
    - intros v [Hvt Hvl]%not_elem_of_cons Hvo. rewrite Mm; [|done|by rewrite Ho2].
      unfold s2. by rewrite lookup_upd_ne.
    - intros v [Hv'|[Hv' Hv'']]%W; [left; by apply Ho2|right; split; [by right|done]].
    - intros v Hv'. apply K. by apply Ho2. }
  assert (∀ v, v ∈ l' → v ∈ l) as Hsub.
  { intros v Hv'. destruct (vf_used _ _ _ _ _ _ F) as [u ->]. apply elem_of_app. by right. }
  assert (t ∉ l') as Htl by (intros Hc%Hsub; done).
  exists s1, s2, s', l'. split_and!; try done; [|].
  - split; [apply (vf_ok _ _ _ _ _ _ F)|..].
    + intros va Hva. unfold accessible, user_page. rewrite He' by done. case_decide as E1.
      * rewrite Ef. intros _. split; [exact Hv|split; [exact Htl|]]. intros [Hc|[Hc _]]%(vf_owner _ _ _ _ _ _ F); [|done].
        by apply Ho, Ho2.
      * intros Ha. destruct (um_page _ _ U va Hva Ha) as (Hvp&[_ Hnl]%not_elem_of_cons&Hno).
        split; [exact Hvp|split; [intros Hc%Hsub; done|]].
        intros [Hc|[Hc _]]%(vf_owner _ _ _ _ _ _ F); [by apply Hno, Ho2|done].
    + intros va va' Hva Hva'. unfold accessible, user_page. rewrite !He' by done.
      assert (Hold : ∀ w, 0 ≤ w < 2 ^ 32 → accessible s w = true → user_page s w ≠ t).
      { intros w Hw Ha. destruct (um_page _ _ U w Hw Ha) as (_&[? _]%not_elem_of_cons&_). done. }
      repeat case_decide; rewrite ?Ef; try congruence.
      * intros _ Ha' E1. symmetry in E1. by apply Hold in E1.
      * intros Ha _ E1. by apply Hold in E1.
      * by apply (um_inj _ _ U).
  - rewrite (vf_mem _ _ _ _ _ _ F); [apply lookup_insert_eq|done|by rewrite Ho2].
Qed.
(** ** [allocuvm] *)

Lemma allocuvm_loop_spec oldsz newsz n : ∀ fuel s l a, um_ok s l → (2 * n ≤ length l)%nat → (n < fuel)%nat →
  0 ≤ a → a mod 4096 = 0 → a + 4096 * Z.of_nat n ≤ 2 ^ 31 →
  a + 4096 * Z.of_nat n - 4096 < newsz ≤ a + 4096 * Z.of_nat n →
  (∀ va, a ≤ va < a + 4096 * Z.of_nat n → present (entry (km_mem s) pgdir va) = false) →
  ∃ s' l', allocuvm_loop kend fuel pgdir a oldsz newsz s = Done newsz s' ∧
    vm_frame pgdir s l s' l' ∧ um_ok s' l' ∧
    (∀ va, 0 ≤ va < 2 ^ 32 →
       if decide (a ≤ va < a + 4096 * Z.of_nat n) then
         ∃ t, t ∈ l ∧ t ∉ l' ∧ entry (km_mem s') pgdir va = V2P t + 7 ∧ km_mem s' !! t = Some zero_page
       else entry (km_mem s') pgdir va = entry (km_mem s) pgdir va).
Proof.
  induction n as [|n IH]; intros [|fuel] s l a U Hl Hf H0 Hm Hlt Hn Habs; try lia; cbn [allocuvm_loop].
  - rewrite (proj2 (Z.ltb_ge a newsz)) by lia. exists s, l. split; [done|]. split; [by apply vm_frame_refl, U|]. split; [done|].
    intros va Hva. rewrite decide_False by lia. done.
  - rewrite (proj2 (Z.ltb_lt a newsz)) by lia. destruct l as [|t l]; [simpl in Hl; lia|]. simpl in Hl.
    destruct (alloc_turn s t l a U) as (s1&s2&s'&l'&E1&E2&E3&F&Hll&U'&Hz&Htl&He);
      [by destruct l; simpl in *; [lia|]|done|done|lia|apply Habs; lia|].
    unfold mbind at 1, M_bind at 1. rewrite E1. destruct (free_head_valid kend s t l pgdir (um_pt _ _ U)) as (Hv&Hn'&_).
    rewrite (proj2 (Z.eqb_neq t 0)) by by apply (valid_nonzero kend).
    unfold mbind at 1, M_bind at 1. rewrite E2. unfold mbind at 1, M_bind at 1. rewrite E3.
    change (0 <? 0) with false. cbv beta iota. change PGSIZE with 4096. rewrite u32_small by lia.
    destruct (IH fuel s' l' (a + 4096) U') as (s3&l3&E4&F3&U3&He3); [lia|lia|lia|dlia|lia|lia| |].
    { intros va Hva. rewrite He by lia. rewrite decide_False by dlia. apply Habs. lia. }
    exists s3, l3. split; [done|]. split; [by eapply vm_frame_trans|]. split; [done|].
    destruct (vf_used _ _ _ _ _ _ F3) as [u3 Eu3].
    assert (¬ owner (km_mem s') pgdir t) as Ho.
    { destruct (new_entry_parts t Hv) as (_&Ep&Eu&Ef). specialize (He a ltac:(lia)). rewrite decide_True in He by done.
      rewrite <- Ef, <- He. apply (um_page _ _ U'); [lia|]. unfold accessible. by rewrite He, Ep, Eu. }
    intros va Hva. specialize (He3 va Hva). specialize (He va Hva).
    destruct (decide (a + 4096 ≤ va < a + 4096 + 4096 * Z.of_nat n)) as [Hin|Hout].
    + rewrite decide_True by lia. destruct He3 as (t'&Ht'&Ht''&Ee&Em). exists t'.
      destruct (vf_used _ _ _ _ _ _ F) as [u Eu]. rewrite Eu. split_and!; [apply elem_of_app; by right|done|done|done].
    + rewrite He3, He. destruct (decide (va / 4096 = a / 4096)) as [Ea|Ea].
      * rewrite decide_True by dlia. exists t. split_and!; [left| |done|].
        -- intros Hc. apply Htl. rewrite Eu3. apply elem_of_app. by right.
        -- by rewrite (vf_mem _ _ _ _ _ _ F3).
      * rewrite decide_False by dlia. done.
Qed.

(** ** [copyout] *)

(** The byte at a user address. *)
Definition ubyte s (va : Z) : Z := (km_mem s !!! user_page s va) !!! Z.to_nat (va mod 4096).

Lemma user_page_same s va va' : 0 ≤ va < 2 ^ 32 → 0 ≤ va' < 2 ^ 32 → va / 4096 = va' / 4096 →
  accessible s va = accessible s va' ∧ user_page s va = user_page s va'.
Proof. intros H H' E. unfold accessible, user_page. by rewrite (entry_same_page _ _ va va'). Qed.

Lemma accessible_pde s va : accessible s va = true → present (pde_at (km_mem s) pgdir (PDX va)) = true.
Proof.
  unfold accessible, entry. destruct (present (pde_at (km_mem s) pgdir (PDX va))); [done|].
  by rewrite present_odd.
Qed.

Lemma run_uva2ka s l va : um_ok s l →
  uva2ka pgdir va s =
  if present (pde_at (km_mem s) pgdir (PDX va)) then Done (if accessible s va then user_page s va else 0) s else Undef.
Proof.
  intros U. pose proof (um_pt _ _ U) as P. unfold uva2ka. unfold mbind at 1, M_bind at 1. rewrite (walk_false kend s l) by done.
  destruct (present (pde_at (km_mem s) pgdir (PDX va))) eqn:Ep; [|done].
  rewrite (proj2 (Z.eqb_neq _ _)) by by apply (table_nonzero kend s l).
  unfold mbind at 1, M_bind at 1. rewrite (load_pte kend s l pgdir va P Ep). unfold accessible.
  destruct (present (entry (km_mem s) pgdir va)); [|done]. by destruct (user_ok (entry (km_mem s) pgdir va)).
Qed.

(** Writing bytes into the page of an accessible address. *)
Section poke.
Context s l va (src : list Z) (U : um_ok s l) (Hva : 0 ≤ va < 2 ^ 32) (Ha : accessible s va = true).
Context (Hsrc : va mod 4096 + Z.of_nat (length src) ≤ 4096).
Let v := user_page s va.
Let s' := upd_mem s v (splice (Z.to_nat (va mod 4096)) src (km_mem s !!! v)).

Lemma poke_page : valid_page kend v ∧ v ∉ l ∧ ¬ owner (km_mem s) pgdir v ∧ length (km_mem s !!! v) = 4096%nat.
Proof.
  destruct (um_page _ _ U va Hva Ha) as (Hv&Hn&Ho). fold v in Hv, Hn, Ho.
  destruct (valid_lookup kend s l v (pt_rep _ _ _ _ (um_pt _ _ U)) Hv) as [_ Hl]. done.
Qed.

Lemma poke_entry w : entry (km_mem s') pgdir w = entry (km_mem s) pgdir w.
Proof. destruct poke_page as (_&_&Ho&_). by apply write_entry. Qed.

Lemma poke_um : um_ok s' l.
Proof.
  destruct poke_page as (Hv&Hn&Ho&Hl). split.
  - apply write_pt_ok; [done|apply (um_pt _ _ U)|done|]. rewrite length_splice; [done|]. dlia.
  - intros w Hw. unfold accessible, user_page. rewrite poke_entry. intros Hw'.
    destruct (um_page _ _ U w Hw Hw') as (?&?&Ho'). split; [done|]. split; [done|].
    intros Hc. apply Ho'. by apply (write_owner s v (splice (Z.to_nat (va mod 4096)) src (km_mem s !!! v)) Ho).
  - intros w w'. unfold accessible, user_page. rewrite !poke_entry. by apply (um_inj _ _ U).
Qed.

Lemma poke_byte w : 0 ≤ w < 2 ^ 32 → accessible s w = true →
  ubyte s' w = if decide (va ≤ w < va + Z.of_nat (length src)) then src !!! Z.to_nat (w - va) else ubyte s w.
Proof.
  intros Hw Hw'. destruct poke_page as (Hv&Hn&Ho&Hl). unfold ubyte, user_page. rewrite poke_entry.
  fold (user_page s w). unfold s'. rewrite lookup_total_upd.
  destruct (decide (v = user_page s w)) as [E|E].
  - pose proof (um_inj _ _ U va w Hva Hw Ha Hw' E) as Eq. rewrite <- E.
    case_decide as Hin; apply list_total_eq.
    + rewrite lookup_splice_in by dlia. f_equal. dlia.
    + rewrite lookup_splice_out by dlia. done.
  - case_decide as Hin; [|done]. exfalso. apply E. apply (user_page_same s va w); [done|done|]. dlia.
Qed.
End poke.

Lemma copyout_loop_spec l fuel : ∀ s va buf len, um_ok s l → 0 ≤ va → 0 ≤ len ≤ Z.of_nat (length buf) →
  va + len ≤ 2 ^ 32 → va mod 4096 + len ≤ 4096 * (Z.of_nat fuel - 1) →
  (∀ w, va ≤ w < va + len → accessible s w = true) →
  ∃ s', copyout_loop fuel pgdir va buf len s = Done 0 s' ∧ um_ok s' l ∧
    (∀ w, entry (km_mem s') pgdir w = entry (km_mem s) pgdir w) ∧
    (∀ w, 0 ≤ w < 2 ^ 32 → accessible s w = true → ubyte s' w =
       if decide (va ≤ w < va + len) then buf !!! Z.to_nat (w - va) else ubyte s w).
Proof.
  induction fuel as [|fuel IH]; intros s va buf len U H0 Hlen Hlt Hf Hacc; [dlia|]. cbn [copyout_loop].
  destruct (Z.ltb_spec 0 len) as [Hpos|Hz].
  2: { exists s. split; [done|]. split; [done|]. split; [done|]. intros w _ _. by rewrite decide_False by lia. }
  pose proof (Hacc va ltac:(lia)) as Ha. rewrite PGROUNDDOWN_div by lia. change PGSIZE with 4096.
  assert (0 ≤ va / 4096 * 4096 < 2 ^ 32) as Hva0 by dlia.
  destruct (user_page_same s (va / 4096 * 4096) va) as [Ea Eu]; [done|lia|dlia|].
  unfold mbind at 1, M_bind at 1. rewrite (run_uva2ka s l) by done.
  rewrite accessible_pde by congruence. rewrite Ea, Ha, Eu.
  assert (va - va / 4096 * 4096 = va mod 4096) as -> by dlia. set (n := Z.min (4096 - va mod 4096) len).
  destruct (poke_page s l va U ltac:(lia) Ha) as (Hv&Hn&Ho&Hl).
  rewrite (proj2 (Z.eqb_neq _ _)) by by apply (valid_nonzero kend).
  destruct (valid_lookup kend s l _ (pt_rep _ _ _ _ (um_pt _ _ U)) Hv) as [El _].
  unfold mbind at 1, M_bind at 1, load_page. rewrite El.
  unfold mbind at 1, M_bind at 1. rewrite (run_store_page kend s l) by (done || apply (pt_rep _ _ _ _ (um_pt _ _ U))).
  assert (length (take (Z.to_nat n) buf) = Z.to_nat n) as Ht by (rewrite length_take; unfold n; lia).
  assert (va mod 4096 + Z.of_nat (length (take (Z.to_nat n) buf)) ≤ 4096) as Hsrc by (rewrite Ht; unfold n; dlia).
  pose proof (poke_um s l va (take (Z.to_nat n) buf) U ltac:(lia) Ha Hsrc) as U1.
  pose proof (poke_entry s l va (take (Z.to_nat n) buf) U ltac:(lia) Ha) as He1.
  pose proof (poke_byte s l va (take (Z.to_nat n) buf) U ltac:(lia) Ha Hsrc) as Hb1. rewrite Ht in Hb1.
  set (s1 := upd_mem s _ _) in *. assert (∀ w, accessible s1 w = accessible s w) as Ha1 by (intros w; unfold accessible; by rewrite He1).
  destruct (decide (len = n)) as [Eln|Hne].
  { destruct fuel as [|fuel]; [dlia|]. exists s1. cbn [copyout_loop]. rewrite (proj2 (Z.ltb_ge _ _)) by lia.
    split; [done|]. split; [done|]. split; [done|]. intros w Hw Hw'. rewrite Hb1 by done.
    rewrite Z2Nat.id by lia. rewrite <- Eln. case_decide; [|done]. apply list_total_eq. by rewrite lookup_take_lt by lia. }
  assert (n = 4096 - va mod 4096) as En by (unfold n in *; lia).
  rewrite u32_small by dlia.
  destruct (IH s1 (va / 4096 * 4096 + 4096) (drop (Z.to_nat n) buf) (len - n) U1) as (s'&E'&U'&He'&Hb');
    [dlia|rewrite length_drop; dlia|dlia|dlia| |].
  { intros w Hw. rewrite Ha1. apply Hacc. dlia. }
  exists s'. split; [done|]. split; [done|]. split; [intros w; by rewrite He'|].
  intros w Hw Hw'. rewrite Hb' by (done || by rewrite Ha1). rewrite Hb1 by done. rewrite Z2Nat.id by dlia.
  repeat case_decide; try (exfalso; dlia); try done; apply list_total_eq.
  - rewrite lookup_drop. f_equal. dlia.
  - by rewrite lookup_take_lt by dlia.
Qed.
End user.
Lemma PGROUNDUP_spec x : 0 ≤ x ≤ 2 ^ 31 →
  PGROUNDUP x mod 4096 = 0 ∧ x ≤ PGROUNDUP x < x + 4096.
Proof. intros Hx. rewrite PGROUNDUP_div by lia. dlia. Qed.

(** ** The properties *)

Section properties.
Context (kend pgdir : Z).
Implicit Types (s : kmem) (l : list Z).

(** [mappages] on a page directory, with enough free pages for page
    tables and no page of the range mapped: it returns 0, maps the pages of
    the range to consecutive physical pages with the given permissions, and
    changes no other mapping; what it writes to are free pages and pages of
    the page table. *)
Theorem mappages_correct s l va size pa perm :
  pt_ok kend s l pgdir → 0 ≤ va → 1 ≤ size → va + size ≤ 2 ^ 32 →
  (va + size - 1) / 4096 - va / 4096 < Z.of_nat (length l) →
  0 ≤ pa < 2 ^ 32 - 4096 * ((va + size - 1) / 4096 - va / 4096) →
  (∀ va', va / 4096 ≤ va' / 4096 ≤ (va + size - 1) / 4096 → present (entry (km_mem s) pgdir va') = false) →
  ∃ s' l', mappages pgdir va size pa perm s = Done 0 s' ∧ pt_ok kend s' l' pgdir ∧ (∃ used, l = used ++ l') ∧
    (∀ va', 0 ≤ va' < 2 ^ 32 → entry (km_mem s') pgdir va' =
       if decide (va / 4096 ≤ va' / 4096 ≤ (va + size - 1) / 4096)
       then u32 (Z.lor (Z.lor (pa + (va' / 4096 - va / 4096) * 4096) perm) PTE_P)
       else entry (km_mem s) pgdir va') ∧
    (∀ v, v ∉ l → ¬ owner (km_mem s) pgdir v → km_mem s' !! v = km_mem s !! v).
Proof.
  intros P H0 H1 Hlt Hl Hpa Habs.
  destruct (mappages_spec kend s l pgdir va size pa perm (Z.to_nat ((va + size - 1) / 4096 - va / 4096)))
    as (s'&l'&E&F&_&He); try done; try dlia.
  exists s', l'. split_and!; [done|apply F|apply F| |apply F].
  intros va' Hva'. rewrite He by done. case_decide; [|done]. unfold mapping. do 4 f_equal. lia.
Qed.

(** C28: [allocuvm] with enough free pages and the new range not mapped: it
    returns the new size; every page of the new range has a zeroed page of
    memory of its own, taken from the free list and accessible to the user;
    the rest of the address space and the contents of its memory are as they
    were. *)
Theorem allocuvm_correct s l oldsz newsz :
  um_ok kend pgdir s l → 0 ≤ oldsz ≤ newsz → newsz < KERNBASE →
  let n := (newsz - PGROUNDUP oldsz + 4095) / 4096 in
  2 * n ≤ Z.of_nat (length l) →
  (∀ va, PGROUNDUP oldsz ≤ va < PGROUNDUP oldsz + 4096 * n → present (entry (km_mem s) pgdir va) = false) →
  ∃ s' l', allocuvm kend pgdir oldsz newsz s = Done newsz s' ∧ um_ok kend pgdir s' l' ∧
    (∀ va, PGROUNDUP oldsz ≤ va < newsz → accessible pgdir s' va = true ∧
       user_page pgdir s' va ∈ l ∧ user_page pgdir s' va ∉ l' ∧
       km_mem s' !! user_page pgdir s' va = Some zero_page) ∧
    (∀ va, 0 ≤ va < 2 ^ 32 → ¬ PGROUNDUP oldsz ≤ va < PGROUNDUP oldsz + 4096 * n →
       entry (km_mem s') pgdir va = entry (km_mem s) pgdir va ∧
       (accessible pgdir s va = true →
          km_mem s' !! user_page pgdir s va = km_mem s !! user_page pgdir s va)).
Proof.
  intros U Ho Hn n Hl Habs. change KERNBASE with 2147483648 in Hn.
  destruct (PGROUNDUP_spec oldsz ltac:(lia)) as [Hm Hr]. unfold allocuvm. change KERNBASE with 2147483648.
  rewrite (proj2 (Z.leb_gt _ _)), (proj2 (Z.ltb_ge _ _)) by lia.
  assert (0 ≤ n) as Hn0 by (unfold n; dlia).
  destruct (allocuvm_loop_spec kend pgdir oldsz newsz (Z.to_nat n)
    (S (Z.to_nat (newsz / PGSIZE) + 1)) s l (PGROUNDUP oldsz) U) as (s'&l'&E&F&U'&He);
    [lia|change PGSIZE with 4096; unfold n in *; dlia|lia|done|unfold n in *; dlia| | |].
  { destruct (decide (n = 0)) as [En|]; unfold n in *; [|dlia]. dlia. }
  { intros va Hva. apply Habs. lia. }
  rewrite Z2Nat.id in He by done. exists s', l'. split; [done|]. split; [done|]. split.
  - intros va Hva. specialize (He va ltac:(lia)). rewrite decide_True in He by (unfold n; dlia).
    destruct He as (t&Ht&Ht'&Ee&Ez). destruct (new_entry_parts kend t) as (_&Ep&Eu&Ef).
    { apply (kr_valid _ _ _ (pt_rep _ _ _ _ (um_pt _ _ _ _ U))). done. }
    unfold accessible, user_page. rewrite Ee, Ep, Eu, Ef. done.
  - intros va Hva Hout. specialize (He va Hva). rewrite decide_False in He by done. split; [done|].
    intros Ha. destruct (um_page _ _ _ _ U va Hva Ha) as (_&Hnl&Hno). by apply (vf_mem _ _ _ _ _ _ F).
Qed.

(** [copyout] to an address for which there is no page table does not
    fail but goes through the null pointer [walkpgdir] returns to [uva2ka]. *)
Theorem copyout_no_table s l va src len :
  um_ok kend pgdir s l → 0 ≤ va < 2 ^ 32 → 0 < len →
  present (pde_at (km_mem s) pgdir (PDX va)) = false → copyout pgdir va src len s = Undef.
Proof.
  intros U Hva Hl Hp. unfold copyout. rewrite Nat.add_succ_r. cbn [copyout_loop].
  rewrite (proj2 (Z.ltb_lt _ _)) by done. unfold mbind at 1, M_bind at 1.
  rewrite (run_uva2ka kend pgdir s l) by done. rewrite PGROUNDDOWN_div by done.
  replace (PDX (va / 4096 * 4096)) with (PDX va) by (rewrite !PDX_div by dlia; change (2 ^ 22) with 4194304; dlia).
  by rewrite Hp.
Qed.
End properties.

(** ** An empty address space *)

(** A zeroed page is an empty page directory. *)
Lemma empty_dir kend pgdir s l : kmem_rep kend s l → valid_page kend pgdir → pgdir ∉ l →
  km_mem s !! pgdir = Some zero_page →
  um_ok kend pgdir s l ∧ (∀ va, entry (km_mem s) pgdir va = 0) ∧ ∀ i, present (pde_at (km_mem s) pgdir i) = false.
Proof.
  intros K Hv Hn Hz.
  assert (∀ i, present (pde_at (km_mem s) pgdir i) = false) as Hp.
  { intros i. unfold pde_at. by rewrite (lookup_total_correct _ _ _ Hz), get32_zero_page. }
  assert (∀ va, entry (km_mem s) pgdir va = 0) as He by (intros va; unfold entry; by rewrite Hp).
  split; [|done]. split.
  - split; [done|done|intros i _; by rewrite Hp|intros i j _ _; by rewrite Hp].
  - intros va _. unfold accessible. by rewrite He.
  - intros va va' _ _. unfold accessible. by rewrite He.
Qed.

Module Demo.
Definition pgdir : Z := Kalloc.Demo.kend + 12288.
Definition free_pages : list Z := [Kalloc.Demo.kend + 8192; Kalloc.Demo.kend + 4096; Kalloc.Demo.kend + 0].

(** A directory in the first page the allocator gives out. *)
Lemma vm_started : ∃ s, um_ok Kalloc.Demo.kend pgdir s free_pages ∧ (∀ va, entry (km_mem s) pgdir va = 0) ∧
  ∀ i, present (pde_at (km_mem s) pgdir i) = false.
Proof.
  destruct Kalloc.Demo.kalloc_started as (s&_&K). change (reverse Kalloc.Demo.all_pages) with (pgdir :: free_pages) in K.
  destruct (kalloc_cons Kalloc.Demo.kend s pgdir free_pages K) as (r&_&K').
  assert (valid_page Kalloc.Demo.kend pgdir) as Hv by (apply (kr_valid _ _ _ K); left).
  assert (pgdir ∉ free_pages) as Hn by (pose proof (kr_nodup _ _ _ K) as [? _]%NoDup_cons; done).
  exists (upd_mem (set_km_freelist r s) pgdir zero_page). apply empty_dir; [|done|done|apply lookup_insert_eq].
  apply kmem_rep_upd; [done|done|apply length_zero_page].
Qed.
End Demo.

Lemma mappages_correct_witness : ∃ s s', mappages Demo.pgdir 0 4096 0 PTE_W s = Done 0 s'.
Proof.
  destruct Demo.vm_started as (s&U&He&Hp).
  destruct (mappages_correct Kalloc.Demo.kend Demo.pgdir s Demo.free_pages 0 4096 0 PTE_W (um_pt _ _ _ _ U)) as (s'&l'&E&_).
  - lia.
  - lia.
  - lia.
  - reflexivity.
  - change ((0 + 4096 - 1) / 4096 - 0 / 4096) with 0. lia.
  - intros va' _. rewrite He. reflexivity.
  - exists s, s'. exact E.
Defined.

Lemma allocuvm_correct_witness : ∃ s s', allocuvm Kalloc.Demo.kend Demo.pgdir 0 100 s = Done 100 s'.
Proof.
  destruct Demo.vm_started as (s&U&He&Hp).
  destruct (allocuvm_correct Kalloc.Demo.kend Demo.pgdir s Demo.free_pages 0 100 U) as (s'&l'&E&_).
  - lia.
  - reflexivity.
  - apply Z.leb_le. reflexivity.
  - intros va _. rewrite He. reflexivity.
  - exists s, s'. exact E.
Defined.

(** With one page of user memory. *)
Lemma demo_process : ∃ s l, um_ok Kalloc.Demo.kend Demo.pgdir s l ∧ ∀ w, 0 ≤ w < 4096 → accessible Demo.pgdir s w = true.
Proof.
  destruct Demo.vm_started as (s&U&He&Hp).
  destruct (free_head_valid _ _ _ _ _ (um_pt _ _ _ _ U)) as (Hv&_).
  destruct (alloc_turn Kalloc.Demo.kend Demo.pgdir s _ _ 0 U) as (s1&s2&s'&l'&_&_&_&_&_&U'&_&_&He');
    [done|lia|done|lia|by rewrite He|].
  exists s', l'. split; [exact U'|]. intros w Hw. unfold accessible. rewrite He' by lia. rewrite decide_True by dlia.
  destruct (new_entry_parts _ _ Hv) as (_&Ep&Eu&_). by rewrite Ep, Eu.
Qed.


Lemma copyout_no_table_witness : ∃ s, copyout Demo.pgdir 4194304 [1] 1 s = Undef.
Proof.
  destruct Demo.vm_started as (s&U&He&Hp). exists s.
  apply (copyout_no_table Kalloc.Demo.kend Demo.pgdir s Demo.free_pages 4194304 [1] 1 U); [lia|lia|apply Hp].
Defined.
