(* ===== verification/KernelMap.v ===== *)
(** * The kernel's part of an address space (setupkvm of vm.c)

    What every page directory of the kernel maps, and what it takes to make one. *)

From S2P Require Import Prelude Params Mmu Kalloc Vm VmSpec VmUser.

Section kvm.
Context (kend data : Z).
Context (Hdata : data mod 4096 = 0 ∧ KERNLINK < data < KERNBASE + PHYSTOP).
Implicit Types (s : kmem) (l : list Z).

(** The entry for [va]: the low memory and the kernel's data can be written, its
    text cannot, devices are where they are, and there is nothing else. *)
Definition kernel_entry (va : Z) : Z :=
  let pg := va / 4096 * 4096 in
  if decide (KERNBASE ≤ va < KERNLINK) then pg - KERNBASE + (PTE_W + PTE_P)
  else if decide (KERNLINK ≤ va < data) then pg - KERNBASE + PTE_P
  else if decide (data ≤ va < KERNBASE + PHYSTOP) then pg - KERNBASE + (PTE_W + PTE_P)
  else if decide (DEVSPACE ≤ va) then pg + (PTE_W + PTE_P)
  else 0.

(** The indices of the directory that the kernel uses. *)
Definition kernel_pdes : list Z := seqZ 512 56 ++ seqZ 1016 8.

Lemma kernel_pdes_ok : NoDup kernel_pdes ∧ ∀ i, i ∈ kernel_pdes → 0 ≤ i < 1024.
Proof.
  split.
  - apply NoDup_app. split; [apply NoDup_seqZ|split; [|apply NoDup_seqZ]]. intros i H1%elem_of_seqZ H2%elem_of_seqZ. lia.
  - intros i [H%elem_of_seqZ|H%elem_of_seqZ]%elem_of_app; lia.
Qed.

Lemma PDX_kernel va : 0 ≤ va < 2 ^ 32 → KERNBASE ≤ va < KERNBASE + PHYSTOP ∨ DEVSPACE ≤ va → PDX va ∈ kernel_pdes.
Proof.
  intros Hr Hk. rewrite PDX_div by done. change (2 ^ 22) with 4194304. change KERNBASE with 2147483648 in Hk. change PHYSTOP with 234881024 in Hk.
  change DEVSPACE with 4261412864 in Hk. apply elem_of_app. rewrite !elem_of_seqZ. destruct Hk; [left|right]; dlia.
Qed.

(** One entry of the table [kmaps]. *)
Lemma setupkvm_region pgdir s l k ks lo hi :
  pt_ok kend s l pgdir → (lacking s pgdir kernel_pdes ≤ length l)%nat →
  k_virt k = lo → lo mod 4096 = 0 → hi mod 4096 = 0 → 0 ≤ lo < hi → hi ≤ 2 ^ 32 → u32 (k_phys_end k - k_phys_start k) = hi - lo →
  0 ≤ k_phys_start k → k_phys_start k mod 4096 = 0 → k_phys_start k + (hi - lo) ≤ 2 ^ 32 → k_perm k = 0 ∨ k_perm k = PTE_W →
  (∀ va, lo ≤ va < hi → PDX va ∈ kernel_pdes) →
  (∀ va, lo ≤ va < hi → entry (km_mem s) pgdir va = 0) →
  ∃ s' l', setupkvm_loop kend (k :: ks) pgdir s = setupkvm_loop kend ks pgdir s' ∧
    vm_frame kend pgdir s l s' l' ∧ (lacking s' pgdir kernel_pdes ≤ length l')%nat ∧
    (∀ va, 0 ≤ va < 2 ^ 32 → entry (km_mem s') pgdir va =
       if decide (lo ≤ va < hi) then k_phys_start k + (va / 4096 * 4096 - lo) + (k_perm k + PTE_P) else entry (km_mem s) pgdir va).
Proof.
  intros P Hl Ev Hlo Hhi Hr Hh Es Hp0 Hpm Hp Hperm HT Habs. destruct kernel_pdes_ok as [Hnd Hrng].
  destruct (mappages_tight kend s l pgdir lo (hi - lo) (k_phys_start k) (k_perm k) kernel_pdes (Z.to_nat ((hi - lo) / 4096 - 1)) Hnd Hrng P Hl)
    as (s'&l'&E&F&Hc&He); [lia|lia|lia|dlia|dlia| | |].
  - intros va' Hva'. apply HT. dlia.
  - intros va' Hva'. rewrite Habs by dlia. done.
  - exists s', l'. split; [|split; [done|split; [lia|]]].
    + cbn [setupkvm_loop]. unfold mbind, M_bind. rewrite Ev, Es, E. done.
    + intros va Hva. rewrite He by done. unfold mapping.
      repeat case_decide; try (exfalso; dlia); [|done]. rewrite <- Z.lor_assoc.
      assert (Ef : Z.lor (k_perm k) PTE_P = k_perm k + PTE_P) by (destruct Hperm as [->| ->]; done). rewrite Ef.
      replace (lo / 4096 * 4096) with lo by dlia. assert (0 ≤ k_perm k + PTE_P ≤ 3) by (unfold PTE_W, PTE_P in *; lia).
      rewrite lor_flags by dlia. rewrite u32_small by dlia. done.
Qed.

Lemma setupkvm_loop_ok pgdir s l : pt_ok kend s l pgdir → (lacking s pgdir kernel_pdes ≤ length l)%nat →
  (∀ va, entry (km_mem s) pgdir va = 0) →
  ∃ s' l', setupkvm_loop kend (kmaps data) pgdir s = Done pgdir s' ∧ vm_frame kend pgdir s l s' l' ∧
    ∀ va, 0 ≤ va < 2 ^ 32 → entry (km_mem s') pgdir va = kernel_entry va.
Proof.
  intros P Hl Hz. destruct Hdata as [Hdm Hdr]. unfold kmaps.
  assert (EK : KERNBASE = 2147483648) by done. assert (EL : KERNLINK = 2148532224) by done. assert (EP : PHYSTOP = 234881024) by done.
  assert (EX : EXTMEM = 1048576) by done. assert (ED : DEVSPACE = 4261412864) by done.
  assert (EV : V2P data = data - KERNBASE) by (unfold V2P; apply u32_small; lia).
  assert (EVL : V2P KERNLINK = EXTMEM) by done.
  destruct (setupkvm_region pgdir s l (mkkmap KERNBASE 0 EXTMEM PTE_W)
    [mkkmap KERNLINK (V2P KERNLINK) (V2P data) 0; mkkmap data (V2P data) PHYSTOP PTE_W; mkkmap DEVSPACE DEVSPACE 0 PTE_W]
    KERNBASE KERNLINK) as (s1&l1&E1&F1&K1&M1); cbn [k_virt k_phys_start k_phys_end k_perm]; try done; try lia; [intros; apply PDX_kernel; lia|].
  destruct (setupkvm_region pgdir s1 l1 (mkkmap KERNLINK (V2P KERNLINK) (V2P data) 0)
    [mkkmap data (V2P data) PHYSTOP PTE_W; mkkmap DEVSPACE DEVSPACE 0 PTE_W]
    KERNLINK data) as (s2&l2&E2&F2&K2&M2); cbn [k_virt k_phys_start k_phys_end k_perm]; try done; try lia;
    [apply F1|rewrite EV, EVL; rewrite u32_small by lia; lia|intros; apply PDX_kernel; lia|
     intros va Hva; rewrite M1, Hz by lia; by rewrite decide_False by lia|].
  destruct (setupkvm_region pgdir s2 l2 (mkkmap data (V2P data) PHYSTOP PTE_W) [mkkmap DEVSPACE DEVSPACE 0 PTE_W]
    data (KERNBASE + PHYSTOP)) as (s3&l3&E3&F3&K3&M3); cbn [k_virt k_phys_start k_phys_end k_perm]; try done; try lia;
    [apply F2|rewrite EV; rewrite u32_small by lia; lia|rewrite EV, EK; dlia|intros; apply PDX_kernel; lia|
     intros va Hva; rewrite M2, M1, Hz by lia; by rewrite !decide_False by lia|].
  destruct (setupkvm_region pgdir s3 l3 (mkkmap DEVSPACE DEVSPACE 0 PTE_W) []
    DEVSPACE (2 ^ 32)) as (s4&l4&E4&F4&K4&M4); cbn [k_virt k_phys_start k_phys_end k_perm]; try done; try lia;
    [apply F3|intros; apply PDX_kernel; lia|intros va Hva; rewrite M3, M2, M1, Hz by lia; by rewrite !decide_False by lia|].
  exists s4, l4. split; [by rewrite E1, E2, E3, E4|]. split; [repeat (eapply vm_frame_trans; [eassumption|]); by apply vm_frame_refl, F4|].
  intros va Hva. rewrite M4, M3, M2, M1, Hz by done. unfold kernel_entry. cbn [k_virt k_phys_start k_phys_end k_perm]. rewrite EVL, EV.
  repeat case_decide; try lia.
Qed.

Lemma kernel_entry_no_user va : 0 ≤ va < 2 ^ 32 → user_ok (kernel_entry va) = false.
Proof.
  intros Hva. unfold user_ok, PTE_U. apply negb_false_iff, Z.eqb_eq. change 4 with (2 ^ 2).
  assert (Hb : ∀ x, (x / 2 ^ 2) mod 2 = 0 → Z.land x (2 ^ 2) = 0).
  { intros x Hx. apply Z.bits_inj'. intros i Hi. rewrite Z.land_spec, Z.bits_0, Z.pow2_bits_eqb by lia.
    destruct (Z.eqb_spec 2 i) as [<-|]; [|apply andb_false_r]. rewrite andb_true_r. apply not_true_iff_false. rewrite Z.testbit_true by lia. lia. }
  apply Hb. change (2 ^ 2) with 4.
  unfold kernel_entry. change KERNBASE with 2147483648. change KERNLINK with 2148532224. change DEVSPACE with 4261412864. change (PTE_W + PTE_P) with 3. change PTE_P with 1.
  repeat case_decide; dlia.
Qed.

(** C27: [setupkvm] with 65 free pages makes a page directory: low memory, kernel
    text, kernel data up to PHYSTOP and the devices are mapped as they should be,
    the text without the right to write; nothing else is mapped and no page can be
    reached from user space; memory outside of the free pages stays as it is. *)
Theorem setupkvm_correct s l : kmem_rep kend s l → 65 ≤ Z.of_nat (length l) →
  ∃ pgdir s' l', setupkvm kend data s = Done pgdir s' ∧ pgdir ∈ l ∧ (∃ used, l = used ++ l') ∧ um_ok kend pgdir s' l' ∧
    (∀ va, 0 ≤ va < 2 ^ 32 → entry (km_mem s') pgdir va = kernel_entry va ∧ accessible pgdir s' va = false) ∧
    (∀ v, v ∉ l → km_mem s' !! v = km_mem s !! v).
Proof.
  intros K Hl. destruct l as [|pgdir l]; [simpl in Hl; lia|]. destruct (kalloc_cons kend s pgdir l K) as (r&E&K').
  assert (Hv : valid_page kend pgdir) by (apply (kr_valid _ _ _ K); left).
  assert (Hn : pgdir ∉ l) by (pose proof (kr_nodup _ _ _ K) as [? _]%NoDup_cons; done).
  set (s1 := upd_mem (set_km_freelist r s) pgdir zero_page).
  destruct (empty_dir kend pgdir s1 l) as (U&Hz&Hp); [apply kmem_rep_upd; [done|done|apply length_zero_page]|done|done|apply lookup_insert_eq|].
  destruct (setupkvm_loop_ok pgdir s1 l (um_pt _ _ _ _ U)) as (s'&l'&E'&F&He); [|done|].
  { unfold lacking. etransitivity; [apply length_filter|]. change (length kernel_pdes) with 64%nat. simpl in Hl. lia. }
  assert (Hacc : ∀ va, 0 ≤ va < 2 ^ 32 → accessible pgdir s' va = false).
  { intros va Hva. unfold accessible. rewrite He by done. rewrite kernel_entry_no_user by done. apply andb_false_r. }
  exists pgdir, s', l'. split_and!.
  - unfold setupkvm, mbind, M_bind. rewrite E. rewrite (proj2 (Z.eqb_neq pgdir 0)) by by apply (valid_nonzero kend).
    rewrite (run_store_page kend (set_km_freelist r s) l pgdir zero_page K' Hv). exact E'.
  - left.
  - destruct (vf_used _ _ _ _ _ _ F) as [used ->]. by exists (pgdir :: used).
  - split; [apply F|intros va Hva; by rewrite Hacc|intros va va' Hva _; by rewrite Hacc].
  - intros va Hva. split; [by apply He|by apply Hacc].
  - intros v [Hvp Hvl]%not_elem_of_cons. rewrite (vf_mem _ _ _ _ _ _ F); [unfold s1; by rewrite lookup_upd_ne|done|].
    intros [?|(i&Hi&Hpi&_)]; [done|]. by rewrite Hp in Hpi.
Qed.
End kvm.

(** ** A machine with 70 pages above the kernel *)
Module KDemo.
Definition kend : Z := KERNBASE + PHYSTOP - 286720.
Definition all_pages : list Z := pages_from kend 70.
Definition boot : kmem := mkkmem (list_to_map ((λ v, (v, zero_page)) <$> all_pages)) false false 0.
Definition data : Z := KERNLINK + 32768.

Lemma valid_pages v : valid_page kend v ↔ v ∈ all_pages.
Proof.
  unfold valid_page, all_pages, pages_from. rewrite list_elem_of_fmap. unfold kend.
  change KERNBASE with 2147483648. change PHYSTOP with 234881024. split.
  - intros (Hm&Hv). exists (Z.to_nat ((v - 2382077952) / 4096)). rewrite elem_of_seq. dlia.
  - intros (k&->&Hk%elem_of_seq). dlia.
Qed.

Lemma boot_kmem : kmem_rep kend boot [].
Proof.
  split; [done|constructor|by intros v ?%elem_of_nil| |done].
  intros v Hv%valid_pages. exists zero_page. split; [|apply length_zero_page]. unfold boot. cbn [km_mem].
  apply elem_of_list_to_map_1; [|apply list_elem_of_fmap; eauto].
  apply (bool_decide_eq_true_1 _). by vm_compute.
Qed.

Lemma all_free : ∃ s, kmem_rep kend s (reverse all_pages).
Proof.
  destruct (freerange_loop_spec kend 70 71 boot [] kend (KERNBASE + PHYSTOP) boot_kmem) as (s&E&K&_); [lia|done|done| |].
  - intros v Hv%valid_pages. split; [done|apply not_elem_of_nil].
  - exists s. by rewrite app_nil_r in K.
Qed.

Lemma setupkvm_correct_witness : ∃ s pgdir s', kmem_rep kend s (reverse all_pages) ∧ setupkvm kend data s = Done pgdir s' ∧
  entry (km_mem s') pgdir (KERNLINK + 5000) = EXTMEM + 4096 + PTE_P.
Proof.
  destruct all_free as (s&K).
  destruct (setupkvm_correct kend data ltac:(split; [reflexivity|done]) s (reverse all_pages) K) as (pgdir&s'&l'&E&_&_&_&He&_).
  - discriminate.
  - exists s, pgdir, s'. split; [exact K|]. split; [exact E|]. apply He. split; done.
Defined.
End KDemo.
