(* ===== verification/Pipe.v ===== *)
(** * Pipes (pipe.c)

    A call of [pipewrite] or [piperead] runs with the pipe's lock held from
    [acquire] to the [release] before it returns or to the [sleep] that gives
    the lock up; such a run is atomic for the other processes.  A call that
    slept goes on with another run.  [pipealloc] is in the model of file.c. *)

From stdpp Require Import functions.
From S2P Require Import Prelude.

Definition PIPESIZE : Z := 512.

Record pipe := mkpipe {
  p_lock : bool;
  p_data : list Z;
  p_nread : Z;
  p_nwrite : Z;
  p_readopen : bool;
  p_writeopen : bool;
  p_woken : list chan          (** the channels given to [wakeup], last first *)
}.

Definition set_p_lock (v : bool) (p : pipe) : pipe :=
  mkpipe v (p_data p) (p_nread p) (p_nwrite p) (p_readopen p) (p_writeopen p) (p_woken p).
Definition put_byte (c : Z) (p : pipe) : pipe :=
  mkpipe (p_lock p) (<[Z.to_nat (p_nwrite p mod PIPESIZE):=c]> (p_data p)) (p_nread p) (u32 (p_nwrite p + 1))
    (p_readopen p) (p_writeopen p) (p_woken p).
Definition drop_byte (p : pipe) : pipe :=
  mkpipe (p_lock p) (p_data p) (u32 (p_nread p + 1)) (p_nwrite p) (p_readopen p) (p_writeopen p) (p_woken p).
Definition set_open (r w : bool) (p : pipe) : pipe :=
  mkpipe (p_lock p) (p_data p) (p_nread p) (p_nwrite p) r w (p_woken p).
Definition wake (c : chan) (p : pipe) : pipe :=
  mkpipe (p_lock p) (p_data p) (p_nread p) (p_nwrite p) (p_readopen p) (p_writeopen p) (c :: p_woken p).

Definition acquire_pipe : M pipe unit := acquire p_lock set_p_lock.
Definition release_pipe : M pipe unit := release p_lock set_p_lock.
(** [&p->nread] and [&p->nwrite]. *)
Definition chan_read : chan := ChanPipeRead 0.
Definition chan_write : chan := ChanPipeWrite 0.
Definition wakeup (c : chan) : M pipe unit := modify (wake c).

(** What [pipealloc] sets up in a new page with contents [d]. *)
Definition new_pipe (d : list Z) : pipe := mkpipe false d 0 0 true true [].

(** [pipeclose]: whether the pipe's page was given to [kfree]. *)
Definition pipeclose (writable : bool) : M pipe bool :=
  acquire_pipe;;
  (if writable then modify (λ p, set_open (p_readopen p) false p);; wakeup chan_read
   else modify (λ p, set_open false (p_writeopen p) p);; wakeup chan_write);;
  p ← gets id;
  release_pipe;;
  mret (negb (p_readopen p) && negb (p_writeopen p)).

(** How a run ends: the call returns, or it sleeps with [i] bytes written. *)
Inductive wrun := WRet (r : Z) | WSleep (i : nat).

Definition full (p : pipe) : bool := p_nwrite p =? u32 (p_nread p + PIPESIZE).

(** The loop of [pipewrite] from index [i], with [k] bytes left. *)
Fixpoint pipewrite_loop (k : nat) (killed : bool) (addr : list Z) (i : nat) : M pipe wrun :=
  match k with
  | O => wakeup chan_read;; release_pipe;; mret (WRet (Z.of_nat i))
  | S k' =>
      p ← gets id;
      if full p then
        if negb (p_readopen p) || killed then release_pipe;; mret (WRet (-1))
        else wakeup chan_read;; release_pipe;; mret (WSleep i)
      else
        modify (put_byte (addr !!! i));;
        pipewrite_loop k' killed addr (S i)
  end.
(** [pipewrite(p, addr, n)]: the run that starts the call ([i = 0]), or one
    after [sleep] returned with the lock held again. *)
Definition pipewrite (killed : bool) (addr : list Z) (n : Z) (i : nat) : M pipe wrun :=
  acquire_pipe;;
  pipewrite_loop (Z.to_nat n - i) killed addr i.

Inductive rrun := RRet (r : Z) (bytes : list Z) | RSleep.

Definition empty (p : pipe) : bool := p_nread p =? p_nwrite p.

(** The copy loop of [piperead]. *)
Fixpoint piperead_loop (k : nat) : M pipe (list Z) :=
  match k with
  | O => mret []
  | S k' =>
      p ← gets id;
      if empty p then mret []
      else
        let c := p_data p !!! Z.to_nat (p_nread p mod PIPESIZE) in
        modify drop_byte;;
        l ← piperead_loop k';
        mret (c :: l)
  end.
Definition piperead (killed : bool) (n : Z) : M pipe rrun :=
  acquire_pipe;;
  p ← gets id;
  if empty p && p_writeopen p then
    if killed then release_pipe;; mret (RRet (-1) [])
    else release_pipe;; mret RSleep
  else
    l ← piperead_loop (Z.to_nat n);
    wakeup chan_write;;
    release_pipe;;
    mret (RRet (Z.of_nat (length l)) l).

(** ** A pipe as a queue of bytes *)

Record pipe_rep (p : pipe) (q : list Z) : Prop := {
  pr_lock : p_lock p = false;
  pr_data : length (p_data p) = 512%nat;
  pr_len : (length q ≤ 512)%nat;
  pr_read : 0 ≤ p_nread p < 2 ^ 32;
  pr_write : p_nwrite p = u32 (p_nread p + Z.of_nat (length q));
  pr_bytes k : (k < length q)%nat → p_data p !! Z.to_nat ((p_nread p + Z.of_nat k) mod 512) = q !! k
}.

(** The same with the lock held. *)
Definition held_rep (p : pipe) (q : list Z) : Prop := p_lock p = true ∧ pipe_rep (set_p_lock false p) q.

Lemma u32_mod512 x : u32 x mod 512 = x mod 512.
Proof. unfold u32. apply Z.mod_mod_divide. by exists (2 ^ 23). Qed.

Lemma held_full p q : held_rep p q → full p = (length q =? 512)%nat.
Proof.
  intros [_ [_ _ Hl Hr Hw _]]. simpl in *. unfold full, PIPESIZE. rewrite Hw.
  destruct (Nat.eqb_spec (length q) 512) as [->|Hne]; [by apply Z.eqb_eq|]. apply Z.eqb_neq. unfold u32. intros E. dlia.
Qed.

Lemma held_empty p q : held_rep p q → empty p = (length q =? 0)%nat.
Proof.
  intros [_ [_ _ Hl Hr Hw _]]. simpl in *. unfold empty. rewrite Hw.
  destruct (Nat.eqb_spec (length q) 0) as [->|Hne].
  - rewrite Z.add_0_r, u32_small by lia. by apply Z.eqb_eq.
  - apply Z.eqb_neq. unfold u32. intros E. dlia.
Qed.

Lemma held_put p q c : held_rep p q → (length q < 512)%nat → held_rep (put_byte c p) (q ++ [c]).
Proof.
  intros [Hk [_ Hd Hl Hr Hw Hb]] Hlt. simpl in *. split; [done|].
  split; simpl; [done|by rewrite length_insert|rewrite length_app; simpl; lia|done| |].
  - rewrite Hw, length_app. simpl. unfold u32. rewrite Z.add_mod_idemp_l by lia. f_equal. lia.
  - intros k Hk'. rewrite length_app in Hk'. simpl in Hk'. unfold PIPESIZE. rewrite Hw, u32_mod512.
    destruct (decide (k = length q)) as [->|Hne].
    + rewrite list_lookup_insert_eq by (rewrite Hd; dlia). by rewrite lookup_app_r, Nat.sub_diag by lia.
    + rewrite list_lookup_insert_ne by dlia. rewrite lookup_app_l by lia. apply Hb. lia.
Qed.

Lemma held_drop p c q : held_rep p (c :: q) →
  held_rep (drop_byte p) q ∧ p_data p !!! Z.to_nat (p_nread p mod PIPESIZE) = c.
Proof.
  intros [Hk [_ Hd Hl Hr Hw Hb]]. simpl in *. split.
  - split; [done|]. split; simpl; [done|done|lia|apply u32_range| |].
    + rewrite Hw. unfold u32. rewrite Z.add_mod_idemp_l by lia. f_equal. lia.
    + intros k Hk'. specialize (Hb (S k) ltac:(lia)). simpl in Hb. rewrite <- Hb. f_equal. f_equal.
      rewrite <- (Z.add_mod_idemp_l (u32 _)) by lia. rewrite u32_mod512, Z.add_mod_idemp_l by lia. f_equal. lia.
  - apply list_lookup_total_correct. specialize (Hb 0%nat ltac:(lia)). rewrite Z.add_0_r in Hb. exact Hb.
Qed.

Lemma held_wake p q c : held_rep p q → held_rep (wake c p) q.
Proof. intros [Hk [H1 H2 H3 H4 H5 H6]]. split; [done|]. by split. Qed.

(** ** Single runs *)

Lemma run_release_pipe p q : held_rep p q → release_pipe p = Done tt (set_p_lock false p) ∧ pipe_rep (set_p_lock false p) q.
Proof. intros [Hk R]. unfold release_pipe, release. by rewrite Hk. Qed.

Lemma run_acquire_pipe p q : pipe_rep p q → acquire_pipe p = Done tt (set_p_lock true p) ∧ held_rep (set_p_lock true p) q.
Proof.
  intros R. unfold acquire_pipe, acquire. rewrite (pr_lock _ _ R). split; [done|]. split; [done|].
  destruct R. by split.
Qed.

(** How many of [k] bytes fit. *)
Definition fits (k : nat) (q : list Z) : nat := (k `min` (512 - length q))%nat.

(** The end of a run of [pipewrite] that wanted to write [k] bytes from index
    [i] to a pipe with contents [q], and what it has woken. *)
Definition write_end (k : nat) (killed : bool) (i : nat) (p : pipe) (q : list Z) : wrun * list chan :=
  if (k <=? 512 - length q)%nat then (WRet (Z.of_nat (i + k)), chan_read :: p_woken p)
  else if negb (p_readopen p) || killed then (WRet (-1), p_woken p)
  else (WSleep (i + fits k q), chan_read :: p_woken p).

Lemma pipewrite_loop_spec killed addr k : ∀ i p q, held_rep p q → (i + k ≤ length addr)%nat →
  ∃ p', pipewrite_loop k killed addr i p = Done (write_end k killed i p q).1 p' ∧
    p_woken p' = (write_end k killed i p q).2 ∧ pipe_rep p' (q ++ slice i (fits k q) addr) ∧
    p_readopen p' = p_readopen p ∧ p_writeopen p' = p_writeopen p ∧ p_nread p' = p_nread p.
Proof.
  induction k as [|k IH]; intros i p q R Hi; cbn [pipewrite_loop].
  - exists (set_p_lock false (wake chan_read p)).
    destruct (run_release_pipe (wake chan_read p) q (held_wake p q _ R)) as [E R'].
    unfold wakeup, modify, mbind, M_bind. rewrite E. unfold write_end, fits, slice. simpl.
    rewrite Nat.add_0_r, app_nil_r. done.
  - pose proof (pr_len _ _ (proj2 R)) as Hl. unfold mbind at 1, M_bind at 1, gets, id. rewrite (held_full p q R).
    unfold write_end, fits. destruct (Nat.eqb_spec (length q) 512) as [E512|Hne].
    + rewrite E512, Nat.sub_diag. cbn [Nat.leb Nat.min]. unfold slice at 1. rewrite take_0, app_nil_r, Nat.add_0_r.
      destruct (negb (p_readopen p) || killed).
      * destruct (run_release_pipe p q R) as [E R']. unfold mbind, M_bind. rewrite E. by exists (set_p_lock false p).
      * destruct (run_release_pipe (wake chan_read p) q (held_wake p q _ R)) as [E R'].
        unfold wakeup, modify, mbind, M_bind. rewrite E. by exists (set_p_lock false (wake chan_read p)).
    + unfold modify. unfold mbind at 1, M_bind at 1.
      destruct (IH (S i) (put_byte (addr !!! i) p) (q ++ [addr !!! i])) as (p'&E&Ew&R'&Hr&Hwo&Hnr); [apply held_put; [done|lia]|lia|].
      exists p'. rewrite E. unfold write_end in *. rewrite length_app in *. simpl in *.
      replace (512 - (length q + 1))%nat with (511 - length q)%nat in * by lia.
      replace (512 - length q)%nat with (S (511 - length q)) in * by lia. cbn [Nat.leb Nat.min] in *.
      unfold fits in R', Ew, E. rewrite length_app in R', Ew, E. simpl in R', Ew, E.
      replace (512 - (length q + 1))%nat with (511 - length q)%nat in * by lia. unfold fits. rewrite length_app. simpl.
      replace (512 - (length q + 1))%nat with (511 - length q)%nat by lia.
      rewrite !Nat.add_succ_r. split_and!; [done|done| |done|done|done].
      rewrite <- app_assoc in R'. simpl in R'.
      assert (addr !!! i :: slice (S i) (k `min` (511 - length q)) addr = slice i (S (k `min` (511 - length q))) addr) as <-; [|done].
      unfold slice. rewrite (drop_S addr (addr !!! i) i) by (apply list_lookup_lookup_total_lt; lia). done.
Qed.

Lemma pipewrite_spec killed addr n i p q : pipe_rep p q → 0 ≤ n ≤ Z.of_nat (length addr) → (i ≤ Z.to_nat n)%nat →
  let k := (Z.to_nat n - i)%nat in
  ∃ p', pipewrite killed addr n i p = Done (write_end k killed i p q).1 p' ∧
    p_woken p' = (write_end k killed i p q).2 ∧ pipe_rep p' (q ++ slice i (fits k q) addr) ∧
    p_readopen p' = p_readopen p ∧ p_writeopen p' = p_writeopen p ∧ p_nread p' = p_nread p.
Proof.
  intros R Hn Hi k. destruct (run_acquire_pipe p q R) as [E R1]. unfold pipewrite, mbind, M_bind. rewrite E.
  destruct (pipewrite_loop_spec killed addr k i (set_p_lock true p) q R1) as (p'&E'&H); [lia|].
  exists p'. split; [exact E'|exact H].
Qed.

Lemma piperead_loop_spec k : ∀ p q, held_rep p q →
  ∃ p', piperead_loop k p = Done (take k q) p' ∧ held_rep p' (drop k q) ∧
    p_woken p' = p_woken p ∧ p_readopen p' = p_readopen p ∧ p_writeopen p' = p_writeopen p.
Proof.
  induction k as [|k IH]; intros p q R; cbn [piperead_loop]; [by exists p|].
  unfold mbind at 1, M_bind at 1, gets, id. rewrite (held_empty p q R).
  destruct q as [|c q]; cbn [length Nat.eqb]; [by exists p|].
  destruct (held_drop p c q R) as [R1 Ec]. rewrite Ec. unfold modify. unfold mbind at 1, M_bind at 1.
  destruct (IH (drop_byte p) q R1) as (p'&E&H). exists p'. unfold mbind, M_bind. rewrite E. done.
Qed.

(** The end of a run of [piperead] for [n] bytes. *)
Definition read_end (killed : bool) (n : Z) (p : pipe) (q : list Z) : rrun * list chan :=
  if (length q =? 0)%nat && p_writeopen p then (if killed then RRet (-1) [] else RSleep, p_woken p)
  else (RRet (Z.of_nat (length (take (Z.to_nat n) q))) (take (Z.to_nat n) q), chan_write :: p_woken p).

Lemma piperead_spec killed n p q : pipe_rep p q →
  ∃ p', piperead killed n p = Done (read_end killed n p q).1 p' ∧
    p_woken p' = (read_end killed n p q).2 ∧ pipe_rep p' (drop (Z.to_nat n) q) ∧
    p_readopen p' = p_readopen p ∧ p_writeopen p' = p_writeopen p.
Proof.
  intros R. destruct (run_acquire_pipe p q R) as [E R1]. unfold piperead. unfold mbind at 1, M_bind at 1. rewrite E.
  unfold mbind at 1, M_bind at 1, gets, id. rewrite (held_empty _ q R1). cbn [p_writeopen set_p_lock].
  unfold read_end. destruct ((length q =? 0)%nat && p_writeopen p) eqn:Eb.
  - apply andb_prop in Eb as [Eq%Nat.eqb_eq _]. apply length_zero_iff_nil in Eq as ->. rewrite drop_nil.
    destruct (run_release_pipe _ [] R1) as [E' R']. exists (set_p_lock false (set_p_lock true p)).
    destruct killed; unfold mbind, M_bind; by rewrite E'.
  - destruct (piperead_loop_spec (Z.to_nat n) _ q R1) as (p1&El&R2&Hw&Hr&Hwo).
    unfold mbind at 1, M_bind at 1. rewrite El. unfold wakeup, modify. unfold mbind at 1, M_bind at 1.
    destruct (run_release_pipe _ _ (held_wake p1 _ chan_write R2)) as [E' R'].
    unfold mbind, M_bind. rewrite E'. eexists. split; [done|]. simpl. rewrite Hw, Hr, Hwo. done.
Qed.

Lemma pipeclose_spec (writable : bool) p q : pipe_rep p q →
  let p1 := if writable then wake chan_read (set_open (p_readopen p) false p)
            else wake chan_write (set_open false (p_writeopen p) p) in
  pipeclose writable p = Done (negb (p_readopen p1) && negb (p_writeopen p1)) p1 ∧ pipe_rep p1 q.
Proof.
  intros [Hk H1 H2 H3 H4 H5]. destruct p as [lk d r w ro wo wk]. simpl in *. subst lk.
  destruct writable; split; try done; by split.
Qed.

(** ** Interleavings of readers and writers *)

(** What a process is doing with the pipe: nothing, or a write of [addr] with
    [i] bytes done, or a read of [n] bytes, asleep or made runnable again. *)
Inductive status :=
  | Idle
  | WAsleep (addr : list Z) (i : nat)
  | WReady (addr : list Z) (i : nat)
  | RAsleep (n : Z)
  | RReady (n : Z).

Record psys := mkpsys {
  ps_pipe : pipe;
  ps_stat : nat → status;
  ps_in : list Z;              (** all bytes written so far *)
  ps_out : list Z              (** all bytes read so far *)
}.

(** [wakeup] of the channels in [cs]. *)
Definition wake_status (cs : list chan) (st : status) : status :=
  match st with
  | WAsleep addr i => if decide (chan_write ∈ cs) then WReady addr i else st
  | RAsleep n => if decide (chan_read ∈ cs) then RReady n else st
  | _ => st
  end.
Definition wake_all (cs : list chan) (f : nat → status) : nat → status := λ pid, wake_status cs (f pid).

Definition forget (p : pipe) : pipe :=
  mkpipe (p_lock p) (p_data p) (p_nread p) (p_nwrite p) (p_readopen p) (p_writeopen p) [].

(** The number of bytes a run has added. *)
Definition added (p p' : pipe) : nat := Z.to_nat (u32 (p_nwrite p' - p_nwrite p)).

Definition writing (st : status) (addr : list Z) (i : nat) : Prop := (st = Idle ∧ i = O) ∨ st = WReady addr i.
Definition reading (st : status) (n : Z) : Prop := (st = Idle ∧ 0 ≤ n) ∨ st = RReady n.

(** The end of the pipe a process uses. *)
Definition uses (writable : bool) (st : status) : bool :=
  match st with
  | Idle => false
  | WAsleep _ _ | WReady _ _ => writable
  | RAsleep _ | RReady _ => negb writable
  end.

(** [kills] says whether processes may be killed; [kd] is [myproc()->killed].
    A process reads or writes through an open descriptor, and an end is closed
    with its last descriptor, when no process is using it. *)
Inductive step (kills : bool) : psys → psys → Prop :=
  | step_write kd pid p p' f addr i res bi bo :
      (kd = true → kills = true) → writing (f pid) addr i → p_writeopen p = true →
      pipewrite kd addr (Z.of_nat (length addr)) i p = Done res p' →
      step kills (mkpsys p f bi bo)
        (mkpsys (forget p')
           (<[pid:=match res with WRet _ => Idle | WSleep j => WAsleep addr j end]> (wake_all (p_woken p') f))
           (bi ++ slice i (added p p') addr) bo)
  | step_read kd pid p p' f n res bi bo :
      (kd = true → kills = true) → reading (f pid) n → p_readopen p = true →
      piperead kd n p = Done res p' →
      step kills (mkpsys p f bi bo)
        (mkpsys (forget p')
           (<[pid:=match res with RRet _ _ => Idle | RSleep => RAsleep n end]> (wake_all (p_woken p') f))
           bi (bo ++ match res with RRet _ l => l | RSleep => [] end))
  | step_close writable p p' b f bi bo :
      (∀ pid, uses writable (f pid) = false) →
      pipeclose writable p = Done b p' →
      step kills (mkpsys p f bi bo) (mkpsys (forget p') (wake_all (p_woken p') f) bi bo)
  | step_kill pid p f bi bo :                  (** [kill] makes the process runnable *)
      kills = true →
      step kills (mkpsys p f bi bo)
        (mkpsys p (<[pid:=wake_status [chan_read; chan_write] (f pid)]> f) bi bo).

Definition pstart (d : list Z) : psys := mkpsys (new_pipe d) (λ _, Idle) [] [].

(** No process sleeps although it could go on. *)
Definition no_lost (p : pipe) (q : list Z) (f : nat → status) : Prop :=
  ∀ pid, match f pid with
         | WAsleep _ _ => length q = 512%nat ∧ p_readopen p = true
         | RAsleep _ => q = [] ∧ p_writeopen p = true
         | _ => True
         end.

Record pinv (kills : bool) (s : psys) (q : list Z) : Prop := {
  pi_rep : pipe_rep (ps_pipe s) q;
  pi_woken : p_woken (ps_pipe s) = [];
  pi_fifo : ps_in s = ps_out s ++ q;
  pi_stat pid : match ps_stat s pid with
                | WAsleep addr i | WReady addr i => (i ≤ length addr)%nat
                | RAsleep n | RReady n => 0 ≤ n
                | Idle => True
                end;
  pi_open pid : (uses false (ps_stat s pid) = true → p_readopen (ps_pipe s) = true) ∧
                (uses true (ps_stat s pid) = true → p_writeopen (ps_pipe s) = true);
  pi_wake : kills = false → no_lost (ps_pipe s) q (ps_stat s)
}.

Lemma forget_rep p q : pipe_rep p q → pipe_rep (forget p) q.
Proof. intros [H1 H2 H3 H4 H5 H6]. by split. Qed.

Lemma wake_status_ok cs st :
  match st with WAsleep addr i | WReady addr i => (i ≤ length addr)%nat | RAsleep n | RReady n => 0 ≤ n | Idle => True end →
  match wake_status cs st with WAsleep addr i | WReady addr i => (i ≤ length addr)%nat | RAsleep n | RReady n => 0 ≤ n | Idle => True end.
Proof. destruct st; simpl; try case_decide; done. Qed.

(** A sleeper that is still asleep after a wakeup was not waiting for it. *)
Lemma wake_status_asleep cs st :
  match wake_status cs st with
  | WAsleep addr i => st = WAsleep addr i ∧ chan_write ∉ cs
  | RAsleep n => st = RAsleep n ∧ chan_read ∉ cs
  | _ => True
  end.
Proof. destruct st; simpl; try case_decide; done. Qed.

Lemma uses_wake b cs st : uses b (wake_status cs st) = uses b st.
Proof. destruct st; simpl; try case_decide; done. Qed.

Lemma added_fits p p' q q' : pipe_rep p q → pipe_rep p' (q ++ q') → p_nread p' = p_nread p → added p p' = length q'.
Proof.
  intros R R' E. unfold added. rewrite (pr_write _ _ R'), (pr_write _ _ R), E, length_app.
  pose proof (pr_len _ _ R') as Hl. rewrite length_app in Hl. unfold u32.
  rewrite <- Zminus_mod. replace (_ - _) with (Z.of_nat (length q')) by lia. rewrite Z.mod_small by lia. lia.
Qed.

Section preserve.
Context (kills : bool) (p : pipe) (f : nat → status) (bi bo q : list Z).
Context (I : pinv kills (mkpsys p f bi bo) q).

Lemma pinv_write kd pid p' addr i res : (kd = true → kills = true) → writing (f pid) addr i → p_writeopen p = true →
  pipewrite kd addr (Z.of_nat (length addr)) i p = Done res p' →
  ∃ q', pinv kills (mkpsys (forget p')
    (<[pid:=match res with WRet _ => Idle | WSleep j => WAsleep addr j end]> (wake_all (p_woken p') f))
    (bi ++ slice i (added p p') addr) bo) q'.
Proof.
  intros Hkd Hw Hopen E. pose proof (pi_rep _ _ _ I) as R. cbn in R.
  assert (i ≤ length addr)%nat as Hi.
  { destruct Hw as [[_ ->]|Hw]; [lia|]. pose proof (pi_stat _ _ _ I pid) as Hs. cbn in Hs. by rewrite Hw in Hs. }
  destruct (pipewrite_spec kd addr (Z.of_nat (length addr)) i p q R) as (p1&E1&Ew&R1&Hr&Hwo&Hnr); [lia|lia|].
  rewrite E in E1. injection E1 as Er <-. rewrite Nat2Z.id in *. set (k := (length addr - i)%nat) in *.
  assert (length (slice i (fits k q) addr) = fits k q) as Hls by (apply length_slice; unfold fits; lia).
  assert (added p p' = fits k q) as Ea by (rewrite (added_fits p p' q _ R R1 Hnr); done). rewrite Ea.
  exists (q ++ slice i (fits k q) addr). split; cbn [ps_pipe ps_stat ps_in ps_out].
  - by apply forget_rep.
  - done.
  - pose proof (pi_fifo _ _ _ I) as Hf. cbn in Hf. by rewrite Hf, app_assoc.
  - intros pid'. destruct (decide (pid' = pid)) as [->|Hne].
    + rewrite fn_lookup_insert. rewrite Er. unfold write_end. destruct (k <=? _)%nat; [done|].
      destruct (negb _ || _); [done|]. cbn. unfold fits, k. lia.
    + rewrite fn_lookup_insert_ne by done. apply wake_status_ok, (pi_stat _ _ _ I).
  - intros pid'. cbn [p_readopen p_writeopen forget]. rewrite Hr, Hwo. destruct (decide (pid' = pid)) as [->|Hne].
    + rewrite fn_lookup_insert. by destruct res.
    + rewrite fn_lookup_insert_ne by done. unfold wake_all. rewrite !uses_wake. apply (pi_open _ _ _ I).
  - intros Hk pid'. destruct kd; [specialize (Hkd eq_refl); congruence|].
    pose proof (pi_wake _ _ _ I Hk) as NL. cbn in NL. cbn [p_readopen p_writeopen forget]. rewrite Hr, Hwo.
    destruct (decide (pid' = pid)) as [->|Hne].
    + rewrite fn_lookup_insert. rewrite Er. unfold write_end. destruct (Nat.leb_spec k (512 - length q)); [done|].
      rewrite orb_false_r. destruct (p_readopen p) eqn:Ero; [|done]. cbn. split; [|done].
      rewrite length_app, Hls. unfold fits. pose proof (pr_len _ _ R). lia.
    + rewrite fn_lookup_insert_ne by done. unfold wake_all. pose proof (wake_status_asleep (p_woken p') (f pid')) as Ha.
      specialize (NL pid'). pose proof (pr_len _ _ R1) as Hl1. rewrite length_app, Hls in *.
      pose proof (pi_open _ _ _ I pid') as [Hop _]. cbn in Hop.
      destruct (wake_status _ _); [done| |done| |done]; destruct Ha as [Ef Hn]; rewrite Ef in NL, Hop.
      * destruct NL as [Hl Hro]. split; [lia|done].
      * exfalso. apply Hn. rewrite Ew. unfold write_end. destruct (k <=? _)%nat; [left|].
        rewrite (Hop eq_refl). left.
Qed.

Lemma pinv_read kd pid p' n res : (kd = true → kills = true) → reading (f pid) n → p_readopen p = true →
  piperead kd n p = Done res p' →
  ∃ q', pinv kills (mkpsys (forget p')
    (<[pid:=match res with RRet _ _ => Idle | RSleep => RAsleep n end]> (wake_all (p_woken p') f))
    bi (bo ++ match res with RRet _ l => l | RSleep => [] end)) q'.
Proof.
  intros Hkd Hw Hopen E. pose proof (pi_rep _ _ _ I) as R. cbn in R.
  assert (0 ≤ n) as Hn.
  { destruct Hw as [[_ ?]|Hw]; [done|]. pose proof (pi_stat _ _ _ I pid) as Hs. cbn in Hs. by rewrite Hw in Hs. }
  destruct (piperead_spec kd n p q R) as (p1&E1&Ew&R1&Hr&Hwo).
  rewrite E in E1. injection E1 as Er <-.
  exists (drop (Z.to_nat n) q). split; cbn [ps_pipe ps_stat ps_in ps_out].
  - by apply forget_rep.
  - done.
  - pose proof (pi_fifo _ _ _ I) as Hf. cbn in Hf. rewrite Hf, Er. unfold read_end.
    destruct ((length q =? 0)%nat && p_writeopen p) eqn:Eb; cbn [fst].
    + apply andb_prop in Eb as [Eq%Nat.eqb_eq _]. apply length_zero_iff_nil in Eq as ->. rewrite drop_nil.
      by destruct kd; rewrite !app_nil_r.
    + by rewrite <- app_assoc, take_drop.
  - intros pid'. destruct (decide (pid' = pid)) as [->|Hne].
    + rewrite fn_lookup_insert. by destruct res.
    + rewrite fn_lookup_insert_ne by done. apply wake_status_ok, (pi_stat _ _ _ I).
  - intros pid'. cbn [p_readopen p_writeopen forget]. rewrite Hr, Hwo. destruct (decide (pid' = pid)) as [->|Hne].
    + rewrite fn_lookup_insert. by destruct res.
    + rewrite fn_lookup_insert_ne by done. unfold wake_all. rewrite !uses_wake. apply (pi_open _ _ _ I).
  - intros Hk pid'. pose proof (pi_wake _ _ _ I Hk) as NL. cbn in NL. cbn [p_readopen p_writeopen forget]. rewrite Hr, Hwo.
    pose proof (pi_woken _ _ _ I) as Ewk. cbn in Ewk. unfold read_end in *. rewrite Ewk in Ew.
    destruct ((length q =? 0)%nat && p_writeopen p) eqn:Eb; cbn [fst snd] in *.
    + apply andb_prop in Eb as [Eq%Nat.eqb_eq Eo]. apply length_zero_iff_nil in Eq as ->. rewrite drop_nil.
      destruct (decide (pid' = pid)) as [->|Hne]; [rewrite fn_lookup_insert, Er; by destruct kd|].
      rewrite fn_lookup_insert_ne by done. unfold wake_all. pose proof (wake_status_asleep (p_woken p') (f pid')) as Ha.
      specialize (NL pid'). destruct (wake_status _ _); [done| |done| |done]; destruct Ha as [Ef _]; by rewrite Ef in NL.
    + destruct (decide (pid' = pid)) as [->|Hne]; [rewrite fn_lookup_insert; by rewrite Er|].
      rewrite fn_lookup_insert_ne by done. unfold wake_all. pose proof (wake_status_asleep (p_woken p') (f pid')) as Ha.
      specialize (NL pid'). rewrite Ew in *.
      destruct (wake_status _ _); [done| |done| |done]; destruct Ha as [Ef Hnw]; rewrite Ef in NL.
      * exfalso. apply Hnw. left.
      * destruct NL as [-> Hx]. rewrite Hx in Eb. discriminate Eb.
Qed.

Lemma pinv_close writable p' b : (∀ pid, uses writable (f pid) = false) → pipeclose writable p = Done b p' →
  ∃ q', pinv kills (mkpsys (forget p') (wake_all (p_woken p') f) bi bo) q'.
Proof.
  intros Hu E. pose proof (pi_rep _ _ _ I) as R. cbn in R. destruct (pipeclose_spec writable p q R) as [E1 R1].
  rewrite E in E1. injection E1 as _ ->. exists q. split; cbn [ps_pipe ps_stat ps_in ps_out].
  - by apply forget_rep.
  - done.
  - apply (pi_fifo _ _ _ I).
  - intros pid'. apply wake_status_ok, (pi_stat _ _ _ I).
  - intros pid'. unfold wake_all. rewrite !uses_wake. pose proof (pi_open _ _ _ I pid') as Ho. cbn in Ho.
    specialize (Hu pid'). destruct writable; cbn; split; intros Hx; congruence || by apply Ho.
  - intros Hk pid'. pose proof (pi_wake _ _ _ I Hk pid') as NL. cbn in NL. unfold wake_all.
    match goal with |- context [wake_status ?cs _] => pose proof (wake_status_asleep cs (f pid')) as Ha end.
    destruct (wake_status _ _); [done| |done| |done]; destruct Ha as [Ef Hnw]; rewrite Ef in NL; destruct writable; cbn in *;
      done || (exfalso; apply Hnw; left).
Qed.

Lemma pinv_kill pid : kills = true →
  ∃ q', pinv kills (mkpsys p (<[pid:=wake_status [chan_read; chan_write] (f pid)]> f) bi bo) q'.
Proof.
  intros Hk. exists q. split; cbn [ps_pipe ps_stat ps_in ps_out]; try apply I; [| |congruence].
  - intros pid'. destruct (decide (pid' = pid)) as [->|Hne]; [|rewrite fn_lookup_insert_ne by done; apply (pi_stat _ _ _ I)].
    rewrite fn_lookup_insert. apply wake_status_ok, (pi_stat _ _ _ I).
  - intros pid'. destruct (decide (pid' = pid)) as [->|Hne]; [|rewrite fn_lookup_insert_ne by done; apply (pi_open _ _ _ I)].
    rewrite fn_lookup_insert, !uses_wake. apply (pi_open _ _ _ I).
Qed.
End preserve.

Lemma step_pinv kills s s' q : step kills s s' → pinv kills s q → ∃ q', pinv kills s' q'.
Proof.
  intros Hs I. destruct Hs; [by eapply pinv_write|by eapply pinv_read|by eapply pinv_close|by eapply pinv_kill].
Qed.

Lemma reachable_pinv kills d s : length d = 512%nat → rtc (step kills) (pstart d) s → ∃ q, pinv kills s q.
Proof.
  intros Hd Hr. assert (∃ q, pinv kills (pstart d) q) as H0.
  { exists []. split; cbn; try done. split; cbn; try done; simpl; lia. }
  induction Hr as [|x y z Hxy _ IH]; [done|]. apply IH. destruct H0 as [q I]. by eapply step_pinv.
Qed.

(** ** The properties *)

(** C15: a pipe is a bounded first-in first-out queue.  In every interleaving
    of readers and writers, closed ends and killed processes, the bytes read
    so far are the first of the bytes written so far, in order, and the rest,
    at most 512 bytes, is what the pipe holds. *)
Theorem pipe_fifo kills d s : length d = 512%nat → rtc (step kills) (pstart d) s →
  ∃ q, pipe_rep (ps_pipe s) q ∧ ps_in s = ps_out s ++ q ∧ (length q ≤ 512)%nat.
Proof.
  intros Hd Hr. destruct (reachable_pinv kills d s Hd Hr) as [q I]. exists q.
  split_and!; [apply I|apply I|apply (pi_rep _ _ _ I)].
Qed.

(** C16: no wakeup is lost while no process is killed.  In every reachable
    state a writer is asleep only if the pipe is full and its reading end is
    open, and a reader only if the pipe is empty and its writing end is open. *)
Theorem pipe_no_lost_wakeup d s : length d = 512%nat → rtc (step false) (pstart d) s →
  ∀ pid, match ps_stat s pid with
         | WAsleep _ _ => full (ps_pipe s) = true ∧ p_readopen (ps_pipe s) = true
         | RAsleep _ => empty (ps_pipe s) = true ∧ p_writeopen (ps_pipe s) = true
         | _ => True
         end.
Proof.
  intros Hd Hr pid. destruct (reachable_pinv false d s Hd Hr) as [q I].
  pose proof (pi_wake _ _ _ I eq_refl pid) as NL.
  destruct (run_acquire_pipe _ _ (pi_rep _ _ _ I)) as [_ H].
  pose proof (held_full _ _ H) as Ef. pose proof (held_empty _ _ H) as Ee.
  change (full (set_p_lock true (ps_pipe s))) with (full (ps_pipe s)) in Ef.
  change (empty (set_p_lock true (ps_pipe s))) with (empty (ps_pipe s)) in Ee.
  destruct (ps_stat s pid); try done; destruct NL as [Hq ?]; rewrite ?Ef, ?Ee, Hq; done.
Qed.

(** A writer of three bytes and a reader: a reader sleeps, the writer wakes it. *)
Definition demo_data : list Z := replicate 512 0.
Definition demo_asleep : psys := mkpsys (new_pipe demo_data) (<[1%nat:=RAsleep 2]> (wake_all [] (λ _, Idle))) [] ([] ++ []).

Lemma demo_reader_sleeps kills : rtc (step kills) (pstart demo_data) demo_asleep.
Proof.
  apply rtc_once. apply (step_read kills false 1 (new_pipe demo_data) (new_pipe demo_data) (λ _, Idle) 2 RSleep); try done.
  left. split; [done|lia].
Qed.

Lemma pipe_fifo_witness : ∃ q, pipe_rep (ps_pipe demo_asleep) q ∧ ps_in demo_asleep = ps_out demo_asleep ++ q.
Proof.
  destruct (pipe_fifo false demo_data demo_asleep) as (q&R&E&_).
  - reflexivity.
  - apply demo_reader_sleeps.
  - exists q. split; [exact R|exact E].
Defined.

Lemma pipe_no_lost_wakeup_witness : ps_stat demo_asleep 1%nat = RAsleep 2 ∧ empty (ps_pipe demo_asleep) = true.
Proof.
  split; [reflexivity|].
  pose proof (pipe_no_lost_wakeup demo_data demo_asleep eq_refl (demo_reader_sleeps false) 1%nat) as H.
  exact (proj1 H).
Defined.

(** a killed writer that fills the pipe returns without waking the
    reader: with kills, a reader can be asleep on a pipe that holds 512
    bytes. *)
Theorem pipe_killed_writer_strands_reader :
  ∃ s, rtc (step true) (pstart demo_data) s ∧ ps_stat s 1%nat = RAsleep 2 ∧ full (ps_pipe s) = true ∧
    p_writeopen (ps_pipe s) = true.
Proof.
  set (addr := replicate 513 7). assert (length addr = 513%nat) as Hl by apply length_replicate.
  assert (pipe_rep (new_pipe demo_data) []) as R0 by (split; cbn; try done; simpl; lia).
  destruct (pipewrite_spec true addr (Z.of_nat (length addr)) 0 (new_pipe demo_data) [] R0) as (p'&E&Ew&R&_&Hwo&_); [lia|lia|].
  rewrite Nat2Z.id, Nat.sub_0_r, Hl in E, Ew, R. change (fits 513 []) with 512%nat in R. rewrite app_nil_l in R. change (fits 513 []) with 512%nat in R.
  change (write_end 513 true 0 (new_pipe demo_data) []) with (WRet (-1), @nil chan) in E, Ew.
  rewrite <- Hl in E. clearbody addr.
  exists (mkpsys (forget p') (<[2%nat:=Idle]> (wake_all (p_woken p') (ps_stat demo_asleep)))
    ([] ++ slice 0 (added (new_pipe demo_data) p') addr) []).
  split; [eapply rtc_r; [apply demo_reader_sleeps|]|].
  - refine (step_write true true 2 (new_pipe demo_data) p' _ addr 0 (WRet (-1)) [] [] _ _ _ E); [done|by left|done].
  - cbn [ps_stat ps_pipe]. split_and!.
    + rewrite fn_lookup_insert_ne by done. unfold wake_all at 1. rewrite Ew. reflexivity.
    + destruct (run_acquire_pipe p' _ R) as [_ H]. pose proof (held_full _ _ H) as Ef.
      rewrite (length_slice 0 512 addr) in Ef by lia. exact Ef.
    + exact Hwo.
Qed.
