(* ===== verification/Block.v ===== *)
(** * The block layer's contract

    What bio.c promises to log.c and fs.c, as an abstract machine over disk
    contents ([bstate]) and a type class of operations that refine it.  The
    clients of the buffer cache are verified against this file only; [Bio]
    discharges it. *)

From S2P Require Import Prelude Params.

(** ** The abstract block store *)

Record bstate := mkbst {
  a_size : Z;                        (** blocks on the disk *)
  a_disk : gmap Z block;             (** what is on the disk *)
  a_view : gmap Z block;             (** what a reader of the cache sees *)
  a_dirty : gset Z;                  (** blocks pinned with B_DIRTY *)
  a_held : gmap nat Z;               (** locked buffers and their blocks *)
  a_writes : list (Z * block)        (** disk writes so far, oldest first *)
}.

Definition a_hold (i : nat) (b : Z) (a : bstate) : bstate :=
  mkbst (a_size a) (a_disk a) (a_view a) (a_dirty a) (<[i:=b]> (a_held a)) (a_writes a).
Definition a_drop (i : nat) (a : bstate) : bstate :=
  mkbst (a_size a) (a_disk a) (a_view a) (a_dirty a) (delete i (a_held a)) (a_writes a).
Definition a_modify (b : Z) (d : block) (a : bstate) : bstate :=
  mkbst (a_size a) (a_disk a) (<[b:=d]> (a_view a)) (a_dirty a) (a_held a) (a_writes a).
Definition a_pin (b : Z) (a : bstate) : bstate :=
  mkbst (a_size a) (a_disk a) (a_view a) ({[b]} ∪ a_dirty a) (a_held a) (a_writes a).
Definition a_write (b : Z) (d : block) (a : bstate) : bstate :=
  mkbst (a_size a) (<[b:=d]> (a_disk a)) (a_view a) (a_dirty a ∖ {[b]}) (a_held a)
        (a_writes a ++ [(b, d)]).

(** The blocks of the locked buffers. *)
Definition held_blocks (a : bstate) : gset Z := map_img (a_held a).

(** There is a buffer for block [b]: the cache recycles neither pinned nor
    referenced buffers. *)
Definition has_room (b : Z) (a : bstate) : Prop :=
  (size ({[b]} ∪ a_dirty a ∪ held_blocks a) ≤ NBUF)%nat.

(** The store right after power-on. *)
Definition boot_state (n : Z) (d : gmap Z block) : bstate := mkbst n d d ∅ ∅ [].

(** ** The interface *)

Class BlockOps (S : Type) := {
  op_bread : Z → Z → M S nat;           (** bread(dev, blockno) *)
  op_bwrite : nat → M S unit;           (** bwrite(b) *)
  op_brelse : nat → M S unit;           (** brelse(b) *)
  op_data : nat → M S block;            (** b->data *)
  op_set_data : nat → block → M S unit; (** stores into b->data *)
  op_blockno : nat → M S Z;             (** b->blockno *)
  op_pin : nat → M S unit               (** b->flags |= B_DIRTY *)
}.

(** [block_rep s a]: the concrete state [s] implements the abstract [a]. *)
Class BlockSpec (S : Type) `{BlockOps S} := {
  block_rep : S → bstate → Prop;

  block_view_ok s a : block_rep s a →
    ∀ b, 0 ≤ b < a_size a → ∃ d, a_view a !! b = Some d ∧ length d = BSIZE;
  block_disk_ok s a : block_rep s a →
    ∀ b, 0 ≤ b < a_size a → ∃ d, a_disk a !! b = Some d ∧ length d = BSIZE;
  block_clean s a : block_rep s a →
    ∀ b, b ∉ a_dirty a → b ∉ held_blocks a → a_view a !! b = a_disk a !! b;
  block_held_range s a : block_rep s a →
    ∀ i b, a_held a !! i = Some b → 0 ≤ b < a_size a;

  wp_bread s a b : block_rep s a → 0 ≤ b < a_size a → b ∉ held_blocks a →
    has_room b a →
    wp (op_bread ROOTDEV b)
       (λ i s', a_held a !! i = None ∧ block_rep s' (a_hold i b a)) s;
  wp_data s a i b : block_rep s a → a_held a !! i = Some b →
    wp (op_data i) (λ d s', s' = s ∧ a_view a !! b = Some d) s;
  wp_blockno s a i b : block_rep s a → a_held a !! i = Some b →
    wp (op_blockno i) (λ b' s', s' = s ∧ b' = b) s;
  wp_set_data s a i b d : block_rep s a → a_held a !! i = Some b →
    length d = BSIZE →
    wp (op_set_data i d) (λ _ s', block_rep s' (a_modify b d a)) s;
  wp_pin s a i b : block_rep s a → a_held a !! i = Some b →
    wp (op_pin i) (λ _ s', block_rep s' (a_pin b a)) s;
  wp_bwrite s a i b d : block_rep s a → a_held a !! i = Some b →
    a_view a !! b = Some d →
    wp (op_bwrite i) (λ _ s', block_rep s' (a_write b d a)) s;
  wp_brelse s a i b : block_rep s a → a_held a !! i = Some b →
    b ∈ a_dirty a ∨ a_view a !! b = a_disk a !! b →
    wp (op_brelse i) (λ _ s', block_rep s' (a_drop i a)) s
}.

(** ** Facts about the abstract store *)

Lemma held_blocks_hold i b a :
  a_held a !! i = None → held_blocks (a_hold i b a) = {[b]} ∪ held_blocks a.
Proof. intros. unfold held_blocks; simpl. by rewrite map_img_insert_notin_L. Qed.

Lemma held_blocks_empty a : a_held a = ∅ → held_blocks a = ∅.
Proof. intros E. unfold held_blocks. by rewrite E, map_img_empty_L. Qed.

Lemma has_room_sub b a (X : gset Z) :
  {[b]} ∪ a_dirty a ∪ held_blocks a ⊆ X → (size X ≤ NBUF)%nat → has_room b a.
Proof. intros Hsub Hsz. unfold has_room. apply subseteq_size in Hsub. lia. Qed.

(** A run of disk writes. *)
Definition apply_writes (d : gmap Z block) (ws : list (Z * block)) : gmap Z block :=
  foldl (λ d w, <[w.1:=w.2]> d) d ws.

Lemma apply_writes_app d ws ws' :
  apply_writes d (ws ++ ws') = apply_writes (apply_writes d ws) ws'.
Proof. apply foldl_app. Qed.

Lemma apply_writes_notin d ws b : b ∉ ws.*1 → apply_writes d ws !! b = d !! b.
Proof.
  revert d. induction ws as [|[b' x] ws IH]; intros d Hb; simpl in *; [done|].
  rewrite not_elem_of_cons in Hb. destruct Hb as [Hne Hb].
  unfold apply_writes in *; simpl. rewrite IH by done. by rewrite lookup_insert_ne.
Qed.

(** Every write to [b] has the value [x]: so has the result. *)
Lemma apply_writes_in d ws b x :
  b ∈ ws.*1 → (∀ y, (b, y) ∈ ws → y = x) → apply_writes d ws !! b = Some x.
Proof.
  revert d. induction ws as [|[b' y] ws IH]; intros d Hb Hall; simpl in *; [by apply elem_of_nil in Hb|].
  unfold apply_writes in *; simpl. destruct (decide (b ∈ ws.*1)) as [Hin|Hnin].
  - apply IH; [done|]. intros z Hz. apply Hall. by right.
  - apply elem_of_cons in Hb as [->|Hb]; [|done].
    fold (apply_writes (<[b':=y]> d) ws). rewrite apply_writes_notin by done.
    rewrite lookup_insert_eq. f_equal. apply Hall. by left.
Qed.

(** A block is as before, or as one of the writes left it. *)
Lemma apply_writes_cases d ws b :
  apply_writes d ws !! b = d !! b ∨ ∃ x, (b, x) ∈ ws ∧ apply_writes d ws !! b = Some x.
Proof.
  revert d. induction ws as [|[b' y] ws IH]; intros d; [by left|].
  change (apply_writes d ((b', y) :: ws)) with (apply_writes (<[b':=y]> d) ws).
  destruct (IH (<[b':=y]> d)) as [E|(x&Hin&E)].
  - rewrite E. destruct (decide (b' = b)) as [->|Hne].
    + rewrite lookup_insert_eq. right. exists y. split; [by left|done].
    + rewrite lookup_insert_ne by done. by left.
  - right. exists x. split; [by right|done].
Qed.

(** The state after the writes [ws], with nothing held and [dirty] pinned. *)
Definition a_after (ws : list (Z * block)) (dirty : gset Z) (a : bstate) : bstate :=
  mkbst (a_size a) (apply_writes (a_disk a) ws) (apply_writes (a_view a) ws) dirty ∅
        (a_writes a ++ ws).

Lemma a_after_nil a : a_held a = ∅ → a_after [] (a_dirty a) a = a.
Proof. destruct a; simpl. intros ->. unfold a_after; simpl. by rewrite app_nil_r. Qed.

Lemma a_after_after ws ws' D D' a :
  a_after ws' D' (a_after ws D a) = a_after (ws ++ ws') D' a.
Proof. unfold a_after; simpl. by rewrite !apply_writes_app, app_assoc. Qed.

(** ** The interface in continuation style *)

Section continuation.
Context {S : Type} `{BlockSpec S}.

Lemma wpk_bread t a b (Q : nat → S → Prop) :
  block_rep t a → 0 ≤ b < a_size a → b ∉ held_blocks a → has_room b a →
  (∀ i t', a_held a !! i = None → block_rep t' (a_hold i b a) → Q i t') →
  wp (op_bread ROOTDEV b) Q t.
Proof. intros R Hb Hh Hr HQ. eapply wp_mono; [by eapply wp_bread|]. naive_solver. Qed.

Lemma wpk_data t a i b (Q : block → S → Prop) :
  block_rep t a → a_held a !! i = Some b →
  (∀ d, a_view a !! b = Some d → Q d t) →
  wp (op_data i) Q t.
Proof. intros R Hi HQ. eapply wp_mono; [by eapply wp_data|]. intros d t' [-> ?]. auto. Qed.

Lemma wpk_blockno t a i b (Q : Z → S → Prop) :
  block_rep t a → a_held a !! i = Some b → Q b t →
  wp (op_blockno i) Q t.
Proof. intros R Hi HQ. eapply wp_mono; [by eapply wp_blockno|]. by intros d t' [-> ->]. Qed.

Lemma wpk_set_data t a i b d (Q : unit → S → Prop) :
  block_rep t a → a_held a !! i = Some b → length d = BSIZE →
  (∀ t', block_rep t' (a_modify b d a) → Q tt t') →
  wp (op_set_data i d) Q t.
Proof. intros R Hi Hl HQ. eapply wp_mono; [by eapply wp_set_data|]. intros []. auto. Qed.

Lemma wpk_pin t a i b (Q : unit → S → Prop) :
  block_rep t a → a_held a !! i = Some b →
  (∀ t', block_rep t' (a_pin b a) → Q tt t') →
  wp (op_pin i) Q t.
Proof. intros R Hi HQ. eapply wp_mono; [by eapply wp_pin|]. intros []. auto. Qed.

Lemma wpk_bwrite t a i b d (Q : unit → S → Prop) :
  block_rep t a → a_held a !! i = Some b → a_view a !! b = Some d →
  (∀ t', block_rep t' (a_write b d a) → Q tt t') →
  wp (op_bwrite i) Q t.
Proof. intros R Hi Hd HQ. eapply wp_mono; [by eapply wp_bwrite|]. intros []. auto. Qed.

Lemma wpk_brelse t a i b (Q : unit → S → Prop) :
  block_rep t a → a_held a !! i = Some b →
  b ∈ a_dirty a ∨ a_view a !! b = a_disk a !! b →
  (∀ t', block_rep t' (a_drop i a) → Q tt t') →
  wp (op_brelse i) Q t.
Proof. intros R Hi Hd HQ. eapply wp_mono; [by eapply wp_brelse|]. intros []. auto. Qed.
End continuation.
