(* ===== verification/Spinlock.v ===== *)
(** * Spin locks and interrupts (spinlock.c)

    The lock words, the per-CPU interrupt state that [pushcli] and [popcli]
    keep, and all interleavings of CPUs that take and give back locks.  The
    other components see a spin lock from the one CPU that runs their code
    ([acquire] and [release] of the prelude); this file shows what the locks
    give between CPUs. *)

From stdpp Require Import functions.
From S2P Require Import Prelude.

Record cpu := mkcpu {
  c_if : bool;        (** FL_IF of its eflags *)
  c_ncli : Z;
  c_intena : bool
}.

(** [cpu] is the owner's index, [None] for the null pointer. *)
Record spinlock := mkspin { lk_locked : bool; lk_cpu : option nat }.

#[global] Instance cpu_inhabited : Inhabited cpu := populate (mkcpu false 0 false).
#[global] Instance spinlock_inhabited : Inhabited spinlock := populate (mkspin false None).

Record mach := mkmach { cpus : list cpu; locks : list spinlock }.

Definition set_cpu (c : nat) (v : cpu) (m : mach) : mach := mkmach (<[c:=v]> (cpus m)) (locks m).
Definition set_lock (l : nat) (v : spinlock) (m : mach) : mach := mkmach (cpus m) (<[l:=v]> (locks m)).

Definition initlock : spinlock := mkspin false None.

(** ** The routines, run on CPU [c] *)

Definition pushcli (c : nat) : M mach unit := λ m,
  let u := cpus m !!! c in
  Done tt (set_cpu c (mkcpu false (c_ncli u + 1) (if c_ncli u =? 0 then c_if u else c_intena u)) m).

Definition popcli (c : nat) : M mach unit := λ m,
  let u := cpus m !!! c in
  if c_if u then Panic "popcli - interruptible"
  else
    let n := c_ncli u - 1 in
    if n <? 0 then Panic "popcli"
    else Done tt (set_cpu c (mkcpu ((n =? 0) && c_intena u) n (c_intena u)) m).

Definition owned_by (c : nat) (lk : spinlock) : bool :=
  lk_locked lk && bool_decide (lk_cpu lk = Some c).

Definition holding (c l : nat) : M mach bool :=
  pushcli c;;
  r ← gets (λ m, owned_by c (locks m !!! l));
  popcli c;;
  mret r.

(** [acquire] up to the [xchg] loop. *)
Definition acquire_enter (c l : nat) : M mach unit :=
  pushcli c;;
  h ← holding c l;
  if (h : bool) then panic "acquire" else mret tt.

(** One turn of the [xchg] loop: the old value; with 0, the owner is recorded. *)
Definition acquire_xchg (c l : nat) : M mach bool := λ m,
  if lk_locked (locks m !!! l) then Done true m
  else Done false (set_lock l (mkspin true (Some c)) m).

Definition release_lock (c l : nat) : M mach unit :=
  h ← holding c l;
  if (h : bool) then
    modify (set_lock l (mkspin false None));;
    popcli c
  else panic "release".

(** ** Interleavings

    Each CPU runs code that takes locks and gives back those it has, in any
    order.  For each CPU, [held] are the locks it has taken, [extra] the
    [pushcli]s it has not undone, [spin] the lock it is spinning for, and
    [want] the interrupt flag it last set while it had none of these. *)

Record sys := mksys {
  s_m : mach;
  s_held : nat → list nat;
  s_extra : nat → nat;
  s_spin : nat → option nat;
  s_want : nat → bool
}.

Inductive step : sys → sys → Prop :=
  | step_enter m m' hd ex sp w c l :
      (c < length (cpus m))%nat → (l < length (locks m))%nat → sp c = None → l ∉ hd c →
      acquire_enter c l m = Done tt m' →
      step (mksys m hd ex sp w) (mksys m' hd ex (<[c:=Some l]> sp) w)
  | step_spin m m' hd ex sp w c l :
      sp c = Some l → acquire_xchg c l m = Done true m' →
      step (mksys m hd ex sp w) (mksys m' hd ex sp w)
  | step_got m m' hd ex sp w c l :
      sp c = Some l → acquire_xchg c l m = Done false m' →
      step (mksys m hd ex sp w) (mksys m' (<[c:=l :: hd c]> hd) ex (<[c:=None]> sp) w)
  | step_release m m' hd ex sp w c l1 l l2 :
      sp c = None → hd c = l1 ++ l :: l2 → release_lock c l m = Done tt m' →
      step (mksys m hd ex sp w) (mksys m' (<[c:=l1 ++ l2]> hd) ex sp w)
  | step_pushcli m m' hd ex sp w c :
      (c < length (cpus m))%nat → sp c = None → pushcli c m = Done tt m' →
      step (mksys m hd ex sp w) (mksys m' hd (<[c:=S (ex c)]> ex) sp w)
  | step_popcli m m' hd ex sp w c n :
      sp c = None → ex c = S n → popcli c m = Done tt m' →
      step (mksys m hd ex sp w) (mksys m' hd (<[c:=n]> ex) sp w)
  | step_flag m hd ex sp w c u b :               (** [sti] or [cli] *)
      cpus m !! c = Some u → c_ncli u = 0 →
      step (mksys m hd ex sp w) (mksys (set_cpu c (mkcpu b 0 (c_intena u)) m) hd ex sp (<[c:=b]> w)).

(** Every CPU idle with no lock, in any interrupt state. *)
Definition start (n k : nat) (flags : nat → bool) : sys :=
  mksys (mkmach ((λ c, mkcpu (flags c) 0 false) <$> seq 0 n) (replicate k initlock))
        (λ _, []) (λ _, O) (λ _, None) flags.

(** ** The discipline *)

(** The [pushcli]s of a CPU that are not undone. *)
Definition depth (hd : list nat) (ex : nat) (sp : option nat) : nat :=
  (length hd + ex + match sp with Some _ => 1 | None => 0 end)%nat.

(** The interrupt state of a CPU at depth [d]. *)
Definition cpu_ok (d : nat) (w : bool) (u : cpu) : Prop :=
  c_ncli u = Z.of_nat d ∧ if (d =? 0)%nat then c_if u = w else c_if u = false ∧ c_intena u = w.

Record inv (s : sys) : Prop := {
  inv_cpu c u : cpus (s_m s) !! c = Some u →
    cpu_ok (depth (s_held s c) (s_extra s c) (s_spin s c)) (s_want s c) u;
  inv_out c : (length (cpus (s_m s)) ≤ c)%nat → s_held s c = [] ∧ s_spin s c = None ∧ s_extra s c = O;
  inv_nodup c : NoDup (s_held s c);
  inv_owner l lk : locks (s_m s) !! l = Some lk →
    if lk_locked lk then ∃ c, lk_cpu lk = Some c ∧ l ∈ s_held s c else lk_cpu lk = None;
  inv_held c l : l ∈ s_held s c → locks (s_m s) !! l = Some (mkspin true (Some c));
  inv_spin c l : s_spin s c = Some l → (l < length (locks (s_m s)))%nat ∧ l ∉ s_held s c
}.

(** *** One CPU *)

Definition pushed (u : cpu) : cpu :=
  mkcpu false (c_ncli u + 1) (if c_ncli u =? 0 then c_if u else c_intena u).
Definition popped (u : cpu) : cpu :=
  mkcpu ((c_ncli u - 1 =? 0) && c_intena u) (c_ncli u - 1) (c_intena u).

Lemma pushed_ok d w u : cpu_ok d w u → cpu_ok (S d) w (pushed u).
Proof.
  unfold cpu_ok. intros [Hn Hf]. split; [simpl; lia|]. simpl. split; [done|].
  destruct (Nat.eqb_spec d 0) as [->|Hd]; [by rewrite Hn|].
  rewrite (proj2 (Z.eqb_neq _ _)) by lia. apply Hf.
Qed.

Lemma popped_ok d w u : cpu_ok (S d) w u → cpu_ok d w (popped u).
Proof.
  unfold cpu_ok. intros [Hn [Hf Hi]]. split; [simpl; lia|]. simpl. rewrite Hn.
  destruct (Nat.eqb_spec d 0) as [->|Hd]; [by rewrite Hi|].
  rewrite (proj2 (Z.eqb_neq _ _)) by lia. done.
Qed.

Lemma run_pushcli c m u : cpus m !! c = Some u → pushcli c m = Done tt (set_cpu c (pushed u) m).
Proof. intros Hu. unfold pushcli. by rewrite (list_lookup_total_correct _ _ _ Hu). Qed.

Lemma run_popcli c m u d w : cpus m !! c = Some u → cpu_ok (S d) w u →
  popcli c m = Done tt (set_cpu c (popped u) m).
Proof.
  intros Hu [Hn [Hf _]]. unfold popcli. rewrite (list_lookup_total_correct _ _ _ Hu), Hf.
  by rewrite (proj2 (Z.ltb_ge _ _)) by lia.
Qed.

Lemma set_cpu_lookup c v m u : cpus m !! c = Some u → cpus (set_cpu c v m) !! c = Some v.
Proof. intros Hu. apply list_lookup_insert_eq. by eapply lookup_lt_Some. Qed.

Lemma set_cpu_set c v v' m : set_cpu c v (set_cpu c v' m) = set_cpu c v m.
Proof. unfold set_cpu. simpl. by rewrite list_insert_insert_eq. Qed.

Lemma run_holding c l m u d w : cpus m !! c = Some u → cpu_ok d w u →
  ∃ u', holding c l m = Done (owned_by c (locks m !!! l)) (set_cpu c u' m) ∧ cpu_ok d w u'.
Proof.
  intros Hu Hok. exists (popped (pushed u)). split; [|by apply popped_ok, pushed_ok].
  unfold holding, mbind, M_bind. rewrite (run_pushcli c m u) by done. unfold gets. cbn [locks set_cpu].
  rewrite (run_popcli c _ (pushed u) d w); [|by eapply set_cpu_lookup|by apply pushed_ok].
  by rewrite set_cpu_set.
Qed.

Lemma run_acquire_enter c l m u d w : cpus m !! c = Some u → cpu_ok d w u →
  if owned_by c (locks m !!! l) then acquire_enter c l m = Panic "acquire"
  else ∃ u', acquire_enter c l m = Done tt (set_cpu c u' m) ∧ cpu_ok (S d) w u'.
Proof.
  intros Hu Hok. unfold acquire_enter, mbind, M_bind. rewrite (run_pushcli c m u) by done.
  destruct (run_holding c l (set_cpu c (pushed u) m) (pushed u) (S d) w) as (u'&E&Hok');
    [by eapply set_cpu_lookup|by apply pushed_ok|]. rewrite E. cbn [locks set_cpu] in *.
  destruct (owned_by c (locks m !!! l)); [done|]. exists u'. split; [|done]. unfold mret, M_ret. f_equal.
  apply set_cpu_set.
Qed.

Lemma run_release c l m u d w : cpus m !! c = Some u → cpu_ok (S d) w u →
  if owned_by c (locks m !!! l)
  then ∃ u', release_lock c l m = Done tt (set_lock l (mkspin false None) (set_cpu c u' m)) ∧ cpu_ok d w u'
  else release_lock c l m = Panic "release".
Proof.
  intros Hu Hok. unfold release_lock, mbind, M_bind.
  destruct (run_holding c l m u (S d) w Hu Hok) as (u'&E&Hok'). rewrite E.
  destruct (owned_by c (locks m !!! l)); [|done]. exists (popped u'). split; [|by apply popped_ok].
  cbn [modify]. unfold modify. rewrite (run_popcli c _ u' d w); [|by apply (set_cpu_lookup _ _ m u)|done].
  f_equal. unfold set_lock, set_cpu. simpl. by rewrite list_insert_insert_eq.
Qed.

(** *** All CPUs *)

Section upd.
Context (s s' : sys) (c : nat) (I : inv s).
Context (Hc : (c < length (cpus (s_m s)))%nat) (Hlen : length (cpus (s_m s')) = length (cpus (s_m s))).
Context (Hllen : length (locks (s_m s')) = length (locks (s_m s))).
Context (Hoth : ∀ j, j ≠ c → s_held s' j = s_held s j ∧ s_extra s' j = s_extra s j ∧
  s_spin s' j = s_spin s j ∧ s_want s' j = s_want s j ∧ cpus (s_m s') !! j = cpus (s_m s) !! j).
Context (Hcpu : ∀ u, cpus (s_m s') !! c = Some u →
  cpu_ok (depth (s_held s' c) (s_extra s' c) (s_spin s' c)) (s_want s' c) u).
Context (Hnd : NoDup (s_held s' c)).
Context (Hmine : ∀ l, l ∈ s_held s' c → locks (s_m s') !! l = Some (mkspin true (Some c))).
Context (Hkeep : ∀ j l, j ≠ c → l ∈ s_held s j → locks (s_m s') !! l = locks (s_m s) !! l).
Context (Hown : ∀ l lk, locks (s_m s') !! l = Some lk →
  if lk_locked lk then ∃ j, lk_cpu lk = Some j ∧ l ∈ s_held s' j else lk_cpu lk = None).
Context (Hspin : ∀ l, s_spin s' c = Some l → (l < length (locks (s_m s)))%nat ∧ l ∉ s_held s' c).

(** A step of CPU [c] that keeps its own part keeps the invariant. *)
Lemma inv_upd : inv s'.
Proof.
  split.
  - intros j u Hu. destruct (decide (j = c)) as [->|Hj]; [by apply Hcpu|].
    destruct (Hoth j Hj) as (->&->&->&->&E). rewrite E in Hu. by apply (inv_cpu _ I).
  - intros j Hj. rewrite Hlen in Hj. destruct (Hoth j ltac:(lia)) as (->&->&->&_). by apply (inv_out _ I).
  - intros j. destruct (decide (j = c)) as [->|Hj]; [done|]. destruct (Hoth j Hj) as (->&_). apply (inv_nodup _ I).
  - done.
  - intros j l Hl. destruct (decide (j = c)) as [->|Hj]; [by apply Hmine|].
    destruct (Hoth j Hj) as (E&_). rewrite E in Hl. rewrite (Hkeep j) by done. by apply (inv_held _ I).
  - intros j l Hl. rewrite Hllen. destruct (decide (j = c)) as [->|Hj]; [by apply Hspin|].
    destruct (Hoth j Hj) as (->&_&E&_). rewrite E in Hl. by apply (inv_spin _ I).
Qed.
End upd.

(** The ghost state of the other CPUs. *)
Ltac other_cpu :=
  intros ? ?; cbn [s_held s_extra s_spin s_want s_m cpus set_cpu set_lock] in *;
  rewrite ?fn_lookup_insert_ne, ?list_lookup_insert_ne by done; done.

Section one.
Context (m : mach) (hd : nat → list nat) (ex : nat → nat) (sp : nat → option nat) (w : nat → bool).
Context (I : inv (mksys m hd ex sp w)).

Lemma inv_lookup_cpu c : (c < length (cpus m))%nat →
  ∃ u, cpus m !! c = Some u ∧ cpu_ok (depth (hd c) (ex c) (sp c)) (w c) u.
Proof. intros Hc. destruct (lookup_lt_is_Some_2 _ _ Hc) as [u Hu]. exists u. split; [done|]. by apply (inv_cpu _ I). Qed.

Lemma inv_in_range c : hd c ≠ [] ∨ sp c ≠ None ∨ ex c ≠ O → (c < length (cpus m))%nat.
Proof.
  intros Hne. destruct (decide (c < length (cpus m))%nat) as [|Hge]; [done|].
  destruct (inv_out _ I c ltac:(simpl; lia)) as (?&?&?). naive_solver.
Qed.

(** A step that changes only the interrupt state of one CPU. *)
Lemma inv_cpu_only c u u' ex' sp' w' : cpus m !! c = Some u →
  (∀ j, j ≠ c → ex' j = ex j) → (∀ j, j ≠ c → sp' j = sp j) → (∀ j, j ≠ c → w' j = w j) →
  cpu_ok (depth (hd c) (ex' c) (sp' c)) (w' c) u' →
  (∀ l, sp' c = Some l → (l < length (locks m))%nat ∧ l ∉ hd c) →
  inv (mksys (set_cpu c u' m) hd ex' sp' w').
Proof.
  intros Hu He Hs Hw Hok Hsp. pose proof (lookup_lt_Some _ _ _ Hu) as Hc.
  apply (inv_upd (mksys m hd ex sp w) _ c I); cbn [s_held s_extra s_spin s_want s_m cpus locks set_cpu]; try done.
  - by rewrite length_insert.
  - intros j Hj. rewrite list_lookup_insert_ne by done. split_and!; auto.
  - intros v. rewrite list_lookup_insert_eq by done. by intros [= <-].
  - apply (inv_nodup _ I).
  - intros l Hl. by apply (inv_held _ I c l).
  - intros l lk Hl. by apply (inv_owner _ I l lk).
Qed.

Lemma inv_owned c l : l ∈ hd c → owned_by c (locks m !!! l) = true.
Proof.
  intros Hl. rewrite (list_lookup_total_correct _ _ _ (inv_held _ I c l Hl)).
  unfold owned_by. simpl. by apply bool_decide_eq_true.
Qed.

Lemma inv_not_owned c l : (l < length (locks m))%nat → l ∉ hd c → owned_by c (locks m !!! l) = false.
Proof.
  intros Hlt Hl. destruct (lookup_lt_is_Some_2 _ _ Hlt) as [lk E]. rewrite (list_lookup_total_correct _ _ _ E).
  unfold owned_by. pose proof (inv_owner _ I l lk E) as Ho. destruct (lk_locked lk); [|done].
  destruct Ho as (j&Ej&Hj). simpl. rewrite Ej. apply bool_decide_eq_false. intros [= ->]. done.
Qed.

Lemma inv_enter c l m' : (c < length (cpus m))%nat → (l < length (locks m))%nat → sp c = None → l ∉ hd c →
  acquire_enter c l m = Done tt m' → inv (mksys m' hd ex (<[c:=Some l]> sp) w).
Proof.
  intros Hc Hl Hs Hn E. destruct (inv_lookup_cpu c Hc) as (u&Hu&Hok).
  pose proof (run_acquire_enter c l m u _ _ Hu Hok) as R. rewrite inv_not_owned in R by done.
  destruct R as (u'&R&Hok'). rewrite R in E. injection E as <-.
  apply (inv_cpu_only c u); try done; [by intros; rewrite fn_lookup_insert_ne| |]; rewrite fn_lookup_insert.
  - rewrite Hs in Hok'. unfold depth in *. by rewrite Nat.add_1_r, Nat.add_0_r in *.
  - by intros ? [= <-].
Qed.

Lemma inv_got c l m' : sp c = Some l → acquire_xchg c l m = Done false m' →
  inv (mksys m' (<[c:=l :: hd c]> hd) ex (<[c:=None]> sp) w).
Proof.
  intros Hs E. destruct (inv_spin _ I c l Hs) as [Hl Hn]. cbn in Hl, Hn.
  assert (c < length (cpus m))%nat as Hc by (apply inv_in_range; right; left; by rewrite Hs).
  unfold acquire_xchg in E. destruct (lookup_lt_is_Some_2 _ _ Hl) as [lk El].
  rewrite (list_lookup_total_correct _ _ _ El) in E. pose proof (inv_owner _ I l lk El) as Ho.
  destruct (lk_locked lk) eqn:Elk; [done|]. injection E as <-.
  assert (Hfree : ∀ j, l ∉ hd j).
  { intros j Hj. apply (inv_held _ I) in Hj. cbn in Hj. rewrite El in Hj. injection Hj as ->. done. }
  apply (inv_upd (mksys m hd ex sp w) _ c I); cbn [s_held s_extra s_spin s_want s_m cpus locks set_lock]; try done.
  - by rewrite length_insert.
  - other_cpu.
  - intros u Hu. pose proof (inv_cpu _ I c u Hu) as Hok. cbn in Hok. rewrite Hs in Hok.
    rewrite !fn_lookup_insert. unfold depth in *. simpl. by rewrite Nat.add_0_r, <- Nat.add_1_r.
  - rewrite fn_lookup_insert. constructor; [done|apply (inv_nodup _ I)].
  - intros l' Hl'. rewrite fn_lookup_insert in Hl'. apply elem_of_cons in Hl' as [->|Hl'].
    + by rewrite list_lookup_insert_eq.
    + rewrite list_lookup_insert_ne by (intros ->; by apply (Hfree c)). by apply (inv_held _ I c l').
  - intros j l' _ Hl'. rewrite list_lookup_insert_ne; [done|]. intros ->. by apply (Hfree j).
  - intros l' lk' Hlk. destruct (decide (l = l')) as [<-|Hne].
    + rewrite list_lookup_insert_eq in Hlk by done. injection Hlk as <-. exists c. split; [done|].
      rewrite fn_lookup_insert. left.
    + rewrite list_lookup_insert_ne in Hlk by done. pose proof (inv_owner _ I l' lk' Hlk) as Ho'.
      destruct (lk_locked lk'); [|done]. destruct Ho' as (j&Ej&Hj). exists j. split; [done|].
      destruct (decide (j = c)) as [->|]; [rewrite fn_lookup_insert; by right|by rewrite fn_lookup_insert_ne].
  - rewrite fn_lookup_insert. done.
Qed.
Lemma inv_release c l1 l l2 m' : sp c = None → hd c = l1 ++ l :: l2 → release_lock c l m = Done tt m' →
  inv (mksys m' (<[c:=l1 ++ l2]> hd) ex sp w).
Proof.
  intros Hs Eh E. assert (l ∈ hd c) as Hl by (rewrite Eh; set_solver).
  assert (c < length (cpus m))%nat as Hc by (apply inv_in_range; left; rewrite Eh; by destruct l1).
  destruct (inv_lookup_cpu c Hc) as (u&Hu&Hok).
  assert (depth (hd c) (ex c) (sp c) = S (depth (l1 ++ l2) (ex c) (sp c))) as Ed.
  { rewrite Eh. unfold depth. rewrite !length_app. simpl. lia. }
  rewrite Ed in Hok. pose proof (run_release c l m u _ _ Hu Hok) as R. rewrite inv_owned in R by done.
  destruct R as (u'&R&Hok'). rewrite R in E. injection E as <-.
  pose proof (inv_held _ I c l Hl) as El. cbn in El. pose proof (lookup_lt_Some _ _ _ El) as Hll.
  pose proof (inv_nodup _ I c) as Hnd. cbn in Hnd. rewrite Eh in Hnd.
  apply NoDup_app in Hnd as (Hn1&Hn2&[Hn3 Hn4]%NoDup_cons).
  assert (l ∉ l1 ++ l2) as Hnl by (intros [?|?]%elem_of_app; [apply (Hn2 l); [done|left]|done]).
  assert (Hoth : ∀ j, j ≠ c → l ∉ hd j).
  { intros j Hj Hin. apply (inv_held _ I) in Hin. cbn in Hin. rewrite El in Hin. by injection Hin as <-. }
  apply (inv_upd (mksys m hd ex sp w) _ c I); cbn [s_held s_extra s_spin s_want s_m cpus locks set_cpu set_lock]; try done.
  - by rewrite length_insert.
  - by rewrite length_insert.
  - other_cpu.
  - intros v. rewrite list_lookup_insert_eq by done. rewrite fn_lookup_insert. by intros [= <-].
  - rewrite fn_lookup_insert. apply NoDup_app. split_and!; [done| |done]. intros x Hx Hx'. apply (Hn2 x Hx). by right.
  - intros l' Hl'. rewrite fn_lookup_insert in Hl'. rewrite list_lookup_insert_ne by (intros ->; done).
    apply (inv_held _ I c l'). cbn. rewrite Eh. set_solver.
  - intros j l' Hj Hl'. rewrite list_lookup_insert_ne; [done|]. intros ->. by apply (Hoth j).
  - intros l' lk' Hlk. destruct (decide (l = l')) as [<-|Hne].
    + rewrite list_lookup_insert_eq in Hlk by done. by injection Hlk as <-.
    + rewrite list_lookup_insert_ne in Hlk by done. pose proof (inv_owner _ I l' lk' Hlk) as Ho'.
      destruct (lk_locked lk'); [|done]. destruct Ho' as (j&Ej&Hj). exists j. split; [done|]. cbn in Hj.
      destruct (decide (j = c)) as [->|]; [|by rewrite fn_lookup_insert_ne].
      rewrite fn_lookup_insert. rewrite Eh in Hj. set_solver.
  - rewrite Hs. done.
Qed.
End one.

Lemma step_inv s s' : step s s' → inv s → inv s'.
Proof.
  intros Hst I. destruct Hst as [m m' hd ex sp w c l Hc Hl Hs Hn E|m m' hd ex sp w c l Hs E|m m' hd ex sp w c l Hs E
    |m m' hd ex sp w c l1 l l2 Hs Eh E|m m' hd ex sp w c Hc Hs E|m m' hd ex sp w c n Hs Ee E|m hd ex sp w c u b Hu Hz].
  - by eapply inv_enter.
  - unfold acquire_xchg in E. destruct (lk_locked _); [|done]. by injection E as <-.
  - by eapply inv_got.
  - by eapply inv_release.
  - destruct (inv_lookup_cpu _ _ _ _ _ I c Hc) as (u&Hu&Hok). rewrite (run_pushcli c m u Hu) in E. injection E as <-.
    apply (inv_cpu_only _ _ _ _ _ I c u); try done; [by intros; rewrite fn_lookup_insert_ne| |by rewrite Hs].
    rewrite fn_lookup_insert. apply pushed_ok in Hok. unfold depth in *. by rewrite Nat.add_succ_r.
  - destruct (inv_lookup_cpu _ _ _ _ _ I c) as (u&Hu&Hok); [apply (inv_in_range _ _ _ _ _ I); right; right; by rewrite Ee|].
    assert (depth (hd c) (ex c) (sp c) = S (depth (hd c) n (sp c))) as Ed by (rewrite Ee; unfold depth; lia).
    rewrite Ed in Hok. rewrite (run_popcli c m u _ _ Hu Hok) in E. injection E as <-.
    apply (inv_cpu_only _ _ _ _ _ I c u); try done; [by intros; rewrite fn_lookup_insert_ne| |by rewrite Hs].
    rewrite fn_lookup_insert. by apply popped_ok.
  - pose proof (inv_cpu _ I c u Hu) as [Hd _]. cbn in Hd. rewrite Hz in Hd.
    apply (inv_cpu_only _ _ _ _ _ I c u); try done; [by intros; rewrite fn_lookup_insert_ne| |apply (inv_spin _ I c)].
    rewrite fn_lookup_insert. assert (depth (hd c) (ex c) (sp c) = 0%nat) as -> by (unfold depth; lia). done.
Qed.

Lemma start_inv n k flags : inv (start n k flags).
Proof.
  split; unfold start; cbn; try done.
  - intros c u. rewrite list_lookup_fmap. intros (c'&[-> _]%lookup_seq& ->)%fmap_Some. done.
  - intros c. constructor.
  - intros l lk [-> _]%lookup_replicate. done.
  - intros c l Hl. by apply elem_of_nil in Hl.
Qed.

Lemma reachable_inv n k flags s : rtc step (start n k flags) s → inv s.
Proof.
  intros Hr. assert (inv (start n k flags)) as I by apply start_inv.
  induction Hr as [|x y z Hxy _ IH]; [done|]. apply IH. by eapply step_inv.
Qed.

(** C25: in every interleaving of CPUs that take locks and give back those
    they hold: a lock is held by at most one CPU; a CPU that holds or spins
    for a lock runs with interrupts off, and with none (and all [pushcli]s
    undone) it has the interrupt flag it last set itself; and neither
    [release] of a lock that is held nor [acquire] of one that is not held
    by the same CPU panics. *)
Theorem spinlock_discipline n k flags s : rtc step (start n k flags) s →
  (∀ c1 c2 l, l ∈ s_held s c1 → l ∈ s_held s c2 → c1 = c2) ∧
  (∀ c u, cpus (s_m s) !! c = Some u →
     c_if u = if (depth (s_held s c) (s_extra s c) (s_spin s c) =? 0)%nat then s_want s c else false) ∧
  (∀ c l, l ∈ s_held s c → ∃ m', release_lock c l (s_m s) = Done tt m') ∧
  (∀ c l, (c < length (cpus (s_m s)))%nat → (l < length (locks (s_m s)))%nat → l ∉ s_held s c →
     ∃ m', acquire_enter c l (s_m s) = Done tt m').
Proof.
  intros I%reachable_inv. destruct s as [m hd ex sp w]. split_and!; cbn.
  - intros c1 c2 l H1 H2. apply (inv_held _ I) in H1, H2. cbn in H1, H2. rewrite H1 in H2. by injection H2.
  - intros c u Hu. destruct (inv_cpu _ I c u Hu) as [_ Hok]. cbn in Hok. destruct (_ =? 0)%nat; [done|apply Hok].
  - intros c l Hl. destruct (inv_lookup_cpu _ _ _ _ _ I c) as (u&Hu&Hok).
    { apply (inv_in_range _ _ _ _ _ I). left. intros E. rewrite E in Hl. by apply elem_of_nil in Hl. }
    destruct (depth (hd c) (ex c) (sp c)) as [|d] eqn:Ed.
    { unfold depth in Ed. destruct (hd c); [by apply elem_of_nil in Hl|done]. }
    pose proof (run_release c l m u d _ Hu Hok) as R. rewrite (inv_owned _ _ _ _ _ I) in R by done.
    destruct R as (u'&R&_). eauto.
  - intros c l Hc Hl Hn. destruct (inv_lookup_cpu _ _ _ _ _ I c Hc) as (u&Hu&Hok).
    pose proof (run_acquire_enter c l m u _ _ Hu Hok) as R. rewrite (inv_not_owned _ _ _ _ _ I) in R by done.
    destruct R as (u'&R&_). eauto.
Qed.

(** Two CPUs, one lock: CPU 0 has it and CPU 1 spins. *)
Definition demo : sys :=
  mksys (mkmach [mkcpu false 1 true; mkcpu false 1 true] [mkspin true (Some 0%nat)])
    (<[0%nat:=[0%nat]]> (λ _, [])) (λ _, O)
    (<[1%nat:=Some 0%nat]> (<[0%nat:=None]> (<[0%nat:=Some 0%nat]> (λ _, None)))) (λ _, true).

Lemma demo_reachable : rtc step (start 2 1 (λ _, true)) demo.
Proof.
  set (u0 := mkcpu true 0 false). set (u1 := mkcpu false 1 true). set (f := mkspin false None).
  eapply rtc_l; [apply (step_enter _ (mkmach [u1; u0] [f]) _ _ _ _ 0 0);
    [simpl; lia|simpl; lia|done|apply not_elem_of_nil|by vm_compute]|].
  eapply rtc_l; [apply (step_got _ (mkmach [u1; u0] [mkspin true (Some 0%nat)]) _ _ _ _ 0 0); by vm_compute|].
  eapply rtc_l; [apply (step_enter _ (mkmach [u1; u1] [mkspin true (Some 0%nat)]) _ _ _ _ 1 0);
    [simpl; lia|simpl; lia|done|apply not_elem_of_nil|by vm_compute]|].
  apply rtc_refl.
Qed.

Lemma spinlock_discipline_witness :
  (∀ c, 0%nat ∈ s_held demo c → c = 0%nat) ∧ ∃ m', release_lock 0 0 (s_m demo) = Done tt m'.
Proof.
  destruct (spinlock_discipline 2 1 (λ _, true) demo demo_reachable) as (H1&_&H2&_). split.
  - intros c Hc. apply (H1 c 0%nat 0%nat Hc). left.
  - apply H2. left.
Defined.
