(* ===== verification/Proc.v ===== *)
(** * Processes (proc.c)

    The process table, what the running process and the scheduler do to it,
    and the routines that create, end and wait for processes.  Memory, files
    and inodes belong to other components; [ProcOps] is what proc.c asks of
    them.  A routine runs on CPU [c]; [sched] is the switch to that CPU's
    scheduler, which ends the run of the process. *)

From S2P Require Import Prelude Params Mmu Str Spinlock.

(** ** Data *)

Inductive procstate := UNUSED | EMBRYO | SLEEPING | RUNNABLE | RUNNING | ZOMBIE.

#[global] Instance procstate_eq_dec : EqDecision procstate.
Proof. solve_decision. Defined.

(** x86.h; the padding is left out. *)
Record trapframe := mktf {
  tf_edi : Z; tf_esi : Z; tf_ebp : Z; tf_oesp : Z; tf_ebx : Z; tf_edx : Z; tf_ecx : Z; tf_eax : Z;
  tf_gs : Z; tf_fs : Z; tf_es : Z; tf_ds : Z; tf_trapno : Z;
  tf_err : Z; tf_eip : Z; tf_cs : Z; tf_eflags : Z; tf_esp : Z; tf_ss : Z
}.
Definition zero_tf : trapframe := mktf 0 0 0 0 0 0 0 0 0 0 0 0 0 0 0 0 0 0 0.
Definition set_eax (v : Z) (t : trapframe) : trapframe :=
  mktf (tf_edi t) (tf_esi t) (tf_ebp t) (tf_oesp t) (tf_ebx t) (tf_edx t) (tf_ecx t) v
    (tf_gs t) (tf_fs t) (tf_es t) (tf_ds t) (tf_trapno t)
    (tf_err t) (tf_eip t) (tf_cs t) (tf_eflags t) (tf_esp t) (tf_ss t).
Definition set_entry (eip esp : Z) (t : trapframe) : trapframe :=
  mktf (tf_edi t) (tf_esi t) (tf_ebp t) (tf_oesp t) (tf_ebx t) (tf_edx t) (tf_ecx t) (tf_eax t)
    (tf_gs t) (tf_fs t) (tf_es t) (tf_ds t) (tf_trapno t)
    (tf_err t) eip (tf_cs t) (tf_eflags t) esp (tf_ss t).

(** Where a kernel thread goes on: a new one at [forkret], one that called
    [sched] after that call, with the [intena] it saved. *)
Inductive caller := InYield | InSleep (lk : nat) | InExit.
Inductive context := CtxForkret | CtxSched (k : caller) (intena : bool).

(** Pointers to processes, files and inodes are indices; [None] is null. *)
Record proc := mkproc {
  p_sz : Z;
  p_pgdir : Z;
  p_kstack : Z;
  p_state : procstate;
  p_pid : Z;
  p_parent : option nat;
  p_tf : trapframe;
  p_context : context;
  p_chan : option chan;
  p_killed : bool;
  p_ofile : list (option nat);
  p_cwd : option nat;
  p_name : list Z
}.

Definition set_state (v : procstate) (p : proc) : proc :=
  mkproc (p_sz p) (p_pgdir p) (p_kstack p) v (p_pid p) (p_parent p) (p_tf p) (p_context p) (p_chan p) (p_killed p) (p_ofile p) (p_cwd p) (p_name p).
Definition set_parent (v : option nat) (p : proc) : proc :=
  mkproc (p_sz p) (p_pgdir p) (p_kstack p) (p_state p) (p_pid p) v (p_tf p) (p_context p) (p_chan p) (p_killed p) (p_ofile p) (p_cwd p) (p_name p).
Definition set_chan (v : option chan) (p : proc) : proc :=
  mkproc (p_sz p) (p_pgdir p) (p_kstack p) (p_state p) (p_pid p) (p_parent p) (p_tf p) (p_context p) v (p_killed p) (p_ofile p) (p_cwd p) (p_name p).
Definition set_killed (v : bool) (p : proc) : proc :=
  mkproc (p_sz p) (p_pgdir p) (p_kstack p) (p_state p) (p_pid p) (p_parent p) (p_tf p) (p_context p) (p_chan p) v (p_ofile p) (p_cwd p) (p_name p).
Definition set_pid (v : Z) (p : proc) : proc :=
  mkproc (p_sz p) (p_pgdir p) (p_kstack p) (p_state p) v (p_parent p) (p_tf p) (p_context p) (p_chan p) (p_killed p) (p_ofile p) (p_cwd p) (p_name p).
Definition set_kstack (v : Z) (p : proc) : proc :=
  mkproc (p_sz p) (p_pgdir p) v (p_state p) (p_pid p) (p_parent p) (p_tf p) (p_context p) (p_chan p) (p_killed p) (p_ofile p) (p_cwd p) (p_name p).
Definition set_mem (sz pgdir : Z) (p : proc) : proc :=
  mkproc sz pgdir (p_kstack p) (p_state p) (p_pid p) (p_parent p) (p_tf p) (p_context p) (p_chan p) (p_killed p) (p_ofile p) (p_cwd p) (p_name p).
Definition set_tf (v : trapframe) (p : proc) : proc :=
  mkproc (p_sz p) (p_pgdir p) (p_kstack p) (p_state p) (p_pid p) (p_parent p) v (p_context p) (p_chan p) (p_killed p) (p_ofile p) (p_cwd p) (p_name p).
Definition set_context (v : context) (p : proc) : proc :=
  mkproc (p_sz p) (p_pgdir p) (p_kstack p) (p_state p) (p_pid p) (p_parent p) (p_tf p) v (p_chan p) (p_killed p) (p_ofile p) (p_cwd p) (p_name p).
Definition set_files (fs : list (option nat)) (cwd : option nat) (p : proc) : proc :=
  mkproc (p_sz p) (p_pgdir p) (p_kstack p) (p_state p) (p_pid p) (p_parent p) (p_tf p) (p_context p) (p_chan p) (p_killed p) fs cwd (p_name p).
Definition set_name (v : list Z) (p : proc) : proc :=
  mkproc (p_sz p) (p_pgdir p) (p_kstack p) (p_state p) (p_pid p) (p_parent p) (p_tf p) (p_context p) (p_chan p) (p_killed p) (p_ofile p) (p_cwd p) v.

(** A slot of the table at boot. *)
Definition zero_proc : proc :=
  mkproc 0 0 0 UNUSED 0 None zero_tf CtxForkret None false (replicate NOFILE None) None (replicate 16 0).
#[global] Instance proc_inhabited : Inhabited proc := populate zero_proc.

(** What proc.c uses of the other components. *)
Class ProcOps (E : Type) := {
  op_kalloc : M E Z;
  op_kfree : Z → M E unit;
  op_setupkvm : M E Z;
  op_inituvm : Z → M E unit;                (** of initcode *)
  op_copyuvm : Z → Z → M E Z;
  op_allocuvm : Z → Z → Z → M E Z;
  op_deallocuvm : Z → Z → Z → M E Z;
  op_freevm : Z → M E unit;
  op_filedup : nat → M E nat;
  op_fileclose : nat → M E unit;
  op_idup : nat → M E nat;
  op_iput : nat → M E unit;
  op_namei : list Z → M E (option nat);
  op_begin_op : M E unit;
  op_end_op : M E unit;
  op_fsinit : M E unit                      (** [iinit] and [initlog] *)
}.

(** The [proc] and the loaded page table of a CPU ([None]: that of the
    kernel alone); its interrupt state is that of spinlock.c. *)
Record cpust := mkcpust { u_proc : option nat; u_cr3 : option Z }.
#[global] Instance cpust_inhabited : Inhabited cpust := populate (mkcpust None None).

Record ptable (E : Type) := mkpt {
  pt_ext : E;
  pt_mach : mach;                           (** lock 0 is ptable.lock *)
  pt_procs : list proc;
  pt_nextpid : Z;
  pt_init : option nat;                     (** initproc *)
  pt_cpus : list cpust;
  pt_first : bool                           (** [first] of forkret *)
}.
Arguments mkpt {E}.
Arguments pt_ext {E}.
Arguments pt_mach {E}.
Arguments pt_procs {E}.
Arguments pt_nextpid {E}.
Arguments pt_init {E}.
Arguments pt_cpus {E}.
Arguments pt_first {E}.

Definition PTLOCK : nat := 0.

(** ** Operations *)

Section proc.
Context {E : Type} `{ProcOps E}.
Implicit Types s : ptable E.

Definition set_ext (v : E) s : ptable E := mkpt v (pt_mach s) (pt_procs s) (pt_nextpid s) (pt_init s) (pt_cpus s) (pt_first s).
Definition set_mach (v : mach) s : ptable E := mkpt (pt_ext s) v (pt_procs s) (pt_nextpid s) (pt_init s) (pt_cpus s) (pt_first s).
Definition set_procs (v : list proc) s : ptable E := mkpt (pt_ext s) (pt_mach s) v (pt_nextpid s) (pt_init s) (pt_cpus s) (pt_first s).
Definition set_nextpid (v : Z) s : ptable E := mkpt (pt_ext s) (pt_mach s) (pt_procs s) v (pt_init s) (pt_cpus s) (pt_first s).
Definition set_init (v : option nat) s : ptable E := mkpt (pt_ext s) (pt_mach s) (pt_procs s) (pt_nextpid s) v (pt_cpus s) (pt_first s).
Definition set_cpus (v : list cpust) s : ptable E := mkpt (pt_ext s) (pt_mach s) (pt_procs s) (pt_nextpid s) (pt_init s) v (pt_first s).
Definition set_first (v : bool) s : ptable E := mkpt (pt_ext s) (pt_mach s) (pt_procs s) (pt_nextpid s) (pt_init s) (pt_cpus s) v.

Definition ext {A} (m : M E A) : M (ptable E) A := zoom pt_ext set_ext m.
Definition onmach {A} (m : M mach A) : M (ptable E) A := zoom pt_mach set_mach m.

(** [acquire] by a CPU that runs alone spins for ever on a lock it does not get. *)
Definition acquire (c l : nat) : M (ptable E) unit :=
  onmach (acquire_enter c l);;
  busy ← onmach (acquire_xchg c l);
  if (busy : bool) then diverge else mret tt.
Definition release (c l : nat) : M (ptable E) unit := onmach (release_lock c l).

Definition the_proc (i : nat) : M (ptable E) proc := gets (λ s, pt_procs s !!! i).
Definition upd_proc (i : nat) (f : proc → proc) : M (ptable E) unit :=
  modify (λ s, set_procs (alter f i (pt_procs s)) s).
Definition upd_cpu (c : nat) (f : cpust → cpust) : M (ptable E) unit :=
  modify (λ s, set_cpus (alter f c (pt_cpus s)) s).

Definition myproc (c : nat) : M (ptable E) (option nat) :=
  onmach (pushcli c);;
  p ← gets (λ s, u_proc (pt_cpus s !!! c));
  onmach (popcli c);;
  mret p.

(** The callers below use [myproc()] without a test for null. *)
Definition curproc (c : nat) : M (ptable E) nat :=
  p ← myproc c;
  match p with Some i => mret i | None => undef end.

(** The first slot of the table from [from] on that satisfies [f]. *)
Definition find_from (f : proc → bool) (from : nat) (ps : list proc) : option nat :=
  (λ r, (from + r.1)%nat) <$> list_find (λ p, f p = true) (drop from ps).

Definition is_state (v : procstate) (p : proc) : bool := bool_decide (p_state p = v).

Definition allocproc (c : nat) : M (ptable E) (option nat) :=
  acquire c PTLOCK;;
  r ← gets (λ s, find_from (is_state UNUSED) 0 (pt_procs s));
  match r with
  | None => release c PTLOCK;; mret None
  | Some i =>
      upd_proc i (set_state EMBRYO);;
      pid ← gets pt_nextpid;
      upd_proc i (set_pid pid);;
      modify (set_nextpid (i32 (pid + 1)));;
      release c PTLOCK;;
      k ← ext op_kalloc;
      upd_proc i (set_kstack k);;
      if k =? 0 then upd_proc i (set_state UNUSED);; mret None
      else
        (* the trap frame, on the new stack, is filled by the caller *)
        upd_proc i (set_context CtxForkret);;
        mret (Some i)
  end.

(** Segment selectors and flags of mmu.h. *)
Definition SEG_UCODE : Z := 3.
Definition SEG_UDATA : Z := 4.
Definition DPL_USER : Z := 3.
Definition FL_IF : Z := 512.

Definition user_tf : trapframe :=
  let cs := Z.lor (Z.shiftl SEG_UCODE 3) DPL_USER in
  let ds := Z.lor (Z.shiftl SEG_UDATA 3) DPL_USER in
  mktf 0 0 0 0 0 0 0 0 0 0 ds ds 0 0 0 cs FL_IF PGSIZE ds.

Definition initcode_name : list Z := [105; 110; 105; 116; 99; 111; 100; 101; 0].
Definition root_path : list Z := [47; 0].

Definition userinit (c : nat) : M (ptable E) unit :=
  p ← allocproc c;
  modify (set_init p);;
  match p with
  | None => undef
  | Some i =>
      d ← ext op_setupkvm;
      q ← the_proc i;
      upd_proc i (set_mem (p_sz q) d);;
      if d =? 0 then panic "userinit: out of memory?"
      else
        ext (op_inituvm d);;
        upd_proc i (set_mem PGSIZE d);;
        upd_proc i (set_tf user_tf);;
        upd_proc i (λ q, set_name (safestrcpy (p_name q) initcode_name 16) q);;
        ip ← ext (op_namei root_path);
        upd_proc i (λ q, set_files (p_ofile q) ip q);;
        acquire c PTLOCK;;
        upd_proc i (set_state RUNNABLE);;
        release c PTLOCK
  end.

(** vm.c: the task state the hardware reads is the process's kernel stack and
    page table. *)
Definition switchuvm (c i : nat) : M (ptable E) unit :=
  p ← the_proc i;
  if p_kstack p =? 0 then panic "switchuvm: no kstack"
  else if p_pgdir p =? 0 then panic "switchuvm: no pgdir"
  else
    onmach (pushcli c);;
    upd_cpu c (λ u, mkcpust (u_proc u) (Some (p_pgdir p)));;
    onmach (popcli c).

Definition switchkvm (c : nat) : M (ptable E) unit :=
  upd_cpu c (λ u, mkcpust (u_proc u) None).

Definition growproc (c : nat) (n : Z) : M (ptable E) Z :=
  i ← curproc c;
  p ← the_proc i;
  let sz := p_sz p in
  r ← (if n >? 0 then
         sz' ← ext (op_allocuvm (p_pgdir p) sz (u32 (sz + n)));
         mret (if sz' =? 0 then None else Some sz')
       else if n <? 0 then
         sz' ← ext (op_deallocuvm (p_pgdir p) sz (u32 (sz + n)));
         mret (if sz' =? 0 then None else Some sz')
       else mret (Some sz));
  match r with
  | None => mret (-1)
  | Some sz' => upd_proc i (set_mem sz' (p_pgdir p));; switchuvm c i;; mret 0
  end.

(** The descriptors of a process from [fd] on, duplicated into slot [np]. *)
Definition dup_ofile (i np : nat) (fd : Z) : M (ptable E) unit :=
  p ← the_proc i;
  match p_ofile p !!! Z.to_nat fd with
  | Some f =>
      f' ← ext (op_filedup f);
      upd_proc np (λ q, set_files (<[Z.to_nat fd:=Some f']> (p_ofile q)) (p_cwd q) q)
  | None => mret tt
  end.

(** [fork] after [allocproc] has given it slot [j]. *)
Definition fork_fill (c i j : nat) : M (ptable E) Z :=
  p ← the_proc i;
  d ← ext (op_copyuvm (p_pgdir p) (p_sz p));
  upd_proc j (λ q, set_mem (p_sz q) d q);;
  if d =? 0 then
    q ← the_proc j;
    ext (op_kfree (p_kstack q));;
    upd_proc j (set_kstack 0);;
    upd_proc j (set_state UNUSED);;
    mret (-1)
  else
    upd_proc j (set_mem (p_sz p) d);;
    upd_proc j (set_parent (Some i));;
    upd_proc j (set_tf (set_eax 0 (p_tf p)));;
    for_range NOFILE 0 (dup_ofile i j);;
    match p_cwd p with
    | None => undef
    | Some ip =>
        ip' ← ext (op_idup ip);
        upd_proc j (λ q, set_files (p_ofile q) (Some ip') q);;
        upd_proc j (λ q, set_name (safestrcpy (p_name q) (p_name p) 16) q);;
        pid ← gets (λ s, p_pid (pt_procs s !!! j));
        acquire c PTLOCK;;
        upd_proc j (set_state RUNNABLE);;
        release c PTLOCK;;
        mret pid
    end.

Definition fork (c : nat) : M (ptable E) Z :=
  i ← curproc c;
  np ← allocproc c;
  match np with
  | None => mret (-1)
  | Some j => fork_fill c i j
  end.

(** Up to the [swtch] to the CPU's scheduler; [k] is the return address that
    the switch saves on the process's stack. *)
Definition sched (c : nat) (k : caller) : M (ptable E) unit :=
  i ← curproc c;
  h ← onmach (holding c PTLOCK);
  u ← gets (λ s, cpus (pt_mach s) !!! c);
  p ← the_proc i;
  if negb h then panic "sched ptable.lock"
  else if negb (c_ncli u =? 1) then panic "sched locks"
  else if is_state RUNNING p then panic "sched running"
  else if c_if u then panic "sched interruptible"
  else upd_proc i (set_context (CtxSched k (c_intena u))).

Definition yield (c : nat) : M (ptable E) unit :=
  acquire c PTLOCK;;
  i ← curproc c;
  upd_proc i (set_state RUNNABLE);;
  sched c InYield.

(** [sleep(chan, lk)] up to the switch. *)
Definition sleep (c : nat) (ch : option chan) (lk : nat) : M (ptable E) unit :=
  p ← myproc c;
  match p with
  | None => panic "sleep"
  | Some i =>
      (if bool_decide (lk = PTLOCK) then mret tt
       else acquire c PTLOCK;; release c lk);;
      upd_proc i (set_chan ch);;
      upd_proc i (set_state SLEEPING);;
      sched c (InSleep lk)
  end.

Definition wakeup1 (ch : option chan) (ps : list proc) : list proc :=
  (λ p, if is_state SLEEPING p && bool_decide (p_chan p = ch) then set_state RUNNABLE p else p) <$> ps.

Definition wakeup (c : nat) (ch : chan) : M (ptable E) unit :=
  acquire c PTLOCK;;
  modify (λ s, set_procs (wakeup1 (Some ch) (pt_procs s)) s);;
  release c PTLOCK.

Definition kill (c : nat) (pid : Z) : M (ptable E) Z :=
  acquire c PTLOCK;;
  r ← gets (λ s, find_from (λ p, p_pid p =? pid) 0 (pt_procs s));
  match r with
  | Some i =>
      upd_proc i (set_killed true);;
      upd_proc i (λ p, if is_state SLEEPING p then set_state RUNNABLE p else p);;
      release c PTLOCK;;
      mret 0
  | None => release c PTLOCK;; mret (-1)
  end.

(** The descriptor [fd] of process [i], closed. *)
Definition close_ofile (i : nat) (fd : Z) : M (ptable E) unit :=
  p ← the_proc i;
  match p_ofile p !!! Z.to_nat fd with
  | Some f =>
      ext (op_fileclose f);;
      upd_proc i (λ q, set_files (<[Z.to_nat fd:=None]> (p_ofile q)) (p_cwd q) q)
  | None => mret tt
  end.

(** The loop of [exit] over [n] slots from [j] on: the children of [me] go to
    [init], which is woken for a zombie. *)
Fixpoint pass_children (n j me : nat) (init : option nat) (ps : list proc) : list proc :=
  match n with
  | O => ps
  | Datatypes.S n' =>
      pass_children n' (Datatypes.S j) me init
        (if bool_decide (p_parent (ps !!! j) = Some me) then
           let ps' := alter (set_parent init) j ps in
           if is_state ZOMBIE (ps !!! j) then wakeup1 (ChanProc <$> init) ps' else ps'
         else ps)
  end.

(** [exit] before it takes the lock: files and the current directory. *)
Definition exit_files (i : nat) : M (ptable E) unit :=
  for_range NOFILE 0 (close_ofile i);;
  ext op_begin_op;;
  p ← the_proc i;
  match p_cwd p with None => undef | Some ip => ext (op_iput ip) end;;
  ext op_end_op;;
  upd_proc i (λ q, set_files (p_ofile q) None q).

(** The rest, up to the switch from which the process does not come back. *)
Definition exit_tail (c i : nat) (ini : option nat) : M (ptable E) unit :=
  acquire c PTLOCK;;
  p ← the_proc i;
  modify (λ s, set_procs (wakeup1 (ChanProc <$> p_parent p) (pt_procs s)) s);;
  modify (λ s, set_procs (pass_children NPROC 0 i ini (pt_procs s)) s);;
  upd_proc i (set_state ZOMBIE);;
  sched c InExit.

Definition exit (c : nat) : M (ptable E) unit :=
  i ← curproc c;
  ini ← gets pt_init;
  if bool_decide (Some i = ini) then panic "init exiting"
  else exit_files i;; exit_tail c i ini.

(** The fields [wait] clears; it leaves the others. *)
Definition clear_slot (p : proc) : proc :=
  set_state UNUSED (set_killed false (set_name (<[0%nat:=0]> (p_name p)) (set_parent None (set_pid 0 p)))).

(** The scan of [wait] over [n] slots from [j] on: the pid of the zombie it
    freed, or whether it has seen a child. *)
Fixpoint wait_scan (n j me : nat) (havekids : bool) : M (ptable E) (Z + bool) :=
  match n with
  | O => mret (inr havekids)
  | Datatypes.S n' =>
      p ← the_proc j;
      if negb (bool_decide (p_parent p = Some me)) then wait_scan n' (Datatypes.S j) me havekids
      else if is_state ZOMBIE p then
        ext (op_kfree (p_kstack p));;
        upd_proc j (set_kstack 0);;
        ext (op_freevm (p_pgdir p));;
        upd_proc j clear_slot;;
        mret (inl (p_pid p))
      else wait_scan n' (Datatypes.S j) me true
  end.

(** One turn of the loop of [wait], with the lock held; [None] when the
    process went to sleep, after which it takes another turn. *)
Definition wait_turn (c : nat) : M (ptable E) (option Z) :=
  i ← curproc c;
  r ← wait_scan NPROC 0 i false;
  match r with
  | inl pid => release c PTLOCK;; mret (Some pid)
  | inr havekids =>
      p ← the_proc i;
      if negb havekids || p_killed p then release c PTLOCK;; mret (Some (-1))
      else sleep c (Some (ChanProc i)) PTLOCK;; mret None
  end.

Definition wait (c : nat) : M (ptable E) (option Z) :=
  curproc c;;
  acquire c PTLOCK;;
  wait_turn c.

(** *** The scheduler *)

(** The end of a process's turn on the CPU: [swtch] has returned to the scheduler. *)
Definition scheduler_back (c : nat) : M (ptable E) unit :=
  switchkvm c;;
  upd_cpu c (λ u, mkcpust None (u_cr3 u)).

(** The scan of the table from slot [from], the lock held: up to the switch
    to the process found, or to the end of the round. *)
Definition scheduler_scan (c from : nat) : M (ptable E) (option nat) :=
  r ← gets (λ s, find_from (is_state RUNNABLE) from (pt_procs s));
  match r with
  | Some i =>
      upd_cpu c (λ u, mkcpust (Some i) (u_cr3 u));;
      switchuvm c i;;
      upd_proc i (set_state RUNNING);;
      mret (Some i)
  | None => release c PTLOCK;; mret None
  end.

Definition sti (c : nat) : M (ptable E) unit :=
  modify (λ s, let u := cpus (pt_mach s) !!! c in
    set_mach (set_cpu c (mkcpu true (c_ncli u) (c_intena u)) (pt_mach s)) s).

(** A round from its start. *)
Definition scheduler_round (c : nat) : M (ptable E) (option nat) :=
  sti c;;
  acquire c PTLOCK;;
  scheduler_scan c 0.

Definition forkret (c : nat) : M (ptable E) unit :=
  release c PTLOCK;;
  first ← gets pt_first;
  if (first : bool) then modify (set_first false);; ext op_fsinit else mret tt.

(** What a process does when it is switched to: [sched] restores [intena] and
    returns to its caller.  Back in [sleep] from [wait] it still has the lock. *)
Definition resume (c : nat) : M (ptable E) unit :=
  i ← curproc c;
  p ← the_proc i;
  match p_context p with
  | CtxForkret => forkret c
  | CtxSched k b =>
      modify (λ s, let u := cpus (pt_mach s) !!! c in
        set_mach (set_cpu c (mkcpu (c_if u) (c_ncli u) b) (pt_mach s)) s);;
      match k with
      | InYield => release c PTLOCK
      | InSleep lk =>
          upd_proc i (set_chan None);;
          if bool_decide (lk = PTLOCK) then mret tt
          else release c PTLOCK;; acquire c lk
      | InExit => panic "zombie exit"
      end
  end.
End proc.
