(* ===== verification/ProcInv.v ===== *)
(** * The process table under all schedules

    CPUs run the scheduler and the kernel code of processes on the shared
    process table; a step is what one CPU does in one critical section of
    ptable.lock, with the unlocked code next to it.  The invariant of all
    reachable states ties the table to the CPUs, to the lock (through the
    invariant of spinlock.c) and to the process tree. *)

From stdpp Require Import functions.
From S2P Require Import Prelude Params Mmu Str Spinlock Proc.

(** ** The lock layer *)

Section locks.
Context (n nl : nat).

(** [hd c]: the locks CPU [c] holds; none spins. *)
Definition mach_ok (hd : nat → list nat) (m : mach) : Prop :=
  length (cpus m) = n ∧ length (locks m) = nl ∧
  ∃ ex sp w, (∀ c, ex c = O) ∧ (∀ c, sp c = None) ∧ inv (mksys m hd ex sp w).

Lemma mach_ok_ext hd hd' m : (∀ c, hd c = hd' c) → mach_ok hd m → mach_ok hd' m.
Proof.
  intros E (Hn&Hl&ex&sp&w&He&Hs&I). split_and!; [done..|]. exists ex, sp, w. split_and!; [done..|].
  destruct I as [I1 I2 I3 I4 I5 I6]. cbn in *. split; cbn; intros.
  - rewrite <- E. by apply I1.
  - rewrite <- E. by apply I2.
  - rewrite <- E. apply I3.
  - pose proof (I4 _ _ H) as Ho. destruct (lk_locked lk); [|done]. by setoid_rewrite <- E.
  - apply I5. by rewrite E.
  - rewrite <- E. by apply I6.
Qed.

Lemma mach_cpu hd m c : mach_ok hd m → (c < n)%nat →
  ∃ u w, cpus m !! c = Some u ∧ cpu_ok (length (hd c)) w u.
Proof.
  intros (Hn&Hl&ex&sp&w&He&Hs&I) Hc. destruct (inv_lookup_cpu _ _ _ _ _ I c ltac:(lia)) as (u&Hu&Hok).
  exists u, (w c). split; [done|]. rewrite He, Hs in Hok. unfold depth in Hok. by rewrite !Nat.add_0_r in Hok.
Qed.

Lemma mach_set_cpu hd m c u w : mach_ok hd m → (c < n)%nat → cpu_ok (length (hd c)) w u →
  mach_ok hd (set_cpu c u m).
Proof.
  intros (Hn&Hl&ex&sp&w'&He&Hs&I) Hc Hok. split_and!; [by cbn; rewrite length_insert|done|].
  exists ex, sp, (<[c:=w]> w'). split_and!; [done..|].
  destruct (lookup_lt_is_Some_2 (cpus m) c ltac:(lia)) as [u0 Hu].
  eapply inv_cpu_only; [exact I|exact Hu|done|done| | |by rewrite Hs].
  - intros j Hj. by rewrite fn_lookup_insert_ne.
  - rewrite fn_lookup_insert, He, Hs. unfold depth. by rewrite !Nat.add_0_r.
Qed.

Lemma mach_owned hd m c l : mach_ok hd m → l ∈ hd c → owned_by c (locks m !!! l) = true.
Proof. intros (_&_&ex&sp&w&_&_&I) Hl. by eapply inv_owned. Qed.

Lemma mach_not_owned hd m c l : mach_ok hd m → (l < nl)%nat → l ∉ hd c → owned_by c (locks m !!! l) = false.
Proof. intros (_&<-&ex&sp&w&_&_&I) Hlt Hl. by eapply inv_not_owned. Qed.

(** Taking a lock that no CPU holds; else the CPU spins. *)
Lemma mach_acquire hd m c l : mach_ok hd m → (c < n)%nat → (l < nl)%nat → l ∉ hd c →
  ∃ m1, acquire_enter c l m = Done tt m1 ∧
    ((acquire_xchg c l m1 = Done true m1 ∧ ∃ j, l ∈ hd j) ∨
     ∃ m2, acquire_xchg c l m1 = Done false m2 ∧ mach_ok (<[c:=l :: hd c]> hd) m2 ∧ ∀ j, l ∉ hd j).
Proof.
  intros Hm Hc Hl Hn. destruct (mach_cpu hd m c Hm Hc) as (u&w0&Hu&Hok).
  pose proof (run_acquire_enter c l m u _ _ Hu Hok) as R. rewrite (mach_not_owned hd) in R by done.
  destruct R as (u'&R&Hok'). exists (set_cpu c u' m). split; [done|].
  destruct Hm as (Hcn&Hln&ex&sp&w&He&Hs&I).
  pose proof (inv_enter _ _ _ _ _ I c l _ ltac:(lia) ltac:(lia) (Hs c) Hn R) as I1.
  unfold acquire_xchg at 1 2. cbn [locks set_cpu].
  destruct (lookup_lt_is_Some_2 (locks m) l ltac:(lia)) as [lk El].
  rewrite (list_lookup_total_correct _ _ _ El). pose proof (inv_owner _ I l lk El) as Ho.
  destruct (lk_locked lk) eqn:Ek.
  - left. split; [done|]. destruct Ho as (j&_&Hj). by exists j.
  - right. eexists. split; [done|]. split.
    + split_and!; [by cbn; rewrite length_insert|by cbn; rewrite length_insert|].
      eexists ex, _, w. split_and!; [done| |].
      2:{ eapply (inv_got _ _ _ _ _ I1 c l); [by rewrite fn_lookup_insert|].
          unfold acquire_xchg. cbn [locks set_cpu]. by rewrite (list_lookup_total_correct _ _ _ El), Ek. }
      intros j. destruct (decide (j = c)) as [->|]; [by rewrite fn_lookup_insert|].
      by rewrite !fn_lookup_insert_ne.
    + intros j Hj. apply (inv_held _ I) in Hj. cbn in Hj. rewrite El in Hj. by injection Hj as ->.
Qed.

Lemma mach_release hd m c l l1 l2 : mach_ok hd m → (c < n)%nat → hd c = l1 ++ l :: l2 →
  ∃ m', release_lock c l m = Done tt m' ∧ mach_ok (<[c:=l1 ++ l2]> hd) m'.
Proof.
  intros Hm Hc Eh. destruct (mach_cpu hd m c Hm Hc) as (u&w0&Hu&Hok).
  assert (length (hd c) = S (length (l1 ++ l2))) as El by (rewrite Eh, !length_app; simpl; lia).
  rewrite El in Hok. pose proof (run_release c l m u _ _ Hu Hok) as R.
  rewrite (mach_owned hd) in R; [|done|rewrite Eh; set_solver].
  destruct R as (u'&R&_). eexists. split; [done|]. destruct Hm as (Hcn&Hln&ex&sp&w&He&Hs&I).
  split_and!; [by cbn; rewrite length_insert|by cbn; rewrite length_insert|].
  exists ex, sp, w. split_and!; [done..|]. by eapply (inv_release _ _ _ _ _ I c l1 l l2).
Qed.

Lemma mach_pushpop hd m c : mach_ok hd m → (c < n)%nat →
  ∃ m1 m2, pushcli c m = Done tt m1 ∧ popcli c m1 = Done tt m2 ∧ mach_ok hd m2.
Proof.
  intros Hm Hc. destruct (mach_cpu hd m c Hm Hc) as (u&w&Hu&Hok).
  exists (set_cpu c (pushed u) m), (set_cpu c (popped (pushed u)) m). split_and!.
  - by apply run_pushcli.
  - rewrite (run_popcli c _ (pushed u) (length (hd c)) w); [by rewrite set_cpu_set|by eapply set_cpu_lookup|by apply pushed_ok].
  - by eapply mach_set_cpu; [..|apply popped_ok, pushed_ok].
Qed.

Lemma mach_holding hd m c l : mach_ok hd m → (c < n)%nat →
  ∃ m', holding c l m = Done (owned_by c (locks m !!! l)) m' ∧ mach_ok hd m'.
Proof.
  intros Hm Hc. destruct (mach_cpu hd m c Hm Hc) as (u&w&Hu&Hok).
  destruct (run_holding c l m u _ _ Hu Hok) as (u'&R&Hok'). eexists. split; [done|]. by eapply mach_set_cpu.
Qed.
End locks.

(** ** The operations *)

Section ops.
Context {E : Type} `{ProcOps E} (n nl : nat) (safe : bool).
Implicit Types s : ptable E.
Abbreviation mach_ok := (mach_ok n nl).

Lemma onmach_done {A} (op : M mach A) (Q : A → ptable E → Prop) s a m' :
  op (pt_mach s) = Done a m' → Q a (set_mach m' s) → wlp safe (onmach op) Q s.
Proof. intros E1 HQ. unfold wlp, onmach, zoom. by rewrite E1. Qed.

Lemma wlp_ext {A} (op : M E A) (Q : A → ptable E → Prop) s :
  safe = false → (∀ a e, Q a (set_ext e s)) → wlp safe (ext op) Q s.
Proof. intros Hs HQ. unfold wlp, ext, zoom. by destruct (op (pt_ext s)). Qed.

Lemma wlp_acquire c l (Q : unit → ptable E → Prop) hd s :
  mach_ok hd (pt_mach s) → (c < n)%nat → (l < nl)%nat → l ∉ hd c →
  (∀ m', mach_ok (<[c:=l :: hd c]> hd) m' → (∀ j, l ∉ hd j) → Q tt (set_mach m' s)) →
  wlp safe (acquire c l) Q s.
Proof.
  intros Hm Hc Hl Hn HQ. destruct (mach_acquire n nl hd _ c l Hm Hc Hl Hn) as (m1&E1&[(E2&_)|(m2&E2&Hm2&Hf)]);
    unfold acquire; apply wlp_bind; (eapply onmach_done; [exact E1|]); apply wlp_bind;
    (eapply onmach_done; [exact E2|]); cbn.
  - done.
  - by apply HQ.
Qed.

Lemma wlp_release c l l1 l2 (Q : unit → ptable E → Prop) hd s :
  mach_ok hd (pt_mach s) → (c < n)%nat → hd c = l1 ++ l :: l2 →
  (∀ m', mach_ok (<[c:=l1 ++ l2]> hd) m' → Q tt (set_mach m' s)) →
  wlp safe (release c l) Q s.
Proof.
  intros Hm Hc Eh HQ. destruct (mach_release n nl hd _ c l l1 l2 Hm Hc Eh) as (m'&E1&Hm').
  eapply onmach_done; [exact E1|]. by apply HQ.
Qed.

Lemma wlp_myproc c (Q : option nat → ptable E → Prop) hd s :
  mach_ok hd (pt_mach s) → (c < n)%nat →
  (∀ m', mach_ok hd m' → Q (u_proc (pt_cpus s !!! c)) (set_mach m' s)) → wlp safe (myproc c) Q s.
Proof.
  intros Hm Hc HQ. destruct (mach_pushpop n nl hd _ c Hm Hc) as (m1&m2&E1&E2&Hm2). unfold myproc.
  apply wlp_bind. eapply onmach_done; [exact E1|]. wlp_steps. eapply onmach_done; [exact E2|]. apply wlp_ret.
  by apply HQ.
Qed.

Lemma wlp_curproc c i (Q : nat → ptable E → Prop) hd s :
  mach_ok hd (pt_mach s) → (c < n)%nat → u_proc (pt_cpus s !!! c) = Some i →
  (∀ m', mach_ok hd m' → Q i (set_mach m' s)) → wlp safe (curproc c) Q s.
Proof.
  intros Hm Hc Hu HQ. unfold curproc. apply wlp_bind. eapply wlp_myproc; [done..|]. intros m' Hm'.
  rewrite Hu. by apply HQ.
Qed.

(** The four checks of [sched] hold for a CPU that holds only ptable.lock. *)
Lemma wlp_sched c k i (Q : unit → ptable E → Prop) hd s :
  mach_ok hd (pt_mach s) → (c < n)%nat → u_proc (pt_cpus s !!! c) = Some i → hd c = [PTLOCK] →
  p_state (pt_procs s !!! i) ≠ RUNNING →
  (∀ m' b, mach_ok hd m' →
     Q tt (set_procs (alter (set_context (CtxSched k b)) i (pt_procs s)) (set_mach m' s))) →
  wlp safe (sched c k) Q s.
Proof.
  intros Hm Hc Hu Hh Hst HQ. unfold sched. apply wlp_bind. eapply wlp_curproc; [done..|]. intros m1 Hm1.
  destruct (mach_holding n nl hd m1 c PTLOCK Hm1 Hc) as (m2&E2&Hm2). apply wlp_bind.
  eapply onmach_done; [exact E2|]. rewrite (mach_owned n nl hd) by (done || (rewrite Hh; set_solver)).
  unfold the_proc. wlp_steps. cbn [negb pt_mach set_mach pt_procs].
  destruct (mach_cpu n nl hd m2 c Hm2 Hc) as (u&w&Hu2&Hok). rewrite Hh in Hok. destruct Hok as [Hn [Hf _]].
  rewrite (list_lookup_total_correct _ _ _ Hu2), Hn, Hf. cbn. unfold is_state.
  rewrite bool_decide_eq_false_2 by done. by apply HQ.
Qed.

Lemma wlp_switchuvm c i (Q : unit → ptable E → Prop) hd s :
  mach_ok hd (pt_mach s) → (c < n)%nat → p_kstack (pt_procs s !!! i) ≠ 0 → p_pgdir (pt_procs s !!! i) ≠ 0 →
  (∀ m', mach_ok hd m' →
     Q tt (set_cpus (alter (λ u, mkcpust (u_proc u) (Some (p_pgdir (pt_procs s !!! i)))) c (pt_cpus s)) (set_mach m' s))) →
  wlp safe (switchuvm c i) Q s.
Proof.
  intros Hm Hc Hk Hd HQ. unfold switchuvm, the_proc, upd_cpu. wlp_steps.
  rewrite (proj2 (Z.eqb_neq _ _) Hk), (proj2 (Z.eqb_neq _ _) Hd).
  destruct (mach_pushpop n nl hd _ c Hm Hc) as (m1&m2&E1&E2&Hm2).
  apply wlp_bind. eapply onmach_done; [exact E1|]. wlp_steps. eapply onmach_done; [exact E2|]. exact (HQ m2 Hm2).
Qed.
End ops.

(** ** The invariant *)

(** What a CPU is doing: in the scheduler between rounds; back in it from
    process [i], the lock held; just switched to process [i], the lock held;
    running process [i]; that and filling slot [j] in [fork]; at the head of
    the loop of [wait], the lock held. *)
Inductive ctl := Idle | Off (i : nat) | Resuming (i : nat) | Running (i : nat) | Forking (i j : nat) | InWait (i : nat).

Definition locked (k : ctl) : bool :=
  match k with Off _ | Resuming _ | InWait _ => true | _ => false end.
Definition hd_of (k : nat → ctl) (c : nat) : list nat := if locked (k c) then [PTLOCK] else [].
(** The [proc] of the CPU. *)
Definition on_cpu (k : ctl) : option nat :=
  match k with Idle => None | Off i | Resuming i | Running i | Forking i _ | InWait i => Some i end.
(** The process whose code it runs. *)
Definition active (k : ctl) : option nat :=
  match k with Idle | Off _ => None | Resuming i | Running i | Forking i _ | InWait i => Some i end.

Definition alive (v : procstate) : bool :=
  match v with SLEEPING | RUNNABLE | RUNNING => true | _ => false end.
Definition started (v : procstate) : bool := match v with UNUSED | EMBRYO => false | _ => true end.

(** Pids and the process tree. *)
Record tree (ini : nat) (np : Z) (ps : list proc) : Prop := {
  t_len : length ps = NPROC;
  t_np : 0 < np < 2 ^ 31;
  t_ini : ∃ p, ps !! ini = Some p ∧ alive (p_state p) = true;
  t_pid i p : ps !! i = Some p → p_state p ≠ UNUSED → 0 < p_pid p < np;
  t_distinct i j p q : ps !! i = Some p → ps !! j = Some q → p_state p ≠ UNUSED → p_state q ≠ UNUSED →
    p_pid p = p_pid q → i = j;
  t_fresh i p : ps !! i = Some p → started (p_state p) = false → p_parent p = None;
  t_mem i p : ps !! i = Some p → started (p_state p) = true → p_kstack p ≠ 0 ∧ p_pgdir p ≠ 0;
  t_parent i p : ps !! i = Some p → started (p_state p) = true → i ≠ ini →
    ∃ q pq, p_parent p = Some q ∧ ps !! q = Some pq ∧ alive (p_state pq) = true;
  t_root p : ps !! ini = Some p → p_parent p = None;
  t_self i p : ps !! i = Some p → p_parent p ≠ Some i
}.

(** A process asleep in [wait] has no zombie child. *)
Definition wait_ok (ps : list proc) : Prop := ∀ i p q,
  ps !! i = Some p → p_state p = SLEEPING → p_chan p = Some (ChanProc q) →
  q = i ∧ ∀ j pj, ps !! j = Some pj → p_parent pj = Some i → p_state pj ≠ ZOMBIE.

(** Where a process that is not running goes on. *)
Definition ctx_ok (nl : nat) (x : context) : Prop :=
  match x with
  | CtxForkret | CtxSched InYield _ => True
  | CtxSched (InSleep lk) _ => (lk < nl)%nat
  | CtxSched InExit _ => False
  end.

(** The table and the CPUs. *)
Record onto (nl : nat) (k : nat → ctl) (ps : list proc) : Prop := {
  o_run c i : active (k c) = Some i → ∃ p, ps !! i = Some p ∧ p_state p = RUNNING;
  o_uniq c c' i : active (k c) = Some i → active (k c') = Some i → c = c';
  o_on i p : ps !! i = Some p → p_state p = RUNNING → ∃ c, active (k c) = Some i;
  o_fork c i j : k c = Forking i j → ∃ p, ps !! j = Some p ∧ p_state p = EMBRYO ∧ p_kstack p ≠ 0 ∧ ctx_ok nl (p_context p);
  o_funiq c c' i i' j : k c = Forking i j → k c' = Forking i' j → c = c';
  o_emb i p : ps !! i = Some p → p_state p = EMBRYO → ∃ c i', k c = Forking i' i;
  o_ctx i p : ps !! i = Some p → p_state p = SLEEPING ∨ p_state p = RUNNABLE → ctx_ok nl (p_context p);
  o_res c i p : k c = Resuming i → ps !! i = Some p → ctx_ok nl (p_context p);
  o_off c i : k c = Off i → (i < NPROC)%nat
}.

Definition psys (E : Type) : Type := ptable E * (nat → ctl).

Record pinv {E} (n nl ini : nat) (s : ptable E) (k : nat → ctl) : Prop := {
  pi_mach : mach_ok n nl (hd_of k) (pt_mach s);
  pi_cpus : length (pt_cpus s) = n;
  pi_out c : (n ≤ c)%nat → k c = Idle;
  pi_proc c : (c < n)%nat → u_proc (pt_cpus s !!! c) = on_cpu (k c);
  pi_init : pt_init s = Some ini;
  pi_tree : tree ini (pt_nextpid s) (pt_procs s);
  pi_wait : wait_ok (pt_procs s);
  pi_onto : onto nl k (pt_procs s)
}.

(** ** Changes of the table that keep the tree *)

(** Same pid, parent and stage of life. *)
Record alike (p p' : proc) : Prop := {
  al_pid : p_pid p' = p_pid p;
  al_parent : p_parent p' = p_parent p;
  al_alive : alive (p_state p') = alive (p_state p);
  al_state : alive (p_state p) = false → p_state p' = p_state p;
  al_mem : started (p_state p) = true → p_kstack p ≠ 0 ∧ p_pgdir p ≠ 0 → p_kstack p' ≠ 0 ∧ p_pgdir p' ≠ 0
}.
Definition alike_tab (ps ps' : list proc) : Prop := ∀ j, option_Forall2 alike (ps !! j) (ps' !! j).

Lemma alike_refl p : alike p p.
Proof. by split. Qed.

Lemma alike_started p p' : alike p p' → started (p_state p') = started (p_state p).
Proof.
  intros [A1 A2 A3 A4 A5]. destruct (alive (p_state p)) eqn:Ea; [|by rewrite A4].
  destruct (p_state p), (p_state p'); done.
Qed.

Lemma alike_unused p p' : alike p p' → p_state p' ≠ UNUSED → p_state p ≠ UNUSED.
Proof. intros A Hn Eu. apply Hn. by rewrite (al_state _ _ A) by (by rewrite Eu). Qed.

Lemma alike_trans p1 p2 p3 : alike p1 p2 → alike p2 p3 → alike p1 p3.
Proof.
  intros A [B1 B2 B3 B4 B5]. pose proof (alike_started _ _ A) as Es. destruct A as [A1 A2 A3 A4 A5].
  split; [congruence..| |].
  - intros Ha. rewrite B4; [by apply A4|congruence].
  - intros Hs Hm. apply B5; [congruence|]. by apply A5.
Qed.

Lemma alike_tab_trans ps1 ps2 ps3 : alike_tab ps1 ps2 → alike_tab ps2 ps3 → alike_tab ps1 ps3.
Proof.
  intros H1 H2 j. specialize (H1 j). specialize (H2 j).
  destruct H1 as [p1 p2 H1|]; inversion H2 as [? p3 H3|]; subst; constructor. by eapply alike_trans.
Qed.

Lemma alike_alter f i ps : (∀ p, ps !! i = Some p → alike p (f p)) → alike_tab ps (alter f i ps).
Proof.
  intros Hf j. destruct (decide (i = j)) as [<-|Hj].
  - rewrite list_lookup_alter_eq. destruct (ps !! i) eqn:Ei; constructor. by apply Hf.
  - rewrite list_lookup_alter_ne by done. destruct (ps !! j); constructor. apply alike_refl.
Qed.

Lemma alike_wakeup1 ch ps : alike_tab ps (wakeup1 ch ps).
Proof.
  intros j. unfold wakeup1. rewrite list_lookup_fmap. destruct (ps !! j) as [p|]; constructor.
  destruct (is_state SLEEPING p && _) eqn:Ew; [|apply alike_refl].
  apply andb_prop in Ew as [Ew%bool_decide_eq_true _]. by split; cbn; rewrite ?Ew.
Qed.

Lemma alike_lookup ps ps' j p' : alike_tab ps ps' → ps' !! j = Some p' → ∃ p, ps !! j = Some p ∧ alike p p'.
Proof. intros A E. specialize (A j). rewrite E in A. inversion A; subst. eauto. Qed.

Lemma alike_lookup_r ps ps' j p : alike_tab ps ps' → ps !! j = Some p → ∃ p', ps' !! j = Some p' ∧ alike p p'.
Proof. intros A E. specialize (A j). rewrite E in A. inversion A; subst. eauto. Qed.

Lemma alike_length ps ps' : alike_tab ps ps' → length ps' = length ps.
Proof.
  intros A. apply Nat.le_antisymm; apply Nat.nlt_ge; intros Hlt;
    apply lookup_lt_is_Some_2 in Hlt as [p Hp]; [destruct (alike_lookup _ _ _ _ A Hp) as (q&Hq&_)
      |destruct (alike_lookup_r _ _ _ _ A Hp) as (q&Hq&_)]; apply lookup_lt_Some in Hq; lia.
Qed.

Lemma tree_alike ini np ps ps' : alike_tab ps ps' → tree ini np ps → tree ini np ps'.
Proof.
  intros A [T1 T2 T3 T4 T5 T6 T7 T8 T9 T10]. split.
  - by rewrite (alike_length _ _ A).
  - done.
  - destruct T3 as (p&Hp&Ha). destruct (alike_lookup_r _ _ _ _ A Hp) as (p'&Hp'&L). exists p'.
    by rewrite (al_alive _ _ L).
  - intros i p' Hp' Hu. destruct (alike_lookup _ _ _ _ A Hp') as (p&Hp&L). rewrite (al_pid _ _ L).
    eapply T4; [done|]. by eapply alike_unused.
  - intros i j p' q' Hp' Hq' Hu Hv. destruct (alike_lookup _ _ _ _ A Hp') as (p&Hp&L).
    destruct (alike_lookup _ _ _ _ A Hq') as (q&Hq&L'). rewrite (al_pid _ _ L), (al_pid _ _ L').
    apply (T5 i j p q); [done|done|by eapply alike_unused..].
  - intros i p' Hp' Hs. destruct (alike_lookup _ _ _ _ A Hp') as (p&Hp&L). rewrite (alike_started _ _ L) in Hs.
    rewrite (al_parent _ _ L). by eapply T6.
  - intros i p' Hp' Hs. destruct (alike_lookup _ _ _ _ A Hp') as (p&Hp&L). rewrite (alike_started _ _ L) in Hs.
    apply (al_mem _ _ L Hs). by eapply T7.
  - intros i p' Hp' Hs Hi. destruct (alike_lookup _ _ _ _ A Hp') as (p&Hp&L). rewrite (alike_started _ _ L) in Hs.
    destruct (T8 i p Hp Hs Hi) as (q&pq&E1&E2&E3). destruct (alike_lookup_r _ _ _ _ A E2) as (pq'&E2'&L').
    exists q, pq'. by rewrite (al_parent _ _ L), (al_alive _ _ L').
  - intros p' Hp'. destruct (alike_lookup _ _ _ _ A Hp') as (p&Hp&L). rewrite (al_parent _ _ L). by eapply T9.
  - intros i p' Hp'. destruct (alike_lookup _ _ _ _ A Hp') as (p&Hp&L). rewrite (al_parent _ _ L). by eapply T10.
Qed.

Lemma alike_zombie p p' : alike p p' → p_state p' = ZOMBIE → p_state p = ZOMBIE.
Proof.
  intros L Ez. pose proof (al_alive _ _ L) as Ha. rewrite Ez in Ha. by rewrite <- (al_state _ _ L) by done.
Qed.

(** A change of the table that puts no process to sleep on a process. *)
Lemma wait_alike ps ps' : alike_tab ps ps' →
  (∀ j p p' q, ps !! j = Some p → ps' !! j = Some p' → p_state p' = SLEEPING → p_chan p' = Some (ChanProc q) →
     p_state p = SLEEPING ∧ p_chan p = p_chan p') →
  wait_ok ps → wait_ok ps'.
Proof.
  intros A Hs W i p' q Hp' Es Ec. destruct (alike_lookup _ _ _ _ A Hp') as (p&Hp&L).
  destruct (Hs i p p' q Hp Hp' Es Ec) as [Es' Ec']. destruct (W i p q Hp Es' ltac:(congruence)) as [Hq Hz].
  split; [done|]. intros j pj' Hj' Ej Ez. destruct (alike_lookup _ _ _ _ A Hj') as (pj&Hj&Lj).
  apply (Hz j pj Hj); [by rewrite <- (al_parent _ _ Lj)|by eapply alike_zombie].
Qed.

Lemma wait_alter f i p ps : ps !! i = Some p → alike p (f p) →
  (∀ q, p_state (f p) = SLEEPING → p_chan (f p) = Some (ChanProc q) → p_state p = SLEEPING ∧ p_chan p = p_chan (f p)) →
  wait_ok ps → wait_ok (alter f i ps).
Proof.
  intros Hp L Hs. apply wait_alike.
  - apply alike_alter. intros q Hq. by simplify_eq.
  - intros j q q' r Hj Hj' Es Ec. destruct (decide (i = j)) as [<-|Hne].
    + rewrite list_lookup_alter_eq, Hp in Hj'. injection Hj' as <-. simplify_eq. by eapply Hs.
    + rewrite list_lookup_alter_ne in Hj' by done. by simplify_eq.
Qed.

(** A process goes to sleep in [wait] without a zombie child. *)
Lemma wait_sleep f i ps : (∀ p, ps !! i = Some p → alike p (f p) ∧ p_state (f p) = SLEEPING ∧ p_chan (f p) = Some (ChanProc i)) →
  (∀ j pj, ps !! j = Some pj → p_parent pj = Some i → p_state pj ≠ ZOMBIE) →
  wait_ok ps → wait_ok (alter f i ps).
Proof.
  intros Hf Hz W j p' q Hp' Es Ec.
  assert (alike_tab ps (alter f i ps)) as A by (apply alike_alter; intros p Hp; by apply Hf).
  assert (Hnz : ∀ i', (∀ j pj, ps !! j = Some pj → p_parent pj = Some i' → p_state pj ≠ ZOMBIE) →
    ∀ j pj, alter f i ps !! j = Some pj → p_parent pj = Some i' → p_state pj ≠ ZOMBIE).
  { intros i' Hi' j' pj' Hj' Ej Ez. destruct (alike_lookup _ _ _ _ A Hj') as (pj&Hj&Lj).
    apply (Hi' j' pj Hj); [by rewrite <- (al_parent _ _ Lj)|by eapply alike_zombie]. }
  destruct (decide (i = j)) as [<-|Hj].
  - rewrite list_lookup_alter_eq in Hp'. destruct (ps !! i) as [p|] eqn:Ep; [|done]. injection Hp' as <-.
    destruct (Hf p eq_refl) as (_&_&Hc). rewrite Hc in Ec. injection Ec as <-. split; [done|by apply Hnz].
  - rewrite list_lookup_alter_ne in Hp' by done. destruct (W j p' q Hp' Es Ec) as [Hq Hz'].
    split; [done|]. by apply Hnz.
Qed.

(** ** Changes of the table and the CPUs *)

(** The slot is [RUNNING] or [EMBRYO] as before, and goes on where it did. *)
Record quiet (p p' : proc) : Prop := {
  qu_run : p_state p' = RUNNING ↔ p_state p = RUNNING;
  qu_emb : p_state p' = EMBRYO ↔ p_state p = EMBRYO;
  qu_kstack : p_state p = EMBRYO → p_kstack p' = p_kstack p;
  qu_off : p_state p' = SLEEPING ∨ p_state p' = RUNNABLE → p_state p = SLEEPING ∨ p_state p = RUNNABLE;
  qu_ctx : p_context p' = p_context p
}.

Lemma quiet_refl p : quiet p p.
Proof. by split. Qed.

Definition not_fork (k : ctl) : Prop := match k with Forking _ _ => False | _ => True end.

Section onto.
Context (nl : nat) (k : nat → ctl) (ps ps' : list proc) (c : nat) (x : ctl) (O : onto nl k ps).
Context (Hkf : not_fork (k c)) (Hxf : not_fork x) (Hoff : ∀ j, x = Off j → (j < NPROC)%nat).

Lemma quiet_lookup j p' : option_Forall2 quiet (ps !! j) (ps' !! j) → ps' !! j = Some p' →
  ∃ p, ps !! j = Some p ∧ quiet p p'.
Proof using. clear. intros A E. rewrite E in A. inversion A; subst. eauto. Qed.

Lemma quiet_lookup_r j p : option_Forall2 quiet (ps !! j) (ps' !! j) → ps !! j = Some p →
  ∃ p', ps' !! j = Some p' ∧ quiet p p'.
Proof using. clear. intros A E. rewrite E in A. inversion A; subst. eauto. Qed.

(** Every CPU runs the same process as before. *)
Lemma onto_same k' : (∀ c', active (k' c') = active (k c')) → (∀ c' a b, k' c' = Forking a b ↔ k c' = Forking a b) →
  (∀ c' j, k' c' = Resuming j → k c' = Resuming j) → (∀ c' j, k' c' = Off j → (j < NPROC)%nat) →
  (∀ j, option_Forall2 quiet (ps !! j) (ps' !! j)) → onto nl k' ps'.
Proof using O.
  intros Ha Hf Hres Ho Hq. destruct O as [O1 O2 O3 O4 O5 O6 O7 O8 O9]. split.
  - intros c' i. rewrite Ha. intros (p&Hp&Er)%O1. destruct (quiet_lookup_r i p (Hq i) Hp) as (p'&Hp'&Q).
    exists p'. by rewrite (qu_run _ _ Q).
  - intros c1 c2 i. rewrite !Ha. apply O2.
  - intros i p' Hp' Er. destruct (quiet_lookup i p' (Hq i) Hp') as (p&Hp&Q). rewrite (qu_run _ _ Q) in Er.
    destruct (O3 i p Hp Er) as [c' Hc']. exists c'. by rewrite Ha.
  - intros c' a b (p&Hp&Ee&Ek&Ex)%Hf%O4. destruct (quiet_lookup_r b p (Hq b) Hp) as (p'&Hp'&Q).
    exists p'. by rewrite (qu_emb _ _ Q), (qu_kstack _ _ Q), (qu_ctx _ _ Q).
  - intros c1 c2 a1 a2 b H1%Hf H2%Hf. by eapply O5.
  - intros i p' Hp' Er. destruct (quiet_lookup i p' (Hq i) Hp') as (p&Hp&Q). rewrite (qu_emb _ _ Q) in Er.
    destruct (O6 i p Hp Er) as (c'&i'&Hc'). exists c', i'. by rewrite Hf.
  - intros i p' Hp' Er. destruct (quiet_lookup i p' (Hq i) Hp') as (p&Hp&Q). rewrite (qu_ctx _ _ Q).
    by eapply O7, (qu_off _ _ Q).
  - intros c' i p' Hk Hp'. destruct (quiet_lookup i p' (Hq i) Hp') as (p&Hp&Q). rewrite (qu_ctx _ _ Q).
    apply (O8 c' i p); [|done]. by apply Hres.
  - done.
Qed.

(** The CPU runs the same process as before. *)
Lemma onto_quiet : active x = active (k c) → (∀ j, x = Resuming j → k c = Resuming j) →
  (∀ j, option_Forall2 quiet (ps !! j) (ps' !! j)) → onto nl (<[c:=x]> k) ps'.
Proof using O Hkf Hxf Hoff.
  intros Hx Hres Hq. apply onto_same; [..|done]; intros c'; (destruct (decide (c = c')) as [<-|];
    [rewrite fn_lookup_insert|rewrite fn_lookup_insert_ne by done]); auto.
  - intros a b. split; intros E; rewrite E in *; done.
  - apply (o_off _ _ _ O).
Qed.

(** The CPU starts or stops running process [i]. *)
Lemma onto_move i p p' : active (k c) = None ∨ active (k c) = Some i → active x = None ∨ active x = Some i →
  ps !! i = Some p → ps' !! i = Some p' → p_state p ≠ EMBRYO → p_state p' ≠ EMBRYO →
  (p_state p = RUNNING ↔ active (k c) = Some i) → (p_state p' = RUNNING ↔ active x = Some i) →
  (p_state p' = SLEEPING ∨ p_state p' = RUNNABLE ∨ x = Resuming i → ctx_ok nl (p_context p')) →
  (∀ j, j ≠ i → option_Forall2 quiet (ps !! j) (ps' !! j)) → onto nl (<[c:=x]> k) ps'.
Proof using O Hkf Hxf Hoff.
  intros Hkc Hxc Hp Hp' He He' Hr Hr' Hctx Hq. destruct O as [O1 O2 O3 O4 O5 O6 O7 O8 O9].
  assert (Hf : ∀ c' a b, <[c:=x]> k c' = Forking a b ↔ k c' = Forking a b).
  { intros c' a b. destruct (decide (c = c')) as [<-|]; [|by rewrite fn_lookup_insert_ne].
    rewrite fn_lookup_insert. split; intros E; rewrite E in *; done. }
  assert (Ho : ∀ c', c ≠ c' → active (k c') ≠ Some i).
  { intros c' Hc' Ea. pose proof Ea as (q&Hq'&Er)%O1. rewrite Hp in Hq'. injection Hq' as <-.
    apply Hc'. eapply O2; [|done]. by apply Hr. }
  split.
  - intros c' i' Ha. destruct (decide (c = c')) as [<-|Hc].
    + rewrite fn_lookup_insert in Ha. destruct Hxc as [E|E]; rewrite E in Ha; [done|]. injection Ha as <-.
      exists p'. split; [done|]. by apply Hr'.
    + rewrite fn_lookup_insert_ne in Ha by done. assert (i' ≠ i) as Hne by (intros ->; by eapply Ho).
      apply O1 in Ha as (q&Hq'&Er). destruct (quiet_lookup_r i' q (Hq i' Hne) Hq') as (q'&Hq''&Q).
      exists q'. by rewrite (qu_run _ _ Q).
  - intros c1 c2 i'. destruct (decide (c = c1)) as [<-|H1], (decide (c = c2)) as [<-|H2]; [done| | |];
      rewrite ?fn_lookup_insert, ?fn_lookup_insert_ne by done; [| |apply O2];
      (destruct Hxc as [E|E]; rewrite E; [naive_solver|]); intros A1 A2; exfalso; simplify_eq; by eapply Ho.
  - intros i' q' Hq' Er. destruct (decide (i' = i)) as [->|Hne].
    + rewrite Hp' in Hq'. injection Hq' as <-. exists c. rewrite fn_lookup_insert. by apply Hr'.
    + destruct (quiet_lookup i' q' (Hq i' Hne) Hq') as (q&Hq''&Q). rewrite (qu_run _ _ Q) in Er.
      destruct (O3 i' q Hq'' Er) as [c' Hc']. exists c'. rewrite fn_lookup_insert_ne; [done|].
      intros <-. rewrite Hc' in Hkc. naive_solver.
  - intros c' a b (q&Hq'&Ee&Ek&Ex)%Hf%O4. assert (b ≠ i) as Hne by naive_solver.
    destruct (quiet_lookup_r b q (Hq b Hne) Hq') as (q'&Hq''&Q). exists q'.
    by rewrite (qu_emb _ _ Q), (qu_kstack _ _ Q), (qu_ctx _ _ Q).
  - intros c1 c2 a1 a2 b H1%Hf H2%Hf. by eapply O5.
  - intros i' q' Hq' Er. assert (i' ≠ i) as Hne by naive_solver.
    destruct (quiet_lookup i' q' (Hq i' Hne) Hq') as (q&Hq''&Q). rewrite (qu_emb _ _ Q) in Er.
    destruct (O6 i' q Hq'' Er) as (c'&a&Hc'). exists c', a. by rewrite Hf.
  - intros i' q' Hq' Er. destruct (decide (i' = i)) as [->|Hne].
    + rewrite Hp' in Hq'. injection Hq' as <-. apply Hctx. tauto.
    + destruct (quiet_lookup i' q' (Hq i' Hne) Hq') as (q&Hq''&Q). rewrite (qu_ctx _ _ Q).
      by eapply O7, (qu_off _ _ Q).
  - intros c' i' q' Hk Hq'. destruct (decide (c = c')) as [<-|Hc].
    + rewrite fn_lookup_insert in Hk. subst x. destruct Hxc as [?|[= ->]]; [done|].
      rewrite Hp' in Hq'. injection Hq' as <-. apply Hctx. tauto.
    + rewrite fn_lookup_insert_ne in Hk by done. assert (i' ≠ i) as Hne.
      { intros ->. apply (Ho c' Hc). by rewrite Hk. }
      destruct (quiet_lookup i' q' (Hq i' Hne) Hq') as (q&Hq''&Q). rewrite (qu_ctx _ _ Q). by eapply O8.
  - intros c' i' Hk. destruct (decide (c = c')) as [<-|].
    + rewrite fn_lookup_insert in Hk. by apply Hoff.
    + rewrite fn_lookup_insert_ne in Hk by done. by eapply O9.
Qed.
End onto.

(** ** Changes of the tree *)

Lemma alter_cases (f : proc → proc) j (ps : list proc) p : ps !! j = Some p →
  ∀ i q, alter f j ps !! i = Some q → i = j ∧ q = f p ∨ i ≠ j ∧ ps !! i = Some q.
Proof.
  intros Hp i q Hq. destruct (decide (i = j)) as [->|]; [left|right].
  - rewrite list_lookup_alter_eq, Hp in Hq. by injection Hq as <-.
  - by rewrite list_lookup_alter_ne in Hq.
Qed.

Lemma alter_alive (f : proc → proc) j (ps : list proc) p : ps !! j = Some p → alive (p_state p) = false →
  ∀ i q, ps !! i = Some q → alive (p_state q) = true → alter f j ps !! i = Some q.
Proof. intros Hp Hz i q Hq Ha. rewrite list_lookup_alter_ne; [done|]. intros ->. simplify_eq. congruence. Qed.

(** A slot is freed: a zombie, or a slot whose [fork] failed. *)
Lemma tree_free ini np ps j p f : tree ini np ps → ps !! j = Some p → alive (p_state p) = false →
  p_state (f p) = UNUSED → p_parent (f p) = None → tree ini np (alter f j ps).
Proof.
  intros [T1 T2 T3 T4 T5 T6 T7 T8 T9 T10] Hp Hz Hu Hn.
  pose proof (alter_cases f j ps p Hp) as Hl.
  pose proof (alter_alive f j ps p Hp ltac:(by rewrite ?Hz)) as Hal.
  split.
  - by rewrite length_alter.
  - done.
  - destruct T3 as (q&Hq&Ha). exists q. split; [by apply Hal|done].
  - intros i q Hq. destruct (Hl _ _ Hq) as [[-> ->]|[? ?]]; [by rewrite Hu|by eapply T4].
  - intros i i' q q' Hq Hq'. destruct (Hl _ _ Hq) as [[-> ->]|[? ?]]; [by rewrite Hu|].
    destruct (Hl _ _ Hq') as [[-> ->]|[? ?]]; [by rewrite Hu|]. by eapply T5.
  - intros i q Hq. destruct (Hl _ _ Hq) as [[-> ->]|[? ?]]; [done|by eapply T6].
  - intros i q Hq. destruct (Hl _ _ Hq) as [[-> ->]|[? ?]]; [by rewrite Hu|by eapply T7].
  - intros i q Hq Hs Hi. destruct (Hl _ _ Hq) as [[-> ->]|[? ?]]; [by rewrite Hu in Hs|].
    destruct (T8 i q) as (r&pr&E1&E2&E3); [done..|]. exists r, pr. split_and!; [done|by apply Hal|done].
  - intros q Hq. destruct (Hl _ _ Hq) as [[-> ->]|[? ?]]; [done|by eapply T9].
  - intros i q Hq. destruct (Hl _ _ Hq) as [[-> ->]|[? ?]]; [by rewrite Hn|by eapply T10].
Qed.

(** A free slot is taken, under a pid that was not used before. *)
Lemma tree_embryo ini np ps j p f : tree ini np ps → np + 1 < 2 ^ 31 → ps !! j = Some p → p_state p = UNUSED →
  p_state (f p) = EMBRYO → p_parent (f p) = p_parent p → p_pid (f p) = np → tree ini (np + 1) (alter f j ps).
Proof.
  intros [T1 T2 T3 T4 T5 T6 T7 T8 T9 T10] Hnp Hp Hz Hu Hn Hpid.
  pose proof (alter_cases f j ps p Hp) as Hl.
  pose proof (alter_alive f j ps p Hp ltac:(by rewrite ?Hz)) as Hal.
  split.
  - by rewrite length_alter.
  - lia.
  - destruct T3 as (q&Hq&Ha). exists q. split; [by apply Hal|done].
  - intros i q Hq Hq'. destruct (Hl _ _ Hq) as [[-> ->]|[? Hi]]; [lia|]. pose proof (T4 i q Hi Hq'). lia.
  - intros i i' q q' Hq Hq' U1 U2 Epid.
    destruct (Hl _ _ Hq) as [[-> ->]|[? Hi]], (Hl _ _ Hq') as [[-> ->]|[? Hi']]; [done|..|by eapply T5].
    + pose proof (T4 i' q' Hi' U2). lia.
    + pose proof (T4 i q Hi U1). lia.
  - intros i q Hq Hs. destruct (Hl _ _ Hq) as [[-> ->]|[? ?]]; [|by eapply T6].
    rewrite Hn. apply (T6 j p Hp). by rewrite Hz.
  - intros i q Hq. destruct (Hl _ _ Hq) as [[-> ->]|[? ?]]; [by rewrite Hu|by eapply T7].
  - intros i q Hq Hs Hi. destruct (Hl _ _ Hq) as [[-> ->]|[? ?]]; [by rewrite Hu in Hs|].
    destruct (T8 i q) as (r&pr&E1&E2&E3); [done..|]. exists r, pr. split_and!; [done|by apply Hal|done].
  - intros q Hq. destruct (Hl _ _ Hq) as [[-> ->]|[? ?]]; [rewrite Hn; by eapply T9|by eapply T9].
  - intros i q Hq. destruct (Hl _ _ Hq) as [[-> ->]|[? ?]]; [rewrite Hn|]; by eapply T10.
Qed.

Lemma tree_grow ini np ps : tree ini np ps → np + 1 < 2 ^ 31 → tree ini (np + 1) ps.
Proof.
  intros [T1 T2 T3 T4 T5 T6 T7 T8 T9 T10] Hnp. split; try done; [lia|].
  intros i p Hp Hu. pose proof (T4 i p Hp Hu). lia.
Qed.

(** A slot that was being filled starts life as a child of [i]. *)
Lemma tree_start ini np ps j p f i q : tree ini np ps → ps !! j = Some p → p_state p = EMBRYO →
  ps !! i = Some q → alive (p_state q) = true →
  p_state (f p) = RUNNABLE → p_parent (f p) = Some i → p_pid (f p) = p_pid p → p_kstack (f p) ≠ 0 → p_pgdir (f p) ≠ 0 →
  tree ini np (alter f j ps).
Proof.
  intros [T1 T2 T3 T4 T5 T6 T7 T8 T9 T10] Hp Hz Hq Hqa Hu Hn Hpid Hks Hpg.
  pose proof (alter_cases f j ps p Hp) as Hl.
  pose proof (alter_alive f j ps p Hp ltac:(by rewrite ?Hz)) as Hal.
  assert (Hup : p_state p ≠ UNUSED) by (by rewrite Hz).
  split.
  - by rewrite length_alter.
  - done.
  - destruct T3 as (r&Hr&Ha). exists r. split; [by apply Hal|done].
  - intros i' r Hr Ur. destruct (Hl _ _ Hr) as [[-> ->]|[? Hi]]; [rewrite Hpid; by eapply T4|by eapply T4].
  - intros i1 i2 r r' Hr Hr' U1 U2 Epid.
    destruct (Hl _ _ Hr) as [[-> ->]|[? Hi]], (Hl _ _ Hr') as [[-> ->]|[? Hi']]; [done|..|by eapply T5].
    + rewrite Hpid in Epid. by eapply (T5 j i2).
    + rewrite Hpid in Epid. by eapply (T5 i1 j).
  - intros i' r Hr Hs. destruct (Hl _ _ Hr) as [[-> ->]|[? ?]]; [by rewrite Hu in Hs|by eapply T6].
  - intros i' r Hr. destruct (Hl _ _ Hr) as [[-> ->]|[? ?]]; [done|by eapply T7].
  - intros i' r Hr Hs Hi. destruct (Hl _ _ Hr) as [[-> ->]|[? ?]].
    + exists i, q. split_and!; [done|by apply Hal|done].
    + destruct (T8 i' r) as (r'&pr&E1&E2&E3); [done..|]. exists r', pr. split_and!; [done|by apply Hal|done].
  - intros r Hr. destruct (Hl _ _ Hr) as [[-> ->]|[? ?]]; [|by eapply T9].
    destruct T3 as (r'&Hr'&Ha). simplify_eq. by rewrite Hz in Ha.
  - intros i' r Hr. destruct (Hl _ _ Hr) as [[-> ->]|[? ?]]; [|by eapply T10].
    rewrite Hn. intros [= ->]. simplify_eq. by rewrite Hz in Hqa.
Qed.

(** No slot becomes a zombie, and no process falls asleep. *)
Lemma wait_alter_free f j p ps : ps !! j = Some p → p_state (f p) ≠ SLEEPING →
  (p_state (f p) = ZOMBIE → p_state p = ZOMBIE ∧ p_parent (f p) = p_parent p) → wait_ok ps → wait_ok (alter f j ps).
Proof.
  intros Hp Hs Hz W i p' q Hp' Es Ec. destruct (decide (j = i)) as [<-|Hi].
  { rewrite list_lookup_alter_eq, Hp in Hp'. injection Hp' as <-. done. }
  rewrite list_lookup_alter_ne in Hp' by done. destruct (W i p' q Hp' Es Ec) as [Hq Hno]. split; [done|].
  intros j' pj Hj Epar Ez. destruct (decide (j = j')) as [<-|Hj'].
  - rewrite list_lookup_alter_eq, Hp in Hj. injection Hj as <-. destruct (Hz Ez) as [Ez' E2].
    apply (Hno j p Hp); congruence.
  - rewrite list_lookup_alter_ne in Hj by done. by apply (Hno j' pj).
Qed.

(** *** The slot a [fork] fills *)

Lemma onto_fork nl k ps c i j p f : onto nl k ps → k c = Running i → ps !! j = Some p → p_state p = UNUSED →
  p_state (f p) = EMBRYO → p_kstack (f p) ≠ 0 → ctx_ok nl (p_context (f p)) →
  onto nl (<[c:=Forking i j]> k) (alter f j ps).
Proof.
  intros [O1 O2 O3 O4 O5 O6 O7 O8 O9] Hk Hp Eu Ee Hks Hx. pose proof (alter_cases f j ps p Hp) as Hl.
  assert (Hkeep : ∀ i q, ps !! i = Some q → p_state q ≠ UNUSED → alter f j ps !! i = Some q).
  { intros i' q Hq Hu. rewrite list_lookup_alter_ne; [done|]. intros ->. by simplify_eq. }
  assert (Ha : ∀ c', active (<[c:=Forking i j]> k c') = active (k c')).
  { intros c'. destruct (decide (c = c')) as [<-|]; [by rewrite fn_lookup_insert, Hk|by rewrite fn_lookup_insert_ne]. }
  assert (Hf : ∀ c' a b, <[c:=Forking i j]> k c' = Forking a b → c' = c ∧ a = i ∧ b = j ∨ c' ≠ c ∧ k c' = Forking a b).
  { intros c' a b. destruct (decide (c = c')) as [<-|]; [rewrite fn_lookup_insert; left|rewrite fn_lookup_insert_ne; auto].
    by simplify_eq. }
  assert (Hnj : ∀ c' a, k c' ≠ Forking a j).
  { intros c' a (q&Hq&Eq&_)%O4. simplify_eq. congruence. }
  split.
  - intros c' i'. rewrite Ha. intros (q&Hq&Er)%O1. exists q. split; [apply Hkeep; [done|by rewrite Er]|done].
  - intros c1 c2 i'. rewrite !Ha. apply O2.
  - intros i' q Hq Er. destruct (Hl _ _ Hq) as [[-> ->]|[_ Hq']]; [congruence|].
    destruct (O3 i' q Hq' Er) as [c' Hc']. exists c'. by rewrite Ha.
  - intros c' a b [(->& -> & ->)|(_&Hc')]%Hf.
    + exists (f p). by rewrite list_lookup_alter_eq, Hp.
    + destruct (O4 _ _ _ Hc') as (q&Hq&Eq&Hq'). exists q. split; [apply Hkeep; [done|by rewrite Eq]|done].
  - intros c1 c2 a1 a2 b [(E1&_&E2)|(_&H1)]%Hf [(E3&_&E4)|(_&H2)]%Hf; subst; [done|..|by eapply O5].
    + by destruct (Hnj _ _ H2).
    + by destruct (Hnj _ _ H1).
  - intros i' q Hq Er. destruct (Hl _ _ Hq) as [[-> ->]|[_ Hq']].
    + exists c, i. by rewrite fn_lookup_insert.
    + destruct (O6 i' q Hq' Er) as (c'&a&Hc'). exists c', a. rewrite fn_lookup_insert_ne; [done|]. intros <-. congruence.
  - intros i' q Hq Er. destruct (Hl _ _ Hq) as [[-> ->]|[_ Hq']]; [destruct Er; congruence|by eapply O7].
  - intros c' i' q Hk' Hq. destruct (decide (c = c')) as [<-|]; [by rewrite fn_lookup_insert in Hk'|].
    rewrite fn_lookup_insert_ne in Hk' by done. destruct (Hl _ _ Hq) as [[-> ->]|[_ Hq']]; [done|by eapply O8].
  - intros c' i'. destruct (decide (c = c')) as [<-|]; [by rewrite fn_lookup_insert|rewrite fn_lookup_insert_ne by done; apply O9].
Qed.

Lemma onto_join nl k ps c i j p f : onto nl k ps → k c = Forking i j → ps !! j = Some p →
  p_state (f p) = UNUSED ∨ p_state (f p) = RUNNABLE → ctx_ok nl (p_context (f p)) →
  onto nl (<[c:=Running i]> k) (alter f j ps).
Proof.
  intros [O1 O2 O3 O4 O5 O6 O7 O8 O9] Hk Hp Ef Hx. pose proof (alter_cases f j ps p Hp) as Hl.
  destruct (O4 _ _ _ Hk) as (p0&Hp0&Ee&_). simplify_eq.
  assert (Hkeep : ∀ i q, ps !! i = Some q → p_state q ≠ EMBRYO → alter f j ps !! i = Some q).
  { intros i' q Hq Hu. rewrite list_lookup_alter_ne; [done|]. intros ->. by simplify_eq. }
  assert (Ha : ∀ c', active (<[c:=Running i]> k c') = active (k c')).
  { intros c'. destruct (decide (c = c')) as [<-|]; [by rewrite fn_lookup_insert, Hk|by rewrite fn_lookup_insert_ne]. }
  assert (Hf : ∀ c' a b, <[c:=Running i]> k c' = Forking a b → c' ≠ c ∧ k c' = Forking a b).
  { intros c' a b. destruct (decide (c = c')) as [<-|]; [by rewrite fn_lookup_insert|rewrite fn_lookup_insert_ne; auto]. }
  split.
  - intros c' i'. rewrite Ha. intros (q&Hq&Er)%O1. exists q. split; [apply Hkeep; [done|by rewrite Er]|done].
  - intros c1 c2 i'. rewrite !Ha. apply O2.
  - intros i' q Hq Er. destruct (Hl _ _ Hq) as [[-> ->]|[_ Hq']]; [destruct Ef; congruence|].
    destruct (O3 i' q Hq' Er) as [c' Hc']. exists c'. by rewrite Ha.
  - intros c' a b [Hne Hc']%Hf. destruct (O4 _ _ _ Hc') as (q&Hq&Eq). exists q. split; [|done].
    rewrite list_lookup_alter_ne; [done|]. intros <-. apply Hne. by eapply O5.
  - intros c1 c2 a1 a2 b [_ H1]%Hf [_ H2]%Hf. by eapply O5.
  - intros i' q Hq Er. destruct (Hl _ _ Hq) as [[-> ->]|[Hne Hq']]; [destruct Ef; congruence|].
    destruct (O6 i' q Hq' Er) as (c'&a&Hc'). exists c', a. rewrite fn_lookup_insert_ne; [done|]. intros <-. congruence.
  - intros i' q Hq Er. destruct (Hl _ _ Hq) as [[-> ->]|[_ Hq']]; [done|by eapply O7].
  - intros c' i' q Hk' Hq. destruct (decide (c = c')) as [<-|]; [by rewrite fn_lookup_insert in Hk'|].
    rewrite fn_lookup_insert_ne in Hk' by done. destruct (Hl _ _ Hq) as [[-> ->]|[_ Hq']]; [done|by eapply O8].
  - intros c' i'. destruct (decide (c = c')) as [<-|]; [by rewrite fn_lookup_insert|rewrite fn_lookup_insert_ne by done; apply O9].
Qed.
