(* ===== verification/ProcSafe.v ===== *)
(** * Scheduling, fork, exit and wait keep the process table consistent

    The steps of the CPUs on the process table, and that each keeps the
    invariant of [ProcInv]. *)

From stdpp Require Import functions.
From S2P Require Import Prelude Params Mmu Str Spinlock Proc ProcInv.

(** ** Steps *)

(** A process that was asleep with lock [lk] gives it back some time after it
    has got it again. *)
Definition resume_unlock {E} `{ProcOps E} (c i : nat) : M (ptable E) unit :=
  p ← the_proc i;
  resume c;;
  match p_context p with
  | CtxSched (InSleep lk) _ => if bool_decide (lk = PTLOCK) then mret tt else release c lk
  | _ => mret tt
  end.

(** In the kernel after the switch: in the loop of [wait] or running freely. *)
Definition resumed (i : nat) (x : context) : ctl :=
  match x with
  | CtxSched (InSleep lk) _ => if bool_decide (lk = PTLOCK) then InWait i else Running i
  | _ => Running i
  end.

Definition switched (r : option nat) : ctl :=
  match r with Some i => Resuming i | None => Idle end.
Definition waited (i : nat) (r : option Z) : ctl :=
  match r with Some _ => Running i | None => Off i end.
Definition alloced (i : nat) (r : option nat) : ctl :=
  match r with Some j => Forking i j | None => Running i end.

(** What the rest of the kernel and the program itself change of a process. *)
Record own_change (p p' : proc) : Prop := {
  oc_state : p_state p' = p_state p;
  oc_pid : p_pid p' = p_pid p;
  oc_parent : p_parent p' = p_parent p;
  oc_chan : p_chan p' = p_chan p;
  oc_context : p_context p' = p_context p;
  oc_kstack : p_kstack p' = p_kstack p;
  oc_pgdir : p_pgdir p ≠ 0 → p_pgdir p' ≠ 0
}.

Section steps.
Context {E : Type} `{ProcOps E} (n nl : nat).

Inductive pstep : psys E → psys E → Prop :=
  | st_round s k c r s' : (c < n)%nat → k c = Idle → scheduler_round c s = Done r s' →
      pstep (s, k) (s', <[c:=switched r]> k)
  | st_back s k c i r s' : k c = Off i → (scheduler_back c;; scheduler_scan c (S i)) s = Done r s' →
      pstep (s, k) (s', <[c:=switched r]> k)
  | st_resume s k c i s' : k c = Resuming i → resume_unlock c i s = Done tt s' →
      pstep (s, k) (s', <[c:=resumed i (p_context (pt_procs s !!! i))]> k)
  | st_yield s k c i s' : k c = Running i → yield c s = Done tt s' →
      pstep (s, k) (s', <[c:=Off i]> k)
  | st_sleep s k c i ch lk s' : k c = Running i → (∀ q, ch ≠ ChanProc q) → lk ≠ PTLOCK → (lk < nl)%nat →
      (acquire c lk;; sleep c (Some ch) lk) s = Done tt s' →
      pstep (s, k) (s', <[c:=Off i]> k)
  | st_wakeup s k c ch s' : (c < n)%nat → locked (k c) = false → wakeup c ch s = Done tt s' →
      pstep (s, k) (s', k)
  | st_kill s k c i pid r s' : k c = Running i → kill c pid s = Done r s' →
      pstep (s, k) (s', k)
  | st_exit s k c i s' : k c = Running i → exit c s = Done tt s' →
      pstep (s, k) (s', <[c:=Off i]> k)
  | st_wait s k c i r s' : k c = Running i → wait c s = Done r s' →
      pstep (s, k) (s', <[c:=waited i r]> k)
  | st_wait_again s k c i r s' : k c = InWait i → wait_turn c s = Done r s' →
      pstep (s, k) (s', <[c:=waited i r]> k)
  | st_fork s k c i r s' : k c = Running i → pt_nextpid s < 2 ^ 31 - 1 → allocproc c s = Done r s' →
      pstep (s, k) (s', <[c:=alloced i r]> k)
  | st_fill s k c i j r s' : k c = Forking i j → fork_fill c i j s = Done r s' →
      pstep (s, k) (s', <[c:=Running i]> k)
  | st_grow s k c i d r s' : k c = Running i → growproc c d s = Done r s' →
      pstep (s, k) (s', k)
  | st_own s k c i f e : k c = Running i → (∀ p, own_change p (f p)) →
      pstep (s, k) (set_procs (alter f i (pt_procs s)) (set_ext e s), k).
End steps.

(** ** Each step keeps the invariant *)

Lemma hd_upd n nl k c x hd m : mach_ok n nl hd m →
  (∀ c', c' ≠ c → hd c' = hd_of k c') → hd c = (if locked x then [PTLOCK] else []) →
  mach_ok n nl (hd_of (<[c:=x]> k)) m.
Proof.
  intros Hm Ho Hh. eapply mach_ok_ext; [|exact Hm]. intros c'. unfold hd_of.
  destruct (decide (c = c')) as [<-|Hc]; [by rewrite fn_lookup_insert|].
  rewrite fn_lookup_insert_ne by done. by apply Ho.
Qed.

(** Locks held after updates at CPU [c] only. *)
Ltac hd_tac :=
  intros; rewrite ?fn_lookup_insert, ?fn_lookup_insert_ne by done;
  unfold hd_of in *; rewrite ?fn_lookup_insert, ?fn_lookup_insert_ne by done;
  repeat match goal with E : ?k ?c = _ |- context [?k ?c] => rewrite E end;
  try done; try set_solver.

Lemma alter_total f (ps : list proc) i p : ps !! i = Some p → alter f i ps !!! i = f p.
Proof. intros Hp. apply list_lookup_total_correct. by rewrite list_lookup_alter_eq, Hp. Qed.

Lemma alter_alter f g (ps : list proc) i : alter (f ∘ g) i ps = alter f i (alter g i ps).
Proof.
  apply list_eq. intros j. destruct (decide (i = j)) as [<-|].
  - rewrite !list_lookup_alter_eq. by destruct (ps !! i).
  - by rewrite !list_lookup_alter_ne.
Qed.

Lemma find_from_some f from ps i : find_from f from ps = Some i →
  (from ≤ i)%nat ∧ ∃ p, ps !! i = Some p ∧ f p = true.
Proof.
  unfold find_from. intros ([j p]&(Hp&Hf&_)%list_find_Some& ->)%fmap_Some. cbn. split; [lia|].
  exists p. by rewrite <- lookup_drop.
Qed.

Section keep.
Context {E : Type} `{ProcOps E} (n nl ini : nat) (Hnl : (0 < nl)%nat).
Context (s : ptable E) (k : nat → ctl) (c : nat) (I : pinv n nl ini s k) (safe : bool).

Lemma in_range : k c ≠ Idle → (c < n)%nat.
Proof.
  intros Hk. destruct (decide (c < n)%nat) as [|Hge]; [done|]. by rewrite (pi_out _ _ _ _ _ I c ltac:(lia)) in Hk.
Qed.

Lemma pinv_upd x (s' : ptable E) : (c < n)%nat →
  mach_ok n nl (hd_of (<[c:=x]> k)) (pt_mach s') → pt_init s' = pt_init s →
  (∃ f, pt_cpus s' = alter f c (pt_cpus s) ∧ ∀ u, u_proc u = on_cpu (k c) → u_proc (f u) = on_cpu x) →
  tree ini (pt_nextpid s') (pt_procs s') → wait_ok (pt_procs s') → onto nl (<[c:=x]> k) (pt_procs s') →
  pinv n nl ini s' (<[c:=x]> k).
Proof.
  intros Hc Hm Hi (f&Ef&Hf) Ht Hw Ho. split; cbn; try done.
  - rewrite Ef, length_alter. apply (pi_cpus _ _ _ _ _ I).
  - intros c' Hc'. rewrite fn_lookup_insert_ne by lia. by apply (pi_out _ _ _ _ _ I).
  - intros c' Hc'. pose proof (pi_cpus _ _ _ _ _ I) as Hl. cbn in Hl.
    destruct (lookup_lt_is_Some_2 (pt_cpus s) c' ltac:(lia)) as [u Hu].
    pose proof (pi_proc _ _ _ _ _ I c' Hc') as Hp. cbn in Hp. rewrite (list_lookup_total_correct _ _ _ Hu) in Hp.
    rewrite Ef. destruct (decide (c = c')) as [<-|Hne].
    + rewrite fn_lookup_insert. rewrite (list_lookup_total_correct _ _ (f u)); [by apply Hf|].
      by rewrite list_lookup_alter_eq, Hu.
    + rewrite fn_lookup_insert_ne by done. rewrite (list_lookup_total_correct _ _ u); [done|].
      by rewrite list_lookup_alter_ne.
  - rewrite Hi. apply (pi_init _ _ _ _ _ I).
Qed.

(** The CPU's [proc] stays. *)
Lemma cpus_same x : on_cpu x = on_cpu (k c) →
  ∃ f, pt_cpus s = alter f c (pt_cpus s) ∧ ∀ u, u_proc u = on_cpu (k c) → u_proc (f u) = on_cpu x.
Proof.
  intros Hx. exists (λ u, u). split; [|by intros u ->]. symmetry. by apply list_alter_id.
Qed.

(** The process the CPU runs. *)
Lemma cur_proc i : active (k c) = Some i →
  ∃ p, pt_procs s !! i = Some p ∧ p_state p = RUNNING ∧ pt_procs s !!! i = p ∧ u_proc (pt_cpus s !!! c) = Some i.
Proof.
  intros Ha. destruct (o_run _ _ _ (pi_onto _ _ _ _ _ I) c i Ha) as (p&Hp&Er). exists p.
  split_and!; [done..|by apply list_lookup_total_correct|].
  rewrite (pi_proc _ _ _ _ _ I c); [|apply in_range; by destruct (k c)]. cbn. by destruct (k c).
Qed.

(** The process gives up the CPU with its state set to [v], alive. *)
Lemma leave i p f x m' : k c = Running i ∨ k c = InWait i → pt_procs s !! i = Some p → p_state p = RUNNING →
  alike p (f p) → p_state (f p) = SLEEPING ∨ p_state (f p) = RUNNABLE → ctx_ok nl (p_context (f p)) →
  wait_ok (alter f i (pt_procs s)) → x = Off i →
  mach_ok n nl (hd_of (<[c:=x]> k)) m' →
  pinv n nl ini (set_procs (alter f i (pt_procs s)) (set_mach m' s)) (<[c:=x]> k).
Proof.
  intros Hk Hp Er L Es Hctx W -> Hm. assert (active (k c) = Some i) as Ha by (by destruct Hk as [-> | ->]).
  assert (Hi : (i < NPROC)%nat).
  { rewrite <- (t_len _ _ _ (pi_tree _ _ _ _ _ I)). by eapply lookup_lt_Some. }
  apply pinv_upd; cbn; try done.
  - apply in_range. by destruct Hk as [-> | ->].
  - apply (cpus_same (Off i)). by destruct Hk as [-> | ->].
  - eapply tree_alike; [|apply (pi_tree _ _ _ _ _ I)]. apply alike_alter. intros q Hq. cbn in Hq. by simplify_eq.
  - eapply (onto_move nl k _ _ c (Off i) (pi_onto _ _ _ _ _ I)) with (i := i) (p := p) (p' := f p); cbn; try tauto.
    + by destruct Hk as [-> | ->].
    + intros j [= ->]. done.
    + by rewrite list_lookup_alter_eq, Hp.
    + by rewrite Er.
    + by destruct Es as [-> | ->].
    + split; [|done]. by destruct Es as [-> | ->].
    + intros j Hj. rewrite list_lookup_alter_ne by done. cbn. destruct (pt_procs s !! j); constructor. apply quiet_refl.
Qed.

Lemma keep_yield i : k c = Running i → wlp safe (yield c) (λ _ s', pinv n nl ini s' (<[c:=Off i]> k)) s.
Proof.
  intros Hk. pose proof (in_range ltac:(by rewrite Hk)) as Hc.
  destruct (cur_proc i ltac:(by rewrite Hk)) as (p&Hp&Er&Et&Hu).
  unfold yield, upd_proc. wlp_step. eapply wlp_acquire; [apply (pi_mach _ _ _ _ _ I)|done|done|hd_tac|].
  intros m1 Hm1 _. wlp_step. eapply wlp_curproc; [exact Hm1|done|exact Hu|]. intros m2 Hm2. wlp_steps.
  eapply wlp_sched; [exact Hm2|done|exact Hu|hd_tac| |].
  { cbn. by rewrite (alter_total _ _ _ _ Hp). }
  intros m3 b Hm3.
  pose proof (leave i p (set_context (CtxSched InYield b) ∘ set_state RUNNABLE) (Off i) m3) as R.
  rewrite alter_alter in R. apply R; cbn; auto.
  - by split; cbn; rewrite ?Er.
  - rewrite <- alter_alter. apply (wait_alter _ i p _ Hp); [by split; cbn; rewrite ?Er|done|apply (pi_wait _ _ _ _ _ I)].
  - eapply hd_upd; [exact Hm3|hd_tac..].
Qed.

Lemma keep_sleep i ch lk : k c = Running i → (∀ q, ch ≠ ChanProc q) → lk ≠ PTLOCK → (lk < nl)%nat →
  wlp safe (acquire c lk;; sleep c (Some ch) lk) (λ _ s', pinv n nl ini s' (<[c:=Off i]> k)) s.
Proof.
  intros Hk Hch Hlk Hlt. pose proof (in_range ltac:(by rewrite Hk)) as Hc.
  destruct (cur_proc i ltac:(by rewrite Hk)) as (p&Hp&Er&Et&Hu).
  wlp_step. eapply wlp_acquire; [apply (pi_mach _ _ _ _ _ I)|done|done|hd_tac|]. intros m1 Hm1 _.
  unfold sleep, upd_proc. wlp_step. eapply wlp_myproc; [exact Hm1|done|]. intros m2 Hm2. cbn [pt_cpus set_mach].
  rewrite Hu, bool_decide_eq_false_2 by done. wlp_steps.
  eapply wlp_acquire; [exact Hm2|done|done|hd_tac|]. intros m3 Hm3 _. wlp_steps.
  eapply (wlp_release _ _ _ c lk [PTLOCK] []); [exact Hm3|done|hd_tac|]. intros m4 Hm4. wlp_steps.
  eapply wlp_sched; [exact Hm4|done|exact Hu|hd_tac| |].
  { cbn. rewrite <- alter_alter. by rewrite (alter_total _ _ _ _ Hp). }
  intros m5 b Hm5.
  pose proof (leave i p (set_context (CtxSched (InSleep lk) b) ∘ (set_state SLEEPING ∘ set_chan (Some ch))) (Off i) m5) as R.
  rewrite !alter_alter in R. apply R; cbn; auto.
  - by split; cbn; rewrite ?Er.
  - rewrite <- !alter_alter. apply (wait_alter _ i p _ Hp); [by split; cbn; rewrite ?Er| |apply (pi_wait _ _ _ _ _ I)].
    intros q _ [= E1]. by destruct (Hch q).
  - eapply hd_upd; [exact Hm5|hd_tac..].
Qed.

(** [sleep] of a process in [wait], when the scan has found no zombie. *)
Lemma keep_wait_sleep i : k c = InWait i →
  (∀ j pj, pt_procs s !! j = Some pj → p_parent pj = Some i → p_state pj ≠ ZOMBIE) →
  wlp safe (sleep c (Some (ChanProc i)) PTLOCK) (λ _ s', pinv n nl ini s' (<[c:=Off i]> k)) s.
Proof.
  intros Hk Hz. pose proof (in_range ltac:(by rewrite Hk)) as Hc.
  destruct (cur_proc i ltac:(by rewrite Hk)) as (p&Hp&Er&Et&Hu).
  unfold sleep, upd_proc. wlp_step. eapply wlp_myproc; [apply (pi_mach _ _ _ _ _ I)|done|]. intros m1 Hm1.
  rewrite Hu, bool_decide_eq_true_2 by done. wlp_steps.
  eapply wlp_sched; [exact Hm1|done|exact Hu|hd_tac| |].
  { cbn. rewrite <- alter_alter. by rewrite (alter_total _ _ _ _ Hp). }
  intros m2 b Hm2.
  pose proof (leave i p (set_context (CtxSched (InSleep PTLOCK) b) ∘ (set_state SLEEPING ∘ set_chan (Some (ChanProc i)))) (Off i) m2) as R.
  rewrite !alter_alter in R. apply R; cbn; auto.
  - by split; cbn; rewrite ?Er.
  - rewrite <- !alter_alter. apply wait_sleep; [|done|apply (pi_wait _ _ _ _ _ I)].
    intros q Hq. simplify_eq. split; [by split; cbn; rewrite ?Er|done].
  - eapply hd_upd; [exact Hm2|hd_tac..].
Qed.

(** A change of the table by a CPU that goes on running the same process. *)
Lemma stay x ps' m' e us : (c < n)%nat → not_fork (k c) → not_fork x → active x = active (k c) → on_cpu x = on_cpu (k c) →
  (∀ j, x ≠ Resuming j) → (∀ j, x = Off j → (j < NPROC)%nat) →
  (∃ f, us = alter f c (pt_cpus s) ∧ ∀ u, u_proc (f u) = u_proc u) →
  alike_tab (pt_procs s) ps' → (∀ j, option_Forall2 quiet (pt_procs s !! j) (ps' !! j)) → wait_ok ps' →
  mach_ok n nl (hd_of (<[c:=x]> k)) m' →
  pinv n nl ini (set_cpus us (set_procs ps' (set_mach m' (set_ext e s)))) (<[c:=x]> k).
Proof.
  intros Hc Hkf Hxf Ha Ho Hres Hoff (f&->&Hf) L Q W Hm. apply pinv_upd; cbn; try done.
  - exists f. split; [done|]. intros u Hu. by rewrite Hf, Hu.
  - eapply tree_alike; [exact L|apply (pi_tree _ _ _ _ _ I)].
  - eapply onto_quiet; [apply (pi_onto _ _ _ _ _ I)|done..| |done]. intros j Hj. by destruct (Hres j).
Qed.

(** A change of the table while every CPU goes on as it was. *)
Lemma unmoved ps' m' e us : (∃ f, us = alter f c (pt_cpus s) ∧ ∀ u, u_proc (f u) = u_proc u) →
  alike_tab (pt_procs s) ps' → (∀ j, option_Forall2 quiet (pt_procs s !! j) (ps' !! j)) → wait_ok ps' →
  mach_ok n nl (hd_of k) m' →
  pinv n nl ini (set_cpus us (set_procs ps' (set_mach m' (set_ext e s)))) k.
Proof.
  intros (f&->&Hf) L Q W Hm. split; cbn; try done.
  - rewrite length_alter. apply (pi_cpus _ _ _ _ _ I).
  - apply (pi_out _ _ _ _ _ I).
  - intros c' Hc'. rewrite <- (pi_proc _ _ _ _ _ I c' Hc').
    pose proof (pi_cpus _ _ _ _ _ I) as Hl. destruct (lookup_lt_is_Some_2 (pt_cpus s) c' ltac:(lia)) as [u Hu].
    rewrite (list_lookup_total_correct _ _ _ Hu). destruct (decide (c = c')) as [<-|Hne].
    + rewrite (list_lookup_total_correct _ _ (f u)); [done|]. by rewrite list_lookup_alter_eq, Hu.
    + rewrite (list_lookup_total_correct _ _ u); [done|]. by rewrite list_lookup_alter_ne.
  - apply (pi_init _ _ _ _ _ I).
  - eapply tree_alike; [exact L|apply (pi_tree _ _ _ _ _ I)].
  - eapply onto_same; [apply (pi_onto _ _ _ _ _ I)|done|done|done| |done]. apply (o_off _ _ _ (pi_onto _ _ _ _ _ I)).
Qed.

Lemma cpus_id : ∃ f, pt_cpus s = alter f c (pt_cpus s) ∧ ∀ u, u_proc (f u) = u_proc u.
Proof. exists (λ u, u). split; [|done]. symmetry. by apply list_alter_id. Qed.

Lemma keep_wakeup ch : (c < n)%nat → locked (k c) = false →
  wlp safe (wakeup c ch) (λ _ s', pinv n nl ini s' k) s.
Proof.
  intros Hc Hl. unfold wakeup. wlp_step. eapply wlp_acquire; [apply (pi_mach _ _ _ _ _ I)|done|done| |].
  { unfold hd_of. rewrite Hl. set_solver. }
  intros m1 Hm1 _. wlp_steps. eapply (wlp_release _ _ _ c PTLOCK [] []); [exact Hm1|done| |].
  { rewrite fn_lookup_insert. unfold hd_of. by rewrite Hl. }
  intros m2 Hm2. eapply (unmoved (wakeup1 (Some ch) (pt_procs s)) m2 (pt_ext s) (pt_cpus s)); [apply cpus_id|apply alike_wakeup1| | |].
  - intros j. unfold wakeup1. rewrite list_lookup_fmap. destruct (pt_procs s !! j) as [q|]; constructor.
    destruct (is_state SLEEPING q && _) eqn:Ew; [|apply quiet_refl].
    apply andb_prop in Ew as [Ew%bool_decide_eq_true _]. split; cbn; rewrite ?Ew; tauto || done.
  - eapply wait_alike; [apply alike_wakeup1| |apply (pi_wait _ _ _ _ _ I)].
    intros j q q' r Hj Hj' Es Ec. unfold wakeup1 in Hj'. rewrite list_lookup_fmap, Hj in Hj'. injection Hj' as <-.
    destruct (is_state SLEEPING q && _) eqn:Ew; [done|]. done.
  - eapply mach_ok_ext; [|exact Hm2]. intros c'. destruct (decide (c = c')) as [<-|].
    + rewrite fn_lookup_insert. unfold hd_of. by rewrite Hl.
    + by rewrite !fn_lookup_insert_ne.
Qed.

(** A table in which only slot [i] changed, the same pid, parent and stage. *)
Lemma unmoved_alter i p f m' e us : (∃ f, us = alter f c (pt_cpus s) ∧ ∀ u, u_proc (f u) = u_proc u) →
  pt_procs s !! i = Some p → alike p (f p) → quiet p (f p) →
  (p_state (f p) = SLEEPING → p_state p = SLEEPING ∧ p_chan p = p_chan (f p)) →
  mach_ok n nl (hd_of k) m' →
  pinv n nl ini (set_cpus us (set_procs (alter f i (pt_procs s)) (set_mach m' (set_ext e s)))) k.
Proof.
  intros Hus Hp L Q Hs Hm. apply unmoved; [done|..|done].
  - apply alike_alter. intros q Hq. by simplify_eq.
  - intros j. destruct (decide (i = j)) as [<-|].
    + rewrite list_lookup_alter_eq, Hp. by constructor.
    + rewrite list_lookup_alter_ne by done. destruct (pt_procs s !! j); constructor. apply quiet_refl.
  - apply (wait_alter _ i p _ Hp); [done| |apply (pi_wait _ _ _ _ _ I)]. intros. by apply Hs.
Qed.

Lemma keep_kill i pid : k c = Running i → wlp safe (kill c pid) (λ _ s', pinv n nl ini s' k) s.
Proof.
  intros Hk. pose proof (in_range ltac:(by rewrite Hk)) as Hc.
  unfold kill, upd_proc. wlp_step. eapply wlp_acquire; [apply (pi_mach _ _ _ _ _ I)|done|done|hd_tac|].
  intros m1 Hm1 _. wlp_steps. cbn [pt_procs set_mach].
  assert (Hrel : ∀ s1 (Q : unit → ptable E → Prop), pt_mach s1 = m1 →
    (∀ m2, mach_ok n nl (hd_of k) m2 → Q tt (set_mach m2 s1)) → wlp safe (release c PTLOCK) Q s1).
  { intros s1 Q E1 HQ. eapply (wlp_release _ _ _ c PTLOCK [] []); [by rewrite E1|done|hd_tac|].
    intros m2 Hm2. apply HQ. eapply mach_ok_ext; [|exact Hm2]. intros c'.
    destruct (decide (c = c')) as [<-|]; hd_tac. }
  destruct (find_from _ _ _) as [j|] eqn:Ef.
  - apply find_from_some in Ef as (_&p&Hp&_). wlp_steps. apply Hrel; [done|]. intros m2 Hm2. wlp_step.
    pose proof (unmoved_alter j p ((λ q, if is_state SLEEPING q then set_state RUNNABLE q else q) ∘ set_killed true)
      m2 (pt_ext s) (pt_cpus s) cpus_id Hp) as R. rewrite alter_alter in R.
    unfold is_state in *. destruct (decide (p_state p = SLEEPING)) as [Es|Es]; apply R; try done;
      cbn; rewrite ?(bool_decide_eq_true_2 _ Es), ?(bool_decide_eq_false_2 _ Es); try done.
    + by split; cbn; rewrite ?Es.
    + split; cbn; rewrite ?Es; tauto || done.
  - wlp_step. apply Hrel; [done|]. intros m2 Hm2. wlp_step.
    exact (unmoved (pt_procs s) m2 (pt_ext s) (pt_cpus s) cpus_id
      (λ j, ltac:(destruct (pt_procs s !! j); constructor; apply alike_refl))
      (λ j, ltac:(destruct (pt_procs s !! j); constructor; apply quiet_refl)) (pi_wait _ _ _ _ _ I) Hm2).
Qed.

Lemma keep_own i f e : k c = Running i → (∀ p, own_change p (f p)) →
  pinv n nl ini (set_procs (alter f i (pt_procs s)) (set_ext e s)) k.
Proof.
  intros Hk Hf. destruct (cur_proc i ltac:(by rewrite Hk)) as (p&Hp&Er&_). destruct (Hf p) as [F1 F2 F3 F4 F5 F6 F7].
  refine (unmoved_alter i p f (pt_mach s) e (pt_cpus s) cpus_id Hp _ _ _ (pi_mach _ _ _ _ _ I)).
  - split; rewrite ?F1, ?F6; try done. intros _ [? ?]. auto.
  - by split; rewrite ?F1.
  - by rewrite F1, F4.
Qed.

Lemma keep_grow i d : safe = false → k c = Running i → wlp safe (growproc c d) (λ _ s', pinv n nl ini s' k) s.
Proof.
  intros Hsafe Hk. pose proof (in_range ltac:(by rewrite Hk)) as Hc.
  destruct (cur_proc i ltac:(by rewrite Hk)) as (p&Hp&Er&Et&Hu).
  pose proof (t_mem _ _ _ (pi_tree _ _ _ _ _ I) i p Hp ltac:(by rewrite Er)) as [Hks Hpg].
  unfold growproc, the_proc, upd_proc. wlp_step. eapply wlp_curproc; [apply (pi_mach _ _ _ _ _ I)|done|exact Hu|].
  intros m1 Hm1. wlp_steps. cbn [pt_procs set_mach]. rewrite Et.
  set (R := λ (r : option Z) (s' : ptable E), ∃ e, s' = set_mach m1 (set_ext e s)).
  apply (wlp_mono _ _ R).
  { assert (Hr : ∀ (g : Z → option Z) op, wlp safe (ext op ≫= λ sz', mret (g sz')) R (set_mach m1 s)).
    { intros g op. wlp_step. apply wlp_ext; [done|]. intros a e. wlp_step. by exists e. }
    destruct (d >? 0); [apply (Hr (λ sz', if sz' =? 0 then None else Some sz'))|].
    destruct (d <? 0); [apply (Hr (λ sz', if sz' =? 0 then None else Some sz'))|].
    wlp_step. exists (pt_ext s). by destruct s. }
  intros r s1 [e ->]. destruct r as [sz'|].
  - wlp_steps. eapply wlp_switchuvm; [exact Hm1|done|cbn; by rewrite (alter_total _ _ _ _ Hp)..|].
    intros m2 Hm2. wlp_step.
    refine (unmoved_alter i p (set_mem sz' (p_pgdir p)) m2 e _ _ Hp _ _ _ Hm2);
      [by eexists; split; [done|]|by split|by split; cbn|by cbn; rewrite Er].
  - wlp_step. refine (unmoved (pt_procs s) m1 e (pt_cpus s) cpus_id _ _ (pi_wait _ _ _ _ _ I) Hm1);
      intros j; destruct (pt_procs s !! j); constructor; [apply alike_refl|apply quiet_refl].
Qed.

Lemma keep_scan from f hd m1 : (c < n)%nat → active (k c) = None → (∀ u, u_proc (f u) = None) →
  mach_ok n nl hd m1 → hd c = [PTLOCK] → (∀ c', c' ≠ c → hd c' = hd_of k c') →
  wlp safe (scheduler_scan c from) (λ r s', pinv n nl ini s' (<[c:=switched r]> k))
    (set_cpus (alter f c (pt_cpus s)) (set_mach m1 s)).
Proof.
  intros Hc Ha Hf Hm1 Hh Ho. assert (not_fork (k c)) as Hnf by (by destruct (k c)).
  unfold scheduler_scan, upd_cpu, upd_proc. wlp_step. wlp_step. cbn [pt_procs set_cpus set_mach].
  destruct (find_from _ _ _) as [i|] eqn:Ef.
  - apply find_from_some in Ef as (_&p&Hp&Er%bool_decide_eq_true).
    pose proof (t_mem _ _ _ (pi_tree _ _ _ _ _ I) i p Hp ltac:(by rewrite Er)) as [Hks Hpg].
    wlp_steps. eapply wlp_switchuvm; [exact Hm1|done|cbn; by rewrite (list_lookup_total_correct _ _ _ Hp)..|].
    intros m2 Hm2. wlp_steps. apply pinv_upd; cbn; try done.
    + eapply hd_upd; [exact Hm2|done..].
    + eexists ((λ u, mkcpust (u_proc u) _) ∘ ((λ u, mkcpust (Some i) (u_cr3 u)) ∘ f)). split; [|done].
      apply list_eq. intros c'. destruct (decide (c = c')) as [<-|].
      * rewrite !list_lookup_alter_eq. by destruct (pt_cpus s !! c).
      * by rewrite !list_lookup_alter_ne.
    + eapply tree_alike; [|apply (pi_tree _ _ _ _ _ I)]. apply alike_alter. intros q Hq. simplify_eq.
      by split; cbn; rewrite ?Er.
    + apply (wait_alter _ i p _ Hp); [by split; cbn; rewrite ?Er|done|apply (pi_wait _ _ _ _ _ I)].
    + eapply (onto_move nl k _ _ c (Resuming i) (pi_onto _ _ _ _ _ I)) with (i := i) (p := p) (p' := set_state RUNNING p);
        try done; auto.
      * by rewrite list_lookup_alter_eq, Hp.
      * by rewrite Er.
      * by rewrite Er, Ha.
      * intros _. cbn. apply (o_ctx _ _ _ (pi_onto _ _ _ _ _ I) i p Hp). auto.
      * intros j Hj. rewrite list_lookup_alter_ne by done. destruct (pt_procs s !! j); constructor. apply quiet_refl.
  - wlp_step. eapply (wlp_release _ _ _ c PTLOCK [] []); [exact Hm1|done|done|]. intros m2 Hm2. wlp_step.
    apply pinv_upd; cbn; try done.
    + eapply hd_upd; [exact Hm2| |by rewrite fn_lookup_insert]. intros c' Hc'. rewrite fn_lookup_insert_ne by done. by apply Ho.
    + exists f. split; [done|]. intros u _. by rewrite Hf.
    + apply (pi_tree _ _ _ _ _ I).
    + apply (pi_wait _ _ _ _ _ I).
    + eapply onto_quiet; [apply (pi_onto _ _ _ _ _ I)|done..|].
      intros j. destruct (pt_procs s !! j); constructor. apply quiet_refl.
Qed.

Lemma keep_round : (c < n)%nat → k c = Idle →
  wlp safe (scheduler_round c) (λ r s', pinv n nl ini s' (<[c:=switched r]> k)) s.
Proof.
  intros Hc Hk. unfold scheduler_round, sti. wlp_steps.
  destruct (mach_cpu _ _ _ _ c (pi_mach _ _ _ _ _ I) Hc) as (u&w&Hu&Hok).
  rewrite (list_lookup_total_correct _ _ _ Hu). unfold hd_of in Hok. rewrite Hk in Hok.
  eapply (wlp_acquire _ _ _ _ _ _ (hd_of k)); [|done|done|hd_tac|].
  { cbn. eapply (mach_set_cpu _ _ _ _ c _ true (pi_mach _ _ _ _ _ I) Hc). unfold hd_of. rewrite Hk.
    destruct Hok as [Hn _]. by split. }
  intros m1 Hm1 _. pose proof (pi_proc _ _ _ _ _ I c Hc) as Hp. rewrite Hk in Hp. cbn in Hp.
  pose proof (keep_scan 0 (λ v, mkcpust None (u_cr3 v)) _ m1 Hc ltac:(by rewrite Hk) ltac:(done) Hm1 ltac:(hd_tac) ltac:(hd_tac)) as R.
  replace (alter (λ v, mkcpust None (u_cr3 v)) c (pt_cpus s)) with (pt_cpus s) in R.
  { exact R. }
  apply list_eq. intros c'. destruct (decide (c = c')) as [<-|]; [|by rewrite list_lookup_alter_ne].
  rewrite list_lookup_alter_eq. destruct (pt_cpus s !! c) as [v|] eqn:Ev; [|done]. cbn. f_equal.
  rewrite (list_lookup_total_correct _ _ _ Ev) in Hp. destruct v. cbn in *. by subst.
Qed.

Lemma keep_back i : k c = Off i →
  wlp safe (scheduler_back c;; scheduler_scan c (S i)) (λ r s', pinv n nl ini s' (<[c:=switched r]> k)) s.
Proof.
  intros Hk. pose proof (in_range ltac:(by rewrite Hk)) as Hc. unfold scheduler_back, switchkvm, upd_cpu. wlp_steps.
  pose proof (keep_scan (S i) (λ v, mkcpust None None) _ (pt_mach s) Hc ltac:(by rewrite Hk) ltac:(done)
    (pi_mach _ _ _ _ _ I) ltac:(hd_tac) ltac:(done)) as R. cbn [pt_cpus set_cpus].
  replace (alter (λ v, mkcpust None None) c (pt_cpus s)) with
    (alter (λ v, mkcpust None (u_cr3 v)) c (alter (λ v, mkcpust (u_proc v) None) c (pt_cpus s))) in R.
  { exact R. }
  apply list_eq. intros c'. destruct (decide (c = c')) as [<-|].
  - rewrite !list_lookup_alter_eq. by destruct (pt_cpus s !! c).
  - by rewrite !list_lookup_alter_ne.
Qed.

Lemma mach_intena hd m b : mach_ok n nl hd m → (c < n)%nat →
  mach_ok n nl hd (set_cpu c (mkcpu (c_if (cpus m !!! c)) (c_ncli (cpus m !!! c)) b) m).
Proof.
  intros Hm Hc. destruct (mach_cpu _ _ _ _ c Hm Hc) as (u&w&Hu&Hok).
  rewrite (list_lookup_total_correct _ _ _ Hu). destruct Hok as [Hn Hf].
  destruct (length (hd c)) as [|d] eqn:Ed; [eapply (mach_set_cpu _ _ _ _ c _ w Hm Hc)|eapply (mach_set_cpu _ _ _ _ c _ b Hm Hc)];
    rewrite Ed; split; cbn in *; try done. by destruct Hf.
Qed.

Lemma keep_resume i : k c = Resuming i → safe = false ∨ pt_first s = false →
  wlp safe (resume_unlock c i) (λ _ s', pinv n nl ini s' (<[c:=resumed i (p_context (pt_procs s !!! i))]> k)) s.
Proof.
  intros Hk Hfs. pose proof (in_range ltac:(by rewrite Hk)) as Hc.
  destruct (cur_proc i ltac:(by rewrite Hk)) as (p&Hp&Er&Et&Hu).
  pose proof (o_res _ _ _ (pi_onto _ _ _ _ _ I) c i p Hk Hp) as Hctx.
  unfold resume_unlock, resume, the_proc, upd_proc. wlp_steps. cbv beta.
  eapply wlp_curproc; [apply (pi_mach _ _ _ _ _ I)|done|exact Hu|]. intros m1 Hm1. wlp_steps.
  cbn [pt_procs set_mach pt_mach]. rewrite Et.
  assert (Hst : ∀ x f m' e, active x = Some i → not_fork x → x ≠ Resuming i → f = id ∨ f = set_chan None →
    mach_ok n nl (hd_of (<[c:=x]> k)) m' →
    pinv n nl ini (set_procs (alter f i (pt_procs s)) (set_mach m' (set_ext e s))) (<[c:=x]> k)).
  { intros x f m' e Hax Hxf Hxr Hf Hm'. 
    change (pinv n nl ini (set_cpus (pt_cpus s) (set_procs (alter f i (pt_procs s)) (set_mach m' (set_ext e s)))) (<[c:=x]> k)).
    apply stay; try done; [..|apply cpus_id| | |].
    - by rewrite Hk.
    - by rewrite Hk.
    - rewrite Hk. by destruct x.
    - intros j ->. cbn in Hax. congruence.
    - intros j ->. done.
    - apply alike_alter. intros q Hq. simplify_eq. by destruct Hf as [-> | ->].
    - intros j. destruct (decide (i = j)) as [<-|].
      + rewrite list_lookup_alter_eq, Hp. constructor. by destruct Hf as [-> | ->].
      + rewrite list_lookup_alter_ne by done. destruct (pt_procs s !! j); constructor. apply quiet_refl.
    - apply (wait_alter _ i p _ Hp); [by destruct Hf as [-> | ->]| |apply (pi_wait _ _ _ _ _ I)].
      destruct Hf as [-> | ->]; cbn; by rewrite Er. }
  destruct (p_context p) as [|[|lk|] b] eqn:Ex; cbn [resumed]; [| | |done].
  - unfold forkret. wlp_steps. eapply (wlp_release _ _ _ c PTLOCK [] []); [exact Hm1|done|hd_tac|]. intros m2 Hm2.
    wlp_steps. cbn [pt_first set_mach].
    assert (Hm2' : mach_ok n nl (hd_of (<[c:=Running i]> k)) m2) by (eapply hd_upd; [exact Hm2|hd_tac..]).
    pose proof (λ e, Hst (Running i) id m2 e eq_refl Logic.I ltac:(done) (or_introl eq_refl) Hm2') as R.
    rewrite list_alter_id in R by done. destruct (pt_first s) eqn:Ef.
    + destruct Hfs as [->|]; [|done]. wlp_steps. apply wlp_ext; [done|]. intros a e. wlp_steps.
      destruct (R e) as [R1 R2 R3 R4 R5 R6 R7 R8]. split; assumption.
    + wlp_steps. apply (R (pt_ext s)).
  - wlp_steps. eapply (wlp_release _ _ _ c PTLOCK [] []); [by eapply mach_intena|done|hd_tac|]. intros m2 Hm2.
    wlp_steps. pose proof (Hst (Running i) id m2 (pt_ext s) eq_refl Logic.I ltac:(done) (or_introl eq_refl)) as R.
    rewrite list_alter_id in R by done. apply R. eapply hd_upd; [exact Hm2|hd_tac..].
  - wlp_steps. destruct (bool_decide_reflect (lk = PTLOCK)) as [->|Hlk].
    + wlp_steps.
      apply (Hst (InWait i) (set_chan None) _ (pt_ext s)); [done..|auto|].
      eapply hd_upd; [eapply (mach_intena _ _ b Hm1 Hc)|hd_tac..].
    + wlp_steps. eapply (wlp_release _ _ _ c PTLOCK [] []); [by eapply mach_intena|done|hd_tac|]. intros m2 Hm2.
      eapply wlp_acquire; [exact Hm2|done|exact Hctx|hd_tac|]. intros m3 Hm3 _.
      eapply (wlp_release _ _ _ c lk [] []); [exact Hm3|done|hd_tac|]. intros m4 Hm4.
      apply (Hst (Running i) (set_chan None) _ (pt_ext s)); [done..|auto|].
      eapply hd_upd; [exact Hm4|hd_tac..].
Qed.

End keep.

Lemma pinv_mach {E} n nl ini (s : ptable E) k m : pinv n nl ini s k → mach_ok n nl (hd_of k) m →
  pinv n nl ini (set_mach m s) k.
Proof. intros [I1 I2 I3 I4 I5 I6 I7 I8] Hm. by split. Qed.

Lemma pinv_ctl {E} n nl ini (s : ptable E) k k' : (∀ c, k c = k' c) → pinv n nl ini s k → pinv n nl ini s k'.
Proof.
  intros Hk [I1 I2 I3 I4 I5 I6 I7 I8]. split; try done.
  - eapply mach_ok_ext; [|exact I1]. intros c. unfold hd_of. by rewrite Hk.
  - intros c Hc. rewrite <- Hk. by apply I3.
  - intros c Hc. rewrite <- Hk. by apply I4.
  - eapply onto_same; [exact I8|..].
    + intros c. by rewrite Hk.
    + intros c a b. by rewrite Hk.
    + intros c j. by rewrite Hk.
    + intros c j. rewrite <- Hk. apply (o_off _ _ _ I8).
    + intros j. destruct (pt_procs s !! j); constructor. apply quiet_refl.
Qed.

Section wait.
Context {E : Type} `{ProcOps E} (n nl ini : nat) (Hnl : (0 < nl)%nat).
Context (s : ptable E) (k : nat → ctl) (c : nat) (I : pinv n nl ini s k) (safe : bool).

(** The scan of [wait]: either the zombie child it frees, or that there is none. *)
Lemma wait_scan_ok me m0 : ∀ d j hk, pt_procs (set_mach m0 s) = pt_procs s →
  safe = false ∨ (∀ j p, pt_procs s !! j = Some p → p_parent p = Some me → p_state p ≠ ZOMBIE) →
  wlp safe (wait_scan d j me hk) (λ r s', match r with
    | inl pid => ∃ e j' p, pt_procs s !! j' = Some p ∧ p_state p = ZOMBIE ∧
        s' = set_procs (alter (clear_slot ∘ set_kstack 0) j' (pt_procs s)) (set_mach m0 (set_ext e s))
    | inr _ => s' = set_mach m0 s ∧ ∀ j' p, (j ≤ j' < j + d)%nat → pt_procs s !! j' = Some p →
        p_parent p = Some me → p_state p ≠ ZOMBIE
    end) (set_mach m0 s).
Proof.
  intros d. induction d as [|d IH]; intros j hk Hps Hz; cbn [wait_scan].
  { wlp_step. split; [done|]. intros; lia. }
  unfold the_proc, upd_proc. wlp_steps. rewrite Hps.
  assert (Hnext : ∀ b, (∀ p, pt_procs s !! j = Some p → p_parent p = Some me → p_state p ≠ ZOMBIE) →
    wlp safe (wait_scan d (S j) me b) (λ r s', match r with
    | inl pid => ∃ e j' p, pt_procs s !! j' = Some p ∧ p_state p = ZOMBIE ∧
        s' = set_procs (alter (clear_slot ∘ set_kstack 0) j' (pt_procs s)) (set_mach m0 (set_ext e s))
    | inr _ => s' = set_mach m0 s ∧ ∀ j' p, (j ≤ j' < j + S d)%nat → pt_procs s !! j' = Some p →
        p_parent p = Some me → p_state p ≠ ZOMBIE
    end) (set_mach m0 s)).
  { intros b Hj. eapply wlp_mono; [by apply IH|]. intros [pid|h] s'; [done|]. intros [-> Hno]. split; [done|].
    intros j' q Hj' Hq. destruct (decide (j' = j)) as [->|]; [by apply Hj|]. apply (Hno j' q); [lia|done]. }
  destruct (bool_decide_reflect (p_parent (pt_procs s !!! j) = Some me)) as [Epar|Epar]; cbn [negb].
  - unfold is_state. case_bool_decide as Ez.
    + destruct (pt_procs s !! j) as [p|] eqn:Hp.
      * rewrite (list_lookup_total_correct _ _ _ Hp) in *. destruct Hz as [->|Hz]; [|by destruct (Hz j p Hp)].
        wlp_step. apply wlp_ext; [done|]. intros [] e1. wlp_steps. apply wlp_ext; [done|]. intros [] e2. wlp_steps.
        exists e2, j, p. split_and!; [done..|]. by rewrite alter_alter.
      * exfalso. revert Ez. rewrite list_lookup_total_alt, Hp. done.
    + apply Hnext. intros q Hq. by rewrite (list_lookup_total_correct _ _ _ Hq) in Ez.
  - apply Hnext. intros q Hq. by rewrite (list_lookup_total_correct _ _ _ Hq) in Epar.
Qed.

Lemma keep_wait_turn i : k c = InWait i →
  safe = false ∨ (∀ j p, pt_procs s !! j = Some p → p_parent p = Some i → p_state p ≠ ZOMBIE) →
  wlp safe (wait_turn c) (λ r s', pinv n nl ini s' (<[c:=waited i r]> k)) s.
Proof.
  intros Hk Hsz. pose proof (in_range n nl ini Hnl s k c I ltac:(by rewrite Hk)) as Hc.
  destruct (cur_proc n nl ini Hnl s k c I i ltac:(by rewrite Hk)) as (p&Hp&Er&Et&Hu).
  unfold wait_turn, the_proc. wlp_step. eapply wlp_curproc; [apply (pi_mach _ _ _ _ _ I)|done|exact Hu|]. intros m1 Hm1.
  wlp_step. eapply wlp_mono; [by apply (wait_scan_ok i m1)|].
  assert (Hrel : ∀ ps' e, tree ini (pt_nextpid s) ps' → wait_ok ps' →
    (∀ j, option_Forall2 quiet (pt_procs s !! j) (ps' !! j)) →
    wlp safe (release c PTLOCK) (λ _ s', pinv n nl ini s' (<[c:=Running i]> k)) (set_procs ps' (set_mach m1 (set_ext e s)))).
  { intros ps' e T W Q. eapply (wlp_release _ _ _ c PTLOCK [] []); [exact Hm1|done|hd_tac|]. intros m2 Hm2.
    apply (pinv_upd n nl ini Hnl s k c I); cbn; try done.
    - eapply hd_upd; [exact Hm2|hd_tac..].
    - apply (cpus_same s k c (Running i)). by rewrite Hk.
    - eapply onto_quiet; [apply (pi_onto _ _ _ _ _ I)|by rewrite ?Hk..|done]. }
  intros [pid|h] s'.
  - intros (e&j&q&Hq&Ez& ->). wlp_step. eapply wlp_mono; [apply Hrel|by intros; wlp_step].
    + by eapply tree_free; [apply (pi_tree _ _ _ _ _ I)|exact Hq|rewrite Ez|..].
    + by eapply wait_alter_free; [exact Hq|..|apply (pi_wait _ _ _ _ _ I)].
    + intros j'. destruct (decide (j = j')) as [<-|].
      * rewrite list_lookup_alter_eq, Hq. constructor. split; cbn; rewrite ?Ez; naive_solver.
      * rewrite list_lookup_alter_ne by done. destruct (pt_procs s !! j'); constructor. apply quiet_refl.
  - intros [-> Hno]. wlp_steps. cbn [pt_procs set_mach]. rewrite Et.
    destruct (negb h || p_killed p).
    + wlp_step. eapply wlp_mono; [apply (Hrel (pt_procs s) (pt_ext s))|by intros; wlp_step].
      * apply (pi_tree _ _ _ _ _ I).
      * apply (pi_wait _ _ _ _ _ I).
      * intros j. destruct (pt_procs s !! j); constructor. apply quiet_refl.
    + wlp_step. eapply wlp_mono; [eapply (keep_wait_sleep n nl ini Hnl _ k c (pinv_mach _ _ _ _ _ _ I Hm1)); [done|]|by intros; wlp_step].
      intros j q Hq. apply (Hno j q); [|done]. apply lookup_lt_Some in Hq. cbn in Hq.
      rewrite (t_len _ _ _ (pi_tree _ _ _ _ _ I)) in Hq. lia.
Qed.

End wait.

Section wait2.
Context {E : Type} `{ProcOps E} (n nl ini : nat) (Hnl : (0 < nl)%nat).
Context (s : ptable E) (k : nat → ctl) (c : nat) (I : pinv n nl ini s k) (safe : bool).

Lemma keep_wait i : k c = Running i →
  safe = false ∨ (∀ j p, pt_procs s !! j = Some p → p_parent p = Some i → p_state p ≠ ZOMBIE) →
  wlp safe (wait c) (λ r s', pinv n nl ini s' (<[c:=waited i r]> k)) s.
Proof.
  intros Hk Hsz. pose proof (in_range n nl ini Hnl s k c I ltac:(by rewrite Hk)) as Hc.
  destruct (cur_proc n nl ini Hnl s k c I i ltac:(by rewrite Hk)) as (p&Hp&Er&Et&Hu).
  unfold wait. wlp_step. eapply wlp_curproc; [apply (pi_mach _ _ _ _ _ I)|done|exact Hu|]. intros m1 Hm1.
  wlp_step. eapply wlp_acquire; [exact Hm1|done|done|hd_tac|]. intros m2 Hm2 _.
  assert (I2 : pinv n nl ini (set_mach m2 s) (<[c:=InWait i]> k)).
  { apply (pinv_upd n nl ini Hnl s k c I); cbn; try done.
    - eapply hd_upd; [exact Hm2|hd_tac..].
    - apply (cpus_same s k c (InWait i)). by rewrite Hk.
    - apply (pi_tree _ _ _ _ _ I).
    - apply (pi_wait _ _ _ _ _ I).
    - eapply onto_quiet; [apply (pi_onto _ _ _ _ _ I)|by rewrite ?Hk..|].
      intros j. destruct (pt_procs s !! j); constructor. apply quiet_refl. }
  eapply wlp_mono.
  { eapply (keep_wait_turn n nl ini Hnl (set_mach m2 s) (<[c:=InWait i]> k) c I2 safe i); [by rewrite fn_lookup_insert|exact Hsz]. }
  intros r s'. apply pinv_ctl. intros c'. destruct (decide (c = c')) as [<-|]; by rewrite ?fn_lookup_insert, ?fn_lookup_insert_ne.
Qed.
End wait2.
