(* ===== verification/ProcFork.v ===== *)
(** * fork, exit and the boot of the process table

    The remaining steps keep the invariant, it holds when the first process
    has been set up, and what follows for every reachable state. *)

From stdpp Require Import functions.
From S2P Require Import Prelude Params Mmu Str Spinlock Proc ProcInv ProcSafe.

Section fork.
Context {E : Type} `{ProcOps E} (n nl ini : nat) (Hnl : (0 < nl)%nat).
Context (s : ptable E) (k : nat → ctl) (c : nat) (I : pinv n nl ini s k).

Lemma keep_alloc i : k c = Running i → pt_nextpid s < 2 ^ 31 - 1 →
  wlp false (allocproc c) (λ r s', pinv n nl ini s' (<[c:=alloced i r]> k)) s.
Proof.
  intros Hk Hnp. pose proof (in_range n nl ini Hnl s k c I ltac:(by rewrite Hk)) as Hc.
  pose proof (t_np _ _ _ (pi_tree _ _ _ _ _ I)) as Hnp0.
  assert (Hsame : ∀ m', mach_ok n nl (hd_of (<[c:=Running i]> k)) m' → pinv n nl ini (set_mach m' s) (<[c:=Running i]> k)).
  { intros m' Hm'. apply (pinv_upd n nl ini Hnl s k c I); cbn; try done.
    - apply (cpus_same s k c (Running i)). by rewrite Hk.
    - apply (pi_tree _ _ _ _ _ I).
    - apply (pi_wait _ _ _ _ _ I).
    - eapply onto_quiet; [apply (pi_onto _ _ _ _ _ I)|by rewrite ?Hk..|].
      intros j. destruct (pt_procs s !! j); constructor. apply quiet_refl. }
  unfold allocproc, upd_proc. wlp_step. eapply wlp_acquire; [apply (pi_mach _ _ _ _ _ I)|done|done|hd_tac|].
  intros m1 Hm1 _. wlp_steps. cbn [pt_procs set_mach].
  destruct (find_from _ _ _) as [j|] eqn:Ef; cbv beta iota.
  - apply find_from_some in Ef as (_&p&Hp&Eu%bool_decide_eq_true).
    wlp_steps. eapply (wlp_release _ _ _ c PTLOCK [] []); [exact Hm1|done|hd_tac|]. intros m2 Hm2.
    wlp_steps. apply wlp_ext; [done|]. intros ks e. wlp_steps.
    assert (Hm2' : ∀ x, locked x = false → mach_ok n nl (hd_of (<[c:=x]> k)) m2).
    { intros x Hx. eapply hd_upd; [exact Hm2|hd_tac..]. }
    cbn [pt_procs pt_nextpid set_mach set_ext set_procs set_nextpid] in *. rewrite !i32_small by lia.
    destruct (Z.eqb_spec ks 0) as [->|Hks]; wlp_steps; apply (pinv_upd n nl ini Hnl s k c I); cbn; try done.
    + by apply Hm2'.
    + apply (cpus_same s k c (Running i)). by rewrite Hk.
    + rewrite <- !alter_alter. apply tree_grow; [|lia]. eapply tree_free; [apply (pi_tree _ _ _ _ _ I)|exact Hp|by rewrite Eu|done|].
      cbn. apply (t_fresh _ _ _ (pi_tree _ _ _ _ _ I) j p Hp). by rewrite Eu.
    + rewrite <- !alter_alter. by eapply wait_alter_free; [exact Hp|..|apply (pi_wait _ _ _ _ _ I)].
    + rewrite <- !alter_alter. eapply onto_quiet; [apply (pi_onto _ _ _ _ _ I)|by rewrite ?Hk..|].
      intros j'. destruct (decide (j = j')) as [<-|].
      * rewrite list_lookup_alter_eq, Hp. constructor. split; cbn; rewrite ?Eu; naive_solver.
      * rewrite list_lookup_alter_ne by done. destruct (pt_procs s !! j'); constructor. apply quiet_refl.
    + by apply Hm2'.
    + apply (cpus_same s k c (Forking i j)). by rewrite Hk.
    + rewrite <- !alter_alter. by eapply tree_embryo; [apply (pi_tree _ _ _ _ _ I)|lia|exact Hp|..].
    + rewrite <- !alter_alter. by eapply wait_alter_free; [exact Hp|..|apply (pi_wait _ _ _ _ _ I)].
    + rewrite <- !alter_alter. by eapply onto_fork; [apply (pi_onto _ _ _ _ _ I)|exact Hk|exact Hp|..].
  - wlp_step. eapply (wlp_release _ _ _ c PTLOCK [] []); [exact Hm1|done|hd_tac|]. intros m2 Hm2. wlp_step.
    apply Hsame. eapply hd_upd; [exact Hm2|hd_tac..].
Qed.

(** The table while [fork] fills slot [j]. *)
Record filling (i : nat) (d : Z) (g : proc → proc) : Prop := {
  fi_state q : p_state (g q) = p_state q;
  fi_pid q : p_pid (g q) = p_pid q;
  fi_kstack q : p_kstack (g q) = p_kstack q;
  fi_context q : p_context (g q) = p_context q;
  fi_pgdir q : p_pgdir (g q) = d;
  fi_parent q : p_parent (g q) = Some i
}.
Definition filled (i j : nat) (d : Z) (s' : ptable E) : Prop :=
  ∃ e g, s' = set_procs (alter g j (pt_procs s)) (set_ext e s) ∧ filling i d g.

Lemma filled_upd i j d f s' : filled i j d s' →
  (∀ q, p_state (f q) = p_state q ∧ p_pid (f q) = p_pid q ∧ p_kstack (f q) = p_kstack q ∧
        p_context (f q) = p_context q ∧ p_pgdir (f q) = p_pgdir q ∧ p_parent (f q) = p_parent q) →
  filled i j d (set_procs (alter f j (pt_procs s')) s').
Proof.
  intros (e&g&->&[G1 G2 G3 G4 G5 G6]) Hf. exists e, (f ∘ g). split; [by rewrite alter_alter|].
  split; intros q; destruct (Hf (g q)) as (F1&F2&F3&F4&F5&F6); unfold compose; congruence.
Qed.

Lemma filled_ext i j d e s' : filled i j d s' → filled i j d (set_ext e s').
Proof. intros (e'&g&->&G). by exists e, g. Qed.

Lemma dup_filled i j d fd s' : filled i j d s' → wlp false (dup_ofile i j fd) (λ _, filled i j d) s'.
Proof.
  intros F. unfold dup_ofile, the_proc, upd_proc. wlp_steps.
  destruct (p_ofile _ !!! Z.to_nat fd) as [f|]; [|by wlp_steps]. wlp_step. apply wlp_ext; [done|]. intros f' e.
  wlp_step. apply filled_upd; [by apply filled_ext|done].
Qed.

Lemma keep_fill i j : k c = Forking i j →
  wlp false (fork_fill c i j) (λ _ s', pinv n nl ini s' (<[c:=Running i]> k)) s.
Proof.
  intros Hk. pose proof (in_range n nl ini Hnl s k c I ltac:(by rewrite Hk)) as Hc.
  destruct (cur_proc n nl ini Hnl s k c I i ltac:(by rewrite Hk)) as (p&Hp&Er&Et&Hu).
  destruct (o_fork _ _ _ (pi_onto _ _ _ _ _ I) c i j Hk) as (q&Hq&Eq&Hqk&Hqx).
  unfold fork_fill, the_proc, upd_proc. wlp_steps. apply wlp_ext; [done|]. intros d e. rewrite Et. wlp_steps.
  destruct (Z.eqb_spec d 0) as [->|Hd].
  - wlp_steps. apply wlp_ext; [done|]. intros [] e'. wlp_steps. apply (pinv_upd n nl ini Hnl s k c I); cbn; try done.
    + eapply hd_upd; [apply (pi_mach _ _ _ _ _ I)|hd_tac..].
    + apply (cpus_same s k c (Running i)). by rewrite Hk.
    + rewrite <- !alter_alter. eapply tree_free; [apply (pi_tree _ _ _ _ _ I)|exact Hq|by rewrite Eq|done|].
      cbn. apply (t_fresh _ _ _ (pi_tree _ _ _ _ _ I) j q Hq). by rewrite Eq.
    + rewrite <- !alter_alter. by eapply wait_alter_free; [exact Hq|..|apply (pi_wait _ _ _ _ _ I)].
    + rewrite <- !alter_alter. eapply onto_join; [apply (pi_onto _ _ _ _ _ I)|exact Hk|exact Hq|by left|done].
  - wlp_steps. eapply (wlp_for_range _ _ (filled i j d)); [|intros fd s'; apply dup_filled|].
    { exists e. eexists. split; [cbn [pt_procs set_procs]; rewrite <- !alter_alter; reflexivity|by split]. }
    intros s1 F1. destruct (p_cwd p) as [ip|]; [|done]. wlp_step. apply wlp_ext; [done|]. intros ip' e1.
    wlp_steps. eapply (filled_ext _ _ _ e1) in F1.
    eapply (filled_upd _ _ _ (λ q, set_files (p_ofile q) (Some ip') q)) in F1; [|done].
    eapply (filled_upd _ _ _ (λ q, set_name (safestrcpy (p_name q) (p_name p) 16) q)) in F1; [|done].
    match type of F1 with filled _ _ _ ?x => set (s2 := x) in * end. clearbody s2.
    destruct F1 as (e2&g&->&[G1 G2 G3 G4 G5 G6]).
    eapply wlp_acquire; [apply (pi_mach _ _ _ _ _ I)|done|done|hd_tac|]. intros m1 Hm1 _. wlp_steps.
    eapply (wlp_release _ _ _ c PTLOCK [] []); [exact Hm1|done|hd_tac|]. intros m2 Hm2. wlp_step.
    apply (pinv_upd n nl ini Hnl s k c I); cbn; try done; rewrite <- ?alter_alter.
    + eapply hd_upd; [exact Hm2|hd_tac..].
    + apply (cpus_same s k c (Running i)). by rewrite Hk.
    + eapply tree_start; [apply (pi_tree _ _ _ _ _ I)|exact Hq|done|exact Hp|by rewrite Er|done|..]; cbn; congruence.
    + by eapply wait_alter_free; [exact Hq|..|apply (pi_wait _ _ _ _ _ I)].
    + eapply onto_join; [apply (pi_onto _ _ _ _ _ I)|exact Hk|exact Hq|by right|]. cbn. by rewrite G4.
Qed.
End fork.

(** ** exit *)

(** A slot after [exit] of [me] has passed its children on. *)
Record passed (me ini : nat) (b : bool) (p p' : proc) : Prop := {
  pa_state : p_state p' = p_state p ∨ p_state p = SLEEPING ∧ p_state p' = RUNNABLE;
  pa_pid : p_pid p' = p_pid p;
  pa_chan : p_chan p' = p_chan p;
  pa_context : p_context p' = p_context p;
  pa_kstack : p_kstack p' = p_kstack p;
  pa_pgdir : p_pgdir p' = p_pgdir p;
  pa_parent : p_parent p' = if b && bool_decide (p_parent p = Some me) then Some ini else p_parent p
}.

Lemma wakeup1_lookup ch ps i : wakeup1 ch ps !! i =
  (λ p, if is_state SLEEPING p && bool_decide (p_chan p = ch) then set_state RUNNABLE p else p) <$> ps !! i.
Proof. apply list_lookup_fmap. Qed.

Lemma wakeup1_passed me ini ch ps i p' : wakeup1 ch ps !! i = Some p' →
  ∃ p, ps !! i = Some p ∧ passed me ini false p p' ∧ (p_state p' = SLEEPING → p_chan p' ≠ ch).
Proof.
  rewrite wakeup1_lookup. intros (p&Hp& ->)%fmap_Some. exists p. split; [done|]. unfold is_state.
  destruct (bool_decide_reflect (p_state p = SLEEPING)) as [Es|Es], (bool_decide_reflect (p_chan p = ch)) as [Ec|Ec];
    cbn; (split; [split; cbn; auto|done]).
Qed.

Lemma passed_trans me ini b p1 p2 p3 : me ≠ ini → passed me ini false p1 p2 → passed me ini b p2 p3 → passed me ini b p1 p3.
Proof.
  intros Hne [A1 A2 A3 A4 A5 A6 A7] [B1 B2 B3 B4 B5 B6 B7]. cbn in A7. rewrite A7 in B7.
  split; [|congruence..]. destruct A1 as [A1|[A1 A1']], B1 as [B1|[B1 B1']]; rewrite ?A1' in *; intuition congruence.
Qed.

Lemma passed_trans_r me ini b p1 p2 p3 : me ≠ ini → passed me ini b p1 p2 → passed me ini false p2 p3 → passed me ini b p1 p3.
Proof.
  intros Hne [A1 A2 A3 A4 A5 A6 A7] [B1 B2 B3 B4 B5 B6 B7]. cbn in B7. rewrite A7 in B7.
  split; [|congruence..]. destruct A1 as [A1|[A1 A1']], B1 as [B1|[B1 B1']]; rewrite ?A1' in *; intuition congruence.
Qed.

(** One turn of the loop. *)
Lemma pass_turn me ini ps j : me ≠ ini →
  let ps1 := if bool_decide (p_parent (ps !!! j) = Some me) then
           let ps' := alter (set_parent (Some ini)) j ps in
           if is_state ZOMBIE (ps !!! j) then wakeup1 (Some (ChanProc ini)) ps' else ps'
         else ps in
  ∀ i p1, ps1 !! i = Some p1 → ∃ p, ps !! i = Some p ∧ passed me ini (bool_decide (i = j)) p p1 ∧
    (p_state p1 = SLEEPING → p_chan p1 = Some (ChanProc ini) →
     ∀ q, ps !! j = Some q → p_parent q = Some me → p_state q ≠ ZOMBIE).
Proof.
  intros Hne ps1 i p1 Hp1. unfold ps1 in Hp1. clear ps1.
  destruct (bool_decide_reflect (p_parent (ps !!! j) = Some me)) as [Epar|Epar].
  - assert (Ha : ∀ p', alter (set_parent (Some ini)) j ps !! i = Some p' →
      ∃ p, ps !! i = Some p ∧ passed me ini (bool_decide (i = j)) p p').
    { intros p' Hp'. destruct (decide (i = j)) as [->|Hi].
      - rewrite list_lookup_alter_eq in Hp'. destruct (ps !! j) as [p|] eqn:Hp; [|done]. injection Hp' as <-.
        exists p. split; [done|]. rewrite (list_lookup_total_correct _ _ _ Hp) in Epar.
        split; cbn; auto. by rewrite !bool_decide_eq_true_2.
      - rewrite list_lookup_alter_ne in Hp' by done. exists p'. split; [done|].
        split; auto. by rewrite bool_decide_eq_false_2. }
    cbn zeta in Hp1. unfold is_state in Hp1.
    destruct (bool_decide_reflect (p_state (ps !!! j) = ZOMBIE)) as [Ez|Ez].
    + apply (wakeup1_passed me ini) in Hp1 as (p2&Hp2&P2&Hw). destruct (Ha p2 Hp2) as (p&Hp&P). exists p.
      split; [done|]. split; [by eapply passed_trans_r|]. intros Es Ec. by destruct (Hw Es).
    + destruct (Ha p1 Hp1) as (p&Hp&P). exists p. split_and!; [done..|]. intros _ _ q Hq _.
      by rewrite (list_lookup_total_correct _ _ _ Hq) in Ez.
  - exists p1. split_and!; [done| |].
    + split; auto. destruct (bool_decide_reflect (i = j)) as [->|]; [|done].
      rewrite (list_lookup_total_correct _ _ _ Hp1) in Epar. by rewrite bool_decide_eq_false_2.
    + intros _ _ q Hq. by rewrite (list_lookup_total_correct _ _ _ Hq) in Epar.
Qed.

Lemma pass_turn_length me ini ps j :
  length (if bool_decide (p_parent (ps !!! j) = Some me) then
           let ps' := alter (set_parent (Some ini)) j ps in
           if is_state ZOMBIE (ps !!! j) then wakeup1 (Some (ChanProc ini)) ps' else ps'
         else ps) = length ps.
Proof.
  case_bool_decide; [|done]. cbn zeta. unfold wakeup1. destruct (is_state _ _); by rewrite ?length_fmap, length_alter.
Qed.

(** The whole loop: init is awake if it was passed a zombie. *)
Lemma pass_children_spec me ini : me ≠ ini → ∀ d j ps,
  length (pass_children d j me (Some ini) ps) = length ps ∧
  ∀ i p', pass_children d j me (Some ini) ps !! i = Some p' →
    ∃ p, ps !! i = Some p ∧ passed me ini (bool_decide (j ≤ i < j + d)%nat) p p' ∧
      (p_state p' = SLEEPING → p_chan p' = Some (ChanProc ini) →
       ∀ j' q, (j ≤ j' < j + d)%nat → ps !! j' = Some q → p_parent q = Some me → p_state q ≠ ZOMBIE).
Proof.
  intros Hne d. induction d as [|d IH]; intros j ps; cbn [pass_children].
  { split; [done|]. intros i p' Hp'. exists p'. split_and!; [done| |intros; lia]. split; auto.
    by rewrite bool_decide_eq_false_2 by lia. }
  match goal with |- context [pass_children d (S j) me (Some ini) ?x] => set (ps1 := x) end.
  assert (length ps1 = length ps) as Hl1 by apply pass_turn_length.
  destruct (IH (S j) ps1) as [IHl IHp]. split; [congruence|].
  intros i p' Hp'. destruct (IHp i p' Hp') as (p1&Hp1&P1&W1).
  destruct (pass_turn me ini ps j Hne i p1 Hp1) as (p&Hp&P&W). exists p. split; [done|]. split.
  - destruct (bool_decide_reflect (i = j)) as [->|Hij].
    + rewrite (bool_decide_eq_false_2 (S j ≤ j < _)%nat) in P1 by lia. rewrite bool_decide_eq_true_2 by lia.
      by eapply passed_trans_r.
    + rewrite (bool_decide_ext (j ≤ i < j + S d)%nat (S j ≤ i < S j + d)%nat) by lia. by eapply passed_trans.
  - intros Es Ec j' q Hj' Hq Eq Ez.
    assert (p_state p1 = SLEEPING) as Es1 by (destruct (pa_state _ _ _ _ _ P1) as [|[? ?]]; congruence).
    pose proof (pa_chan _ _ _ _ _ P1) as Ec1. destruct (decide (j' = j)) as [->|Hjj].
    { apply (W Es1 ltac:(congruence) q Hq Eq Ez). }
    assert (is_Some (ps1 !! j')) as [q1 Hq1].
    { apply lookup_lt_is_Some. rewrite Hl1. by eapply lookup_lt_Some. }
    destruct (pass_turn me ini ps j Hne j' q1 Hq1) as (q'&Hq'&Q&_). simplify_eq.
    rewrite bool_decide_eq_false_2 in Q by done.
    apply (W1 Es Ec j' q1 ltac:(lia) Hq1).
    + by rewrite (pa_parent _ _ _ _ _ Q).
    + destruct (pa_state _ _ _ _ _ Q) as [|[? ?]]; congruence.
Qed.

#[local] Opaque pass_children.

Section exit_table.
Context (ini me : nat) (np : Z) (ps : list proc) (pm : proc).
Context (T : tree ini np ps) (Hne : me ≠ ini) (Hpm : ps !! me = Some pm) (Hrun : p_state pm = RUNNING).

(** The table when the children of [me] have been passed on. *)
Definition handed_on : list proc :=
  pass_children NPROC 0 me (Some ini) (wakeup1 (ChanProc <$> p_parent pm) ps).

Lemma handed_on_length : length handed_on = NPROC.
Proof using Hne T.
  unfold handed_on. rewrite (proj1 (pass_children_spec me ini Hne NPROC 0 (wakeup1 (ChanProc <$> p_parent pm) ps))). unfold wakeup1.
  rewrite length_fmap. apply (t_len _ _ _ T).
Qed.

Lemma handed_on_lookup i p' : handed_on !! i = Some p' → ∃ p, ps !! i = Some p ∧ passed me ini true p p' ∧
  (p_state p' = SLEEPING → p_chan p' ≠ ChanProc <$> p_parent pm) ∧
  (p_state p' = SLEEPING → p_chan p' = Some (ChanProc ini) →
     ∀ j q, ps !! j = Some q → p_parent q = Some me → p_state q ≠ ZOMBIE).
Proof using Hne T.
  intros Hp'. pose proof (lookup_lt_Some _ _ _ Hp') as Hi. rewrite handed_on_length in Hi.
  destruct (pass_children_spec me ini Hne NPROC 0 (wakeup1 (ChanProc <$> p_parent pm) ps)) as [_ HS].
  destruct (HS i p' Hp') as (p1&Hp1&P1&W1). clear HS.
  rewrite bool_decide_eq_true_2 in P1 by lia.
  apply (wakeup1_passed me ini) in Hp1 as (p&Hp&P&Hw). exists p. split; [done|]. split; [by eapply passed_trans|].
  assert (p_state p' = SLEEPING → p_state p1 = SLEEPING) as Es by (destruct (pa_state _ _ _ _ _ P1) as [|[? ?]]; congruence).
  split.
  - intros E. rewrite (pa_chan _ _ _ _ _ P1). by apply Hw, Es.
  - intros E Ec j q Hq Eq Ez. pose proof (lookup_lt_Some _ _ _ Hq) as Hj. rewrite (t_len _ _ _ T) in Hj.
    assert (Hq1 : wakeup1 (ChanProc <$> p_parent pm) ps !! j = Some q).
    { rewrite wakeup1_lookup, Hq. cbn. unfold is_state. by rewrite Ez. }
    by apply (W1 E Ec j q ltac:(lia) Hq1).
Qed.

End exit_table.

(** Of [handed_on] only the two lemmas above are used. *)
Section exited.
Context (ini me : nat) (np : Z) (ps : list proc) (pm : proc).
Context (T : tree ini np ps) (Hne : me ≠ ini) (Hpm : ps !! me = Some pm) (Hrun : p_state pm = RUNNING).
Context (hx : list proc) (Hlen : length hx = NPROC).
Context (Hlook : ∀ i p', hx !! i = Some p' → ∃ p, ps !! i = Some p ∧ passed me ini true p p' ∧
  (p_state p' = SLEEPING → p_chan p' ≠ ChanProc <$> p_parent pm) ∧
  (p_state p' = SLEEPING → p_chan p' = Some (ChanProc ini) →
     ∀ j q, ps !! j = Some q → p_parent q = Some me → p_state q ≠ ZOMBIE)).

Lemma passed_alive b p p' : passed me ini b p p' → alive (p_state p') = alive (p_state p) ∧ started (p_state p') = started (p_state p) ∧
  (p_state p' = UNUSED ↔ p_state p = UNUSED).
Proof using. clear. intros P. destruct (pa_state _ _ _ _ _ P) as [-> |[-> ->]]; done. Qed.

Lemma hx_lookup_r i p : ps !! i = Some p → ∃ p', hx !! i = Some p' ∧ passed me ini true p p'.
Proof using T Hne Hlen Hlook.
  intros Hp. pose proof (lookup_lt_Some _ _ _ Hp) as Hi. rewrite (t_len _ _ _ T), <- Hlen in Hi.
  apply lookup_lt_is_Some_2 in Hi as [p' Hp']. destruct (Hlook i p' Hp') as (q&Hq&P&_). simplify_eq. eauto.
Qed.

Context (f : proc → proc) (Hst : ∀ p, p_state (f p) = ZOMBIE) (Hpid : ∀ p, p_pid (f p) = p_pid p).
Context (Hpar : ∀ p, p_parent (f p) = p_parent p) (Hmem : ∀ p, p_kstack (f p) = p_kstack p ∧ p_pgdir (f p) = p_pgdir p).

(** A slot of the table after [exit]. *)
Lemma exited_lookup i p' : alter f me hx !! i = Some p' →
  ∃ p x, ps !! i = Some p ∧ hx !! i = Some x ∧ passed me ini true p x ∧
    (i = me ∧ p' = f x ∨ i ≠ me ∧ p' = x).
Proof using T Hne Hlen Hlook.
  intros Hp'. destruct (decide (i = me)) as [->|Hi].
  - rewrite list_lookup_alter_eq in Hp'. destruct (hx !! me) as [x|] eqn:Hx; [|done]. injection Hp' as <-.
    destruct (Hlook me x Hx) as (p&Hp&P&_). exists p, x. split_and!; [done..|by left].
  - rewrite list_lookup_alter_ne in Hp' by done. destruct (Hlook i p' Hp') as (p&Hp&P&_). exists p, p'. split_and!; [done..|by right].
Qed.

Lemma tree_exit : tree ini np (alter f me hx).
Proof using Hlen Hlook T Hne Hpm Hrun Hst Hpid Hpar Hmem.
  pose proof T as [T1 T2 T3 T4 T5 T6 T7 T8 T9 T10].
  assert (Hini : ∃ p, alter f me hx !! ini = Some p ∧ alive (p_state p) = true).
  { destruct T3 as (p&Hp&Ha). destruct (hx_lookup_r ini p Hp) as (x&Hx&P). exists x.
    rewrite list_lookup_alter_ne by done. by rewrite (proj1 (passed_alive _ _ _ P)). }
  assert (Hrec : ∀ i p', alter f me hx !! i = Some p' → ∃ p, ps !! i = Some p ∧ p_pid p' = p_pid p ∧
    (p_state p' ≠ UNUSED → p_state p ≠ UNUSED) ∧ started (p_state p') = started (p_state p) ∧
    p_kstack p' = p_kstack p ∧ p_pgdir p' = p_pgdir p ∧
    p_parent p' = if bool_decide (p_parent p = Some me) then Some ini else p_parent p).
  { intros i p' Hp'. destruct (exited_lookup i p' Hp') as (p&x&Hp&Hx&P&[[-> ->]|[Hi ->]]); exists p;
      destruct (passed_alive _ _ _ P) as (A1&A2&A3), P as [P1 P2 P3 P4 P5 P6 P7]; (split; [done|]).
    - simplify_eq. rewrite Hst, Hpid, Hpar, P7, Hrun. destruct (Hmem x) as [-> ->]. by split_and!.
    - split_and!; [done|tauto|done..]. }
  split.
  - rewrite length_alter. apply Hlen.
  - done.
  - done.
  - intros i p' Hp' Hu. destruct (Hrec i p' Hp') as (p&Hp&Ei&Eu&_). rewrite Ei. by eapply T4; [|apply Eu].
  - intros i j p' q' Hp' Hq' Hu Hv Eid. destruct (Hrec i p' Hp') as (p&Hp&Ei&Eu&_), (Hrec j q' Hq') as (q&Hq&Ej&Ev&_).
    apply (T5 i j p q); auto. congruence.
  - intros i p' Hp' Hs. destruct (Hrec i p' Hp') as (p&Hp&_&_&Es&_&_&->). rewrite Es in Hs.
    by rewrite (T6 i p Hp Hs).
  - intros i p' Hp' Hs. destruct (Hrec i p' Hp') as (p&Hp&_&_&Es&->& ->&_). rewrite Es in Hs. by eapply T7.
  - intros i p' Hp' Hs Hi. destruct (Hrec i p' Hp') as (p&Hp&_&_&Es&_&_&->). rewrite Es in Hs.
    case_bool_decide as Epar; [destruct Hini as (x&Hx&Ha); eauto|].
    destruct (T8 i p Hp Hs Hi) as (q&pq&E1&E2&E3). destruct (hx_lookup_r q pq E2) as (x&Hx&P).
    exists q, x. split; [done|]. rewrite (proj1 (passed_alive _ _ _ P)). split; [|done].
    rewrite list_lookup_alter_ne; [done|]. intros <-. congruence.
  - intros p' Hp'. destruct (Hrec ini p' Hp') as (p&Hp&_&_&_&_&_&->). by rewrite (T9 p Hp).
  - intros i p' Hp'. destruct (Hrec i p' Hp') as (p&Hp&_&_&_&_&_&->). case_bool_decide as Epar; [|by eapply T10].
    intros [= <-]. rewrite (T9 p Hp) in Epar. done.
Qed.

Lemma wait_exit : wait_ok ps → wait_ok (alter f me hx).
Proof using Hlen Hlook T Hne Hpm Hrun Hst Hpar.
  intros W i p' q Hp' Es Ec. destruct (exited_lookup i p' Hp') as (p&x&Hp&Hx&P&[[-> ->]|[Hi ->]]).
  { by rewrite Hst in Es. }
  destruct (Hlook i x Hx) as (p0&Hp0&_&W1&W2). simplify_eq.
  assert (p_state p = SLEEPING) as Es0 by (destruct (pa_state _ _ _ _ _ P) as [|[? ?]]; congruence).
  destruct (W i p q Hp Es0 ltac:(by rewrite <- (pa_chan _ _ _ _ _ P))) as [-> Hz]. split; [done|].
  intros j pj' Hj' Epar Ez. destruct (exited_lookup j pj' Hj') as (pj&y&Hj&Hy&Pj&[[-> ->]|[Hji ->]]).
  - simplify_eq. rewrite Hpar, (pa_parent _ _ _ _ _ Pj) in Epar. cbn in Epar.
    rewrite bool_decide_eq_false_2 in Epar by apply (t_self _ _ _ T me pm Hpm).
    apply (W1 Es). by rewrite Ec, Epar.
  - assert (p_state pj = ZOMBIE) as Ez0 by (destruct (pa_state _ _ _ _ _ Pj) as [|[? ?]]; congruence).
    rewrite (pa_parent _ _ _ _ _ Pj) in Epar. cbn in Epar. case_bool_decide as Eme.
    + injection Epar as <-. by apply (W2 Es Ec j pj).
    + by apply (Hz j pj Hj).
Qed.

Lemma exited_quiet j : j ≠ me → option_Forall2 quiet (ps !! j) (alter f me hx !! j).
Proof using T Hne Hlen Hlook.
  intros Hj. rewrite list_lookup_alter_ne by done. destruct (hx !! j) as [x|] eqn:Hx.
  - destruct (Hlook j x Hx) as (p&Hp&P&_). rewrite Hp. constructor.
    destruct (pa_state _ _ _ _ _ P) as [E|[E1 E2]].
    + split; rewrite ?E; try done; [intros; apply (pa_kstack _ _ _ _ _ P)|apply (pa_context _ _ _ _ _ P)].
    + split; rewrite ?E1, ?E2; try done; [tauto|apply (pa_context _ _ _ _ _ P)].
  - destruct (ps !! j) as [p|] eqn:Hp; [|constructor]. destruct (hx_lookup_r j p Hp) as (x&Hx'&_). congruence.
Qed.
End exited.

Section exit.
Context {E : Type} `{ProcOps E} (n nl ini : nat) (Hnl : (0 < nl)%nat).
Context (s : ptable E) (k : nat → ctl) (c : nat) (I : pinv n nl ini s k) (safe : bool).

Lemma keep_exit_tail i : k c = Running i → i ≠ ini →
  wlp safe (exit_tail c i (Some ini)) (λ _ s', pinv n nl ini s' (<[c:=Off i]> k)) s.
Proof.
  intros Hk Hne. pose proof (in_range n nl ini Hnl s k c I ltac:(by rewrite Hk)) as Hc.
  destruct (cur_proc n nl ini Hnl s k c I i ltac:(by rewrite Hk)) as (p&Hp&Er&Et&Hu).
  pose proof (pi_tree _ _ _ _ _ I) as T.
  unfold exit_tail, the_proc, upd_proc. wlp_step. eapply wlp_acquire; [apply (pi_mach _ _ _ _ _ I)|done|done|hd_tac|].
  intros m1 Hm1 _. wlp_steps. cbn [pt_procs set_mach set_procs]. rewrite Et.
  change (pass_children NPROC 0 i (Some ini) (wakeup1 (ChanProc <$> p_parent p) (pt_procs s))) with (handed_on ini i (pt_procs s) p).
  pose proof (handed_on_length ini i _ _ p T Hne) as Hlen. pose proof (handed_on_lookup ini i _ _ p T Hne) as Hlook.
  revert Hlen Hlook. generalize (handed_on ini i (pt_procs s) p) as hx. intros hx Hlen Hlook.
  destruct (hx_lookup_r ini i _ _ _ T Hne hx Hlen Hlook i p Hp) as (x&Hx&_).
  eapply wlp_sched; [exact Hm1|done|exact Hu|hd_tac| |].
  { cbn. by rewrite (alter_total _ _ _ _ Hx). }
  intros m2 b Hm2. apply (pinv_upd n nl ini Hnl s k c I); cbn [pt_mach pt_procs pt_init pt_cpus pt_nextpid set_mach set_procs];
    try done; rewrite <- ?alter_alter.
  - eapply hd_upd; [exact Hm2|hd_tac..].
  - apply (cpus_same s k c (Off i)). by rewrite Hk.
  - by eapply tree_exit.
  - by eapply wait_exit; [..|apply (pi_wait _ _ _ _ _ I)].
  - eapply (onto_move nl k _ _ c (Off i) (pi_onto _ _ _ _ _ I)) with (i := i) (p := p); try done.
    + by rewrite Hk.
    + intros j [= <-]. rewrite <- (t_len _ _ _ T). by eapply lookup_lt_Some.
    + rewrite Hk. by right.
    + by left.
    + by rewrite list_lookup_alter_eq, Hx.
    + by rewrite Er.
    + done.
    + by rewrite Er, Hk.
    + done.
    + by intros [?|[?|?]].
    + intros j Hj. by eapply exited_quiet.
Qed.
End exit.

Section own.
Context {E : Type} `{ProcOps E} (s : ptable E).

(** The table when the process has changed its own slot only. *)
Definition own (i : nat) (s' : ptable E) : Prop :=
  ∃ e g, s' = set_procs (alter g i (pt_procs s)) (set_ext e s) ∧ ∀ q, own_change q (g q).

Lemma own_upd i f s' : own i s' → (∀ q, own_change q (f q)) → own i (set_procs (alter f i (pt_procs s')) s').
Proof.
  intros (e&g&->&Hg) Hf. exists e, (f ∘ g). split; [by rewrite alter_alter|]. intros q. unfold compose.
  destruct (Hg q), (Hf (g q)). split; [congruence..|auto].
Qed.

Lemma own_ext i e s' : own i s' → own i (set_ext e s').
Proof. intros (e'&g&->&G). by exists e, g. Qed.

Lemma own_refl i : own i s.
Proof. exists (pt_ext s), id. split; [|by split]. rewrite list_alter_id by done. by destruct s. Qed.

Lemma close_own i fd s' : own i s' → wlp false (close_ofile i fd) (λ _, own i) s'.
Proof.
  intros F. unfold close_ofile, the_proc, upd_proc. wlp_steps.
  destruct (p_ofile _ !!! Z.to_nat fd) as [f|]; [|by wlp_steps]. wlp_step. apply wlp_ext; [done|]. intros [] e.
  wlp_step. apply own_upd; [by apply own_ext|by split].
Qed.

Lemma exit_files_own i : wlp false (exit_files i) (λ _, own i) s.
Proof.
  unfold exit_files, the_proc, upd_proc. wlp_step.
  eapply (wlp_for_range _ _ (own i)); [apply own_refl|intros fd s'; apply close_own|]. intros s1 F1.
  wlp_step. apply wlp_ext; [done|]. intros [] e1. apply (own_ext _ e1) in F1. wlp_steps.
  destruct (p_cwd _) as [ip|]; [|done]. apply wlp_ext; [done|]. intros [] e2. apply (own_ext _ e2) in F1. wlp_steps.
  apply wlp_ext; [done|]. intros [] e3. apply (own_ext _ e3) in F1. wlp_step. apply own_upd; [done|by split].
Qed.
End own.

Lemma keep_exit {E} `{ProcOps E} n nl ini (Hnl : (0 < nl)%nat) (s : ptable E) k c (I : pinv n nl ini s k) i :
  k c = Running i → wlp false (exit c) (λ _ s', pinv n nl ini s' (<[c:=Off i]> k)) s.
Proof.
  intros Hk. pose proof (in_range n nl ini Hnl s k c I ltac:(by rewrite Hk)) as Hc.
  destruct (cur_proc n nl ini Hnl s k c I i ltac:(by rewrite Hk)) as (p&Hp&Er&Et&Hu).
  unfold exit. wlp_step. eapply wlp_curproc; [apply (pi_mach _ _ _ _ _ I)|done|exact Hu|]. intros m1 Hm1. wlp_steps.
  cbn [pt_init set_mach]. rewrite (pi_init _ _ _ _ _ I). case_bool_decide as Ei; [done|].
  pose proof (pinv_mach _ _ _ _ _ m1 I Hm1) as I1. wlp_step. eapply wlp_mono; [apply exit_files_own|].
  intros [] s2 (e&g&->&Hg). apply keep_exit_tail; [done| |done|congruence].
  by apply (keep_own n nl ini Hnl _ k c I1 i g e Hk).
Qed.

(** ** All steps *)

Lemma pstep_inv {E} `{ProcOps E} n nl ini (Hnl : (0 < nl)%nat) (x y : psys E) :
  pstep n nl x y → pinv n nl ini x.1 x.2 → pinv n nl ini y.1 y.2.
Proof.
  intros Hst I. destruct Hst as [s k c r s' Hc Hk R|s k c i r s' Hk R|s k c i s' Hk R|s k c i s' Hk R
    |s k c i ch lk s' Hk Hch Hlk Hlt R|s k c ch s' Hc Hl R|s k c i pid r s' Hk R|s k c i s' Hk R|s k c i r s' Hk R
    |s k c i r s' Hk R|s k c i r s' Hk Hnp R|s k c i j r s' Hk R|s k c i d r s' Hk R|s k c i f e Hk Hf]; cbn in *.
  - exact (wlp_elim false _ _ _ _ _ (keep_round n nl ini Hnl _ _ _ I false Hc Hk) R).
  - exact (wlp_elim false _ _ _ _ _ (keep_back n nl ini Hnl _ _ _ I false i Hk) R).
  - exact (wlp_elim false _ _ _ _ _ (keep_resume n nl ini Hnl _ _ _ I false i Hk (or_introl eq_refl)) R).
  - exact (wlp_elim false _ _ _ _ _ (keep_yield n nl ini Hnl _ _ _ I false i Hk) R).
  - exact (wlp_elim false _ _ _ _ _ (keep_sleep n nl ini Hnl _ _ _ I false i ch lk Hk Hch Hlk Hlt) R).
  - exact (wlp_elim false _ _ _ _ _ (keep_wakeup n nl ini Hnl _ _ _ I false ch Hc Hl) R).
  - exact (wlp_elim false _ _ _ _ _ (keep_kill n nl ini Hnl _ _ _ I false i pid Hk) R).
  - exact (wlp_elim false _ _ _ _ _ (keep_exit n nl ini Hnl _ _ _ I i Hk) R).
  - exact (wlp_elim false _ _ _ _ _ (keep_wait n nl ini Hnl _ _ _ I false i Hk (or_introl eq_refl)) R).
  - exact (wlp_elim false _ _ _ _ _ (keep_wait_turn n nl ini Hnl _ _ _ I false i Hk (or_introl eq_refl)) R).
  - exact (wlp_elim false _ _ _ _ _ (keep_alloc n nl ini Hnl _ _ _ I i Hk Hnp) R).
  - exact (wlp_elim false _ _ _ _ _ (keep_fill n nl ini Hnl _ _ _ I i j Hk) R).
  - exact (wlp_elim false _ _ _ _ _ (keep_grow n nl ini Hnl _ _ _ I false i d eq_refl Hk) R).
  - exact (keep_own n nl ini Hnl _ _ _ I i f e Hk Hf).
Qed.

(** ** Boot *)

(** The kernel's data when [main] calls [userinit]. *)
Definition boot_table {E} (n nl : nat) (e : E) : ptable E :=
  mkpt e (s_m (start n nl (λ _, false))) (replicate NPROC zero_proc) 1 None (replicate n (mkcpust None None)) true.

Lemma boot_mach n nl : mach_ok n nl (hd_of (λ _, Idle)) (s_m (start n nl (λ _, false))).
Proof.
  split_and!; [by cbn; rewrite length_fmap, length_seq|by cbn; rewrite length_replicate|].
  exists (λ _, O), (λ _, None), (λ _, false). split_and!; [done..|]. apply (start_inv n nl (λ _, false)).
Qed.

(** A table whose slot 0 alone is in use. *)
Lemma boot_pinv {E} n nl (s : ptable E) f : (0 < n)%nat → pt_procs s = alter f 0%nat (replicate NPROC zero_proc) →
  mach_ok n nl (hd_of (λ _, Idle)) (pt_mach s) → pt_cpus s = replicate n (mkcpust None None) → pt_init s = Some 0%nat →
  pt_nextpid s = 2 → p_state (f zero_proc) = RUNNABLE → p_pid (f zero_proc) = 1 → p_parent (f zero_proc) = None →
  p_kstack (f zero_proc) ≠ 0 → p_pgdir (f zero_proc) ≠ 0 → p_context (f zero_proc) = CtxForkret →
  pinv n nl 0 s (λ _, Idle).
Proof.
  intros Hn Hps Hm Hcpu Hi Hnp Fs Fpid Fpar Fk Fd Fx.
  assert (Hz : replicate NPROC zero_proc !! 0%nat = Some zero_proc) by done.
  assert (Hl : ∀ i p, pt_procs s !! i = Some p → i = 0%nat ∧ p = f zero_proc ∨ i ≠ 0%nat ∧ p = zero_proc).
  { intros i p Hp. rewrite Hps in Hp. apply (alter_cases f 0 _ _ Hz) in Hp as [?|[? [-> _]%lookup_replicate]]; auto. }
  assert (H0 : pt_procs s !! 0%nat = Some (f zero_proc)) by (by rewrite Hps, list_lookup_alter_eq, Hz).
  split; try done.
  - by rewrite Hcpu, length_replicate.
  - intros c Hc. rewrite Hcpu. by rewrite lookup_total_replicate_2.
  - rewrite Hnp. split; try lia.
    + by rewrite Hps, length_alter, length_replicate.
    + exists (f zero_proc). by rewrite Fs.
    + intros i p [[-> ->]|[? ->]]%Hl Hu; [rewrite Fpid; lia|done].
    + by intros i j p q [[-> ->]|[? ->]]%Hl [[-> ->]|[? ->]]%Hl Hu Hv.
    + by intros i p [[-> ->]|[? ->]]%Hl; rewrite ?Fs.
    + by intros i p [[-> ->]|[? ->]]%Hl; rewrite ?Fs.
    + by intros i p [[-> ->]|[? ->]]%Hl; rewrite ?Fs.
    + by intros p [[_ ->]|[? ->]]%Hl.
    + by intros i p [[-> ->]|[? ->]]%Hl; rewrite ?Fpar.
  - by intros i p q [[-> ->]|[? ->]]%Hl; rewrite ?Fs.
  - split; try done.
    + by intros i p [[-> ->]|[? ->]]%Hl; rewrite ?Fs.
    + by intros i p [[-> ->]|[? ->]]%Hl; rewrite ?Fs.
    + intros i p [[-> ->]|[? ->]]%Hl; [by rewrite Fx|]. by intros [?|?].
Qed.

Lemma userinit_inv {E} `{ProcOps E} n nl e : (0 < n)%nat → (0 < nl)%nat →
  wlp false (userinit 0) (λ _ s, pinv n nl 0 s (λ _, Idle)) (boot_table n nl e).
Proof.
  intros Hn Hnl. unfold userinit, allocproc, upd_proc, the_proc. wlp_steps.
  eapply wlp_acquire; [apply boot_mach|done|done|hd_tac|]. intros m1 Hm1 _. wlp_steps.
  change (find_from (is_state UNUSED) 0 (pt_procs (set_mach m1 (boot_table n nl e)))) with (Some 0%nat). cbv iota.
  wlp_steps. eapply (wlp_release _ _ _ 0%nat PTLOCK [] []); [exact Hm1|done|hd_tac|]. intros m2 Hm2.
  wlp_steps. apply wlp_ext; [done|]. intros ks e1. wlp_steps. 
  destruct (Z.eqb_spec ks 0) as [->|Hks]; wlp_steps; [done|]. apply wlp_ext; [done|]. intros d e2. wlp_steps.
  destruct (Z.eqb_spec d 0) as [->|Hd]; [done|]. wlp_step. apply wlp_ext; [done|]. intros [] e3. wlp_steps.
  apply wlp_ext; [done|]. intros ip e4. wlp_steps.
  eapply wlp_acquire; [exact Hm2|done|done|hd_tac|]. intros m3 Hm3 _. wlp_steps.
  eapply (wlp_release _ _ _ 0%nat PTLOCK [] []); [exact Hm3|done|hd_tac|]. intros m4 Hm4.
  eapply boot_pinv; cbn [pt_procs pt_mach pt_cpus pt_init pt_nextpid set_mach set_procs set_ext set_init set_nextpid boot_table];
    [done|rewrite <- !alter_alter; reflexivity| |done..].
  eapply mach_ok_ext; [|exact Hm4]. intros c. destruct (decide (0%nat = c)) as [<-|]; hd_tac.
Qed.

(** The states the kernel reaches from boot. *)
Definition reachable {E} `{ProcOps E} (n nl : nat) (s : ptable E) (k : nat → ctl) : Prop :=
  ∃ e s0, userinit 0 (boot_table n nl e) = Done tt s0 ∧ rtc (pstep n nl) (s0, λ _, Idle) (s, k).

Lemma proc_reachable_inv {E} `{ProcOps E} n nl (s : ptable E) k : (0 < n)%nat → (0 < nl)%nat →
  reachable n nl s k → pinv n nl 0 s k.
Proof.
  intros Hn Hnl (e&s0&Hb&Hr). pose proof (wlp_elim false _ _ _ _ _ (userinit_inv n nl e Hn Hnl) Hb) as I0.
  change (pinv n nl 0 (s, k).1 (s, k).2). change (pinv n nl 0 (s0, λ _ : nat, Idle).1 (s0, λ _ : nat, Idle).2) in I0.
  revert I0. induction Hr as [|x y z Hxy _ IH]; intros I0; [done|]. apply IH. by eapply pstep_inv.
Qed.

(** ** What holds in every reachable state *)

Section claims.
Context {E : Type} `{ProcOps E} (n nl : nat) (Hn : (0 < n)%nat) (Hnl : (0 < nl)%nat).
Context (s : ptable E) (k : nat → ctl).

(** [m] neither panics nor follows a null pointer. *)
Definition no_panic {A} (m : M (ptable E) A) : Prop :=
  match m s with Panic _ | Undef => False | _ => True end.

Lemma wlp_no_panic {A} (m : M (ptable E) A) Q : wlp true m Q s → no_panic m.
Proof. unfold wlp, no_panic. by destruct (m s). Qed.


(** C8: no exit is missed and nobody is left without a parent: every process
    but init has a parent that is alive, orphans included; and the parent of
    a zombie is not asleep in [wait], so the zombie will be reaped.  A process
    asleep on a process slot is asleep in its own [wait]. *)
Theorem zombie_parent_awake : reachable n nl s k →
  (∀ i p, pt_procs s !! i = Some p → started (p_state p) = true → i ≠ 0%nat →
     ∃ q pq, p_parent p = Some q ∧ pt_procs s !! q = Some pq ∧ alive (p_state pq) = true ∧
       (p_state p = ZOMBIE → p_state pq = SLEEPING → p_chan pq ≠ Some (ChanProc q))) ∧
  (∀ i p q, pt_procs s !! i = Some p → p_state p = SLEEPING → p_chan p = Some (ChanProc q) → q = i) ∧
  alive (p_state (pt_procs s !!! 0%nat)) = true.
Proof using Hn Hnl.
  intros I%proc_reachable_inv; [|done..]. pose proof (pi_tree _ _ _ _ _ I) as T. split_and!.
  - intros i p Hp Hs Hi. destruct (t_parent _ _ _ T i p Hp Hs Hi) as (q&pq&E1&E2&E3). exists q, pq.
    split_and!; [done..|]. intros Ez Es Ec. destruct (pi_wait _ _ _ _ _ I q pq q E2 Es Ec) as [_ Hz].
    by apply (Hz i p Hp E1).
  - intros i p q Hp Es Ec. by destruct (pi_wait _ _ _ _ _ I i p q Hp Es Ec).
  - destruct (t_ini _ _ _ T) as (p&Hp&Ha). by rewrite (list_lookup_total_correct _ _ _ Hp).
Qed.

(** C7: the checks of [sched], [switchuvm], [acquire], [release], [popcli]
    and [sleep] never fail: in no reachable state does the scheduler, a
    process that is switched to, or a running process that yields, sleeps
    with a lock, wakes others, kills or ends ([exit] past its file calls)
    panic or use a null [proc]; only init may not exit. *)
Theorem scheduling_never_panics : reachable n nl s k → ∀ c,
  (k c = Idle → (c < n)%nat → no_panic (scheduler_round c)) ∧
  (∀ i, k c = Off i → no_panic (scheduler_back c;; scheduler_scan c (S i))) ∧
  (∀ i, k c = Resuming i → pt_first s = false → no_panic (resume_unlock c i)) ∧
  (∀ i, k c = Running i →
     no_panic (yield c) ∧ (∀ ch, no_panic (wakeup c ch)) ∧ (∀ pid, no_panic (kill c pid)) ∧
     (∀ ch lk, (∀ q, ch ≠ ChanProc q) → lk ≠ PTLOCK → (lk < nl)%nat → no_panic (acquire c lk;; sleep c (Some ch) lk)) ∧
     (i ≠ 0%nat → no_panic (exit_tail c i (Some 0%nat)))).
Proof using Hn Hnl.
  intros I%proc_reachable_inv c; [|done..]. split_and!.
  - intros Hk Hc. eapply wlp_no_panic, (keep_round n nl 0 Hnl s k c I); done.
  - intros i Hk. eapply wlp_no_panic, (keep_back n nl 0 Hnl s k c I); done.
  - intros i Hk Hf. eapply wlp_no_panic, (keep_resume n nl 0 Hnl s k c I); auto.
  - intros i Hk. pose proof (in_range n nl 0 Hnl s k c I ltac:(by rewrite Hk)) as Hc. split_and!.
    + eapply wlp_no_panic, (keep_yield n nl 0 Hnl s k c I); done.
    + intros ch. eapply wlp_no_panic, (keep_wakeup n nl 0 Hnl s k c I); [done|by rewrite Hk].
    + intros pid. eapply wlp_no_panic, (keep_kill n nl 0 Hnl s k c I); done.
    + intros ch lk Hch Hlk Hlt. eapply wlp_no_panic, (keep_sleep n nl 0 Hnl s k c I); done.
    + intros Hi. eapply wlp_no_panic, (keep_exit_tail n nl 0 Hnl s k c I); done.
Qed.
End claims.

(** ** A run *)

Module Demo.
(** The other components reduced to a supply of page addresses. *)
Definition page_ops : ProcOps Z := {|
  op_kalloc := λ a, Done a (a + 4096);
  op_kfree := λ _ a, Done tt a;
  op_setupkvm := λ a, Done a (a + 4096);
  op_inituvm := λ _ a, Done tt a;
  op_copyuvm := λ _ _ a, Done a (a + 4096);
  op_allocuvm := λ _ _ newsz a, Done newsz a;
  op_deallocuvm := λ _ _ newsz a, Done newsz a;
  op_freevm := λ _ a, Done tt a;
  op_filedup := λ f a, Done f a;
  op_fileclose := λ _ a, Done tt a;
  op_idup := λ ip a, Done ip a;
  op_iput := λ _ a, Done tt a;
  op_namei := λ _ a, Done (Some 0%nat) a;
  op_begin_op := λ a, Done tt a;
  op_end_op := λ a, Done tt a;
  op_fsinit := λ a, Done tt a
|}.
#[local] Existing Instance page_ops.

(** The state after an operation that returns. *)
Definition after {A} (m : M (ptable Z) A) (s : ptable Z) : ptable Z :=
  match m s with Done _ s' => s' | _ => s end.

Definition s0 := Eval vm_compute in after (userinit 0) (boot_table 2 2 4096).
(** Init runs on CPU 0, forks and waits; *)
Definition s1 := Eval vm_compute in after (resume_unlock 0 0) (after (scheduler_round 0) s0).
Definition s2 := Eval vm_compute in after (fork_fill 0 0 1) (after (allocproc 0) s1).
Definition s3 := Eval vm_compute in after (wait 0) s2.
(** the child gets the CPU and exits. *)
Definition s4 := Eval vm_compute in after (scheduler_back 0;; scheduler_scan 0 1) s3.
Definition s5 := Eval vm_compute in after (resume_unlock 0 1) s4.
Definition s6 := Eval vm_compute in after (exit 0) s5.

(** What CPU 0 is doing after each step. *)
Definition k5 : nat → ctl := <[0%nat:=Running 1]> (<[0%nat:=Resuming 1]> (<[0%nat:=Off 0]> (<[0%nat:=Running 0]>
  (<[0%nat:=Forking 0 1]> (<[0%nat:=Running 0]> (<[0%nat:=Resuming 0]> (λ _, Idle))))))).

Lemma run_s5 : reachable 2 2 s5 k5.
Proof.
  exists 4096, s0. split; [by vm_compute|].
  eapply rtc_l; [apply (st_round 2 2 s0 _ 0 (Some 0%nat) (after (scheduler_round 0) s0)); [lia|done|by vm_compute]|].
  eapply rtc_l; [apply (st_resume 2 2 _ _ 0 0 s1); [done|by vm_compute]|].
  eapply rtc_l; [apply (st_fork 2 2 _ _ 0 0 (Some 1%nat) (after (allocproc 0) s1)); [done|by vm_compute|by vm_compute]|].
  eapply rtc_l; [apply (st_fill 2 2 _ _ 0 0 1 2 s2); [done|by vm_compute]|].
  eapply rtc_l; [apply (st_wait 2 2 _ _ 0 0 None s3); [done|by vm_compute]|].
  eapply rtc_l; [apply (st_back 2 2 _ _ 0 0 (Some 1%nat) s4); [done|by vm_compute]|].
  eapply rtc_l; [apply (st_resume 2 2 _ _ 0 1 s5); [done|by vm_compute]|]. apply rtc_refl.
Qed.

Lemma run_s6 : reachable 2 2 s6 (<[0%nat:=Off 1]> k5).
Proof.
  destruct run_s5 as (e&s&Hs&Hr). exists e, s. split; [done|]. eapply rtc_r; [exact Hr|].
  apply (st_exit 2 2 _ _ 0 1 s6); [done|by vm_compute].
Qed.


(** The child is a zombie and init, asleep in [wait] until then, is awake. *)
Lemma zombie_parent_awake_witness :
  p_state (pt_procs s6 !!! 1%nat) = ZOMBIE ∧
  ∃ q pq, p_parent (pt_procs s6 !!! 1%nat) = Some q ∧ pt_procs s6 !! q = Some pq ∧
    (p_state pq = SLEEPING → p_chan pq ≠ Some (ChanProc q)).
Proof.
  split; [by vm_compute|].
  destruct (zombie_parent_awake 2 2 ltac:(lia) ltac:(lia) s6 _ run_s6) as (H1&_).
  destruct (H1 1%nat (pt_procs s6 !!! 1%nat) ltac:(by vm_compute) ltac:(by vm_compute) ltac:(lia)) as (q&pq&E1&E2&_&E4).
  exists q, pq. split_and!; [done..|]. apply E4. by vm_compute.
Defined.

Lemma scheduling_never_panics_witness : no_panic s5 (yield 0) ∧ no_panic s5 (exit_tail 0 1 (Some 0%nat)).
Proof.
  destruct (scheduling_never_panics 2 2 ltac:(lia) ltac:(lia) s5 k5 run_s5 0%nat) as (_&_&_&H1).
  destruct (H1 1%nat eq_refl) as (Hy&_&_&_&He). split; [exact Hy|apply He; lia].
Defined.

(** [kill] of pid 0 finds a free slot, whose pid is 0, returns success and
    marks the slot; [allocproc] does not clear the mark, so the process that
    the next [fork] puts there is killed from its start. *)
Theorem kill_free_slot_kills_next_fork : ∃ s s',
  kill 0 0 s1 = Done 0 s ∧ fork 0 s = Done 2 s' ∧
  p_state (pt_procs s !!! 1%nat) = UNUSED ∧
  p_state (pt_procs s' !!! 1%nat) = RUNNABLE ∧ p_pid (pt_procs s' !!! 1%nat) = 2 ∧
  p_killed (pt_procs s' !!! 1%nat) = true.
Proof.
  exists (after (kill 0 0) s1), (after (fork 0) (after (kill 0 0) s1)). by vm_compute.
Qed.
End Demo.
