(* ===== verification/Ide.v ===== *)
(** * The disk driver (ide.c)

    The driver keeps the requests in a queue linked through the buffers and
    has the disk work on the first of them.  The disk is an ATA device as its
    documentation describes it: a command is written to registers and ends
    later with an interrupt.  A routine runs with [idelock] held up to its
    [release] or [sleep]; such a run is atomic for the others. *)

From S2P Require Import Prelude Params.

(** ** State *)

Record ibuf := mkibuf {
  ib_flags : Z;
  ib_dev : Z;
  ib_blockno : Z;
  ib_held : bool;               (** the caller holds the buffer's sleep lock *)
  ib_data : list Z;
  ib_qnext : option nat
}.
#[global] Instance ibuf_inhabited : Inhabited ibuf := populate (mkibuf 0 0 0 false [] None).

(** The device: the registers by port, the command it works on, the bytes of
    the data port, a pending interrupt and the sectors of the two drives. *)
Record ata := mkata {
  at_reg : gmap Z Z;
  at_cmd : option Z;
  at_xfer : list Z;
  at_irq : bool;
  at_err : bool;
  at_sectors : gmap (Z * Z) (list Z)
}.

Record ide := mkide {
  id_lock : bool;
  id_queue : option nat;
  id_havedisk1 : bool;
  id_bufs : list ibuf;
  id_ata : ata;
  id_asleep : gset nat          (** the buffers whose caller sleeps in [iderw] *)
}.

Definition set_id_lock (v : bool) (s : ide) : ide := mkide v (id_queue s) (id_havedisk1 s) (id_bufs s) (id_ata s) (id_asleep s).
Definition set_queue (v : option nat) (s : ide) : ide := mkide (id_lock s) v (id_havedisk1 s) (id_bufs s) (id_ata s) (id_asleep s).
Definition set_ibufs (v : list ibuf) (s : ide) : ide := mkide (id_lock s) (id_queue s) (id_havedisk1 s) v (id_ata s) (id_asleep s).
Definition set_ata (v : ata) (s : ide) : ide := mkide (id_lock s) (id_queue s) (id_havedisk1 s) (id_bufs s) v (id_asleep s).
Definition set_asleep (v : gset nat) (s : ide) : ide := mkide (id_lock s) (id_queue s) (id_havedisk1 s) (id_bufs s) (id_ata s) v.

Definition set_ib_flags (v : Z) (b : ibuf) : ibuf := mkibuf v (ib_dev b) (ib_blockno b) (ib_held b) (ib_data b) (ib_qnext b).
Definition set_ib_data (v : list Z) (b : ibuf) : ibuf := mkibuf (ib_flags b) (ib_dev b) (ib_blockno b) (ib_held b) v (ib_qnext b).
Definition set_qnext (v : option nat) (b : ibuf) : ibuf := mkibuf (ib_flags b) (ib_dev b) (ib_blockno b) (ib_held b) (ib_data b) v.

Definition the_ibuf (i : nat) : M ide ibuf := gets (λ s, id_bufs s !!! i).
Definition upd_ibuf (i : nat) (f : ibuf → ibuf) : M ide unit := modify (λ s, set_ibufs (alter f i (id_bufs s)) s).
Definition acquire_ide : M ide unit := acquire id_lock set_id_lock.
Definition release_ide : M ide unit := release id_lock set_id_lock.

Definition dirty (b : ibuf) : bool := negb (Z.land (ib_flags b) B_DIRTY =? 0).
(** [(b->flags & (B_VALID|B_DIRTY)) == B_VALID]. *)
Definition synced (b : ibuf) : bool := Z.land (ib_flags b) (Z.lor B_VALID B_DIRTY) =? B_VALID.

(** ** The device's ports *)

Definition SECTOR_SIZE : Z := 512.
Definition IDE_CMD_READ : Z := 32.
Definition IDE_CMD_WRITE : Z := 48.
Definition IDE_CMD_RDMUL : Z := 196.
Definition IDE_CMD_WRMUL : Z := 197.

(** A byte to a register; writing port 0x1f7 gives the command. *)
Definition ata_out (port v : Z) (d : ata) : ata :=
  mkata (<[port:=u8 v]> (at_reg d)) (if port =? 503 then Some (u8 v) else at_cmd d) (at_xfer d) (at_irq d)
    (if port =? 503 then false else at_err d) (at_sectors d).
Definition outb (port v : Z) : M ide unit := modify (λ s, set_ata (ata_out port v (id_ata s)) s).
(** The words of a sector to and from the data port. *)
Definition outsl (data : list Z) : M ide unit := modify (λ s, let d := id_ata s in
  set_ata (mkata (at_reg d) (at_cmd d) data (at_irq d) (at_err d) (at_sectors d)) s).
Definition insl : M ide (list Z) := gets (λ s, at_xfer (id_ata s)).

(** The drive and the sector in the registers. *)
Definition lba (d : ata) : Z * Z :=
  (Z.land (Z.shiftr (at_reg d !!! 502) 4) 1,
   Z.lor (Z.lor (at_reg d !!! 499) (Z.shiftl (at_reg d !!! 500) 8))
         (Z.lor (Z.shiftl (at_reg d !!! 501) 16) (Z.shiftl (Z.land (at_reg d !!! 502) 15) 24))).

(** The end of a command: a sector has been written or can be read. *)
Definition ata_done (d : ata) : ata :=
  match at_cmd d with
  | None => d
  | Some c =>
      if c =? IDE_CMD_WRITE then mkata (at_reg d) None (at_xfer d) true (at_err d) (<[lba d:=at_xfer d]> (at_sectors d))
      else mkata (at_reg d) None (at_sectors d !!! lba d) true (at_err d) (at_sectors d)
  end.
(** The command failed. *)
Definition ata_fail (d : ata) : ata := mkata (at_reg d) None (at_xfer d) true true (at_sectors d).

(** ** ide.c *)

(** A device that works on a command is not ready. *)
Definition idewait (checkerr : bool) : M ide Z :=
  s ← gets id;
  match at_cmd (id_ata s) with
  | Some _ => diverge
  | None => mret (if checkerr && at_err (id_ata s) then -1 else 0)
  end.

Definition idestart (b : option nat) : M ide unit :=
  match b with
  | None => panic "idestart"
  | Some i =>
      b ← the_ibuf i;
      if FSSIZE <=? ib_blockno b then panic "incorrect blockno"
      else
        let sector_per_block := Z.of_nat BSIZE / SECTOR_SIZE in
        let sector := i32 (ib_blockno b * sector_per_block) in
        let read_cmd := if sector_per_block =? 1 then IDE_CMD_READ else IDE_CMD_RDMUL in
        let write_cmd := if sector_per_block =? 1 then IDE_CMD_WRITE else IDE_CMD_WRMUL in
        if 7 <? sector_per_block then panic "idestart"
        else
          idewait false;;
          outb 1014 0;;
          outb 498 sector_per_block;;
          outb 499 (Z.land sector 255);;
          outb 500 (Z.land (Z.shiftr sector 8) 255);;
          outb 501 (Z.land (Z.shiftr sector 16) 255);;
          outb 502 (Z.lor (Z.lor 224 (Z.shiftl (Z.land (ib_dev b) 1) 4)) (Z.land (Z.shiftr sector 24) 15));;
          if dirty b then outb 503 write_cmd;; outsl (ib_data b)
          else outb 503 read_cmd
  end.

(** [wakeup(b)] and [sleep(b, &idelock)]; a sleeping caller goes on in
    [iderw_resume]. *)
Definition wakeup_buf (i : nat) : M ide unit := modify (λ s, set_asleep (id_asleep s ∖ {[i]}) s).
Definition sleep_buf (i : nat) : M ide unit :=
  modify (λ s, set_asleep ({[i]} ∪ id_asleep s) s);;
  release_ide.

Definition ideintr : M ide unit :=
  acquire_ide;;
  s ← gets id;
  match id_queue s with
  | None => release_ide
  | Some i =>
      b ← the_ibuf i;
      modify (set_queue (ib_qnext b));;
      r ← (if negb (dirty b) then idewait true else mret (-1));
      (if negb (dirty b) && (0 <=? r) then data ← insl; upd_ibuf i (set_ib_data data) else mret tt);;
      upd_ibuf i (λ b, set_ib_flags (Z.land (Z.lor (ib_flags b) B_VALID) (Z.lnot B_DIRTY)) b);;
      wakeup_buf i;;
      s ← gets id;
      (if bool_decide (id_queue s = None) then mret tt else idestart (id_queue s));;
      release_ide
  end.

(** The end of the queue, from the buffer [i] on. *)
Fixpoint queue_end (fuel : nat) (i : nat) : M ide nat :=
  match fuel with
  | O => diverge
  | S fuel' =>
      b ← the_ibuf i;
      match ib_qnext b with
      | None => mret i
      | Some j => queue_end fuel' j
      end
  end.
Definition append (i : nat) : M ide unit :=
  upd_ibuf i (set_qnext None);;
  s ← gets id;
  match id_queue s with
  | None => modify (set_queue (Some i))
  | Some h => e ← queue_end (S (length (id_bufs s))) h; upd_ibuf e (set_qnext (Some i))
  end.

(** The loop of [iderw] up to a [sleep] or the return, and after a [sleep]: whether
    the call returns. *)
Definition iderw_wait (i : nat) : M ide bool :=
  b ← the_ibuf i;
  if synced b then release_ide;; mret true
  else sleep_buf i;; mret false.
Definition iderw_resume (i : nat) : M ide bool :=
  acquire_ide;;
  iderw_wait i.

(** [iderw] up to its return or its first [sleep]. *)
Definition ide_rw (i : nat) : M ide bool :=
  b ← the_ibuf i;
  s ← gets id;
  if negb (ib_held b) then panic "iderw: buf not locked"
  else if synced b then panic "iderw: nothing to do"
  else if negb (ib_dev b =? 0) && negb (id_havedisk1 s) then panic "iderw: ide disk 1 not present"
  else
    acquire_ide;;
    append i;;
    s ← gets id;
    (if bool_decide (id_queue s = Some i) then idestart (Some i) else mret tt);;
    iderw_wait i.

(** [ideinit]: the status of drive 1 is what its port gives at each read. *)
Fixpoint probe (k : nat) (status : nat → Z) (i : nat) : M ide unit :=
  match k with
  | O => mret tt
  | S k' =>
      if negb (status i =? 0) then modify (λ s, mkide (id_lock s) (id_queue s) true (id_bufs s) (id_ata s) (id_asleep s))
      else probe k' status (S i)
  end.
Definition ideinit (status : nat → Z) : M ide unit :=
  modify (set_id_lock false);;
  idewait false;;
  outb 502 (Z.lor 224 (Z.shiftl 1 4));;
  probe 1000 status 0;;
  outb 502 (Z.lor 224 (Z.shiftl 0 4)).

(** ** An atomic disk *)

(** What the driver implements: requests are served one after the other, each
    at one moment, in the order they were made. *)
Record adisk := mkadisk {
  a_bufs : list ibuf;
  a_queue : list nat;
  a_calls : gset nat;           (** the calls of [iderw] that have not returned *)
  a_sectors : gmap (Z * Z) (list Z)
}.

Definition key (b : ibuf) : Z * Z := (Z.land (ib_dev b) 1, ib_blockno b).
Definition finish (b : ibuf) : ibuf := set_ib_flags (Z.land (Z.lor (ib_flags b) B_VALID) (Z.lnot B_DIRTY)) b.

(** The buffer without the link of the driver's queue. *)
Definition core (b : ibuf) : ibuf := set_qnext None b.

Definition submit (i : nat) (a : adisk) : adisk := mkadisk (a_bufs a) (a_queue a ++ [i]) ({[i]} ∪ a_calls a) (a_sectors a).
Definition serve (a : adisk) : adisk :=
  match a_queue a with
  | [] => a
  | i :: q =>
      let b := a_bufs a !!! i in
      if dirty b then mkadisk (alter finish i (a_bufs a)) q (a_calls a) (<[key b:=ib_data b]> (a_sectors a))
      else mkadisk (alter finish i (alter (set_ib_data (a_sectors a !!! key b)) i (a_bufs a))) q (a_calls a) (a_sectors a)
  end.

Definition return_call (i : nat) (a : adisk) : adisk := mkadisk (a_bufs a) (a_queue a) (a_calls a ∖ {[i]}) (a_sectors a).

Definition change_buf (i : nat) (b : ibuf) (a : adisk) : adisk := mkadisk (<[i:=core b]> (a_bufs a)) (a_queue a) (a_calls a) (a_sectors a).

(** A buffer that can be given to [iderw]. *)
Definition request (hd1 : bool) (b : ibuf) : Prop :=
  ib_held b = true ∧ synced b = false ∧ 0 ≤ ib_blockno b < FSSIZE ∧ (ib_dev b = 0 ∨ hd1 = true).

Fixpoint linked (m : list ibuf) (q : option nat) (l : list nat) : Prop :=
  match l with
  | [] => q = None
  | i :: l' => q = Some i ∧ ∃ b, m !! i = Some b ∧ linked m (ib_qnext b) l'
  end.

(** The device works on the request of [b], or has finished it. *)
Definition working (b : ibuf) (d : ata) (sec : gmap (Z * Z) (list Z)) : Prop :=
  at_irq d = false ∧ at_err d = false ∧ lba d = key b ∧ at_sectors d = sec ∧
  if dirty b then at_cmd d = Some IDE_CMD_WRITE ∧ at_xfer d = ib_data b else at_cmd d = Some IDE_CMD_READ.
Definition worked (b : ibuf) (d : ata) (sec : gmap (Z * Z) (list Z)) : Prop :=
  at_irq d = true ∧ at_err d = false ∧ at_cmd d = None ∧
  if dirty b then at_sectors d = <[key b:=ib_data b]> sec else at_sectors d = sec ∧ at_xfer d = sec !!! key b.

(** The callers that sleep wait for a queued request, and the other calls that
    have not returned find their request queued or served. *)
Definition calls_ok (asleep : gset nat) (a : adisk) : Prop :=
  (∀ i, i ∈ asleep → i ∈ a_queue a) ∧ (∀ i, i ∈ a_queue a → i ∈ a_calls a) ∧
  ∀ i, i ∈ a_calls a → ∃ b, a_bufs a !! i = Some b ∧ (i ∈ a_queue a ∨ synced b = true).

Record irel (s : ide) (a : adisk) : Prop := {
  ir_lock : id_lock s = false;
  ir_bufs : core <$> id_bufs s = a_bufs a;
  ir_queue : linked (id_bufs s) (id_queue s) (a_queue a);
  ir_nodup : NoDup (a_queue a);
  ir_calls : calls_ok (id_asleep s) a;
  ir_req : ∀ i, i ∈ a_queue a → ∃ b, id_bufs s !! i = Some b ∧ request (id_havedisk1 s) b;
  ir_ata : match a_queue a with
           | [] => at_cmd (id_ata s) = None ∧ at_irq (id_ata s) = false ∧ at_sectors (id_ata s) = a_sectors a
           | i :: _ => working (id_bufs s !!! i) (id_ata s) (a_sectors a) ∨ worked (id_bufs s !!! i) (id_ata s) (a_sectors a)
           end
}.

Lemma linked_ext m m' q l : (∀ i, i ∈ l → m' !! i = m !! i) → linked m q l → linked m' q l.
Proof.
  revert q. induction l as [|i l IH]; intros q E; [done|]. intros [-> (b&Hb&Hl)]. split; [done|]. exists b.
  split; [rewrite E by left; done|]. apply IH; [|done]. intros j Hj. apply E. by right.
Qed.

Lemma linked_snoc m q l i : linked m q l → i ∉ l → NoDup l → (∃ b, m !! i = Some b ∧ ib_qnext b = None) →
  match l with
  | [] => linked m (Some i) [i]
  | h :: _ => ∃ e b, q = Some h ∧ last l = Some e ∧ m !! e = Some b ∧ ib_qnext b = None ∧ linked (alter (set_qnext (Some i)) e m) q (l ++ [i])
  end.
Proof.
  intros Hl Hi Hnd (bi&Hbi&Hqi). revert q Hl Hi Hnd. induction l as [|h l IH]; intros q Hl Hi Hnd.
  { split; [done|]. by exists bi. }
  destruct Hl as [-> (b&Hb&Hl)]. apply NoDup_cons in Hnd as [Hh Hnd]. rewrite not_elem_of_cons in Hi. destruct Hi as [Hih Hi].
  specialize (IH _ Hl Hi Hnd). destruct l as [|h' l].
  - exists h, b. simpl in Hl. split_and!; [done..|]. split; [done|]. exists (set_qnext (Some i) b). rewrite list_lookup_alter_eq, Hb. split; [done|].
    split; [done|]. exists bi. by rewrite list_lookup_alter_ne.
  - destruct IH as (e&be&E1&E2&E3&E4&E5). exists e, be. split_and!; [done..|]. split; [done|]. exists b.
    rewrite list_lookup_alter_ne; [by split|]. intros ->. apply Hh. apply last_Some in E2 as [l' ->]. apply elem_of_app. right. left.
Qed.

Lemma queue_end_ok l : ∀ fuel h s, linked (id_bufs s) (Some h) l → (length l ≤ fuel)%nat → l ≠ [] → ∃ e, last l = Some e ∧ queue_end fuel h s = Done e s.
Proof.
  induction l as [|i l IH]; intros fuel h s Hl Hf Hne; [done|]. destruct fuel as [|fuel]; [simpl in Hf; lia|].
  destruct Hl as [[= <-] (b&Hb&Hl)]. cbn [queue_end]. unfold mbind, M_bind, the_ibuf, gets. rewrite (list_lookup_total_correct _ _ _ Hb).
  destruct l as [|j l]; simpl in Hl.
  - rewrite Hl. by exists h.
  - destruct Hl as [Hq Hl]. rewrite Hq. destruct (IH fuel j s) as (e&E1&E2); [by split|simpl in *; lia|done|]. exists e. by split.
Qed.

Lemma queue_length l n : NoDup l → (∀ i, i ∈ l → (i < n)%nat) → (length l ≤ n)%nat.
Proof.
  intros Hnd Hl. rewrite <- (length_seq n 0). apply submseteq_length, NoDup_submseteq; [done|]. intros i Hi. apply elem_of_seq. specialize (Hl i Hi). lia.
Qed.

(** ** Starting a request *)

(** The registers give back the drive and the block. *)
Lemma lba_check : forallb (λ x, forallb (λ dv,
  let r6 := u8 (Z.lor (Z.lor 224 (Z.shiftl dv 4)) (Z.land (Z.shiftr x 24) 15)) in
  (Z.land (Z.shiftr r6 4) 1 =? dv) &&
  (Z.lor (Z.lor (u8 (Z.land x 255)) (Z.shiftl (u8 (Z.land (Z.shiftr x 8) 255)) 8))
     (Z.lor (Z.shiftl (u8 (Z.land (Z.shiftr x 16) 255)) 16) (Z.shiftl (Z.land r6 15) 24)) =? x)) [0; 1]) (seqZ 0 1000) = true.
Proof. vm_compute. reflexivity. Qed.

Lemma land_one x : Z.land x 1 = 0 ∨ Z.land x 1 = 1.
Proof. change 1 with (Z.ones 1). rewrite Z.land_ones by lia. change (Z.ones 1) with 1. dlia. Qed.

(** The registers after [idestart] has written them. *)
Definition r6_of (x dv : Z) : Z := Z.lor (Z.lor 224 (Z.shiftl dv 4)) (Z.land (Z.shiftr x 24) 15).
Definition start_regs (m : gmap Z Z) (x dv c : Z) : gmap Z Z :=
  <[503:=u8 c]> (<[502:=u8 (r6_of x dv)]> (<[501:=u8 (Z.land (Z.shiftr x 16) 255)]>
    (<[500:=u8 (Z.land (Z.shiftr x 8) 255)]> (<[499:=u8 (Z.land x 255)]> (<[498:=u8 1]> (<[1014:=u8 0]> m)))))).

Lemma lba_regs m x dv c cm xf q e sec : 0 ≤ x < 1000 → dv = 0 ∨ dv = 1 →
  lba (mkata (start_regs m x dv c) cm xf q e sec) = (dv, x).
Proof.
  intros Hx Hdv. pose proof lba_check as H. rewrite forallb_forall in H. specialize (H x).
  assert (In x (seqZ 0 1000)) as Hin by (apply list_elem_of_In, elem_of_seqZ; lia). specialize (H Hin). clear Hin.
  rewrite forallb_forall in H. specialize (H dv). assert (In dv [0; 1]) as Hin by (simpl; lia). specialize (H Hin).
  apply andb_prop in H as [H1 H2]. apply Z.eqb_eq in H1. apply Z.eqb_eq in H2. unfold lba, start_regs. cbn [at_reg].
  rewrite !(lookup_total_insert_ne _ 503) by lia. rewrite !(lookup_total_insert_eq _ 502).
  rewrite !(lookup_total_insert_ne _ 502) by lia. rewrite !(lookup_total_insert_eq _ 501).
  rewrite !(lookup_total_insert_ne _ 501) by lia. rewrite !(lookup_total_insert_eq _ 500).
  rewrite !(lookup_total_insert_ne _ 500) by lia. rewrite !(lookup_total_insert_eq _ 499).
  exact (f_equal2 pair H1 H2).
Qed.

(** What [idestart] leaves in the device. *)
Definition ata_start (x dv c : Z) (d : ata) : ata :=
  ata_out 503 c (ata_out 502 (r6_of x dv) (ata_out 501 (Z.land (Z.shiftr x 16) 255)
    (ata_out 500 (Z.land (Z.shiftr x 8) 255) (ata_out 499 (Z.land x 255) (ata_out 498 1 (ata_out 1014 0 d)))))).
Lemma ata_start_eq x dv c d :
  ata_start x dv c d = mkata (start_regs (at_reg d) x dv c) (Some (u8 c)) (at_xfer d) (at_irq d) false (at_sectors d).
Proof. destruct d. reflexivity. Qed.

Lemma set_ata_twice d d' s : set_ata d (set_ata d' s) = set_ata d s.
Proof. done. Qed.

Lemma wp_outb port v Q s : Q tt (set_ata (ata_out port v (id_ata s)) s) → wp (outb port v) Q s.
Proof. done. Qed.

Lemma idestart_ok s i b : id_bufs s !! i = Some b → 0 ≤ ib_blockno b < FSSIZE → at_cmd (id_ata s) = None → at_irq (id_ata s) = false →
  wp (idestart (Some i)) (λ _ s', ∃ d, s' = set_ata d s ∧ working b d (at_sectors (id_ata s))) s.
Proof.
  intros Hb Hr Hc Hq. unfold idestart, the_ibuf. wp_steps. rewrite (list_lookup_total_correct _ _ _ Hb).
  rewrite (proj2 (Z.leb_gt FSSIZE (ib_blockno b))) by lia. change (Z.of_nat BSIZE / SECTOR_SIZE) with 1. cbn [Z.eqb Pos.eqb].
  change (7 <? 1) with false. cbv iota. rewrite Z.mul_1_r, i32_small by (unfold FSSIZE in Hr; lia).
  unfold idewait. wp_steps. unfold id. rewrite Hc. do 6 (apply wp_ret || apply wp_outb; wp_step). apply wp_outb.
  cbn [set_ata id_ata id_bufs id_lock id_queue id_havedisk1]. fold (r6_of (ib_blockno b) (Z.land (ib_dev b) 1)).
  assert (∀ c, lba (ata_start (ib_blockno b) (Z.land (ib_dev b) 1) c (id_ata s)) = key b) as Hlba.
  { intros c. rewrite ata_start_eq. apply lba_regs; [exact Hr|apply land_one]. }
  rewrite !set_ata_twice. destruct (dirty b) eqn:Ed.
  - apply wp_bind, wp_outb. unfold outsl. apply wp_modify. rewrite !set_ata_twice. cbn [set_ata id_ata].
    fold (ata_start (ib_blockno b) (Z.land (ib_dev b) 1) IDE_CMD_WRITE (id_ata s)). eexists. split; [reflexivity|].
    unfold working. rewrite Ed. specialize (Hlba IDE_CMD_WRITE). rewrite ata_start_eq in Hlba |- *. cbn [at_irq at_err at_sectors at_cmd at_xfer at_reg].
    split; [exact Hq|]. split; [reflexivity|]. split; [exact Hlba|]. split; [reflexivity|]. split; reflexivity.
  - apply wp_outb. rewrite !set_ata_twice. cbn [set_ata id_ata].
    fold (ata_start (ib_blockno b) (Z.land (ib_dev b) 1) IDE_CMD_READ (id_ata s)). eexists. split; [reflexivity|].
    unfold working. rewrite Ed. specialize (Hlba IDE_CMD_READ). rewrite ata_start_eq in Hlba |- *. cbn [at_irq at_err at_sectors at_cmd at_xfer at_reg].
    split; [exact Hq|]. split; [reflexivity|]. split; [exact Hlba|]. split; [reflexivity|]. reflexivity.
Qed.

(** ** The queue *)

Lemma core_alter (m : list ibuf) (i : nat) (f : ibuf → ibuf) : (∀ b, core (f b) = core b) → core <$> alter f i m = core <$> m.
Proof.
  intros Hf. apply list_eq. intros j. rewrite !list_lookup_fmap. destruct (decide (j = i)) as [->|Hne].
  - rewrite list_lookup_alter_eq. destruct (m !! i); simpl; [by rewrite Hf|done].
  - by rewrite list_lookup_alter_ne.
Qed.

(** Fields that the queue does not touch. *)
Lemma core_fields b b' : core b = core b' → dirty b = dirty b' ∧ synced b = synced b' ∧ key b = key b' ∧ ib_data b = ib_data b' ∧
  ∀ h, request h b → request h b'.
Proof. destruct b, b'. unfold core, set_qnext. cbn. intros [= -> -> -> -> ->]. done. Qed.

Lemma core_lookup (m m' : list ibuf) (i : nat) b : core <$> m = core <$> m' → m !! i = Some b → ∃ b', m' !! i = Some b' ∧ core b = core b'.
Proof.
  intros E Hb. apply (f_equal (.!! i)) in E. rewrite !list_lookup_fmap, Hb in E. simpl in E. destruct (m' !! i) as [b'|]; [|done]. simpl in E. exists b'. split; [done|congruence].
Qed.

Lemma at_work_core b b' d sec : core b = core b' → working b d sec ∨ worked b d sec → working b' d sec ∨ worked b' d sec.
Proof. intros (F1&_&F3&F4&_)%core_fields. unfold working, worked. by rewrite F1, F3, F4. Qed.

Lemma append_ok s l i b : linked (id_bufs s) (id_queue s) l → NoDup l → i ∉ l → id_bufs s !! i = Some b →
  (∀ j, j ∈ l → ∃ b, id_bufs s !! j = Some b) →
  wp (append i) (λ _ s', ∃ m q, s' = set_queue q (set_ibufs m s) ∧ linked m q (l ++ [i]) ∧ core <$> m = core <$> id_bufs s) s.
Proof.
  intros Hl Hnd Hi Hb Hall. unfold append, upd_ibuf. wp_steps. unfold id. set (m1 := alter (set_qnext None) i (id_bufs s)).
  assert (linked m1 (id_queue s) l) as Hl1.
  { eapply linked_ext; [|exact Hl]. intros j Hj. apply list_lookup_alter_ne. by intros ->. }
  assert (core <$> m1 = core <$> id_bufs s) as Hc1 by (by apply core_alter).
  assert (∃ b, m1 !! i = Some b ∧ ib_qnext b = None) as Hbi.
  { exists (set_qnext None b). unfold m1. by rewrite list_lookup_alter_eq, Hb. }
  pose proof (linked_snoc m1 _ l i Hl1 Hi Hnd Hbi) as Hs. destruct l as [|h l].
  - simpl in Hl. cbn [set_ibufs id_queue]. rewrite Hl. apply wp_modify. by exists m1, (Some i).
  - destruct Hs as (e&be&Hq&He&_&_&Hl2). cbn [set_ibufs id_queue]. rewrite Hq. wp_steps.
    destruct (queue_end_ok (h :: l) (S (length (id_bufs (set_ibufs m1 s)))) h (set_ibufs m1 s)) as (e'&He'&E); [by rewrite <- Hq| |done|].
    + cbn [set_ibufs id_bufs]. apply Nat.le_trans with (length m1); [|lia]. apply queue_length; [done|]. intros j Hj.
      destruct (Hall j Hj) as [bj Hbj]. unfold m1. rewrite length_alter. by eapply lookup_lt_Some.
    + eapply wp_done; [exact E|]. rewrite He in He'. injection He' as <-. wp_steps. eexists _, (id_queue s). split; [|split; [exact Hl2|]].
      * unfold set_queue, set_ibufs. cbn. done.
      * rewrite core_alter by done. exact Hc1.
Qed.

Lemma synced_finish b : synced (finish b) = true.
Proof.
  unfold synced, finish, set_ib_flags. cbn [ib_flags]. apply Z.eqb_eq, Z.bits_inj'. intros n Hn.
  rewrite !Z.land_spec, Z.lor_spec, Z.lnot_spec by done.
  destruct (decide (n = 1)) as [->|H1]; [by rewrite orb_true_r|]. destruct (decide (n = 2)) as [->|H2]; [by rewrite andb_false_r|].
  assert (Z.testbit (Z.lor B_VALID B_DIRTY) n = false ∧ Z.testbit B_VALID n = false) as [-> ->]; [|by rewrite andb_false_r].
  destruct (decide (n = 0)) as [->|H0]; [done|]. split; apply Z.bits_above_log2; try done; change (Z.log2 _) with 2 || change (Z.log2 _) with 1; lia.
Qed.

Lemma calls_submit asleep a i b : calls_ok asleep a → a_bufs a !! i = Some b → calls_ok ({[i]} ∪ asleep) (submit i a).
Proof.
  intros (C1&C2&C3) Hb. unfold calls_ok, submit. cbn [a_bufs a_queue a_calls]. split_and!.
  - intros j. rewrite elem_of_union, elem_of_singleton, elem_of_app, list_elem_of_singleton. naive_solver.
  - intros j. rewrite elem_of_union, elem_of_singleton, elem_of_app, list_elem_of_singleton. naive_solver.
  - intros j [->%elem_of_singleton|Hj]%elem_of_union; [exists b; split; [done|]; left; apply elem_of_app; right; by left|].
    destruct (C3 j Hj) as (bj&?&[?|?]); exists bj; (split; [done|]); [left; apply elem_of_app; by left|by right].
Qed.

Lemma calls_serve asleep a h l : calls_ok asleep a → a_queue a = h :: l → h ∉ l → calls_ok (asleep ∖ {[h]}) (serve a).
Proof.
  intros (C1&C2&C3) Eq Hh. unfold calls_ok, serve. rewrite Eq in *.
  assert (∀ (f : ibuf → ibuf), ∀ j, j ∈ a_calls a → ∃ b, alter finish h (alter f h (a_bufs a)) !! j = Some b ∧ (j ∈ l ∨ synced b = true)) as Hf.
  { intros f j Hj. destruct (C3 j Hj) as (b&Hb&Hs). destruct (decide (j = h)) as [->|Hne].
    - exists (finish (f b)). rewrite !list_lookup_alter_eq, Hb. split; [done|]. right. apply synced_finish.
    - exists b. rewrite !list_lookup_alter_ne by done. split; [done|]. destruct Hs as [[?|?]%elem_of_cons|?]; by auto. }
  assert (∀ j, j ∈ asleep ∖ {[h]} → j ∈ l) as Ha.
  { intros j [Hj Hne]%elem_of_difference. apply C1, elem_of_cons in Hj as [->|]; [|done]. by apply elem_of_singleton_2 in Hne || set_solver. }
  destruct (dirty _); cbn [a_bufs a_queue a_calls]; split_and!; try done.
  - intros j Hj. apply C2. by right.
  - intros j Hj. destruct (Hf id j Hj) as (b&Hb&?). exists b. split; [|done]. rewrite <- Hb. f_equal. f_equal.
    apply list_eq. intros k. destruct (decide (k = h)) as [->|]; [rewrite list_lookup_alter_eq; by destruct (a_bufs a !! h)|by rewrite list_lookup_alter_ne].
  - intros j Hj. apply C2. by right.
  - by apply Hf.
Qed.

Lemma calls_return asleep a i : calls_ok asleep a → i ∉ a_queue a → calls_ok asleep (return_call i a).
Proof.
  intros (C1&C2&C3) Hi. unfold calls_ok, return_call. cbn [a_bufs a_queue a_calls]. split_and!; [done| |].
  - intros j Hj. apply elem_of_difference. split; [by apply C2|]. intros ->%elem_of_singleton. done.
  - intros j [Hj _]%elem_of_difference. by apply C3.
Qed.

Lemma ide_rw_ok s a i b : irel s a → i ∉ a_queue a → id_bufs s !! i = Some b → request (id_havedisk1 s) b →
  wp (ide_rw i) (λ r s', r = false ∧ irel s' (submit i a)) s.
Proof.
  intros [Hlk Hbufs Hq Hnd Hcl Hreq Hata] Hi Hb Hr. pose proof Hr as (R1&R2&R3&R4).
  unfold ide_rw, the_ibuf. wp_steps. unfold id. rewrite (list_lookup_total_correct _ _ _ Hb), R1, R2. cbn [negb].
  assert (negb (ib_dev b =? 0) && negb (id_havedisk1 s) = false) as ->.
  { destruct R4 as [->| ->]; [done|]. by rewrite andb_false_r. }
  wp_steps. apply wp_acquire; [done|]. wp_steps.
  eapply wp_mono; [apply (append_ok (set_id_lock true s) (a_queue a) i b); try done; intros j Hj; destruct (Hreq j Hj) as (bj&?&_); eauto|].
  intros _ s2 (m&q&Es2&Hl2&Hc2). cbn [set_id_lock id_bufs] in Hc2.
  destruct (core_lookup _ _ i b (eq_sym Hc2) Hb) as (b'&Hb'&Eb'). destruct (core_fields _ _ Eb') as (F1&F2&F3&F4&F5).
  assert (∀ j, j ∈ a_queue a ++ [i] → ∃ bj, m !! j = Some bj ∧ request (id_havedisk1 s) bj) as Hreq2.
  { intros j [Hj|Hj%list_elem_of_singleton]%elem_of_app; [|subst j; exists b'; split; [done|by apply F5]].
    destruct (Hreq j Hj) as (bj&Hbj&Hrj). destruct (core_lookup _ _ j bj (eq_sym Hc2) Hbj) as (bj'&Hbj'&Ej). exists bj'. split; [done|].
    by apply (core_fields _ _ Ej). }
  assert (∀ d, (match a_queue a with [] => working b' d (a_sectors a) ∨ worked b' d (a_sectors a)
                | h :: _ => working (m !!! h) d (a_sectors a) ∨ worked (m !!! h) d (a_sectors a) end) →
    wp (iderw_wait i) (λ r s', r = false ∧ irel s' (submit i a)) (set_ata d s2)) as Hend.
  { intros d Hd. unfold iderw_wait, the_ibuf, sleep_buf. subst s2. wp_steps. cbn [set_ata set_queue set_ibufs set_id_lock id_bufs].
    rewrite (list_lookup_total_correct _ _ _ Hb'), <- F2, R2. wp_steps. apply wp_release; [done|]. wp_steps. split; [done|].
    split; cbn [set_ata set_queue set_ibufs set_asleep set_id_lock id_bufs id_lock id_queue id_ata id_havedisk1 id_asleep submit a_bufs a_queue a_sectors]; try done.
    - by rewrite Hc2.
    - apply NoDup_app. split_and!; [done| |apply NoDup_singleton]. intros j Hj ->%list_elem_of_singleton. done.
    - apply (calls_submit _ _ _ (core b)); [done|]. by rewrite <- Hbufs, list_lookup_fmap, Hb.
    - destruct (a_queue a) as [|h l]; cbn [app]; [by rewrite (list_lookup_total_correct _ _ _ Hb')|done]. }
  apply wp_bind, wp_gets. unfold id. destruct (a_queue a) as [|h l] eqn:Eq; cbn [app] in *.
  - destruct Hl2 as [-> _]. subst s2. cbn [set_queue id_queue]. rewrite bool_decide_eq_true_2 by done. destruct Hata as (A1&A2&A3). apply wp_bind.
    eapply wp_mono; [apply (idestart_ok _ i b'); [exact Hb'|apply (F5 _ Hr)|exact A1|exact A2]|].
    intros _ s3 (d&->&Hw). apply Hend. left. rewrite <- A3. exact Hw.
  - destruct Hl2 as [-> _]. subst s2. cbn [set_queue id_queue]. rewrite bool_decide_eq_false_2.
    2:{ intros [= ->]. apply Hi. left. }
    wp_steps. apply (Hend (id_ata s)). destruct (Hreq h ltac:(left)) as (bh&Hbh&_).
    destruct (core_lookup _ _ h bh (eq_sym Hc2) Hbh) as (bh'&Hbh'&Eh). rewrite (list_lookup_total_correct _ _ _ Hbh').
    apply (at_work_core bh bh' _ _ Eh). by rewrite (list_lookup_total_correct _ _ _ Hbh) in Hata.
Qed.

(** ** The interrupt *)

(** The processor has taken the interrupt. *)
Definition ack (s : ide) : ide := let d := id_ata s in
  set_ata (mkata (at_reg d) (at_cmd d) (at_xfer d) false (at_err d) (at_sectors d)) s.

Lemma core_alter_comm (m : list ibuf) (i : nat) (f : ibuf → ibuf) : (∀ b, core (f b) = f (core b)) → core <$> alter f i m = alter f i (core <$> m).
Proof.
  intros Hf. apply list_eq. intros j. rewrite list_lookup_fmap. destruct (decide (j = i)) as [->|Hne].
  - rewrite !list_lookup_alter_eq, list_lookup_fmap. destruct (m !! i); simpl; [by rewrite Hf|done].
  - by rewrite !list_lookup_alter_ne, list_lookup_fmap.
Qed.

(** The end of [ideintr]: the next request is started. *)
Lemma next_ok s m l calls sec : id_lock s = true → linked m (id_queue s) l → NoDup l → (∀ i, i ∈ l → ∃ b, m !! i = Some b ∧ request (id_havedisk1 s) b) →
  id_bufs s = m → at_cmd (id_ata s) = None → at_irq (id_ata s) = false → at_sectors (id_ata s) = sec →
  calls_ok (id_asleep s) (mkadisk (core <$> m) l calls sec) →
  wp (if bool_decide (id_queue s = None) then mret tt else idestart (id_queue s))
     (λ _ s', wp release_ide (λ _ s', irel s' (mkadisk (core <$> m) l calls sec)) s') s.
Proof.
  intros Hlk Hl Hnd Hreq Hm Hc Hq Hsec Hcl. destruct l as [|i l].
  - simpl in Hl. rewrite Hl, bool_decide_eq_true_2 by done. wp_steps. apply wp_release; [done|]. split; cbn [set_id_lock id_lock id_bufs id_queue id_ata id_havedisk1 id_asleep a_bufs a_queue a_sectors]; try done; by rewrite Hm.
  - pose proof Hl as [Hqi _]. rewrite Hqi, bool_decide_eq_false_2 by done. destruct (Hreq i ltac:(left)) as (b&Hb&Hr).
    eapply wp_mono; [apply (idestart_ok s i b); [by rewrite Hm|apply Hr|done|done]|]. intros _ s' (d& -> &Hw). apply wp_release; [done|].
    split; cbn [set_id_lock set_ata id_lock id_bufs id_queue id_ata id_havedisk1 id_asleep a_bufs a_queue a_sectors]; try done.
    1-3: by rewrite Hm.
    left. rewrite Hm, (list_lookup_total_correct _ _ _ Hb). by rewrite <- Hsec.
Qed.

Lemma ideintr_ok s a : irel s a → at_irq (id_ata s) = true → wp ideintr (λ _ s', irel s' (serve a)) (ack s).
Proof.
  intros [Hlk Hbufs Hq Hnd Hcl Hreq Hata] Hirq. unfold serve. destruct (a_queue a) as [|h l] eqn:Eq; [destruct Hata as (_&?&_); congruence|].
  pose proof (calls_serve _ _ h l Hcl Eq ltac:(by inversion Hnd)) as Hserve. unfold serve in Hserve. rewrite Eq in Hserve.
  destruct Hq as [Hqh (b&Hb&Hl)]. rewrite (list_lookup_total_correct _ _ _ Hb) in Hata.
  destruct Hata as [(?&_)|(_&He&Hc&Hw)]; [congruence|]. apply NoDup_cons in Hnd as [Hh Hnd].
  assert (a_bufs a !!! h = core b) as Ha.
  { apply list_lookup_total_correct. by rewrite <- Hbufs, list_lookup_fmap, Hb. }
  rewrite Ha in *. change (dirty (core b)) with (dirty b) in *. change (key (core b)) with (key b) in *. change (ib_data (core b)) with (ib_data b) in *.
  unfold ideintr, the_ibuf, upd_ibuf, wakeup_buf. wp_steps. apply wp_acquire; [done|]. wp_steps. unfold id. cbn [ack set_ata set_id_lock id_queue]. rewrite Hqh. wp_steps.
  cbn [id_bufs]. rewrite (list_lookup_total_correct _ _ _ Hb).
  assert (∀ m, (∀ j, j ∈ l → m !! j = id_bufs s !! j) → linked m (ib_qnext b) l ∧ ∀ i, i ∈ l → ∃ b, m !! i = Some b ∧ request (id_havedisk1 s) b) as Hm.
  { intros m Hm. split; [by eapply linked_ext|]. intros j Hj. rewrite Hm by done. apply Hreq. by right. }
  assert (∀ (f : ibuf → ibuf) (m : list ibuf), (∀ j, j ∈ l → m !! j = id_bufs s !! j) → ∀ j, j ∈ l → alter f h m !! j = id_bufs s !! j) as Halt.
  { intros f m E j Hj. rewrite list_lookup_alter_ne; [by apply E|]. by intros ->. }
  destruct (dirty b) eqn:Ed; cbn [negb andb].
  - wp_steps. unfold id. set (m := alter finish h (id_bufs s)). destruct (Hm m) as [Hl' Hreq']; [by apply Halt|].
    eapply wp_mono; [apply (next_ok _ m l (a_calls a) (at_sectors (id_ata s))); try done|].
    { unfold m. rewrite core_alter_comm, Hbufs, Hw by done. exact Hserve. }
    intros [] s1 H1. eapply wp_mono; [exact H1|]. intros [] s' Hs'. cbn beta in Hs'.
    unfold m in Hs'. rewrite core_alter_comm, Hbufs in Hs' by done. by rewrite <- Hw.
  - destruct Hw as [Hsec Hx]. unfold idewait. wp_steps. unfold id. cbn [ack id_ata set_ata set_id_lock set_queue at_cmd at_err]. rewrite Hc, He. cbn [andb]. wp_steps.
    cbn [Z.leb Z.compare andb]. unfold insl. wp_steps. unfold id.
    set (m := alter finish h (alter (set_ib_data (a_sectors a !!! key b)) h (id_bufs s))). destruct (Hm m) as [Hl' Hreq']; [by apply Halt, Halt|].
    eapply wp_mono; [apply (next_ok _ m l (a_calls a) (a_sectors a)); try done|].
    { unfold m. rewrite <- Hx. done. }
    { unfold m. rewrite !core_alter_comm, Hbufs by done. exact Hserve. }
    intros [] s1 H1. eapply wp_mono; [exact H1|]. intros [] s' Hs'. cbn beta in Hs'.
    unfold m in Hs'. by rewrite !core_alter_comm, Hbufs in Hs' by done.
Qed.

Lemma iderw_resume_eq s a i b : irel s a → a_bufs a !! i = Some b →
  iderw_resume i s = if synced b then Done true s else Done false (set_asleep ({[i]} ∪ id_asleep s) s).
Proof.
  intros [Hlk Hbufs Hq Hnd Hcl Hreq Hata] Ha. rewrite <- Hbufs, list_lookup_fmap in Ha. destruct (id_bufs s !! i) as [b'|] eqn:Hb; [|done].
  injection Ha as <-. change (synced (core b')) with (synced b').
  unfold iderw_resume, iderw_wait, sleep_buf, acquire_ide, release_ide, acquire, release, the_ibuf.
  cbv [mbind M_bind gets modify mret M_ret]. rewrite Hlk. cbn. rewrite (list_lookup_total_correct _ _ _ Hb).
  destruct s; cbn in *. subst. by destruct (synced b').
Qed.

Lemma queued_not_synced s a i : irel s a → i ∈ a_queue a → ∃ b, a_bufs a !! i = Some b ∧ synced b = false.
Proof.
  intros [Hlk Hbufs Hq Hnd Hcl Hreq Hata] Hi. destruct (Hreq i Hi) as (b&Hb&_&Hs&_). exists (core b). by rewrite <- Hbufs, list_lookup_fmap, Hb.
Qed.

Lemma resume_ok s a i : irel s a → i ∈ a_calls a →
  ∃ r s', iderw_resume i s = Done r s' ∧ irel s' (if r then return_call i a else a) ∧ r = negb (bool_decide (i ∈ a_queue a)).
Proof.
  intros H Hi. pose proof H as [Hlk Hbufs Hq Hnd Hcl Hreq Hata]. pose proof Hcl as (C1&C2&C3). destruct (C3 i Hi) as (b&Hb&Hs).
  rewrite (iderw_resume_eq s a i b H Hb). destruct (synced b) eqn:Es.
  - assert (i ∉ a_queue a) as Hn. { intros Hin. destruct (queued_not_synced s a i H Hin) as (b'&?&?). congruence. }
    exists true, s. rewrite bool_decide_eq_false_2 by done. split_and!; [done| |done]. split; try done. by apply calls_return.
  - destruct Hs as [Hin|?]; [|done]. exists false, (set_asleep ({[i]} ∪ id_asleep s) s). rewrite bool_decide_eq_true_2 by done.
    split_and!; [done| |done]. split; try done. split_and!; try done. intros j [->%elem_of_singleton|Hj]%elem_of_union; [done|by apply C1].
Qed.

(** The device ends its command. *)
Lemma done_ok s a : irel s a → irel (set_ata (ata_done (id_ata s)) s) a.
Proof.
  intros [Hlk Hbufs Hq Hnd Hcl Hreq Hata]. split; try done. cbn [set_ata id_ata id_bufs].
  destruct (a_queue a) as [|h l]; [destruct Hata as (A1&A2&A3); unfold ata_done; by rewrite A1|].
  destruct Hata as [(A1&A2&A3&A4&A5)|(A1&A2&A3&A4)]; [|right; unfold ata_done; by rewrite A3].
  right. unfold ata_done, worked. destruct (dirty (id_bufs s !!! h)).
  - destruct A5 as [-> A5]. cbn. rewrite A2, A3, A4, A5. done.
  - rewrite A5. cbn. rewrite A2, A3, A4. done.
Qed.

(** The caller of the driver changes a buffer that is not queued. *)
Lemma client_ok s a i b : irel s a → i ∉ a_calls a → irel (set_ibufs (<[i:=b]> (id_bufs s)) s) (change_buf i b a).
Proof.
  intros [Hlk Hbufs Hq Hnd Hcl Hreq Hata] Hic. pose proof Hcl as (C1&C2&C3). assert (i ∉ a_queue a) as Hi by (intros ?; by apply Hic, C2).
  split; cbn [set_ibufs change_buf id_lock id_bufs id_queue id_ata id_havedisk1 id_asleep a_bufs a_queue a_sectors]; try done.
  - by rewrite list_fmap_insert, Hbufs.
  - eapply linked_ext; [|exact Hq]. intros j Hj. rewrite list_lookup_insert_ne; [done|]. by intros ->.
  - split_and!; try done. cbn [change_buf a_calls a_bufs a_queue]. intros j Hj. rewrite list_lookup_insert_ne; [by apply C3|]. intros ->. by apply Hic.
  - intros j Hj. destruct (Hreq j Hj) as (bj&Hbj&Hrj). exists bj. split; [|done]. rewrite list_lookup_insert_ne; [done|]. by intros ->.
  - destruct (a_queue a) as [|h l]; [done|]. rewrite list_lookup_total_insert_ne; [done|]. intros ->. apply Hi. by left.
Qed.

(** ** All schedules *)

(** A step of the driver beside the step of the atomic disk: a request, the
    device finishing a command, its interrupt, a caller that is awake looking
    at its buffer again, a kill that wakes a caller, and a change of a buffer
    by its owner. *)
Inductive istep : ide * adisk → ide * adisk → Prop :=
| is_submit s a i b r s' : id_bufs s !! i = Some b → request (id_havedisk1 s) b → i ∉ a_calls a → ide_rw i s = Done r s' → istep (s, a) (s', submit i a)
| is_done s a : istep (s, a) (set_ata (ata_done (id_ata s)) s, a)
| is_intr s a s' : at_irq (id_ata s) = true → ideintr (ack s) = Done tt s' → istep (s, a) (s', serve a)
| is_resume s a i r s' : i ∈ a_calls a → i ∉ id_asleep s → iderw_resume i s = Done r s' → istep (s, a) (s', if r then return_call i a else a)
| is_kill s a i : istep (s, a) (set_asleep (id_asleep s ∖ {[i]}) s, a)
| is_client s a i b : i ∉ a_calls a → istep (s, a) (set_ibufs (<[i:=b]> (id_bufs s)) s, change_buf i b a).

Lemma istep_irel x y : istep x y → irel x.1 x.2 → irel y.1 y.2.
Proof.
  intros Hs. destruct Hs as [s a i b r s' Hb Hr Hi E|s a|s a s' Hq E|s a i r s' Hi Hn E|s a i|s a i b Hi]; cbn [fst snd]; intros H.
  - apply (wp_elim _ _ _ _ _ (ide_rw_ok s a i b H ltac:(intros ?; by apply Hi, (ir_calls _ _ H)) Hb Hr) E).
  - by apply done_ok.
  - by apply (wp_elim _ _ _ _ _ (ideintr_ok s a H Hq) E).
  - destruct (resume_ok s a i H Hi) as (r'&s''&E'&?&_). rewrite E in E'. by simplify_eq.
  - destruct H as [Hlk Hbufs Hq Hnd (C1&C2&C3) Hreq Hata]. split; try done. split_and!; try done. intros j [Hj _]%elem_of_difference. by apply C1.
  - by apply client_ok.
Qed.

Lemma isteps_irel x y : rtc istep x y → irel x.1 x.2 → irel y.1 y.2.
Proof. induction 1; [done|]. eauto using istep_irel. Qed.

(** C13: the driver implements a disk that serves one request after the other in
    the order of the calls of [iderw], each at one moment.  In every schedule
    of requests, interrupts, kills and waiting callers the buffers are those
    of that disk; a further request is queued at the end and an interrupt
    serves the first request, both without a panic; a caller of [iderw] that
    runs returns exactly when its request has been served, and one that sleeps
    has its request still queued, so that no wakeup is lost; as long as a
    request is queued the device works on one or has an interrupt pending; and
    when none is queued the sectors of the device are those of the atomic
    disk. *)
Theorem ide_refines s0 a0 s a : irel s0 a0 → rtc istep (s0, a0) (s, a) →
  core <$> id_bufs s = a_bufs a ∧
  (∀ i b, id_bufs s !! i = Some b → request (id_havedisk1 s) b → i ∉ a_calls a → ∃ s', ide_rw i s = Done false s' ∧ core <$> id_bufs s' = a_bufs a) ∧
  (at_irq (id_ata s) = true → ∃ s', ideintr (ack s) = Done tt s' ∧ core <$> id_bufs s' = a_bufs (serve a)) ∧
  (∀ i, i ∈ a_calls a → ∃ s', iderw_resume i s = Done (negb (bool_decide (i ∈ a_queue a))) s') ∧
  (∀ i, i ∈ id_asleep s → i ∈ a_queue a) ∧
  (a_queue a ≠ [] → is_Some (at_cmd (id_ata s)) ∨ at_irq (id_ata s) = true) ∧
  (a_queue a = [] → at_sectors (id_ata s) = a_sectors a).
Proof.
  intros H0 Hr. pose proof (isteps_irel _ _ Hr H0) as H. cbn [fst snd] in H. clear H0 Hr.
  pose proof H as [Hlk Hbufs Hq Hnd Hcl Hreq Hata]. split_and!; [done|..].
  - intros i b Hb Hrq Hi. assert (i ∉ a_queue a) as Hi' by (intros ?; by apply Hi, Hcl).
    destruct (wp_inv _ _ _ (ide_rw_ok s a i b H Hi' Hb Hrq)) as (r&s'&E& -> &[]). eauto.
  - intros Hirq. destruct (wp_inv _ _ _ (ideintr_ok s a H Hirq)) as ([]&s'&E&[]). eauto.
  - intros i Hi. destruct (resume_ok s a i H Hi) as (r&s'&E&_& ->). eauto.
  - apply Hcl.
  - intros Hne. destruct (a_queue a) as [|h l]; [done|]. destruct Hata as [(_&_&_&_&A)|(A&_)]; [|by right]. left. destruct (dirty _); [destruct A as [-> _]|rewrite A]; eauto.
  - intros E. rewrite E in Hata. apply Hata.
Qed.

(** A write of a sector and a read of the same sector, queued together. *)
Module Demo.

Definition sector : list Z := replicate 512 7.
Definition start : ide :=
  mkide false None false [mkibuf B_DIRTY 0 5 true sector None; mkibuf 0 0 5 true [] None]
    (mkata ∅ None [] false false ∅) ∅.
Definition start_disk : adisk := mkadisk (core <$> id_bufs start) [] ∅ ∅.

Definition st {A} (o : outcome ide A) : ide := match o with Done _ s => s | _ => start end.
Definition device (s : ide) : ide := set_ata (ata_done (id_ata s)) s.
Definition s1 : ide := st (ide_rw 0 start).
Definition s2 : ide := st (ide_rw 1 s1).
Definition s3 : ide := st (ideintr (ack (device s2))).
Definition s4 : ide := st (ideintr (ack (device s3))).
Definition end_disk : adisk := serve (serve (submit 1 (submit 0 start_disk))).

Lemma run : rtc istep (start, start_disk) (s4, end_disk).
Proof.
  eapply (rtc_l _ _ (s1, submit 0 start_disk)).
  { eapply (is_submit _ _ 0 _ false); [done| |set_solver|by vm_compute]. split_and!; try done. by left. }
  eapply (rtc_l _ _ (s2, submit 1 (submit 0 start_disk))).
  { eapply (is_submit _ _ 1 (mkibuf 0 0 5 true [] None) false); [by vm_compute| | |by vm_compute]; [split_and!; try done; by left|]. cbn. set_solver. }
  eapply rtc_l; [apply is_done|]. eapply (rtc_l _ _ (s3, serve (submit 1 (submit 0 start_disk)))); [apply is_intr; by vm_compute|].
  eapply rtc_l; [apply is_done|]. eapply (rtc_l _ _ (s4, end_disk)); [apply is_intr; by vm_compute|]. done.
Qed.

Lemma start_irel : irel start start_disk.
Proof. split; try done; [apply NoDup_nil_2|split_and!; set_solver|]. intros i Hi. by apply not_elem_of_nil in Hi. Qed.

Lemma ide_refines_witness : (core <$> id_bufs s4 = a_bufs end_disk) ∧ ib_data (id_bufs s4 !!! 1%nat) = sector.
Proof.
  split; [exact (proj1 (ide_refines start start_disk s4 end_disk start_irel run))|by vm_compute].
Defined.

(** When the device reports an error, the buffer of a read is marked valid
    although nothing was read into it. *)
Theorem read_error_marked_valid :
  let s := st (ide_rw 1 start) in
  let s' := st (ideintr (ack (set_ata (ata_fail (id_ata s)) s))) in
  iderw_resume 1 s' = Done true s' ∧ ib_data (id_bufs s' !!! 1%nat) = [].
Proof. by vm_compute. Qed.

End Demo.
