(* ===== verification/Sleeplock.v ===== *)
(** * Sleeping locks (sleeplock.c)

    The inner spinlock makes each routine one atomic step, so a routine is a
    function on the lock's fields.  [acquiresleep] is one pass of the source's
    loop: [None] is the iteration that calls [sleep] and tries again when it is
    woken. *)

From S2P Require Import Prelude.

Record sleeplock := mksl {
  sl_locked : bool;
  sl_name : string;
  sl_pid : Z
}.

Definition initsleeplock (name : string) : sleeplock := mksl false name 0.

Definition acquiresleep (pid : Z) (lk : sleeplock) : option sleeplock :=
  if sl_locked lk then None else Some (mksl true (sl_name lk) pid).

Definition releasesleep (lk : sleeplock) : sleeplock := mksl false (sl_name lk) 0.

Definition holdingsleep (pid : Z) (lk : sleeplock) : bool :=
  sl_locked lk && (sl_pid lk =? pid).

(** ** A process that holds the lock knows it; nobody else thinks they do. *)

Lemma acquiresleep_holding pid lk lk' :
  acquiresleep pid lk = Some lk' → holdingsleep pid lk' = true.
Proof.
  unfold acquiresleep, holdingsleep. destruct (sl_locked lk); [done|].
  intros [= <-]. simpl. apply Z.eqb_refl.
Qed.

Lemma holdingsleep_unique pid pid' lk :
  holdingsleep pid lk = true → holdingsleep pid' lk = true → pid = pid'.
Proof. unfold holdingsleep. rewrite !andb_true_iff, !Z.eqb_eq. intros [_ <-] [_ <-]. done. Qed.

Lemma releasesleep_free pid lk : holdingsleep pid (releasesleep lk) = false.
Proof. done. Qed.
