(* ===== verification/Bio.v ===== *)
(** * The buffer cache (bio.c) over the in-memory disk (memide.c)

    [bufs] holds the NBUF buffers of [bcache.buf] and, at index NBUF, the list
    head [bcache.head]; [b_prev] and [b_next] are the pointers of the
    doubly-linked LRU list, as indices into [bufs].  The disk of memide.c is
    the map [disk], with the ghost list [writes] of the blocks written to it. *)

From S2P Require Import Prelude Params Block Sleeplock.

(** ** State *)

Record buf := mkbuf {
  b_flags : Z;
  b_dev : Z;
  b_blockno : Z;
  b_lock : sleeplock;
  b_refcnt : Z;
  b_prev : nat;
  b_next : nat;
  b_data : block
}.
#[global] Instance buf_inhabited : Inhabited buf :=
  populate (mkbuf 0 0 0 (initsleeplock "") 0 0 0 []).

Record bio := mkbio {
  bufs : list buf;
  bc_lock : bool;
  disk : gmap Z block;
  disksize : Z;
  writes : list (Z * block);
  mypid : Z
}.

(** The pointer [&bcache.head]. *)
Definition HEAD : nat := NBUF.

(** Stores into the fields of a buffer. *)
Definition set_flags (v : Z) (b : buf) : buf :=
  mkbuf v (b_dev b) (b_blockno b) (b_lock b) (b_refcnt b) (b_prev b) (b_next b) (b_data b).
Definition set_lock (v : sleeplock) (b : buf) : buf :=
  mkbuf (b_flags b) (b_dev b) (b_blockno b) v (b_refcnt b) (b_prev b) (b_next b) (b_data b).
Definition set_refcnt (v : Z) (b : buf) : buf :=
  mkbuf (b_flags b) (b_dev b) (b_blockno b) (b_lock b) v (b_prev b) (b_next b) (b_data b).
Definition set_prev (v : nat) (b : buf) : buf :=
  mkbuf (b_flags b) (b_dev b) (b_blockno b) (b_lock b) (b_refcnt b) v (b_next b) (b_data b).
Definition set_next (v : nat) (b : buf) : buf :=
  mkbuf (b_flags b) (b_dev b) (b_blockno b) (b_lock b) (b_refcnt b) (b_prev b) v (b_data b).
Definition set_data (v : block) (b : buf) : buf :=
  mkbuf (b_flags b) (b_dev b) (b_blockno b) (b_lock b) (b_refcnt b) (b_prev b) (b_next b) v.

Definition set_bufs (l : list buf) (s : bio) : bio :=
  mkbio l (bc_lock s) (disk s) (disksize s) (writes s) (mypid s).
Definition set_bc_lock (l : bool) (s : bio) : bio :=
  mkbio (bufs s) l (disk s) (disksize s) (writes s) (mypid s).
Definition disk_write (b : Z) (d : block) (s : bio) : bio :=
  mkbio (bufs s) (bc_lock s) (<[b:=d]> (disk s)) (disksize s)
        (writes s ++ [(b, d)]) (mypid s).

Definition the_buf (i : nat) : M bio buf := gets (λ s, bufs s !!! i).
Definition upd_buf (i : nat) (f : buf → buf) : M bio unit :=
  modify (λ s, set_bufs (alter f i (bufs s)) s).

(** ** memide.c *)

Definition iderw (i : nat) : M bio unit :=
  s ← gets id;
  b ← the_buf i;
  if negb (holdingsleep (mypid s) (b_lock b)) then panic "iderw: buf not locked"
  else if Z.land (b_flags b) (Z.lor B_VALID B_DIRTY) =? B_VALID then
    panic "iderw: nothing to do"
  else if negb (b_dev b =? 1) then panic "iderw: request not for disk 1"
  else if disksize s <=? b_blockno b then panic "iderw: block out of range"
  else
    (if negb (Z.land (b_flags b) B_DIRTY =? 0) then
       upd_buf i (λ b, set_flags (Z.land (b_flags b) (Z.lnot B_DIRTY)) b);;
       modify (disk_write (b_blockno b) (b_data b))
     else
       upd_buf i (set_data (disk s !!! b_blockno b)));;
    upd_buf i (λ b, set_flags (Z.lor (b_flags b) B_VALID) b).

(** ** bio.c *)

Definition acquire_bcache : M bio unit := acquire bc_lock set_bc_lock.
Definition release_bcache : M bio unit := release bc_lock set_bc_lock.

(** One iteration of the loop of [binit]: insert buffer [i] after the head. *)
Definition binit_step (l : list buf) (i : nat) : list buf :=
  let first := b_next (l !!! HEAD) in
  let l := alter (set_next first) i l in
  let l := alter (set_prev HEAD) i l in
  let l := alter (set_lock (initsleeplock "buffer")) i l in
  let l := alter (set_prev i) first l in
  alter (set_next i) HEAD l.

(** [binit], on the zeroed static [bcache]. *)
Definition binit (l : list buf) : list buf :=
  let l := alter (set_prev HEAD) HEAD l in
  let l := alter (set_next HEAD) HEAD l in
  foldl binit_step l (seq 0 NBUF).

(** The list walks of [bget]: follow [step] from [b] to the head. *)
Inductive walk_result := Found (i : nat) | NotFound | OutOfFuel.

Fixpoint walk (fuel : nat) (step : nat → nat) (hit : nat → bool) (b : nat) : walk_result :=
  match fuel with
  | O => OutOfFuel
  | S fuel' =>
      if (b =? HEAD)%nat then NotFound
      else if hit b then Found b
      else walk fuel' step hit (step b)
  end.

Definition buf_matches (l : list buf) (dev blockno : Z) (i : nat) : bool :=
  (b_dev (l !!! i) =? dev) && (b_blockno (l !!! i) =? blockno).
Definition buf_unused (l : list buf) (i : nat) : bool :=
  (b_refcnt (l !!! i) =? 0) && (Z.land (b_flags (l !!! i)) B_DIRTY =? 0).

Definition acquiresleep_buf (i : nat) : M bio unit := λ s,
  match acquiresleep (mypid s) (b_lock (bufs s !!! i)) with
  | Some lk => Done tt (set_bufs (alter (set_lock lk) i (bufs s)) s)
  | None => Asleep (ChanBuf i) s
  end.

Definition recycle (dev blockno : Z) (b : buf) : buf :=
  mkbuf 0 dev blockno (b_lock b) 1 (b_prev b) (b_next b) (b_data b).

Definition bget (dev blockno : Z) : M bio nat :=
  acquire_bcache;;
  l ← gets bufs;
  match walk (S NBUF) (λ i, b_next (l !!! i)) (buf_matches l dev blockno)
             (b_next (l !!! HEAD)) with
  | Found i =>
      upd_buf i (λ b, set_refcnt (u32 (b_refcnt b + 1)) b);;
      release_bcache;;
      acquiresleep_buf i;;
      mret i
  | OutOfFuel => diverge
  | NotFound =>
      match walk (S NBUF) (λ i, b_prev (l !!! i)) (buf_unused l)
                 (b_prev (l !!! HEAD)) with
      | Found i =>
          upd_buf i (recycle dev blockno);;
          release_bcache;;
          acquiresleep_buf i;;
          mret i
      | OutOfFuel => diverge
      | NotFound => panic "bget: no buffers"
      end
  end.

Definition bread (dev blockno : Z) : M bio nat :=
  i ← bget dev blockno;
  b ← the_buf i;
  when (Z.land (b_flags b) B_VALID =? 0) (iderw i);;
  mret i.

Definition bwrite (i : nat) : M bio unit :=
  s ← gets id;
  b ← the_buf i;
  if negb (holdingsleep (mypid s) (b_lock b)) then panic "bwrite"
  else
    upd_buf i (λ b, set_flags (Z.lor (b_flags b) B_DIRTY) b);;
    iderw i.

(** The pointer surgery of [brelse]: unlink [i], relink it after the head. *)
Definition move_to_front (i : nat) (l : list buf) : list buf :=
  let b := l !!! i in
  let l := alter (set_prev (b_prev b)) (b_next b) l in
  let l := alter (set_next (b_next (l !!! i))) (b_prev (l !!! i)) l in
  let l := alter (set_next (b_next (l !!! HEAD))) i l in
  let l := alter (set_prev HEAD) i l in
  let l := alter (set_prev i) (b_next (l !!! HEAD)) l in
  alter (set_next i) HEAD l.

Definition brelse (i : nat) : M bio unit :=
  s ← gets id;
  b ← the_buf i;
  if negb (holdingsleep (mypid s) (b_lock b)) then panic "brelse"
  else
    upd_buf i (λ b, set_lock (releasesleep (b_lock b)) b);;
    acquire_bcache;;
    upd_buf i (λ b, set_refcnt (u32 (b_refcnt b - 1)) b);;
    b ← the_buf i;
    when (b_refcnt b =? 0) (modify (λ s, set_bufs (move_to_front i (bufs s)) s));;
    release_bcache.

(** A machine that has just booted with the disk [d] of [n] blocks. *)
Definition zero_buf : buf := mkbuf 0 0 0 (mksl false "" 0) 0 0 0 zero_block.
Definition bio_boot (n : Z) (d : gmap Z block) (pid : Z) : bio :=
  mkbio (binit (replicate (S NBUF) zero_buf)) false d n [] pid.

(** The interface of the cache. *)
#[global] Instance bio_ops : BlockOps bio := {|
  op_bread := bread;
  op_bwrite := bwrite;
  op_brelse := brelse;
  op_data i := b ← the_buf i; mret (b_data b);
  op_set_data i d := upd_buf i (set_data d);
  op_blockno i := b ← the_buf i; mret (b_blockno b);
  op_pin i := upd_buf i (λ b, set_flags (Z.lor (b_flags b) B_DIRTY) b)
|}.

(** ** The LRU list *)

Section lru.
Implicit Types m : list buf.
Implicit Types l : list nat.

Definition nx m (i : nat) : nat := b_next (m !!! i).
Definition pv m (i : nat) : nat := b_prev (m !!! i).

(** The nodes [l] are chained, both ways, between [a] and [b]. *)
Fixpoint seg m (a : nat) l (b : nat) : Prop :=
  match l with
  | [] => nx m a = b ∧ pv m b = a
  | x :: l' => nx m a = x ∧ pv m x = a ∧ seg m x l' b
  end.

(** [l] is the list from the most to the least recently used buffer. *)
Definition lru m l : Prop :=
  length m = S NBUF ∧ l ≡ₚ seq 0 NBUF ∧ seg m HEAD l HEAD.

Lemma seg_app m a l1 x l2 b : seg m a (l1 ++ x :: l2) b ↔ seg m a l1 x ∧ seg m x l2 b.
Proof. revert a. induction l1 as [|y l1 IH]; intros a; simpl; [tauto|]. rewrite IH. tauto. Qed.

Lemma seg_ext m m' a l b :
  (∀ x, x ∈ a :: l → nx m' x = nx m x) →
  (∀ x, x ∈ l ++ [b] → pv m' x = pv m x) →
  seg m a l b → seg m' a l b.
Proof.
  revert a. induction l as [|y l IH]; intros a Hn Hp; simpl.
  - intros [? ?]. rewrite Hn, Hp by set_solver. done.
  - intros (?&?&?). rewrite Hn, Hp by set_solver. split_and!; [done..|].
    apply IH; set_solver.
Qed.

Lemma nx_set_next m i v x : (i < length m)%nat →
  nx (alter (set_next v) i m) x = if decide (x = i) then v else nx m x.
Proof.
  intros. unfold nx. destruct (decide (x = i)) as [->|].
  - by rewrite list_lookup_total_alter_eq.
  - by rewrite list_lookup_total_alter_ne.
Qed.
Lemma pv_set_prev m i v x : (i < length m)%nat →
  pv (alter (set_prev v) i m) x = if decide (x = i) then v else pv m x.
Proof.
  intros. unfold pv. destruct (decide (x = i)) as [->|].
  - by rewrite list_lookup_total_alter_eq.
  - by rewrite list_lookup_total_alter_ne.
Qed.

(** A store that does not touch a pointer leaves it alone. *)
Lemma lookup_alter_same {B} (g : buf → B) f m i x :
  (∀ b, g (f b) = g b) → g (alter f i m !!! x) = g (m !!! x).
Proof.
  intros Hg. destruct (decide (i = x)) as [->|]; [|by rewrite list_lookup_total_alter_ne].
  destruct (decide (x < length m)%nat).
  - by rewrite list_lookup_total_alter_eq.
  - rewrite !list_lookup_total_alt, list_lookup_alter_eq.
    by rewrite lookup_ge_None_2 by lia.
Qed.

Lemma seg_alter f i m a l b :
  (∀ c, b_next (f c) = b_next c) → (∀ c, b_prev (f c) = b_prev c) →
  seg m a l b → seg (alter f i m) a l b.
Proof. intros Hn Hp. apply seg_ext; intros x _; by apply lookup_alter_same. Qed.

Lemma lru_alter f i m l :
  (∀ c, b_next (f c) = b_next c) → (∀ c, b_prev (f c) = b_prev c) →
  lru m l → lru (alter f i m) l.
Proof. intros ?? (?&?&?). split_and!; [by rewrite length_alter|done|by apply seg_alter]. Qed.

Lemma lru_elem m l i : lru m l → i ∈ l ↔ (i < NBUF)%nat.
Proof. intros (_&H&_). rewrite H, elem_of_seq. lia. Qed.
Lemma lru_nodup m l : lru m l → NoDup l.
Proof. intros (_&H&_). rewrite H. apply NoDup_seq. Qed.
Lemma lru_length m l : lru m l → length l = NBUF.
Proof. intros (_&H&_). rewrite H. apply length_seq. Qed.
Lemma lru_head m l : lru m l → HEAD ∉ l.
Proof. intros H. rewrite (lru_elem m) by done. unfold HEAD. lia. Qed.

Definition unlink (i : nat) m : list buf :=
  let m1 := alter (set_prev (b_prev (m !!! i))) (b_next (m !!! i)) m in
  alter (set_next (b_next (m1 !!! i))) (b_prev (m1 !!! i)) m1.

Definition push_front (i : nat) m : list buf :=
  let l := alter (set_next (b_next (m !!! HEAD))) i m in
  let l := alter (set_prev HEAD) i l in
  let l := alter (set_prev i) (b_next (l !!! HEAD)) l in
  alter (set_next i) HEAD l.

Lemma move_to_front_split i m : move_to_front i m = push_front i (unlink i m).
Proof. done. Qed.

Lemma length_unlink i m : length (unlink i m) = length m.
Proof. unfold unlink. by rewrite !length_alter. Qed.

(** The neighbours of a node of the list. *)
Lemma seg_mid m a l1 i l2 b :
  seg m a (l1 ++ i :: l2) b →
  pv m i = List.last l1 a ∧ nx m i = List.hd b l2 ∧
  nx m (List.last l1 a) = i ∧ pv m (List.hd b l2) = i.
Proof.
  rewrite seg_app. intros [H1 H2].
  assert (pv m i = List.last l1 a ∧ nx m (List.last l1 a) = i) as [??].
  { clear H2. destruct l1 as [|x l1 _] using rev_ind; simpl in *; [tauto|].
    rewrite seg_app in H1. rewrite List.last_last. simpl in H1. tauto. }
  destruct l2; simpl in *; tauto.
Qed.

Lemma last_elem l a : List.last l a ∈ a :: l.
Proof.
  destruct l as [|x l _] using rev_ind; simpl; [set_solver|].
  rewrite List.last_last. set_solver.
Qed.

Lemma unlink_ptrs i m l1 l2 :
  lru m (l1 ++ i :: l2) →
  let p := List.last l1 HEAD in let n := List.hd HEAD l2 in
  (∀ x, nx (unlink i m) x = if decide (x = p) then n else nx m x) ∧
  (∀ x, pv (unlink i m) x = if decide (x = n) then p else pv m x).
Proof.
  intros Hl p n. pose proof Hl as (Hlen&_&Hseg).
  pose proof (lru_nodup _ _ Hl) as Hnd. pose proof (lru_head _ _ Hl) as Hhd.
  destruct (seg_mid _ _ _ _ _ _ Hseg) as (Hpi&Hni&_&_). fold p in Hpi. fold n in Hni.
  assert (p ∈ HEAD :: l1) as Hp by apply last_elem.
  assert (n ∈ HEAD :: l2) as Hn by (subst n; destruct l2; set_solver).
  assert (∀ x, x ∈ HEAD :: l1 ++ i :: l2 → (x < length m)%nat) as Hlt.
  { intros x Hx. rewrite Hlen. apply elem_of_cons in Hx as [->|Hx]; [unfold HEAD; lia|].
    apply (lru_elem _ _ _ Hl) in Hx. lia. }
  assert (n ≠ i) as Hne.
  { intros ->. apply NoDup_app in Hnd as (_&_&Hnd). apply NoDup_cons in Hnd as [? _].
    apply elem_of_cons in Hn as [Hn|Hn]; [|done]. apply Hhd. rewrite <- Hn. set_solver. }
  unfold unlink. fold (pv m i) (nx m i). rewrite Hpi, Hni.
  set (m1 := alter (set_prev p) n m).
  assert (b_next (m1 !!! i) = n) as ->.
  { unfold m1. rewrite (lookup_alter_same b_next) by done. done. }
  assert (b_prev (m1 !!! i) = p) as ->.
  { fold (pv m1 i). unfold m1. rewrite pv_set_prev by (apply Hlt; set_solver).
    rewrite decide_False by done. done. }
  split; intros x.
  - rewrite nx_set_next by (unfold m1; rewrite length_alter; apply Hlt; set_solver).
    case_decide; [done|]. unfold m1, nx. by rewrite (lookup_alter_same b_next).
  - unfold pv. rewrite (lookup_alter_same b_prev) by done. fold (pv m1 x). unfold m1.
    by rewrite pv_set_prev by (apply Hlt; set_solver).
Qed.

Lemma unlink_seg i m l1 l2 :
  lru m (l1 ++ i :: l2) → seg (unlink i m) HEAD (l1 ++ l2) HEAD.
Proof.
  intros Hl. destruct (unlink_ptrs _ _ _ _ Hl) as [Hnx Hpv].
  pose proof Hl as (_&_&Hseg). pose proof (lru_nodup _ _ Hl) as Hnd.
  pose proof (lru_head _ _ Hl) as Hhd.
  apply seg_app in Hseg as [H1 H2].
  apply NoDup_app in Hnd as (Hnd1&Hd&Hnd2). apply NoDup_cons in Hnd2 as [Hi Hnd2].
  (* the part before [i], whose last node now points to the node after [i] *)
  assert (∀ b, b = List.hd HEAD l2 → seg (unlink i m) HEAD l1 b) as Hfront.
  { intros b ->. destruct l1 as [|p l1 _] using rev_ind; simpl in *.
    - rewrite Hnx, Hpv, !decide_True by done. done.
    - rewrite List.last_last in Hnx, Hpv. apply seg_app in H1 as [H1 _].
      apply seg_app. split; [|simpl; rewrite Hnx, Hpv, !decide_True by done; done].
      apply NoDup_app in Hnd1 as (Hnd1&Hd1&_).
      revert H1. apply seg_ext; intros x Hx.
      + rewrite Hnx, decide_False; [done|]. intros ->.
        apply elem_of_cons in Hx as [->|Hx]; [set_solver|]. set_solver.
      + rewrite Hpv, decide_False; [done|]. intros ->.
        destruct l2; simpl in Hx; set_solver. }
  destruct l2 as [|n l2]; simpl in *.
  { rewrite app_nil_r. by apply Hfront. }
  apply seg_app. split; [by apply Hfront|].
  destruct H2 as (_&_&H2). apply NoDup_cons in Hnd2 as [? Hnd2].
  revert H2. apply seg_ext; intros x Hx.
  - rewrite Hnx, decide_False; [done|]. intros ->.
    pose proof (last_elem l1 HEAD) as Hlast.
    apply elem_of_cons in Hlast as [E|E].
    + apply Hhd. rewrite <- E, elem_of_app, elem_of_cons. auto.
    + apply (Hd _ E). rewrite elem_of_cons. auto.
  - rewrite Hpv, decide_False; [done|]. intros ->.
    apply elem_of_app in Hx as [Hx|Hx%list_elem_of_singleton]; [done|].
    apply Hhd. rewrite <- Hx, elem_of_app, !elem_of_cons. auto.
Qed.

Lemma push_front_seg i m l :
  length m = S NBUF → seg m HEAD l HEAD → HEAD ∉ l → NoDup (i :: l) → (i < NBUF)%nat →
  (∀ x, x ∈ l → (x < NBUF)%nat) →
  seg (push_front i m) HEAD (i :: l) HEAD.
Proof.
  intros Hlen Hseg Hhd Hnd Hlt Hall. apply NoDup_cons in Hnd as [Hi Hnd]. set (f := List.hd HEAD l).
  assert (nx m HEAD = f) as Hf by (destruct l; simpl in Hseg; naive_solver).
  assert (i ≠ HEAD) as HiH by (unfold HEAD; lia).
  assert (f < S NBUF)%nat as Hfl.
  { unfold f. destruct l; simpl; [unfold HEAD; lia|]. specialize (Hall n). apply Nat.lt_lt_succ_r, Hall. set_solver. }
  assert (f ≠ i) as Hfi by (unfold f; destruct l; simpl; set_solver).
  assert ((∀ x, nx (push_front i m) x =
            if decide (x = HEAD) then i else if decide (x = i) then f else nx m x) ∧
          (∀ x, pv (push_front i m) x =
            if decide (x = f) then i else if decide (x = i) then HEAD else pv m x))
    as [Hnx Hpv].
  { unfold push_front. fold (nx m HEAD). rewrite Hf.
    set (m2 := alter (set_prev HEAD) i (alter (set_next f) i m)).
    assert (length m2 = S NBUF) as Hl2 by (unfold m2; by rewrite !length_alter).
    assert (∀ x, nx m2 x = if decide (x = i) then f else nx m x) as Hn2.
    { intros x. unfold m2, nx. rewrite (lookup_alter_same b_next) by done.
      fold (nx (alter (set_next f) i m) x). by rewrite nx_set_next by lia. }
    assert (∀ x, pv m2 x = if decide (x = i) then HEAD else pv m x) as Hp2.
    { intros x. unfold m2. rewrite pv_set_prev by (rewrite length_alter; lia).
      case_decide; [done|]. unfold pv. by rewrite (lookup_alter_same b_prev). }
    fold (nx m2 HEAD). rewrite Hn2, decide_False, Hf by done.
    split; intros x.
    - rewrite nx_set_next by (rewrite length_alter; unfold HEAD; lia).
      case_decide; [done|]. unfold nx. rewrite (lookup_alter_same b_next) by done. apply Hn2.
    - unfold pv. rewrite (lookup_alter_same b_prev) by done.
      fold (pv (alter (set_prev i) f m2) x). rewrite pv_set_prev by lia.
      case_decide; [done|]. apply Hp2. }
  simpl. rewrite Hnx, decide_True by done. rewrite Hpv, decide_False, decide_True by done.
  split_and!; [done..|]. clear Hf. revert Hseg. destruct l as [|n l]; simpl in *.
  - rewrite Hnx, Hpv, decide_False, !decide_True by done. done.
  - intros (?&?&Hseg). subst f. rewrite Hnx, decide_False, decide_True by done.
    rewrite Hpv, decide_True by done. split_and!; [done..|].
    revert Hseg. apply seg_ext; intros x Hx.
    + rewrite Hnx, !decide_False; [done|intros ->; set_solver..].
    + apply NoDup_cons in Hnd as [? _].
      rewrite Hpv, !decide_False; [done|intros ->; set_solver..].
Qed.

Lemma lru_move_to_front m l1 i l2 :
  lru m (l1 ++ i :: l2) → lru (move_to_front i m) (i :: l1 ++ l2).
Proof.
  intros Hl. pose proof Hl as (Hlen&Hperm&_).
  pose proof (lru_nodup _ _ Hl) as Hnd. pose proof (lru_head _ _ Hl) as Hhd.
  assert (i :: l1 ++ l2 ≡ₚ l1 ++ i :: l2) as Hp by apply Permutation_middle.
  assert (∀ x, x ∈ l1 ++ l2 → x ∈ l1 ++ i :: l2) as Hsub.
  { intros x. rewrite !elem_of_app, elem_of_cons. tauto. }
  rewrite move_to_front_split. split_and!.
  - unfold push_front. by rewrite !length_alter, length_unlink.
  - by rewrite Hp.
  - apply push_front_seg.
    + by rewrite length_unlink.
    + by apply unlink_seg.
    + auto.
    + by rewrite Hp.
    + apply (lru_elem _ _ _ Hl). rewrite elem_of_app, elem_of_cons. auto.
    + intros x Hx. by apply (lru_elem _ _ _ Hl), Hsub.
Qed.

Lemma move_to_front_field {B} (g : buf → B) i m x :
  (∀ v b, g (set_next v b) = g b) → (∀ v b, g (set_prev v b) = g b) →
  g (move_to_front i m !!! x) = g (m !!! x).
Proof. intros. unfold move_to_front. by rewrite !(lookup_alter_same g). Qed.

Lemma walk_next_find m hit a l fuel :
  seg m a l HEAD → HEAD ∉ l → (length l < fuel)%nat →
  walk fuel (nx m) hit (nx m a) =
    match List.find hit l with Some i => Found i | None => NotFound end.
Proof.
  revert a fuel. induction l as [|x l IH]; intros a [|fuel] Hseg Hhd Hf; simpl in *; try lia.
  - destruct Hseg as [-> _]. by rewrite Nat.eqb_refl.
  - destruct Hseg as (->&_&Hseg). rewrite (proj2 (Nat.eqb_neq x HEAD)) by set_solver.
    destruct (hit x); [done|]. apply IH; [done|set_solver|lia].
Qed.

Lemma walk_prev_find m hit b l fuel :
  seg m HEAD l b → HEAD ∉ l → (length l < fuel)%nat →
  walk fuel (pv m) hit (pv m b) =
    match List.find hit (reverse l) with Some i => Found i | None => NotFound end.
Proof.
  revert b fuel. induction l as [|x l IH] using rev_ind; intros b [|fuel] Hseg Hhd Hf;
    simpl in *; try (rewrite ?length_app in Hf; simpl in Hf; lia).
  - destruct Hseg as [_ ->]. by rewrite Nat.eqb_refl.
  - apply seg_app in Hseg as [Hseg [_ ->]]. rewrite reverse_snoc. simpl.
    rewrite (proj2 (Nat.eqb_neq x HEAD)) by set_solver.
    destruct (hit x); [done|]. apply IH; [done|set_solver|].
    rewrite length_app in Hf. simpl in Hf. lia.
Qed.
End lru.

Lemma lru_binit : lru (binit (replicate (S NBUF) zero_buf)) (reverse (seq 0 NBUF)).
Proof.
  split_and!; [by vm_compute|by rewrite reverse_Permutation|].
  vm_compute. repeat split.
Qed.
