(* ===== verification/BioSpec.v ===== *)
(** * The buffer cache implements the block layer's contract

    [bio_rep] relates the cache of [Bio] to the abstract store of [Block]; each
    operation of bio.c is shown to simulate its abstract counterpart, which
    makes [bio] an instance of [BlockSpec]. *)

From S2P Require Import Prelude Params Block Sleeplock Bio.

(** ** Refinement of the abstract block store *)

(** A buffer that has never been given a block. *)
Definition buf_free (b : buf) : Prop :=
  b_dev b = 0 ∧ b_flags b = 0 ∧ sl_locked (b_lock b) = false ∧ b_refcnt b = 0.

(** A buffer that caches a block of the disk. *)
Definition buf_used (a : bstate) (pid : Z) (b : buf) : Prop :=
  b_dev b = 1 ∧ 0 ≤ b_blockno b < a_size a ∧
  (b_flags b = B_VALID ∨ b_flags b = Z.lor B_VALID B_DIRTY) ∧
  length (b_data b) = BSIZE ∧
  a_view a !! b_blockno b = Some (b_data b) ∧
  (b_flags b = B_VALID → sl_locked (b_lock b) = false →
   a_disk a !! b_blockno b = Some (b_data b)) ∧
  (if sl_locked (b_lock b) then sl_pid (b_lock b) = pid ∧ b_refcnt b = 1
   else b_refcnt b = 0).

Record bio_rep (s : bio) (a : bstate) : Prop := {
  rep_lru : ∃ l, lru (bufs s) l;
  rep_lock : bc_lock s = false;
  rep_buf i : (i < NBUF)%nat →
    buf_free (bufs s !!! i) ∨ buf_used a (mypid s) (bufs s !!! i);
  rep_inj i j : (i < NBUF)%nat → (j < NBUF)%nat →
    b_dev (bufs s !!! i) = 1 → b_dev (bufs s !!! j) = 1 →
    b_blockno (bufs s !!! i) = b_blockno (bufs s !!! j) → i = j;
  rep_size : disksize s = a_size a;
  rep_disk : disk s = a_disk a;
  rep_writes : writes s = a_writes a;
  rep_disk_ok b : 0 ≤ b < a_size a → ∃ d, a_disk a !! b = Some d ∧ length d = BSIZE;
  rep_view b : (∀ i, (i < NBUF)%nat → b_dev (bufs s !!! i) = 1 →
                     b_blockno (bufs s !!! i) ≠ b) →
    a_view a !! b = a_disk a !! b;
  rep_dirty b : b ∈ a_dirty a ↔ ∃ i, (i < NBUF)%nat ∧ b_dev (bufs s !!! i) = 1 ∧
    b_blockno (bufs s !!! i) = b ∧ b_flags (bufs s !!! i) = Z.lor B_VALID B_DIRTY;
  rep_held i b : a_held a !! i = Some b ↔ (i < NBUF)%nat ∧
    sl_locked (b_lock (bufs s !!! i)) = true ∧ b_blockno (bufs s !!! i) = b
}.

Lemma buf_used_locked a pid b : buf_used a pid b → sl_locked (b_lock b) = true →
  holdingsleep pid (b_lock b) = true ∧ b_refcnt b = 1.
Proof.
  intros (_&_&_&_&_&_&H) Hl. rewrite Hl in H. destruct H as [H ?].
  unfold holdingsleep. rewrite Hl, H, Z.eqb_refl. done.
Qed.

(** The cache state with buffer [i] changed by [f] and a new disk. *)
Definition bio_with (s : bio) (l : list buf) (d : gmap Z block) (w : list (Z * block)) : bio :=
  mkbio l false d (disksize s) w (mypid s).

(** One buffer changes, and the abstract state changes at its block only. *)
Lemma rep_step s a i f a' :
  let b0 := bufs s !!! i in
  let b1 := f b0 in
  bio_rep s a → (i < NBUF)%nat →
  (∀ c, b_next (f c) = b_next c) → (∀ c, b_prev (f c) = b_prev c) →
  buf_used a' (mypid s) b1 →
  (∀ j, (j < NBUF)%nat → j ≠ i → b_dev (bufs s !!! j) = 1 →
        b_blockno (bufs s !!! j) ≠ b_blockno b1) →
  (b_dev b0 = 1 → b_blockno b0 ≠ b_blockno b1 →
     b_blockno b0 ∉ a_dirty a ∧ a_view a !! b_blockno b0 = a_disk a !! b_blockno b0) →
  a_size a' = a_size a →
  (∀ b, b ≠ b_blockno b1 → a_view a' !! b = a_view a !! b ∧
        a_disk a' !! b = a_disk a !! b ∧ (b ∈ a_dirty a' ↔ b ∈ a_dirty a)) →
  (b_blockno b1 ∈ a_dirty a' ↔ b_flags b1 = Z.lor B_VALID B_DIRTY) →
  (∀ j, a_held a' !! j = if decide (j = i) then
          (if sl_locked (b_lock b1) then Some (b_blockno b1) else None)
        else a_held a !! j) →
  (∃ d, a_disk a' !! b_blockno b1 = Some d ∧ length d = BSIZE) →
  bio_rep (bio_with s (alter f i (bufs s)) (a_disk a') (a_writes a')) a'.
Proof.
  intros b0 b1 R Hi Hfn Hfp Hb1 Huniq Hevict Hsz Hother Hdirty Hheld Hdisk.
  destruct (rep_lru _ _ R) as [l Hl]. pose proof Hl as (Hlen&_&_).
  assert (Hsame : alter f i (bufs s) !!! i = b1).
  { rewrite list_lookup_total_alter_eq; [done|]. lia. }
  assert (Hdiff : ∀ j, j ≠ i → alter f i (bufs s) !!! j = bufs s !!! j).
  { intros j ?. by rewrite list_lookup_total_alter_ne. }
  assert (Hdev1 : b_dev b1 = 1) by apply Hb1.
  split; simpl.
  - exists l. by apply lru_alter.
  - done.
  - intros j Hj. destruct (decide (j = i)) as [->|Hne]; [rewrite Hsame; by right|].
    rewrite Hdiff by done. destruct (rep_buf _ _ R j Hj) as [Hfree|Hused]; [by left|right].
    pose proof Hused as (Hd&_). specialize (Huniq j Hj Hne Hd).
    destruct (Hother _ Huniq) as (Hv&Hk&_). unfold buf_used in *. by rewrite Hsz, Hv, Hk.
  - intros j k Hj Hk. destruct (decide (j = i)) as [->|Hji]; destruct (decide (k = i)) as [->|Hki];
      rewrite ?Hsame, ?Hdiff by done; [done| | |by apply R].
    + intros _ Hdk E. by destruct (Huniq k Hk Hki Hdk).
    + intros Hdj _ E. by destruct (Huniq j Hj Hji Hdj).
  - by rewrite Hsz, (rep_size _ _ R).
  - done.
  - done.
  - intros b Hb. destruct (decide (b = b_blockno b1)) as [->|Hne]; [done|].
    destruct (Hother b Hne) as (_&->&_). apply R. by rewrite <- Hsz.
  - intros b Hnone. assert (b ≠ b_blockno b1) as Hne.
    { intros ->. apply (Hnone i Hi); rewrite Hsame; done. }
    destruct (Hother b Hne) as (->&->&_).
    destruct (decide (b_dev b0 = 1 ∧ b_blockno b0 = b)) as [[H1 <-]|Hn].
    + apply Hevict; [done|]. congruence.
    + apply (rep_view _ _ R). intros j Hj Hdj E. destruct (decide (j = i)) as [->|Hji]; [tauto|].
      apply (Hnone j Hj); rewrite Hdiff; done.
  - intros b. destruct (decide (b = b_blockno b1)) as [->|Hne].
    + rewrite Hdirty. split.
      * intros. exists i. rewrite Hsame. done.
      * intros (j&Hj&Hdj&E&?). destruct (decide (j = i)) as [->|Hji]; [by rewrite Hsame in *|].
        rewrite Hdiff in * by done. by destruct (Huniq j Hj Hji Hdj).
    + destruct (Hother b Hne) as (_&_&->). rewrite (rep_dirty _ _ R). split.
      * intros (j&Hj&Hdj&E&Hfl). destruct (decide (j = i)) as [->|Hji].
        { exfalso. destruct Hevict as [Hcl _]; [done|fold b0 in E; congruence|].
          apply Hcl, (rep_dirty _ _ R). exists i. done. }
        exists j. rewrite Hdiff by done. done.
      * intros (j&Hj&Hdj&E&Hfl). destruct (decide (j = i)) as [->|Hji].
        { rewrite Hsame in *. congruence. }
        rewrite Hdiff in * by done. exists j. done.
  - intros j b. rewrite Hheld. destruct (decide (j = i)) as [->|Hji].
    + rewrite Hsame. destruct (sl_locked (b_lock b1)); naive_solver.
    + rewrite Hdiff by done. apply R.
Qed.

Section ops.
Context (s : bio) (a : bstate) (R : bio_rep s a).

Lemma rep_held_used i b : a_held a !! i = Some b →
  (i < NBUF)%nat ∧ b_blockno (bufs s !!! i) = b ∧
  sl_locked (b_lock (bufs s !!! i)) = true ∧ buf_used a (mypid s) (bufs s !!! i).
Proof.
  intros (Hi&Hl&Hb)%(rep_held _ _ R). split_and!; [done..|].
  destruct (rep_buf _ _ R i Hi) as [(_&_&Hf&_)|]; [congruence|done].
Qed.

Lemma set_bufs_with l : set_bufs l s = bio_with s l (a_disk a) (a_writes a).
Proof.
  unfold set_bufs, bio_with. by rewrite (rep_lock _ _ R), (rep_disk _ _ R), (rep_writes _ _ R).
Qed.

Lemma bufs_length : length (bufs s) = S NBUF.
Proof. destruct (rep_lru _ _ R) as [l Hl]. apply Hl. Qed.

(** [rep_step] for a buffer that keeps its block. *)
Lemma rep_step_held i b f a' :
  let b1 := f (bufs s !!! i) in
  a_held a !! i = Some b →
  (∀ c, b_next (f c) = b_next c) → (∀ c, b_prev (f c) = b_prev c) →
  (∀ c, b_blockno (f c) = b_blockno c) →
  buf_used a' (mypid s) b1 →
  a_size a' = a_size a →
  (∀ b', b' ≠ b → a_view a' !! b' = a_view a !! b' ∧
      a_disk a' !! b' = a_disk a !! b' ∧ (b' ∈ a_dirty a' ↔ b' ∈ a_dirty a)) →
  (b ∈ a_dirty a' ↔ b_flags b1 = Z.lor B_VALID B_DIRTY) →
  (∀ j, a_held a' !! j = if decide (j = i) then
        (if sl_locked (b_lock b1) then Some b else None) else a_held a !! j) →
  (∃ d, a_disk a' !! b = Some d ∧ length d = BSIZE) →
  bio_rep (bio_with s (alter f i (bufs s)) (a_disk a') (a_writes a')) a'.
Proof.
  intros b1 Hheld Hfn Hfp Hfb Hused Hsz Hoth Hdirty Hheld' Hdisk.
  destruct (rep_held_used _ _ Hheld) as (Hi&Hb&Hlk&Hu).
  assert (b_blockno b1 = b) as Hb1 by (unfold b1; by rewrite Hfb).
  eapply (rep_step s a); fold b1; rewrite ?Hb1; try done.
  intros j Hj Hne Hdj Heq. apply Hne, (rep_inj _ _ R); [done..|apply Hu|congruence].
Qed.

Lemma bio_wp_data i b : a_held a !! i = Some b →
  wp (op_data i) (λ d s', s' = s ∧ a_view a !! b = Some d) s.
Proof.
  intros (_&<-&_&Hu)%rep_held_used. unfold op_data; simpl. wp_steps.
  split; [done|]. apply Hu.
Qed.

Lemma bio_wp_blockno i b : a_held a !! i = Some b →
  wp (op_blockno i) (λ b' s', s' = s ∧ b' = b) s.
Proof. intros (_&<-&_&Hu)%rep_held_used. unfold op_blockno; simpl. by wp_steps. Qed.

Lemma bio_wp_set_data i b d : a_held a !! i = Some b → length d = BSIZE →
  wp (op_set_data i d) (λ _ s', bio_rep s' (a_modify b d a)) s.
Proof.
  intros Hheld Hlen. pose proof (rep_held_used _ _ Hheld) as (Hi&Hb&Hlk&Hu).
  pose proof Hu as (?&Hr&Hfl&_&_&_&Hlk'). rewrite Hlk in Hlk'.
  unfold op_set_data; simpl. unfold upd_buf. wp_steps. rewrite set_bufs_with.
  apply (rep_step_held i b (set_data d) (a_modify b d a)); try done; simpl.
  - unfold buf_used; simpl. rewrite Hlk, Hb, lookup_insert_eq. subst b. naive_solver.
  - intros b' Hne. by rewrite lookup_insert_ne.
  - rewrite (rep_dirty _ _ R). split; [|intros; exists i; by rewrite <- Hb].
    intros (j&Hj&Hdj&E&?). by rewrite (rep_inj _ _ R i j) by congruence.
  - intros j. rewrite Hlk. by case_decide; subst.
  - apply (rep_disk_ok _ _ R). by subst b.
Qed.

Lemma bio_wp_pin i b : a_held a !! i = Some b →
  wp (op_pin i) (λ _ s', bio_rep s' (a_pin b a)) s.
Proof.
  intros Hheld. pose proof (rep_held_used _ _ Hheld) as (Hi&Hb&Hlk&Hu).
  pose proof Hu as (Hd&Hr&Hfl&Hlen&Hv&_&Hlk'). rewrite Hlk in Hlk'.
  unfold op_pin; simpl. unfold upd_buf. wp_steps. rewrite set_bufs_with.
  assert (Z.lor (b_flags (bufs s !!! i)) B_DIRTY = Z.lor B_VALID B_DIRTY) as Hflags.
  { by destruct Hfl as [-> | ->]. }
  apply (rep_step_held i b (λ b, set_flags (Z.lor (b_flags b) B_DIRTY) b) (a_pin b a));
    try done; simpl; rewrite ?Hflags.
  - unfold buf_used; simpl. rewrite Hlk, ?Hflags. naive_solver.
  - intros b' Hne. set_solver.
  - set_solver.
  - intros j. rewrite Hlk. by case_decide; subst.
  - apply (rep_disk_ok _ _ R). by subst b.
Qed.

Lemma bio_wp_bwrite i b d : a_held a !! i = Some b → a_view a !! b = Some d →
  wp (op_bwrite i) (λ _ s', bio_rep s' (a_write b d a)) s.
Proof.
  intros Hheld Hvd. pose proof (rep_held_used _ _ Hheld) as (Hi&Hb&Hlk&Hu).
  pose proof Hu as (Hd&Hr&Hfl&Hlen&Hv&_&Hlk').
  pose proof (buf_used_locked _ _ _ Hu Hlk) as [Hholding _]. rewrite Hlk in Hlk'.
  assert (b_data (bufs s !!! i) = d) as Hdata by congruence.
  pose proof bufs_length as Hbl.
  unfold op_bwrite; simpl. unfold bwrite, the_buf. wp_steps. unfold id. rewrite Hholding; simpl.
  unfold upd_buf at 1. wp_steps. unfold iderw, the_buf. wp_steps; simpl.
  rewrite list_lookup_total_alter_eq by lia; simpl.
  rewrite Hholding, Hd, (rep_size _ _ R), Hb; simpl.
  replace (Z.land _ _ =? B_VALID) with false by (by destruct Hfl as [-> | ->]).
  rewrite (proj2 (Z.leb_gt _ _)) by lia.
  replace (Z.land _ B_DIRTY =? 0) with false by (by destruct Hfl as [-> | ->]).
  simpl. unfold upd_buf. wp_steps; simpl.
  unfold set_bufs, disk_write; simpl.
  rewrite !list_alter_alter_eq, (rep_lock _ _ R), (rep_disk _ _ R), (rep_writes _ _ R), Hdata.
  rewrite (list_alter_ext _ (set_flags B_VALID) (bufs s) (bufs s));
    [|intros x Hx; apply list_lookup_total_correct in Hx; subst x;
      simpl; unfold set_flags; simpl; f_equal; by destruct Hfl as [-> | ->]|done].
  apply (rep_step_held i b (set_flags B_VALID) (a_write b d a)); try done; simpl.
  - unfold buf_used; simpl. rewrite Hlk, Hb, Hdata, lookup_insert_eq. subst b. naive_solver.
  - intros b' Hne. rewrite lookup_insert_ne by done. set_solver.
  - split; [set_solver|]. done.
  - intros j. rewrite Hlk. by case_decide; subst.
  - rewrite lookup_insert_eq. subst d. eauto.
Qed.

(** Moving a buffer in the LRU list changes nothing a client can see. *)
Lemma rep_move i : (i < NBUF)%nat →
  bio_rep (bio_with s (move_to_front i (bufs s)) (a_disk a) (a_writes a)) a.
Proof.
  intros Hi. destruct (rep_lru _ _ R) as [l Hl].
  assert (i ∈ l) as (l1&l2&->)%list_elem_of_split by (by apply (lru_elem _ _ _ Hl)).
  split; simpl; try done.
  - eexists. by apply lru_move_to_front.
  - intros j Hj. unfold buf_free, buf_used.
    rewrite !(move_to_front_field b_flags), !(move_to_front_field b_dev),
      !(move_to_front_field b_blockno), !(move_to_front_field b_lock),
      !(move_to_front_field b_refcnt), !(move_to_front_field b_data) by done.
    by apply (rep_buf _ _ R).
  - intros j k. rewrite !(move_to_front_field b_dev), !(move_to_front_field b_blockno) by done.
    apply R.
  - apply R.
  - apply R.
  - intros b Hn. apply (rep_view _ _ R). intros j Hj. specialize (Hn j Hj).
    rewrite (move_to_front_field b_dev), (move_to_front_field b_blockno) in Hn by done. done.
  - intros b. rewrite (rep_dirty _ _ R).
    setoid_rewrite (move_to_front_field b_dev); [|done..].
    setoid_rewrite (move_to_front_field b_blockno); [|done..].
    by setoid_rewrite (move_to_front_field b_flags).
  - intros j b. rewrite (move_to_front_field b_lock), (move_to_front_field b_blockno) by done.
    apply R.
Qed.
End ops.

Lemma bio_wp_brelse s a i b : bio_rep s a → a_held a !! i = Some b →
  b ∈ a_dirty a ∨ a_view a !! b = a_disk a !! b →
  wp (op_brelse i) (λ _ s', bio_rep s' (a_drop i a)) s.
Proof.
  intros R Hheld Hclean. pose proof (rep_held_used _ _ R _ _ Hheld) as (Hi&Hb&Hlk&Hu).
  pose proof Hu as (Hd&Hr&Hfl&Hlen&Hv&_&Hlk').
  pose proof (buf_used_locked _ _ _ Hu Hlk) as [Hholding Href]. rewrite Hlk in Hlk'.
  pose proof (bufs_length _ _ R) as Hbl.
  set (f := λ c, set_refcnt 0 (set_lock (releasesleep (b_lock c)) c)).
  assert (bio_rep (bio_with s (alter f i (bufs s)) (a_disk a) (a_writes a)) (a_drop i a)) as R'.
  { apply (rep_step_held s a R i b f (a_drop i a)); try done; simpl.
    - unfold buf_used; simpl. split_and!; try done; try naive_solver.
      intros Hf _. destruct Hclean as [Hdirty|Hcl]; [|by rewrite Hb, <- Hcl, <- Hb].
      apply (rep_dirty _ _ R) in Hdirty as (j&Hj&Hdj&E&Hfj).
      rewrite (rep_inj _ _ R j i) in Hfj by congruence. by rewrite Hf in Hfj.
    - rewrite (rep_dirty _ _ R). split; [|intros; exists i; by rewrite <- Hb].
      intros (j&Hj&Hdj&E&?). by rewrite (rep_inj _ _ R i j) by congruence.
    - intros j. case_decide; subst; [by rewrite lookup_delete_eq|by rewrite lookup_delete_ne].
    - apply (rep_disk_ok _ _ R). by subst b. }
  unfold op_brelse; simpl. unfold brelse, the_buf. wp_steps. unfold id. rewrite Hholding; simpl.
  unfold upd_buf, acquire_bcache, release_bcache. wp_steps.
  apply wp_acquire; [by rewrite set_bufs_with with (a := a)|]. wp_steps; simpl.
  - apply wp_release; [done|]. apply (rep_move _ _ R' i) in Hi. simpl in Hi.
    unfold set_bc_lock, set_bufs; simpl. rewrite list_alter_alter_eq.
    rewrite (rep_disk _ _ R), (rep_writes _ _ R).
    rewrite (list_alter_ext _ f (bufs s) (bufs s));
      [done|intros x Hx; apply list_lookup_total_correct in Hx; subst x;
        simpl; unfold f, set_refcnt; simpl; by rewrite Href|done].
  - exfalso. simpl in H. rewrite list_alter_alter_eq, list_lookup_total_alter_eq in H by lia.
    simpl in H. by rewrite Href in H.
Qed.

Section bread.
Context (s : bio) (a : bstate) (R : bio_rep s a).

(** A cached block whose buffer is not locked. *)
Lemma rep_unlocked i : (i < NBUF)%nat → b_blockno (bufs s !!! i) ∉ held_blocks a →
  sl_locked (b_lock (bufs s !!! i)) = false.
Proof.
  intros Hi Hn. destruct (sl_locked _) eqn:E; [|done]. destruct Hn.
  apply elem_of_map_img. exists i. by apply (rep_held _ _ R).
Qed.

(** Some buffer can be recycled when there is room for a block that is not cached. *)
Lemma room_unused b :
  (∀ j, (j < NBUF)%nat → b_dev (bufs s !!! j) = 1 → b_blockno (bufs s !!! j) ≠ b) →
  has_room b a →
  ¬ (∀ j, (j < NBUF)%nat → buf_unused (bufs s) j = false).
Proof.
  unfold has_room. intros Hmiss Hroom Hall.
  assert (Hbusy : ∀ j, (j < NBUF)%nat → b_dev (bufs s !!! j) = 1 ∧
            b_blockno (bufs s !!! j) ∈ a_dirty a ∪ held_blocks a).
  { intros j Hj. specialize (Hall j Hj). unfold buf_unused in Hall.
    destruct (rep_buf _ _ R j Hj) as [(_&Hf&_&Hrc)|Hu].
    { by rewrite Hf, Hrc in Hall. }
    pose proof Hu as (Hd&_&Hfl&_&_&_&Hlk). split; [done|]. apply elem_of_union.
    destruct (sl_locked (b_lock (bufs s !!! j))) eqn:E.
    - right. apply elem_of_map_img. exists j. by apply (rep_held _ _ R).
    - left. rewrite Hlk in Hall. apply (rep_dirty _ _ R). exists j.
      destruct Hfl as [Hf|Hf]; [by rewrite Hf in Hall|done]. }
  set (bl := (λ j, b_blockno (bufs s !!! j)) <$> seq 0 NBUF).
  assert (NoDup bl) as Hnd.
  { apply NoDup_fmap_2_strong; [|apply NoDup_seq]. intros x y Hx Hy E.
    apply elem_of_seq in Hx, Hy. apply (rep_inj _ _ R); [lia|lia|apply Hbusy; lia..|done]. }
  assert (size (list_to_set bl : gset Z) = NBUF) as Hsz.
  { rewrite size_list_to_set by done. unfold bl. by rewrite length_fmap, length_seq. }
  assert ({[b]} ∪ list_to_set bl ⊆ {[b]} ∪ a_dirty a ∪ held_blocks a) as Hsub.
  { intros x. rewrite !elem_of_union. intros [?|Hx]; [auto|].
    rewrite elem_of_list_to_set in Hx. unfold bl in Hx.
    apply list_elem_of_fmap in Hx as (j&->&Hj). apply elem_of_seq in Hj.
    destruct (Hbusy j) as [_ Hin]; [lia|]. apply elem_of_union in Hin. tauto. }
  apply subseteq_size in Hsub. rewrite size_union, size_singleton, Hsz in Hsub; [lia|].
  intros x Hx Hx'. apply elem_of_singleton in Hx as ->.
  rewrite elem_of_list_to_set in Hx'. apply list_elem_of_fmap in Hx' as (j&E&Hj).
  apply elem_of_seq in Hj. destruct (Hbusy j) as [Hd _]; [lia|].
  apply (Hmiss j); [lia|done|done].
Qed.

(** What [bread] does to the buffer of a cached block. *)
Definition relock (pid : Z) (c : buf) : buf :=
  set_lock (mksl true (sl_name (b_lock c)) pid) (set_refcnt 1 c).

Lemma rep_hit i b :
  (i < NBUF)%nat → b_dev (bufs s !!! i) = 1 → b_blockno (bufs s !!! i) = b →
  b ∉ held_blocks a →
  a_held a !! i = None ∧
  bio_rep (bio_with s (alter (relock (mypid s)) i (bufs s)) (a_disk a) (a_writes a))
          (a_hold i b a).
Proof.
  intros Hi Hd Hb Hn. destruct (rep_buf _ _ R i Hi) as [(?&_)|Hu]; [congruence|].
  pose proof Hu as (_&Hr&Hfl&Hlen&Hv&_&_).
  assert (sl_locked (b_lock (bufs s !!! i)) = false) as Hlk.
  { apply rep_unlocked; [done|by rewrite Hb]. }
  split.
  { destruct (a_held a !! i) as [b'|] eqn:E; [|done].
    apply (rep_held _ _ R) in E as (_&E&_). congruence. }
  apply (rep_step s a i (relock (mypid s)) (a_hold i b a) R Hi); simpl; try done.
  - intros j Hj Hne Hdj E. by apply Hne, (rep_inj _ _ R).
  - rewrite Hb, (rep_dirty _ _ R). split; [|intros; exists i; by rewrite <- Hb].
    intros (j&Hj&Hdj&E&?). by rewrite (rep_inj _ _ R i j) by congruence.
  - intros j. rewrite Hb. case_decide; subst; [by rewrite lookup_insert_eq|].
    by rewrite lookup_insert_ne.
  - apply (rep_disk_ok _ _ R). done.
Qed.

(** What [bread] does to the buffer it recycles for block [b]. *)
Definition refill (pid b : Z) (d : block) (c : buf) : buf :=
  mkbuf B_VALID 1 b (mksl true (sl_name (b_lock c)) pid) 1 (b_prev c) (b_next c) d.

Lemma rep_miss i b d :
  (i < NBUF)%nat → buf_unused (bufs s) i = true →
  (∀ j, (j < NBUF)%nat → b_dev (bufs s !!! j) = 1 → b_blockno (bufs s !!! j) ≠ b) →
  0 ≤ b < a_size a → a_disk a !! b = Some d →
  sl_locked (b_lock (bufs s !!! i)) = false ∧
  a_held a !! i = None ∧
  bio_rep (bio_with s (alter (refill (mypid s) b d) i (bufs s)) (a_disk a) (a_writes a))
          (a_hold i b a).
Proof.
  intros Hi Hun Hmiss Hr Hd. unfold buf_unused in Hun.
  apply andb_true_iff in Hun as [Hrc%Z.eqb_eq Hfl].
  destruct (rep_disk_ok _ _ R b Hr) as (d'&Hd'&Hlen).
  assert (d' = d) as -> by congruence.
  assert (a_view a !! b = a_disk a !! b) as Hvb by (apply (rep_view _ _ R); auto).
  assert (b ∉ a_dirty a) as Hnd.
  { rewrite (rep_dirty _ _ R). intros (j&Hj&Hdj&E&_). by apply (Hmiss j). }
  assert (sl_locked (b_lock (bufs s !!! i)) = false) as Hlk.
  { destruct (rep_buf _ _ R i Hi) as [(_&_&?&_)|(_&_&_&_&_&_&H)]; [done|].
    destruct (sl_locked _); [lia|done]. }
  split_and!; [done| |].
  { destruct (a_held a !! i) as [b'|] eqn:E; [|done].
    apply (rep_held _ _ R) in E as (_&E&_). congruence. }
  apply (rep_step s a i (refill (mypid s) b d) (a_hold i b a) R Hi); simpl; try done.
  - unfold buf_used; simpl. rewrite Hvb. split_and!; (done || lia || tauto).
  - intros j Hj _. by apply Hmiss.
  - intros Hdi Hne. destruct (rep_buf _ _ R i Hi) as [(?&_)|Hu]; [congruence|].
    pose proof Hu as (_&_&[Hf|Hf]&_&Hv&Hcl&_); [|by rewrite Hf in Hfl].
    split; [|by rewrite Hv, Hcl].
    rewrite (rep_dirty _ _ R). intros (j&Hj&Hdj&E&Hfj).
    rewrite (rep_inj _ _ R j i) in Hfj by congruence. by rewrite Hf in Hfj.
  - intros j. case_decide; subst; [by rewrite lookup_insert_eq|].
    by rewrite lookup_insert_ne.
  - eauto.
Qed.
End bread.

Lemma bget_walk s a dev b : bio_rep s a →
  ∃ l, lru (bufs s) l ∧
    walk (S NBUF) (λ i, b_next (bufs s !!! i)) (buf_matches (bufs s) dev b)
         (b_next (bufs s !!! HEAD)) =
      match List.find (buf_matches (bufs s) dev b) l with Some i => Found i | None => NotFound end ∧
    walk (S NBUF) (λ i, b_prev (bufs s !!! i)) (buf_unused (bufs s))
         (b_prev (bufs s !!! HEAD)) =
      match List.find (buf_unused (bufs s)) (reverse l) with
      | Some i => Found i | None => NotFound end.
Proof.
  intros R. destruct (rep_lru _ _ R) as [l Hl]. exists l. split; [done|].
  pose proof (lru_length _ _ Hl). pose proof (lru_head _ _ Hl). pose proof Hl as (_&_&Hseg).
  split; [apply (walk_next_find (bufs s) _ HEAD)|apply (walk_prev_find (bufs s) _ HEAD)];
    try done; lia.
Qed.

Lemma bio_wp_bread s a b : bio_rep s a → 0 ≤ b < a_size a → b ∉ held_blocks a →
  has_room b a →
  wp (op_bread ROOTDEV b) (λ i s', a_held a !! i = None ∧ bio_rep s' (a_hold i b a)) s.
Proof.
  intros R Hr Hn Hroom. destruct (bget_walk s a ROOTDEV b R) as (l&Hl&Hw1&Hw2).
  pose proof (bufs_length _ _ R) as Hbl.
  unfold op_bread; simpl. unfold bread, bget, acquire_bcache. wp_steps.
  apply wp_acquire; [apply R|]. wp_steps. simpl bufs. rewrite Hw1.
  destruct (List.find _ l) as [i|] eqn:Hf.
  - apply List.find_some in Hf as [Hil Hm]. apply list_elem_of_In, (lru_elem _ _ _ Hl) in Hil.
    apply andb_true_iff in Hm as [Hd%Z.eqb_eq Hb%Z.eqb_eq].
    change (b_dev (bufs s !!! i) = 1) in Hd.
    destruct (rep_hit s a R i b Hil Hd Hb Hn) as [Hnone R'].
    assert (sl_locked (b_lock (bufs s !!! i)) = false) as Hlk.
    { apply (rep_unlocked s a R); [done|by rewrite Hb]. }
    destruct (rep_buf _ _ R i Hil) as [(?&_)|(_&_&Hfl&_&_&_&Hrc)]; [congruence|].
    rewrite Hlk in Hrc. unfold upd_buf, release_bcache. wp_steps.
    apply wp_release; [done|]. wp_steps. eapply wp_done; simpl.
    { unfold acquiresleep_buf, acquiresleep; simpl.
      rewrite list_lookup_total_alter_eq by lia; simpl. by rewrite Hlk. }
    unfold the_buf. wp_steps; simpl in *;
      rewrite list_alter_alter_eq, list_lookup_total_alter_eq in H by lia;
      [by destruct Hfl as [Hf|Hf]; simpl in H; rewrite Hf in H|].
    split; [done|]. unfold set_bufs, set_bc_lock; simpl.
    rewrite (rep_disk _ _ R), (rep_writes _ _ R), list_alter_alter_eq.
    rewrite (list_alter_ext _ (relock (mypid s)) (bufs s) (bufs s));
      [done|intros x Hx; apply list_lookup_total_correct in Hx; subst x;
        unfold relock, set_refcnt; simpl; by rewrite Hrc|done].
  - assert (Hmiss : ∀ j, (j < NBUF)%nat → b_dev (bufs s !!! j) = 1 →
              b_blockno (bufs s !!! j) ≠ b).
    { intros j Hj Hd Hb. apply (lru_elem _ _ _ Hl), list_elem_of_In in Hj.
      apply (List.find_none _ _ Hf) in Hj. unfold buf_matches in Hj.
      by rewrite Hd, Hb, !Z.eqb_refl in Hj. }
    rewrite Hw2. destruct (List.find _ (reverse l)) as [i|] eqn:Hf2.
    + apply List.find_some in Hf2 as [Hil Hun].
      apply list_elem_of_In, elem_of_reverse, (lru_elem _ _ _ Hl) in Hil.
      destruct (rep_disk_ok _ _ R b Hr) as (d&Hd&_).
      destruct (rep_miss s a R i b d Hil Hun Hmiss Hr Hd) as (Hlk&Hnone&R').
      unfold upd_buf, release_bcache. wp_steps.
      apply wp_release; [done|]. wp_steps. eapply wp_done; simpl.
      { unfold acquiresleep_buf, acquiresleep; simpl.
        rewrite list_lookup_total_alter_eq by lia; simpl. by rewrite Hlk. }
      unfold the_buf. wp_steps; simpl in *;
        rewrite list_alter_alter_eq, list_lookup_total_alter_eq in H by lia; [|done].
      unfold iderw, the_buf. wp_steps; simpl.
      rewrite list_alter_alter_eq, list_lookup_total_alter_eq by lia; simpl.
      unfold holdingsleep; simpl. rewrite Z.eqb_refl; simpl.
      rewrite (proj2 (Z.leb_gt _ _)) by (rewrite (rep_size _ _ R); lia).
      unfold upd_buf. wp_steps; simpl. split; [done|].
      unfold set_bufs, set_bc_lock; simpl.
      rewrite (rep_disk _ _ R), (rep_writes _ _ R), !list_alter_alter_eq.
      rewrite (list_alter_ext _ (refill (mypid s) b d) (bufs s) (bufs s));
        [done|intros x Hx; apply list_lookup_total_correct in Hx; subst x;
          unfold refill, compose, set_flags; simpl; f_equal; by apply lookup_total_correct|done].
    + exfalso. apply (room_unused s a R b Hmiss Hroom). intros j Hj.
      apply (List.find_none _ _ Hf2). by apply list_elem_of_In, elem_of_reverse, (lru_elem _ _ _ Hl).
Qed.

(** ** The instance *)

Lemma rep_cached_cases s a b : bio_rep s a →
  (∃ i, (i < NBUF)%nat ∧ b_blockno (bufs s !!! i) = b ∧ buf_used a (mypid s) (bufs s !!! i)) ∨
  a_view a !! b = a_disk a !! b.
Proof.
  intros R. destruct (List.find (buf_matches (bufs s) 1 b) (seq 0 NBUF)) as [i|] eqn:Hf.
  - left. apply List.find_some in Hf as [Hi Hm]. apply list_elem_of_In, elem_of_seq in Hi.
    apply andb_true_iff in Hm as [Hd%Z.eqb_eq Hb%Z.eqb_eq]. exists i. split_and!; [lia|done|].
    destruct (rep_buf _ _ R i) as [(?&_)|]; [lia|congruence|done].
  - right. apply (rep_view _ _ R). intros i Hi Hd Hb.
    assert (i ∈ seq 0 NBUF) as Hin by (apply elem_of_seq; lia).
    apply list_elem_of_In, (List.find_none _ _ Hf) in Hin. unfold buf_matches in Hin.
    by rewrite Hd, Hb, !Z.eqb_refl in Hin.
Qed.

Lemma rep_view_ok s a : bio_rep s a →
  ∀ b, 0 ≤ b < a_size a → ∃ d, a_view a !! b = Some d ∧ length d = BSIZE.
Proof.
  intros R b Hb. destruct (rep_cached_cases s a b R) as [(i&_&<-&_&_&_&?&?&_)| ->]; [eauto|].
  by apply (rep_disk_ok _ _ R).
Qed.

Lemma rep_clean s a : bio_rep s a →
  ∀ b, b ∉ a_dirty a → b ∉ held_blocks a → a_view a !! b = a_disk a !! b.
Proof.
  intros R b Hd Hh. destruct (rep_cached_cases s a b R) as [(i&Hi&<-&Hu)|]; [|done].
  pose proof (rep_unlocked s a R i Hi Hh) as Hlk.
  destruct Hu as (Hdev&_&[Hf|Hf]&_&->&Hc&_); [by rewrite Hc|].
  destruct Hd. apply (rep_dirty _ _ R). eauto.
Qed.

Lemma bio_boot_rep n d pid :
  (∀ b, 0 ≤ b < n → ∃ x, d !! b = Some x ∧ length x = BSIZE) →
  bio_rep (bio_boot n d pid) (boot_state n d).
Proof.
  intros Hd.
  assert (Hfree : ∀ i, (i < NBUF)%nat → buf_free (bufs (bio_boot n d pid) !!! i)).
  { intros i Hi. change (i < 30)%nat in Hi.
    do 30 (destruct i as [|i]; [vm_compute; done|]). lia. }
  assert (Hlru : ∃ l, lru (bufs (bio_boot n d pid)) l) by (eexists; apply lru_binit).
  assert (Hrest : bc_lock (bio_boot n d pid) = false ∧ disksize (bio_boot n d pid) = n ∧
                  disk (bio_boot n d pid) = d ∧ writes (bio_boot n d pid) = []) by done.
  revert Hfree Hlru Hrest. generalize (bio_boot n d pid). intros s Hfree Hlru (?&?&?&?).
  assert (Hdev : ∀ i, (i < NBUF)%nat → b_dev (bufs s !!! i) ≠ 1).
  { intros i Hi E. destruct (Hfree i Hi) as (E'&_). congruence. }
  split; [done|done|auto| |done|done|done|done|done| |].
  - intros i j Hi _ Hdi. by destruct (Hdev i Hi).
  - intros b. split; [set_solver|]. intros (i&Hi&Hdi&_). by destruct (Hdev i Hi).
  - intros i b. simpl. rewrite lookup_empty. split; [done|].
    intros (Hi&Hlk&_). destruct (Hfree i Hi) as (_&_&?&_). congruence.
Qed.

#[global] Program Instance bio_spec : BlockSpec bio := {| block_rep := bio_rep |}.
Next Obligation. exact rep_view_ok. Qed.
Next Obligation. intros s a R. exact (rep_disk_ok s a R). Qed.
Next Obligation. exact rep_clean. Qed.
Next Obligation.
  intros s a R i b (_&<-&_&Hu)%(rep_held_used s a R). apply Hu.
Qed.
Next Obligation. exact bio_wp_bread. Qed.
Next Obligation. intros; by eapply bio_wp_data. Qed.
Next Obligation. intros; by eapply bio_wp_blockno. Qed.
Next Obligation. intros; by eapply bio_wp_set_data. Qed.
Next Obligation. intros; by eapply bio_wp_pin. Qed.
Next Obligation. intros; by eapply bio_wp_bwrite. Qed.
Next Obligation. exact bio_wp_brelse. Qed.
