(* ===== verification/Format.v ===== *)
(** * On-disk formats (fs.h, struct logheader of log.c)

    The byte layouts of the superblock, the log header, the disk inode and the
    directory entry, with the proofs that reading back what was written gives
    the same values. *)

From S2P Require Import Prelude Params Block.

(** ** Superblock *)

(** [memmove(sb, bp->data, sizeof( *sb))]. *)
Definition decode_sb (d : block) : superblock :=
  mksb (get32 d 0) (get32 d 4) (get32 d 8) (get32 d 12) (get32 d 16) (get32 d 20) (get32 d 24).

Definition encode_sb (sb : superblock) (d : block) : block :=
  let d := put32 d 0 (sb_size sb) in
  let d := put32 d 4 (sb_nblocks sb) in
  let d := put32 d 8 (sb_ninodes sb) in
  let d := put32 d 12 (sb_nlog sb) in
  let d := put32 d 16 (sb_logstart sb) in
  let d := put32 d 20 (sb_inodestart sb) in
  put32 d 24 (sb_bmapstart sb).

Definition readsb {S} `{BlockOps S} (dev : Z) : M S superblock :=
  bp ← op_bread dev 1;
  d ← op_data bp;
  op_brelse bp;;
  mret (decode_sb d).

(** ** Log header: [int n; int block[LOGSIZE]] *)

Definition head_n (d : block) : Z := i32 (get32 d 0).
Definition head_block (d : block) (i : nat) : Z := i32 (get32 d (4 + 4 * i)).

(** Stores of [bs] into [hb->block[i]], [hb->block[i+1]], ... *)
Fixpoint put_blocks (d : block) (i : nat) (bs : list Z) : block :=
  match bs with
  | [] => d
  | b :: bs' => put_blocks (put32 d (4 + 4 * i) b) (S i) bs'
  end.

(** The header block after [write_head]. *)
Definition encode_head (d : block) (n : Z) (bs : list Z) : block :=
  put_blocks (put32 d 0 n) 0 bs.

(** The blocks a header names. *)
Definition head_blocks (d : block) : list Z :=
  head_block d <$> seq 0 (Z.to_nat (head_n d)).

#[global] Arguments encode_head : simpl never.
#[global] Arguments decode_sb : simpl never.

Lemma u32_idemp x : u32 (u32 x) = u32 x.
Proof. unfold u32. by rewrite Z.mod_mod by lia. Qed.

Lemma i32_u32 x : - 2 ^ 31 ≤ x < 2 ^ 31 → i32 (u32 x) = x.
Proof. intros. rewrite <- (i32_small x) at 2 by done. unfold i32. by rewrite u32_idemp. Qed.

Lemma length_put_blocks d i bs :
  (4 + 4 * (i + length bs) ≤ length d)%nat → length (put_blocks d i bs) = length d.
Proof.
  revert d i. induction bs as [|b bs IH]; intros d i Hl; cbn [put_blocks length] in *; [done|].
  rewrite IH; rewrite length_put32; lia.
Qed.

Lemma get32_put_blocks_lt d i bs off :
  (4 + 4 * (i + length bs) ≤ length d)%nat → (off + 4 ≤ 4 + 4 * i)%nat →
  get32 (put_blocks d i bs) off = get32 d off.
Proof.
  revert d i. induction bs as [|b bs IH]; intros d i Hl Ho; cbn [put_blocks length] in *; [done|].
  rewrite IH by (rewrite ?length_put32; lia). apply get32_put32_ne; lia.
Qed.

Lemma get32_put_blocks d i bs j b :
  (4 + 4 * (i + length bs) ≤ length d)%nat → bs !! j = Some b →
  get32 (put_blocks d i bs) (4 + 4 * (i + j)) = u32 b.
Proof.
  revert d i j. induction bs as [|x bs IH]; intros d i j Hl Hj; cbn [put_blocks length] in *; [done|].
  destruct j as [|j]; simpl in Hj.
  - injection Hj as ->. rewrite Nat.add_0_r.
    rewrite get32_put_blocks_lt by (rewrite ?length_put32; lia).
    apply get32_put32_eq. lia.
  - replace (i + S j)%nat with (S i + j)%nat by lia. apply IH; [|done].
    rewrite length_put32; lia.
Qed.

Lemma length_encode_head d n bs :
  length d = BSIZE → (length bs ≤ Z.to_nat LOGSIZE)%nat → length (encode_head d n bs) = BSIZE.
Proof.
  intros Hd Hb. unfold BSIZE in *. unfold LOGSIZE, MAXOPBLOCKS in Hb. simpl in Hb.
  unfold encode_head. rewrite length_put_blocks; rewrite length_put32; lia.
Qed.

(** Reading back a header gives the block numbers that were written. *)
Lemma head_encode d bs :
  length d = BSIZE → (length bs ≤ Z.to_nat LOGSIZE)%nat →
  Forall (λ b, 0 ≤ b < 2 ^ 31) bs →
  head_n (encode_head d (Z.of_nat (length bs)) bs) = Z.of_nat (length bs) ∧
  head_blocks (encode_head d (Z.of_nat (length bs)) bs) = bs.
Proof.
  intros Hd Hb Hbs. unfold BSIZE in *. unfold LOGSIZE, MAXOPBLOCKS in Hb. simpl in Hb.
  assert (head_n (encode_head d (Z.of_nat (length bs)) bs) = Z.of_nat (length bs)) as Hn.
  { unfold head_n, encode_head. rewrite get32_put_blocks_lt by (rewrite ?length_put32; lia).
    rewrite get32_put32_eq by lia. apply i32_u32. lia. }
  split; [done|]. unfold head_blocks. rewrite Hn, Nat2Z.id.
  apply list_eq. intros j. rewrite list_lookup_fmap.
  destruct (bs !! j) as [b|] eqn:Hj.
  - pose proof (lookup_lt_Some _ _ _ Hj). rewrite lookup_seq_lt by lia. simpl.
    f_equal. unfold head_block, encode_head.
    rewrite (get32_put_blocks _ 0 bs j b) by (rewrite ?length_put32; done || lia).
    apply i32_u32. rewrite Forall_lookup in Hbs. specialize (Hbs _ _ Hj). simpl in Hbs. lia.
  - apply lookup_ge_None in Hj. rewrite lookup_ge_None_2 by (rewrite length_seq; lia). done.
Qed.

Lemma head_encode_zero d :
  length d = BSIZE → head_n (encode_head d 0 []) = 0 ∧ head_blocks (encode_head d 0 []) = [].
Proof. intros. apply (head_encode d []); [done|simpl; lia|constructor]. Qed.

(** *** Superblock *)

Definition sb_ok (sb : superblock) : Prop :=
  Forall (λ x, 0 ≤ x < 2 ^ 32)
    [sb_size sb; sb_nblocks sb; sb_ninodes sb; sb_nlog sb; sb_logstart sb; sb_inodestart sb; sb_bmapstart sb].

(** Field accesses of a record laid out as consecutive 32-bit words. *)
Ltac put32_len :=
  lazymatch goal with
  | |- context [length (put32 _ _ _)] => rewrite length_put32; put32_len
  | _ => lia
  end.
Ltac get_put32 :=
  repeat first [rewrite get32_put32_eq by put32_len|rewrite get32_put32_ne by put32_len].

Lemma decode_encode_sb sb d : length d = BSIZE → sb_ok sb → decode_sb (encode_sb sb d) = sb.
Proof.
  intros Hd Hok. unfold BSIZE in Hd. destruct sb as [f1 f2 f3 f4 f5 f6 f7]. unfold sb_ok in Hok. simpl in Hok.
  rewrite !Forall_cons in Hok. destruct Hok as (?&?&?&?&?&?&?&_).
  unfold decode_sb, encode_sb; cbn [sb_size sb_nblocks sb_ninodes sb_nlog sb_logstart sb_inodestart sb_bmapstart].
  get_put32. by rewrite !u32_small.
Qed.

(** ** Disk inodes *)

(** The DINODE_SIZE bytes of a [struct dinode]. *)
Definition encode_dinode (di : dinode) : list Z :=
  le_bytes 2 (d_type di) ++ le_bytes 2 (d_major di) ++ le_bytes 2 (d_minor di) ++
  le_bytes 2 (d_nlink di) ++ le_bytes 4 (d_size di) ++ concat (le_bytes 4 <$> d_addrs di).

Definition decode_dinode (l : list Z) : dinode :=
  mkdinode (i16 (get16 l 0)) (i16 (get16 l 2)) (i16 (get16 l 4)) (i16 (get16 l 6)) (get32 l 8)
    ((λ j, get32 l (12 + 4 * j)) <$> seq 0 (NDIRECT + 1)).

(** [(struct dinode* )bp->data + k]. *)
Definition get_dinode (d : block) (k : nat) : dinode :=
  decode_dinode (slice (DINODE_SIZE * k) DINODE_SIZE d).
Definition put_dinode (d : block) (k : nat) (di : dinode) : block :=
  splice (DINODE_SIZE * k) (encode_dinode di) d.

#[global] Arguments encode_dinode : simpl never.
#[global] Arguments get_dinode : simpl never.
#[global] Arguments put_dinode : simpl never.

Definition short (x : Z) : Prop := - 2 ^ 15 ≤ x < 2 ^ 15.
Definition uint (x : Z) : Prop := 0 ≤ x < 2 ^ 32.

Record dinode_ok (di : dinode) : Prop := {
  di_type : short (d_type di);
  di_major : short (d_major di);
  di_minor : short (d_minor di);
  di_nlink : short (d_nlink di);
  di_size : uint (d_size di);
  di_addrs : Forall uint (d_addrs di);
  di_naddrs : length (d_addrs di) = (NDIRECT + 1)%nat
}.

Lemma length_words l : length (concat (le_bytes 4 <$> l)) = (4 * length l)%nat.
Proof.
  induction l as [|x l IH]; [done|]. cbn [fmap list_fmap concat]. rewrite length_app, IH, length_le_bytes.
  cbn [length]. lia.
Qed.

Lemma get32_words l1 l j x : l !! j = Some x →
  get32 (l1 ++ concat (le_bytes 4 <$> l)) (length l1 + 4 * j) = u32 x.
Proof.
  revert l1 j. induction l as [|y l IH]; intros l1 j Hj; [done|].
  cbn [fmap list_fmap concat]. destruct j as [|j]; simpl in Hj.
  - injection Hj as ->. apply get32_app. lia.
  - rewrite app_assoc. replace (length l1 + 4 * S j)%nat with (length (l1 ++ le_bytes 4 y) + 4 * j)%nat.
    + by apply IH.
    + rewrite length_app, length_le_bytes. lia.
Qed.

Lemma length_encode_dinode di : dinode_ok di → length (encode_dinode di) = DINODE_SIZE.
Proof.
  intros Hok. unfold encode_dinode. rewrite !length_app, !length_le_bytes, length_words, (di_naddrs _ Hok). done.
Qed.

Lemma decode_encode_dinode di : dinode_ok di → decode_dinode (encode_dinode di) = di.
Proof.
  intros [H1 H2 H3 H4 H5 H6 H7]. destruct di as [ty ma mi nl sz ad]; simpl in *.
  unfold decode_dinode, encode_dinode; cbn [d_type d_major d_minor d_nlink d_size d_addrs]. f_equal.
  - trans (i16 (u16 ty)); [f_equal; by apply (get16_app [])|by apply i16_u16_small].
  - rewrite (get16_app (le_bytes 2 ty)) by done. by apply i16_u16_small.
  - rewrite app_assoc, (get16_app (le_bytes 2 ty ++ le_bytes 2 ma)) by done. by apply i16_u16_small.
  - rewrite app_assoc, (app_assoc (_ ++ _)), (get16_app ((_ ++ _) ++ le_bytes 2 mi)) by done.
    by apply i16_u16_small.
  - rewrite app_assoc, (app_assoc (_ ++ _)), (app_assoc ((_ ++ _) ++ _)).
    rewrite (get32_app (((_ ++ _) ++ _) ++ le_bytes 2 nl)) by done. by apply u32_small.
  - rewrite !app_assoc. set (l1 := (_ ++ le_bytes 4 sz)).
    assert (length l1 = 12%nat) as Hl1 by (unfold l1; rewrite !length_app, !length_le_bytes; done).
    change (NDIRECT + 1)%nat with 13%nat in *.
    apply list_eq. intros j. rewrite list_lookup_fmap. destruct (ad !! j) as [x|] eqn:E.
    + pose proof (lookup_lt_Some _ _ _ E). rewrite lookup_seq_lt by lia. cbn [fmap option_fmap option_map].
      f_equal. rewrite <- Hl1. rewrite Nat.add_0_l, (get32_words l1 ad j x E). apply u32_small.
      rewrite Forall_lookup in H6. by eapply H6.
    + apply lookup_ge_None in E. rewrite lookup_ge_None_2 by (rewrite length_seq; lia). done.
Qed.

Lemma get_put_dinode d k di : length d = BSIZE → Z.of_nat k < IPB → dinode_ok di →
  get_dinode (put_dinode d k di) k = di.
Proof.
  intros Hd Hk Hok. unfold get_dinode, put_dinode. pose proof (length_encode_dinode di Hok) as Hl.
  rewrite <- Hl at 2. rewrite slice_splice_eq; [by apply decode_encode_dinode|].
  rewrite Hl, Hd. change IPB with 8 in Hk. change DINODE_SIZE with 64%nat. change BSIZE with 512%nat. lia.
Qed.

Lemma get_put_dinode_ne d k k' di : length d = BSIZE → Z.of_nat k < IPB → Z.of_nat k' < IPB →
  dinode_ok di → k ≠ k' → get_dinode (put_dinode d k di) k' = get_dinode d k'.
Proof.
  intros Hd Hk Hk' Hok Hne. unfold get_dinode, put_dinode. pose proof (length_encode_dinode di Hok) as Hl.
  change IPB with 8 in *. change DINODE_SIZE with 64%nat in *. change BSIZE with 512%nat in *.
  rewrite slice_splice_ne; [done|rewrite Hl; lia|lia|rewrite Hl; lia].
Qed.

Lemma length_put_dinode d k di : length d = BSIZE → Z.of_nat k < IPB → dinode_ok di →
  length (put_dinode d k di) = BSIZE.
Proof.
  intros Hd Hk Hok. unfold put_dinode. rewrite length_splice; [done|].
  rewrite length_encode_dinode by done. change IPB with 8 in Hk.
  change DINODE_SIZE with 64%nat. rewrite Hd. change BSIZE with 512%nat. lia.
Qed.

(** ** Directory entries *)

Definition encode_dirent (de : dirent) : list Z := le_bytes 2 (de_inum de) ++ de_name de.
Definition decode_dirent (l : list Z) : dirent := mkdirent (get16 l 0) (slice 2 DIRSIZ l).

#[global] Arguments encode_dirent : simpl never.
#[global] Arguments decode_dirent : simpl never.

Lemma decode_encode_dirent de : 0 ≤ de_inum de < 2 ^ 16 → length (de_name de) = DIRSIZ →
  decode_dirent (encode_dirent de) = de.
Proof.
  intros Hi Hn. destruct de as [i n]; simpl in *. unfold decode_dirent, encode_dirent; cbn [de_inum de_name].
  f_equal.
  - trans (u16 i); [by apply (get16_app [])|by apply Z.mod_small].
  - rewrite <- (app_nil_r n) at 1. by apply slice_app_mid.
Qed.

Lemma length_encode_dirent de : length (de_name de) = DIRSIZ → length (encode_dirent de) = DIRENT_SIZE.
Proof. intros Hn. unfold encode_dirent. by rewrite length_app, length_le_bytes, Hn. Qed.
