(* ===== verification/Log.v ===== *)
(** * The write-ahead log (log.c)

    The log over any block layer [S].  [lh_n] and [lh_block] are the in-memory
    header [log.lh]; the list [l_woken] records the calls of [wakeup(&log)].
    Every critical section of [log.lock] is one atomic step; [begin_op] that
    has to wait returns [Asleep] with the lock released, and is called again
    when the process is woken, which is the source's loop. *)

From S2P Require Import Prelude Params Block Format.

Record log (S : Type) := mklog {
  l_bio : S;
  l_lock : bool;
  l_start : Z;
  l_size : Z;
  l_outstanding : Z;
  l_committing : bool;
  l_dev : Z;
  lh_n : Z;
  lh_block : list Z;
  l_woken : list chan
}.
Arguments mklog {S}.
Arguments l_bio {S}.
Arguments l_lock {S}.
Arguments l_start {S}.
Arguments l_size {S}.
Arguments l_outstanding {S}.
Arguments l_committing {S}.
Arguments l_dev {S}.
Arguments lh_n {S}.
Arguments lh_block {S}.
Arguments l_woken {S}.

Section log.
Context {S : Type} `{BlockOps S}.
Implicit Types s : log S.

(** ** Field stores *)
Definition set_bio (v : S) s : log S :=
  mklog v (l_lock s) (l_start s) (l_size s) (l_outstanding s) (l_committing s)
        (l_dev s) (lh_n s) (lh_block s) (l_woken s).
Definition set_l_lock (v : bool) s : log S :=
  mklog (l_bio s) v (l_start s) (l_size s) (l_outstanding s) (l_committing s)
        (l_dev s) (lh_n s) (lh_block s) (l_woken s).
Definition set_geometry (start size dev : Z) s : log S :=
  mklog (l_bio s) (l_lock s) start size (l_outstanding s) (l_committing s)
        dev (lh_n s) (lh_block s) (l_woken s).
Definition set_outstanding (v : Z) s : log S :=
  mklog (l_bio s) (l_lock s) (l_start s) (l_size s) v (l_committing s)
        (l_dev s) (lh_n s) (lh_block s) (l_woken s).
Definition set_committing (v : bool) s : log S :=
  mklog (l_bio s) (l_lock s) (l_start s) (l_size s) (l_outstanding s) v
        (l_dev s) (lh_n s) (lh_block s) (l_woken s).
Definition set_lh_n (v : Z) s : log S :=
  mklog (l_bio s) (l_lock s) (l_start s) (l_size s) (l_outstanding s) (l_committing s)
        (l_dev s) v (lh_block s) (l_woken s).
Definition set_lh_block (v : list Z) s : log S :=
  mklog (l_bio s) (l_lock s) (l_start s) (l_size s) (l_outstanding s) (l_committing s)
        (l_dev s) (lh_n s) v (l_woken s).
Definition wake_log s : log S :=
  mklog (l_bio s) (l_lock s) (l_start s) (l_size s) (l_outstanding s) (l_committing s)
        (l_dev s) (lh_n s) (lh_block s) (l_woken s ++ [ChanLog]).

Definition in_bio {A} (m : M S A) : M (log S) A := zoom l_bio set_bio m.
Definition acquire_log : M (log S) unit := acquire l_lock set_l_lock.
Definition release_log : M (log S) unit := release l_lock set_l_lock.

(** [log.lh.block[i] = v]; the array has LOGSIZE entries. *)
Definition store_block (i : nat) (v : Z) : M (log S) unit :=
  require (Z.of_nat i <? LOGSIZE);;
  modify (λ s, set_lh_block (<[i:=v]> (lh_block s)) s).
(** [log.lh.block[i]]. *)
Definition load_block (i : nat) : M (log S) Z :=
  require (Z.of_nat i <? LOGSIZE);;
  gets (λ s, lh_block s !!! i).

(** ** install_trans *)
Definition install_one (tail : Z) : M (log S) unit :=
  s ← gets id;
  lbuf ← in_bio (op_bread (u32 (l_dev s)) (u32 (l_start s + tail + 1)));
  home ← load_block (Z.to_nat tail);
  dbuf ← in_bio (op_bread (u32 (l_dev s)) (u32 home));
  d ← in_bio (op_data lbuf);
  in_bio (op_set_data dbuf d);;
  in_bio (op_bwrite dbuf);;
  in_bio (op_brelse lbuf);;
  in_bio (op_brelse dbuf).

Definition install_trans : M (log S) unit :=
  n ← gets lh_n;
  for_range (Z.to_nat n) 0 install_one.

(** ** read_head, write_head *)
Definition read_head : M (log S) unit :=
  s ← gets id;
  buf ← in_bio (op_bread (u32 (l_dev s)) (u32 (l_start s)));
  lh ← in_bio (op_data buf);
  modify (set_lh_n (head_n lh));;
  for_range (Z.to_nat (head_n lh)) 0
    (λ i, store_block (Z.to_nat i) (head_block lh (Z.to_nat i)));;
  in_bio (op_brelse buf).

Definition write_head : M (log S) unit :=
  s ← gets id;
  buf ← in_bio (op_bread (u32 (l_dev s)) (u32 (l_start s)));
  hb ← in_bio (op_data buf);
  require (lh_n s <=? LOGSIZE);;
  in_bio (op_set_data buf
    (encode_head hb (lh_n s) (take (Z.to_nat (lh_n s)) (lh_block s))));;
  in_bio (op_bwrite buf);;
  in_bio (op_brelse buf).

Definition recover_from_log : M (log S) unit :=
  read_head;;
  install_trans;;
  modify (set_lh_n 0);;
  write_head.

(** [initlog]: a log header is 4 + 4*LOGSIZE bytes, less than a block. *)
Definition initlog (dev : Z) : M (log S) unit :=
  if Z.of_nat BSIZE <=? 4 + 4 * LOGSIZE then panic "initlog: too big logheader"
  else
    modify (set_l_lock false);;
    sb ← in_bio (readsb dev);
    modify (set_geometry (i32 (sb_logstart sb)) (i32 (sb_nlog sb)) dev);;
    recover_from_log.

(** ** begin_op, end_op *)
Definition begin_op : M (log S) unit :=
  acquire_log;;
  s ← gets id;
  if l_committing s then sleep_on ChanLog (set_l_lock false)
  else if LOGSIZE <? lh_n s + (l_outstanding s + 1) * MAXOPBLOCKS then
    (* this op might exhaust log space; wait for commit *)
    sleep_on ChanLog (set_l_lock false)
  else
    modify (λ s, set_outstanding (l_outstanding s + 1) s);;
    release_log.

(** write_log: copy modified blocks from cache to log. *)
Definition write_log_one (tail : Z) : M (log S) unit :=
  s ← gets id;
  to ← in_bio (op_bread (u32 (l_dev s)) (u32 (l_start s + tail + 1)));
  home ← load_block (Z.to_nat tail);
  from ← in_bio (op_bread (u32 (l_dev s)) (u32 home));
  d ← in_bio (op_data from);
  in_bio (op_set_data to d);;
  in_bio (op_bwrite to);;
  in_bio (op_brelse from);;
  in_bio (op_brelse to).

Definition write_log : M (log S) unit :=
  n ← gets lh_n;
  for_range (Z.to_nat n) 0 write_log_one.

Definition commit : M (log S) unit :=
  n ← gets lh_n;
  when (0 <? n)
    (write_log;;                (* modified blocks, from cache to log *)
     write_head;;               (* the real commit *)
     install_trans;;            (* install writes to home locations *)
     modify (set_lh_n 0);;
     write_head).               (* erase the transaction from the log *)

Definition end_op : M (log S) unit :=
  acquire_log;;
  modify (λ s, set_outstanding (l_outstanding s - 1) s);;
  s ← gets id;
  if l_committing s then panic "log.committing"
  else
    let do_commit := l_outstanding s =? 0 in
    (if do_commit then modify (set_committing true) else modify wake_log);;
    release_log;;
    when do_commit
      (commit;;
       acquire_log;;
       modify (set_committing false);;
       modify wake_log;;
       release_log).

(** ** log_write *)

(** The index where the scan of [log_write] stops: the entry that is
    already [blockno], or the end of the list. *)
Fixpoint absorb (blockno : Z) (bs : list Z) : nat :=
  match bs with
  | [] => O
  | b :: bs' => if u32 b =? blockno then O else Datatypes.S (absorb blockno bs')
  end.

Definition log_write (b : nat) : M (log S) unit :=
  s ← gets id;
  if (LOGSIZE <=? lh_n s) || (l_size s - 1 <=? lh_n s) then panic "too big a transaction"
  else if l_outstanding s <? 1 then panic "log_write outside of trans"
  else
    acquire_log;;
    blockno ← in_bio (op_blockno b);
    n ← gets lh_n;
    bs ← gets lh_block;
    let i := absorb blockno (take (Z.to_nat n) bs) in
    store_block i (i32 blockno);;
    when (Z.of_nat i =? n) (modify (set_lh_n (n + 1)));;
    in_bio (op_pin b);;
    release_log.
End log.
