(* ===== verification/LogSpec.v ===== *)
(** * Correctness of the write-ahead log

    What one commit writes to the disk, in which order; that the memory state
    after it is clean; and, in [Crash], that a crash at any point of it is
    recovered to either the old or the new contents. *)

From S2P Require Import Prelude Params Block Format Log.

Section spec.
Context {S : Type} `{BlockSpec S}.
Implicit Types (s : log S) (a : bstate) (b : Z).

(** ** Geometry *)

Record geom s a : Prop := {
  g_dev : l_dev s = ROOTDEV;
  g_start : 0 ≤ l_start s;
  g_size : 0 < l_size s ≤ LOGSIZE;
  g_end : l_start s + l_size s ≤ a_size a;
  g_max : a_size a ≤ 2 ^ 31
}.

(** The blocks of the log area, header included. *)
Definition log_area (start size : Z) b : Prop := start ≤ b < start + size.
(** A block that may be logged. *)
Definition home_ok s a b : Prop :=
  0 ≤ b < a_size a ∧ ¬ log_area (l_start s) (l_size s) b.

(** The logged blocks. *)
Definition logged s : list Z := take (Z.to_nat (lh_n s)) (lh_block s).

(** The log slot of entry [t]. *)
Definition slot s (t : nat) : Z := l_start s + Z.of_nat t + 1.

Lemma wp_in_bio {A} (m : M S A) (Q : A → log S → Prop) s :
  wp m (λ x t, Q x (set_bio t s)) (l_bio s) → wp (in_bio m) Q s.
Proof. apply wp_zoom. Qed.

Lemma set_bio_id s : set_bio (l_bio s) s = s.
Proof. by destruct s. Qed.

Lemma wp_load_block i v (Q : Z → log S → Prop) s :
  lh_block s !! i = Some v → Z.of_nat i < LOGSIZE → Q v s → wp (load_block i) Q s.
Proof.
  intros Hv Hi HQ. unfold load_block. wp_steps. apply wp_require; [lia|]. wp_steps.
  by rewrite (list_lookup_total_correct _ _ _ Hv).
Qed.

(** ** Copying one block *)

Lemma copy_held i j x y a :
  a_held a = ∅ → i ≠ j →
  delete i (delete j (<[j:=y]> (<[i:=x]> (a_held a)))) = ∅ ∧
  delete j (delete i (<[j:=y]> (<[i:=x]> (a_held a)))) = ∅.
Proof.
  intros -> Hne. split; apply map_eq; intros k; rewrite lookup_empty;
    destruct (decide (i = k)), (decide (j = k)); subst; by simplify_map_eq.
Qed.

Lemma slot_area s (t : nat) :
  Z.of_nat t < l_size s - 1 → log_area (l_start s) (l_size s) (slot s t).
Proof. unfold log_area, slot. lia. Qed.
Lemma slot_range s a (t : nat) :
  geom s a → Z.of_nat t < l_size s - 1 → 0 ≤ slot s t < a_size a.
Proof. intros []. unfold slot. lia. Qed.

Section copy.
Context (s : log S) (a : bstate) (tail : nat) (home : Z).
Context (R : block_rep (l_bio s) a) (G : geom s a) (Hheld : a_held a = ∅).
Context (Htail : Z.of_nat tail < l_size s - 1).
Context (Hblk : lh_block s !! tail = Some home) (Hhome : home_ok s a home).
Context (Hroom : (size ({[slot s tail; home]} ∪ a_dirty a) ≤ NBUF)%nat).

Lemma slot_home : slot s tail ≠ home.
Proof. intros E. apply Hhome. rewrite <- E. by apply slot_area. Qed.

Lemma wp_write_log_one d (Q : unit → log S → Prop) :
  a_view a !! home = Some d →
  (∀ t', block_rep t' (a_after [(slot s tail, d)] (a_dirty a ∖ {[slot s tail]}) a) →
         Q tt (set_bio t' s)) →
  wp (write_log_one (Z.of_nat tail)) Q s.
Proof.
  intros Hd HQ. pose proof (slot_range s a tail G Htail) as Hsr. pose proof slot_home as Hsh.
  destruct G as [Gdev Gst Gsz Gend Gmax]. destruct Hhome as [Hhr _].
  unfold write_log_one. wp_steps. unfold id. rewrite Gdev.
  change (u32 ROOTDEV) with ROOTDEV. fold (slot s tail). rewrite u32_small by lia.
  apply wp_in_bio, (wpk_bread _ a); [done|done| | |].
  { rewrite held_blocks_empty by done. set_solver. }
  { eapply has_room_sub; [|done]. rewrite held_blocks_empty by done. set_solver. }
  intros i t1 Hi R1. cbv beta. wp_steps. rewrite Nat2Z.id.
  apply (wp_load_block _ home); [done|unfold LOGSIZE in *; lia|]. wp_steps.
  rewrite u32_small by lia.
  apply wp_in_bio, (wpk_bread _ (a_hold i (slot s tail) a)); [done|done| | |].
  { rewrite held_blocks_hold, held_blocks_empty by done. set_solver. }
  { eapply has_room_sub; [|done]. rewrite held_blocks_hold, held_blocks_empty by done.
    simpl. set_solver. }
  intros j t2 Hj R2. cbv beta. simpl in Hj.
  assert (i ≠ j) as Hij by (intros ->; by rewrite lookup_insert_eq in Hj).
  wp_steps. apply wp_in_bio, (wpk_data _ _ _ home _ R2);
    [simpl; by rewrite lookup_insert_eq|]. simpl. intros d' Hd'.
  assert (d' = d) as -> by congruence. wp_steps.
  destruct (block_view_ok _ _ R home Hhr) as (d''&Hd''&Hlen).
  assert (d'' = d) as -> by congruence.
  apply wp_in_bio, (wpk_set_data _ _ _ (slot s tail) _ _ R2); [|done|].
  { simpl. by rewrite lookup_insert_ne, lookup_insert_eq. }
  intros t3 R3. cbv beta. wp_steps.
  apply wp_in_bio, (wpk_bwrite _ _ _ (slot s tail) d _ R3).
  { simpl. by rewrite lookup_insert_ne, lookup_insert_eq. }
  { simpl. by rewrite lookup_insert_eq. }
  intros t4 R4. cbv beta. wp_steps.
  apply wp_in_bio, (wpk_brelse _ _ _ home _ R4).
  { simpl. by rewrite lookup_insert_eq. }
  { simpl. rewrite !lookup_insert_ne by done.
    destruct (decide (home ∈ a_dirty a)); [left; set_solver|right].
    apply (block_clean _ _ R); [done|]. rewrite held_blocks_empty by done. set_solver. }
  intros t5 R5. cbv beta.
  apply wp_in_bio, (wpk_brelse _ _ _ (slot s tail) _ R5).
  { simpl. by rewrite lookup_delete_ne, lookup_insert_ne, lookup_insert_eq. }
  { right. simpl. by rewrite !lookup_insert_eq. }
  intros t6 R6. cbv beta. apply HQ. revert R6.
  unfold a_drop, a_write, a_modify, a_hold, a_after; simpl.
  by rewrite (proj1 (copy_held i j (slot s tail) home a Hheld Hij)).
Qed.

Lemma wp_install_one d (Q : unit → log S → Prop) :
  a_view a !! slot s tail = Some d →
  (∀ t', block_rep t' (a_after [(home, d)] (a_dirty a ∖ {[home]}) a) →
         Q tt (set_bio t' s)) →
  wp (install_one (Z.of_nat tail)) Q s.
Proof.
  intros Hd HQ. pose proof (slot_range s a tail G Htail) as Hsr. pose proof slot_home as Hsh.
  destruct G as [Gdev Gst Gsz Gend Gmax]. destruct Hhome as [Hhr _].
  unfold install_one. wp_steps. unfold id. rewrite Gdev.
  change (u32 ROOTDEV) with ROOTDEV. fold (slot s tail). rewrite u32_small by lia.
  apply wp_in_bio, (wpk_bread _ a); [done|done| | |].
  { rewrite held_blocks_empty by done. set_solver. }
  { eapply has_room_sub; [|done]. rewrite held_blocks_empty by done. set_solver. }
  intros i t1 Hi R1. cbv beta. wp_steps. rewrite Nat2Z.id.
  apply (wp_load_block _ home); [done|unfold LOGSIZE in *; lia|]. wp_steps.
  rewrite u32_small by lia.
  apply wp_in_bio, (wpk_bread _ (a_hold i (slot s tail) a)); [done|done| | |].
  { rewrite held_blocks_hold, held_blocks_empty by done. set_solver. }
  { eapply has_room_sub; [|done]. rewrite held_blocks_hold, held_blocks_empty by done.
    simpl. set_solver. }
  intros j t2 Hj R2. cbv beta. simpl in Hj.
  assert (i ≠ j) as Hij by (intros ->; by rewrite lookup_insert_eq in Hj).
  wp_steps. apply wp_in_bio, (wpk_data _ _ _ (slot s tail) _ R2);
    [simpl; by rewrite lookup_insert_ne, lookup_insert_eq|]. simpl. intros d' Hd'.
  assert (d' = d) as -> by congruence. wp_steps.
  destruct (block_view_ok _ _ R (slot s tail) Hsr) as (d''&Hd''&Hlen).
  assert (d'' = d) as -> by congruence.
  apply wp_in_bio, (wpk_set_data _ _ _ home _ _ R2); [|done|].
  { simpl. by rewrite lookup_insert_eq. }
  intros t3 R3. cbv beta. wp_steps.
  apply wp_in_bio, (wpk_bwrite _ _ _ home d _ R3).
  { simpl. by rewrite lookup_insert_eq. }
  { simpl. by rewrite lookup_insert_eq. }
  intros t4 R4. cbv beta. wp_steps.
  apply wp_in_bio, (wpk_brelse _ _ _ (slot s tail) _ R4).
  { simpl. by rewrite lookup_insert_ne, lookup_insert_eq. }
  { simpl. rewrite !lookup_insert_ne by done.
    destruct (decide (slot s tail ∈ a_dirty a)); [left; set_solver|right].
    apply (block_clean _ _ R); [done|]. rewrite held_blocks_empty by done. set_solver. }
  intros t5 R5. cbv beta.
  apply wp_in_bio, (wpk_brelse _ _ _ home _ R5).
  { simpl. by rewrite lookup_delete_ne, lookup_insert_eq. }
  { right. simpl. by rewrite !lookup_insert_eq. }
  intros t6 R6. cbv beta. apply HQ. revert R6.
  unfold a_drop, a_write, a_modify, a_hold, a_after; simpl.
  by rewrite (proj2 (copy_held i j (slot s tail) home a Hheld Hij)).
Qed.
End copy.

(** ** The loops *)

(** What [write_log] writes: each logged block, to its slot. *)
Definition log_writes s a : list (Z * block) :=
  imap (λ t b, (slot s t, a_view a !!! b)) (logged s).
(** What [install_trans] writes: each slot, to its home block. *)
Definition inst_writes s a : list (Z * block) :=
  imap (λ t b, (b, a_view a !!! slot s t)) (logged s).

(** The in-memory header is well formed. *)
Record head_ok s a : Prop := {
  h_n : 0 ≤ lh_n s ≤ l_size s - 1;
  h_len : length (lh_block s) = Z.to_nat LOGSIZE;
  h_home : Forall (home_ok s a) (logged s)
}.

Lemma length_logged s a : geom s a → head_ok s a → Z.of_nat (length (logged s)) = lh_n s.
Proof.
  intros G Hh. destruct (g_size _ _ G), (h_n _ _ Hh). pose proof (h_len _ _ Hh).
  unfold logged. rewrite length_take. lia.
Qed.

Lemma logged_lookup s a t b : geom s a → head_ok s a → logged s !! t = Some b →
  Z.of_nat t < l_size s - 1 ∧ lh_block s !! t = Some b ∧ home_ok s a b.
Proof.
  intros G Hh Hb. pose proof (lookup_lt_Some _ _ _ Hb).
  pose proof (length_logged _ _ G Hh). destruct (h_n _ _ Hh). split_and!.
  - lia.
  - unfold logged in Hb. by apply lookup_take_Some in Hb as [? _].
  - pose proof (h_home _ _ Hh) as Hf. rewrite Forall_lookup in Hf. eauto.
Qed.

Lemma log_writes_area s a b : geom s a → head_ok s a →
  b ∈ (log_writes s a).*1 → log_area (l_start s) (l_size s) b.
Proof.
  intros G Hh (w&->&Hw)%list_elem_of_fmap.
  apply list_elem_of_lookup in Hw as [t Ht]. unfold log_writes in Ht.
  rewrite list_lookup_imap in Ht. destruct (logged s !! t) as [x|] eqn:E; [|done].
  injection Ht as <-. destruct (logged_lookup _ _ _ _ G Hh E) as (?&_). simpl.
  unfold log_area, slot. lia.
Qed.

Lemma inst_writes_fst s a : (inst_writes s a).*1 = logged s.
Proof.
  unfold inst_writes. rewrite fmap_imap. apply list_eq. intros t.
  rewrite list_lookup_imap. by destruct (logged s !! t).
Qed.

Lemma geom_bio s a t ws D : geom s a → geom (set_bio t s) (a_after ws D a).
Proof. by intros []. Qed.

Lemma take_snoc {A} (l : list A) (i : nat) x :
  l !! i = Some x → take (Datatypes.S i) l = take i l ++ [x].
Proof. apply take_S_r. Qed.

Section loops.
Context (s : log S) (a : bstate).
Context (R : block_rep (l_bio s) a) (G : geom s a) (Hheld : a_held a = ∅).
Context (Hh : head_ok s a).
Context (Hroom : (size (list_to_set (logged s) ∪ a_dirty a) < NBUF)%nat).

Lemma loop_room t b (D : gset Z) :
  b ∈ logged s → D ⊆ a_dirty a → (size ({[slot s t; b]} ∪ D) ≤ NBUF)%nat.
Proof.
  intros Hb HD.
  assert ({[slot s t; b]} ∪ D ⊆ {[slot s t]} ∪ (list_to_set (logged s) ∪ a_dirty a))
    as Hsub by set_solver.
  apply subseteq_size in Hsub.
  pose proof (size_add_le (slot s t) (list_to_set (logged s) ∪ a_dirty a)). lia.
Qed.

Lemma view_total b : 0 ≤ b < a_size a → a_view a !! b = Some (a_view a !!! b).
Proof.
  intros Hb. destruct (block_view_ok _ _ R b Hb) as (d&Hd&_).
  by rewrite Hd, (lookup_total_correct _ _ _ Hd).
Qed.

Lemma wp_write_log (Q : unit → log S → Prop) :
  (∀ b, b ∈ a_dirty a → ¬ log_area (l_start s) (l_size s) b) →
  (∀ t', block_rep t' (a_after (log_writes s a) (a_dirty a) a) → Q tt (set_bio t' s)) →
  wp write_log Q s.
Proof.
  intros Hd HQ. unfold write_log. wp_steps.
  pose proof (length_logged _ _ G Hh) as Hlen.
  apply (wp_for_range (λ i s', ∃ t', s' = set_bio t' s ∧
    block_rep t' (a_after (take (Z.to_nat i) (log_writes s a)) (a_dirty a) a))).
  - exists (l_bio s). rewrite set_bio_id, take_0, a_after_nil by done. done.
  - intros i s' Hi (t'&->&R'). set (t := Z.to_nat i).
    replace i with (Z.of_nat t) by lia.
    destruct (lookup_lt_is_Some_2 (logged s) t) as [b Hb]; [lia|].
    destruct (logged_lookup _ _ _ _ G Hh Hb) as (Ht&Hblk&Hhome).
    apply (wp_write_log_one (set_bio t' s) _ t b R' (geom_bio _ _ _ _ _ G)
             eq_refl Ht Hblk Hhome) with (d := a_view a !!! b).
    + apply loop_room; [by eapply list_elem_of_lookup_2|done].
    + simpl. rewrite apply_writes_notin; [apply view_total, Hhome|].
      intros Hin. apply Hhome. eapply log_writes_area; [done..|].
      apply list_elem_of_fmap in Hin as (w&->&Hw). apply list_elem_of_fmap.
      exists w. split; [done|]. by apply (subseteq_take _ _ _ Hw).
    + intros t'' R''. exists t''. split; [done|].
      revert R''. rewrite a_after_after. simpl a_dirty.
      replace (a_dirty a ∖ {[slot (set_bio t' s) t]}) with (a_dirty a).
      2:{ apply set_eq. intros x. rewrite elem_of_difference, elem_of_singleton.
          split; [|tauto]. intros Hx. split; [done|]. intros ->. apply (Hd _ Hx).
          unfold log_area, slot. simpl. lia. }
      replace (Z.to_nat (Z.of_nat t + 1)) with (Datatypes.S t) by lia.
      rewrite (take_snoc _ t (slot s t, a_view a !!! b)); [done|].
      unfold log_writes. by rewrite list_lookup_imap, Hb.
  - intros s' (t'&->&R'). apply HQ. revert R'. rewrite take_ge; [done|].
    unfold log_writes. rewrite length_imap. lia.
Qed.

Lemma wp_install_trans (Q : unit → log S → Prop) :
  (∀ t', block_rep t' (a_after (inst_writes s a)
                         (a_dirty a ∖ list_to_set (logged s)) a) →
         Q tt (set_bio t' s)) →
  wp install_trans Q s.
Proof.
  intros HQ. unfold install_trans. wp_steps.
  pose proof (length_logged _ _ G Hh) as Hlen.
  apply (wp_for_range (λ i s', ∃ t', s' = set_bio t' s ∧
    block_rep t' (a_after (take (Z.to_nat i) (inst_writes s a))
                    (a_dirty a ∖ list_to_set (take (Z.to_nat i) (logged s))) a))).
  - exists (l_bio s). rewrite set_bio_id, !take_0. simpl list_to_set.
    rewrite difference_empty_L, a_after_nil by done. done.
  - intros i s' Hi (t'&->&R'). set (t := Z.to_nat i) in *.
    replace i with (Z.of_nat t) by lia.
    destruct (lookup_lt_is_Some_2 (logged s) t) as [b Hb]; [lia|].
    destruct (logged_lookup _ _ _ _ G Hh Hb) as (Ht&Hblk&Hhome).
    apply (wp_install_one (set_bio t' s) _ t b R' (geom_bio _ _ _ _ _ G)
             eq_refl Ht Hblk Hhome) with (d := a_view a !!! slot s t).
    + apply loop_room; [by eapply list_elem_of_lookup_2|simpl; set_solver].
    + simpl. rewrite apply_writes_notin.
      { apply view_total, (slot_range s a t G Ht). }
      rewrite fmap_take, inst_writes_fst. intros Hin%(subseteq_take _ _).
      apply list_elem_of_lookup in Hin as [t0 Hin].
      destruct (logged_lookup _ _ _ _ G Hh Hin) as (_&_&_&Hno). apply Hno.
      apply (slot_area s t Ht).
    + intros t'' R''. exists t''. split; [done|].
      revert R''. rewrite a_after_after. simpl a_dirty.
      replace (Z.to_nat (Z.of_nat t + 1)) with (Datatypes.S t) by lia.
      rewrite (take_snoc _ t (b, a_view a !!! slot s t)), (take_snoc _ t b Hb);
        [|unfold inst_writes; by rewrite list_lookup_imap, Hb].
      rewrite list_to_set_app_L. simpl list_to_set.
      by rewrite union_empty_r_L, <- difference_difference_l_L.
  - intros s' (t'&->&R'). apply HQ. revert R'.
    rewrite !take_ge; [done| |]; unfold inst_writes; rewrite ?length_imap; lia.
Qed.
End loops.

(** ** The header *)

Lemma head_start s a : geom s a → 0 ≤ l_start s < a_size a.
Proof. intros []. lia. Qed.

Lemma wp_write_head s a h (Q : unit → log S → Prop) :
  block_rep (l_bio s) a → geom s a → head_ok s a → a_held a = ∅ →
  (size ({[l_start s]} ∪ a_dirty a) ≤ NBUF)%nat →
  a_view a !! l_start s = Some h →
  (∀ t', block_rep t' (a_after [(l_start s, encode_head h (lh_n s) (logged s))]
                         (a_dirty a ∖ {[l_start s]}) a) →
         Q tt (set_bio t' s)) →
  wp write_head Q s.
Proof.
  intros R G Hh Hheld Hroom Hview HQ. pose proof (head_start _ _ G) as Hst.
  pose proof (length_logged _ _ G Hh) as Hlen. destruct (h_n _ _ Hh).
  destruct G as [Gdev Gst Gsz Gend Gmax].
  destruct (block_view_ok _ _ R _ Hst) as (h'&Hh'&Hhl). assert (h' = h) as -> by congruence.
  unfold write_head. wp_steps. unfold id. rewrite Gdev.
  change (u32 ROOTDEV) with ROOTDEV. rewrite u32_small by lia.
  apply wp_in_bio, (wpk_bread _ a); [done|done| | |].
  { rewrite held_blocks_empty by done. set_solver. }
  { eapply has_room_sub; [|done]. rewrite held_blocks_empty by done. set_solver. }
  intros i t1 Hi R1. wp_steps.
  apply wp_in_bio, (wpk_data _ _ _ (l_start s) _ R1); [simpl; by rewrite lookup_insert_eq|].
  simpl. intros d Hd. assert (d = h) as -> by congruence. wp_steps.
  apply wp_require; [lia|]. wp_steps. fold (logged s).
  apply wp_in_bio, (wpk_set_data _ _ _ (l_start s) _ _ R1).
  { simpl. by rewrite lookup_insert_eq. }
  { apply length_encode_head; [done|]. unfold LOGSIZE in *. lia. }
  intros t2 R2. wp_steps.
  apply wp_in_bio, (wpk_bwrite _ _ _ (l_start s) (encode_head h (lh_n s) (logged s)) _ R2).
  { simpl. by rewrite lookup_insert_eq. }
  { simpl. by rewrite lookup_insert_eq. }
  intros t3 R3. wp_steps.
  apply wp_in_bio, (wpk_brelse _ _ _ (l_start s) _ R3).
  { simpl. by rewrite lookup_insert_eq. }
  { right. simpl. by rewrite !lookup_insert_eq. }
  intros t4 R4. apply HQ. revert R4.
  unfold a_drop, a_write, a_modify, a_hold, a_after; simpl.
  rewrite delete_insert_id by (by rewrite Hheld). by rewrite Hheld.
Qed.

(** ** The log between commits *)

Record log_rep s a : Prop := {
  lr_bio : block_rep (l_bio s) a;
  lr_geom : geom s a;
  lr_head : head_ok s a;
  lr_lock : l_lock s = false;
  lr_dirty : a_dirty a = list_to_set (logged s);
  lr_clear : ∃ h, a_disk a !! l_start s = Some h ∧ length h = BSIZE ∧ head_n h = 0
}.

(** The header block that commits, and the one that erases. *)
Definition commit_head s a : block :=
  encode_head (a_view a !!! l_start s) (lh_n s) (logged s).
Definition erase_head s a : block := encode_head (commit_head s a) 0 [].

(** The disk writes of a commit, in order. *)
Definition commit_writes s a : list (Z * block) :=
  log_writes s a ++ [(l_start s, commit_head s a)] ++
  ((λ b, (b, a_view a !!! b)) <$> logged s) ++ [(l_start s, erase_head s a)].

Lemma logged_not_area s a b : geom s a → head_ok s a → b ∈ logged s →
  ¬ log_area (l_start s) (l_size s) b.
Proof.
  intros G Hh [t Ht]%list_elem_of_lookup.
  by destruct (logged_lookup _ _ _ _ G Hh Ht) as (_&_&_&?).
Qed.

Lemma slot_inj s t t' : slot s t = slot s t' → t = t'.
Proof. unfold slot. lia. Qed.

(** After [write_log] each slot holds its block. *)
Lemma log_writes_slot s a d t b :
  logged s !! t = Some b → apply_writes d (log_writes s a) !! slot s t = Some (a_view a !!! b).
Proof.
  intros Hb. assert (log_writes s a !! t = Some (slot s t, a_view a !!! b)) as Hw.
  { unfold log_writes. by rewrite list_lookup_imap, Hb. }
  apply apply_writes_in.
  - apply list_elem_of_fmap. exists (slot s t, a_view a !!! b). split; [done|].
    by eapply list_elem_of_lookup_2.
  - intros y [t' Ht']%list_elem_of_lookup. unfold log_writes in Ht'.
    rewrite list_lookup_imap in Ht'. destruct (logged s !! t') as [b'|] eqn:E; [|done].
    simpl in Ht'. injection Ht' as E1 <-. apply slot_inj in E1 as ->. congruence.
Qed.

Lemma start_not_slot s a t : geom s a → head_ok s a → l_start s ∉ (log_writes s a).*1 ∧ l_start s ≠ slot s t.
Proof.
  intros G Hh. split; [|unfold slot; lia].
  intros (w&Hw&Hin)%list_elem_of_fmap. apply list_elem_of_lookup in Hin as [t' Ht'].
  unfold log_writes in Ht'. rewrite list_lookup_imap in Ht'.
  destruct (logged s !! t') as [b|]; [|done]. simpl in Ht'. injection Ht' as <-.
  simpl in Hw. unfold slot in Hw. lia.
Qed.

Lemma commit_head_length s a : block_rep (l_bio s) a → geom s a → head_ok s a →
  length (commit_head s a) = BSIZE ∧ length (erase_head s a) = BSIZE.
Proof.
  intros R G Hh. pose proof (length_logged _ _ G Hh).
  destruct (h_n _ _ Hh), (g_size _ _ G).
  destruct (block_view_ok _ _ R _ (head_start _ _ G)) as (h&Hv&Hl).
  assert (length (commit_head s a) = BSIZE) as E.
  { unfold commit_head. rewrite (lookup_total_correct _ _ _ Hv).
    apply length_encode_head; [done|]. lia. }
  split; [done|]. apply length_encode_head; [done|]. simpl. lia.
Qed.

Lemma log_room s a : log_rep s a → (size (list_to_set (logged s) ∪ a_dirty a) < NBUF)%nat.
Proof.
  intros []. rewrite lr_dirty0. rewrite union_idemp_L.
  pose proof (length_logged _ _ lr_geom0 lr_head0). destruct (h_n _ _ lr_head0), (g_size _ _ lr_geom0).
  pose proof (size_list_to_set_le (logged s)). change NBUF with 30%nat.
  unfold LOGSIZE, MAXOPBLOCKS in *. lia.
Qed.

Lemma wp_commit s a (Q : unit → log S → Prop) :
  log_rep s a → a_held a = ∅ →
  (lh_n s = 0 → Q tt s) →
  (0 < lh_n s → ∀ t', block_rep t' (a_after (commit_writes s a) ∅ a) →
     Q tt (set_lh_n 0 (set_bio t' s))) →
  wp commit Q s.
Proof.
  intros L Hheld HQ0 HQ. pose proof (log_room _ _ L) as Hroom. pose proof L as [R G Hh _ Hd _].
  unfold commit. wp_steps; [|apply HQ0; destruct (h_n _ _ Hh); lia].
  specialize (HQ ltac:(lia)).
  apply (wp_write_log s a R G Hheld Hh Hroom).
  { intros b. rewrite Hd, elem_of_list_to_set. by apply (logged_not_area s a). }
  intros t1 R1. wp_steps.
  pose proof (geom_bio s a t1 (log_writes s a) (a_dirty a) G) as G1.
  destruct (start_not_slot s a 0 G Hh) as [Hst _].
  assert (Hdirty : l_start s ∉ a_dirty a).
  { rewrite Hd, elem_of_list_to_set. intros Hin. apply (logged_not_area s a _ G Hh Hin).
    destruct G. unfold log_area. lia. }
  assert (a_dirty a ∖ {[l_start s]} = a_dirty a) as Hdd by set_solver.
  apply (wp_write_head (set_bio t1 s) _ (a_view a !!! l_start s) _ R1 G1).
  { by destruct Hh. }
  { done. }
  { simpl. pose proof (size_add_le (l_start s) (a_dirty a)).
    assert (size (a_dirty a) < NBUF)%nat; [|lia].
    eapply Nat.le_lt_trans; [|exact Hroom]. apply subseteq_size. set_solver. }
  { simpl. rewrite apply_writes_notin by done.
    apply (view_total s a R), (head_start _ _ G). }
  simpl l_start. fold (logged s) (commit_head s a).
  intros t2 R2. rewrite a_after_after in R2. simpl a_dirty in R2. rewrite Hdd in R2. wp_steps.
  set (ws := log_writes s a ++ [(l_start s, commit_head s a)]).
  change (block_rep t2 (a_after ws (a_dirty a) a)) in R2.
  pose proof (geom_bio s a t2 ws (a_dirty a) G) as G2.
  apply (wp_install_trans (set_bio t2 s) _ R2 G2); [done|by destruct Hh|exact Hroom|].
  intros t3 R3. rewrite a_after_after in R3.
  assert (inst_writes (set_bio t2 s) (a_after ws (a_dirty a) a) =
          (λ b, (b, a_view a !!! b)) <$> logged s) as Hinst.
  { unfold inst_writes. apply list_eq. intros t. rewrite list_lookup_imap, list_lookup_fmap.
    change (logged (set_bio t2 s)) with (logged s).
    destruct (logged s !! t) as [b|] eqn:E; [|done]. simpl. do 2 f_equal.
    apply lookup_total_correct. unfold ws. rewrite apply_writes_app. simpl.
    rewrite lookup_insert_ne by (by destruct (start_not_slot s a t G Hh)).
    change (slot (set_bio t2 s) t) with (slot s t). by apply log_writes_slot. }
  rewrite Hinst in R3. clear Hinst.
  replace (a_dirty (a_after ws (a_dirty a) a) ∖ list_to_set (logged (set_bio t2 s)))
    with (∅ : gset Z) in R3.
  2:{ simpl. rewrite Hd. change (logged (set_bio t2 s)) with (logged s). set_solver. }
  wp_steps.
  set (ws' := ws ++ ((λ b, (b, a_view a !!! b)) <$> logged s)) in *.
  pose proof (geom_bio s a t3 ws' ∅ G) as G3.
  apply (wp_write_head (set_lh_n 0 (set_bio t3 s)) _ (commit_head s a) _ R3).
  { by destruct G3. }
  { destruct Hh, G. split; simpl; [lia|done|]. unfold logged. simpl. constructor. }
  { done. }
  { pose proof (size_add_le (l_start s) ∅) as Hs. rewrite size_empty in Hs.
    cbn [a_dirty a_after l_start set_lh_n set_bio]. change NBUF with 30%nat. lia. }
  { simpl. unfold ws', ws. rewrite !apply_writes_app. rewrite apply_writes_notin.
    - simpl. by rewrite lookup_insert_eq.
    - rewrite <- list_fmap_compose. intros (b&Eb&Hb)%list_elem_of_fmap.
      apply (logged_not_area s a _ G Hh Hb). simpl in Eb. rewrite <- Eb.
      destruct G. unfold log_area. lia. }
  intros t4 R4. rewrite a_after_after in R4. simpl a_dirty in R4.
  apply HQ. revert R4. simpl l_start.
  replace (∅ ∖ {[l_start s]}) with (∅ : gset Z) by set_solver.
  change (logged (set_lh_n 0 (set_bio t3 s))) with (@nil Z). simpl lh_n.
  fold (erase_head s a). unfold commit_writes, ws', ws. by rewrite <- !app_assoc.
Qed.

(** ** Recovery *)

(** A header that recovery can install. *)
Definition valid_head (start size nblocks : Z) (h : block) : Prop :=
  0 ≤ head_n h ≤ size - 1 ∧
  Forall (λ b, 0 ≤ b < nblocks ∧ ¬ log_area start size b) (head_blocks h).

(** The disk writes of recovery from disk [d]. *)
Definition recover_writes (start : Z) (d : gmap Z block) : list (Z * block) :=
  imap (λ t b, (b, d !!! (start + Z.of_nat t + 1))) (head_blocks (d !!! start)) ++
  [(start, encode_head (d !!! start) 0 [])].

Lemma a_drop_hold i b a : a_held a !! i = None → a_drop i (a_hold i b a) = a.
Proof. intros. destruct a. unfold a_drop, a_hold; simpl in *. by rewrite delete_insert_id. Qed.

Lemma length_head_blocks h : length (head_blocks h) = Z.to_nat (head_n h).
Proof. unfold head_blocks. by rewrite length_fmap, length_seq. Qed.

Lemma wp_read_head s a h (Q : unit → log S → Prop) :
  block_rep (l_bio s) a → geom s a → a_held a = ∅ → a_dirty a = ∅ →
  length (lh_block s) = Z.to_nat LOGSIZE →
  a_view a !! l_start s = Some h → 0 ≤ head_n h ≤ l_size s - 1 →
  (∀ t' L, block_rep t' a → length L = Z.to_nat LOGSIZE →
     take (Z.to_nat (head_n h)) L = head_blocks h →
     Q tt (set_bio t' (set_lh_block L (set_lh_n (head_n h) s)))) →
  wp read_head Q s.
Proof.
  intros R G Hheld Hdirty Hlen Hview Hn HQ. pose proof (head_start _ _ G) as Hst.
  destruct G as [Gdev Gst Gsz Gend Gmax].
  unfold read_head. wp_steps. unfold id. rewrite Gdev.
  change (u32 ROOTDEV) with ROOTDEV. rewrite u32_small by lia.
  apply wp_in_bio, (wpk_bread _ a); [done|done| | |].
  { rewrite held_blocks_empty by done. set_solver. }
  { unfold has_room. rewrite held_blocks_empty, Hdirty by done.
    rewrite !union_empty_r_L, size_singleton. change NBUF with 30%nat. lia. }
  intros i t1 Hi R1. wp_steps.
  apply wp_in_bio, (wpk_data _ _ _ (l_start s) _ R1); [simpl; by rewrite lookup_insert_eq|].
  simpl. intros d Hd. assert (d = h) as -> by congruence. wp_steps.
  set (s1 := set_lh_n (head_n h) (set_bio t1 s)).
  apply (wp_for_range (λ k s', ∃ L, s' = set_lh_block L s1 ∧ length L = Z.to_nat LOGSIZE ∧
           take (Z.to_nat k) L = head_block h <$> seq 0 (Z.to_nat k))).
  - exists (lh_block s). done.
  - intros k s' Hk (L&->&HL&HT). unfold store_block. wp_steps.
    apply wp_require; [apply Z.ltb_lt; change LOGSIZE with 30 in *; lia|]. wp_steps.
    exists (<[Z.to_nat k:=head_block h (Z.to_nat k)]> L).
    split_and!; [done|by rewrite length_insert|].
    replace (Z.to_nat (k + 1)) with (Datatypes.S (Z.to_nat k)) by lia.
    rewrite (take_snoc _ (Z.to_nat k) (head_block h (Z.to_nat k))).
    2:{ apply list_lookup_insert_eq. change LOGSIZE with 30 in *. lia. }
    rewrite take_insert_ge by lia. rewrite HT, seq_S, fmap_app. done.
  - intros s' (L&->&HL&HT). cbv beta.
    apply wp_in_bio, (wpk_brelse _ _ _ (l_start s) _ R1).
    { simpl. by rewrite lookup_insert_eq. }
    { right. simpl. apply (block_clean _ _ R); [rewrite Hdirty; apply not_elem_of_empty|].
      rewrite held_blocks_empty by done. set_solver. }
    intros t2 R2. rewrite a_drop_hold in R2 by done.
    rewrite Z.add_0_l, Nat2Z.id in HT. by apply (HQ t2 L).
Qed.

Lemma clean_view s a : block_rep (l_bio s) a → a_held a = ∅ → a_dirty a = ∅ →
  a_view a = a_disk a.
Proof.
  intros R Hheld Hd. apply map_eq. intros b. apply (block_clean _ _ R).
  - rewrite Hd. set_solver.
  - rewrite held_blocks_empty by done. set_solver.
Qed.

Lemma wp_recover s a (Q : unit → log S → Prop) :
  block_rep (l_bio s) a → geom s a → a_held a = ∅ → a_dirty a = ∅ →
  length (lh_block s) = Z.to_nat LOGSIZE →
  valid_head (l_start s) (l_size s) (a_size a) (a_disk a !!! l_start s) →
  (∀ t' L, block_rep t' (a_after (recover_writes (l_start s) (a_disk a)) ∅ a) →
     length L = Z.to_nat LOGSIZE →
     Q tt (set_lh_n 0 (set_bio t' (set_lh_block L s)))) →
  wp recover_from_log Q s.
Proof.
  intros R G Hheld Hdirty Hlen [Hn Hblks] HQ.
  pose proof (clean_view _ _ R Hheld Hdirty) as Hvd.
  set (h := a_disk a !!! l_start s) in *.
  assert (a_view a !! l_start s = Some h) as Hh.
  { rewrite (view_total s a R) by (apply (head_start _ _ G)). by rewrite Hvd. }
  unfold recover_from_log. wp_steps.
  apply (wp_read_head s a h); [done..|]. intros t1 L R1 HL HT.
  set (s1 := set_bio t1 (set_lh_block L (set_lh_n (head_n h) s))). wp_steps.
  assert (logged s1 = head_blocks h) as Hlogged by exact HT.
  assert (geom s1 a) as G1 by (by destruct G).
  assert (head_ok s1 a) as Hh1.
  { split; [done|done|]. rewrite Hlogged. exact Hblks. }
  assert (size (list_to_set (logged s1) ∪ a_dirty a) < NBUF)%nat as Hroom.
  { rewrite Hdirty, union_empty_r_L.
    pose proof (length_logged _ _ G1 Hh1). destruct (h_n _ _ Hh1), (g_size _ _ G1).
    pose proof (size_list_to_set_le (logged s1)). change NBUF with 30%nat.
    unfold LOGSIZE, MAXOPBLOCKS in *. lia. }
  apply (wp_install_trans s1 a R1 G1 Hheld Hh1 Hroom). intros t2 R2. wp_steps.
  set (ws := inst_writes s1 a) in *.
  assert (a_dirty a ∖ list_to_set (logged s1) = ∅) as Hdd by set_solver.
  rewrite Hdd in R2.
  apply (wp_write_head (set_lh_n 0 (set_bio t2 s1)) _ h _ R2).
  { by destruct G. }
  { destruct G. split; simpl; [lia|done|]. unfold logged. simpl. constructor. }
  { done. }
  { pose proof (size_add_le (l_start s) ∅) as Hs. rewrite size_empty in Hs.
    cbn [a_dirty a_after l_start set_lh_n set_bio s1 set_lh_block]. change NBUF with 30%nat. lia. }
  { simpl. unfold ws. rewrite apply_writes_notin; [done|].
    rewrite inst_writes_fst. intros Hin. apply (logged_not_area s1 a _ G1 Hh1 Hin).
    destruct G. unfold log_area; simpl. lia. }
  intros t3 R3. rewrite a_after_after in R3. apply (HQ t3 L); [|done]. revert R3.
  simpl l_start. replace (a_dirty (a_after ws ∅ a) ∖ {[l_start s]}) with (∅ : gset Z) by set_solver.
  unfold recover_writes. fold h. unfold ws, inst_writes. by rewrite Hlogged, Hvd.
Qed.

Lemma room_clean b a : a_held a = ∅ → a_dirty a = ∅ → has_room b a.
Proof.
  intros Hh Hd. unfold has_room. rewrite held_blocks_empty, Hd by done.
  rewrite !union_empty_r_L, size_singleton. change NBUF with 30%nat. lia.
Qed.

Lemma wp_readsb t a (Q : superblock → S → Prop) :
  block_rep t a → a_held a = ∅ → a_dirty a = ∅ → 1 < a_size a →
  (∀ t', block_rep t' a → Q (decode_sb (a_disk a !!! 1)) t') →
  wp (readsb ROOTDEV) Q t.
Proof.
  intros R Hh Hd Hsz HQ. destruct (block_disk_ok _ _ R 1) as (d&Hd1&_); [lia|].
  assert (a_view a !! 1 = a_disk a !! 1) as Hvd.
  { apply (block_clean _ _ R); rewrite ?Hd, ?held_blocks_empty by done; set_solver. }
  unfold readsb. wp_steps. apply (wpk_bread _ a); [done|lia| |by apply room_clean|].
  { rewrite held_blocks_empty by done. set_solver. }
  intros i t1 Hi R1. wp_steps.
  apply (wpk_data _ _ _ 1 _ R1); [simpl; by rewrite lookup_insert_eq|].
  simpl. intros d' Hd'. wp_steps.
  apply (wpk_brelse _ _ _ 1 _ R1); [simpl; by rewrite lookup_insert_eq|by right|].
  intros t2 R2. wp_steps. rewrite a_drop_hold in R2 by done.
  rewrite (lookup_total_correct (a_disk a) 1 d') in HQ by congruence. auto.
Qed.

(** What [initlog] does to a freshly booted log. *)
Lemma wp_initlog s a (Q : unit → log S → Prop) :
  let sb := decode_sb (a_disk a !!! 1) in
  let s1 := set_geometry (i32 (sb_logstart sb)) (i32 (sb_nlog sb)) ROOTDEV (set_l_lock false s) in
  block_rep (l_bio s) a → a_held a = ∅ → a_dirty a = ∅ → 1 < a_size a →
  geom s1 a → length (lh_block s) = Z.to_nat LOGSIZE →
  valid_head (l_start s1) (l_size s1) (a_size a) (a_disk a !!! l_start s1) →
  (∀ t' L, block_rep t' (a_after (recover_writes (l_start s1) (a_disk a)) ∅ a) →
     length L = Z.to_nat LOGSIZE →
     Q tt (set_lh_n 0 (set_bio t' (set_lh_block L s1)))) →
  wp (initlog ROOTDEV) Q s.
Proof.
  intros sb s1 R Hh Hd Hsz G Hlen Hv HQ. unfold initlog.
  change (Z.of_nat BSIZE <=? 4 + 4 * LOGSIZE) with false. cbv iota. wp_steps.
  apply wp_in_bio, (wp_readsb _ a); [done..|]. intros t1 R1. wp_steps.
  fold sb. apply (wp_recover (set_bio t1 s1) a); [done|by destruct G|done..|exact HQ].
Qed.

(** ** Adding a block to the transaction *)

Lemma absorb_spec b bs : Forall (λ x, 0 ≤ x < 2 ^ 32) bs →
  (b ∈ bs → bs !! absorb b bs = Some b) ∧ (b ∉ bs → absorb b bs = length bs) ∧
  (absorb b bs ≤ length bs)%nat.
Proof.
  induction 1 as [|x bs Hx Hbs (IH1&IH2&IH3)]; simpl.
  { split_and!; [intros Hin; by apply elem_of_nil in Hin|done|lia]. }
  rewrite u32_small by done. destruct (Z.eqb_spec x b) as [->|Hne]; simpl.
  - split_and!; [done|set_solver|lia].
  - split_and!; [|intros Hin; rewrite IH2; set_solver|lia].
    intros Hin. apply IH1. set_solver.
Qed.

(** The header after [log_write] of block [b]. *)
Definition log_add (b : Z) (bs : list Z) : list Z := if decide (b ∈ bs) then bs else bs ++ [b].

Lemma home_ok_u32 s a bs : geom s a → Forall (home_ok s a) bs → Forall (λ x, 0 ≤ x < 2 ^ 32) bs.
Proof. intros [] Hf. eapply Forall_impl; [exact Hf|]. intros x [? _]. simpl. lia. Qed.

Lemma wp_log_write s a i b (Q : unit → log S → Prop) :
  log_rep s a → a_held a !! i = Some b → home_ok s a b →
  lh_n s < l_size s - 1 → 1 ≤ l_outstanding s →
  (∀ t' L n, let s' := set_lh_n n (set_lh_block L (set_bio t' s)) in
     log_rep s' (a_pin b a) → logged s' = log_add b (logged s) → Q tt s') →
  wp (log_write i) Q s.
Proof.
  intros [R G Hh Hlk Hd Hc] Hi Hb Hn Hout HQ.
  pose proof (length_logged _ _ G Hh) as Hlen. pose proof (h_len _ _ Hh) as Hbl.
  destruct (h_n _ _ Hh), (g_size _ _ G).
  pose proof (home_ok_u32 _ _ _ G (h_home _ _ Hh)) as Hu.
  destruct (absorb_spec b (logged s) Hu) as (Ha1&Ha2&Ha3).
  unfold log_write. wp_steps. unfold id.
  rewrite (proj2 (Z.leb_gt _ _)), (proj2 (Z.leb_gt _ _)), (proj2 (Z.ltb_ge _ _)) by lia. simpl.
  wp_steps. apply wp_acquire; [done|]. wp_steps.
  apply wp_in_bio, (wpk_blockno _ _ _ b _ R Hi). wp_steps. simpl.
  fold (logged s). set (k := absorb b (logged s)) in *.
  unfold store_block. wp_steps. apply wp_require; [apply Z.ltb_lt; change LOGSIZE with 30 in *; lia|].
  assert (i32 b = b) as Hib by (apply i32_small; destruct Hb as [? _], G; lia).
  assert (Hfin : ∀ t' n, block_rep t' (a_pin b a) →
            take (Z.to_nat n) (<[k:=i32 b]> (lh_block s)) = log_add b (logged s) →
            0 ≤ n ≤ l_size s - 1 →
            Q tt (set_lh_n n (set_lh_block (<[k:=i32 b]> (lh_block s)) (set_bio t' s)))).
  { intros t' n R' Hlog Hn'. apply HQ; [|exact Hlog].
    assert (Hall : Forall (home_ok s a) (log_add b (logged s))).
    { unfold log_add. case_decide; [apply Hh|]. apply Forall_app. split; [apply Hh|]. by constructor. }
    split; try done.
    - by destruct G.
    - split; [done|simpl; by rewrite length_insert|]. unfold logged. simpl. rewrite Hlog. exact Hall.
    - unfold logged. simpl. rewrite Hlog, Hd. unfold log_add. case_decide; [set_solver|].
      rewrite list_to_set_app_L. simpl. set_solver. }
  wp_steps; simpl in *.
  - (* the end of the list: a new entry *)
    assert (k = length (logged s)) as Hk by lia.
    apply wp_in_bio, (wpk_pin _ _ _ b _ R Hi). intros t' R'. wp_steps.
    apply wp_release; [done|]. unfold set_l_lock, set_lh_n; simpl. rewrite <- Hlk.
    apply (Hfin t' (lh_n s + 1) R'); [|lia]. rewrite Hib.
    replace (Z.to_nat (lh_n s + 1)) with (Datatypes.S k) by lia.
    rewrite (take_snoc _ k b) by (apply list_lookup_insert_eq; change LOGSIZE with 30 in *; lia).
    rewrite take_insert_ge by lia.
    assert (take k (lh_block s) = logged s) as -> by (unfold logged; f_equal; lia).
    unfold log_add. rewrite decide_False; [done|]. intros Hin%Ha1%lookup_lt_Some. lia.
  - (* log absorption *)
    assert (k ≠ length (logged s)) as Hk by lia.
    assert (b ∈ logged s) as Hin.
    { destruct (decide (b ∈ logged s)); [done|]. by rewrite Ha2 in Hk. }
    apply wp_in_bio, (wpk_pin _ _ _ b _ R Hi). intros t' R'. wp_steps.
    apply wp_release; [done|]. unfold set_l_lock; simpl. rewrite <- Hlk.
    apply (Hfin t' (lh_n s) R'); [|lia]. rewrite Hib. unfold log_add. rewrite decide_True by done.
    specialize (Ha1 Hin). unfold logged in Ha1. apply lookup_take_Some in Ha1 as [Ha1 _].
    by rewrite list_insert_id.
Qed.

(** ** Transactions *)

(** The admission test of [begin_op]. *)
Definition admits s : bool :=
  negb (l_committing s) && (lh_n s + (l_outstanding s + 1) * MAXOPBLOCKS <=? LOGSIZE).

Lemma begin_op_eq s : l_lock s = false →
  begin_op s = if admits s then Done tt (set_outstanding (l_outstanding s + 1) s)
               else Asleep ChanLog s.
Proof.
  intros Hl. unfold begin_op, acquire_log, acquire, release_log, release, admits, sleep_on.
  unfold mbind, M_bind, gets, modify, id. rewrite Hl. simpl.
  destruct s as [bio lk st sz out com dev n bl wk]; simpl in *; subst. destruct com; simpl; [done|].
  rewrite Z.ltb_antisym. by destruct (_ <=? LOGSIZE).
Qed.

Lemma wp_end_op s a (Q : unit → log S → Prop) :
  log_rep s a → l_committing s = false → l_outstanding s = 1 → a_held a = ∅ →
  (lh_n s = 0 → Q tt (wake_log (set_outstanding 0 s))) →
  (0 < lh_n s → ∀ t', block_rep t' (a_after (commit_writes s a) ∅ a) →
     Q tt (wake_log (set_outstanding 0 (set_lh_n 0 (set_bio t' s))))) →
  wp end_op Q s.
Proof.
  intros L Hc Ho Hh HQ0 HQ. pose proof L as [R G Hd Hlk Hdi Hcl].
  unfold end_op, acquire_log, release_log. wp_steps.
  apply wp_acquire; [done|]. wp_steps. unfold id. simpl. rewrite Hc, Ho. simpl. wp_steps.
  apply wp_release; [done|]. wp_steps.
  set (s1 := set_l_lock false _). unfold set_l_lock, set_committing, set_outstanding in s1.
  simpl in s1.
  apply (wp_commit s1 a); [|done| |].
  - split; try done; [by destruct G|by destruct Hd].
  - intros Hn0. wp_steps. apply wp_acquire; [done|]. wp_steps. apply wp_release; [done|].
    specialize (HQ0 Hn0). revert HQ0. unfold wake_log, set_outstanding, set_l_lock; simpl.
    by rewrite Hlk, Hc.
  - intros Hn t' R'. wp_steps. apply wp_acquire; [done|]. wp_steps. apply wp_release; [done|].
    specialize (HQ Hn t' R'). revert HQ.
    unfold wake_log, set_outstanding, set_l_lock, set_lh_n; simpl. by rewrite Hlk, Hc.
Qed.

Lemma end_op_busy s : l_lock s = false → l_committing s = false → 1 < l_outstanding s →
  end_op s = Done tt (wake_log (set_outstanding (l_outstanding s - 1) s)).
Proof.
  intros Hl Hc Ho. unfold end_op, acquire_log, acquire, release_log, release, when.
  unfold mbind, M_bind, gets, modify, mret, M_ret, id. rewrite Hl. simpl. rewrite Hc.
  destruct (Z.eqb_spec (l_outstanding s - 1) 0); [lia|].
  destruct s; simpl in *; subst. done.
Qed.

(** After a commit the log is empty and consistent again. *)
Lemma commit_log_rep s a t' (s' : log S) :
  log_rep s a → block_rep t' (a_after (commit_writes s a) ∅ a) →
  l_bio s' = t' → l_lock s' = false → l_start s' = l_start s → l_size s' = l_size s →
  l_dev s' = l_dev s → lh_n s' = 0 → lh_block s' = lh_block s →
  log_rep s' (a_after (commit_writes s a) ∅ a).
Proof.
  intros [R G Hh Hlk Hd Hc] R' <- Hl Hst Hsz Hdv Hn Hb.
  destruct (commit_head_length s a R G Hh) as [Hl1 Hl2].
  destruct G as [Gdev Gst Gsz Gend Gmax].
  assert (logged s' = []) as Hlog by (unfold logged; by rewrite Hn).
  split; [done| | |done| |].
  - split; simpl; rewrite ?Hdv, ?Hst, ?Hsz; lia || done.
  - split; rewrite ?Hlog, ?Hn, ?Hsz, ?Hb; [lia|apply Hh|constructor].
  - by rewrite Hlog.
  - exists (erase_head s a). rewrite Hst. simpl. unfold commit_writes.
    rewrite !apply_writes_app. simpl. rewrite lookup_insert_eq.
    split_and!; [done|done|]. by apply head_encode_zero.
Qed.
End spec.
