(* ===== verification/Crash.v ===== *)
(** * Crash safety of the file system log

    A power failure may hit between any two of the disk writes of a commit, or
    of a recovery.  The theorems of this file run [end_op] and [initlog] of
    log.c over the buffer cache of bio.c, cut the sequence of disk writes at an
    arbitrary point, reboot, and show what recovery makes of the disk. *)

From S2P Require Import Prelude Params Block Sleeplock Bio BioSpec Format Log LogSpec.

(** ** Recovery as a function on disks *)

(** The disk recovery produces from [d]. *)
Definition recovered (start : Z) (d : gmap Z block) : gmap Z block :=
  apply_writes d (recover_writes start d).

(** The home writes of recovery. *)
Definition home_writes (start : Z) (d : gmap Z block) : list (Z * block) :=
  imap (λ t b, (b, d !!! (start + Z.of_nat t + 1))) (head_blocks (d !!! start)).

Lemma recover_writes_split start d :
  recover_writes start d = home_writes start d ++ [(start, encode_head (d !!! start) 0 [])].
Proof. done. Qed.

Lemma home_writes_fst start d : (home_writes start d).*1 = head_blocks (d !!! start).
Proof.
  unfold home_writes. rewrite fmap_imap. apply list_eq. intros t.
  rewrite list_lookup_imap. by destruct (_ !! t).
Qed.

(** With an empty header recovery only rewrites the header. *)
Lemma recovered_empty start d h b :
  d !! start = Some h → head_n h = 0 → b ≠ start → recovered start d !! b = d !! b.
Proof.
  intros Hd Hn Hb. unfold recovered. rewrite recover_writes_split, apply_writes_app.
  unfold home_writes, head_blocks. rewrite (lookup_total_correct _ _ _ Hd), Hn. simpl.
  by rewrite lookup_insert_ne.
Qed.

(** With the header of a committed transaction [bs] whose slots hold [v],
    recovery makes every block of [bs] equal to [v]. *)
Lemma recovered_committed start d h (v : gmap Z block) bs b :
  d !! start = Some h → head_blocks h = bs →
  (∀ t x, bs !! t = Some x → d !!! (start + Z.of_nat t + 1) = v !!! x) →
  b ≠ start →
  recovered start d !! b = if decide (b ∈ bs) then Some (v !!! b) else d !! b.
Proof.
  intros Hd Hbs Hv Hb. unfold recovered. rewrite recover_writes_split, apply_writes_app. simpl.
  rewrite lookup_insert_ne by done. pose proof (home_writes_fst start d) as Hfst.
  rewrite (lookup_total_correct _ _ _ Hd), Hbs in Hfst.
  case_decide as Hin; [|by rewrite apply_writes_notin by (by rewrite Hfst)].
  apply apply_writes_in; [by rewrite Hfst|].
  intros y [t Ht]%list_elem_of_lookup. unfold home_writes in Ht.
  rewrite (lookup_total_correct _ _ _ Hd), Hbs, list_lookup_imap in Ht.
  destruct (bs !! t) as [x|] eqn:E; [|done]. simpl in Ht. injection Ht as -> <-. by apply Hv.
Qed.

(** ** The disk in the middle of a commit *)

Section commit.
Context {S : Type} `{BlockSpec S} (s : log S) (a : bstate).
Context (L : log_rep s a) (Hheld : a_held a = ∅).

Let start := l_start s.
Let n := length (logged s).
Definition crash_disk (k : nat) : gmap Z block :=
  apply_writes (a_disk a) (take k (commit_writes s a)).

Lemma crash_clean b : b ∉ logged s → a_view a !! b = a_disk a !! b.
Proof.
  intros Hb. apply (block_clean _ _ (lr_bio _ _ L)).
  - rewrite (lr_dirty _ _ L). by rewrite elem_of_list_to_set.
  - rewrite held_blocks_empty by done. apply not_elem_of_empty.
Qed.

Lemma length_log_writes : length (log_writes s a) = n.
Proof. unfold log_writes. apply length_imap. Qed.

Lemma start_area : log_area start (l_size s) start.
Proof. destruct (lr_geom _ _ L). unfold log_area. lia. Qed.

(** Up to and including the last log block, the header is the empty one. *)
Lemma crash_disk_before k b :
  (k ≤ n)%nat → b = start ∨ ¬ log_area start (l_size s) b →
  crash_disk k !! b = a_disk a !! b.
Proof.
  intros Hk Hb. unfold crash_disk, commit_writes.
  rewrite take_app_le by (rewrite length_log_writes; lia).
  apply apply_writes_notin. intros (w&->&Hw)%list_elem_of_fmap.
  apply subseteq_take in Hw. assert (w.1 ∈ (log_writes s a).*1) as Hin.
  { apply list_elem_of_fmap. eauto. }
  destruct Hb as [Hb|Hb].
  - unfold start in Hb. rewrite Hb in Hin.
    by destruct (start_not_slot s a 0 (lr_geom _ _ L) (lr_head _ _ L)).
  - apply Hb. eapply log_writes_area; [apply L..|done].
Qed.

(** After the header is written and before it is erased. *)
Lemma crash_disk_committed j :
  (j ≤ n)%nat →
  crash_disk (n + 1 + j) !! start = Some (commit_head s a) ∧
  (∀ t b, logged s !! t = Some b → crash_disk (n + 1 + j) !!! slot s t = a_view a !!! b) ∧
  (∀ b, ¬ log_area start (l_size s) b → b ∉ logged s →
        crash_disk (n + 1 + j) !! b = a_disk a !! b).
Proof.
  intros Hj. unfold crash_disk, commit_writes.
  rewrite take_app_ge by (rewrite length_log_writes; lia). rewrite length_log_writes.
  replace (n + 1 + j - n)%nat with (Datatypes.S j) by lia. simpl.
  rewrite take_app_le by (rewrite length_fmap; fold n; lia). rewrite apply_writes_app. simpl.
  set (ws := take j _). set (d := <[_:=_]> _).
  assert (Hws : ∀ x, x ∈ ws.*1 → x ∈ logged s).
  { intros x (w&->&Hw)%list_elem_of_fmap. apply subseteq_take in Hw.
    apply list_elem_of_fmap in Hw as (b&->&Hb). done. }
  assert (Harea : ∀ x, log_area start (l_size s) x → apply_writes d ws !! x = d !! x).
  { intros x Hx. apply apply_writes_notin. intros Hin%Hws.
    by apply (logged_not_area s a _ (lr_geom _ _ L) (lr_head _ _ L) Hin). }
  fold (apply_writes d ws). split_and!.
  - rewrite Harea by apply start_area. apply lookup_insert_eq.
  - intros t b Hb. apply lookup_total_correct.
    destruct (logged_lookup _ _ _ _ (lr_geom _ _ L) (lr_head _ _ L) Hb) as (Ht&_).
    rewrite Harea by (by apply slot_area). unfold d.
    destruct (start_not_slot s a t (lr_geom _ _ L) (lr_head _ _ L)).
    rewrite lookup_insert_ne by done. by apply log_writes_slot.
  - intros b Hb Hnin. rewrite apply_writes_notin by auto. unfold d.
    rewrite lookup_insert_ne; [|intros <-; apply Hb, start_area].
    apply apply_writes_notin. intros Hin. apply Hb. eapply log_writes_area; [apply L..|done].
Qed.

(** After the last write. *)
Lemma crash_disk_done k :
  (2 * n + 2 ≤ k)%nat →
  crash_disk k !! start = Some (erase_head s a) ∧
  (∀ b, ¬ log_area start (l_size s) b → crash_disk k !! b = a_view a !! b).
Proof.
  intros Hk. unfold crash_disk.
  rewrite take_ge by (unfold commit_writes; rewrite !length_app, length_log_writes, length_fmap;
                      simpl; fold n; lia).
  unfold commit_writes. rewrite !apply_writes_app. simpl. split; [apply lookup_insert_eq|].
  intros b Hb. rewrite lookup_insert_ne by (intros <-; apply Hb, start_area).
  destruct (decide (b ∈ logged s)) as [Hin|Hnin].
  - pose proof Hin as [t Ht]%list_elem_of_lookup.
    destruct (logged_lookup s a t b (lr_geom _ _ L) (lr_head _ _ L) Ht) as (_&_&Hr&_).
    rewrite (view_total s a (lr_bio _ _ L) b Hr). apply apply_writes_in.
    + rewrite <- list_fmap_compose. apply list_elem_of_fmap. eauto.
    + intros y (b'&[= -> ->]&_)%list_elem_of_fmap. done.
  - rewrite apply_writes_notin.
    2:{ rewrite <- list_fmap_compose. by intros (b'&->&Hb')%list_elem_of_fmap. }
    rewrite lookup_insert_ne by (intros <-; apply Hb, start_area).
    rewrite apply_writes_notin, crash_clean; [done|done|].
    intros Hin. apply Hb. eapply log_writes_area; [apply L..|done].
Qed.

Lemma commit_head_decode :
  head_n (commit_head s a) = Z.of_nat n ∧ head_blocks (commit_head s a) = logged s.
Proof.
  pose proof (length_logged _ _ (lr_geom _ _ L) (lr_head _ _ L)) as Hlen. fold n in Hlen.
  destruct (h_n _ _ (lr_head _ _ L)), (g_size _ _ (lr_geom _ _ L)).
  destruct (block_view_ok _ _ (lr_bio _ _ L) _ (head_start _ _ (lr_geom _ _ L))) as (h&Hv&Hl).
  unfold commit_head. rewrite (lookup_total_correct _ _ _ Hv), <- Hlen.
  apply head_encode; [done|change LOGSIZE with 30 in *; fold n; lia|].
  eapply Forall_impl; [apply (h_home _ _ (lr_head _ _ L))|].
  intros b [? _]. destruct (lr_geom _ _ L). simpl. lia.
Qed.

Lemma erase_head_decode :
  head_n (erase_head s a) = 0 ∧ head_blocks (erase_head s a) = [].
Proof. apply head_encode_zero. by apply commit_head_length; apply L. Qed.

(** Where in the commit the crash hits. *)
Lemma crash_cases k : (k ≤ n)%nat ∨ (∃ j, (j ≤ n)%nat ∧ k = (n + 1 + j)%nat) ∨ (2 * n + 2 ≤ k)%nat.
Proof.
  destruct (decide (k ≤ n)%nat); [auto|]. destruct (decide (2 * n + 2 ≤ k)%nat); [auto|].
  right; left. exists (k - n - 1)%nat. lia.
Qed.

(** Recovery of a crashed commit: nothing of it before the header is on
    disk, all of it afterwards. *)
Lemma crash_recovered k b :
  ¬ log_area start (l_size s) b →
  recovered start (crash_disk k) !! b =
    if decide (k ≤ n)%nat then a_disk a !! b else a_view a !! b.
Proof.
  intros Hb. assert (b ≠ start) as Hbs by (intros ->; apply Hb, start_area).
  destruct (crash_cases k) as [Hk|[(j&Hj&->)|Hk]].
  - rewrite decide_True by done. destruct (lr_clear _ _ L) as (h&Hh&_&Hn0).
    rewrite (recovered_empty start _ h); [|rewrite crash_disk_before; auto|done|done].
    apply crash_disk_before; auto.
  - rewrite decide_False by lia. destruct (crash_disk_committed j Hj) as (H1&H2&H3).
    destruct commit_head_decode as [_ Hbl].
    rewrite (recovered_committed start _ _ (a_view a) (logged s) b H1 Hbl); [|exact H2|done].
    case_decide as Hin; [|by rewrite H3, crash_clean].
    pose proof Hin as [t Ht]%list_elem_of_lookup.
    destruct (logged_lookup s a t b (lr_geom _ _ L) (lr_head _ _ L) Ht) as (_&_&Hr&_).
    by rewrite (view_total s a (lr_bio _ _ L) b Hr).
  - rewrite decide_False by lia. destruct (crash_disk_done k Hk) as [H1 H2].
    destruct erase_head_decode as [Hn0 _].
    by rewrite (recovered_empty start _ _ b H1 Hn0 Hbs), H2.
Qed.

Lemma crash_valid_head k :
  valid_head start (l_size s) (a_size a) (crash_disk k !!! start).
Proof.
  assert (0 < l_size s) as Hsz by (destruct (g_size _ _ (lr_geom _ _ L)); lia).
  assert (Hempty : ∀ h, head_n h = 0 → valid_head start (l_size s) (a_size a) h).
  { intros h Hn0. split; [lia|]. unfold head_blocks. rewrite Hn0. constructor. }
  destruct (crash_cases k) as [Hk|[(j&Hj&->)|Hk]].
  - destruct (lr_clear _ _ L) as (h&Hh&_&Hn0). apply Hempty.
    rewrite (lookup_total_correct _ _ h); [done|]. rewrite crash_disk_before; auto.
  - destruct (crash_disk_committed j Hj) as (H1&_&_). destruct commit_head_decode as [Hn Hbl].
    rewrite (lookup_total_correct _ _ _ H1). split.
    + rewrite Hn. pose proof (length_logged _ _ (lr_geom _ _ L) (lr_head _ _ L)) as Hlen.
      fold n in Hlen. destruct (h_n _ _ (lr_head _ _ L)). lia.
    + rewrite Hbl. apply (h_home _ _ (lr_head _ _ L)).
  - destruct (crash_disk_done k Hk) as [H1 _]. apply Hempty.
    rewrite (lookup_total_correct _ _ _ H1). apply erase_head_decode.
Qed.

(** At every point of a commit a block outside the log is the old or the new one. *)
Lemma crash_disk_either k b :
  ¬ log_area start (l_size s) b →
  crash_disk k !! b = a_disk a !! b ∨ crash_disk k !! b = a_view a !! b.
Proof.
  intros Hb. destruct (apply_writes_cases (a_disk a) (take k (commit_writes s a)) b) as [?|(x&Hin&E)]; [by left|].
  right. unfold crash_disk. rewrite E. apply subseteq_take in Hin. unfold commit_writes in Hin.
  rewrite !elem_of_app, !list_elem_of_singleton in Hin.
  assert (b ≠ l_start s) by (intros ->; apply Hb, start_area).
  destruct Hin as [Hin|[[= ? _]|[Hin|[= ? _]]]]; try done.
  - exfalso. apply Hb. eapply log_writes_area; [apply L..|]. apply list_elem_of_fmap. by exists (b, x).
  - apply list_elem_of_fmap in Hin as (y&[= -> ->]&[t Ht]%list_elem_of_lookup).
    destruct (logged_lookup s a t y (lr_geom _ _ L) (lr_head _ _ L) Ht) as (_&_&Hr&_).
    by rewrite (view_total s a (lr_bio _ _ L) y Hr).
Qed.

(** Every write of a commit is a whole block of the disk. *)
Lemma commit_writes_ok b x : (b, x) ∈ commit_writes s a → 0 ≤ b < a_size a ∧ length x = BSIZE.
Proof.
  pose proof (lr_geom _ _ L) as G. pose proof (lr_head _ _ L) as Hh.
  destruct (commit_head_length s a (lr_bio _ _ L) G Hh) as [Hl1 Hl2].
  pose proof (head_start _ _ G) as Hst.
  assert (Hview : ∀ b, b ∈ logged s → 0 ≤ b < a_size a ∧ length (a_view a !!! b) = BSIZE).
  { intros y [t Ht]%list_elem_of_lookup.
    destruct (logged_lookup s a t y G Hh Ht) as (_&_&Hr&_). split; [done|].
    destruct (block_view_ok _ _ (lr_bio _ _ L) y Hr) as (d&Hd&?).
    by rewrite (lookup_total_correct _ _ _ Hd). }
  unfold commit_writes. rewrite !elem_of_app, !list_elem_of_singleton.
  intros [Hin|[[= -> ->]|[Hin|[= -> ->]]]]; [|done| |done].
  - apply list_elem_of_lookup in Hin as [t Ht]. unfold log_writes in Ht.
    rewrite list_lookup_imap in Ht. destruct (logged s !! t) as [y|] eqn:E; [|done].
    simpl in Ht. injection Ht as <- <-.
    destruct (logged_lookup s a t y G Hh E) as (Ht&_). split; [by apply slot_range|].
    apply Hview. by eapply list_elem_of_lookup_2.
  - apply list_elem_of_fmap in Hin as (y&[= -> ->]&Hy). auto.
Qed.
End commit.

(** ** Rebooting *)

(** The static [log] of a machine booted with disk [d]. *)
Definition boot_log (n : Z) (d : gmap Z block) (pid : Z) : log bio :=
  mklog (bio_boot n d pid) false 0 0 0 false 0 0 (replicate (Z.to_nat LOGSIZE) 0) [].

(** A disk of [n] blocks whose superblock places the log at
    [start, start + size). *)
Record disk_ok (n start size : Z) (d : gmap Z block) : Prop := {
  dk_blocks b : 0 ≤ b < n → ∃ x, d !! b = Some x ∧ length x = BSIZE;
  dk_start : i32 (sb_logstart (decode_sb (d !!! 1))) = start;
  dk_size : i32 (sb_nlog (decode_sb (d !!! 1))) = size;
  dk_geom : 2 ≤ start ∧ 0 < size ≤ LOGSIZE ∧ start + size ≤ n ∧ n ≤ 2 ^ 31;
  dk_head : valid_head start size n (d !!! start)
}.

Lemma apply_writes_ok n d ws :
  (∀ b, 0 ≤ b < n → ∃ x : block, d !! b = Some x ∧ length x = BSIZE) →
  (∀ b x, (b, x) ∈ ws → length x = BSIZE) →
  ∀ b, 0 ≤ b < n → ∃ x, apply_writes d ws !! b = Some x ∧ length x = BSIZE.
Proof.
  revert d. induction ws as [|[b0 x0] ws IH]; intros d Hd Hws; [done|].
  apply IH; [|intros b x Hin; apply (Hws b); by right].
  intros b Hb. simpl. destruct (decide (b0 = b)) as [->|].
  - rewrite lookup_insert_eq. exists x0. split; [done|]. apply (Hws b). by left.
  - rewrite lookup_insert_ne by done. auto.
Qed.

Lemma recover_writes_ok n start size d :
  disk_ok n start size d → ∀ b x, (b, x) ∈ recover_writes start d → length x = BSIZE.
Proof.
  intros [Hbl _ _ Hg [Hn Hblks]] b x. rewrite recover_writes_split, elem_of_app, list_elem_of_singleton.
  assert (Hlen : ∀ b, 0 ≤ b < n → length (d !!! b) = BSIZE).
  { intros y Hy. destruct (Hbl y Hy) as (z&Hz&?). by rewrite (lookup_total_correct _ _ _ Hz). }
  intros [Hin|[= -> ->]].
  - apply list_elem_of_lookup in Hin as [t Ht]. unfold home_writes in Ht.
    rewrite list_lookup_imap in Ht. destruct (_ !! t) as [y|] eqn:E; [|done].
    simpl in Ht. injection Ht as <- <-. apply Hlen.
    apply lookup_lt_Some in E. rewrite length_head_blocks in E. lia.
  - apply length_encode_head; [apply Hlen; lia|]. simpl. lia.
Qed.

Lemma boot_recovers n start size d pid :
  disk_ok n start size d →
  ∃ s', initlog ROOTDEV (boot_log n d pid) = Done tt s' ∧
        writes (l_bio s') = recover_writes start d ∧
        disk (l_bio s') = recovered start d ∧
        log_rep s' (a_after (recover_writes start d) ∅ (boot_state n d)) ∧
        l_start s' = start ∧ l_size s' = size ∧ l_outstanding s' = 0 ∧
        l_committing s' = false ∧ lh_n s' = 0.
Proof.
  intros Hok. pose proof Hok as [Hbl Hst Hsz (Hg1&Hg2&Hg3&Hg4) Hhd].
  assert (wp (initlog ROOTDEV) (λ _ s',
    writes (l_bio s') = recover_writes start d ∧ disk (l_bio s') = recovered start d ∧
    log_rep s' (a_after (recover_writes start d) ∅ (boot_state n d)) ∧
    l_start s' = start ∧ l_size s' = size ∧ l_outstanding s' = 0 ∧
    l_committing s' = false ∧ lh_n s' = 0) (boot_log n d pid)) as Hwp.
  2:{ apply wp_inv in Hwp as ([]&s'&?&?). eauto. }
  pose proof (bio_boot_rep n d pid Hbl) as R.
  pose proof (wp_initlog (boot_log n d pid) (boot_state n d)) as HW. cbv zeta in HW.
  change (a_disk (boot_state n d)) with d in HW. rewrite Hst, Hsz in HW.
  apply HW; clear HW; try done.
  - simpl. lia.
  - split; done || (simpl; lia).
  - intros t' L R' HL.
    split_and!; try done; [apply (rep_writes _ _ R')|apply (rep_disk _ _ R')|].
    split; try done.
    + split; done || (simpl; lia).
    + split; [simpl; lia|done|constructor].
    + destruct (Hbl start) as (x&Hx&Hlx); [lia|].
      rewrite <- (lookup_total_correct _ _ _ Hx) in Hlx.
      exists (encode_head (d !!! start) 0 []).
      assert (length (encode_head (d !!! start) 0 []) = BSIZE) by
        (apply length_encode_head; [done|simpl; lia]).
      assert (head_n (encode_head (d !!! start) 0 []) = 0) by (by apply head_encode_zero).
      simpl. rewrite recover_writes_split, apply_writes_app. simpl.
      rewrite lookup_insert_eq. auto.
Qed.

(** ** Properties *)

Lemma log_area_start s0 n : 0 < n → log_area s0 n s0.
Proof. unfold log_area. lia. Qed.

(** A superblock that places the log where it is. *)
Definition log_placed (start size : Z) (d : block) : Prop :=
  i32 (sb_logstart (decode_sb d)) = start ∧ i32 (sb_nlog (decode_sb d)) = size.

(** The disk a crashed commit leaves is one that [initlog] can recover. *)
Lemma crash_disk_ok (s : log bio) a k :
  log_rep s a → a_held a = ∅ → 2 ≤ l_start s →
  log_placed (l_start s) (l_size s) (a_disk a !!! 1) → log_placed (l_start s) (l_size s) (a_view a !!! 1) →
  disk_ok (a_size a) (l_start s) (l_size s) (crash_disk s a k).
Proof.
  intros L Hh Hs2 Hp Hp'. pose proof (lr_geom _ _ L) as G.
  assert (log_placed (l_start s) (l_size s) (crash_disk s a k !!! 1)) as [E1 E2].
  { unfold lookup_total, map_lookup_total in *.
    destruct (crash_disk_either s a L k 1) as [-> | ->]; [unfold log_area; lia|done|done]. }
  split; try done.
  - apply apply_writes_ok; [apply (block_disk_ok _ _ (lr_bio _ _ L))|].
    intros b x Hin%subseteq_take. by apply (commit_writes_ok s a L b x).
  - destruct G. lia.
  - by apply crash_valid_head.
Qed.

Lemma end_op_crash (s : log bio) (a : bstate) (pid : Z) :
  log_rep s a → l_committing s = false → l_outstanding s = 1 → a_held a = ∅ →
  2 ≤ l_start s → log_placed (l_start s) (l_size s) (a_disk a !!! 1) →
  log_placed (l_start s) (l_size s) (a_view a !!! 1) →
  ∃ s' ws,
    end_op s = Done tt s' ∧ writes (l_bio s') = writes (l_bio s) ++ ws ∧
    l_outstanding s' = 0 ∧ l_committing s' = false ∧ lh_n s' = 0 ∧
    (∀ b, ¬ log_area (l_start s) (l_size s) b → disk (l_bio s') !! b = a_view a !! b) ∧
    ∀ k, (k ≤ length ws)%nat →
      ∃ s2 a2,
        initlog ROOTDEV (boot_log (a_size a) (apply_writes (disk (l_bio s)) (take k ws)) pid)
          = Done tt s2 ∧
        log_rep s2 a2 ∧ lh_n s2 = 0 ∧
        ∀ b, ¬ log_area (l_start s) (l_size s) b →
          disk (l_bio s2) !! b =
          if decide (k ≤ length (logged s))%nat then disk (l_bio s) !! b else a_view a !! b.
Proof.
  intros L Hc Ho Hh Hs2 Hp Hp'. pose proof (rep_disk _ _ (lr_bio _ _ L)) as Ed.
  pose proof (rep_writes _ _ (lr_bio _ _ L)) as Ew. simpl in Ed, Ew. rewrite Ed, Ew.
  set (ws := if decide (lh_n s = 0) then [] else commit_writes s a).
  assert (Hrec : ∀ k, (k ≤ length ws)%nat →
    apply_writes (a_disk a) (take k ws) = crash_disk s a k).
  { intros k Hk. unfold ws, crash_disk in *. case_decide as E; [|done].
    simpl in Hk. by replace k with 0%nat by lia. }
  assert (wp end_op (λ _ s', writes (l_bio s') = a_writes a ++ ws ∧
    l_outstanding s' = 0 ∧ l_committing s' = false ∧ lh_n s' = 0 ∧
    (∀ b, ¬ log_area (l_start s) (l_size s) b → disk (l_bio s') !! b = a_view a !! b)) s) as W.
  { pose proof (h_n _ _ (lr_head _ _ L)). unfold ws. apply (wp_end_op s a); try done.
    - intros Hn. rewrite decide_True, app_nil_r by done. simpl. split_and!; try done.
      intros b Hb. rewrite Ed. symmetry. apply (crash_clean s a L Hh). unfold logged. rewrite Hn. apply not_elem_of_nil.
    - intros Hn t' R'. rewrite decide_False by lia. simpl.
      split_and!; try done; [apply (rep_writes _ _ R')|]. intros b Hb.
      rewrite (rep_disk _ _ R'). simpl.
      destruct (crash_disk_done s a L Hh (2 * length (logged s) + 2)) as [_ Hdone]; [lia|].
      rewrite <- Hdone by done. unfold crash_disk. rewrite take_ge; [done|].
      unfold commit_writes. rewrite !length_app, (length_log_writes s a), length_fmap. simpl. lia. }
  apply wp_inv in W as ([]&s'&He&Hw&W). exists s', ws.
  destruct W as (?&?&?&?). split_and!; try done. intros k Hk. rewrite Hrec by done.
  destruct (boot_recovers _ _ _ _ pid (crash_disk_ok s a k L Hh Hs2 Hp Hp'))
    as (s2&Hi&_&Hd2&L2&_&_&_&_&Hn2).
  eexists s2, _. split_and!; [done|exact L2|done|].
  intros b Hb. rewrite Hd2. by apply crash_recovered.
Qed.

(** C4: a file system operation is atomic with respect to crashes.  Take the
    log with one outstanding operation, no buffer locked, and any set of blocks
    logged.  [end_op] returns; the disk outside the log area is then what the
    buffer cache showed before; and if the machine stops after the first [k] of
    the disk writes it issues, [initlog] on the disk left behind returns with a
    consistent empty log, and the disk outside the log area is the old one when
    [k] is at most the number of logged blocks (the header write had not
    happened) and the new one otherwise. *)
Theorem end_op_crash_atomic (s : log bio) (a : bstate) (pid : Z) :
  log_rep s a → l_committing s = false → l_outstanding s = 1 → a_held a = ∅ →
  2 ≤ l_start s → log_placed (l_start s) (l_size s) (a_disk a !!! 1) →
  log_placed (l_start s) (l_size s) (a_view a !!! 1) →
  ∃ s' ws,
    end_op s = Done tt s' ∧ writes (l_bio s') = writes (l_bio s) ++ ws ∧
    l_outstanding s' = 0 ∧ l_committing s' = false ∧ lh_n s' = 0 ∧
    (∀ b, ¬ log_area (l_start s) (l_size s) b → disk (l_bio s') !! b = a_view a !! b) ∧
    ∀ k, (k ≤ length ws)%nat →
      ∃ s2 a2,
        initlog ROOTDEV (boot_log (a_size a) (apply_writes (disk (l_bio s)) (take k ws)) pid)
          = Done tt s2 ∧
        log_rep s2 a2 ∧ lh_n s2 = 0 ∧
        ∀ b, ¬ log_area (l_start s) (l_size s) b →
          disk (l_bio s2) !! b =
          if decide (k ≤ length (logged s))%nat then disk (l_bio s) !! b else a_view a !! b.
Proof. apply end_op_crash. Qed.

(** Writing [ws] again over a prefix of it gives the same disk. *)
Lemma apply_writes_base d d' ws b :
  b ∈ ws.*1 → apply_writes d ws !! b = apply_writes d' ws !! b.
Proof.
  revert d d'. induction ws as [|[b' x] ws IH]; intros d d' Hb; [by apply elem_of_nil in Hb|].
  destruct (decide (b ∈ ws.*1)) as [Hin|Hnin]; [by apply IH|].
  simpl in Hb. apply elem_of_cons in Hb as [->|Hb]; [|done]. simpl.
  unfold apply_writes. simpl. fold (apply_writes (<[b':=x]> d) ws) (apply_writes (<[b':=x]> d') ws).
  rewrite !apply_writes_notin by done. by rewrite !lookup_insert_eq.
Qed.

Lemma apply_writes_again d ws k b :
  apply_writes (apply_writes d (take k ws)) ws !! b = apply_writes d ws !! b.
Proof.
  destruct (decide (b ∈ ws.*1)); [by apply apply_writes_base|].
  rewrite !apply_writes_notin; try done.
  intros (w&->&Hw%subseteq_take)%list_elem_of_fmap. set_solver.
Qed.

Section restart.
Context (n start size : Z) (d : gmap Z block) (Hok : disk_ok n start size d).

Lemma home_writes_area b : b ∈ (home_writes start d).*1 → ¬ log_area start size b.
Proof.
  rewrite home_writes_fst. destruct Hok as [_ _ _ _ [_ Hf]]. rewrite Forall_forall in Hf.
  intros Hb. by apply Hf.
Qed.

(** Recovery cut short before its last write leaves the log as it was. *)
Lemma partial_area k b : (k ≤ length (home_writes start d))%nat → log_area start size b →
  apply_writes d (take k (recover_writes start d)) !! b = d !! b.
Proof.
  intros Hk Hb. rewrite recover_writes_split, take_app_le by done. apply apply_writes_notin.
  intros (w&->&Hw%subseteq_take)%list_elem_of_fmap. eapply home_writes_area; [|done].
  apply list_elem_of_fmap. eauto.
Qed.

Lemma partial_writes k : (k ≤ length (home_writes start d))%nat →
  recover_writes start (apply_writes d (take k (recover_writes start d))) = recover_writes start d.
Proof.
  intros Hk. destruct Hok as [_ _ _ Hg [Hn _]].
  assert (Harea : ∀ b, log_area start size b →
    apply_writes d (take k (recover_writes start d)) !!! b = d !!! b).
  { intros b Hb. unfold lookup_total, map_lookup_total. by rewrite partial_area. }
  unfold recover_writes at 1. rewrite Harea by (unfold log_area; lia).
  rewrite recover_writes_split. f_equal. unfold home_writes. apply imap_ext.
  intros t b Hb%lookup_lt_Some. rewrite length_head_blocks in Hb.
  by rewrite Harea by (unfold log_area; lia).
Qed.

Lemma full_header k : (length (home_writes start d) < k)%nat →
  take k (recover_writes start d) = recover_writes start d.
Proof. intros. apply take_ge. rewrite recover_writes_split, length_app. simpl. lia. Qed.

Lemma recovered_start : recovered start d !! start = Some (encode_head (d !!! start) 0 []).
Proof.
  unfold recovered. rewrite recover_writes_split, apply_writes_app. simpl. apply lookup_insert_eq.
Qed.

Lemma erased_zero : head_n (encode_head (d !!! start) 0 []) = 0 ∧
                    head_blocks (encode_head (d !!! start) 0 []) = [].
Proof.
  destruct Hok as [Hbl _ _ Hg _]. destruct (Hbl start) as (x&Hx&Hl); [lia|].
  rewrite (lookup_total_correct _ _ _ Hx). by apply head_encode_zero.
Qed.

Lemma recovered_partial k b : ¬ log_area start size b →
  recovered start (apply_writes d (take k (recover_writes start d))) !! b = recovered start d !! b.
Proof.
  intros Hb. destruct (decide (k ≤ length (home_writes start d))%nat) as [Hk|Hk].
  - unfold recovered at 1. rewrite partial_writes by done. apply apply_writes_again.
  - rewrite full_header by lia. fold (recovered start d).
    eapply recovered_empty; [apply recovered_start|apply erased_zero|].
    intros ->. apply Hb. destruct Hok. apply log_area_start. lia.
Qed.

Lemma partial_disk_ok k : 1 ∉ head_blocks (d !!! start) →
  disk_ok n start size (apply_writes d (take k (recover_writes start d))).
Proof.
  intros H1. pose proof Hok as [Hbl Hst Hsz Hg Hv].
  assert (apply_writes d (take k (recover_writes start d)) !!! 1 = d !!! 1) as E1.
  { unfold lookup_total, map_lookup_total. rewrite apply_writes_notin; [done|].
    intros (w&E&Hw%subseteq_take)%list_elem_of_fmap.
    rewrite recover_writes_split, elem_of_app, list_elem_of_singleton in Hw.
    destruct Hw as [Hw| ->]; [|simpl in E; lia].
    apply H1. rewrite <- home_writes_fst, E. apply list_elem_of_fmap. eauto. }
  split; rewrite ?E1; try done.
  - apply apply_writes_ok; [done|]. intros b x Hin%subseteq_take. by eapply recover_writes_ok.
  - destruct (decide (k ≤ length (home_writes start d))%nat) as [Hk|Hk].
    + unfold lookup_total, map_lookup_total. rewrite partial_area; [done|done|].
      apply log_area_start. lia.
    + rewrite full_header by lia. fold (recovered start d).
      rewrite (lookup_total_correct _ _ _ recovered_start). destruct erased_zero as [E0 Eb].
      split; [lia|]. rewrite Eb. constructor.
Qed.
End restart.

(** C5: recovery can itself be interrupted.  [initlog] on a disk with a valid
    log header returns; stop it after any number [k] of its disk writes, boot
    again, and [initlog] returns once more, with the same contents outside the
    log area as the uninterrupted recovery, and an empty log. *)
Theorem recovery_restartable (n start size : Z) (d : gmap Z block) (pid pid' : Z) :
  disk_ok n start size d → 1 ∉ head_blocks (d !!! start) →
  ∃ s1, initlog ROOTDEV (boot_log n d pid) = Done tt s1 ∧ lh_n s1 = 0 ∧
    ∀ k, ∃ s2 a2,
      initlog ROOTDEV (boot_log n (apply_writes d (take k (writes (l_bio s1)))) pid') = Done tt s2 ∧
      log_rep s2 a2 ∧ lh_n s2 = 0 ∧
      ∀ b, ¬ log_area start size b → disk (l_bio s2) !! b = disk (l_bio s1) !! b.
Proof.
  intros Hok H1. destruct (boot_recovers _ _ _ _ pid Hok) as (s1&Hi&Hw&Hd&_&_&_&_&_&Hn).
  exists s1. split; [exact Hi|split; [exact Hn|]]. intros k. rewrite Hw.
  destruct (boot_recovers _ _ _ _ pid' (partial_disk_ok _ _ _ _ Hok k H1))
    as (s2&Hi2&_&Hd2&L2&_&_&_&_&Hn2).
  eexists s2, _. split; [exact Hi2|split; [exact L2|split; [exact Hn2|]]].
  intros b Hb. rewrite Hd2, Hd. by eapply recovered_partial.
Qed.

(** ** Worked examples *)

(** The disk with contents [f]. *)
Definition make_disk (n : nat) (f : nat → block) : gmap Z block :=
  list_to_map ((λ b, (Z.of_nat b, f b)) <$> seq 0 n).

Lemma lookup_make_disk n f b :
  0 ≤ b < Z.of_nat n → make_disk n f !! b = Some (f (Z.to_nat b)).
Proof.
  intros Hb. unfold make_disk. apply elem_of_list_to_map_1.
  - rewrite <- list_fmap_compose. apply NoDup_fmap; [intros ??; simpl; lia|apply NoDup_seq].
  - apply list_elem_of_fmap. exists (Z.to_nat b). rewrite elem_of_seq. split; [f_equal; lia|lia].
Qed.

(** A file system of [n] blocks with an empty log of [size] blocks at block 2,
    all other blocks zero. *)
Definition fresh_disk (n : nat) (size : Z) : gmap Z block :=
  make_disk n (λ b, if (b =? 1)%nat then encode_sb (mksb (Z.of_nat n) 0 0 size 2 0 0) zero_block
                    else zero_block).

Lemma fresh_disk_ok (n : nat) (size : Z) :
  0 < size ≤ LOGSIZE → 2 + size ≤ Z.of_nat n ≤ 2 ^ 31 →
  disk_ok (Z.of_nat n) 2 size (fresh_disk n size).
Proof.
  intros Hsz Hn. assert (size < 2 ^ 31) by (change LOGSIZE with 30 in *; lia).
  assert (Hl : ∀ b, 0 ≤ b < Z.of_nat n → b ≠ 1 → fresh_disk n size !!! b = zero_block).
  { intros b Hb Hne. apply lookup_total_correct. unfold fresh_disk. rewrite lookup_make_disk by done.
    destruct (Nat.eqb_spec (Z.to_nat b) 1); [lia|done]. }
  assert (fresh_disk n size !!! 1 = encode_sb (mksb (Z.of_nat n) 0 0 size 2 0 0) zero_block) as E1.
  { apply lookup_total_correct. unfold fresh_disk. by rewrite lookup_make_disk by lia. }
  assert (sb_ok (mksb (Z.of_nat n) 0 0 size 2 0 0)).
  { unfold sb_ok. simpl. repeat constructor; lia. }
  split; rewrite ?E1, ?Hl by lia.
  - intros b Hb. eexists. unfold fresh_disk. rewrite lookup_make_disk by done. split; [done|].
    by destruct (_ =? 1)%nat.
  - rewrite decode_encode_sb by done. simpl. by apply i32_small.
  - rewrite decode_encode_sb by done. simpl. apply i32_small; lia.
  - lia.
  - split; [change (head_n zero_block) with 0; lia|]. constructor.
Qed.

(** An operation that has written block 7 and is about to end. *)
Definition demo_op : M (log bio) unit :=
  initlog ROOTDEV;;
  begin_op;;
  b ← in_bio (op_bread ROOTDEV 7);
  in_bio (op_set_data b (replicate BSIZE 1));;
  log_write b;;
  in_bio (op_brelse b).

Lemma demo_op_spec : wp demo_op (λ _ s, ∃ a,
  log_rep s a ∧ logged s = [7] ∧ a_view a !! 7 = Some (replicate BSIZE 1) ∧
  a_disk a !! 7 = Some zero_block ∧ a_disk a !!! 1 = fresh_disk 8 4 !!! 1 ∧
  a_view a !!! 1 = fresh_disk 8 4 !!! 1 ∧
  a_held a = ∅ ∧ a_size a = 8 ∧ l_start s = 2 ∧ l_size s = 4 ∧
  l_outstanding s = 1 ∧ l_committing s = false) (boot_log 8 (fresh_disk 8 4) 1).
Proof.
  change 8 with (Z.of_nat 8).
  destruct (boot_recovers _ _ _ _ 1 (fresh_disk_ok 8 4 ltac:(change LOGSIZE with 30; lia) ltac:(lia))) as (s1&Hi&_&_&L&Hst&Hsz&Ho&Hc&Hn).
  unfold demo_op. wp_steps. eapply wp_done; [exact Hi|]. clear Hi. wp_steps.
  eapply wp_done. { rewrite begin_op_eq by apply L. unfold admits. by rewrite Hc, Hn, Ho. }
  set (a1 := a_after _ _ _) in L. wp_steps.
  pose proof L as [R G Hh Hlk Hd Hcl].
  apply wp_in_bio. eapply wpk_bread; [exact R|simpl; lia|by rewrite held_blocks_empty| |].
  { apply room_clean; done. }
  intros i t1 Hi1 R1. wp_steps. apply wp_in_bio.
  eapply wpk_set_data; [exact R1|apply lookup_insert_eq|done|]. intros t2 R2. wp_steps.
  set (a2 := a_modify _ _ _) in R2. set (s2 := set_bio t2 _).
  assert (log_rep s2 a2) as L2 by (split; try done; [by destruct G|by destruct Hh]).
  apply (wp_log_write s2 a2 i 7); [done|apply lookup_insert_eq| | |done|].
  - unfold home_ok, log_area. simpl. lia.
  - simpl. lia.
  - intros t3 L3 n3 s3 Hs3 Hlog. apply wp_in_bio.
    eapply wpk_brelse; [apply Hs3|apply lookup_insert_eq|left; simpl; set_solver|].
    intros t4 R4. exists (a_drop i (a_pin 7 a2)). destruct Hs3 as [_ G3 H3 Hlk3 Hd3 Hc3].
    assert (logged s2 = []) as E0 by (unfold logged, s2; simpl; by rewrite Hn).
    split_and!; try done.
    + split; try done; [by destruct G3|by destruct H3].
    + change (logged s3 = [7]). by rewrite Hlog, E0.
    + simpl. by rewrite delete_insert_id.
Qed.

Lemma end_op_crash_atomic_witness : ∃ s a s' ws,
  logged s = [7] ∧ a_disk a !! 7 = Some zero_block ∧ a_view a !! 7 = Some (replicate BSIZE 1) ∧
  end_op s = Done tt s' ∧ writes (l_bio s') = writes (l_bio s) ++ ws ∧
  disk (l_bio s') !! 7 = Some (replicate BSIZE 1).
Proof.
  destruct (wp_inv _ _ _ demo_op_spec) as ([]&s&_&a&L&Hl&Hv&Hd&Hsb&Hsb'&Hh&Hn&Hst&Hsz&Ho&Hc).
  destruct (end_op_crash_atomic s a 1) as (s'&ws&He&Hw&_&_&_&Hdisk&_);
    [exact L|exact Hc|exact Ho|exact Hh|rewrite Hst; lia| | |].
  - rewrite Hsb, Hst, Hsz. by vm_compute.
  - rewrite Hsb', Hst, Hsz. by vm_compute.
  - exists s, a, s', ws. split_and!; try assumption.
    rewrite Hdisk; [exact Hv|]. rewrite Hst, Hsz. unfold log_area. lia.
Defined.

(** A disk on which a transaction that writes block 7 has committed. *)
Definition committed_disk : gmap Z block :=
  apply_writes (fresh_disk 8 4) [(3, replicate BSIZE 1); (2, encode_head zero_block 1 [7])].

Lemma committed_disk_ok : disk_ok 8 2 4 committed_disk.
Proof.
  destruct (fresh_disk_ok 8 4) as [Hb Hst Hsz Hg _]; [by vm_compute|lia|].
  split; [|by vm_compute..|lia|].
  - apply apply_writes_ok; [exact Hb|]. intros b x. rewrite !elem_of_cons, elem_of_nil.
    by intros [[= _ ->]|[[= _ ->]|[]]].
  - split; [by vm_compute|]. vm_compute. repeat constructor; [discriminate|]. by intros [_ ?].
Qed.

Lemma recovery_restartable_witness : ∃ s1 s2,
  initlog ROOTDEV (boot_log 8 committed_disk 1) = Done tt s1 ∧
  initlog ROOTDEV (boot_log 8 (apply_writes committed_disk (take 1 (writes (l_bio s1)))) 1) = Done tt s2 ∧
  lh_n s2 = 0 ∧ disk (l_bio s2) !! 7 = disk (l_bio s1) !! 7.
Proof.
  destruct (recovery_restartable 8 2 4 committed_disk 1 1) as (s1&Hi&Hn&Hk).
  - apply committed_disk_ok.
  - vm_compute. intros Hin%list_elem_of_singleton. discriminate.
  - destruct (Hk 1%nat) as (s2&a2&Hi2&_&Hn2&Hd). exists s1, s2.
    split; [exact Hi|split; [exact Hi2|split; [exact Hn2|]]]. apply Hd. unfold log_area. lia.
Defined.
