(* ===== verification/LogConc.v ===== *)
(** * Concurrent file system operations

    Several processes have operations outstanding at once, and their calls of
    [begin_op], [bread], [log_write], [brelse] and [end_op] interleave in any
    order.  The step relation of this file is that interleaving, each call one
    step (they serialise on [log.lock] and the buffer locks).  Its invariant is
    the reservation argument of the comment at the top of log.c: the log cannot
    fill up, and nothing reaches the disk before the last operation of a group
    ends. *)

From S2P Require Import Prelude Params Block Sleeplock Bio BioSpec Format Log LogSpec Crash.

Section concurrent.
Context {S : Type} `{BlockSpec S}.
(** Blocks on the disk, and where the log is. *)
Context (nblocks logstart logsize : Z).
(** The number of distinct blocks an operation may log. *)
Context (lim : Z) (Hlim : 0 ≤ lim ≤ MAXOPBLOCKS).

(** The log, and three pieces of book-keeping: the distinct blocks each
    outstanding operation has logged, the locked buffers, and the blocks
    modified since they were last logged. *)
Record sys := mksys {
  sy_log : log S;
  sy_ops : gmap nat (gset Z);
  sy_held : gmap nat Z;
  sy_fresh : gset Z
}.

Inductive step : sys → sys → Prop :=
  | st_begin p s s' ops held fr :
      ops !! p = None → begin_op s = Done tt s' →
      step (mksys s ops held fr) (mksys s' (<[p:=∅]> ops) held fr)
  | st_bread s t' ops held fr b i :
      0 ≤ b < nblocks → b ∉ (map_img held : gset Z) →
      (size ({[b]} ∪ list_to_set (logged s) ∪ map_img held : gset Z) ≤ NBUF)%nat →
      op_bread ROOTDEV b (l_bio s) = Done i t' →
      step (mksys s ops held fr) (mksys (set_bio t' s) ops (<[i:=b]> held) fr)
  | st_modify s t' ops held fr b i d :
      held !! i = Some b → length d = BSIZE → op_set_data i d (l_bio s) = Done tt t' →
      step (mksys s ops held fr) (mksys (set_bio t' s) ops held ({[b]} ∪ fr))
  | st_log_write p s s' ops held fr b i X :
      ops !! p = Some X → held !! i = Some b →
      ¬ log_area (l_start s) (l_size s) b →
      Z.of_nat (size ({[b]} ∪ X)) ≤ lim →
      log_write i s = Done tt s' →
      step (mksys s ops held fr) (mksys s' (<[p:={[b]} ∪ X]> ops) held (fr ∖ {[b]}))
  | st_brelse s t' ops held fr b i :
      held !! i = Some b → b ∉ fr → op_brelse i (l_bio s) = Done tt t' →
      step (mksys s ops held fr) (mksys (set_bio t' s) ops (delete i held) fr)
  | st_end p s s' ops held fr X :
      ops !! p = Some X → (size ops = 1%nat → held = ∅) → end_op s = Done tt s' →
      step (mksys s ops held fr) (mksys s' (delete p ops) held fr).

(** ** Reservations *)

(** The log blocks reserved for operations and not used yet. *)
Definition reserve (ops : gmap nat (gset Z)) : Z :=
  map_fold (λ _ X acc, (lim - Z.of_nat (size X)) + acc) 0 ops.

Lemma reserve_insert p X ops : ops !! p = None →
  reserve (<[p:=X]> ops) = lim - Z.of_nat (size X) + reserve ops.
Proof. intros. unfold reserve. rewrite map_fold_insert_L; [done|intros; lia|done]. Qed.

Lemma reserve_delete p X ops : ops !! p = Some X →
  reserve ops = lim - Z.of_nat (size X) + reserve (delete p ops).
Proof. intros. unfold reserve. rewrite (map_fold_delete_L _ _ p X ops); [done|intros; lia|done]. Qed.

Lemma reserve_update p X Y ops : ops !! p = Some X →
  reserve (<[p:=Y]> ops) = reserve ops + Z.of_nat (size X) - Z.of_nat (size Y).
Proof.
  intros Hp. rewrite (reserve_delete p X ops Hp), <- insert_delete_eq, reserve_insert; [lia|].
  apply lookup_delete_eq.
Qed.

(** Every operation stays within its limit. *)
Definition within (ops : gmap nat (gset Z)) : Prop :=
  map_Forall (λ _ X, Z.of_nat (size X) ≤ lim) ops.

Lemma reserve_bounds ops : within ops →
  0 ≤ reserve ops ≤ lim * Z.of_nat (size ops).
Proof.
  induction ops as [|p X ops Hp IH] using map_ind; intros Hw; [unfold reserve; rewrite map_fold_empty, map_size_empty; lia|].
  apply map_Forall_insert in Hw as [HX Hw]; [|done]. specialize (IH Hw).
  rewrite reserve_insert, map_size_insert_None by done. lia.
Qed.

(** ** The invariant *)

Record sys_inv (σ : sys) (a : bstate) : Prop := {
  si_log : log_rep (sy_log σ) a;
  si_held : a_held a = sy_held σ;
  si_geom : a_size a = nblocks ∧ l_start (sy_log σ) = logstart ∧ l_size (sy_log σ) = logsize;
  si_committing : l_committing (sy_log σ) = false;
  si_outstanding : l_outstanding (sy_log σ) = Z.of_nat (size (sy_ops σ));
  si_logged : map_Forall (λ _ X, ∀ b, b ∈ X → b ∈ logged (sy_log σ)) (sy_ops σ);
  si_within : within (sy_ops σ);
  si_budget : lh_n (sy_log σ) + reserve (sy_ops σ) ≤ LOGSIZE - 2 * (MAXOPBLOCKS - lim);
  si_idle : sy_ops σ = ∅ → lh_n (sy_log σ) = 0;
  si_fresh : ∀ b, b ∉ sy_fresh σ → b ∈ a_dirty a ∨ a_view a !! b = a_disk a !! b
}.

(** A step keeps the disk as it is. *)
Definition disk_kept (a a' : bstate) : Prop := a_disk a' = a_disk a ∧ a_writes a' = a_writes a.

(** A step of the block layer that pins nothing. *)
Lemma log_rep_bio (s : log S) a a' t' :
  log_rep s a → block_rep t' a' → a_size a' = a_size a → a_dirty a' = a_dirty a →
  a_disk a' = a_disk a → log_rep (set_bio t' s) a'.
Proof.
  intros [R [] [] Hl Hd Hc] R' Es Ed Ek. unfold home_ok in *.
  split; try done; [split; rewrite ?Es; done|split; try done|by rewrite Ed|by rewrite Ek].
  unfold home_ok. by rewrite Es.
Qed.

Lemma inv_begin p s s' ops held fr a :
  sys_inv (mksys s ops held fr) a → ops !! p = None → begin_op s = Done tt s' →
  sys_inv (mksys s' (<[p:=∅]> ops) held fr) a.
Proof.
  intros [L Hh Hs Hc Ho Hg Hw Hb Hid Hf] Hp Hbg. simpl in *.
  rewrite begin_op_eq in Hbg by apply L. destruct (admits s) eqn:Ha; [|done].
  injection Hbg as <-. unfold admits in Ha. apply andb_prop in Ha as [_ Ha%Z.leb_le].
  pose proof (reserve_bounds ops Hw) as Hr. split; simpl; try done.
  - destruct L as [? [] [] ? ? ?]. split; done || (split; done).
  - rewrite map_size_insert_None by done. lia.
  - apply map_Forall_insert_2; [set_solver|done].
  - apply map_Forall_insert_2; [rewrite size_empty; lia|done].
  - rewrite reserve_insert, size_empty by done. change MAXOPBLOCKS with 10 in *.
    change LOGSIZE with 30 in *. destruct (decide (ops = ∅)) as [E|E].
    + rewrite Hid by done. subst ops. unfold reserve. rewrite map_fold_empty. lia.
    + apply map_size_non_empty_iff in E. nia.
  - intros E. by apply insert_non_empty in E.
Qed.

Lemma inv_bread s t' ops held fr a b i :
  sys_inv (mksys s ops held fr) a → 0 ≤ b < nblocks → b ∉ (map_img held : gset Z) →
  (size ({[b]} ∪ list_to_set (logged s) ∪ map_img held : gset Z) ≤ NBUF)%nat →
  op_bread ROOTDEV b (l_bio s) = Done i t' →
  sys_inv (mksys (set_bio t' s) ops (<[i:=b]> held) fr) (a_hold i b a).
Proof.
  intros [L Hh Hs Hc Ho Hg Hw Hb Hid Hf] Hr Hnh Hroom Hrd. simpl in *. subst held. rewrite <- (proj1 Hs) in Hr.
  eapply wp_elim in Hrd; [|apply (wp_bread _ a); [apply L|done|done|]].
  2:{ unfold has_room, held_blocks. by rewrite (lr_dirty _ _ L). }
  destruct Hrd as [Hi R']. split; try done. by eapply log_rep_bio.
Qed.

Lemma inv_modify s t' ops held fr a b i d :
  sys_inv (mksys s ops held fr) a → held !! i = Some b → length d = BSIZE →
  op_set_data i d (l_bio s) = Done tt t' →
  sys_inv (mksys (set_bio t' s) ops held ({[b]} ∪ fr)) (a_modify b d a).
Proof.
  intros [L Hh Hs Hc Ho Hg Hw Hb Hid Hf] Hi Hd Hm. simpl in *. subst held.
  eapply wp_elim in Hm; [|by apply (wp_set_data _ a _ b); [apply L|..]].
  split; try done; simpl in *; [by eapply log_rep_bio|].
  intros b' [Hne Hnf]%not_elem_of_union. rewrite lookup_insert_ne by set_solver. auto.
Qed.

Lemma inv_brelse s t' ops held fr a b i :
  sys_inv (mksys s ops held fr) a → held !! i = Some b → b ∉ fr →
  op_brelse i (l_bio s) = Done tt t' →
  sys_inv (mksys (set_bio t' s) ops (delete i held) fr) (a_drop i a).
Proof.
  intros [L Hh Hs Hc Ho Hg Hw Hb Hid Hf] Hi Hnf Hm. simpl in *. subst held.
  eapply wp_elim in Hm; [|apply (wp_brelse _ a _ b); [apply L|done|by apply Hf]].
  split; try done. by eapply log_rep_bio.
Qed.

(** A full log refuses a block. *)
Lemma log_write_full i (s : log S) :
  l_size s - 1 ≤ lh_n s → log_write i s = Panic "too big a transaction".
Proof.
  intros Hn. unfold log_write, mbind, M_bind, gets, id.
  rewrite (proj2 (Z.leb_le _ _) Hn), orb_true_r. done.
Qed.

Lemma log_add_sub b b' bs : b' ∈ bs → b' ∈ log_add b bs.
Proof. unfold log_add. case_decide; set_solver. Qed.

Lemma log_add_in b bs : b ∈ log_add b bs.
Proof. unfold log_add. case_decide; set_solver. Qed.

Lemma length_log_add b bs :
  length (log_add b bs) = if decide (b ∈ bs) then length bs else Datatypes.S (length bs).
Proof. unfold log_add. case_decide; [done|]. rewrite length_app. simpl. lia. Qed.

Lemma inv_log_write p s s' ops held fr a b i X :
  sys_inv (mksys s ops held fr) a → ops !! p = Some X → held !! i = Some b →
  ¬ log_area (l_start s) (l_size s) b → Z.of_nat (size ({[b]} ∪ X)) ≤ lim →
  log_write i s = Done tt s' →
  sys_inv (mksys s' (<[p:={[b]} ∪ X]> ops) held (fr ∖ {[b]})) (a_pin b a).
Proof.
  intros [L Hh Hs Hc Ho Hg Hw Hb Hid Hf] Hp Hi Harea Hsx Hlw. simpl in *. subst held.
  destruct (decide (l_size s - 1 ≤ lh_n s)) as [Hfull|Hn]; [by rewrite log_write_full in Hlw|].
  assert (1 ≤ l_outstanding s) as Ho1.
  { rewrite Ho. assert (size ops ≠ 0%nat); [|lia]. intros E%map_size_empty_iff. by subst. }
  assert (home_ok s a b) as Hhome by (split; [eapply block_held_range; [apply L|done]|done]).
  pose proof (Hg p X Hp) as HX. simpl in HX.
  revert Hlw. apply (wp_elim _ (λ _ s', sys_inv (mksys s' _ _ _) _)).
  apply (wp_log_write s a i b); [done|done|done|lia|done|].
  intros t' L' n' s1 L1 Hlog. split; simpl; try done.
  - by rewrite Ho, map_size_insert_Some by eauto.
  - apply map_Forall_insert_2.
    + intros b' Hb'. rewrite Hlog. apply elem_of_union in Hb' as [Hb'|Hb'].
      * apply elem_of_singleton in Hb' as ->. apply log_add_in.
      * by apply log_add_sub, HX.
    + intros q Y HY b' Hb'. rewrite Hlog. eapply log_add_sub, Hg; [exact HY|done].
  - by apply map_Forall_insert_2.
  - pose proof (length_logged _ _ (lr_geom _ _ L) (lr_head _ _ L)) as E0.
    pose proof (length_logged _ _ (lr_geom _ _ L1) (lr_head _ _ L1)) as E1.
    rewrite Hlog, length_log_add in E1. simpl in E1. rewrite (reserve_update p X) by done.
    assert (size X ≤ size ({[b]} ∪ X))%nat by (apply subseteq_size; set_solver).
    case_decide; [lia|]. rewrite size_union, size_singleton; [lia|].
    intros b' ->%elem_of_singleton Hb'. by apply HX in Hb'.
  - intros E. by apply insert_non_empty in E.
  - intros b' Hb'. destruct (decide (b' = b)) as [->|Hne]; [left; set_solver|].
    destruct (Hf b') as [?|?]; [set_solver|left; set_solver|by right].
Qed.

Lemma inv_end p s s' ops held fr a X :
  sys_inv (mksys s ops held fr) a → ops !! p = Some X → (size ops = 1%nat → held = ∅) →
  end_op s = Done tt s' →
  ∃ a', sys_inv (mksys s' (delete p ops) held fr) a' ∧ (disk_kept a a' ∨ delete p ops = ∅).
Proof.
  intros [L Hh Hs Hc Ho Hg Hw Hb Hid Hf] Hp Hlast He. simpl in *. subst held.
  pose proof (reserve_delete p X ops Hp) as Hres. pose proof (Hw p X Hp) as HX. simpl in HX.
  assert (size (delete p ops) = size ops - 1)%nat as Hsz by (rewrite map_size_delete_Some by eauto; lia).
  assert (size ops ≠ 0%nat) as Hne by (intros E%map_size_empty_iff; by subst).
  assert (Hg' : map_Forall (λ _ X, ∀ b, b ∈ X → b ∈ logged s) (delete p ops)) by by apply map_Forall_delete.
  assert (Hw' : within (delete p ops)) by by apply map_Forall_delete.
  destruct (decide (size ops = 1%nat)) as [E1|E1].
  - assert (delete p ops = ∅) as Ee by (apply map_size_empty_iff; lia). rewrite Ee in *.
    specialize (Hlast E1). revert He.
    apply (wp_elim _ (λ _ s', ∃ a', sys_inv (mksys s' ∅ _ _) a' ∧ _)).
    apply (wp_end_op s a); [done|done|rewrite Ho, E1; done|done| |].
    + intros Hn0. exists a. split; [|by right]. split; simpl; try done.
      * destruct L as [? [] [] ? ? ?]. split; done || (split; done).
      * rewrite Hn0. unfold reserve. rewrite map_fold_empty. change MAXOPBLOCKS with 10 in *.
        change LOGSIZE with 30. lia.
    + intros Hn t' R'. eexists. split; [|by right].
      assert (log_rep (wake_log (set_outstanding 0 (set_lh_n 0 (set_bio t' s))))
                      (a_after (commit_writes s a) ∅ a)) as L'
        by (eapply commit_log_rep; try done; apply L).
      split; simpl; try done.
      { unfold reserve. rewrite map_fold_empty. change MAXOPBLOCKS with 10 in *.
        change LOGSIZE with 30. lia. }
      right. apply (block_clean _ _ R'); [apply not_elem_of_empty|].
      rewrite held_blocks_empty by done. apply not_elem_of_empty.
  - exists a. split; [|by left]. rewrite end_op_busy in He; [|apply L|done|lia]. injection He as <-.
    split; simpl; try done.
    + destruct L as [? [] [] ? ? ?]. split; done || (split; done).
    + lia.
    + lia.
    + intros E. rewrite E, map_size_empty in Hsz. lia.
Qed.

Lemma log_step_inv σ σ' a : sys_inv σ a → step σ σ' →
  ∃ a', sys_inv σ' a' ∧ (disk_kept a a' ∨ sy_ops σ' = ∅).
Proof.
  intros I Hs. destruct Hs.
  - eexists. split; [by eapply inv_begin|by left].
  - eexists. split; [by eapply inv_bread|by left].
  - eexists. split; [by eapply inv_modify|by left].
  - eexists. split; [by eapply inv_log_write|by left].
  - eexists. split; [by eapply inv_brelse|by left].
  - by eapply inv_end.
Qed.

Lemma steps_inv σ σ' a : sys_inv σ a → rtc step σ σ' → ∃ a', sys_inv σ' a'.
Proof.
  intros I Hs. revert a I. induction Hs as [|σ σ1 σ' Hs _ IH]; intros a I; [eauto|].
  destruct (log_step_inv _ _ _ I Hs) as (a1&I1&_). eauto.
Qed.

(** An idle log satisfies the invariant. *)
Lemma idle_inv (s : log S) a : log_rep s a → a_held a = ∅ → 
  a_size a = nblocks → l_start s = logstart → l_size s = logsize → l_committing s = false → l_outstanding s = 0 → lh_n s = 0 → sys_inv (mksys s ∅ ∅ ∅) a.
Proof.
  intros L Hh Hs Hst Hsz Hc Ho Hn. split; simpl; try done; [|].
  { rewrite Hn. unfold reserve. rewrite map_fold_empty. change MAXOPBLOCKS with 10 in *.
    change LOGSIZE with 30. lia. }
  intros b _. right. apply (block_clean _ _ (lr_bio _ _ L)).
  - rewrite (lr_dirty _ _ L). unfold logged. rewrite Hn. apply not_elem_of_empty.
  - rewrite held_blocks_empty by done. apply not_elem_of_empty.
Qed.
End concurrent.

(** ** Properties

    The log of a booted machine over the buffer cache, and every interleaving
    of operations from there. *)

Lemma booted_inv n start d pid lim (s0 : log bio) σ :
  disk_ok n start LOGSIZE d → 0 ≤ lim ≤ MAXOPBLOCKS →
  initlog ROOTDEV (boot_log n d pid) = Done tt s0 →
  rtc (step n lim) (mksys s0 ∅ ∅ ∅) σ → ∃ a, sys_inv n start LOGSIZE lim σ a.
Proof.
  intros Hok Hlim Hboot. destruct (boot_recovers _ _ _ _ pid Hok) as (s1&Hi&_&_&L&Hst&Hsz&Ho&Hc&Hn).
  rewrite Hboot in Hi. injection Hi as <-. clear Hboot.
  apply steps_inv with (a := a_after (recover_writes start d) ∅ (boot_state n d)); [exact Hlim|].
  apply idle_inv; try assumption; reflexivity.
Qed.

(** C6: the log never fills up.  Boot a machine whose log has the size mkfs
    gives it (LOGSIZE blocks), and interleave any number of operations none of
    which logs more than MAXOPBLOCKS - 1 distinct blocks.  Then every
    [log_write] of an operation within that limit returns, with the block in
    the transaction exactly once: none of its panics happens. *)
Theorem log_never_overflows n start d pid s0 s ops held fr p X i b :
  disk_ok n start LOGSIZE d → initlog ROOTDEV (boot_log n d pid) = Done tt s0 →
  rtc (step n (MAXOPBLOCKS - 1)) (mksys s0 ∅ ∅ ∅) (mksys s ops held fr) →
  ops !! p = Some X → held !! i = Some b → ¬ log_area start LOGSIZE b →
  Z.of_nat (size ({[b]} ∪ X)) ≤ MAXOPBLOCKS - 1 →
  ∃ s', log_write i s = Done tt s' ∧ logged s' = log_add b (logged s).
Proof.
  intros Hok Hb Hs Hp Hi Ha Hlim.
  assert (0 ≤ MAXOPBLOCKS - 1 ≤ MAXOPBLOCKS) as Hl by (change MAXOPBLOCKS with 10; lia).
  destruct (booted_inv _ _ _ _ _ _ _ Hok Hl Hb Hs) as (a&[L Hh (Hn&Hst&Hsz) Hc Ho Hg Hw Hbud Hid Hf]).
  clear Hb Hs. simpl in *. subst held.
  pose proof (reserve_bounds _ ops Hw) as Hpos.
  assert (size ops ≠ 0%nat) as Hne by (intros E%map_size_empty_iff; by subst).
  assert (wp (log_write i) (λ _ s', logged s' = log_add b (logged s)) s) as W.
  { apply (wp_log_write s a i b); try done.
    - split; [eapply block_held_range; [apply L|done]|by rewrite Hst, Hsz].
    - rewrite Hsz. change MAXOPBLOCKS with 10 in *. change LOGSIZE with 30 in *. lia.
    - lia. }
  apply wp_inv in W as ([]&s'&?&?). eauto.
Qed.


(** An operation that logs MAXOPBLOCKS blocks. *)
Definition full_operation (from : Z) : M (log bio) unit :=
  for_range (Z.to_nat MAXOPBLOCKS) from (λ b,
    i ← in_bio (op_bread ROOTDEV b);
    log_write i;;
    in_bio (op_brelse i)).

(** the reservation of [begin_op] is one block larger than what [log_write]
    accepts.  On a disk with the log mkfs makes, three operations are admitted
    together, and when each of them logs MAXOPBLOCKS distinct blocks (30 in
    all, which the test of [begin_op] allows) the last [log_write] panics; so
    the bound MAXOPBLOCKS - 1 of [log_never_overflows] is sharp. *)
Theorem three_full_operations_panic :
  ∃ s3,
    (initlog ROOTDEV;; begin_op;; begin_op;; begin_op) (boot_log 70 (fresh_disk 70 LOGSIZE) 1)
      = Done tt s3 ∧
    (full_operation 40;; full_operation 50;; full_operation 60) s3 = Panic "too big a transaction".
Proof.
  assert (wp (initlog ROOTDEV;; begin_op;; begin_op;; begin_op)
    (λ _ s3, (full_operation 40;; full_operation 50;; full_operation 60) s3
               = Panic "too big a transaction")
    (boot_log 70 (fresh_disk 70 LOGSIZE) 1)) as W by (vm_compute; reflexivity).
  apply wp_inv in W as ([]&s3&E&?). exists s3. split; [exact E|assumption].
Qed.

(** *** Two operations on a booted machine: one has read block 40, the other
    is still running. *)

Lemma two_operations : ∃ s0 s i,
  initlog ROOTDEV (boot_log 70 (fresh_disk 70 LOGSIZE) 1) = Done tt s0 ∧ logged s = [] ∧
  rtc (step 70 (MAXOPBLOCKS - 1)) (mksys s0 ∅ ∅ ∅) (mksys s {[1%nat:=∅; 2%nat:=∅]} {[i:=40]} ∅) ∧
  rtc (step 70 MAXOPBLOCKS) (mksys s0 ∅ ∅ ∅) (mksys s {[1%nat:=∅; 2%nat:=∅]} {[i:=40]} ∅).
Proof.
  assert (disk_ok 70 2 LOGSIZE (fresh_disk 70 LOGSIZE)) as Hok
    by (apply (fresh_disk_ok 70 LOGSIZE); change LOGSIZE with 30; lia).
  destruct (boot_recovers _ _ _ _ 1 Hok) as (s0&Hi&_&_&L&Hst&Hsz&Ho&Hc&Hn).
  set (s2 := set_outstanding 2 s0). set (a := a_after _ _ _) in L.
  assert (begin_op s0 = Done tt (set_outstanding 1 s0)) as B1.
  { rewrite begin_op_eq by apply L. unfold admits. by rewrite Hc, Hn, Ho. }
  assert (begin_op (set_outstanding 1 s0) = Done tt s2) as B2.
  { rewrite begin_op_eq by apply L. unfold admits. simpl. by rewrite Hc, Hn. }
  assert (wp (op_bread ROOTDEV 40) (λ i t', True) (l_bio s2)) as W.
  { eapply wp_mono; [apply (wp_bread _ a 40)|done]; [apply L|simpl; lia|by rewrite held_blocks_empty|].
    apply room_clean; [done|]. rewrite (lr_dirty _ _ L). unfold logged. by rewrite Hn. }
  apply wp_inv in W as (i&t'&E&_).
  assert (logged s2 = []) as Hl by (unfold logged; simpl; by rewrite Hn).
  exists s0, (set_bio t' s2), i. split; [exact Hi|split; [exact Hl|]]. clear Hi.
  assert (∀ lim, rtc (step 70 lim) (mksys s0 ∅ ∅ ∅)
            (mksys (set_bio t' s2) {[1%nat:=∅; 2%nat:=∅]} {[i:=40]} ∅)); [|done].
  intros lim. eapply rtc_l; [by apply (st_begin _ _ 2)|]. eapply rtc_l; [by apply (st_begin _ _ 1)|].
  eapply rtc_once. apply st_bread; [lia| | |exact E].
  - rewrite map_img_empty. apply not_elem_of_empty.
  - rewrite Hl. vm_compute. lia.
Qed.

Lemma log_never_overflows_witness : ∃ i s s',
  log_write i s = Done tt s' ∧ logged s' = [40].
Proof.
  destruct two_operations as (s0&s&i&Hi&Hl&Hs&_).
  destruct (log_never_overflows 70 2 (fresh_disk 70 LOGSIZE) 1 s0 s {[1%nat:=∅; 2%nat:=∅]} {[i:=40]} ∅ 1 ∅ i 40) as (s'&Hw&E).
  - apply (fresh_disk_ok 70 LOGSIZE); change LOGSIZE with 30; lia.
  - exact Hi.
  - exact Hs.
  - reflexivity.
  - apply lookup_insert_eq.
  - unfold log_area. change LOGSIZE with 30. lia.
  - by vm_compute.
  - exists i, s, s'. split; [exact Hw|]. rewrite E, Hl. reflexivity.
Defined.

