(* ===== verification/Tx.v ===== *)
(** * The transaction layer's contract

    What log.c and bio.c together promise to fs.c while an operation is
    outstanding: reads see the latest modification, a modified buffer must be
    passed to [log_write] before it is released, and there is room for a
    bounded number of distinct blocks.  [Fs] is verified against this
    interface; the second half of the file discharges it with the log over the
    buffer cache. *)

From S2P Require Import Prelude Params Block Format Log LogSpec.

(** ** The abstract transaction *)

Record txst := mktx {
  x_size : Z;                  (** blocks on the disk *)
  x_log : Z * Z;               (** first block and size of the log area *)
  x_ops : Z;                   (** operations outstanding *)
  x_view : gmap Z block;       (** contents a reader sees *)
  x_disk : gmap Z block;       (** contents on disk *)
  x_held : gmap nat Z;         (** locked buffers *)
  x_fresh : gset Z;            (** modified since last passed to log_write *)
  x_logged : gset Z            (** blocks of the transaction *)
}.

Definition x_hold (i : nat) (b : Z) (x : txst) : txst :=
  mktx (x_size x) (x_log x) (x_ops x) (x_view x) (x_disk x) (<[i:=b]> (x_held x)) (x_fresh x) (x_logged x).
Definition x_drop (i : nat) (x : txst) : txst :=
  mktx (x_size x) (x_log x) (x_ops x) (x_view x) (x_disk x) (delete i (x_held x)) (x_fresh x) (x_logged x).
Definition x_modify (b : Z) (d : block) (x : txst) : txst :=
  mktx (x_size x) (x_log x) (x_ops x) (<[b:=d]> (x_view x)) (x_disk x) (x_held x) ({[b]} ∪ x_fresh x) (x_logged x).
Definition x_write (b : Z) (x : txst) : txst :=
  mktx (x_size x) (x_log x) (x_ops x) (x_view x) (x_disk x) (x_held x) (x_fresh x ∖ {[b]}) ({[b]} ∪ x_logged x).

(** Block [b] set to [d] and logged: the effect of bread, stores, log_write,
    brelse. *)
Definition x_put (b : Z) (d : block) (x : txst) : txst :=
  mktx (x_size x) (x_log x) (x_ops x) (<[b:=d]> (x_view x)) (x_disk x) (x_held x) (x_fresh x) ({[b]} ∪ x_logged x).

Definition x_held_blocks (x : txst) : gset Z := map_img (x_held x).

(** The number of blocks a transaction can hold. *)
Definition x_max (x : txst) : Z := snd (x_log x) - 1.

(** [k] more blocks can be logged. *)
Definition room (k : nat) (x : txst) : Prop :=
  Z.of_nat (size (x_logged x) + k) ≤ x_max x ∧
  (size (x_logged x) + size (x_held x) + k < NBUF)%nat.

(** A block that may be modified by an operation. *)
Definition x_home (b : Z) (x : txst) : Prop :=
  0 ≤ b < x_size x ∧ ¬ log_area (fst (x_log x)) (snd (x_log x)) b.

(** ** The interface *)

Class TxOps (S : Type) := {
  tx_block :: BlockOps S;
  op_log_write : nat → M S unit
}.

Class TxSpec (S : Type) `{TxOps S} := {
  tx_rep : S → txst → Prop;

  tx_view_ok s x : tx_rep s x →
    ∀ b, 0 ≤ b < x_size x → ∃ d, x_view x !! b = Some d ∧ length d = BSIZE;

  tx_bread s x b : tx_rep s x → 0 ≤ b < x_size x → b ∉ x_held_blocks x → room 0 x →
    wp (op_bread ROOTDEV b) (λ i s', x_held x !! i = None ∧ tx_rep s' (x_hold i b x)) s;
  tx_data s x i b : tx_rep s x → x_held x !! i = Some b →
    wp (op_data i) (λ d s', s' = s ∧ x_view x !! b = Some d) s;
  tx_set_data s x i b d : tx_rep s x → x_held x !! i = Some b → length d = BSIZE →
    wp (op_set_data i d) (λ _ s', tx_rep s' (x_modify b d x)) s;
  tx_log_write s x i b : tx_rep s x → x_held x !! i = Some b → x_home b x →
    Z.of_nat (size (x_logged x)) < x_max x →
    wp (op_log_write i) (λ _ s', tx_rep s' (x_write b x)) s;
  tx_brelse s x i b : tx_rep s x → x_held x !! i = Some b → b ∉ x_fresh x →
    wp (op_brelse i) (λ _ s', tx_rep s' (x_drop i x)) s
}.

(** ** Facts about the abstract transaction *)

Lemma x_drop_hold i b x : x_held x !! i = None → x_drop i (x_hold i b x) = x.
Proof. intros. destruct x. unfold x_drop, x_hold; simpl in *. by rewrite delete_insert_id. Qed.

Lemma room_weaken k j x : (j ≤ k)%nat → room k x → room j x.
Proof. intros ? []. split; lia. Qed.

Lemma room_put k b d x : room (S k) x → room k (x_put b d x).
Proof. intros [H1 H2]. pose proof (size_add_le b (x_logged x)). split; simpl; unfold x_max in *; simpl in *; lia. Qed.

Lemma room_put_again k b d x : b ∈ x_logged x → room k x → room k (x_put b d x).
Proof.
  intros Hb [H1 H2]. assert ({[b]} ∪ x_logged x = x_logged x) as E by set_solver.
  split; simpl; rewrite E; done.
Qed.

Lemma room_hold k i b x : x_held x !! i = None → room (S k) x → room k (x_hold i b x).
Proof.
  intros Hi [H1 H2]. split; unfold x_max in *; simpl in *; [lia|].
  rewrite map_size_insert_None by done. lia.
Qed.

Lemma x_put_put b d d' x : x_put b d' (x_put b d x) = x_put b d' x.
Proof.
  unfold x_put. simpl. rewrite insert_insert_eq. f_equal. set_solver.
Qed.

Section continuation.
Context {S : Type} `{TxSpec S}.

Lemma txk_bread s x b (Q : nat → S → Prop) :
  tx_rep s x → 0 ≤ b < x_size x → b ∉ x_held_blocks x → room 0 x →
  (∀ i s', x_held x !! i = None → tx_rep s' (x_hold i b x) → Q i s') →
  wp (op_bread ROOTDEV b) Q s.
Proof. intros R Hb Hh Hr HQ. eapply wp_mono; [by eapply tx_bread|]. naive_solver. Qed.

Lemma txk_data s x i b (Q : block → S → Prop) :
  tx_rep s x → x_held x !! i = Some b → (∀ d, x_view x !! b = Some d → Q d s) →
  wp (op_data i) Q s.
Proof. intros R Hi HQ. eapply wp_mono; [by eapply tx_data|]. intros d s' [-> ?]. auto. Qed.

Lemma txk_set_data s x i b d (Q : unit → S → Prop) :
  tx_rep s x → x_held x !! i = Some b → length d = BSIZE →
  (∀ s', tx_rep s' (x_modify b d x) → Q tt s') → wp (op_set_data i d) Q s.
Proof. intros R Hi Hl HQ. eapply wp_mono; [by eapply tx_set_data|]. intros []. auto. Qed.

Lemma txk_log_write s x i b (Q : unit → S → Prop) :
  tx_rep s x → x_held x !! i = Some b → x_home b x → Z.of_nat (size (x_logged x)) < x_max x →
  (∀ s', tx_rep s' (x_write b x) → Q tt s') → wp (op_log_write i) Q s.
Proof. intros R Hi Hb Hn HQ. eapply wp_mono; [by eapply tx_log_write|]. intros []. auto. Qed.

Lemma txk_brelse s x i b (Q : unit → S → Prop) :
  tx_rep s x → x_held x !! i = Some b → b ∉ x_fresh x →
  (∀ s', tx_rep s' (x_drop i x) → Q tt s') → wp (op_brelse i) Q s.
Proof. intros R Hi Hb HQ. eapply wp_mono; [by eapply tx_brelse|]. intros []. auto. Qed.

Lemma tx_view_total s x b : tx_rep s x → 0 ≤ b < x_size x →
  x_view x !! b = Some (x_view x !!! b) ∧ length (x_view x !!! b) = BSIZE.
Proof.
  intros R Hb. destruct (tx_view_ok s x R b Hb) as (d&Hd&Hl).
  by rewrite (lookup_total_correct _ _ _ Hd).
Qed.
End continuation.

(** ** The log over the buffer cache implements the interface *)

Section log_tx.
Context {S : Type} `{BlockSpec S}.

#[export] Instance log_block_ops : BlockOps (log S) := {
  op_bread dev b := in_bio (op_bread dev b);
  op_bwrite i := in_bio (op_bwrite i);
  op_brelse i := in_bio (op_brelse i);
  op_data i := in_bio (op_data i);
  op_set_data i d := in_bio (op_set_data i d);
  op_blockno i := in_bio (op_blockno i);
  op_pin i := in_bio (op_pin i)
}.

#[export] Instance log_tx_ops : TxOps (log S) := {
  tx_block := log_block_ops;
  op_log_write := log_write
}.

(** The log, with an operation outstanding, as an abstract transaction. *)
Record log_tx_rep (s : log S) (x : txst) (a : bstate) : Prop := {
  lt_log : log_rep s a;
  lt_out : l_outstanding s = x_ops x ∧ 1 ≤ x_ops x;
  lt_committing : l_committing s = false;
  lt_nodup : NoDup (logged s);
  lt_size : a_size a = x_size x;
  lt_area : x_log x = (l_start s, l_size s);
  lt_view : a_view a = x_view x;
  lt_disk : a_disk a = x_disk x;
  lt_held : a_held a = x_held x;
  lt_logged : list_to_set (logged s) = x_logged x;
  lt_fresh : ∀ b, b ∉ x_fresh x → b ∈ a_dirty a ∨ a_view a !! b = a_disk a !! b
}.

Lemma size_map_img (m : gmap nat Z) : (size (map_img m : gset Z) ≤ size m)%nat.
Proof.
  induction m as [|i b m Hi IH] using map_ind.
  - by rewrite map_img_empty_L.
  - rewrite map_img_insert_notin_L, map_size_insert_None by done.
    pose proof (size_add_le b (map_img m)). lia.
Qed.

Lemma lt_room s x a b : log_tx_rep s x a → room 0 x → has_room b a.
Proof.
  intros T [_ Hr]. unfold has_room, held_blocks.
  rewrite (lr_dirty _ _ (lt_log _ _ _ T)), (lt_logged _ _ _ T), (lt_held _ _ _ T).
  pose proof (size_map_img (x_held x)). pose proof (size_union_alt ({[b]} ∪ x_logged x) (map_img (x_held x))).
  pose proof (subseteq_size (map_img (x_held x) ∖ ({[b]} ∪ x_logged x)) (map_img (x_held x)) ltac:(set_solver)).
  pose proof (size_add_le b (x_logged x)). lia.
Qed.

Lemma lt_log_rep (s s' : log S) a a' : log_rep s a → block_rep (l_bio s') a' →
  (l_lock s', l_start s', l_size s', l_dev s', lh_n s', lh_block s') =
  (l_lock s, l_start s, l_size s, l_dev s, lh_n s, lh_block s) →
  a_size a' = a_size a → a_dirty a' = a_dirty a → a_disk a' = a_disk a → log_rep s' a'.
Proof.
  intros [R [] [] Hl Hd Hc] R' [= E1 E2 E3 E4 E5 E6] Es Ed Ek. unfold home_ok, logged in *.
  split; try done; rewrite ?E1, ?E2, ?E3, ?E4, ?E5, ?E6, ?Es, ?Ed, ?Ek; try done.
  - split; by rewrite ?E1, ?E2, ?E3, ?E4, ?E5, ?E6, ?Es.
  - split; rewrite ?E1, ?E2, ?E3, ?E4, ?E5, ?E6, ?Es; try done.
    unfold home_ok, logged. by rewrite E2, E3, E5, E6, Es.
  - unfold logged. by rewrite E5, E6.
Qed.

Lemma NoDup_log_add b bs : NoDup bs → NoDup (log_add b bs).
Proof.
  intros. unfold log_add. case_decide; [done|]. apply NoDup_app. split_and!; [done| |apply NoDup_singleton].
  intros y Hy ->%list_elem_of_singleton. done.
Qed.

Lemma list_to_set_log_add b bs : list_to_set (log_add b bs) = ({[b]} ∪ list_to_set bs : gset Z).
Proof.
  unfold log_add. case_decide; [set_solver|]. rewrite list_to_set_app_L. simpl. set_solver.
Qed.

#[export] Program Instance log_tx_spec : TxSpec (log S) := {
  tx_rep s x := ∃ a, log_tx_rep s x a
}.
Next Obligation.
  intros s x (a&T) b Hb. rewrite <- (lt_view _ _ _ T). apply (block_view_ok _ _ (lr_bio _ _ (lt_log _ _ _ T))).
  by rewrite (lt_size _ _ _ T).
Qed.
Next Obligation.
  intros s x b (a&T) Hb Hh Hr. pose proof (lt_room s x a b T Hr) as Hroom. destruct T.
  apply wp_in_bio. eapply wp_mono; [apply (wp_bread _ a b); [apply lt_log0|by rewrite lt_size0| |done]|].
  { unfold held_blocks. by rewrite lt_held0. }
  intros i t' [Hi R']. rewrite <- lt_held0. split; [done|]. exists (a_hold i b a).
  split; simpl; try done; [by eapply lt_log_rep|by rewrite lt_held0].
Qed.
Next Obligation.
  intros s x i b (a&T) Hi. destruct T. apply wp_in_bio. eapply wp_mono.
  { apply (wp_data _ a i b); [apply lt_log0|by rewrite lt_held0]. }
  intros d t' [-> Hd]. rewrite set_bio_id, <- lt_view0. done.
Qed.
Next Obligation.
  intros s x i b d (a&T) Hi Hl. destruct T. apply wp_in_bio. eapply wp_mono.
  { apply (wp_set_data _ a i b); [apply lt_log0|by rewrite lt_held0|done]. }
  intros [] t' R'. exists (a_modify b d a). split; simpl; try done.
  - by eapply lt_log_rep.
  - by rewrite lt_view0.
  - intros b' [Hne Hnf]%not_elem_of_union. rewrite lookup_insert_ne by set_solver. auto.
Qed.
Next Obligation.
  intros s x i b (a&T) Hi [Hb1 Hb2] Hn. destruct T. rewrite lt_area0 in Hb2. simpl in Hb2.
  assert (lh_n s < l_size s - 1) as Hlt.
  { rewrite <- (length_logged s a (lr_geom _ _ lt_log0) (lr_head _ _ lt_log0)).
    rewrite <- lt_logged0, size_list_to_set in Hn by done. unfold x_max in Hn. by rewrite lt_area0 in Hn. }
  apply (wp_log_write s a i b); [done|by rewrite lt_held0|split; [by rewrite lt_size0|done]|done|lia|].
  intros t' L n s' L' Hlog. exists (a_pin b a). split; simpl; try done.
  - rewrite Hlog. by apply NoDup_log_add.
  - by rewrite Hlog, list_to_set_log_add, lt_logged0.
  - intros b' Hb'. destruct (decide (b' = b)) as [->|Hne]; [left; set_solver|].
    destruct (lt_fresh0 b') as [?|?]; [set_solver|left; set_solver|by right].
Qed.
Next Obligation.
  intros s x i b (a&T) Hi Hf. destruct T. apply wp_in_bio. eapply wp_mono.
  { apply (wp_brelse _ a i b); [apply lt_log0|by rewrite lt_held0|by apply lt_fresh0]. }
  intros [] t' R'. exists (a_drop i a). split; simpl; try done; [by eapply lt_log_rep|by rewrite lt_held0].
Qed.
End log_tx.
