(* ===== verification/Fs.v ===== *)
(** * The file system (fs.c)

    Blocks, inodes, file contents, directories and path names, over any
    transaction layer.  [icache] is the inode cache; a pointer to an in-memory
    inode is its index there.  Buffers passed by address ([dst], [src], [name])
    are byte lists, and a routine that fills one returns it. *)

From S2P Require Import Prelude Params Block Sleeplock Format Str Tx.

(** ** State *)

Record inode := mkinode {
  i_dev : Z;
  i_inum : Z;
  i_ref : Z;
  i_lock : sleeplock;
  i_valid : bool;
  i_type : Z;
  i_major : Z;
  i_minor : Z;
  i_nlink : Z;
  i_size : Z;
  i_addrs : list Z
}.
#[global] Instance inode_inhabited : Inhabited inode :=
  populate (mkinode 0 0 0 (initsleeplock "") false 0 0 0 0 0 (replicate (NDIRECT + 1) 0)).

Definition set_i_id (dev inum ref : Z) (valid : bool) (ip : inode) : inode :=
  mkinode dev inum ref (i_lock ip) valid (i_type ip) (i_major ip) (i_minor ip) (i_nlink ip)
          (i_size ip) (i_addrs ip).
Definition set_i_ref (v : Z) (ip : inode) : inode :=
  mkinode (i_dev ip) (i_inum ip) v (i_lock ip) (i_valid ip) (i_type ip) (i_major ip) (i_minor ip)
          (i_nlink ip) (i_size ip) (i_addrs ip).
Definition set_i_lock (v : sleeplock) (ip : inode) : inode :=
  mkinode (i_dev ip) (i_inum ip) (i_ref ip) v (i_valid ip) (i_type ip) (i_major ip) (i_minor ip)
          (i_nlink ip) (i_size ip) (i_addrs ip).
Definition set_i_valid (v : bool) (ip : inode) : inode :=
  mkinode (i_dev ip) (i_inum ip) (i_ref ip) (i_lock ip) v (i_type ip) (i_major ip) (i_minor ip)
          (i_nlink ip) (i_size ip) (i_addrs ip).
Definition set_i_type (v : Z) (ip : inode) : inode :=
  mkinode (i_dev ip) (i_inum ip) (i_ref ip) (i_lock ip) (i_valid ip) v (i_major ip) (i_minor ip)
          (i_nlink ip) (i_size ip) (i_addrs ip).
Definition set_i_size (v : Z) (ip : inode) : inode :=
  mkinode (i_dev ip) (i_inum ip) (i_ref ip) (i_lock ip) (i_valid ip) (i_type ip) (i_major ip)
          (i_minor ip) (i_nlink ip) v (i_addrs ip).
Definition set_i_addrs (v : list Z) (ip : inode) : inode :=
  mkinode (i_dev ip) (i_inum ip) (i_ref ip) (i_lock ip) (i_valid ip) (i_type ip) (i_major ip)
          (i_minor ip) (i_nlink ip) (i_size ip) v.

(** The fields of an inode that live on disk. *)
Definition inode_disk (ip : inode) : dinode :=
  mkdinode (i_type ip) (i_major ip) (i_minor ip) (i_nlink ip) (i_size ip) (i_addrs ip).
Definition load_dinode (di : dinode) (ip : inode) : inode :=
  mkinode (i_dev ip) (i_inum ip) (i_ref ip) (i_lock ip) true (d_type di) (d_major di) (d_minor di)
          (d_nlink di) (d_size di) (d_addrs di).

Record fs (S : Type) := mkfs {
  fs_tx : S;
  fs_sb : superblock;
  icache_lock : bool;
  icache : list inode;
  fs_pid : Z;                  (** pid of the process that runs *)
  fs_cwd : nat                 (** myproc()->cwd *)
}.
Arguments mkfs {S}.
Arguments fs_tx {S}.
Arguments fs_sb {S}.
Arguments icache_lock {S}.
Arguments icache {S}.
Arguments fs_pid {S}.
Arguments fs_cwd {S}.

(** The device switch of console.c: the read and write routines of each major
    device number that has them.  A read returns its result and the bytes it
    stores. *)
Class DevSw (S : Type) := {
  dev_read : Z → option (nat → Z → M (fs S) (Z * list Z));
  dev_write : Z → option (nat → list Z → Z → M (fs S) Z)
}.

Section fs.
Context {S : Type} `{TxOps S}.
Implicit Types s : fs S.

Definition set_tx (v : S) s : fs S :=
  mkfs v (fs_sb s) (icache_lock s) (icache s) (fs_pid s) (fs_cwd s).
Definition set_sb (v : superblock) s : fs S :=
  mkfs (fs_tx s) v (icache_lock s) (icache s) (fs_pid s) (fs_cwd s).
Definition set_icache_lock (v : bool) s : fs S :=
  mkfs (fs_tx s) (fs_sb s) v (icache s) (fs_pid s) (fs_cwd s).
Definition set_icache (v : list inode) s : fs S :=
  mkfs (fs_tx s) (fs_sb s) (icache_lock s) v (fs_pid s) (fs_cwd s).

Definition in_tx {A} (m : M S A) : M (fs S) A := zoom fs_tx set_tx m.
Definition acquire_icache : M (fs S) unit := acquire icache_lock set_icache_lock.
Definition release_icache : M (fs S) unit := release icache_lock set_icache_lock.
Definition the_inode (i : nat) : M (fs S) inode := gets (λ s, icache s !!! i).
Definition upd_inode (i : nat) (f : inode → inode) : M (fs S) unit :=
  modify (λ s, set_icache (alter f i (icache s)) s).

(** ** Blocks *)

Definition bzero (dev bno : Z) : M (fs S) unit :=
  bp ← in_tx (op_bread dev bno);
  in_tx (op_set_data bp zero_block);;
  in_tx (op_log_write bp);;
  in_tx (op_brelse bp).

(** Bit [bi] of a bitmap block, with [m = 1 << (bi % 8)]. *)
Definition bit_mask (bi : Z) : Z := Z.shiftl 1 (bi mod 8).
Definition bit_byte (bi : Z) : nat := Z.to_nat (bi / 8).
Definition bit_clear (d : block) (bi : Z) : bool := Z.land (d !!! bit_byte bi) (bit_mask bi) =? 0.
Definition mark_bit (d : block) (bi : Z) : block :=
  <[bit_byte bi:=Z.lor (d !!! bit_byte bi) (bit_mask bi)]> d.
Definition unmark_bit (d : block) (bi : Z) : block :=
  <[bit_byte bi:=Z.land (d !!! bit_byte bi) (Z.lnot (bit_mask bi))]> d.

(** The inner loop of [balloc]: the first clear bit from [bi] on. *)
Fixpoint scan_bits (fuel : nat) (d : block) (b size bi : Z) : option Z :=
  match fuel with
  | O => None
  | Datatypes.S fuel' =>
      if (bi <? BPB) && (b + bi <? size) then
        if bit_clear d bi then Some bi else scan_bits fuel' d b size (bi + 1)
      else None
  end.

(** The outer loop. *)
Fixpoint balloc_loop (fuel : nat) (dev b : Z) : M (fs S) Z :=
  match fuel with
  | O => diverge
  | Datatypes.S fuel' =>
      sb ← gets fs_sb;
      if b <? sb_size sb then
        bp ← in_tx (op_bread dev (BBLOCK b sb));
        d ← in_tx (op_data bp);
        match scan_bits (Z.to_nat BPB) d b (sb_size sb) 0 with
        | Some bi =>
            in_tx (op_set_data bp (mark_bit d bi));;
            in_tx (op_log_write bp);;
            in_tx (op_brelse bp);;
            bzero dev (b + bi);;
            mret (b + bi)
        | None =>
            in_tx (op_brelse bp);;
            balloc_loop fuel' dev (b + BPB)
        end
      else panic "balloc: out of blocks"
  end.
Definition balloc (dev : Z) : M (fs S) Z :=
  sb ← gets fs_sb;
  balloc_loop (Z.to_nat (sb_size sb / BPB) + 2) dev 0.

Definition bfree (dev b : Z) : M (fs S) unit :=
  sb ← in_tx (readsb dev);
  modify (set_sb sb);;
  bp ← in_tx (op_bread dev (BBLOCK b sb));
  d ← in_tx (op_data bp);
  let bi := b mod BPB in
  if bit_clear d bi then panic "freeing free block"
  else
    in_tx (op_set_data bp (unmark_bit d bi));;
    in_tx (op_log_write bp);;
    in_tx (op_brelse bp).

(** ** Inodes *)

Definition iinit (dev : Z) : M (fs S) unit :=
  modify (set_icache_lock false);;
  modify (λ s, set_icache (set_i_lock (initsleeplock "inode") <$> icache s) s);;
  sb ← in_tx (readsb dev);
  modify (set_sb sb).

(** The slots [iget] looks at, from index [i] on: the entry for (dev, inum),
    or else the first empty one. *)
Fixpoint iget_scan (l : list inode) (i : nat) (dev inum : Z) (empty : option nat) : nat + option nat :=
  match l with
  | [] => inr empty
  | ip :: l' =>
      if (0 <? i_ref ip) && (i_dev ip =? dev) && (i_inum ip =? inum) then inl i
      else
        iget_scan l' (Datatypes.S i) dev inum
          (match empty with
           | None => if i_ref ip =? 0 then Some i else None
           | Some e => Some e
           end)
  end.

Definition iget (dev inum : Z) : M (fs S) nat :=
  acquire_icache;;
  l ← gets icache;
  match iget_scan l 0 dev inum None with
  | inl i =>
      upd_inode i (λ ip, set_i_ref (i32 (i_ref ip + 1)) ip);;
      release_icache;;
      mret i
  | inr None => panic "iget: no inodes"
  | inr (Some i) =>
      upd_inode i (set_i_id dev inum 1 false);;
      release_icache;;
      mret i
  end.

Definition idup (i : nat) : M (fs S) nat :=
  acquire_icache;;
  upd_inode i (λ ip, set_i_ref (i32 (i_ref ip + 1)) ip);;
  release_icache;;
  mret i.

(** The slot of inode [inum] in its block. *)
Definition islot (inum : Z) : nat := Z.to_nat (inum mod IPB).

Fixpoint ialloc_loop (fuel : nat) (dev type inum : Z) : M (fs S) nat :=
  match fuel with
  | O => diverge
  | Datatypes.S fuel' =>
      sb ← gets fs_sb;
      if inum <? sb_ninodes sb then
        bp ← in_tx (op_bread dev (IBLOCK inum sb));
        d ← in_tx (op_data bp);
        if d_type (get_dinode d (islot inum)) =? 0 then
          in_tx (op_set_data bp
            (put_dinode d (islot inum) (mkdinode type 0 0 0 0 (replicate (NDIRECT + 1) 0))));;
          in_tx (op_log_write bp);;
          in_tx (op_brelse bp);;
          iget dev inum
        else
          in_tx (op_brelse bp);;
          ialloc_loop fuel' dev type (inum + 1)
      else panic "ialloc: no inodes"
  end.
Definition ialloc (dev type : Z) : M (fs S) nat :=
  sb ← gets fs_sb;
  ialloc_loop (Z.to_nat (sb_ninodes sb) + 1) dev type 1.

Definition iupdate (i : nat) : M (fs S) unit :=
  ip ← the_inode i;
  sb ← gets fs_sb;
  bp ← in_tx (op_bread (i_dev ip) (IBLOCK (i_inum ip) sb));
  d ← in_tx (op_data bp);
  in_tx (op_set_data bp (put_dinode d (islot (i_inum ip)) (inode_disk ip)));;
  in_tx (op_log_write bp);;
  in_tx (op_brelse bp).

Definition acquiresleep_inode (i : nat) : M (fs S) unit := λ s,
  match acquiresleep (fs_pid s) (i_lock (icache s !!! i)) with
  | Some lk => Done tt (set_icache (alter (set_i_lock lk) i (icache s)) s)
  | None => Asleep (ChanInode i) s
  end.
Definition releasesleep_inode (i : nat) : M (fs S) unit :=
  upd_inode i (λ ip, set_i_lock (releasesleep (i_lock ip)) ip).

Definition ilock (i : nat) : M (fs S) unit :=
  ip ← the_inode i;
  if i_ref ip <? 1 then panic "ilock"
  else
    acquiresleep_inode i;;
    ip ← the_inode i;
    when (negb (i_valid ip))
      (sb ← gets fs_sb;
       bp ← in_tx (op_bread (i_dev ip) (IBLOCK (i_inum ip) sb));
       d ← in_tx (op_data bp);
       upd_inode i (load_dinode (get_dinode d (islot (i_inum ip))));;
       in_tx (op_brelse bp);;
       ip ← the_inode i;
       when (i_type ip =? 0) (panic "ilock: no type")).

Definition iunlock (i : nat) : M (fs S) unit :=
  s ← gets id;
  ip ← the_inode i;
  if negb (holdingsleep (fs_pid s) (i_lock ip)) || (i_ref ip <? 1) then panic "iunlock"
  else releasesleep_inode i.

(** ** Inode content *)

(** [addr = ip->addrs[k]], allocating the block if there is none. *)
Definition addr_or_alloc (i : nat) (k : nat) : M (fs S) Z :=
  ip ← the_inode i;
  let addr := i_addrs ip !!! k in
  if addr =? 0 then
    addr ← balloc (i_dev ip);
    upd_inode i (λ ip, set_i_addrs (<[k:=addr]> (i_addrs ip)) ip);;
    mret addr
  else mret addr.

Definition bmap (i : nat) (bn : Z) : M (fs S) Z :=
  if bn <? Z.of_nat NDIRECT then addr_or_alloc i (Z.to_nat bn)
  else
    let bn := bn - Z.of_nat NDIRECT in
    if bn <? Z.of_nat NINDIRECT then
      addr ← addr_or_alloc i NDIRECT;
      ip ← the_inode i;
      bp ← in_tx (op_bread (i_dev ip) addr);
      a ← in_tx (op_data bp);
      let addr := get32 a (4 * Z.to_nat bn) in
      if addr =? 0 then
        addr ← balloc (i_dev ip);
        in_tx (op_set_data bp (put32 a (4 * Z.to_nat bn) addr));;
        in_tx (op_log_write bp);;
        in_tx (op_brelse bp);;
        mret addr
      else
        in_tx (op_brelse bp);;
        mret addr
    else panic "bmap: out of range".

Definition itrunc (i : nat) : M (fs S) unit :=
  for_range NDIRECT 0 (λ k,
    ip ← the_inode i;
    let addr := i_addrs ip !!! Z.to_nat k in
    when (negb (addr =? 0))
      (bfree (i_dev ip) addr;;
       upd_inode i (λ ip, set_i_addrs (<[Z.to_nat k:=0]> (i_addrs ip)) ip)));;
  ip ← the_inode i;
  let addr := i_addrs ip !!! NDIRECT in
  when (negb (addr =? 0))
    (bp ← in_tx (op_bread (i_dev ip) addr);
     a ← in_tx (op_data bp);
     for_range NINDIRECT 0 (λ j,
       let b := get32 a (4 * Z.to_nat j) in
       when (negb (b =? 0)) (bfree (i_dev ip) b));;
     in_tx (op_brelse bp);;
     bfree (i_dev ip) addr;;
     upd_inode i (λ ip, set_i_addrs (<[NDIRECT:=0]> (i_addrs ip)) ip));;
  upd_inode i (set_i_size 0);;
  iupdate i.

Definition iput (i : nat) : M (fs S) unit :=
  acquiresleep_inode i;;
  ip ← the_inode i;
  when (i_valid ip && (i_nlink ip =? 0))
    (acquire_icache;;
     r ← gets (λ s, i_ref (icache s !!! i));
     release_icache;;
     when (r =? 1)
       (itrunc i;;
        upd_inode i (set_i_type 0);;
        iupdate i;;
        upd_inode i (set_i_valid false)));;
  releasesleep_inode i;;
  acquire_icache;;
  upd_inode i (λ ip, set_i_ref (i32 (i_ref ip - 1)) ip);;
  release_icache.

Definition iunlockput (i : nat) : M (fs S) unit :=
  iunlock i;;
  iput i.

(** [struct stat]. *)
Record stat := mkstat { st_type : Z; st_dev : Z; st_ino : Z; st_nlink : Z; st_size : Z }.

Definition stati (i : nat) : M (fs S) stat :=
  ip ← the_inode i;
  mret (mkstat (i_type ip) (i32 (i_dev ip)) (i_inum ip) (i_nlink ip) (i_size ip)).

Context `{DevSw S}.

(** The number of bytes one iteration of the copy loops moves. *)
Definition chunk (n tot off : Z) : Z := Z.min (n - tot) (Z.of_nat BSIZE - off mod Z.of_nat BSIZE).

Fixpoint readi_loop (fuel : nat) (i : nat) (tot off n : Z) : M (fs S) (list Z) :=
  match fuel with
  | O => diverge
  | Datatypes.S fuel' =>
      if tot <? n then
        ip ← the_inode i;
        addr ← bmap i (off / Z.of_nat BSIZE);
        bp ← in_tx (op_bread (i_dev ip) addr);
        d ← in_tx (op_data bp);
        let m := chunk n tot off in
        in_tx (op_brelse bp);;
        rest ← readi_loop fuel' i (u32 (tot + m)) (u32 (off + m)) n;
        mret (slice (Z.to_nat (off mod Z.of_nat BSIZE)) (Z.to_nat m) d ++ rest)
      else mret []
  end.

(** The result of [readi] and the bytes stored at [dst]. *)
Definition readi (i : nat) (off n : Z) : M (fs S) (Z * list Z) :=
  ip ← the_inode i;
  if i_type ip =? T_DEV then
    if (i_major ip <? 0) || (NDEV <=? i_major ip) then mret (-1, [])
    else match dev_read (i_major ip) with
         | None => mret (-1, [])
         | Some f => f i (i32 n)
         end
  else if (i_size ip <? off) || (u32 (off + n) <? off) then mret (-1, [])
  else
    let n := if i_size ip <? u32 (off + n) then u32 (i_size ip - off) else n in
    l ← readi_loop (Z.to_nat n + 1) i 0 off n;
    mret (i32 n, l).

Fixpoint writei_loop (fuel : nat) (i : nat) (src : list Z) (tot off n : Z) : M (fs S) Z :=
  match fuel with
  | O => diverge
  | Datatypes.S fuel' =>
      if tot <? n then
        ip ← the_inode i;
        addr ← bmap i (off / Z.of_nat BSIZE);
        bp ← in_tx (op_bread (i_dev ip) addr);
        d ← in_tx (op_data bp);
        let m := chunk n tot off in
        in_tx (op_set_data bp
          (splice (Z.to_nat (off mod Z.of_nat BSIZE)) (slice (Z.to_nat tot) (Z.to_nat m) src) d));;
        in_tx (op_log_write bp);;
        in_tx (op_brelse bp);;
        writei_loop fuel' i src (u32 (tot + m)) (u32 (off + m)) n
      else mret off
  end.

(** [src] holds at least [n] bytes. *)
Definition writei (i : nat) (src : list Z) (off n : Z) : M (fs S) Z :=
  ip ← the_inode i;
  if i_type ip =? T_DEV then
    if (i_major ip <? 0) || (NDEV <=? i_major ip) then mret (-1)
    else match dev_write (i_major ip) with
         | None => mret (-1)
         | Some f => f i src (i32 n)
         end
  else if (i_size ip <? off) || (u32 (off + n) <? off) then mret (-1)
  else if MAXBYTES <? u32 (off + n) then mret (-1)
  else
    require (n <=? Z.of_nat (length src));;
    off ← writei_loop (Z.to_nat n + 1) i src 0 off n;
    ip ← the_inode i;
    when ((0 <? n) && (i_size ip <? off))
      (upd_inode i (set_i_size off);;
       iupdate i);;
    mret (i32 n).

(** ** Directories *)

Definition namecmp (s t : list Z) : Z := strncmp s t DIRSIZ.

(** The loop of [dirlookup]. *)
Fixpoint dirlookup_loop (fuel : nat) (dp : nat) (name : list Z) (off : Z) : M (fs S) (option (nat * Z)) :=
  match fuel with
  | O => diverge
  | Datatypes.S fuel' =>
      ip ← the_inode dp;
      if off <? i_size ip then
        r ← readi dp off (Z.of_nat DIRENT_SIZE);
        if negb (r.1 =? Z.of_nat DIRENT_SIZE) then panic "dirlookup read"
        else
          let de := decode_dirent r.2 in
          if negb (de_inum de =? 0) && (namecmp name (de_name de) =? 0) then
            j ← iget (i_dev ip) (de_inum de);
            mret (Some (j, off))
          else dirlookup_loop fuel' dp name (u32 (off + Z.of_nat DIRENT_SIZE))
      else mret None
  end.

(** The inode found and the offset of its entry ([*poff]). *)
Definition dirlookup (dp : nat) (name : list Z) : M (fs S) (option (nat * Z)) :=
  ip ← the_inode dp;
  if negb (i_type ip =? T_DIR) then panic "dirlookup not DIR"
  else dirlookup_loop (Z.to_nat (i_size ip) + 1) dp name 0.

(** The offset of the first free entry, or of the end of the directory. *)
Fixpoint dirlink_scan (fuel : nat) (dp : nat) (off : Z) : M (fs S) Z :=
  match fuel with
  | O => diverge
  | Datatypes.S fuel' =>
      ip ← the_inode dp;
      if off <? i_size ip then
        r ← readi dp off (Z.of_nat DIRENT_SIZE);
        if negb (r.1 =? Z.of_nat DIRENT_SIZE) then panic "dirlink read"
        else if de_inum (decode_dirent r.2) =? 0 then mret off
        else dirlink_scan fuel' dp (off + Z.of_nat DIRENT_SIZE)
      else mret off
  end.

Definition dirlink (dp : nat) (name : list Z) (inum : Z) : M (fs S) Z :=
  r ← dirlookup dp name;
  match r with
  | Some (i, _) =>
      iput i;;
      mret (-1)
  | None =>
      ip ← the_inode dp;
      off ← dirlink_scan (Z.to_nat (i_size ip) + 1) dp 0;
      let de := mkdirent (u16 inum) (strncpy (replicate DIRSIZ 0) name DIRSIZ) in
      r ← writei dp (encode_dirent de) off (Z.of_nat DIRENT_SIZE);
      if negb (r =? Z.of_nat DIRENT_SIZE) then panic "dirlink" else mret 0
  end.

(** ** Paths *)

Definition slash : Z := 47.

Fixpoint skip_slashes (path : list Z) : list Z :=
  match path with
  | c :: path' => if c =? slash then skip_slashes path' else path
  | [] => []
  end.

(** The bytes up to the next slash or the end, and the rest. *)
Fixpoint split_elem (path : list Z) : list Z * list Z :=
  match path with
  | [] => ([], [])
  | c :: path' =>
      if (c =? slash) || (c =? 0) then ([], path)
      else let (e, r) := split_elem path' in (c :: e, r)
  end.

(** The rest of the path and the array [name] after the call. *)
Definition skipelem (path name : list Z) : option (list Z * list Z) :=
  let path := skip_slashes path in
  if at0 path =? 0 then None
  else
    let (elem, rest) := split_elem path in
    let len := length elem in
    let name := if (DIRSIZ <=? len)%nat then splice 0 (take DIRSIZ elem) name
                else <[len:=0]> (splice 0 elem name) in
    Some (skip_slashes rest, name).

Fixpoint namex_loop (fuel : nat) (ip : nat) (path : list Z) (parent : bool) (name : list Z)
    : M (fs S) (option nat * list Z) :=
  match fuel with
  | O => diverge
  | Datatypes.S fuel' =>
      match skipelem path name with
      | None =>
          if parent then
            iput ip;;
            mret (None, name)
          else mret (Some ip, name)
      | Some (path, name) =>
          ilock ip;;
          i ← the_inode ip;
          if negb (i_type i =? T_DIR) then
            iunlockput ip;;
            mret (None, name)
          else if parent && (at0 path =? 0) then
            iunlock ip;;
            mret (Some ip, name)
          else
            r ← dirlookup ip name;
            match r with
            | None =>
                iunlockput ip;;
                mret (None, name)
            | Some (next, _) =>
                iunlockput ip;;
                namex_loop fuel' next path parent name
            end
      end
  end.

Definition namex (path : list Z) (parent : bool) (name : list Z) : M (fs S) (option nat * list Z) :=
  ip ← (if at0 path =? slash then iget ROOTDEV ROOTINO
        else cwd ← gets fs_cwd; idup cwd);
  namex_loop (length path + 1) ip path parent name.

Definition namei (path : list Z) : M (fs S) (option nat) :=
  r ← namex path false (replicate DIRSIZ 0);
  mret r.1.

Definition nameiparent (path name : list Z) : M (fs S) (option nat * list Z) := namex path true name.
End fs.
