(* ===== verification/FsSpec.v ===== *)
(** * Correctness of the block and inode layers of fs.c

    The free bitmap, the mapping from file offsets to blocks, and reading and
    writing file contents, against the transaction interface of [Tx]. *)

From S2P Require Import Prelude Params Block Sleeplock Format Str Tx Fs LogSpec.

(** ** Bitmap blocks *)

Definition bit_ok (bi : Z) : Prop := 0 ≤ bi < BPB.

Lemma bit_byte_lt bi : bit_ok bi → (bit_byte bi < BSIZE)%nat.
Proof. unfold bit_ok, bit_byte. change BPB with 4096. change BSIZE with 512%nat. dlia. Qed.

Lemma bit_clear_testbit d bi : bit_ok bi →
  bit_clear d bi = negb (Z.testbit (d !!! bit_byte bi) (bi mod 8)).
Proof.
  intros Hb. pose proof (Z.mod_pos_bound bi 8 ltac:(lia)). unfold bit_clear, bit_mask. set (y := d !!! bit_byte bi).
  rewrite Z.shiftl_1_l. destruct (Z.eqb_spec (Z.land y (2 ^ (bi mod 8))) 0) as [E|E].
  - assert (Z.testbit (Z.land y (2 ^ (bi mod 8))) (bi mod 8) = false) as T by (rewrite E; apply Z.testbit_0_l).
    rewrite Z.land_spec, Z.pow2_bits_true, andb_true_r in T by lia. by rewrite T.
  - destruct (Z.testbit y (bi mod 8)) eqn:T; [done|]. destruct E. apply Z.bits_inj'. intros k Hk.
    rewrite Z.land_spec, Z.testbit_0_l. destruct (decide (k = bi mod 8)) as [->|Hne]; [by rewrite T|].
    rewrite Z.pow2_bits_false by lia. apply andb_false_r.
Qed.

Lemma same_bit bi bi' : bit_byte bi = bit_byte bi' → bi mod 8 = bi' mod 8 → bit_ok bi → bit_ok bi' → bi = bi'.
Proof. unfold bit_byte, bit_ok. change BPB with 4096. dlia. Qed.

Lemma bit_clear_mark d bi bi' : length d = BSIZE → bit_ok bi → bit_ok bi' →
  bit_clear (mark_bit d bi) bi' = if decide (bi = bi') then false else bit_clear d bi'.
Proof.
  intros Hl Hb Hb'. pose proof (Z.mod_pos_bound bi 8 ltac:(lia)).
  rewrite !bit_clear_testbit by done. unfold mark_bit, bit_mask.
  pose proof (bit_byte_lt bi Hb) as Hlt. rewrite <- Hl in Hlt.
  destruct (decide (bit_byte bi = bit_byte bi')) as [E|E].
  - rewrite <- E, list_lookup_total_insert_eq by done.
    change (Z.lor ?a (Z.shiftl 1 ?k)) with (Z.setbit a k).
    case_decide as D; [subst; by rewrite Z.setbit_eq by lia|].
    rewrite Z.setbit_neq; [done|lia|]. intros Hm. apply D. by apply same_bit.
  - rewrite list_lookup_total_insert_ne by done. by rewrite decide_False by (intros ->; done).
Qed.

Lemma bit_clear_unmark d bi bi' : length d = BSIZE → bit_ok bi → bit_ok bi' →
  bit_clear (unmark_bit d bi) bi' = if decide (bi = bi') then true else bit_clear d bi'.
Proof.
  intros Hl Hb Hb'. pose proof (Z.mod_pos_bound bi 8 ltac:(lia)).
  rewrite !bit_clear_testbit by done. unfold unmark_bit, bit_mask.
  pose proof (bit_byte_lt bi Hb) as Hlt. rewrite <- Hl in Hlt.
  destruct (decide (bit_byte bi = bit_byte bi')) as [E|E].
  - rewrite <- E, list_lookup_total_insert_eq by done.
    rewrite <- Z.ldiff_land. change (Z.ldiff ?a (Z.shiftl 1 ?k)) with (Z.clearbit a k).
    case_decide as D; [subst; by rewrite Z.clearbit_eq by lia|].
    rewrite Z.clearbit_neq; [done|]. intros Hm. apply D. by apply same_bit.
  - rewrite list_lookup_total_insert_ne by done. by rewrite decide_False by (intros ->; done).
Qed.

Lemma length_mark_bit d bi : length (mark_bit d bi) = length d.
Proof. apply length_insert. Qed.
Lemma length_unmark_bit d bi : length (unmark_bit d bi) = length d.
Proof. apply length_insert. Qed.

(** The scan finds the first clear bit of the block that stands for a block of
    the file system. *)
Lemma scan_bits_spec fuel : ∀ d b size bi, 0 ≤ bi → (Z.to_nat (BPB - bi) ≤ fuel)%nat →
  match scan_bits fuel d b size bi with
  | Some r => bi ≤ r < BPB ∧ b + r < size ∧ bit_clear d r = true ∧ ∀ j, bi ≤ j < r → bit_clear d j = false
  | None => ∀ j, bi ≤ j < BPB → b + j < size → bit_clear d j = false
  end.
Proof.
  induction fuel as [|fuel IH]; intros d b size bi Hbi Hf; simpl.
  { intros j Hj. change BPB with 4096 in *. lia. }
  destruct (Z.ltb_spec bi BPB), (Z.ltb_spec (b + bi) size); simpl; try (intros; lia).
  destruct (bit_clear d bi) eqn:E; [split_and!; try done; intros; lia|].
  specialize (IH d b size (bi + 1) ltac:(lia) ltac:(lia)).
  destruct (scan_bits fuel d b size (bi + 1)) as [r|].
  - destruct IH as (?&?&?&IH). split_and!; try done; try lia. intros j Hj.
    destruct (decide (j = bi)) as [->|]; [done|]. apply IH. lia.
  - intros j Hj Hs. destruct (decide (j = bi)) as [->|]; [done|]. apply IH; lia.
Qed.

(** ** The layout of the file system *)

Record geom_ok (sb : superblock) : Prop := {
  go_size : 0 < sb_size sb ≤ 2 ^ 31;
  go_log : 2 ≤ sb_logstart sb ∧ 0 ≤ sb_nlog sb ∧ sb_logstart sb + sb_nlog sb ≤ sb_inodestart sb;
  go_inodes : 0 < sb_ninodes sb ∧ IBLOCK (sb_ninodes sb - 1) sb < sb_bmapstart sb;
  go_bmap : BBLOCK (sb_size sb - 1) sb < sb_size sb
}.

(** The first block after the bitmap. *)
Definition data_start (sb : superblock) : Z := BBLOCK (sb_size sb - 1) sb + 1.

(** Bit [b] of the bitmap is set. *)
Definition block_used (sb : superblock) (v : gmap Z block) (b : Z) : bool :=
  negb (bit_clear (v !!! BBLOCK b sb) (b mod BPB)).

(** The first free block. *)
Definition first_free (sb : superblock) (v : gmap Z block) (b : Z) : Prop :=
  0 ≤ b < sb_size sb ∧ block_used sb v b = false ∧ ∀ b', 0 ≤ b' < b → block_used sb v b' = true.

(** A disk image of the right size that keeps its metadata blocks allocated. *)
Record image_ok (sb : superblock) (v : gmap Z block) : Prop := {
  im_blocks b : 0 ≤ b < sb_size sb → ∃ d, v !! b = Some d ∧ length d = BSIZE;
  im_sb : decode_sb (v !!! 1) = sb;
  im_meta b : 0 ≤ b < data_start sb → block_used sb v b = true
}.

Section layout.
Context (sb : superblock) (G : geom_ok sb).

Lemma BBLOCK_range b : 0 ≤ b < sb_size sb → sb_bmapstart sb ≤ BBLOCK b sb < data_start sb.
Proof.
  intros Hb. unfold data_start, BBLOCK. change BPB with 4096. split; [dlia|].
  pose proof (Z.div_le_mono b (sb_size sb - 1) 4096). dlia.
Qed.

Lemma data_start_range : 0 < data_start sb ≤ sb_size sb.
Proof. destruct G as [G1 G2 G3 G4]. unfold data_start in *. unfold BBLOCK, IBLOCK in *. change BPB with 4096 in *. change IPB with 8 in *. dlia. Qed.

Lemma BBLOCK_home b : 0 ≤ b < sb_size sb →
  2 ≤ BBLOCK b sb < sb_size sb ∧ ¬ log_area (sb_logstart sb) (sb_nlog sb) (BBLOCK b sb).
Proof.
  intros Hb. pose proof (BBLOCK_range b Hb). pose proof data_start_range.
  destruct G as [G1 G2 G3 G4]. unfold IBLOCK in *. change IPB with 8 in *. unfold log_area. dlia.
Qed.

Lemma IBLOCK_home i : 0 ≤ i < sb_ninodes sb →
  2 ≤ IBLOCK i sb < sb_bmapstart sb ∧ ¬ log_area (sb_logstart sb) (sb_nlog sb) (IBLOCK i sb).
Proof.
  intros Hi. destruct G as [G1 G2 G3 G4]. unfold IBLOCK, log_area in *. change IPB with 8 in *.
  pose proof (Z.div_le_mono i (sb_ninodes sb - 1) 8). dlia.
Qed.

Lemma bmapstart_data : sb_bmapstart sb < data_start sb.
Proof. destruct G as [G1 _ _ _]. pose proof (BBLOCK_range 0). unfold BBLOCK in *. change BPB with 4096 in *. dlia. Qed.

Lemma data_home b : data_start sb ≤ b < sb_size sb →
  2 ≤ b ∧ ¬ log_area (sb_logstart sb) (sb_nlog sb) b.
Proof.
  intros Hb. pose proof bmapstart_data. destruct G as [G1 G2 G3 G4].
  unfold IBLOCK, log_area in *. change IPB with 8 in *. dlia.
Qed.
End layout.

Lemma BPB_mod b : bit_ok (b mod BPB).
Proof. unfold bit_ok. apply Z.mod_pos_bound. by vm_compute. Qed.

Lemma block_same sb b b' : BBLOCK b sb = BBLOCK b' sb → b mod BPB = b' mod BPB → b = b'.
Proof. unfold BBLOCK. change BPB with 4096. dlia. Qed.

(** Marking and freeing in the bitmap, seen through [block_used]. *)
Lemma block_used_mark sb v b b' : length (v !!! BBLOCK b sb) = BSIZE →
  block_used sb (<[BBLOCK b sb:=mark_bit (v !!! BBLOCK b sb) (b mod BPB)]> v) b' =
  if decide (b = b') then true else block_used sb v b'.
Proof.
  intros Hl. unfold block_used. destruct (decide (BBLOCK b sb = BBLOCK b' sb)) as [E|E].
  - rewrite <- E, lookup_total_insert_eq, bit_clear_mark by auto using BPB_mod.
    destruct (decide (b = b')) as [->|Hne]; [by rewrite decide_True|].
    rewrite decide_False; [done|]. intros Hm. by apply Hne, (block_same sb).
  - rewrite lookup_total_insert_ne by done. by rewrite decide_False by (intros ->; done).
Qed.

Lemma block_used_unmark sb v b b' : length (v !!! BBLOCK b sb) = BSIZE →
  block_used sb (<[BBLOCK b sb:=unmark_bit (v !!! BBLOCK b sb) (b mod BPB)]> v) b' =
  if decide (b = b') then false else block_used sb v b'.
Proof.
  intros Hl. unfold block_used. destruct (decide (BBLOCK b sb = BBLOCK b' sb)) as [E|E].
  - rewrite <- E, lookup_total_insert_eq, bit_clear_unmark by auto using BPB_mod.
    destruct (decide (b = b')) as [->|Hne]; [by rewrite decide_True|].
    rewrite decide_False; [done|]. intros Hm. by apply Hne, (block_same sb).
  - rewrite lookup_total_insert_ne by done. by rewrite decide_False by (intros ->; done).
Qed.

(** A write outside the bitmap does not change what is allocated. *)
Lemma block_used_other sb v b d b' : BBLOCK b' sb ≠ b → block_used sb (<[b:=d]> v) b' = block_used sb v b'.
Proof. intros. unfold block_used. by rewrite lookup_total_insert_ne. Qed.

(** ** Reading and writing a block of the transaction *)

Section spec.
Context {S : Type} `{TxSpec S}.
Implicit Types (s : fs S) (x : txst).

Lemma set_tx_id s : set_tx (fs_tx s) s = s.
Proof. by destruct s. Qed.

Lemma room_not_full k x : room (Datatypes.S k) x → Z.of_nat (size (x_logged x)) < x_max x.
Proof. intros [H1 _]. lia. Qed.

(** [bp = bread(ROOTDEV, b); ... bp->data ...]. *)
Lemma wp_get {A} s x b (K : nat → block → M (fs S) A) Q :
  tx_rep (fs_tx s) x → 0 ≤ b < x_size x → b ∉ x_held_blocks x → room 0 x →
  (∀ bp t', x_held x !! bp = None → tx_rep t' (x_hold bp b x) → length (x_view x !!! b) = BSIZE →
     wp (K bp (x_view x !!! b)) Q (set_tx t' s)) →
  wp (bp ← in_tx (op_bread ROOTDEV b); d ← in_tx (op_data bp); K bp d) Q s.
Proof.
  intros R Hb Hh Hr HK. destruct (tx_view_total _ _ b R Hb) as [Hv Hl].
  wp_step. apply wp_zoom. eapply txk_bread; [done..|]. intros bp t1 Hbp R1. wp_step. apply wp_zoom.
  eapply txk_data; [exact R1|apply lookup_insert_eq|]. simpl. rewrite Hv. intros ? [= <-]. by apply HK.
Qed.

(** The same for any outcome of the continuation. *)
Lemma run_get {A} s x b (K : nat → block → M (fs S) A) (Φ : outcome (fs S) A → Prop) :
  tx_rep (fs_tx s) x → 0 ≤ b < x_size x → b ∉ x_held_blocks x → room 0 x →
  (∀ bp t', x_held x !! bp = None → tx_rep t' (x_hold bp b x) → length (x_view x !!! b) = BSIZE →
     Φ (K bp (x_view x !!! b) (set_tx t' s))) →
  Φ ((bp ← in_tx (op_bread ROOTDEV b); d ← in_tx (op_data bp); K bp d) s).
Proof.
  intros R Hb Hh Hr HK.
  assert (wp (bp ← in_tx (op_bread ROOTDEV b); d ← in_tx (op_data bp); mret (bp, d))
    (λ r s', ∃ t', s' = set_tx t' s ∧ Φ (K r.1 r.2 s')) s) as W.
  { eapply wp_get; [done..|]. intros bp t' ? ? ?. exists t'. split; [done|]. by apply HK. }
  revert W. unfold wp, mbind, M_bind. destruct (in_tx (op_bread ROOTDEV b) s) as [bp s1| | | |]; try done.
  destruct (in_tx (op_data bp) s1) as [d s2| | | |]; try done. by intros (t'&->&?).
Qed.

Lemma run_release_read {A} s t x bp b (k : M (fs S) A) (Φ : outcome (fs S) A → Prop) :
  tx_rep t (x_hold bp b x) → x_held x !! bp = None → b ∉ x_fresh x →
  (∀ t', tx_rep t' x → Φ (k (set_tx t' s))) →
  Φ ((in_tx (op_brelse bp);; k) (set_tx t s)).
Proof.
  intros R Hbp Hf HK.
  assert (wp (in_tx (op_brelse bp)) (λ _ s', ∃ t', s' = set_tx t' s ∧ tx_rep t' x) (set_tx t s)) as W.
  { apply wp_zoom. eapply txk_brelse; [exact R|apply lookup_insert_eq|done|].
    intros t' R'. rewrite x_drop_hold in R' by done. by exists t'. }
  revert W. unfold wp, mbind, M_bind. destruct (in_tx (op_brelse bp) _) as [[] s1| | | |]; try done.
  intros (t'&->&R'). by apply HK.
Qed.

(** [brelse(bp)] of a buffer that was only read. *)
Lemma wp_release_read {A} s t x bp b (k : M (fs S) A) Q :
  tx_rep t (x_hold bp b x) → x_held x !! bp = None → b ∉ x_fresh x →
  (∀ t', tx_rep t' x → wp k Q (set_tx t' s)) →
  wp (in_tx (op_brelse bp);; k) Q (set_tx t s).
Proof.
  intros R Hbp Hf HK. wp_step. apply wp_zoom. eapply txk_brelse; [exact R|apply lookup_insert_eq|done|].
  intros t' R'. rewrite x_drop_hold in R' by done. by apply HK.
Qed.

(** Storing into a buffer, logging and releasing it. *)
Lemma wp_put_tail s t x bp b d Q :
  tx_rep t (x_hold bp b x) → x_held x !! bp = None → b ∉ x_fresh x → x_home b x → room 1 x →
  length d = BSIZE →
  (∀ t', tx_rep t' (x_put b d x) → Q tt (set_tx t' s)) →
  wp (in_tx (op_set_data bp d);; in_tx (op_log_write bp);; in_tx (op_brelse bp)) Q (set_tx t s).
Proof.
  intros R Hbp Hf Hb Hr Hd HQ.
  wp_step. apply wp_zoom. eapply txk_set_data; [exact R|apply lookup_insert_eq|done|]. intros t1 R1.
  wp_step. apply wp_zoom. eapply txk_log_write; [exact R1|apply lookup_insert_eq|exact Hb|exact (room_not_full _ _ Hr)|].
  intros t2 R2. apply wp_zoom.
  eapply txk_brelse; [exact R2|apply lookup_insert_eq|simpl; set_solver|]. intros t3 R3. apply HQ.
  replace (x_drop bp (x_write b (x_modify b d (x_hold bp b x)))) with (x_put b d x) in R3; [done|].
  unfold x_put, x_drop, x_write, x_modify, x_hold; simpl. rewrite delete_insert_id by done. f_equal. set_solver.
Qed.

Lemma wp_put {A} s t x bp b d (k : M (fs S) A) Q :
  tx_rep t (x_hold bp b x) → x_held x !! bp = None → b ∉ x_fresh x → x_home b x → room 1 x →
  length d = BSIZE →
  (∀ t', tx_rep t' (x_put b d x) → wp k Q (set_tx t' s)) →
  wp (in_tx (op_set_data bp d);; in_tx (op_log_write bp);; in_tx (op_brelse bp);; k) Q (set_tx t s).
Proof.
  intros R Hbp Hf Hb Hr Hd HK.
  pose proof (wp_put_tail s t x bp b d (λ _ s', wp k Q s') R Hbp Hf Hb Hr Hd HK) as W.
  revert W. unfold wp, mbind, M_bind.
  destruct (in_tx (op_set_data bp d) (set_tx t s)) as [[] s1| | | |]; try done.
  destruct (in_tx (op_log_write bp) s1) as [[] s2| | | |]; try done.
  by destruct (in_tx (op_brelse bp) s2) as [[] s3| | | |].
Qed.

(** ** The state between calls *)

Context (sb : superblock).

Record fs_rep s x : Prop := {
  fr_tx : tx_rep (fs_tx s) x;
  fr_sb : fs_sb s = sb;
  fr_geom : geom_ok sb;
  fr_size : x_size x = sb_size sb;
  fr_log : x_log x = (sb_logstart sb, sb_nlog sb);
  fr_fresh : x_fresh x = ∅;
  fr_image : image_ok sb (x_view x)
}.

Lemma fr_home s x b : fs_rep s x → 0 ≤ b < sb_size sb →
  ¬ log_area (sb_logstart sb) (sb_nlog sb) b → x_home b x.
Proof. intros F Hb Ha. split; [by rewrite (fr_size _ _ F)|by rewrite (fr_log _ _ F)]. Qed.

Lemma fr_not_fresh s x b : fs_rep s x → b ∉ x_fresh x.
Proof. intros F. rewrite (fr_fresh _ _ F). apply not_elem_of_empty. Qed.

(** Writing block [b] keeps the representation. *)
Lemma fr_put s x t b d : fs_rep s x → tx_rep t (x_put b d x) →
  image_ok sb (<[b:=d]> (x_view x)) → fs_rep (set_tx t s) (x_put b d x).
Proof. intros [] R Hi. by split. Qed.

Lemma fr_same s x t : fs_rep s x → tx_rep t x → fs_rep (set_tx t s) x.
Proof. intros [] R. by split. Qed.

Lemma image_lookup v b : image_ok sb v → 0 ≤ b < sb_size sb →
  v !! b = Some (v !!! b) ∧ length (v !!! b) = BSIZE.
Proof.
  intros I Hb. destruct (im_blocks _ _ I b Hb) as (d&Hd&?). by rewrite (lookup_total_correct _ _ _ Hd).
Qed.

(** A write outside the bitmap and the superblock keeps the image. *)
Lemma image_other v b d : geom_ok sb → image_ok sb v → length d = BSIZE →
  b ≠ 1 → (∀ b', 0 ≤ b' < sb_size sb → BBLOCK b' sb ≠ b) → image_ok sb (<[b:=d]> v).
Proof.
  intros G I Hd H1 Hb. pose proof (data_start_range sb G). split.
  - intros b' Hb'. destruct (decide (b = b')) as [->|Hne].
    + rewrite lookup_insert_eq. eauto.
    + rewrite lookup_insert_ne by done. by apply I.
  - rewrite lookup_total_insert_ne by done. apply I.
  - intros b' Hb'. rewrite block_used_other by (apply Hb; lia). by apply I.
Qed.

Lemma image_data v b d : geom_ok sb → image_ok sb v → length d = BSIZE →
  data_start sb ≤ b < sb_size sb → image_ok sb (<[b:=d]> v).
Proof.
  intros G I Hd Hb. destruct (data_home sb G b Hb). apply image_other; try done; [lia|].
  intros b' Hb'. pose proof (BBLOCK_range sb b' Hb'). lia.
Qed.

Lemma image_inode v i d : geom_ok sb → image_ok sb v → length d = BSIZE →
  0 ≤ i < sb_ninodes sb → image_ok sb (<[IBLOCK i sb:=d]> v).
Proof.
  intros G I Hd Hi. destruct (IBLOCK_home sb G i Hi). apply image_other; try done; [lia|].
  intros b' Hb'. pose proof (BBLOCK_range sb b' Hb'). lia.
Qed.

Lemma image_mark v b : geom_ok sb → image_ok sb v → 0 ≤ b < sb_size sb →
  image_ok sb (<[BBLOCK b sb:=mark_bit (v !!! BBLOCK b sb) (b mod BPB)]> v).
Proof.
  intros G I Hb. destruct (BBLOCK_home sb G b Hb) as [Hr _].
  destruct (image_lookup v (BBLOCK b sb) I ltac:(lia)) as [_ Hl]. split.
  - intros b' Hb'. destruct (decide (BBLOCK b sb = b')) as [<-|Hne].
    + rewrite lookup_insert_eq. eexists. split; [done|]. by rewrite length_mark_bit.
    + rewrite lookup_insert_ne by done. by apply I.
  - rewrite lookup_total_insert_ne by lia. apply I.
  - intros b' Hb'. rewrite block_used_mark by done. case_decide; [done|]. by apply I.
Qed.

Lemma image_unmark v b : geom_ok sb → image_ok sb v → data_start sb ≤ b < sb_size sb →
  image_ok sb (<[BBLOCK b sb:=unmark_bit (v !!! BBLOCK b sb) (b mod BPB)]> v).
Proof.
  intros G I Hb. pose proof (data_start_range sb G).
  destruct (BBLOCK_home sb G b ltac:(lia)) as [Hr _].
  destruct (image_lookup v (BBLOCK b sb) I ltac:(lia)) as [_ Hl]. split.
  - intros b' Hb'. destruct (decide (BBLOCK b sb = b')) as [<-|Hne].
    + rewrite lookup_insert_eq. eexists. split; [done|]. by rewrite length_unmark_bit.
    + rewrite lookup_insert_ne by done. by apply I.
  - rewrite lookup_total_insert_ne by lia. apply I.
  - intros b' Hb'. rewrite block_used_unmark by done. rewrite decide_False by lia. by apply I.
Qed.

(** ** Allocating and freeing blocks *)

(** The buffers held while a block is allocated are allocated data blocks. *)
Definition held_ok x : Prop :=
  ∀ h, h ∈ x_held_blocks x → data_start sb ≤ h < sb_size sb ∧ block_used sb (x_view x) h = true.

(** The transaction after [b] has been allocated. *)
Definition x_alloc (b : Z) x : txst :=
  x_put b zero_block (x_put (BBLOCK b sb) (mark_bit (x_view x !!! BBLOCK b sb) (b mod BPB)) x).

Lemma held_ok_bitmap x b : held_ok x → 0 ≤ b < sb_size sb → BBLOCK b sb ∉ x_held_blocks x.
Proof. intros Hh Hb Hin. destruct (Hh _ Hin). pose proof (BBLOCK_range sb b Hb). lia. Qed.

Lemma first_free_data v b : image_ok sb v → first_free sb v b → data_start sb ≤ b < sb_size sb.
Proof.
  intros I (Hb&Hu&_). split; [|lia]. destruct (decide (data_start sb ≤ b)); [done|].
  rewrite (im_meta _ _ I) in Hu by lia. done.
Qed.

Lemma first_free_held x b : held_ok x → first_free sb (x_view x) b → b ∉ x_held_blocks x.
Proof. intros Hh (_&Hu&_) Hin. destruct (Hh _ Hin) as [_ Hu']. congruence. Qed.

Lemma first_free_unique v b b' : first_free sb v b → first_free sb v b' → b = b'.
Proof.
  intros (H1&H2&H3) (H1'&H2'&H3'). destruct (Z.lt_trichotomy b b') as [Hl|[?|Hl]]; [|done|].
  - rewrite H3' in H2 by lia. done.
  - rewrite H3 in H2' by lia. done.
Qed.

Lemma wp_bzero s x b (Q : unit → fs S → Prop) :
  fs_rep s x → data_start sb ≤ b < sb_size sb → b ∉ x_held_blocks x → room 1 x →
  (∀ t', fs_rep (set_tx t' s) (x_put b zero_block x) → Q tt (set_tx t' s)) →
  wp (bzero ROOTDEV b) Q s.
Proof.
  intros F Hb Hh Hr HQ. destruct (data_home sb (fr_geom _ _ F) b Hb) as [H2 Ha].
  unfold bzero. wp_step. apply wp_zoom.
  eapply txk_bread; [apply F|rewrite (fr_size _ _ F); lia|done|eapply room_weaken; [|done]; lia|].
  intros bp t1 Hbp R1. eapply wp_put_tail; [exact R1|done|by eapply fr_not_fresh| |done|done|].
  - eapply fr_home; [done|lia|done].
  - intros t2 R2. apply HQ. apply fr_put; [done|done|].
    apply image_data; [apply F|apply F|done|done].
Qed.

(** The bits of one bitmap block. *)
Lemma bitmap_block b0 j : b0 mod BPB = 0 → 0 ≤ j < BPB →
  BBLOCK (b0 + j) sb = BBLOCK b0 sb ∧ (b0 + j) mod BPB = j.
Proof. unfold BBLOCK. change BPB with 4096. dlia. Qed.

Lemma wp_balloc_loop fuel : ∀ s x b b0 (Q : Z → fs S → Prop),
  fs_rep s x → first_free sb (x_view x) b → held_ok x → room 2 x →
  0 ≤ b0 ≤ b → b0 mod BPB = 0 → (Z.to_nat (b / BPB - b0 / BPB) < fuel)%nat →
  (∀ t', fs_rep (set_tx t' s) (x_alloc b x) → Q b (set_tx t' s)) →
  wp (balloc_loop fuel ROOTDEV b0) Q s.
Proof.
  induction fuel as [|fuel IH]; intros s x b b0 Q F Hf Hh Hr Hb0 Hm Hfuel HQ; [lia|].
  pose proof Hf as (Hb&Hu&Hbefore). pose proof (BBLOCK_home sb (fr_geom _ _ F) b0 ltac:(lia)) as [Hbb Hba].
  cbn [balloc_loop]. wp_step. apply wp_gets. rewrite (fr_sb _ _ F).
  rewrite (proj2 (Z.ltb_lt _ _)) by lia.
  eapply wp_get; [apply F|rewrite (fr_size _ _ F); lia|apply held_ok_bitmap; [done|lia]|
                  eapply room_weaken; [|done]; lia|].
  intros bp t1 Hbp R1 Hlen.
  pose proof (scan_bits_spec (Z.to_nat BPB) (x_view x !!! BBLOCK b0 sb) b0 (sb_size sb) 0 ltac:(lia) ltac:(lia)) as Hscan.
  destruct (scan_bits _ _ _ _ _) as [r|].
  - destruct Hscan as (Hr1&Hr2&Hr3&Hr4). destruct (bitmap_block b0 r Hm Hr1) as [E1 E2].
    assert (b0 + r = b) as <-.
    { apply (first_free_unique (x_view x)); [|done]. split; [lia|split].
      - unfold block_used. rewrite E1, E2. by rewrite Hr3.
      - intros b' Hb'. destruct (decide (b' < b0)); [apply Hbefore; lia|].
        replace b' with (b0 + (b' - b0)) by lia.
        destruct (bitmap_block b0 (b' - b0) Hm ltac:(lia)) as [E1' E2'].
        unfold block_used. rewrite E1', E2'. rewrite Hr4 by lia. done. }
    eapply wp_put; [exact R1|done|by eapply fr_not_fresh| | |by rewrite length_mark_bit|].
    + eapply fr_home; [done|lia|done].
    + eapply room_weaken; [|done]; lia.
    + intros t2 R2. set (x1 := x_put _ _ x) in R2.
      assert (fs_rep (set_tx t2 s) x1) as F1.
      { apply fr_put; [done|done|]. rewrite <- E1. rewrite <- E2 at 3. apply image_mark; [apply F|apply F|lia]. }
      wp_step. eapply wp_bzero; [exact F1|eapply first_free_data; [apply F|done]| | |].
      * exact (first_free_held x _ Hh Hf).
      * by apply room_put.
      * intros t3 F3. wp_step. apply (HQ t3).
        unfold x_alloc. rewrite E1, E2. exact F3.
  - assert (b0 + BPB ≤ b) as Hle.
    { destruct (decide (b0 + BPB ≤ b)); [done|].
      destruct (bitmap_block b0 (b - b0) Hm ltac:(lia)) as [E1 E2].
      unfold block_used in Hu. replace b with (b0 + (b - b0)) in Hu by lia. rewrite E1, E2 in Hu.
      rewrite Hscan in Hu by lia. done. }
    eapply wp_release_read; [exact R1|done|by eapply fr_not_fresh|]. intros t2 R2.
    apply (IH _ x b); [by apply fr_same|done|done|done|change BPB with 4096 in *; lia| | |].
    + change BPB with 4096 in *. dlia.
    + change BPB with 4096 in *. dlia.
    + intros t3 F3. by apply HQ.
Qed.

Lemma wp_balloc s x b (Q : Z → fs S → Prop) :
  fs_rep s x → first_free sb (x_view x) b → held_ok x → room 2 x →
  (∀ t', fs_rep (set_tx t' s) (x_alloc b x) → Q b (set_tx t' s)) →
  wp (balloc ROOTDEV) Q s.
Proof.
  intros F Hf Hh Hr HQ. unfold balloc. wp_step. apply wp_gets. rewrite (fr_sb _ _ F).
  pose proof Hf as (Hb&_). apply (wp_balloc_loop _ s x b); try done; [lia|].
  change BPB with 4096. pose proof (Z.div_le_mono b (sb_size sb) 4096). dlia.
Qed.

Lemma wp_tx_readsb (t : S) x (Q : superblock → S → Prop) :
  tx_rep t x → 1 < x_size x → 1 ∉ x_held_blocks x → room 0 x → 1 ∉ x_fresh x →
  (∀ t', tx_rep t' x → Q (decode_sb (x_view x !!! 1)) t') → wp (readsb ROOTDEV) Q t.
Proof.
  intros R Hs Hh Hr Hf HQ. destruct (tx_view_total _ _ 1 R ltac:(lia)) as [Hv _].
  unfold readsb. wp_step. eapply txk_bread; [done|lia|done|done|]. intros bp t1 Hbp R1.
  wp_step. eapply txk_data; [exact R1|apply lookup_insert_eq|]. simpl. rewrite Hv. intros ? [= <-].
  wp_step. eapply txk_brelse; [exact R1|apply lookup_insert_eq|done|]. intros t2 R2.
  rewrite x_drop_hold in R2 by done. by apply HQ.
Qed.

Lemma set_sb_id s t : fs_sb s = sb → set_sb sb (set_tx t s) = set_tx t s.
Proof. intros <-. done. Qed.

Lemma wp_bfree s x b (Q : unit → fs S → Prop) :
  fs_rep s x → data_start sb ≤ b < sb_size sb → block_used sb (x_view x) b = true →
  held_ok x → 1 ∉ x_held_blocks x → room 1 x →
  (∀ t', let x' := x_put (BBLOCK b sb) (unmark_bit (x_view x !!! BBLOCK b sb) (b mod BPB)) x in
         fs_rep (set_tx t' s) x' → Q tt (set_tx t' s)) →
  wp (bfree ROOTDEV b) Q s.
Proof.
  intros F Hb Hu Hh H1 Hr HQ. pose proof (fr_geom _ _ F) as G. pose proof (data_start_range sb G).
  pose proof (BBLOCK_home sb G b ltac:(lia)) as [Hbb Hba].
  unfold bfree. wp_step. apply wp_zoom.
  apply (wp_tx_readsb _ x); [apply F|rewrite (fr_size _ _ F); lia|done|eapply room_weaken; [|done]; lia|
                             by eapply fr_not_fresh|].
  intros t1 R1. rewrite (im_sb _ _ (fr_image _ _ F)). do 2 wp_step.
  rewrite set_sb_id by apply F.
  eapply wp_get; [exact R1|rewrite (fr_size _ _ F); lia|apply held_ok_bitmap; [done|lia]|
                  eapply room_weaken; [|done]; lia|].
  intros bp t2 Hbp R2 Hlen. unfold block_used in Hu. apply negb_true_iff in Hu. rewrite Hu.
  eapply (wp_put_tail s); [exact R2|done|by eapply fr_not_fresh| |done|by rewrite length_unmark_bit|].
  - eapply fr_home; [done|lia|done].
  - intros t3 R3. apply HQ. apply fr_put; [done|done|]. apply image_unmark; [done|apply F|done].
Qed.

(** A full disk. *)
Lemma balloc_loop_full fuel : ∀ s x b0,
  fs_rep s x → (∀ b, 0 ≤ b < sb_size sb → block_used sb (x_view x) b = true) → x_held x = ∅ → room 0 x →
  0 ≤ b0 → b0 mod BPB = 0 → (Z.to_nat ((sb_size sb + BPB - 1) / BPB - b0 / BPB) < fuel)%nat →
  balloc_loop fuel ROOTDEV b0 s = Panic "balloc: out of blocks".
Proof.
  induction fuel as [|fuel IH]; intros s x b0 F Hall Hh Hr Hb0 Hm Hfuel; [lia|].
  cbn [balloc_loop]. unfold mbind at 1, M_bind at 1, gets. rewrite (fr_sb _ _ F).
  destruct (Z.ltb_spec b0 (sb_size sb)) as [Hlt|Hge]; [|done].
  pose proof (BBLOCK_home sb (fr_geom _ _ F) b0 ltac:(lia)) as [Hbb Hba].
  apply (run_get s x (BBLOCK b0 sb) _ (λ o, o = Panic "balloc: out of blocks"));
    [apply F|rewrite (fr_size _ _ F); lia| |done|].
  { unfold x_held_blocks. rewrite Hh, map_img_empty_L. apply not_elem_of_empty. }
  intros bp t1 Hbp R1 Hlen.
  pose proof (scan_bits_spec (Z.to_nat BPB) (x_view x !!! BBLOCK b0 sb) b0 (sb_size sb) 0 ltac:(lia) ltac:(lia)) as Hscan.
  destruct (scan_bits _ _ _ _ _) as [r|].
  - destruct Hscan as (Hr1&Hr2&Hr3&Hr4). destruct (bitmap_block b0 r Hm Hr1) as [E1 E2].
    specialize (Hall (b0 + r) ltac:(lia)). unfold block_used in Hall. rewrite E1, E2, Hr3 in Hall. done.
  - eapply (run_release_read s t1 x bp (BBLOCK b0 sb)); [exact R1|done|by eapply fr_not_fresh|].
    intros t2 R2. apply (IH _ x); [by apply fr_same|done|done|done|change BPB with 4096 in *; lia| |].
    + change BPB with 4096 in *. dlia.
    + change BPB with 4096 in *. dlia.
Qed.

Lemma balloc_full s x :
  fs_rep s x → (∀ b, 0 ≤ b < sb_size sb → block_used sb (x_view x) b = true) → x_held x = ∅ → room 0 x →
  balloc ROOTDEV s = Panic "balloc: out of blocks".
Proof.
  intros F Hall Hh Hr. unfold balloc, mbind, M_bind, gets. rewrite (fr_sb _ _ F).
  apply (balloc_loop_full _ s x); try done. pose proof (go_size _ (fr_geom _ _ F)). change BPB with 4096. dlia.
Qed.

(** Freeing a free block. *)
Lemma bfree_free s x b :
  fs_rep s x → data_start sb ≤ b < sb_size sb → block_used sb (x_view x) b = false →
  x_held x = ∅ → room 0 x → bfree ROOTDEV b s = Panic "freeing free block".
Proof.
  intros F Hb Hu Hh Hr. pose proof (fr_geom _ _ F) as G. pose proof (data_start_range sb G).
  pose proof (BBLOCK_home sb G b ltac:(lia)) as [Hbb Hba].
  assert (∀ c, c ∉ x_held_blocks x) as Hnh.
  { intros c. unfold x_held_blocks. rewrite Hh, map_img_empty_L. apply not_elem_of_empty. }
  assert (wp (in_tx (readsb ROOTDEV)) (λ r s', ∃ t', s' = set_tx t' s ∧ tx_rep t' x ∧ r = sb) s) as W.
  { apply wp_zoom. apply (wp_tx_readsb _ x); [apply F|rewrite (fr_size _ _ F); lia|done|done|by eapply fr_not_fresh|].
    intros t' R'. exists t'. rewrite (im_sb _ _ (fr_image _ _ F)). done. }
  apply wp_inv in W as (r&s1&E&t1&->&R1&->). unfold bfree. unfold mbind at 1, M_bind at 1. rewrite E.
  unfold mbind at 1, M_bind at 1, modify. rewrite set_sb_id by apply F.
  apply (run_get (set_tx t1 s) x (BBLOCK b sb) _ (λ o, o = Panic "freeing free block"));
    [exact R1|rewrite (fr_size _ _ F); lia|done|done|].
  intros bp t2 Hbp R2 Hlen. unfold block_used in Hu. apply negb_false_iff in Hu. by rewrite Hu.
Qed.
End spec.
