(* ===== verification/FsData.v ===== *)
(** * File contents (bmap, readi, writei of fs.c)

    A file is the function from byte offsets to bytes that its block map
    defines.  [readi] returns a range of it, and [writei] changes exactly the
    range it is given. *)

From S2P Require Import Prelude Params Block Sleeplock Format Str Tx Fs LogSpec FsSpec.

(** ** Block maps *)

(** The address of block [bn] of the file with addresses [addrs] (0: none). *)
Definition addr_of (v : gmap Z block) (addrs : list Z) (bn : nat) : Z :=
  if (bn <? NDIRECT)%nat then addrs !!! bn
  else if addrs !!! NDIRECT =? 0 then 0
  else get32 (v !!! (addrs !!! NDIRECT)) (4 * (bn - NDIRECT)).

Section maps.
Context (sb : superblock).
Implicit Types (v : gmap Z block) (addrs : list Z).

Definition good v (b : Z) : Prop := data_start sb ≤ b < sb_size sb ∧ block_used sb v b = true.

(** The map of one file: its blocks are allocated data blocks, all different. *)
Record map_ok v addrs : Prop := {
  mo_len : length addrs = (NDIRECT + 1)%nat;
  mo_addr bn : (bn < MAXFILE)%nat → addr_of v addrs bn ≠ 0 → good v (addr_of v addrs bn);
  mo_ind : addrs !!! NDIRECT ≠ 0 → good v (addrs !!! NDIRECT);
  mo_inj bn bn' : (bn < MAXFILE)%nat → (bn' < MAXFILE)%nat → addr_of v addrs bn ≠ 0 →
    addr_of v addrs bn = addr_of v addrs bn' → bn = bn';
  mo_ind_ne bn : (bn < MAXFILE)%nat → addrs !!! NDIRECT ≠ 0 → addr_of v addrs bn ≠ addrs !!! NDIRECT
}.

Lemma addr_of_ext v v' addrs bn :
  (addrs !!! NDIRECT ≠ 0 → v' !!! (addrs !!! NDIRECT) = v !!! (addrs !!! NDIRECT)) →
  addr_of v' addrs bn = addr_of v addrs bn.
Proof.
  intros Hv. unfold addr_of. destruct (bn <? NDIRECT)%nat; [done|].
  destruct (Z.eqb_spec (addrs !!! NDIRECT) 0); [done|]. by rewrite Hv.
Qed.

Lemma addr_of_direct v addrs bn : (bn < NDIRECT)%nat → addr_of v addrs bn = addrs !!! bn.
Proof. intros. unfold addr_of. by rewrite (proj2 (Nat.ltb_lt _ _)). Qed.

Lemma addr_of_indirect v addrs bn : (NDIRECT ≤ bn)%nat → addrs !!! NDIRECT ≠ 0 →
  addr_of v addrs bn = get32 (v !!! (addrs !!! NDIRECT)) (4 * (bn - NDIRECT)).
Proof.
  intros. unfold addr_of. rewrite (proj2 (Nat.ltb_ge _ _)) by done.
  by destruct (Z.eqb_spec (addrs !!! NDIRECT) 0).
Qed.

(** The map survives when its indirect block is kept and no block is freed. *)
Lemma map_ok_ext v v' addrs :
  map_ok v addrs →
  (addrs !!! NDIRECT ≠ 0 → v' !!! (addrs !!! NDIRECT) = v !!! (addrs !!! NDIRECT)) →
  (∀ b, good v b → good v' b) →
  map_ok v' addrs.
Proof.
  intros [H1 H2 H3 H4 H5] Hv Hu.
  assert (∀ bn, addr_of v' addrs bn = addr_of v addrs bn) as E by (intros; by apply addr_of_ext).
  split; [done| | | |].
  - intros bn Hbn. rewrite E. intros Hnz. by apply Hu, H2.
  - intros Hnz. by apply Hu, H3.
  - intros bn bn'. rewrite !E. apply H4.
  - intros bn. rewrite E. apply H5.
Qed.

(** A free block is not in any map. *)
Lemma not_good v b : block_used sb v b = false → ¬ good v b.
Proof. intros Hu [_ Hg]. congruence. Qed.

(** Adding a fresh direct block. *)
Lemma map_ok_direct v v' addrs bn b :
  map_ok v addrs → (bn < NDIRECT)%nat → addrs !!! bn = 0 →
  block_used sb v b = false → good v' b →
  (addrs !!! NDIRECT ≠ 0 → v' !!! (addrs !!! NDIRECT) = v !!! (addrs !!! NDIRECT)) →
  (∀ b, good v b → good v' b) →
  map_ok v' (<[bn:=b]> addrs) ∧
  (∀ bn', (bn' < MAXFILE)%nat → addr_of v' (<[bn:=b]> addrs) bn' =
     if decide (bn' = bn) then b else addr_of v addrs bn').
Proof.
  intros Ho Hbn Hz Hfree Hb Hv Hu. pose proof (mo_len _ _ Ho) as Hl.
  assert (bn < length addrs)%nat as Hlt by (rewrite Hl; lia).
  assert ((<[bn:=b]> addrs) !!! NDIRECT = addrs !!! NDIRECT) as Eind.
  { apply list_lookup_total_insert_ne. lia. }
  assert (E : ∀ bn', (bn' < MAXFILE)%nat → addr_of v' (<[bn:=b]> addrs) bn' =
     if decide (bn' = bn) then b else addr_of v addrs bn').
  { intros bn' _. unfold addr_of. rewrite Eind. destruct (Nat.ltb_spec bn' NDIRECT).
    - case_decide; subst; [by apply list_lookup_total_insert_eq|by apply list_lookup_total_insert_ne].
    - rewrite decide_False by lia. destruct (Z.eqb_spec (addrs !!! NDIRECT) 0); [done|]. by rewrite Hv. }
  split; [|done]. destruct Ho as [H1 H2 H3 H4 H5].
  assert (∀ b', good v b' → b' ≠ b) as Hne by (intros b' Hg ->; by apply (not_good v b)).
  split.
  - by rewrite length_insert.
  - intros bn' Hbn'. rewrite E by done. case_decide; [done|]. intros Hnz.
    by apply Hu, H2.
  - rewrite Eind. intros Hnz. by apply Hu, H3.
  - intros b1 b2 Hb1 Hb2. rewrite !E by done. repeat case_decide; subst; try done.
    + intros Hnz Heq. destruct (decide (addr_of v addrs b2 = 0)); [congruence|].
      destruct (Hne (addr_of v addrs b2)); auto.
    + intros Hnz Heq. destruct (Hne (addr_of v addrs b1)); auto.
    + by apply H4.
  - intros bn' Hbn'. rewrite Eind, E by done. intros Hnz. case_decide; [|by apply H5].
    intros ->. by destruct (Hne (addrs !!! NDIRECT)); auto.
Qed.

(** Adding an empty indirect block. *)
Lemma map_ok_new_indirect v v' addrs b :
  map_ok v addrs → addrs !!! NDIRECT = 0 → b ≠ 0 →
  block_used sb v b = false → good v' b → v' !!! b = zero_block →
  (∀ b, good v b → good v' b) →
  map_ok v' (<[NDIRECT:=b]> addrs) ∧
  (∀ bn', (bn' < MAXFILE)%nat → addr_of v' (<[NDIRECT:=b]> addrs) bn' = addr_of v addrs bn').
Proof.
  intros Ho Hz Hb0 Hfree Hb Hzero Hu. pose proof (mo_len _ _ Ho) as Hl.
  assert ((<[NDIRECT:=b]> addrs) !!! NDIRECT = b) as Eind.
  { apply list_lookup_total_insert_eq. rewrite Hl. lia. }
  assert (E : ∀ bn', (bn' < MAXFILE)%nat → addr_of v' (<[NDIRECT:=b]> addrs) bn' = addr_of v addrs bn').
  { intros bn' Hbn'. unfold addr_of. rewrite Eind, Hz. destruct (Nat.ltb_spec bn' NDIRECT).
    - apply list_lookup_total_insert_ne. lia.
    - destruct (Z.eqb_spec b 0); [done|]. rewrite Hzero. simpl.
      unfold get32, slice, zero_block. rewrite drop_replicate, take_replicate.
      set (k := Nat.min _ _). assert (∀ k, le_value (replicate k 0) = 0) as Hle.
      { clear. induction k as [|k IH]; [done|]. cbn [replicate le_value]. by rewrite IH. } apply Hle. }
  split; [|done]. destruct Ho as [H1 H2 H3 H4 H5].
  split.
  - by rewrite length_insert.
  - intros bn' Hbn'. rewrite E by done. intros Hnz. by apply Hu, H2.
  - by rewrite Eind.
  - intros b1 b2 Hb1 Hb2. rewrite !E by done. by apply H4.
  - intros bn' Hbn'. rewrite Eind, E by done. intros _ Heq.
    destruct (not_good v b Hfree). rewrite <- Heq. apply H2; [done|]. by rewrite Heq.
Qed.

(** Adding a fresh block to the indirect block. *)
Lemma map_ok_indirect v v' addrs bn b :
  map_ok v addrs → (NDIRECT ≤ bn < MAXFILE)%nat → addrs !!! NDIRECT ≠ 0 →
  addr_of v addrs bn = 0 → 0 ≤ b < 2 ^ 32 →
  block_used sb v b = false → good v' b → length (v !!! (addrs !!! NDIRECT)) = BSIZE →
  v' !!! (addrs !!! NDIRECT) = put32 (v !!! (addrs !!! NDIRECT)) (4 * (bn - NDIRECT)) b →
  (∀ b, good v b → good v' b) →
  map_ok v' addrs ∧
  (∀ bn', (bn' < MAXFILE)%nat → addr_of v' addrs bn' = if decide (bn' = bn) then b else addr_of v addrs bn').
Proof.
  intros Ho Hbn Hind Hz Hb32 Hfree Hb Hlen Hv Hu.
  assert (E : ∀ bn', (bn' < MAXFILE)%nat → addr_of v' addrs bn' = if decide (bn' = bn) then b else addr_of v addrs bn').
  { change MAXFILE with 140%nat in *. change NDIRECT with 12%nat in *. change BSIZE with 512%nat in *.
    intros bn' Hbn'. destruct (decide (bn' < 12)%nat).
    - rewrite !addr_of_direct by done. rewrite decide_False by lia. done.
    - rewrite !addr_of_indirect by (done || (change NDIRECT with 12%nat; lia)). change NDIRECT with 12%nat. rewrite Hv.
      case_decide; subst; [rewrite get32_put32_eq by lia; by apply u32_small|].
      apply get32_put32_ne; lia. }
  split; [|done]. destruct Ho as [H1 H2 H3 H4 H5].
  assert (∀ b', good v b' → b' ≠ b) as Hne by (intros b' Hg ->; by apply (not_good v b)).
  split.
  - done.
  - intros bn' Hbn'. rewrite E by done. case_decide; [done|]. intros Hnz.
    by apply Hu, H2.
  - intros Hnz. by apply Hu, H3.
  - intros b1 b2 Hb1 Hb2. rewrite !E by done. repeat case_decide; subst; try done.
    + intros Hnz Heq. destruct (decide (addr_of v addrs b2 = 0)); [congruence|].
      destruct (Hne (addr_of v addrs b2)); auto.
    + intros Hnz Heq. destruct (Hne (addr_of v addrs b1)); auto.
    + by apply H4.
  - intros bn' Hbn' _. rewrite E by done. case_decide; [|by apply H5].
    intros ->. by destruct (Hne (addrs !!! NDIRECT)); auto.
Qed.
End maps.

(** ** Free space *)

Section alloc.
Context (sb : superblock) (G : geom_ok sb).
Implicit Types (x : txst).

Definition has_free (n : nat) (v : gmap Z block) : Prop :=
  ∃ F, NoDup F ∧ length F = n ∧ Forall (λ b, 0 ≤ b < sb_size sb ∧ block_used sb v b = false) F.

(** The bitmap block of [b] is no data block. *)
Lemma bitmap_not_data b b' : 0 ≤ b < sb_size sb → data_start sb ≤ b' → BBLOCK b sb ≠ b'.
Proof. intros Hb Hb'. pose proof (BBLOCK_range sb b Hb). lia. Qed.

Lemma alloc_used x b b' : image_ok sb (x_view x) → first_free sb (x_view x) b → 0 ≤ b' < sb_size sb →
  block_used sb (x_view (x_alloc sb b x)) b' = if decide (b = b') then true else block_used sb (x_view x) b'.
Proof.
  intros I Hf Hb'. pose proof (first_free_data _ _ _ I Hf). pose proof (data_start_range sb G).
  pose proof (BBLOCK_home sb G b ltac:(lia)) as [? _].
  unfold x_alloc. cbn [x_view x_put]. rewrite (block_used_other _ _ b) by (apply bitmap_not_data; lia).
  apply block_used_mark. apply (image_lookup sb _ (BBLOCK b sb) I). lia.
Qed.

Lemma alloc_keep x b c : image_ok sb (x_view x) → first_free sb (x_view x) b → c ≠ b →
  (∀ b', 0 ≤ b' < sb_size sb → BBLOCK b' sb ≠ c) →
  x_view (x_alloc sb b x) !! c = x_view x !! c.
Proof.
  intros I Hf Hc Hnb. pose proof Hf as (Hb&_). simpl. rewrite lookup_insert_ne by done.
  by rewrite lookup_insert_ne by auto.
Qed.

Lemma alloc_zero x b : x_view (x_alloc sb b x) !!! b = zero_block.
Proof. simpl. apply lookup_total_insert_eq. Qed.

Lemma lookup_total_same (v v' : gmap Z block) c : v' !! c = v !! c → v' !!! c = v !!! c.
Proof. unfold lookup_total, map_lookup_total. by intros ->. Qed.

(** There is a first free block as soon as there is one at all. *)
Lemma first_free_exists v b : 0 ≤ b < sb_size sb → block_used sb v b = false →
  ∃ b', first_free sb v b'.
Proof.
  intros Hb Hu.
  assert (∀ n, (∀ b', 0 ≤ b' < Z.of_nat n → block_used sb v b' = true) ∨
               (∃ b', 0 ≤ b' < Z.of_nat n ∧ block_used sb v b' = false ∧
                      ∀ c, 0 ≤ c < b' → block_used sb v c = true)) as Hn.
  { induction n as [|n [IH|(b'&?&?&?)]]; [left; lia| |right; exists b'; split_and!; done || lia].
    destruct (block_used sb v (Z.of_nat n)) eqn:E.
    - left. intros b' Hb'. destruct (decide (b' = Z.of_nat n)) as [->|]; [done|apply IH; lia].
    - right. exists (Z.of_nat n). split_and!; [lia|lia|done|done]. }
  destruct (Hn (Z.to_nat (b + 1))) as [Hall|(b'&?&?&?)].
  - rewrite Hall in Hu by lia. done.
  - exists b'. split_and!; try done; lia.
Qed.

Lemma has_free_first n v : has_free (S n) v → ∃ b, first_free sb v b.
Proof.
  intros (F&_&Hl&HF). destruct F as [|b F]; [done|]. apply Forall_cons in HF as [[Hb Hu] _].
  by eapply first_free_exists.
Qed.

Lemma has_free_weaken n m v : (m ≤ n)%nat → has_free n v → has_free m v.
Proof.
  intros Hm (F&Hnd&Hl&HF). exists (take m F). split_and!.
  - eapply sublist_NoDup; [done|apply sublist_take].
  - rewrite length_take. lia.
  - by apply Forall_take.
Qed.

Lemma has_free_alloc n x b : image_ok sb (x_view x) → first_free sb (x_view x) b →
  has_free (S n) (x_view x) → has_free n (x_view (x_alloc sb b x)).
Proof.
  intros I Hf (F&Hnd&Hl&HF).
  assert (Hkeep : ∀ F', b ∉ F' → Forall (λ b, 0 ≤ b < sb_size sb ∧ block_used sb (x_view x) b = false) F' →
    Forall (λ c, 0 ≤ c < sb_size sb ∧ block_used sb (x_view (x_alloc sb b x)) c = false) F').
  { intros F' Hni HF'. apply Forall_forall. intros c Hc. rewrite Forall_forall in HF'.
    destruct (HF' c Hc). split; [done|]. rewrite alloc_used by done.
    rewrite decide_False by (intros ->; done). done. }
  destruct (decide (b ∈ F)) as [Hin|Hnin].
  - apply elem_of_Permutation in Hin as [F' HF']. rewrite HF' in Hnd, HF.
    apply NoDup_cons in Hnd as [Hni Hnd]. apply Forall_cons in HF as [_ HF].
    exists F'. split_and!; [done| |by apply Hkeep]. rewrite HF' in Hl. simpl in Hl. lia.
  - apply (has_free_weaken (S n)); [lia|]. exists F. split_and!; [done|done|by apply Hkeep].
Qed.

(** Allocation keeps every block that is in use, and every block map. *)
Lemma alloc_keep_good x b c : image_ok sb (x_view x) → first_free sb (x_view x) b →
  good sb (x_view x) c →
  x_view (x_alloc sb b x) !!! c = x_view x !!! c ∧ good sb (x_view (x_alloc sb b x)) c.
Proof.
  intros I Hf [Hr Hu]. pose proof (data_start_range sb G).
  assert (c ≠ b) by (intros ->; destruct Hf as (_&Hf&_); congruence). split.
  - apply lookup_total_same, alloc_keep; try done. intros b' Hb'. apply bitmap_not_data; [done|lia].
  - split; [done|]. rewrite alloc_used by (done || lia). by case_decide.
Qed.

Lemma alloc_good x b : image_ok sb (x_view x) → first_free sb (x_view x) b →
  good sb (x_view (x_alloc sb b x)) b.
Proof.
  intros I Hf. pose proof (first_free_data _ _ _ I Hf). pose proof (data_start_range sb G).
  split; [done|]. rewrite alloc_used by (done || lia). by rewrite decide_True.
Qed.
End alloc.

(** ** bmap *)

Section data.
Context {S : Type} `{TxSpec S} (sb : superblock).
Implicit Types (s : fs S) (x : txst) (i : nat) (ip : inode).

(** The state with inode [i] set to [ip] and transaction state [t]. *)
Definition upd_st i ip (t : S) s : fs S := set_icache (<[i:=ip]> (icache s)) (set_tx t s).

(** A process works on inode [i], whose in-memory copy is [ip]. *)
Record ino_rep s x i ip : Prop := {
  ir_fs : fs_rep sb s x;
  ir_ip : icache s !! i = Some ip;
  ir_dev : i_dev ip = ROOTDEV;
  ir_map : map_ok sb (x_view x) (i_addrs ip);
  ir_held : x_held x = ∅
}.

Lemma the_inode_eq s i ip : icache s !! i = Some ip → icache s !!! i = ip.
Proof. apply list_lookup_total_correct. Qed.

Lemma upd_st_id s i ip : icache s !! i = Some ip → upd_st i ip (fs_tx s) s = s.
Proof. intros E. unfold upd_st. rewrite set_tx_id, list_insert_id by done. by destruct s. Qed.

Lemma upd_st_upd s i ip ip' t t' : upd_st i ip' t' (upd_st i ip t s) = upd_st i ip' t' s.
Proof. unfold upd_st, set_icache, set_tx; simpl. by rewrite list_insert_insert_eq. Qed.

Lemma upd_inode_st s i ip f t : icache s !! i = Some ip →
  set_icache (alter f i (icache (set_tx t s))) (set_tx t s) = upd_st i (f ip) t s.
Proof.
  intros E. unfold upd_st. f_equal. simpl. apply list_eq. intros j.
  destruct (decide (i = j)) as [<-|Hne].
  - rewrite list_lookup_alter_eq, E. simpl. rewrite list_lookup_insert_eq; [done|]. by eapply lookup_lt_Some.
  - by rewrite list_lookup_alter_ne, list_lookup_insert_ne.
Qed.

Lemma wp_the_inode s i ip (Q : inode → fs S → Prop) :
  icache s !! i = Some ip → Q ip s → wp (the_inode i) Q s.
Proof. intros E HQ. unfold the_inode. wp_step. by rewrite (the_inode_eq _ _ _ E). Qed.

Lemma wp_upd_inode s i ip f (Q : unit → fs S → Prop) :
  icache s !! i = Some ip → Q tt (upd_st i (f ip) (fs_tx s) s) → wp (upd_inode i f) Q s.
Proof.
  intros E HQ. unfold upd_inode. wp_step. rewrite <- (upd_inode_st _ _ _ f _ E) in HQ.
  by rewrite set_tx_id in HQ.
Qed.

Lemma fs_rep_upd s x t i ip : fs_rep sb (set_tx t s) x → fs_rep sb (upd_st i ip t s) x.
Proof. intros []. by split. Qed.

Lemma lookup_upd s i ip ip' t : icache s !! i = Some ip → icache (upd_st i ip' t s) !! i = Some ip'.
Proof. intros E%lookup_lt_Some. simpl. by apply list_lookup_insert_eq. Qed.

Lemma held_ok_empty x : x_held x = ∅ → held_ok sb x.
Proof. intros E h. unfold x_held_blocks. rewrite E, map_img_empty_L. by intros ?%elem_of_empty. Qed.

Lemma wp_addr_or_alloc s x i ip k (Q : Z → fs S → Prop) :
  ino_rep s x i ip →
  (i_addrs ip !!! k ≠ 0 → Q (i_addrs ip !!! k) s) →
  (i_addrs ip !!! k = 0 → room 2 x ∧ ∃ b, first_free sb (x_view x) b ∧
     ∀ t', fs_rep sb (set_tx t' s) (x_alloc sb b x) →
     Q b (upd_st i (set_i_addrs (<[k:=b]> (i_addrs ip)) ip) t' s)) →
  wp (addr_or_alloc i k) Q s.
Proof.
  intros I HQ1 HQ2. unfold addr_or_alloc. wp_step.
  apply (wp_the_inode _ _ ip); [apply I|]. destruct (Z.eqb_spec (i_addrs ip !!! k) 0) as [E|E].
  - destruct (HQ2 E) as (Hr&b&Hf&HQ). rewrite (ir_dev _ _ _ _ I). wp_step.
    eapply wp_balloc; [apply I|done|apply held_ok_empty, I|done|]. intros t' F'.
    wp_step. apply (wp_upd_inode _ _ ip); [apply I|]. wp_step. by apply HQ.
  - wp_step. by apply HQ1.
Qed.

(** What [bmap] of block [bn] does to the transaction and the addresses. *)
Record bmap_post x (addrs : list Z) (bn : nat) (addr : Z) x' (addrs' : list Z) : Prop := {
  bp_addr : addr_of (x_view x') addrs' bn = addr;
  bp_good : good sb (x_view x') addr;
  bp_map : map_ok sb (x_view x') addrs';
  bp_same bn' : (bn' < MAXFILE)%nat → bn' ≠ bn →
    addr_of (x_view x') addrs' bn' = addr_of (x_view x) addrs bn';
  bp_old : addr_of (x_view x) addrs bn ≠ 0 → x' = x ∧ addrs' = addrs;
  bp_new : addr_of (x_view x) addrs bn = 0 →
    x_view x' !!! addr = zero_block ∧ block_used sb (x_view x) addr = false;
  bp_ind : addrs' !!! NDIRECT = addrs !!! NDIRECT ∨
    (addrs !!! NDIRECT = 0 ∧ block_used sb (x_view x) (addrs' !!! NDIRECT) = false);
  bp_keep c : good sb (x_view x) c → c ≠ addrs !!! NDIRECT → x_view x' !!! c = x_view x !!! c;
  bp_used c : good sb (x_view x) c → good sb (x_view x') c;
  bp_meta c : 0 ≤ c < sb_bmapstart sb → x_view x' !! c = x_view x !! c;
  bp_held : x_held x' = x_held x ∧ x_disk x' = x_disk x ∧ x_ops x' = x_ops x;
  bp_room k : room (k + 5) x → room k x';
  bp_free n : has_free sb (n + 2) (x_view x) → has_free sb n (x_view x')
}.

Lemma bmap_post_refl x addrs bn : map_ok sb (x_view x) addrs → (bn < MAXFILE)%nat →
  addr_of (x_view x) addrs bn ≠ 0 →
  bmap_post x addrs bn (addr_of (x_view x) addrs bn) x addrs.
Proof.
  intros Ho Hbn Hnz. split; try done.
  - by apply Ho.
  - by left.
  - intros k. apply room_weaken. lia.
  - intros n. apply has_free_weaken. lia.
Qed.

Lemma alloc_room k b x : room (k + 2) x → room k (x_alloc sb b x).
Proof. intros. unfold x_alloc. apply room_put, room_put. by replace (Datatypes.S (Datatypes.S k)) with (k + 2)%nat by lia. Qed.

(** A new direct block. *)
Lemma bmap_post_direct x addrs bn b :
  geom_ok sb → image_ok sb (x_view x) → map_ok sb (x_view x) addrs → (bn < NDIRECT)%nat →
  addrs !!! bn = 0 → first_free sb (x_view x) b →
  bmap_post x addrs bn b (x_alloc sb b x) (<[bn:=b]> addrs).
Proof.
  intros G Im Ho Hbn Hz Hf. pose proof (alloc_good sb G x b Im Hf) as Hgood.
  pose proof (λ c Hc, proj1 (alloc_keep_good sb G x b c Im Hf Hc)) as Hkeep.
  pose proof (λ c Hc, proj2 (alloc_keep_good sb G x b c Im Hf Hc)) as Hused.
  destruct (map_ok_direct sb _ (x_view (x_alloc sb b x)) addrs bn b Ho Hbn Hz) as [Ho' E]; try done.
  { apply Hf. } { intros Hnz. apply Hkeep. by apply Ho. }
  assert (bn < MAXFILE)%nat as Hmax by (change NDIRECT with 12%nat in *; change MAXFILE with 140%nat; lia).
  split; try done.
  - rewrite E by done. by rewrite decide_True.
  - intros bn' Hbn' Hne. rewrite E by done. by rewrite decide_False.
  - by rewrite addr_of_direct.
  - intros _. split; [apply alloc_zero|apply Hf].
  - left. apply list_lookup_total_insert_ne. lia.
  - intros c Hc _. by apply Hkeep.
  - intros c Hc. pose proof (data_start_range sb G). pose proof (bmapstart_data sb G).
    apply alloc_keep; try done; [|intros b' Hb'; pose proof (BBLOCK_range sb b' Hb'); lia].
    pose proof (first_free_data _ _ _ Im Hf). lia.
  - intros k Hk. apply alloc_room. eapply room_weaken; [|done]. lia.
  - intros n Hn. apply (has_free_alloc sb G); [done|done|]. eapply has_free_weaken; [|done]. lia.
Qed.

(** A new entry [b] of the indirect block. *)
Definition x_entry (addrs : list Z) (bn : nat) (b : Z) x : txst :=
  let ind := addrs !!! NDIRECT in
  x_put ind (put32 (x_view x !!! ind) (4 * (bn - NDIRECT)) b) (x_alloc sb b x).

Lemma entry_view addrs bn b x c : c ≠ addrs !!! NDIRECT →
  x_view (x_entry addrs bn b x) !! c = x_view (x_alloc sb b x) !! c.
Proof. intros. unfold x_entry. simpl. by rewrite lookup_insert_ne. Qed.

Lemma entry_used addrs bn b x c : data_start sb ≤ addrs !!! NDIRECT → 0 ≤ c < sb_size sb →
  block_used sb (x_view (x_entry addrs bn b x)) c = block_used sb (x_view (x_alloc sb b x)) c.
Proof. intros Hd Hc. apply block_used_other. by apply bitmap_not_data. Qed.

Lemma entry_room k addrs bn b x : room (k + 3) x → room k (x_entry addrs bn b x).
Proof.
  intros. unfold x_entry. apply room_put, alloc_room. by replace (Datatypes.S k + 2)%nat with (k + 3)%nat by lia.
Qed.

Lemma bmap_post_indirect x addrs bn b :
  geom_ok sb → image_ok sb (x_view x) → map_ok sb (x_view x) addrs → (NDIRECT ≤ bn < MAXFILE)%nat →
  addrs !!! NDIRECT ≠ 0 → addr_of (x_view x) addrs bn = 0 → first_free sb (x_view x) b →
  bmap_post x addrs bn b (x_entry addrs bn b x) addrs ∧
  (∀ n, has_free sb (Datatypes.S n) (x_view x) → has_free sb n (x_view (x_entry addrs bn b x))).
Proof.
  intros G Im Ho Hbn Hind Hz Hf. pose proof (alloc_good sb G x b Im Hf) as Hgood.
  pose proof (mo_ind _ _ _ Ho Hind) as [Hir Hiu].
  pose proof (first_free_data _ _ _ Im Hf) as Hbd. pose proof (data_start_range sb G) as Hds.
  assert (0 ≤ b < 2 ^ 32) as Hb32 by (destruct (go_size _ G); lia).
  assert (b ≠ addrs !!! NDIRECT) as Hbi by (intros E; destruct Hf as (_&Hf&_); congruence).
  assert (Hgood_eq : ∀ c, good sb (x_view (x_alloc sb b x)) c → good sb (x_view (x_entry addrs bn b x)) c).
  { intros c [Hc Hcu]. split; [done|]. by rewrite entry_used by lia. }
  assert (Hkeep : ∀ c, good sb (x_view x) c → c ≠ addrs !!! NDIRECT →
            x_view (x_entry addrs bn b x) !!! c = x_view x !!! c).
  { intros c Hc Hne. rewrite (lookup_total_same (x_view (x_alloc sb b x))) by (by apply entry_view).
    by apply (alloc_keep_good sb G). }
  assert (Hused : ∀ c, good sb (x_view x) c → good sb (x_view (x_entry addrs bn b x)) c).
  { intros c Hc. by apply Hgood_eq, (alloc_keep_good sb G). }
  destruct (map_ok_indirect sb _ (x_view (x_entry addrs bn b x)) addrs bn b Ho Hbn Hind Hz Hb32)
    as [Ho' E]; try done.
  { apply Hf. } { auto. } { apply (image_lookup sb); [done|lia]. } { apply lookup_total_insert_eq. }
  assert (Hfree : ∀ n, has_free sb (Datatypes.S n) (x_view x) → has_free sb n (x_view (x_entry addrs bn b x))).
  { intros n Hn. destruct (has_free_alloc sb G n x b Im Hf Hn) as (F&?&?&HF). exists F. split_and!; try done.
    eapply Forall_impl; [exact HF|]. intros c [Hc Hcu]. split; [done|]. by rewrite entry_used by lia. }
  split; [|done]. split; try done.
  - rewrite E by lia. by rewrite decide_True.
  - auto.
  - intros bn' Hbn' Hne. rewrite E by done. by rewrite decide_False.
  - intros _. split; [|apply Hf].
    rewrite (lookup_total_same (x_view (x_alloc sb b x))) by (by apply entry_view). apply alloc_zero.
  - by left.
  - intros c Hc. pose proof (bmapstart_data sb G). rewrite entry_view by lia.
    apply alloc_keep; try done; [lia|intros b' Hb'; pose proof (BBLOCK_range sb b' Hb'); lia].
  - intros k Hk. apply entry_room. eapply room_weaken; [|done]. lia.
  - intros n Hn. apply Hfree. eapply has_free_weaken; [|done]. lia.
Qed.

(** A new indirect block and its first entry. *)
Lemma bmap_post_new_indirect x addrs bn b1 b2 :
  geom_ok sb → image_ok sb (x_view x) → image_ok sb (x_view (x_alloc sb b1 x)) →
  map_ok sb (x_view x) addrs → (NDIRECT ≤ bn < MAXFILE)%nat →
  addrs !!! NDIRECT = 0 → first_free sb (x_view x) b1 → first_free sb (x_view (x_alloc sb b1 x)) b2 →
  bmap_post x addrs bn b2 (x_entry (<[NDIRECT:=b1]> addrs) bn b2 (x_alloc sb b1 x)) (<[NDIRECT:=b1]> addrs).
Proof.
  intros G Im Im1 Ho Hbn Hind Hf1 Hf2. pose proof (alloc_good sb G x b1 Im Hf1) as Hgood1.
  pose proof (λ c Hc, proj1 (alloc_keep_good sb G x b1 c Im Hf1 Hc)) as Hkeep1.
  pose proof (λ c Hc, proj2 (alloc_keep_good sb G x b1 c Im Hf1 Hc)) as Hused1.
  pose proof (first_free_data _ _ _ Im Hf1) as Hb1. pose proof (data_start_range sb G) as Hds.
  pose proof (first_free_data _ _ _ Im1 Hf2) as Hb2.
  destruct (map_ok_new_indirect sb _ (x_view (x_alloc sb b1 x)) addrs b1 Ho Hind) as [Ho1 E1]; try done.
  { lia. } { apply Hf1. } { apply alloc_zero. }
  set (addrs1 := <[NDIRECT:=b1]> addrs) in *. set (x1 := x_alloc sb b1 x) in *.
  assert (addrs1 !!! NDIRECT = b1) as Eind.
  { apply list_lookup_total_insert_eq. rewrite (mo_len _ _ _ Ho). lia. }
  assert (addr_of (x_view x) addrs bn = 0) as Hz.
  { unfold addr_of. rewrite (proj2 (Nat.ltb_ge _ _)) by lia. by rewrite Hind. }
  destruct (bmap_post_indirect x1 addrs1 bn b2) as [[P1 P2 P3 P4 P5 P6 _ P7 P8 P9 P10 P11 P12] Pf]; try done.
  { rewrite Eind. lia. } { rewrite E1 by lia. done. }
  split; try done.
  - intros bn' Hbn' Hne. rewrite P4 by done. by apply E1.
  - intros _. destruct P6 as [P6 P6']; [by rewrite E1 by lia|]. split; [done|].
    unfold x1 in P6'. rewrite (alloc_used sb G) in P6' by (done || lia). by case_decide.
  - right. split; [done|]. rewrite Eind. apply Hf1.
  - intros c Hc _. rewrite P7; [by apply Hkeep1|by apply Hused1|]. rewrite Eind. intros ->.
    destruct Hc as [_ Hc]. destruct Hf1 as (_&Hf1&_). congruence.
  - intros c Hc. by apply P8, Hused1.
  - intros c Hc. rewrite P9 by done. pose proof (bmapstart_data sb G).
    apply alloc_keep; try done; [lia|intros b' Hb'; pose proof (BBLOCK_range sb b' Hb'); lia].
  - intros k Hk. apply entry_room, alloc_room. by replace (k + 3 + 2)%nat with (k + 5)%nat by lia.
  - intros n Hn. apply Pf, (has_free_alloc sb G); [done|done|]. by replace (Datatypes.S (Datatypes.S n)) with (n + 2)%nat by lia.
Qed.

Lemma set_i_addrs_id ip : set_i_addrs (i_addrs ip) ip = ip.
Proof. by destruct ip. Qed.

Lemma ino_rep_upd s x i ip t x' addrs' : ino_rep s x i ip → fs_rep sb (set_tx t s) x' →
  map_ok sb (x_view x') addrs' → x_held x' = x_held x →
  ino_rep (upd_st i (set_i_addrs addrs' ip) t s) x' i (set_i_addrs addrs' ip).
Proof.
  intros [F E Hd Ho Hh] F' Ho' Hh'. split; try done.
  - by apply fs_rep_upd.
  - by eapply lookup_upd.
  - by rewrite Hh'.
Qed.

(** The second half of [bmap]: load the indirect block, allocating the entry if
    there is none. *)
Lemma wp_bmap_indirect s x i ip bn ind (Q : Z → fs S → Prop) :
  ino_rep s x i ip → i_addrs ip !!! NDIRECT = ind → (NDIRECT ≤ bn < MAXFILE)%nat → ind ≠ 0 → room 0 x →
  (addr_of (x_view x) (i_addrs ip) bn ≠ 0 → ∀ t', fs_rep sb (set_tx t' s) x →
     Q (addr_of (x_view x) (i_addrs ip) bn) (set_tx t' s)) →
  (addr_of (x_view x) (i_addrs ip) bn = 0 → room 3 x ∧ ∃ b, first_free sb (x_view x) b ∧
     ∀ t', fs_rep sb (set_tx t' s) (x_entry (i_addrs ip) bn b x) → Q b (set_tx t' s)) →
  wp (ip0 ← the_inode i;
      bp ← in_tx (op_bread (i_dev ip0) ind);
      a ← in_tx (op_data bp);
      let addr := get32 a (4 * Z.to_nat (Z.of_nat bn - Z.of_nat NDIRECT)) in
      if addr =? 0 then
        addr ← balloc (i_dev ip0);
        in_tx (op_set_data bp (put32 a (4 * Z.to_nat (Z.of_nat bn - Z.of_nat NDIRECT)) addr));;
        in_tx (op_log_write bp);;
        in_tx (op_brelse bp);;
        mret addr
      else
        in_tx (op_brelse bp);;
        mret addr) Q s.
Proof.
  intros I <- Hbn Hind Hr HQ1 HQ2. pose proof I as [F E Hd Ho Hh].
  pose proof (fr_geom _ _ _ F) as G. pose proof (data_start_range sb G).
  pose proof (mo_ind _ _ _ Ho Hind) as [Hir Hiu].
  destruct (data_home sb G _ Hir) as [Hi2 Hia].
  wp_step. apply (wp_the_inode _ _ ip); [done|]. rewrite Hd.
  eapply wp_get; [apply F|rewrite (fr_size _ _ _ F); lia| |done|].
  { unfold x_held_blocks. rewrite Hh, map_img_empty_L. apply not_elem_of_empty. }
  intros bp t1 Hbp R1 Hlen. rewrite <- Nat2Z.inj_sub, Nat2Z.id by lia.
  rewrite <- addr_of_indirect by (lia || done). cbv zeta.
  destruct (Z.eqb_spec (addr_of (x_view x) (i_addrs ip) bn) 0) as [Ez|Ez].
  - destruct (HQ2 Ez) as (Hr3&b&Hf&HQ). wp_step.
    set (ind := i_addrs ip !!! NDIRECT) in *.
    eapply (wp_balloc sb _ (x_hold bp ind x) b).
    + destruct F. split; done.
    + exact Hf.
    + intros h Hh'. unfold x_held_blocks in Hh'. simpl in Hh'. rewrite Hh, insert_empty, map_img_singleton_L in Hh'.
      apply elem_of_singleton in Hh' as ->. by split.
    + apply room_hold; [done|]. done.
    + intros t2 F2.
      change (x_alloc sb b (x_hold bp ind x)) with (x_hold bp ind (x_alloc sb b x)) in F2.
      assert (length (put32 (x_view x !!! ind) (4 * (bn - NDIRECT)) b) = BSIZE) as Hlp.
      { rewrite length_put32; [done|]. rewrite Hlen. change BSIZE with 512%nat.
        change MAXFILE with 140%nat in *. change NDIRECT with 12%nat in *. lia. }
      eapply wp_put; [apply F2|done| | | |exact Hlp|].
      * simpl. by eapply fr_not_fresh.
      * exact (fr_home sb s x ind F ltac:(lia) Hia).
      * by apply alloc_room.
      * intros t3 R3. wp_step. apply (HQ t3). destruct F2 as [_ ? ? ? ? ? Im]. split; try done.
        by apply image_data.
  - eapply wp_release_read; [exact R1|done|by eapply fr_not_fresh|]. intros t2 R2. wp_step.
    apply HQ1; [done|]. by apply fr_same.
Qed.

Lemma wp_bmap s x i ip bn (Q : Z → fs S → Prop) :
  ino_rep s x i ip → (bn < MAXFILE)%nat → room 0 x →
  (addr_of (x_view x) (i_addrs ip) bn = 0 → room 5 x ∧ has_free sb 2 (x_view x)) →
  (∀ addr x' addrs' t', bmap_post x (i_addrs ip) bn addr x' addrs' →
     ino_rep (upd_st i (set_i_addrs addrs' ip) t' s) x' i (set_i_addrs addrs' ip) →
     Q addr (upd_st i (set_i_addrs addrs' ip) t' s)) →
  wp (bmap i (Z.of_nat bn)) Q s.
Proof.
  intros I Hbn Hr0 Hneed HQ. pose proof I as [F E Hd Ho Hh]. pose proof (fr_geom _ _ _ F) as G.
  pose proof (fr_image _ _ _ F) as Im.
  assert (Hold : ∀ t', fs_rep sb (set_tx t' s) x → addr_of (x_view x) (i_addrs ip) bn ≠ 0 →
            Q (addr_of (x_view x) (i_addrs ip) bn) (set_tx t' s)).
  { intros t' F' Hnz. specialize (HQ (addr_of (x_view x) (i_addrs ip) bn) x (i_addrs ip) t').
    assert (upd_st i (set_i_addrs (i_addrs ip) ip) t' s = set_tx t' s) as Eu.
    { unfold upd_st. rewrite set_i_addrs_id, list_insert_id by done. done. }
    rewrite Eu in HQ. apply HQ; [by apply bmap_post_refl|]. rewrite <- Eu. by apply (ino_rep_upd s x). }
  unfold bmap. destruct (Z.ltb_spec (Z.of_nat bn) (Z.of_nat NDIRECT)) as [Hlt|Hge].
  - rewrite Nat2Z.id. rewrite addr_of_direct in * by lia. apply (wp_addr_or_alloc s x i ip); [done| |].
    + intros Hnz. rewrite <- (set_tx_id s). apply Hold; [by rewrite set_tx_id|done].
    + intros Hz. destruct (Hneed Hz) as [Hr Hfr]. split; [eapply room_weaken; [|done]; lia|].
      destruct (has_free_first sb 1 _ Hfr) as (b&Hf). exists b. split; [done|]. intros t' F'.
      pose proof (bmap_post_direct x (i_addrs ip) bn b G Im Ho ltac:(lia) Hz Hf) as P.
      eapply HQ; [exact P|]. apply (ino_rep_upd s x); [done|done|apply P|apply P].
  - rewrite (proj2 (Z.ltb_lt _ _)) by (change MAXFILE with (NDIRECT + NINDIRECT)%nat in Hbn; lia).
    wp_step. apply (wp_addr_or_alloc s x i ip); [done| |].
    + intros Hnz. eapply (wp_bmap_indirect s x i ip bn); [done|done|lia|done|done| |].
      * intros Hnz' t' F'. by apply Hold.
      * intros Hz. destruct (Hneed Hz) as [Hr Hfr]. split; [eapply room_weaken; [|done]; lia|].
        destruct (has_free_first sb 1 _ Hfr) as (b&Hf). exists b. split; [done|]. intros t' F'.
        destruct (bmap_post_indirect x (i_addrs ip) bn b G Im Ho ltac:(lia) Hnz Hz Hf) as [P _].
        assert (upd_st i (set_i_addrs (i_addrs ip) ip) t' s = set_tx t' s) as Eu.
        { unfold upd_st. rewrite set_i_addrs_id, list_insert_id by done. done. }
        rewrite <- Eu. eapply HQ; [exact P|]. apply (ino_rep_upd s x); [done|done|apply P|apply P].
    + intros Hz.
      assert (addr_of (x_view x) (i_addrs ip) bn = 0) as Hz'.
      { unfold addr_of. rewrite (proj2 (Nat.ltb_ge _ _)) by lia. by rewrite Hz. }
      destruct (Hneed Hz') as [Hr Hfr]. split; [eapply room_weaken; [|done]; lia|].
      destruct (has_free_first sb 1 _ Hfr) as (b1&Hf1). exists b1. split; [done|]. intros t1 F1.
      pose proof (has_free_alloc sb G 1 x b1 Im Hf1 Hfr) as Hfr1.
      pose proof (first_free_data _ _ _ Im Hf1) as Hb1. pose proof (data_start_range sb G).
      set (addrs1 := <[NDIRECT:=b1]> (i_addrs ip)) in *. set (ip1 := set_i_addrs addrs1 ip).
      assert (addrs1 !!! NDIRECT = b1) as Eind.
      { apply list_lookup_total_insert_eq. rewrite (mo_len _ _ _ Ho). lia. }
      destruct (map_ok_new_indirect sb _ (x_view (x_alloc sb b1 x)) (i_addrs ip) b1 Ho Hz) as [Ho1 E1];
        [lia|apply Hf1|by apply alloc_good|apply alloc_zero|by intros; apply (alloc_keep_good sb G)|].
      assert (ino_rep (upd_st i ip1 t1 s) (x_alloc sb b1 x) i ip1) as I1 by (by apply (ino_rep_upd s x)).
      eapply (wp_bmap_indirect _ _ i ip1 bn b1 _ I1); [done|lia|lia|apply alloc_room; eapply room_weaken; [|done]; lia| |].
      * simpl. rewrite E1 by done. done.
      * intros _. split; [by apply alloc_room|].
        destruct (has_free_first sb 0 _ Hfr1) as (b2&Hf2). exists b2. split; [done|]. intros t' F'.
        pose proof (bmap_post_new_indirect x (i_addrs ip) bn b1 b2 G Im (fr_image _ _ _ F1) Ho ltac:(lia) Hz Hf1 Hf2) as P.
        specialize (HQ b2 _ _ t' P).
        apply HQ. apply (ino_rep_upd s x); [done| |apply P|apply P].
        destruct F'. by split.
Qed.

(** ** Reading *)

(** Byte [o] of the file. *)
Definition file_byte (v : gmap Z block) (addrs : list Z) (o : Z) : Z :=
  (v !!! addr_of v addrs (Z.to_nat (o / 512))) !!! Z.to_nat (o mod 512).

(** The file has no holes below [n]. *)
Definition mapped (v : gmap Z block) (addrs : list Z) (n : Z) : Prop :=
  ∀ bn, Z.of_nat bn * 512 < n → addr_of v addrs bn ≠ 0.

Lemma upd_st_same s i ip t : icache s !! i = Some ip → upd_st i (set_i_addrs (i_addrs ip) ip) t s = set_tx t s.
Proof. intros E. unfold upd_st. by rewrite set_i_addrs_id, list_insert_id. Qed.

Lemma ino_rep_same s x i ip t : ino_rep s x i ip → tx_rep t x → ino_rep (set_tx t s) x i ip.
Proof. intros [F E Hd Ho Hh] R. split; try done. by apply fr_same. Qed.

Lemma wp_bmap_mapped s x i ip bn (Q : Z → fs S → Prop) :
  ino_rep s x i ip → (bn < MAXFILE)%nat → room 0 x → addr_of (x_view x) (i_addrs ip) bn ≠ 0 →
  (∀ t', ino_rep (set_tx t' s) x i ip → Q (addr_of (x_view x) (i_addrs ip) bn) (set_tx t' s)) →
  wp (bmap i (Z.of_nat bn)) Q s.
Proof.
  intros I Hbn Hr Hnz HQ. apply (wp_bmap s x i ip); try done.
  intros addr x' addrs' t' P I'. destruct (bp_old _ _ _ _ _ _ P Hnz) as [-> ->].
  rewrite (upd_st_same s i ip) in * by apply I. rewrite <- (bp_addr _ _ _ _ _ _ P).
  apply HQ. by rewrite set_i_addrs_id in I'.
Qed.

Lemma no_held x b : x_held x = ∅ → b ∉ x_held_blocks x.
Proof. intros E. unfold x_held_blocks. rewrite E, map_img_empty_L. apply not_elem_of_empty. Qed.

(** The bytes of one block. *)
Lemma file_byte_block v addrs off k : 0 ≤ off → 0 ≤ k → off mod 512 + k < 512 →
  file_byte v addrs (off + k) =
  (v !!! addr_of v addrs (Z.to_nat (off / 512))) !!! Z.to_nat (off mod 512 + k).
Proof.
  intros Ho Hk Hlt. unfold file_byte.
  assert ((off + k) / 512 = off / 512) as -> by dlia. assert ((off + k) mod 512 = off mod 512 + k) as -> by dlia.
  done.
Qed.

Context `{DevSw S}.

Lemma chunk_bounds n tot off : tot < n → 0 ≤ off →
  0 < chunk n tot off ≤ n - tot ∧ off mod 512 + chunk n tot off ≤ 512.
Proof. intros. unfold chunk. change (Z.of_nat BSIZE) with 512. dlia. Qed.

Lemma wp_readi_loop fuel : ∀ s x i ip tot off n (Q : list Z → fs S → Prop),
  ino_rep s x i ip → room 0 x → 0 ≤ tot ≤ n → 0 ≤ off → off + (n - tot) ≤ MAXBYTES →
  mapped (x_view x) (i_addrs ip) (off + (n - tot)) → n < 2 ^ 31 → (Z.to_nat (n - tot) < fuel)%nat →
  (∀ t' l, ino_rep (set_tx t' s) x i ip → Z.of_nat (length l) = n - tot →
     (∀ k, 0 ≤ k < n - tot → l !! Z.to_nat k = Some (file_byte (x_view x) (i_addrs ip) (off + k))) →
     Q l (set_tx t' s)) →
  wp (readi_loop fuel i tot off n) Q s.
Proof.
  induction fuel as [|fuel IH]; intros s x i ip tot off n Q I Hr Ht Ho Hmax Hm Hn Hf HQ; [lia|].
  cbn [readi_loop]. destruct (Z.ltb_spec tot n) as [Hlt|Hge].
  2:{ wp_step. rewrite <- (set_tx_id s). apply HQ; [by rewrite set_tx_id|simpl; lia|intros; lia]. }
  pose proof I as [F E Hd Ho' Hh]. destruct (chunk_bounds n tot off Hlt Ho) as [Hc1 Hc2].
  set (m := chunk n tot off) in *. change MAXBYTES with 71680 in *.
  wp_step. apply (wp_the_inode _ _ ip); [done|].
  change (Z.of_nat BSIZE) with 512. rewrite <- (Z2Nat.id (off / 512)) by dlia.
  set (bn := Z.to_nat (off / 512)) in *.
  assert (Z.of_nat bn = off / 512) as Ebn by (unfold bn; dlia).
  assert (bn < MAXFILE)%nat as Hbn by (change MAXFILE with 140%nat; dlia).
  assert (addr_of (x_view x) (i_addrs ip) bn ≠ 0) as Hnz by (apply Hm; dlia).
  destruct (mo_addr _ _ _ Ho' bn Hbn Hnz) as [Hg _].
  pose proof (data_start_range sb (fr_geom _ _ _ F)).
  wp_step. apply (wp_bmap_mapped s x i ip); [done|done|done|done|]. intros t1 I1.
  rewrite Hd. eapply wp_get; [apply I1|rewrite (fr_size _ _ _ F); lia|by apply no_held|done|].
  intros bp t2 Hbp R2 Hlen. eapply wp_release_read; [exact R2|done|by eapply fr_not_fresh|]. intros t3 R3.
  rewrite !u32_small by lia. wp_step.
  apply (IH (set_tx t3 s) x i ip); [by apply ino_rep_same|done|lia|lia|lia| |done|lia|].
  { intros bn' Hbn'. apply Hm. lia. }
  intros t4 l I4 Hl Hbytes. wp_step.
  set (d := x_view x !!! addr_of (x_view x) (i_addrs ip) bn) in *.
  assert (length (slice (Z.to_nat (off mod 512)) (Z.to_nat m) d) = Z.to_nat m) as Hsl.
  { apply length_slice. rewrite Hlen. change BSIZE with 512%nat. dlia. }
  apply HQ; [done|rewrite length_app; lia|]. intros k Hk.
  destruct (decide (k < m)) as [Hkm|Hkm].
  - rewrite lookup_app_l by lia. rewrite lookup_slice by lia.
    rewrite file_byte_block by lia. fold bn. fold d.
    replace (Z.to_nat (off mod 512) + Z.to_nat k)%nat with (Z.to_nat (off mod 512 + k)) by dlia.
    apply list_lookup_lookup_total_lt. rewrite Hlen. change BSIZE with 512%nat. dlia.
  - rewrite lookup_app_r by lia. rewrite Hsl. replace (Z.to_nat k - Z.to_nat m)%nat with (Z.to_nat (k - m)) by lia.
    rewrite Hbytes by lia. do 2 f_equal. lia.
Qed.

(** [readi] of a file or directory. *)
Lemma wp_readi s x i ip off n (Q : Z * list Z → fs S → Prop) :
  ino_rep s x i ip → room 0 x → i_type ip ≠ T_DEV → 0 ≤ off → 0 ≤ n →
  off + n < 2 ^ 32 → off ≤ i_size ip ≤ MAXBYTES →
  mapped (x_view x) (i_addrs ip) (i_size ip) →
  (∀ t' l, let n' := Z.min n (i_size ip - off) in
     ino_rep (set_tx t' s) x i ip → Z.of_nat (length l) = n' →
     (∀ k, 0 ≤ k < n' → l !! Z.to_nat k = Some (file_byte (x_view x) (i_addrs ip) (off + k))) →
     Q (n', l) (set_tx t' s)) →
  wp (readi i off n) Q s.
Proof.
  intros I Hr Hty Ho Hn Hov Hsz Hm HQ. unfold readi. wp_step. apply (wp_the_inode _ _ ip); [apply I|].
  change MAXBYTES with 71680 in *.
  rewrite (proj2 (Z.eqb_neq _ _)) by done. rewrite (u32_small (off + n)) by lia.
  rewrite (proj2 (Z.ltb_ge (i_size ip) off)), (proj2 (Z.ltb_ge (off + n) off)) by lia. cbn [orb].
  set (n' := if i_size ip <? off + n then u32 (i_size ip - off) else n).
  assert (n' = Z.min n (i_size ip - off)) as En.
  { unfold n'. destruct (Z.ltb_spec (i_size ip) (off + n)); [rewrite u32_small by lia; lia|lia]. }
  wp_step. apply (wp_readi_loop _ s x i ip); [done|done|lia|done| | |lia|lia|].
  - change MAXBYTES with 71680. lia.
  - intros bn Hbn. apply Hm. lia.
  - intros t' l I' Hl Hb. wp_step. rewrite i32_small by lia. rewrite En in *. rewrite Z.sub_0_r in *.
    by apply HQ.
Qed.
End data.
