(* ===== verification/FsWrite.v ===== *)
(** * Writing files (writei of fs.c)

    Each iteration of the loop of [writei] changes one block; the effects
    compose to the range of bytes the call was given, and nothing else of this
    or any other file changes. *)

From S2P Require Import Prelude Params Block Sleeplock Format Str Tx Fs LogSpec FsSpec FsData.

Section data.
Context {S : Type} `{TxSpec S} (sb : superblock) `{DevSw S}.
Implicit Types (s : fs S) (x : txst) (i : nat) (ip : inode).

(** What writing the bytes [src] at offset [off] does. *)
Record write_post x (addrs : list Z) (off : Z) (src : list Z) x' (addrs' : list Z) : Prop := {
  wr_map : map_ok sb (x_view x') addrs';
  wr_old bn : (bn < MAXFILE)%nat → addr_of (x_view x) addrs bn ≠ 0 →
    addr_of (x_view x') addrs' bn = addr_of (x_view x) addrs bn;
  wr_range o : 0 ≤ o < MAXBYTES → off ≤ o < off + Z.of_nat (length src) → addr_of (x_view x') addrs' (Z.to_nat (o / 512)) ≠ 0;
  wr_bytes o : 0 ≤ o < MAXBYTES → addr_of (x_view x') addrs' (Z.to_nat (o / 512)) ≠ 0 →
    file_byte (x_view x') addrs' o =
    if decide (off ≤ o < off + Z.of_nat (length src)) then src !!! Z.to_nat (o - off)
    else if decide (addr_of (x_view x) addrs (Z.to_nat (o / 512)) = 0) then 0
    else file_byte (x_view x) addrs o;
  wr_new bn : (bn < MAXFILE)%nat → addr_of (x_view x) addrs bn = 0 → addr_of (x_view x') addrs' bn ≠ 0 →
    ¬ good sb (x_view x) (addr_of (x_view x') addrs' bn);
  wr_keep c : good sb (x_view x) c → c ≠ addrs !!! NDIRECT →
    (∀ bn, (bn < MAXFILE)%nat → addr_of (x_view x) addrs bn ≠ c) → x_view x' !!! c = x_view x !!! c;
  wr_addrs : 0 ≤ off → off + Z.of_nat (length src) ≤ MAXBYTES → (∀ o, off ≤ o < off + Z.of_nat (length src) →
      addr_of (x_view x) addrs (Z.to_nat (o / 512)) ≠ 0) → addrs' = addrs;
  wr_ind : addrs !!! NDIRECT = addrs' !!! NDIRECT ∨
    (addrs !!! NDIRECT = 0 ∧ ¬ good sb (x_view x) (addrs' !!! NDIRECT));
  wr_used c : good sb (x_view x) c → good sb (x_view x') c;
  wr_meta c : 0 ≤ c < sb_bmapstart sb → x_view x' !! c = x_view x !! c;
  wr_held : x_held x' = x_held x ∧ x_disk x' = x_disk x ∧ x_ops x' = x_ops x
}.

Lemma write_post_nil x addrs off : map_ok sb (x_view x) addrs → write_post x addrs off [] x addrs.
Proof.
  intros Ho. split; try done.
  - intros o _ Ho'. simpl in Ho'. lia.
  - intros o _ Hnz. rewrite decide_False by (simpl; lia). by rewrite decide_False.
  - by left.
Qed.

(** A block of a map is no free block, and not 0. *)
Lemma good_nonzero v c : geom_ok sb → good sb v c → c ≠ 0.
Proof. intros G [Hc _]. pose proof (data_start_range sb G). lia. Qed.

Lemma write_post_trans x addrs off src1 src2 x1 addrs1 x2 addrs2 :
  geom_ok sb →
  write_post x addrs off src1 x1 addrs1 →
  write_post x1 addrs1 (off + Z.of_nat (length src1)) src2 x2 addrs2 →
  write_post x addrs off (src1 ++ src2) x2 addrs2.
Proof.
  intros G [A1 A2 A3 A4 A5 A6 Aa A7 A8 A9 A10] [B1 B2 B3 B4 B5 B6 Ba B7 B8 B9 B10].
  assert (Hmax : ∀ o, 0 ≤ o < MAXBYTES → (Z.to_nat (o / 512) < MAXFILE)%nat).
  { change MAXBYTES with 71680. change MAXFILE with 140%nat. dlia. }
  assert (Hlen : Z.of_nat (length (src1 ++ src2)) = Z.of_nat (length src1) + Z.of_nat (length src2)).
  { rewrite length_app. lia. }
  split; try done.
  - intros bn Hbn Hnz. rewrite B2; [by apply A2|done|by rewrite A2].
  - intros o Ho Hr. destruct (decide (o < off + Z.of_nat (length src1))); [|apply B3; [done|lia]].
    rewrite B2; [apply A3; [done|lia]|by apply Hmax|apply A3; [done|lia]].
  - intros o Ho Hnz. rewrite B4 by done.
    destruct (decide (off + Z.of_nat (length src1) ≤ o < off + Z.of_nat (length src1) + Z.of_nat (length src2))).
    { rewrite decide_True by lia. rewrite lookup_total_app_r by lia. f_equal. lia. }
    case_decide as E1.
    { rewrite decide_False; [|intros Hr; apply (A3 o); [done|lia|done]].
      rewrite decide_True; [done|]. destruct (decide (addr_of (x_view x) addrs (Z.to_nat (o / 512)) = 0)); [done|].
      rewrite A2 in E1 by auto. done. }
    rewrite A4 by done. destruct (decide (off ≤ o < off + Z.of_nat (length src1))).
    + rewrite decide_True by lia. by rewrite lookup_total_app_l by lia.
    + by rewrite (decide_False (P := off ≤ o < _)) by lia.
  - intros bn Hbn Hz Hnz. destruct (decide (addr_of (x_view x1) addrs1 bn = 0)) as [E|E].
    + intros Hg%A8. by apply (B5 bn Hbn E Hnz).
    + rewrite B2 by done. by apply A5.
  - intros c Hc Hi Hm. rewrite B6; [by apply A6|by apply A8| |].
    + destruct A7 as [<-|[_ Hu]]; [done|]. by intros ->.
    + intros bn Hbn <-. destruct (decide (addr_of (x_view x) addrs bn = 0)) as [E|E].
      * pose proof (good_nonzero _ _ G Hc) as Hnz. by apply (A5 bn Hbn E Hnz).
      * apply (Hm bn Hbn). by rewrite A2.
  - intros Hge Hm Hall.
    assert (addrs1 = addrs) as E by (apply Aa; [done|lia|]; intros o' Ho'; apply Hall; lia).
    rewrite Ba; [done|lia|lia|]. intros o Ho. rewrite A2; [apply Hall; lia|apply Hmax; lia|apply Hall; lia].
  - destruct A7 as [E|[E Hu]].
    + destruct B7 as [E'|[E' Hu']]; [left; congruence|]. right. rewrite E. split; [done|]. auto.
    + right. split; [done|]. destruct B7 as [<-|[E' Hu']]; auto.
  - auto.
  - intros c Hc. by rewrite B9, A9.
  - destruct A10 as (?&?&?), B10 as (?&?&?). split_and!; congruence.
Qed.

(** One iteration: block [off / 512] has been mapped to [addr], and [src] is
    stored in it from [off mod 512] on. *)
Lemma write_post_block x addrs off src addr x1 addrs1 :
  geom_ok sb → 0 ≤ off < MAXBYTES → 0 < Z.of_nat (length src) →
  off mod 512 + Z.of_nat (length src) ≤ 512 → map_ok sb (x_view x) addrs →
  image_ok sb (x_view x1) →
  bmap_post sb x addrs (Z.to_nat (off / 512)) addr x1 addrs1 →
  write_post x addrs off src
    (x_put addr (splice (Z.to_nat (off mod 512)) src (x_view x1 !!! addr)) x1) addrs1.
Proof.
  intros G Ho Hs Hfit Ho0 Im1 [P1 P2 P3 P4 P5 P6 Pi P7 P8 P9 P10 P11 P12].
  change MAXBYTES with 71680 in Ho.
  set (bn := Z.to_nat (off / 512)) in *. set (d := splice _ src _).
  assert (bn < MAXFILE)%nat as Hbn by (change MAXFILE with 140%nat; unfold bn; dlia).
  pose proof (good_nonzero _ _ G P2) as Hnz. pose proof P2 as [Har _].
  pose proof (data_start_range sb G) as Hds.
  destruct (image_lookup sb _ addr Im1 ltac:(lia)) as [_ Hlen].
  assert (addr ≠ addrs1 !!! NDIRECT) as Hni.
  { rewrite <- P1. destruct (decide (addrs1 !!! NDIRECT = 0)) as [->|]; [by rewrite P1|by apply P3]. }
  set (x2 := x_put addr d x1).
  assert (E : ∀ bn', addr_of (<[addr:=d]> (x_view x1)) addrs1 bn' = addr_of (x_view x1) addrs1 bn').
  { intros. apply addr_of_ext. intros _. by rewrite lookup_total_insert_ne. }
  assert (Hg : ∀ c, good sb (x_view x1) c → good sb (<[addr:=d]> (x_view x1)) c).
  { intros c [Hc Hu]. split; [done|]. rewrite block_used_other; [done|]. apply bitmap_not_data; lia. }
  (* an old block of the map keeps its address *)
  assert (Hold : ∀ bn', (bn' < MAXFILE)%nat → addr_of (x_view x) addrs bn' ≠ 0 →
    addr_of (x_view x1) addrs1 bn' = addr_of (x_view x) addrs bn').
  { intros bn' Hbn' Hz. destruct (decide (bn' = bn)) as [->|Hne]; [|by apply P4].
    by destruct (P5 Hz) as [-> ->]. }
  split; try change (x_view x2) with (<[addr:=d]> (x_view x1)).
  - eapply map_ok_ext; [exact P3| |exact Hg]. intros _. by rewrite lookup_total_insert_ne.
  - intros bn' Hbn' Hz. rewrite E. by apply Hold.
  - intros o _ Hr. rewrite E. replace (Z.to_nat (o / 512)) with bn by (unfold bn; dlia). by rewrite P1.
  - intros o Hor. change MAXBYTES with 71680 in Hor. rewrite E. intros Hz'.
    unfold file_byte at 1. rewrite E. set (bo := Z.to_nat (o / 512)) in *.
    assert (bo < MAXFILE)%nat as Hbo by (change MAXFILE with 140%nat; unfold bo; dlia).
    destruct (decide (bo = bn)) as [Eb|Eb].
    + rewrite Eb, P1, lookup_total_insert_eq. unfold d.
      assert (Z.of_nat bo = o / 512) as Ebo by (unfold bo; dlia).
      assert (Z.of_nat bn = off / 512) as Ebn by (unfold bn; dlia).
      assert (o / 512 = off / 512) as Eq by lia.
      case_decide as Hr.
      * apply list_lookup_total_correct. rewrite lookup_splice_in by (rewrite ?Hlen; change BSIZE with 512%nat; dlia).
        replace (Z.to_nat (o mod 512) - Z.to_nat (off mod 512))%nat with (Z.to_nat (o - off)) by dlia.
        apply list_lookup_lookup_total_lt. lia.
      * rewrite (list_total_eq _ (x_view x1 !!! addr) _ (Z.to_nat (o mod 512)))
          by (apply lookup_splice_out; rewrite ?Hlen; change BSIZE with 512%nat; dlia).
        case_decide as Hz.
        -- destruct (P6 Hz) as [-> _]. apply lookup_total_replicate_2. change BSIZE with 512%nat. dlia.
        -- destruct (P5 Hz) as [-> ->]. unfold file_byte. fold bo. by rewrite Eb, P1.
    + rewrite decide_False by (intros Hr; apply Eb; unfold bo, bn; f_equal; dlia).
      assert (addr_of (x_view x1) addrs1 bo = addr_of (x_view x) addrs bo) as Es by (by apply P4).
      rewrite Es in *. rewrite decide_False by done.
      assert (addr ≠ addr_of (x_view x) addrs bo) as Hne.
      { rewrite <- Es, <- P1. intros Heq. apply Eb. symmetry. apply (mo_inj _ _ _ P3); [done|done|by rewrite P1|done]. }
      rewrite lookup_total_insert_ne by done. unfold file_byte. fold bo. f_equal.
      apply P7; [by apply Ho0|]. destruct (decide (addrs !!! NDIRECT = 0)) as [->|]; [done|by apply Ho0].
  - intros bn' Hbn' Hz. rewrite E. intros Hz' [_ Hu]. destruct (decide (bn' = bn)) as [->|Hne].
    + rewrite P1 in *. destruct (P6 Hz) as [_ ?]. congruence.
    + rewrite P4 in Hz' by done. done.
  - intros c Hc Hci Hm. assert (c ≠ addr) as Hca.
    { intros ->. destruct (decide (addr_of (x_view x) addrs bn = 0)) as [Hz|Hz].
      - destruct (P6 Hz) as [_ Hu]. destruct Hc. congruence.
      - apply (Hm bn Hbn). rewrite <- (Hold bn) by done. done. }
    rewrite lookup_total_insert_ne by done. by apply P7.
  - intros _ _ Hall. apply P5. apply (Hall off). lia.
  - destruct Pi as [->|[Hz Hu]]; [by left|]. right. split; [done|]. intros [_ ?]. congruence.
  - intros c Hc. by apply Hg, P8.
  - intros c Hc. pose proof (bmapstart_data sb G). rewrite lookup_insert_ne by lia. by apply P9.
  - done.
Qed.

Lemma has_free_data n v b d : data_start sb ≤ b → has_free sb n v → has_free sb n (<[b:=d]> v).
Proof.
  intros Hb (F&?&?&HF). exists F. split_and!; try done. eapply Forall_impl; [exact HF|].
  intros c [Hc Hu]. split; [done|]. rewrite block_used_other; [done|]. by apply bitmap_not_data.
Qed.

Lemma slice_split (tot m k : nat) (src : list Z) : (m ≤ k)%nat →
  slice tot k src = slice tot m src ++ slice (tot + m) (k - m) src.
Proof.
  intros Hm. unfold slice. rewrite <- drop_drop. replace k with (m + (k - m))%nat at 1 by lia.
  by rewrite take_take_drop.
Qed.

(** The in-memory inode after its addresses changed twice. *)
Lemma upd_addrs_twice s i ip a1 a2 t1 t2 :
  upd_st i (set_i_addrs a2 (set_i_addrs a1 ip)) t2 (upd_st i (set_i_addrs a1 ip) t1 s) =
  upd_st i (set_i_addrs a2 ip) t2 s.
Proof. by rewrite upd_st_upd. Qed.

Lemma wp_writei_loop fuel : ∀ k r s x i ip src tot off n (Q : Z → fs S → Prop),
  ino_rep sb s x i ip → 0 ≤ tot ≤ n → n ≤ Z.of_nat (length src) → n < 2 ^ 31 →
  0 ≤ off → off + (n - tot) ≤ MAXBYTES →
  (tot < n → off mod 512 + (n - tot) ≤ 512 * Z.of_nat k) →
  room (6 * k + r) x → has_free sb (2 * k) (x_view x) → (Z.to_nat (n - tot) < fuel)%nat →
  (∀ t' x' addrs',
     write_post x (i_addrs ip) off (slice (Z.to_nat tot) (Z.to_nat (n - tot)) src) x' addrs' →
     ino_rep sb (upd_st i (set_i_addrs addrs' ip) t' s) x' i (set_i_addrs addrs' ip) →
     room r x' → Q (off + (n - tot)) (upd_st i (set_i_addrs addrs' ip) t' s)) →
  wp (writei_loop fuel i src tot off n) Q s.
Proof.
  induction fuel as [|fuel IH]; intros k r s x i ip src tot off n Q I Ht Hsrc Hn Ho Hmax Hk Hr Hfr Hf HQ; [lia|].
  cbn [writei_loop]. destruct (Z.ltb_spec tot n) as [Hlt|Hge].
  2:{ wp_step. specialize (HQ (fs_tx s) x (i_addrs ip)). rewrite upd_st_same in HQ by apply I.
      rewrite set_tx_id, set_i_addrs_id in HQ. replace (off + (n - tot)) with off in HQ by lia.
      replace (n - tot) with 0 in HQ by lia. apply HQ; [|done|eapply room_weaken; [|done]; lia].
      apply write_post_nil, I. }
  pose proof I as [F E Hd Ho' Hh]. pose proof (fr_geom _ _ _ F) as G.
  specialize (Hk Hlt).
  destruct (chunk_bounds n tot off Hlt Ho) as [Hc1 Hc2]. set (m := chunk n tot off) in *.
  assert (0 ≤ off < MAXBYTES) as Hor by lia.
  change MAXBYTES with 71680 in *.
  wp_step. apply (wp_the_inode _ _ ip); [done|].
  change (Z.of_nat BSIZE) with 512. rewrite <- (Z2Nat.id (off / 512)) by dlia.
  assert (Z.to_nat (off / 512) < MAXFILE)%nat as Hbn by (change MAXFILE with 140%nat; dlia).
  destruct k as [|k]; [dlia|]. wp_step.
  apply (wp_bmap sb s x i ip); [done|done|eapply room_weaken; [|done]; lia| |].
  { intros _. split; [eapply room_weaken; [|done]; lia|eapply has_free_weaken; [|done]; lia]. }
  intros addr x1 addrs1 t1 P I1. pose proof (ir_fs _ _ _ _ _ I1) as F1.
  pose proof (bp_good _ _ _ _ _ _ _ P) as [Har Hau]. destruct (data_home sb G addr Har) as [Ha2 Hal].
  pose proof (data_start_range sb G) as Hds.
  assert (room (6 * k + r + 1) x1) as Hr1.
  { apply (bp_room _ _ _ _ _ _ _ P). by replace (6 * k + r + 1 + 5)%nat with (6 * Datatypes.S k + r)%nat by lia. }
  rewrite Hd. eapply wp_get; [apply I1|rewrite (fr_size _ _ _ F1); lia|by apply no_held, I1|
    eapply room_weaken; [|done]; lia|].
  intros bp t2 Hbp R2 Hlen. set (d := splice _ _ _).
  assert (length (slice (Z.to_nat tot) (Z.to_nat m) src) = Z.to_nat m) as Hsl.
  { apply length_slice. lia. }
  assert (length d = BSIZE) as Hld.
  { unfold d. rewrite length_splice; [done|]. rewrite Hsl, Hlen. change BSIZE with 512%nat. dlia. }
  eapply wp_put; [exact R2|done|by eapply fr_not_fresh|eapply fr_home; [exact F1|lia|done]|
    eapply room_weaken; [|done]; lia|done|]. intros t3 R3.
  pose proof (write_post_block x (i_addrs ip) off _ addr x1 addrs1 G Hor
    (ltac:(rewrite Hsl; lia)) (ltac:(rewrite Hsl; lia)) Ho' (fr_image _ _ _ F1) P) as W. fold d in W.
  assert (ino_rep sb (set_tx t3 (upd_st i (set_i_addrs addrs1 ip) t1 s)) (x_put addr d x1) i (set_i_addrs addrs1 ip)) as I3.
  { destruct I1 as [F1' E1 Hd1 Ho1 Hh1]. split; try done; [|apply W].
    apply fr_put; [done|done|]. apply image_data; [done|apply F1|done|done]. }
  rewrite !u32_small by lia.
  apply (IH k r _ (x_put addr d x1) i (set_i_addrs addrs1 ip)); try done; try lia.
  - intros Hlt'. assert (m = 512 - off mod 512) as ->.
    { unfold m, chunk in *. change (Z.of_nat BSIZE) with 512 in *. lia. }
    dlia.
  - apply room_put. by replace (Datatypes.S (6 * k + r)) with (6 * k + r + 1)%nat by lia.
  - apply has_free_data; [lia|]. apply (bp_free _ _ _ _ _ _ _ P). by replace (2 * k + 2)%nat with (2 * Datatypes.S k)%nat by lia.
  - intros t4 x4 addrs4 W4 I4 Hr4.
    change (set_tx t3 (upd_st i (set_i_addrs addrs1 ip) t1 s)) with (upd_st i (set_i_addrs addrs1 ip) t3 s) in *.
    rewrite upd_addrs_twice in *. replace (off + m + (n - (tot + m))) with (off + (n - tot)) by lia.
    apply (HQ t4 x4 addrs4); [|done|done].
    rewrite (slice_split _ (Z.to_nat m)) by lia. eapply write_post_trans; [done|exact W|].
    rewrite Hsl, Z2Nat.id by lia.
    replace (Z.to_nat tot + Z.to_nat m)%nat with (Z.to_nat (tot + m)) by lia.
    replace (Z.to_nat (n - tot) - Z.to_nat m)%nat with (Z.to_nat (n - (tot + m))) by lia. done.
Qed.

(** ** The disk inode *)

(** Inode [inum] on disk. *)
Definition disk_inode (v : gmap Z block) (inum : Z) : dinode :=
  get_dinode (v !!! IBLOCK inum sb) (islot inum).

Lemma islot_lt inum : Z.of_nat (islot inum) < IPB.
Proof. unfold islot. change IPB with 8. pose proof (Z.mod_pos_bound inum 8 ltac:(lia)). lia. Qed.

Lemma islot_same inum inum' : 0 ≤ inum → 0 ≤ inum' → IBLOCK inum sb = IBLOCK inum' sb →
  islot inum = islot inum' → inum = inum'.
Proof. unfold IBLOCK, islot. change IPB with 8. dlia. Qed.

(** The view after the disk inode of [inum] is overwritten. *)
Definition put_inode (inum : Z) (di : dinode) x : txst :=
  x_put (IBLOCK inum sb) (put_dinode (x_view x !!! IBLOCK inum sb) (islot inum) di) x.

Lemma disk_inode_put x inum di inum' :
  geom_ok sb → image_ok sb (x_view x) → 0 ≤ inum < sb_ninodes sb → 0 ≤ inum' → dinode_ok di →
  disk_inode (x_view (put_inode inum di x)) inum' =
  if decide (inum = inum') then di else disk_inode (x_view x) inum'.
Proof.
  intros G Im Hi Hi' Hd. destruct (IBLOCK_home sb G inum Hi) as [Hb _].
  pose proof (bmapstart_data sb G). pose proof (data_start_range sb G).
  destruct (image_lookup sb _ (IBLOCK inum sb) Im ltac:(lia)) as [_ Hl].
  unfold disk_inode, put_inode. cbn [x_view x_put].
  destruct (decide (IBLOCK inum sb = IBLOCK inum' sb)) as [E|E].
  - rewrite <- E, lookup_total_insert_eq. case_decide as D; [subst; apply get_put_dinode; [done|apply islot_lt|done]|].
    apply get_put_dinode_ne; try done; [apply islot_lt..|]. intros Hs. apply D. apply islot_same; done || lia.
  - rewrite lookup_total_insert_ne by done. by rewrite decide_False by (intros ->; done).
Qed.

Lemma wp_iupdate s x i ip (Q : unit → fs S → Prop) :
  ino_rep sb s x i ip → 0 ≤ i_inum ip < sb_ninodes sb → dinode_ok (inode_disk ip) → room 1 x →
  (∀ t', let x' := put_inode (i_inum ip) (inode_disk ip) x in
     ino_rep sb (set_tx t' s) x' i ip → Q tt (set_tx t' s)) →
  wp (iupdate i) Q s.
Proof.
  intros I Hi Hd Hr HQ. pose proof I as [F E Hdev Ho Hh]. pose proof (fr_geom _ _ _ F) as G.
  destruct (IBLOCK_home sb G _ Hi) as [Hb Hl]. pose proof (bmapstart_data sb G). pose proof (data_start_range sb G).
  unfold iupdate. wp_step. apply (wp_the_inode _ _ ip); [done|]. wp_step. apply wp_gets.
  rewrite (fr_sb _ _ _ F), Hdev.
  eapply wp_get; [apply F|rewrite (fr_size _ _ _ F); lia|by apply no_held|eapply room_weaken; [|done]; lia|].
  intros bp t1 Hbp R1 Hlen.
  assert (length (put_dinode (x_view x !!! IBLOCK (i_inum ip) sb) (islot (i_inum ip)) (inode_disk ip)) = BSIZE) as Hlp
    by (apply length_put_dinode; [done|apply islot_lt|done]).
  eapply wp_put_tail; [exact R1|done|by eapply fr_not_fresh|eapply fr_home; [done|lia|done]|done|done|].
  intros t2 R2. apply HQ. split; try done.
  - apply fr_put; [done|done|]. apply image_inode; [done|apply F|done|done].
  - eapply map_ok_ext; [exact Ho| |].
    + intros Hnz. destruct (mo_ind _ _ _ Ho Hnz) as [? _]. apply lookup_total_insert_ne. lia.
    + intros c [Hc Hu]. split; [done|]. simpl. rewrite block_used_other; [done|].
      pose proof (BBLOCK_range sb c ltac:(lia)). lia.
Qed.

(** A file whose in-memory inode agrees with the disk and that has no holes. *)
Record file_rep s x i ip : Prop := {
  fl_ino : ino_rep sb s x i ip;
  fl_inum : 0 ≤ i_inum ip < sb_ninodes sb;
  fl_shorts : short (i_type ip) ∧ short (i_major ip) ∧ short (i_minor ip) ∧ short (i_nlink ip);
  fl_type : i_type ip ≠ T_DEV;
  fl_sync : disk_inode (x_view x) (i_inum ip) = inode_disk ip;
  fl_size : 0 ≤ i_size ip ≤ MAXBYTES;
  fl_mapped : mapped (x_view x) (i_addrs ip) (i_size ip)
}.

Lemma map_ok_uint v addrs : geom_ok sb → map_ok sb v addrs → Forall uint addrs.
Proof.
  intros G Ho. apply Forall_lookup. intros k a Ha. pose proof (lookup_lt_Some _ _ _ Ha) as Hk.
  rewrite (mo_len _ _ _ Ho) in Hk. pose proof (go_size _ G). pose proof (data_start_range sb G).
  apply list_lookup_total_correct in Ha. destruct (decide (a = 0)) as [->|Hnz]; [unfold uint; lia|].
  assert (good sb v a) as [Hr _]; [|unfold uint; lia].
  destruct (decide (k = NDIRECT)) as [->|].
  - rewrite <- Ha. apply Ho. by rewrite Ha.
  - rewrite <- Ha, <- (addr_of_direct v) by lia. apply Ho; [change MAXFILE with 140%nat; change NDIRECT with 12%nat in *; lia|].
    rewrite addr_of_direct by lia. by rewrite Ha.
Qed.
End data.
