(* ===== verification/FsFile.v ===== *)
(** * Files as byte sequences

    [writei] and [readi] seen by their callers: a file is a finite sequence of
    bytes, a write replaces or extends a range of it, a read returns a range,
    and other files do not change. *)

From S2P Require Import Prelude Params Block Sleeplock Format Str Tx Fs LogSpec FsSpec FsData FsWrite.

Section file.
Context {S : Type} `{TxSpec S} (sb : superblock) `{DevSw S}.
Implicit Types (s : fs S) (x : txst) (i : nat) (ip : inode).

(** What a completed [writei] of [data] at [off] has done. *)
Record writei_post x ip (off : Z) (data : list Z) x' ip' : Prop := {
  wi_ip : ∃ addrs', ip' = set_i_size (Z.max (i_size ip) (off + Z.of_nat (length data))) (set_i_addrs addrs' ip);
  wi_bytes o : 0 ≤ o < i_size ip' → file_byte (x_view x') (i_addrs ip') o =
    if decide (off ≤ o < off + Z.of_nat (length data)) then data !!! Z.to_nat (o - off)
    else file_byte (x_view x) (i_addrs ip) o;
  wi_keep c : good sb (x_view x) c → c ≠ i_addrs ip !!! NDIRECT →
    (∀ bn, (bn < MAXFILE)%nat → addr_of (x_view x) (i_addrs ip) bn ≠ c) → x_view x' !!! c = x_view x !!! c;
  wi_inodes j : 0 ≤ j < sb_ninodes sb → j ≠ i_inum ip →
    disk_inode sb (x_view x') j = disk_inode sb (x_view x) j;
  wi_used c : good sb (x_view x) c → good sb (x_view x') c;
  wi_held : x_held x' = x_held x ∧ x_disk x' = x_disk x ∧ x_ops x' = x_ops x
}.

Lemma ninodes_blocks j : geom_ok sb → 0 ≤ j < sb_ninodes sb → 0 ≤ IBLOCK j sb < sb_bmapstart sb.
Proof. intros G Hj. destruct (IBLOCK_home sb G j Hj). lia. Qed.

Lemma disk_inode_same v v' j : (∀ c, 0 ≤ c < sb_bmapstart sb → v' !! c = v !! c) → geom_ok sb →
  0 ≤ j < sb_ninodes sb → disk_inode sb v' j = disk_inode sb v j.
Proof.
  intros Hv G Hj. unfold disk_inode. f_equal. apply lookup_total_same, Hv. by apply ninodes_blocks.
Qed.

Section write.
Context s x i ip (off : Z) (data : list Z).
Context (Fl : file_rep sb s x i ip) (Hoff : 0 ≤ off ≤ i_size ip).
Context (Hmax : off + Z.of_nat (length data) ≤ MAXBYTES).

(** The range written, and everything below the old end, is mapped. *)
Lemma write_mapped x' addrs' : write_post sb x (i_addrs ip) off data x' addrs' →
  mapped (x_view x') addrs' (Z.max (i_size ip) (off + Z.of_nat (length data))).
Proof.
  intros W bn Hbn. pose proof (fl_size _ _ _ _ _ Fl) as Hsz.
  assert (bn < MAXFILE)%nat as Hb by (change MAXBYTES with 71680 in *; change MAXFILE with 140%nat; lia).
  destruct (decide (Z.of_nat bn * 512 < i_size ip)) as [Hlt|Hge].
  - pose proof (fl_mapped _ _ _ _ _ Fl bn Hlt). by rewrite (wr_old _ _ _ _ _ _ _ W).
  - pose proof (wr_range _ _ _ _ _ _ _ W (Z.of_nat bn * 512)) as Hr.
    replace (Z.to_nat (Z.of_nat bn * 512 / 512)) with bn in Hr by dlia.
    apply Hr; [change MAXBYTES with 71680 in *; lia|lia].
Qed.

Lemma write_bytes x' addrs' : write_post sb x (i_addrs ip) off data x' addrs' →
  ∀ o, 0 ≤ o < Z.max (i_size ip) (off + Z.of_nat (length data)) →
  file_byte (x_view x') addrs' o =
  if decide (off ≤ o < off + Z.of_nat (length data)) then data !!! Z.to_nat (o - off)
  else file_byte (x_view x) (i_addrs ip) o.
Proof.
  intros W o Ho. pose proof (fl_size _ _ _ _ _ Fl) as Hsz.
  rewrite (wr_bytes _ _ _ _ _ _ _ W); [|lia|apply (write_mapped x' addrs' W); dlia].
  case_decide; [done|]. rewrite decide_False; [done|]. apply (fl_mapped _ _ _ _ _ Fl). dlia.
Qed.

(** The addresses stay when the write is within the file. *)
Lemma write_within x' addrs' : write_post sb x (i_addrs ip) off data x' addrs' →
  off + Z.of_nat (length data) ≤ i_size ip → addrs' = i_addrs ip.
Proof.
  intros W Hle. apply (wr_addrs _ _ _ _ _ _ _ W); [lia|done|]. intros o Ho.
  apply (fl_mapped _ _ _ _ _ Fl). dlia.
Qed.

Lemma writei_post_within x' : write_post sb x (i_addrs ip) off data x' (i_addrs ip) →
  off + Z.of_nat (length data) ≤ i_size ip → writei_post x ip off data x' ip.
Proof.
  intros W Hle. pose proof (fl_ino _ _ _ _ _ Fl) as I. split; try apply W.
  - exists (i_addrs ip). rewrite set_i_addrs_id, Z.max_l by done. by destruct ip.
  - intros o Ho. apply (write_bytes x'); [done|lia].
  - intros j Hj _. apply disk_inode_same; [apply W|apply I|done].
Qed.

Lemma writei_post_grow x' addrs' :
  let ip' := set_i_size (off + Z.of_nat (length data)) (set_i_addrs addrs' ip) in
  write_post sb x (i_addrs ip) off data x' addrs' → image_ok sb (x_view x') →
  i_size ip < off + Z.of_nat (length data) → dinode_ok (inode_disk ip') →
  writei_post x ip off data (put_inode sb (i_inum ip) (inode_disk ip') x') ip'.
Proof.
  intros ip' W Im Hlt Hd. pose proof (fl_ino _ _ _ _ _ Fl) as I. pose proof (fr_geom _ _ _ (ir_fs _ _ _ _ _ I)) as G.
  pose proof (fl_inum _ _ _ _ _ Fl) as Hi. destruct (ninodes_blocks _ G Hi) as [Hib1 Hib2].
  pose proof (bmapstart_data sb G) as Hbd. pose proof (wr_map _ _ _ _ _ _ _ W) as Ho.
  assert (Hkeep : ∀ c, data_start sb ≤ c → x_view (put_inode sb (i_inum ip) (inode_disk ip') x') !!! c = x_view x' !!! c).
  { intros c Hc. simpl. apply lookup_total_insert_ne. lia. }
  assert (Ea : ∀ bn, addr_of (x_view (put_inode sb (i_inum ip) (inode_disk ip') x')) addrs' bn = addr_of (x_view x') addrs' bn).
  { intros bn. apply addr_of_ext. intros Hnz. apply Hkeep. destruct (mo_ind _ _ _ Ho Hnz) as [? _]. lia. }
  split; try apply W.
  - exists addrs'. unfold ip'. by rewrite Z.max_r by lia.
  - intros o Hor. simpl in Hor. pose proof (fl_size _ _ _ _ _ Fl) as Hsz.
    change MAXBYTES with 71680 in *.
    rewrite <- (write_bytes x' addrs' W o) by lia.
    unfold file_byte. simpl i_addrs. rewrite Ea. f_equal. apply Hkeep.
    destruct (mo_addr _ _ _ Ho (Z.to_nat (o / 512))) as [? _]; [change MAXFILE with 140%nat; dlia| |lia].
    apply (write_mapped x' addrs' W). dlia.
  - intros c Hc Hci Hm. rewrite Hkeep by (destruct Hc; lia). by apply W.
  - intros j Hj Hne. rewrite disk_inode_put by (done || lia). rewrite decide_False by done.
    apply disk_inode_same; [apply W|done|done].
  - intros c Hc. apply (wr_used _ _ _ _ _ _ _ W) in Hc as [Hc Hu]. split; [done|]. simpl.
    rewrite block_used_other; [done|]. pose proof (data_start_range sb G). pose proof (BBLOCK_range sb c ltac:(lia)). lia.
Qed.
End write.

Lemma file_dinode_ok s x i ip addrs' size x' : file_rep sb s x i ip → geom_ok sb →
  map_ok sb (x_view x') addrs' → 0 ≤ size < 2 ^ 32 →
  dinode_ok (inode_disk (set_i_size size (set_i_addrs addrs' ip))).
Proof.
  intros Fl G Ho Hsz. destruct (fl_shorts _ _ _ _ _ Fl) as (?&?&?&?).
  split; try done; simpl; [by eapply map_ok_uint|apply Ho].
Qed.

Lemma wp_writei s x i ip src off n k r (Q : Z → fs S → Prop) :
  file_rep sb s x i ip → 0 ≤ off ≤ i_size ip → 0 ≤ n ≤ Z.of_nat (length src) →
  off + n ≤ MAXBYTES → off mod 512 + n ≤ 512 * Z.of_nat k →
  room (6 * k + Datatypes.S r) x → has_free sb (2 * k) (x_view x) →
  (∀ t' x' ip', writei_post x ip off (take (Z.to_nat n) src) x' ip' →
     file_rep sb (upd_st i ip' t' s) x' i ip' → room r x' → Q n (upd_st i ip' t' s)) →
  wp (writei i src off n) Q s.
Proof.
  intros Fl Hoff Hn Hmax Hk Hr Hfr HQ. pose proof (fl_ino _ _ _ _ _ Fl) as I.
  pose proof (ir_fs _ _ _ _ _ I) as F. pose proof (fr_geom _ _ _ F) as G.
  pose proof (fl_size _ _ _ _ _ Fl) as Hsz. assert (MAXBYTES = 71680) as EM by done.
  set (data := take (Z.to_nat n) src) in *.
  assert (Z.of_nat (length data) = n) as Hld by (unfold data; rewrite length_take; lia).
  unfold writei. wp_step. apply (wp_the_inode _ _ ip); [apply I|].
  rewrite (proj2 (Z.eqb_neq _ _)) by apply Fl. rewrite u32_small by lia.
  rewrite (proj2 (Z.ltb_ge (i_size ip) off)), (proj2 (Z.ltb_ge (off + n) off)) by lia. cbn [orb].
  rewrite (proj2 (Z.ltb_ge _ _)) by lia. wp_step. apply wp_require; [apply Z.leb_le; lia|].
  wp_step. apply (wp_writei_loop sb _ k (Datatypes.S r) s x i ip); [done|lia|lia|lia|lia|lia|lia|done|done|lia|].
  intros t1 x1 addrs1 W I1 Hr1. rewrite Z.sub_0_r in *. change (Z.to_nat 0) with 0%nat in W.
  change (slice 0 (Z.to_nat n) src) with data in W.
  wp_step. apply (wp_the_inode _ _ (set_i_addrs addrs1 ip)); [apply I1|]. wp_step.
  destruct (decide (i_size ip < off + n)) as [Hgrow|Hsame].
  - set (ip' := set_i_size (off + n) (set_i_addrs addrs1 ip)).
    assert (dinode_ok (inode_disk ip')) as Hd.
    { eapply file_dinode_ok; [done|done|apply I1|lia]. }
    apply wp_when; intros Hb; [|apply andb_false_iff in Hb as [Hb|Hb]; apply Z.ltb_ge in Hb; simpl in Hb; lia].
    wp_step. apply (wp_upd_inode _ _ (set_i_addrs addrs1 ip)); [apply I1|]. fold ip'.
    assert (ino_rep sb (upd_st i ip' t1 s) x1 i ip') as I2.
    { destruct I1 as [F1 E1 D1 M1 Hh1]. split; [by destruct F1|eapply lookup_upd, I|exact D1|exact M1|exact Hh1]. }
    rewrite upd_st_upd. change (fs_tx (upd_st i (set_i_addrs addrs1 ip) t1 s)) with t1.
    apply (wp_iupdate sb _ x1 i ip'); [done|apply Fl|done|eapply room_weaken; [|done]; lia|]. intros t2 x2 I3.
    wp_step. rewrite i32_small by lia.
    pose proof (writei_post_grow s x i ip off data Fl Hoff ltac:(lia) x1 addrs1) as WP.
    cbv zeta in WP. rewrite Hld in WP.
    specialize (WP W (fr_image _ _ _ (ir_fs _ _ _ _ _ I1)) Hgrow Hd). fold ip' in WP.
    apply (HQ t2 _ ip' WP); [|by apply room_put].
    split; [exact I3|apply (fl_inum _ _ _ _ _ Fl)|apply (fl_shorts _ _ _ _ _ Fl)|apply (fl_type _ _ _ _ _ Fl)| | |].
    + pose proof (fl_inum _ _ _ _ _ Fl). change (i_inum ip') with (i_inum ip).
      rewrite (disk_inode_put sb x1 (i_inum ip) (inode_disk ip') (i_inum ip))
        by (exact G || exact Hd || lia || exact (fr_image _ _ _ (ir_fs _ _ _ _ _ I1))).
      by rewrite decide_True.
    + change (i_size ip') with (off + n). lia.
    + intros bn Hbn. simpl i_addrs. simpl in Hbn.
      rewrite (addr_of_ext (x_view x1)).
      * apply (write_mapped s x i ip off data Fl Hoff ltac:(lia) x1 addrs1 W). lia.
      * intros Hnz. destruct (mo_ind _ _ _ (wr_map _ _ _ _ _ _ _ W) Hnz) as [? _].
        pose proof (ninodes_blocks _ G (fl_inum _ _ _ _ _ Fl)). pose proof (bmapstart_data sb G).
        apply lookup_total_insert_ne. change (i_inum ip') with (i_inum ip). lia.
  - apply wp_when; intros Hb; [apply andb_true_iff in Hb as [_ Hb%Z.ltb_lt]; simpl in Hb; lia|].
    wp_step. rewrite i32_small by lia.
    assert (addrs1 = i_addrs ip) as -> by (apply (write_within s x i ip off data Fl Hoff ltac:(lia) x1); [done|lia]).
    rewrite set_i_addrs_id in *.
    apply (HQ t1 x1 ip); [eapply (writei_post_within s x i ip off data Fl Hoff ltac:(lia)); [exact W|lia]| |eapply room_weaken; [|done]; lia].
    split; [exact I1|apply (fl_inum _ _ _ _ _ Fl)|apply (fl_shorts _ _ _ _ _ Fl)|apply (fl_type _ _ _ _ _ Fl)| |exact Hsz|].
    + rewrite <- (fl_sync _ _ _ _ _ Fl). apply disk_inode_same; [apply W|done|apply Fl].
    + intros bn Hbn. apply (write_mapped s x i ip off data Fl Hoff ltac:(lia) x1 _ W). lia.
Qed.
End file.
