(* ===== verification/FsTrunc.v ===== *)
(** * Freeing a file (itrunc and iput of fs.c)

    What [itrunc] frees is exactly the blocks of the file; [iput] of the last
    reference to an inode without links frees the inode as well. *)

From S2P Require Import Prelude Params Block Sleeplock Format Str Tx Fs LogSpec FsSpec FsData FsWrite FsFile.

Section trunc.
Context {S : Type} `{TxSpec S} (sb : superblock).
Implicit Types (s : fs S) (x : txst) (i : nat) (ip : inode) (v : gmap Z block).

(** ** Blocks freed by a transaction *)

Definition bitmap_blocks : gset Z := list_to_set (seqZ (sb_bmapstart sb) (data_start sb - sb_bmapstart sb)).

(** [k] more blocks can be logged besides all of the bitmap. *)
Definition free_room (k : nat) x : Prop :=
  Z.of_nat (size (x_logged x ∪ bitmap_blocks) + k) ≤ x_max x ∧
  (size (x_logged x ∪ bitmap_blocks) + size (x_held x) + k < NBUF)%nat.

Lemma free_room_room k x : free_room k x → room k x.
Proof. intros [H1 H2]. pose proof (subseteq_size (x_logged x) (x_logged x ∪ bitmap_blocks) ltac:(set_solver)). split; lia. Qed.

(** From [x] to [x'] the blocks [F] have been freed, and nothing else. *)
Record freed x (F : list Z) x' : Prop := {
  fd_view c : ¬ sb_bmapstart sb ≤ c < data_start sb → x_view x' !! c = x_view x !! c;
  fd_used b : 0 ≤ b < sb_size sb → block_used sb (x_view x') b = block_used sb (x_view x) b && negb (bool_decide (b ∈ F));
  fd_logged : x_logged x' ∪ bitmap_blocks = x_logged x ∪ bitmap_blocks;
  fd_same : x_held x' = x_held x ∧ x_disk x' = x_disk x ∧ x_ops x' = x_ops x ∧ x_log x' = x_log x
}.

Lemma freed_nil x : freed x [] x.
Proof. split; try done. intros b _. rewrite bool_decide_eq_false_2 by (apply not_elem_of_nil). by rewrite andb_true_r. Qed.

Lemma freed_room k x F x' : freed x F x' → free_room k x → free_room k x'.
Proof. intros [_ _ Hl (Hh&_&_&Hg)] [H1 H2]. unfold free_room, x_max in *. by rewrite Hl, Hh, Hg. Qed.

Lemma freed_data x F x' c : freed x F x' → data_start sb ≤ c → x_view x' !!! c = x_view x !!! c.
Proof. intros Fd Hc. apply lookup_total_same, (fd_view _ _ _ Fd). lia. Qed.

(** [bfree] frees one more. *)
Lemma wp_free_more s x0 x F b (Q : unit → fs S → Prop) :
  fs_rep sb s x → freed x0 F x → good sb (x_view x0) b → b ∉ F → held_ok sb x → 1 ∉ x_held_blocks x → free_room 1 x0 →
  (∀ t x', fs_rep sb (set_tx t s) x' → freed x0 (F ++ [b]) x' → Q tt (set_tx t s)) → wp (bfree ROOTDEV b) Q s.
Proof.
  intros Fs Fd [Hb Hu] Hn Hh H1 Hr HQ. pose proof (fr_geom _ _ _ Fs) as G. pose proof (data_start_range sb G) as Hds.
  pose proof (BBLOCK_range sb b ltac:(lia)) as Hbb. destruct (BBLOCK_home sb G b ltac:(lia)) as [Hbh _]. destruct (image_lookup sb _ (BBLOCK b sb) (fr_image _ _ _ Fs) ltac:(lia)) as [_ Hl].
  apply (wp_bfree sb s x b); try done.
  - rewrite (fd_used _ _ _ Fd), Hu by lia. by rewrite bool_decide_eq_false_2.
  - by apply free_room_room, (freed_room 1 x0 F).
  - intros t x' Fs'. apply (HQ t x' Fs'). destruct Fd as [D1 D2 D3 D4]. split.
    + intros c Hc. unfold x'. cbn [x_view x_put]. rewrite lookup_insert_ne by lia. by apply D1.
    + intros b' Hb'. unfold x'. cbn [x_view x_put]. rewrite block_used_unmark by done. rewrite D2 by done.
      case_decide as E; [subst b'; rewrite (bool_decide_eq_true_2 (b ∈ F ++ [b])) by set_solver; by rewrite andb_false_r|].
      f_equal. f_equal. apply bool_decide_ext. set_solver.
    + unfold x'. cbn [x_logged x_put]. rewrite <- D3. assert (BBLOCK b sb ∈ bitmap_blocks); [|set_solver].
      apply elem_of_list_to_set, elem_of_seqZ. lia.
    + exact D4.
Qed.

(** ** The blocks of a file *)

Definition first_blocks v (addrs : list Z) (n : nat) : list Z := filter (λ b, b ≠ 0) (addr_of v addrs <$> seq 0 n).
Definition file_blocks v (addrs : list Z) : list Z :=
  first_blocks v addrs MAXFILE ++ (if decide (addrs !!! NDIRECT = 0) then [] else [addrs !!! NDIRECT]).

Lemma first_blocks_S v addrs n :
  first_blocks v addrs (Datatypes.S n) = first_blocks v addrs n ++ (if decide (addr_of v addrs n = 0) then [] else [addr_of v addrs n]).
Proof.
  unfold first_blocks. rewrite seq_S, fmap_app, filter_app. f_equal. cbn. case_decide; case_decide; done || congruence.
Qed.

Lemma elem_of_first_blocks v addrs n b : b ∈ first_blocks v addrs n ↔ b ≠ 0 ∧ ∃ bn, (bn < n)%nat ∧ addr_of v addrs bn = b.
Proof.
  unfold first_blocks. rewrite list_elem_of_filter, list_elem_of_fmap. setoid_rewrite elem_of_seq. split.
  - intros (Hb&bn&->&Hbn). split; [done|]. exists bn. split; [lia|done].
  - intros (Hb&bn&Hbn&<-). split; [done|]. exists bn. split; [done|lia].
Qed.

Lemma first_blocks_direct v addrs n : addrs !!! NDIRECT = 0 → first_blocks v addrs (NDIRECT + n) = first_blocks v addrs NDIRECT.
Proof.
  intros Hz. induction n as [|n IH]; [by rewrite Nat.add_0_r|]. rewrite Nat.add_succ_r, first_blocks_S, IH.
  rewrite decide_True; [apply app_nil_r|]. unfold addr_of. destruct (Nat.ltb_spec (NDIRECT + n) NDIRECT); [lia|]. by rewrite Hz.
Qed.

Lemma next_block_new v addrs n : map_ok sb v addrs → (n < MAXFILE)%nat → addr_of v addrs n ≠ 0 → addr_of v addrs n ∉ first_blocks v addrs n.
Proof.
  intros Ho Hn Hnz (_&bn&Hbn&E)%elem_of_first_blocks. apply (mo_inj _ _ _ Ho) in E; [lia|lia|done|by rewrite E].
Qed.

(** ** [itrunc] *)

Lemma zero_next (a : list Z) k : (k < length a)%nat →
  <[k:=0]> (replicate k 0 ++ drop k a) = replicate (Datatypes.S k) 0 ++ drop (Datatypes.S k) a.
Proof.
  intros Hk. destruct (lookup_lt_is_Some_2 a k Hk) as [y Hy]. rewrite (drop_S _ _ _ Hy), replicate_S_end, <- app_assoc.
  rewrite insert_app_r_alt by (rewrite length_replicate; lia). by rewrite length_replicate, Nat.sub_diag.
Qed.

Section itrunc.
Context s x i ip (I : ino_rep sb s x i ip) (Hr : free_room 2 x).
Let a := i_addrs ip.
Let v := x_view x.

(** The inode with the first [n] addresses cleared. *)
Let cleared (n : nat) : inode := set_i_addrs (replicate n 0 ++ drop n a) ip.

Lemma no_held_ok x' : x_held x' = ∅ → held_ok sb x' ∧ 1 ∉ x_held_blocks x'.
Proof. intros Hh. split; [by apply held_ok_empty|by apply no_held]. Qed.

Lemma free_room_1 : free_room 1 x.
Proof using Hr. destruct Hr. split; lia. Qed.

Lemma wp_trunc_direct (Q : unit → fs S → Prop) :
  (∀ t x', fs_rep sb (set_tx t s) x' → freed x (first_blocks v a NDIRECT) x' → Q tt (upd_st i (cleared NDIRECT) t s)) →
  wp (for_range NDIRECT 0 (λ k,
    ip ← the_inode i;
    let addr := i_addrs ip !!! Z.to_nat k in
    when (negb (addr =? 0))
      (bfree (i_dev ip) addr;;
       upd_inode i (λ ip, set_i_addrs (<[Z.to_nat k:=0]> (i_addrs ip)) ip)))) Q s.
Proof using I Hr.
  intros HQ. pose proof I as [F E Hd Ho Hh]. pose proof (mo_len _ _ _ Ho) as Hla. fold a in Hla, Ho.
  apply (wp_for_range (λ k s', ∃ t x', s' = upd_st i (cleared (Z.to_nat k)) t s ∧ fs_rep sb (set_tx t s) x' ∧
    freed x (first_blocks v a (Z.to_nat k)) x')).
  - exists (fs_tx s), x. split; [|split; [by rewrite set_tx_id|apply freed_nil]].
    change (cleared (Z.to_nat 0)) with (set_i_addrs (i_addrs ip) ip). by rewrite set_i_addrs_id, upd_st_id.
  - intros k s' Hk (t&x'&->&F'&Fd). change (0 + Z.of_nat NDIRECT) with 12 in Hk. set (n := Z.to_nat k).
    replace (Z.to_nat (k + 1)) with (Datatypes.S n) by (unfold n; lia). assert (n < NDIRECT)%nat as Hn by (change NDIRECT with 12%nat; unfold n; lia).
    assert (n < MAXFILE)%nat as Hnf by (change MAXFILE with 140%nat; change NDIRECT with 12%nat in Hn; lia).
    wp_step. apply (wp_the_inode _ i (cleared n)); [by apply (lookup_upd s i ip)|]. change (i_dev (cleared n)) with (i_dev ip). rewrite Hd.
    assert (Ea : i_addrs (cleared n) !!! n = addr_of v a n).
    { rewrite addr_of_direct by done. unfold cleared. cbn [i_addrs set_i_addrs].
      rewrite lookup_total_app_r by (rewrite length_replicate; lia). rewrite length_replicate, Nat.sub_diag, lookup_total_drop, Nat.add_0_r. done. }
    assert (Ez : <[n:=0]> (i_addrs (cleared n)) = replicate (Datatypes.S n) 0 ++ drop (Datatypes.S n) a).
    { unfold cleared. cbn [i_addrs set_i_addrs]. apply zero_next. rewrite Hla. lia. }
    cbv zeta. rewrite Ea, first_blocks_S. apply wp_when; intros Hb.
    + apply negb_true_iff, Z.eqb_neq in Hb. rewrite decide_False by done. destruct (fd_same _ _ _ Fd) as (Hh'&_). rewrite Hh in Hh'.
      destruct (no_held_ok x' Hh') as [Hok H1]. wp_step.
      apply (wp_free_more (upd_st i (cleared n) t s) x x' (first_blocks v a n)); try done.
      { by apply fs_rep_upd. }
      { by apply Ho. }
      { by apply next_block_new. }
      { apply free_room_1. }
      intros t2 x2 F2 Fd2. change (set_tx t2 (upd_st i (cleared n) t s)) with (upd_st i (cleared n) t2 s).
      apply (wp_upd_inode _ i (cleared n)); [by apply (lookup_upd s i ip)|]. exists t2, x2. split; [|split; [|done]].
      * rewrite Ez. by rewrite upd_st_upd.
      * destruct F2. by split.
    + apply negb_false_iff, Z.eqb_eq in Hb. rewrite decide_True by done. rewrite app_nil_r. exists t, x'. split; [|done].
      f_equal. unfold cleared. f_equal. rewrite <- zero_next by (rewrite Hla; lia). rewrite <- Ea in Hb. symmetry. apply list_insert_id.
      pose proof (list_lookup_lookup_total_lt (i_addrs (cleared n)) n) as Hl. rewrite Hb in Hl. apply Hl.
      unfold cleared. cbn [i_addrs set_i_addrs]. rewrite length_app, length_replicate, length_drop, Hla. lia.
  - intros s' (t&x'&->&F'&Fd). change (Z.to_nat (0 + Z.of_nat NDIRECT)) with NDIRECT in *. by apply (HQ t x').
Qed.

(** Holding the buffer of a block on both sides. *)
Lemma freed_hold y F y' bp b : freed y F y' → freed (x_hold bp b y) F (x_hold bp b y').
Proof. intros [D1 D2 D3 (D4&D5)]. split; try done. cbn [x_hold x_held x_disk x_ops x_log]. by rewrite D4. Qed.

Lemma freed_drop y F y' bp b : x_held y !! bp = None → freed (x_hold bp b y) F y' → freed y F (x_drop bp y').
Proof.
  intros Hn [D1 D2 D3 (D4&D5)]. split; try done. cbn [x_drop x_held x_disk x_ops x_log]. rewrite D4. cbn [x_hold x_held].
  by rewrite delete_insert_id.
Qed.

Lemma meta_low : geom_ok sb → 1 < data_start sb.
Proof.
  intros G. pose proof (bmapstart_data sb G). destruct G as [_ (?&?&?) (?&Hi) _]. unfold IBLOCK in Hi. change IPB with 8 in Hi. dlia.
Qed.

(** The buffer of the indirect block is no obstacle to freeing blocks. *)
Lemma held_ind x' bp ind : good sb (x_view x') ind → geom_ok sb → x_held x' = {[bp:=ind]} →
  held_ok sb x' ∧ 1 ∉ x_held_blocks x'.
Proof.
  intros Hg G Hh. pose proof (meta_low G). assert (Hb : ∀ h, h ∈ x_held_blocks x' → h = ind).
  { intros h. unfold x_held_blocks. rewrite Hh, elem_of_map_img. intros (k&[? ?]%lookup_singleton_Some). done. }
  split; [by intros h ->%Hb|]. intros ?%Hb. destruct Hg. lia.
Qed.

(** The indirect block: its entries, and the block itself. *)
Lemma wp_trunc_indirect t x1 (Q : unit → fs S → Prop) : a !!! NDIRECT ≠ 0 →
  fs_rep sb (set_tx t s) x1 → freed x (first_blocks v a NDIRECT) x1 →
  (∀ t' x', fs_rep sb (set_tx t' s) x' → freed x (file_blocks v a) x' → Q tt (upd_st i (cleared (NDIRECT + 1)) t' s)) →
  wp (bp ← in_tx (op_bread ROOTDEV (a !!! NDIRECT));
      d ← in_tx (op_data bp);
      for_range NINDIRECT 0 (λ j,
        let b := get32 d (4 * Z.to_nat j) in
        when (negb (b =? 0)) (bfree ROOTDEV b));;
      in_tx (op_brelse bp);;
      bfree ROOTDEV (a !!! NDIRECT);;
      upd_inode i (λ ip, set_i_addrs (<[NDIRECT:=0]> (i_addrs ip)) ip)) Q (upd_st i (cleared NDIRECT) t s).
Proof using I Hr.
  intros Hnz F1 Fd1 HQ. pose proof I as [F E Hd Ho Hh]. fold a v in Ho. pose proof (fr_geom _ _ _ F) as G. pose proof (data_start_range sb G) as Hds.
  set (ind := a !!! NDIRECT) in *. destruct (mo_ind _ _ _ Ho Hnz) as [Hir Hiu]. fold ind in Hir, Hiu.
  destruct (fd_same _ _ _ Fd1) as (Hh1&Hsame1). rewrite Hh in Hh1. set (s1 := upd_st i (cleared NDIRECT) t s).
  assert (F1' : fs_rep sb s1 x1) by by apply fs_rep_upd.
  eapply wp_get; [apply F1'|rewrite (fr_size _ _ _ F1'); lia|by apply no_held|apply free_room_room, (freed_room _ _ _ _ Fd1); destruct Hr; split; lia|].
  intros bp t2 Hbp R2 _. rewrite (freed_data _ _ _ ind Fd1) by lia. fold v.
  set (xh := x_hold bp ind x). set (xh1 := x_hold bp ind x1).
  assert (Fd2 : freed xh (first_blocks v a NDIRECT) xh1) by by apply freed_hold.
  assert (F2 : fs_rep sb (set_tx t2 s1) xh1) by (destruct F1'; by split).
  assert (Hrh : free_room 1 xh).
  { destruct Hr as [Hr1 Hr2]. unfold free_room. change (x_logged xh) with (x_logged x). change (x_max xh) with (x_max x).
    change (x_held xh) with (<[bp:=ind]> (x_held x)). rewrite map_size_insert_None by (by rewrite Hh). split; lia. }
  assert (Hheld : ∀ F' y, freed xh F' y → x_held y = {[bp:=ind]}).
  { intros F' y [_ _ _ (Hy&_)]. rewrite Hy. change (x_held xh) with (<[bp:=ind]> (x_held x)). by rewrite Hh. }
  assert (Hout : ∀ n, (n ≤ MAXFILE)%nat → ind ∉ first_blocks v a n).
  { intros n Hn (_&bn&Hbn&Eb)%elem_of_first_blocks. apply (mo_ind_ne _ _ _ Ho bn ltac:(lia) Hnz Eb). }
  wp_step. apply (wp_for_range (λ j s', ∃ t' x', s' = set_tx t' s1 ∧ fs_rep sb (set_tx t' s1) x' ∧
    freed xh (first_blocks v a (NDIRECT + Z.to_nat j)) x')).
  - exists t2, xh1. by rewrite Nat.add_0_r.
  - intros j s' Hj (t'&x'&->&F'&Fd'). set (n := Z.to_nat j). change (0 + Z.of_nat NINDIRECT) with 128 in Hj.
    replace (Z.to_nat (j + 1)) with (Datatypes.S n) by (unfold n; lia). rewrite Nat.add_succ_r, first_blocks_S. fold n in Fd'.
    assert (Hn : (NDIRECT + n < MAXFILE)%nat) by (change MAXFILE with 140%nat; change NDIRECT with 12%nat; unfold n; lia).
    assert (Eg : get32 (v !!! ind) (4 * n) = addr_of v a (NDIRECT + n)).
    { rewrite addr_of_indirect by (done || lia). fold ind. do 2 f_equal. lia. }
    cbv zeta. rewrite Eg. apply wp_when; intros Hb.
    + apply negb_true_iff, Z.eqb_neq in Hb. rewrite decide_False by done.
      assert (Hgi : good sb (x_view x') ind).
      { split; [done|]. rewrite (fd_used _ _ _ Fd') by lia. cbn [xh x_hold x_view]. fold v. rewrite Hiu. by rewrite bool_decide_eq_false_2 by (apply Hout; lia). }
      destruct (held_ind x' bp ind Hgi G (Hheld _ _ Fd')) as [Hok H1].
      apply (wp_free_more (set_tx t' s1) xh x' (first_blocks v a (NDIRECT + n))); try done.
      { by apply Ho. }
      { by apply next_block_new. }
      intros t3 x3 F3 Fd3. by exists t3, x3.
    + apply negb_false_iff, Z.eqb_eq in Hb. rewrite decide_True by done. rewrite app_nil_r. by exists t', x'.
  - intros s' (t'&x'&->&F'&Fd'). change (NDIRECT + Z.to_nat (0 + Z.of_nat NINDIRECT))%nat with MAXFILE in Fd'.
    wp_step. apply wp_zoom. eapply txk_brelse; [apply F'|rewrite (Hheld _ _ Fd'); apply lookup_singleton_eq|by eapply fr_not_fresh|].
    intros t3 R3. set (x3 := x_drop bp x').
    assert (Fd3 : freed x (first_blocks v a MAXFILE) x3) by (apply (freed_drop _ _ _ _ ind); [by rewrite Hh|done]).
    assert (F3 : fs_rep sb (set_tx t3 s1) x3) by (destruct F'; by split).
    destruct (fd_same _ _ _ Fd3) as (Hh3&_). rewrite Hh in Hh3. destruct (no_held_ok x3 Hh3) as [Hok H1].
    wp_step. apply (wp_free_more (set_tx t3 s1) x x3 (first_blocks v a MAXFILE)); try done.
    { by apply Hout. }
    { apply free_room_1. }
    intros t4 x4 F4 Fd4. change (set_tx t4 (set_tx t3 s1)) with (upd_st i (cleared NDIRECT) t4 s).
    apply (wp_upd_inode _ i (cleared NDIRECT)); [by apply (lookup_upd s i ip)|]. rewrite upd_st_upd.
    assert (Ez : <[NDIRECT:=0]> (i_addrs (cleared NDIRECT)) = replicate (NDIRECT + 1) 0 ++ drop (NDIRECT + 1) a).
    { unfold cleared. cbn [i_addrs set_i_addrs]. rewrite zero_next; [done|]. rewrite (mo_len _ _ _ Ho). lia. }
    rewrite Ez. apply (HQ t4 x4); [destruct F4; by split|]. unfold file_blocks. by rewrite decide_False.
Qed.

(** The inode without contents. *)
Definition emptied ip : inode := set_i_size 0 (set_i_addrs (replicate (NDIRECT + 1) 0) ip).

Lemma cleared_map v' : map_ok sb v' (replicate (NDIRECT + 1) 0).
Proof.
  assert (Hz : ∀ bn, addr_of v' (replicate (NDIRECT + 1) 0) bn = 0).
  { intros bn. unfold addr_of. destruct (Nat.ltb_spec bn NDIRECT); [|done]. apply lookup_total_replicate_2. lia. }
  split; try done; intros; by rewrite Hz in *.
Qed.

Lemma emptied_ok : dinode_ok (inode_disk ip) → dinode_ok (inode_disk (emptied ip)).
Proof.
  intros []. split; try done; cbn. apply (Forall_replicate uint (NDIRECT + 1) 0). unfold uint. lia.
Qed.

Lemma wp_itrunc (Q : unit → fs S → Prop) : 0 ≤ i_inum ip < sb_ninodes sb → dinode_ok (inode_disk ip) →
  (∀ t x1, freed x (file_blocks v a) x1 → image_ok sb (x_view x1) →
     ino_rep sb (upd_st i (emptied ip) t s) (put_inode sb (i_inum ip) (inode_disk (emptied ip)) x1) i (emptied ip) →
     Q tt (upd_st i (emptied ip) t s)) →
  wp (itrunc i) Q s.
Proof using I Hr.
  intros Hin Hok HQ. pose proof I as [F E Hd Ho Hh]. fold a in Ho. pose proof (mo_len _ _ _ Ho) as Hla.
  assert (Hend : ∀ t x1, fs_rep sb (set_tx t s) x1 → freed x (file_blocks v a) x1 →
    wp (upd_inode i (set_i_size 0);; iupdate i) Q (upd_st i (set_i_addrs (replicate (NDIRECT + 1) 0) ip) t s)).
  { intros t x1 F1 Fd1. destruct (fd_same _ _ _ Fd1) as (Hh1&_). rewrite Hh in Hh1.
    wp_step. apply (wp_upd_inode _ i (set_i_addrs (replicate (NDIRECT + 1) 0) ip)); [by apply (lookup_upd s i ip)|]. rewrite upd_st_upd. fold (emptied ip).
    apply (wp_iupdate sb _ x1 i (emptied ip)); [|done|by apply emptied_ok|apply free_room_room, (freed_room _ _ _ _ Fd1), free_room_1|].
    { split; [by apply fs_rep_upd|by apply (lookup_upd s i ip)|done|apply cleared_map|done]. }
    intros t' x2 I2. apply (HQ t' x1 Fd1); [apply F1|exact I2]. }
  unfold itrunc. wp_step. apply wp_trunc_direct. intros t x1 F1 Fd1.
  wp_step. apply (wp_the_inode _ i (cleared NDIRECT)); [by apply (lookup_upd s i ip)|]. change (i_dev (cleared NDIRECT)) with (i_dev ip). rewrite Hd.
  assert (Ea : i_addrs (cleared NDIRECT) !!! NDIRECT = a !!! NDIRECT).
  { unfold cleared. cbn [i_addrs set_i_addrs]. rewrite lookup_total_app_r by (rewrite length_replicate; lia).
    by rewrite length_replicate, Nat.sub_diag, lookup_total_drop, Nat.add_0_r. }
  cbv zeta. rewrite Ea. wp_step. apply wp_when; intros Hb.
  - apply negb_true_iff, Z.eqb_neq in Hb. apply (wp_trunc_indirect t x1); try done. intros t' x' F' Fd'.
    assert (Ec : cleared (NDIRECT + 1) = set_i_addrs (replicate (NDIRECT + 1) 0) ip).
    { unfold cleared. by rewrite drop_ge, app_nil_r by lia. }
    rewrite Ec. by apply (Hend t' x').
  - apply negb_false_iff, Z.eqb_eq in Hb.
    assert (Ec : cleared NDIRECT = set_i_addrs (replicate (NDIRECT + 1) 0) ip).
    { unfold cleared. f_equal. rewrite replicate_add. f_equal. assert (Hl : length (drop NDIRECT a) = 1%nat) by (rewrite length_drop; lia).
      pose proof (lookup_total_drop a NDIRECT 0) as Hz. rewrite Nat.add_0_r, Hb in Hz.
      destruct (drop NDIRECT a) as [|z [|]]; try done. cbn in Hz. by subst z. }
    rewrite Ec. apply (Hend t x1 F1). unfold file_blocks. rewrite decide_True by done. rewrite app_nil_r.
    change MAXFILE with (NDIRECT + NINDIRECT)%nat. by rewrite first_blocks_direct.
Qed.
End itrunc.
End trunc.
