(* ===== verification/FsStack.v ===== *)
(** * Files on the whole stack

    The theorems of [FsFile] on the concrete system: fs.c over log.c over bio.c
    over the disk, including what a crash during a file write leaves behind. *)

From S2P Require Import Prelude Params Block Sleeplock Bio BioSpec Format Log LogSpec Crash.
From S2P Require Import Str Tx Fs FsSpec FsData FsWrite FsFile.

(** Two files share no block. *)
Definition disjoint_files (v : gmap Z block) (a1 a2 : list Z) : Prop :=
  (∀ b1 b2, (b1 < MAXFILE)%nat → (b2 < MAXFILE)%nat → addr_of v a1 b1 ≠ 0 → addr_of v a1 b1 ≠ addr_of v a2 b2) ∧
  (∀ b2, (b2 < MAXFILE)%nat → addr_of v a2 b2 ≠ 0 → addr_of v a2 b2 ≠ a1 !!! NDIRECT) ∧
  (∀ b1, (b1 < MAXFILE)%nat → a2 !!! NDIRECT ≠ 0 → addr_of v a1 b1 ≠ a2 !!! NDIRECT) ∧
  (a2 !!! NDIRECT ≠ 0 → a2 !!! NDIRECT ≠ a1 !!! NDIRECT).

(** A write leaves every other file alone. *)
Lemma other_file_kept sb x ip off data x' ip' a2 o :
  geom_ok sb → writei_post sb x ip off data x' ip' → map_ok sb (x_view x) a2 →
  disjoint_files (x_view x) (i_addrs ip) a2 → 0 ≤ o < MAXBYTES →
  addr_of (x_view x) a2 (Z.to_nat (o / 512)) ≠ 0 →
  file_byte (x_view x') a2 o = file_byte (x_view x) a2 o.
Proof.
  intros G W Ho (D1&D2&D3&D4) Hr Hnz. change MAXBYTES with 71680 in Hr.
  assert (Z.to_nat (o / 512) < MAXFILE)%nat as Hbn by (change MAXFILE with 140%nat; dlia).
  assert (addr_of (x_view x') a2 (Z.to_nat (o / 512)) = addr_of (x_view x) a2 (Z.to_nat (o / 512))) as E.
  { apply addr_of_ext. intros Hi. apply (wi_keep _ _ _ _ _ _ _ W); [by apply Ho|by apply D4|].
    intros bn Hb. by apply D3. }
  unfold file_byte. rewrite E. f_equal. apply (wi_keep _ _ _ _ _ _ _ W); [by apply Ho|by apply D2|].
  intros bn Hb Heq. apply (D1 bn (Z.to_nat (o / 512)) Hb Hbn); [|done]. by rewrite Heq.
Qed.

Section stack.
Context `{DevSw (log bio)} (sb : superblock).
Implicit Types s : fs (log bio).

(** C20: [writei] on the whole stack.  For a file without holes, an offset not
    past its end, and room in the log, [writei] returns the number of bytes
    written; the file is then its old contents with those bytes at that
    offset, extended if the write goes past the end; the disk inode is up to
    date; and no other inode and no other file changed. *)
Theorem writei_correct s x i ip src off n k :
  file_rep sb s x i ip → 0 ≤ off ≤ i_size ip → 0 ≤ n ≤ Z.of_nat (length src) →
  off + n ≤ MAXBYTES → off mod 512 + n ≤ 512 * Z.of_nat k →
  room (6 * k + 1) x → has_free sb (2 * k) (x_view x) →
  ∃ s' x' ip', writei i src off n s = Done n s' ∧ file_rep sb s' x' i ip' ∧
    i_size ip' = Z.max (i_size ip) (off + n) ∧ i_inum ip' = i_inum ip ∧
    (∀ o, 0 ≤ o < i_size ip' → file_byte (x_view x') (i_addrs ip') o =
       if decide (off ≤ o < off + n) then src !!! Z.to_nat (o - off)
       else file_byte (x_view x) (i_addrs ip) o) ∧
    (∀ j, 0 ≤ j < sb_ninodes sb → j ≠ i_inum ip →
       disk_inode sb (x_view x') j = disk_inode sb (x_view x) j) ∧
    (∀ a2 o, map_ok sb (x_view x) a2 → disjoint_files (x_view x) (i_addrs ip) a2 → 0 ≤ o < MAXBYTES →
       addr_of (x_view x) a2 (Z.to_nat (o / 512)) ≠ 0 →
       file_byte (x_view x') a2 o = file_byte (x_view x) a2 o).
Proof.
  intros Fl Ho Hn Hm Hk Hr Hf.
  assert (Z.of_nat (length (take (Z.to_nat n) src)) = n) as Hl by (rewrite length_take; lia).
  assert (wp (writei i src off n) (λ m s', m = n ∧ ∃ x' ip', file_rep sb s' x' i ip' ∧
            writei_post sb x ip off (take (Z.to_nat n) src) x' ip') s) as W.
  { apply (wp_writei sb s x i ip src off n k 0); try done. eauto 10. }
  apply wp_inv in W as (m&s'&E&->&x'&ip'&Fl'&W). exists s', x', ip'.
  destruct (wi_ip _ _ _ _ _ _ _ W) as (addrs'&Eip). rewrite Hl in Eip.
  split_and!; try done; try (by rewrite Eip).
  - intros o Hor. rewrite (wi_bytes _ _ _ _ _ _ _ W) by done. rewrite Hl.
    case_decide; [|done]. apply list_total_eq. by rewrite lookup_take_lt by lia.
  - apply W.
  - intros a2 o Ha Hd Hor Hnz. eapply other_file_kept; try done. apply (fr_geom _ _ _ (ir_fs _ _ _ _ _ (fl_ino _ _ _ _ _ Fl))).
Qed.

(** C21: [readi] on the whole stack.  It returns the bytes of the file from
    [off] on, as many as were asked for or as there are before the end, and
    changes neither the file nor the disk. *)
Theorem readi_correct s x i ip off n :
  file_rep sb s x i ip → room 0 x → 0 ≤ off ≤ i_size ip → 0 ≤ n → off + n < 2 ^ 32 →
  ∃ s' l, let m := Z.min n (i_size ip - off) in
    readi i off n s = Done (m, l) s' ∧ file_rep sb s' x i ip ∧ Z.of_nat (length l) = m ∧
    ∀ k, 0 ≤ k < m → l !! Z.to_nat k = Some (file_byte (x_view x) (i_addrs ip) (off + k)).
Proof.
  intros Fl Hr Ho Hn Hov. destruct Fl as [I F1 F2 F3 F4 F5 F6].
  set (m := Z.min n (i_size ip - off)).
  assert (wp (readi i off n) (λ r s', ∃ l, r = (m, l) ∧ file_rep sb s' x i ip ∧ Z.of_nat (length l) = m ∧
    ∀ k, 0 ≤ k < m → l !! Z.to_nat k = Some (file_byte (x_view x) (i_addrs ip) (off + k))) s) as W.
  { apply (wp_readi sb s x i ip); [done|done|done|lia|done|done|lia|done|].
    intros t' l m' I' Hl Hb. exists l. split_and!; done || by split. }
  apply wp_inv in W as (r&s'&E&l&->&?&?&?). eauto 10.
Qed.

(** what was written is read back: [writei] of [n] bytes followed by
    [readi] of [n] bytes at the same offset returns those bytes. *)
Theorem read_after_write s x i ip src off n k :
  file_rep sb s x i ip → 0 ≤ off ≤ i_size ip → 0 ≤ n ≤ Z.of_nat (length src) →
  off + n ≤ MAXBYTES → off mod 512 + n ≤ 512 * Z.of_nat k →
  room (6 * k + 1) x → has_free sb (2 * k) (x_view x) →
  ∃ s' s'', writei i src off n s = Done n s' ∧ readi i off n s' = Done (n, take (Z.to_nat n) src) s''.
Proof.
  intros Fl Ho Hn Hm Hk Hr Hf.
  assert (wp (writei i src off n) (λ m s', m = n ∧
    wp (readi i off n) (λ r _, r = (n, take (Z.to_nat n) src)) s') s) as W.
  { apply (wp_writei sb s x i ip src off n k 0); try done. intros t' x' ip' W Fl' Hr'. split; [done|].
    assert (Z.of_nat (length (take (Z.to_nat n) src)) = n) as Hl by (rewrite length_take; lia).
    destruct (wi_ip _ _ _ _ _ _ _ W) as (addrs'&Eip). rewrite Hl in Eip.
    assert (i_size ip' = Z.max (i_size ip) (off + n)) as Esz by by rewrite Eip.
    destruct Fl' as [I' F1 F2 F3 F4 F5 F6]. pose proof (wi_bytes _ _ _ _ _ _ _ W) as Hb. rewrite Hl in Hb.
    clear Eip. change MAXBYTES with 71680 in *.
    apply (wp_readi sb _ x' i ip'); [done|done|done|lia|lia|lia|change MAXBYTES with 71680; lia|done|].
    intros t'' l m' _ Hll Hlb. unfold m' in *. replace (Z.min n (i_size ip' - off)) with n in * by lia.
    f_equal. apply list_eq. intros j. destruct (decide (j < Z.to_nat n)%nat) as [Hj|Hj].
    - specialize (Hlb (Z.of_nat j) ltac:(lia)). rewrite Nat2Z.id in Hlb. rewrite Hlb, Hb by lia.
      rewrite decide_True by lia. replace (Z.to_nat (off + Z.of_nat j - off)) with j by lia.
      symmetry. apply list_lookup_lookup_total_lt. lia.
    - by rewrite !lookup_ge_None_2 by lia. }
  apply wp_inv in W as (m&s'&E&->&W). apply wp_inv in W as (r&s''&E'&->). eauto.
Qed.

(** ** Crashes *)

(** A disk that agrees with the view outside the log area holds the same files. *)
Section agree.
Context (G : geom_ok sb) (d v : gmap Z block).
Context (Hd : ∀ b, ¬ log_area (sb_logstart sb) (sb_nlog sb) b → d !! b = v !! b).

Lemma agree_inode j : 0 ≤ j < sb_ninodes sb → disk_inode sb d j = disk_inode sb v j.
Proof.
  intros Hj. unfold disk_inode. f_equal. apply lookup_total_same, Hd. by apply IBLOCK_home.
Qed.

Lemma agree_used b : 0 ≤ b < sb_size sb → block_used sb d b = block_used sb v b.
Proof.
  intros Hb. unfold block_used. assert (d !!! BBLOCK b sb = v !!! BBLOCK b sb) as -> by (apply lookup_total_same, Hd; by apply BBLOCK_home). done.
Qed.

Lemma agree_byte addrs o : map_ok sb v addrs → 0 ≤ o < MAXBYTES →
  addr_of v addrs (Z.to_nat (o / 512)) ≠ 0 → file_byte d addrs o = file_byte v addrs o.
Proof.
  intros Ho Hr Hnz. change MAXBYTES with 71680 in Hr.
  assert (Hdata : ∀ b, good sb v b → d !!! b = v !!! b).
  { intros b [Hb _]. apply lookup_total_same, Hd. by apply data_home. }
  assert (addr_of d addrs (Z.to_nat (o / 512)) = addr_of v addrs (Z.to_nat (o / 512))) as E.
  { apply addr_of_ext. intros Hi. by apply Hdata, Ho. }
  unfold file_byte. rewrite E. f_equal. apply Hdata, Ho; [change MAXFILE with 140%nat; dlia|done].
Qed.
End agree.

(** The file [ip] is on disk [d] with contents [f]. *)
Definition file_on_disk (d : gmap Z block) ip (f : Z → Z) : Prop :=
  disk_inode sb d (i_inum ip) = inode_disk ip ∧
  ∀ o, 0 ≤ o < i_size ip → file_byte d (i_addrs ip) o = f o.

Lemma file_rep_on_disk s x i ip d f : file_rep sb s x i ip →
  (∀ b, ¬ log_area (sb_logstart sb) (sb_nlog sb) b → d !! b = x_view x !! b) →
  (∀ o, 0 ≤ o < i_size ip → file_byte (x_view x) (i_addrs ip) o = f o) →
  file_on_disk d ip f.
Proof.
  intros [I F1 F2 F3 F4 F5 F6] Hd Hf. pose proof (fr_geom _ _ _ (ir_fs _ _ _ _ _ I)) as G. split.
  - by rewrite (agree_inode G d (x_view x)).
  - intros o Ho. rewrite (agree_byte G d (x_view x)); [by apply Hf|done|apply I|lia|].
    apply F6. dlia.
Qed.

Lemma sb_placed d : geom_ok sb → decode_sb d = sb → log_placed (sb_logstart sb) (sb_nlog sb) d.
Proof.
  intros G E. unfold log_placed. rewrite E. pose proof (bmapstart_data sb G). pose proof (data_start_range sb G).
  destruct G as [G1 G2 G3 G4]. unfold IBLOCK in *. change IPB with 8 in *. rewrite !i32_small by dlia. done.
Qed.

(** The disk [d] has the blocks of [v], the area of the log apart. *)
Definition agrees (v d : gmap Z block) : Prop := ∀ b, ¬ log_area (sb_logstart sb) (sb_nlog sb) b → d !! b = v !! b.

(** Ending the only operation: afterwards the disk has the view of the
    transaction; when the machine stops after any number of the disk writes,
    the recovered disk has that view or what was there before. *)
Lemma end_op_agrees s x v pid : fs_rep sb s x → x_held x = ∅ → x_ops x = 1 → x_disk x = v → image_ok sb v →
  ∃ t' ws, end_op (fs_tx s) = Done tt t' ∧ writes (l_bio t') = writes (l_bio (fs_tx s)) ++ ws ∧ agrees (x_view x) (disk (l_bio t')) ∧
    ∀ c, (c ≤ length ws)%nat → ∃ t2,
      initlog ROOTDEV (boot_log (sb_size sb) (apply_writes (disk (l_bio (fs_tx s))) (take c ws)) pid) = Done tt t2 ∧
      (agrees v (disk (l_bio t2)) ∨ agrees (x_view x) (disk (l_bio t2))).
Proof.
  intros F Hheld Hop Hd Im. pose proof F as [R _ G Hsz Hlog _ Im'].
  destruct R as (a&T). destruct T as [L [Hout _] Hcom _ Es Ea Ev Ek Eh _ _].
  rewrite Hlog in Ea. injection Ea as Est Enl.
  destruct (end_op_crash (fs_tx s) a pid) as (t'&ws&He&Hw&_&_&_&Hfin&Hcrash); try done.
  { congruence. } { congruence. } { rewrite <- Est. apply G. }
  { rewrite <- Est, <- Enl, Ek, Hd. apply sb_placed; [done|apply Im]. }
  { rewrite <- Est, <- Enl, Ev. apply sb_placed; [done|apply Im']. }
  rewrite <- Est, <- Enl, Ev in Hfin. exists t', ws. split_and!; [done|done|done|].
  intros c Hc. destruct (Hcrash c Hc) as (t2&a2&Hi&_&_&Hrec). clear Hcrash He.
  rewrite Es, Hsz in Hi. exists t2. split; [exact Hi|]. clear Hi. rewrite <- Est, <- Enl in Hrec.
  rewrite (rep_disk _ _ (lr_bio _ _ L)), Ek, Hd, Ev in Hrec.
  destruct (decide (c ≤ length (logged (fs_tx s)))%nat); [by left|by right].
Qed.

(** C1: a file write is atomic with respect to crashes.  Write to a file in an
    operation of its own, end the operation, and stop the machine after any
    number of the disk writes this causes: after the reboot the recovered disk
    holds either the file as it was before the write, or the file with the
    whole write done, inode and contents. *)
Theorem file_write_crash_atomic s x i ip src off n k pid :
  file_rep sb s x i ip → 0 ≤ off ≤ i_size ip → 0 ≤ n ≤ Z.of_nat (length src) →
  off + n ≤ MAXBYTES → off mod 512 + n ≤ 512 * Z.of_nat k →
  room (6 * k + 1) x → has_free sb (2 * k) (x_view x) → x_ops x = 1 → x_disk x = x_view x →
  ∃ s' ip' t' ws,
    writei i src off n s = Done n s' ∧ end_op (fs_tx s') = Done tt t' ∧
    writes (l_bio t') = writes (l_bio (fs_tx s')) ++ ws ∧
    i_size ip' = Z.max (i_size ip) (off + n) ∧ i_inum ip' = i_inum ip ∧
    ∀ c, (c ≤ length ws)%nat → ∃ t2,
      initlog ROOTDEV (boot_log (sb_size sb) (apply_writes (disk (l_bio (fs_tx s'))) (take c ws)) pid)
        = Done tt t2 ∧
      (file_on_disk (disk (l_bio t2)) ip (file_byte (x_view x) (i_addrs ip)) ∨
       file_on_disk (disk (l_bio t2)) ip' (λ o,
         if decide (off ≤ o < off + n) then src !!! Z.to_nat (o - off)
         else file_byte (x_view x) (i_addrs ip) o)).
Proof.
  intros Fl Ho Hn Hm Hk Hr Hf H1 Hdisk.
  assert (wp (writei i src off n) (λ m s', m = n ∧ ∃ x' ip', file_rep sb s' x' i ip' ∧
            writei_post sb x ip off (take (Z.to_nat n) src) x' ip') s) as W.
  { apply (wp_writei sb s x i ip src off n k 0); try done. eauto 10. }
  apply wp_inv in W as (m&s'&E&->&x'&ip'&Fl'&W).
  assert (Z.of_nat (length (take (Z.to_nat n) src)) = n) as Hl by (rewrite length_take; lia).
  destruct (wi_ip _ _ _ _ _ _ _ W) as (addrs'&Eip). rewrite Hl in Eip.
  destruct (wi_held _ _ _ _ _ _ _ W) as (Hh&Hd&Hop).
  pose proof (fl_ino _ _ _ _ _ Fl') as [F' _ _ _ Hheld]. pose proof (fr_image _ _ _ (ir_fs _ _ _ _ _ (fl_ino _ _ _ _ _ Fl))) as Im.
  destruct (end_op_agrees s' x' (x_view x) pid) as (t'&ws&He&Hw&_&Hcrash); [done|done|congruence|congruence|done|].
  exists s', ip', t', ws. split_and!; try done; try (by rewrite Eip).
  intros c Hc. destruct (Hcrash c Hc) as (t2&Hi&Ha). exists t2. split; [exact Hi|]. clear Hi Hcrash He. destruct Ha as [Ha|Ha].
  - left. by eapply file_rep_on_disk.
  - right. eapply file_rep_on_disk; [exact Fl'|done|]. intros o Hor.
    rewrite (wi_bytes _ _ _ _ _ _ _ W) by done. rewrite Hl.
    case_decide; [|done]. apply list_total_eq. by rewrite lookup_take_lt by lia.
Qed.

(** ** The block allocator *)

(** No bitmap block. *)
Definition not_bitmap (c : Z) : Prop := ∀ b, 0 ≤ b < sb_size sb → BBLOCK b sb ≠ c.

(** [balloc] returns the first free block, zeroed and marked in use; the
    bitmap changes in that one bit and no other block changes.  When every
    block is in use it panics. *)
Theorem balloc_correct s x :
  fs_rep sb s x → x_held x = ∅ → room 2 x →
  (∀ b, first_free sb (x_view x) b → ∃ s' x', balloc ROOTDEV s = Done b s' ∧ fs_rep sb s' x' ∧
     data_start sb ≤ b ∧ x_view x' !! b = Some zero_block ∧
     (∀ b', 0 ≤ b' < sb_size sb →
        block_used sb (x_view x') b' = if decide (b = b') then true else block_used sb (x_view x) b') ∧
     (∀ c, c ≠ b → not_bitmap c → x_view x' !! c = x_view x !! c)) ∧
  ((∀ b, 0 ≤ b < sb_size sb → block_used sb (x_view x) b = true) →
     balloc ROOTDEV s = Panic "balloc: out of blocks").
Proof.
  intros F Hh Hr. pose proof (fr_geom _ _ _ F) as G. pose proof (fr_image _ _ _ F) as Im. split.
  - intros b Hf.
    assert (wp (balloc ROOTDEV) (λ b' s', b' = b ∧ fs_rep sb s' (x_alloc sb b x)) s) as W.
    { apply (wp_balloc sb s x b); try done. by apply held_ok_empty. }
    apply wp_inv in W as (b'&s'&E&->&F'). exists s', (x_alloc sb b x). split_and!; try done.
    + by apply (first_free_data sb _ b Im Hf).
    + simpl. apply lookup_insert_eq.
    + intros b' Hb'. by apply alloc_used.
    + intros c Hc Hn. by apply alloc_keep.
  - intros Hall. apply (balloc_full sb s x); try done. eapply room_weaken; [|done]. lia.
Qed.

(** [bfree] of a data block in use clears its bit and changes nothing else;
    [bfree] of a block that is already free panics: no block is freed twice. *)
Theorem bfree_correct s x b :
  fs_rep sb s x → x_held x = ∅ → room 1 x → data_start sb ≤ b < sb_size sb →
  (block_used sb (x_view x) b = true → ∃ s' x', bfree ROOTDEV b s = Done tt s' ∧ fs_rep sb s' x' ∧
     (∀ b', 0 ≤ b' < sb_size sb →
        block_used sb (x_view x') b' = if decide (b = b') then false else block_used sb (x_view x) b') ∧
     (∀ c, not_bitmap c → x_view x' !! c = x_view x !! c)) ∧
  (block_used sb (x_view x) b = false → bfree ROOTDEV b s = Panic "freeing free block").
Proof.
  intros F Hh Hr Hb. pose proof (fr_geom _ _ _ F) as G. pose proof (data_start_range sb G) as Hds.
  destruct (BBLOCK_home sb G b ltac:(lia)) as [Hbb _].
  assert (∀ c, c ∉ x_held_blocks x) as Hnh by (intros; by apply no_held). split.
  - intros Hu. set (x' := x_put (BBLOCK b sb) (unmark_bit (x_view x !!! BBLOCK b sb) (b mod BPB)) x).
    assert (wp (bfree ROOTDEV b) (λ _ s', fs_rep sb s' x') s) as W.
    { apply (wp_bfree sb s x b); try done. by apply held_ok_empty. }
    apply wp_inv in W as ([]&s'&E&F'). exists s', x'. split_and!; try done.
    + intros b' Hb'. apply block_used_unmark.
      destruct (image_lookup sb _ (BBLOCK b sb) (fr_image _ _ _ F) ltac:(lia)). done.
    + intros c Hc. simpl. apply lookup_insert_ne. apply Hc. lia.
  - intros Hu. apply (bfree_free sb s x); try done. eapply room_weaken; [|done]. lia.
Qed.
End stack.

(** ** Starting a transaction on a booted machine *)

Lemma booted_tx n start size d pid :
  disk_ok n start size d →
  ∃ s0 t, initlog ROOTDEV (boot_log n d pid) = Done tt s0 ∧ begin_op s0 = Done tt t ∧
    tx_rep t (mktx n (start, size) 1 (recovered start d) (recovered start d) ∅ ∅ ∅).
Proof.
  intros Hok. destruct (boot_recovers _ _ _ _ pid Hok) as (s0&Hi&_&_&L&Hst&Hsz&Ho&Hc&Hn).
  exists s0, (set_outstanding (l_outstanding s0 + 1) s0). split; [exact Hi|]. clear Hi. split.
  - rewrite begin_op_eq by apply L. unfold admits. by rewrite Hc, Hn, Ho.
  - exists (a_after (recover_writes start d) ∅ (boot_state n d)). assert (logged s0 = []) as Hlog by (unfold logged; by rewrite Hn).
    split; simpl; try done.
    + destruct L as [R [] [] ? ? ?]. split; done || (split; done).
    + split; [lia|lia].
    + unfold logged. simpl. rewrite Hn. constructor.
    + by rewrite Hst, Hsz.
    + unfold logged. simpl. by rewrite Hn.
    + by right.
Qed.

(** ** A concrete file system

    Twenty-four blocks: superblock, log of ten blocks from block 2, one inode
    block (12), one bitmap block (13) and ten data blocks.  Inode 1 is an empty
    file and inode 2 an empty directory. *)

Module Demo.

Definition sb : superblock := mksb 24 10 8 10 2 12 13.
Definition file : dinode := mkdinode T_FILE 0 0 1 0 (replicate (NDIRECT + 1) 0).
Definition dir : dinode := mkdinode T_DIR 0 0 1 0 (replicate (NDIRECT + 1) 0).

(** The first fourteen blocks are in use. *)
Definition bitmap : block := foldl mark_bit zero_block (Z.of_nat <$> seq 0 14).

Definition image : gmap Z block :=
  make_disk 24 (λ b, if (b =? 1)%nat then encode_sb sb zero_block
                     else if (b =? 12)%nat then put_dinode (put_dinode zero_block 1 file) 2 dir
                     else if (b =? 13)%nat then bitmap
                     else zero_block).

(** The in-memory copies of the two inodes, locked by process 1. *)
Definition ip : inode :=
  mkinode ROOTDEV 1 1 (mksl true "inode" 1) true T_FILE 0 0 1 0 (replicate (NDIRECT + 1) 0).
Definition dp : inode :=
  mkinode ROOTDEV 2 1 (mksl true "inode" 1) true T_DIR 0 0 1 0 (replicate (NDIRECT + 1) 0).
Definition free_slot : inode :=
  mkinode 0 0 0 (initsleeplock "inode") false 0 0 0 0 0 (replicate (NDIRECT + 1) 0).

Definition state (t : log bio) : fs (log bio) :=
  mkfs t sb false (ip :: dp :: replicate 48 free_slot) 1 0.

Lemma in_range_cases b n : 0 ≤ b < Z.of_nat n → b ∈ (Z.of_nat <$> seq 0 n).
Proof. intros Hb. apply list_elem_of_fmap. exists (Z.to_nat b). rewrite elem_of_seq. lia. Qed.

Lemma image_disk_ok : disk_ok 24 2 10 image.
Proof.
  split; [|by vm_compute..|change LOGSIZE with 30; lia|].
  - intros b Hb. unfold image. rewrite lookup_make_disk by done. eexists. split; [done|].
    pose proof (in_range_cases b 24 Hb) as Hin. clear Hb. revert b Hin.
    rewrite <- Forall_forall. by repeat (constructor; [vm_compute; reflexivity|]).
  - split; [by vm_compute|]. vm_compute. constructor.
Qed.

Definition view : gmap Z block := recovered 2 image.
Definition x : txst := mktx 24 (2, 10) 1 view view ∅ ∅ ∅.

(** A property of the blocks below [n] that evaluation decides. *)
Lemma forall_blocks n (f : Z → bool) :
  forallb f (Z.of_nat <$> seq 0 n) = true → ∀ b, 0 ≤ b < Z.of_nat n → f b = true.
Proof.
  intros Hf b Hb%in_range_cases. rewrite forallb_forall in Hf. apply Hf. by apply list_elem_of_In.
Qed.

Lemma geom : geom_ok sb.
Proof. split; by vm_compute. Qed.

Definition whole (b : Z) : bool :=
  match view !! b with Some d => (length d =? BSIZE)%nat | None => false end.

Lemma image_view : image_ok sb view.
Proof.
  split.
  - intros b Hb. exists (view !!! b).
    assert (whole b = true) as E by (revert b Hb; apply (forall_blocks 24); by vm_compute).
    unfold whole in E. unfold lookup_total, map_lookup_total. destruct (view !! b); [|done]. by apply Nat.eqb_eq in E.
  - by vm_compute.
  - change (data_start sb) with (Z.of_nat 14). apply forall_blocks. by vm_compute.
Qed.

Lemma empty_map : ∀ bn, addr_of view (replicate (NDIRECT + 1) 0) bn = 0.
Proof.
  intros bn. unfold addr_of. destruct (Nat.ltb_spec bn NDIRECT); [|done].
  apply lookup_total_replicate_2. lia.
Qed.

Lemma empty_map_ok : map_ok sb view (replicate (NDIRECT + 1) 0).
Proof. split; try done; intros; by rewrite empty_map in *. Qed.

Lemma fs_state t : tx_rep t x → fs_rep sb (state t) x.
Proof. intros R. split; [exact R|done|apply geom|done|done|done|apply image_view]. Qed.

Lemma file_state t : tx_rep t x → file_rep sb (state t) x 0 ip.
Proof.
  intros R. split.
  - split; [by apply fs_state|done|done|apply empty_map_ok|done].
  - by vm_compute.
  - repeat split; by vm_compute.
  - done.
  - by vm_compute.
  - by vm_compute.
  - intros bn Hbn. simpl in Hbn. lia.
Qed.

Lemma dir_state t : tx_rep t x → file_rep sb (state t) x 1 dp.
Proof.
  intros R. split.
  - split; [by apply fs_state|done|done|apply empty_map_ok|done].
  - by vm_compute.
  - repeat split; by vm_compute.
  - done.
  - by vm_compute.
  - by vm_compute.
  - intros bn Hbn. simpl in Hbn. lia.
Qed.

Lemma two_free : has_free sb 2 view.
Proof.
  exists [14; 15]. split_and!; [|done|].
  - apply (bool_decide_eq_true_1 (NoDup [14; 15])). by vm_compute.
  - repeat constructor; simpl; lia || by vm_compute.
Qed.

Lemma some_room k : (k ≤ 9)%nat → room k x.
Proof. intros Hk. split; [change (Z.of_nat (0 + k) ≤ 9)|change (0 + 0 + k < 30)%nat]; lia. Qed.

Lemma started : ∃ t, tx_rep t x.
Proof. destruct (booted_tx 24 2 10 image 1 image_disk_ok) as (s0&t&_&_&R). by exists t. Qed.
End Demo.

#[local] Instance no_devices : DevSw (log bio) := { dev_read _ := None; dev_write _ := None }.

Definition demo_bytes : list Z := [104; 105; 10].

Lemma writei_correct_witness : ∃ s s', writei 0 demo_bytes 0 3 s = Done 3 s'.
Proof.
  destruct Demo.started as (t&R).
  destruct (writei_correct Demo.sb (Demo.state t) Demo.x 0 Demo.ip demo_bytes 0 3 1) as (s'&x'&ip'&E&_).
  - exact (Demo.file_state t R).
  - simpl. lia.
  - simpl. lia.
  - by vm_compute.
  - by vm_compute.
  - apply Demo.some_room. lia.
  - apply Demo.two_free.
  - exists (Demo.state t), s'. exact E.
Defined.

Lemma readi_correct_witness : ∃ s s', readi 0 0 16 s = Done (0, []) s'.
Proof.
  destruct Demo.started as (t&R).
  destruct (readi_correct Demo.sb (Demo.state t) Demo.x 0 Demo.ip 0 16) as (s'&l&E&_&Hl&_).
  - exact (Demo.file_state t R).
  - apply Demo.some_room. lia.
  - simpl. lia.
  - lia.
  - lia.
  - exists (Demo.state t), s'. destruct l; [exact E|discriminate].
Defined.

Lemma read_after_write_witness : ∃ s s' s'',
  writei 0 demo_bytes 0 3 s = Done 3 s' ∧ readi 0 0 3 s' = Done (3, demo_bytes) s''.
Proof.
  destruct Demo.started as (t&R).
  destruct (read_after_write Demo.sb (Demo.state t) Demo.x 0 Demo.ip demo_bytes 0 3 1) as (s'&s''&E&E').
  - exact (Demo.file_state t R).
  - simpl. lia.
  - simpl. lia.
  - by vm_compute.
  - by vm_compute.
  - apply Demo.some_room. lia.
  - apply Demo.two_free.
  - exists (Demo.state t), s', s''. split; [exact E|exact E'].
Defined.

Lemma file_write_crash_atomic_witness : ∃ s s' t', writei 0 demo_bytes 0 3 s = Done 3 s' ∧
  end_op (fs_tx s') = Done tt t'.
Proof.
  destruct Demo.started as (t&R).
  destruct (file_write_crash_atomic Demo.sb (Demo.state t) Demo.x 0 Demo.ip demo_bytes 0 3 1 1)
    as (s'&ip'&t'&ws&E&E'&_).
  - exact (Demo.file_state t R).
  - simpl. lia.
  - simpl. lia.
  - by vm_compute.
  - by vm_compute.
  - apply Demo.some_room. lia.
  - apply Demo.two_free.
  - reflexivity.
  - reflexivity.
  - exists (Demo.state t), s', t'. split; [exact E|exact E'].
Defined.

Lemma balloc_correct_witness : ∃ s s', balloc ROOTDEV s = Done 14 s'.
Proof.
  destruct Demo.started as (t&R).
  destruct (balloc_correct Demo.sb (Demo.state t) Demo.x) as [Hf _].
  - exact (Demo.fs_state t R).
  - reflexivity.
  - apply Demo.some_room. lia.
  - destruct (Hf 14) as (s'&x'&E&_).
    + split; [by vm_compute|split; [by vm_compute|]].
      apply (Demo.forall_blocks 14 (block_used Demo.sb Demo.view)). by vm_compute.
    + exists (Demo.state t), s'. exact E.
Defined.

Lemma bfree_correct_witness : ∃ s, bfree ROOTDEV 20 s = Panic "freeing free block".
Proof.
  destruct Demo.started as (t&R).
  destruct (bfree_correct Demo.sb (Demo.state t) Demo.x 20) as [_ Hf].
  - exact (Demo.fs_state t R).
  - reflexivity.
  - apply Demo.some_room. lia.
  - by vm_compute.
  - exists (Demo.state t). apply Hf. by vm_compute.
Defined.
