(* ===== verification/FsDir.v ===== *)
(** * Path names, directories and the inode cache (fs.c)

    [skipelem] against a reference that splits a path at its slashes; [iget]
    keeps one cache entry per inode; [dirlookup] finds the first entry with the
    given name. *)

From S2P Require Import Prelude Params Block Sleeplock Format Str Tx Fs LogSpec FsSpec FsData FsWrite FsFile.
From S2P Require Import Bio Log FsStack.

(** ** Path elements *)

(** The elements of a path: the maximal runs of bytes between slashes. *)
Fixpoint elements_go (path cur : list Z) : list (list Z) :=
  match path with
  | [] => if decide (cur = []) then [] else [cur]
  | c :: path' =>
      if c =? slash then (if decide (cur = []) then [] else [cur]) ++ elements_go path' []
      else elements_go path' (cur ++ [c])
  end.
Definition elements (path : list Z) : list (list Z) := elements_go path [].

(** A string without NUL bytes. *)
Definition nonzero (p : list Z) : Prop := Forall (λ c, c ≠ 0) p.

Lemma nonzero_at0 p : nonzero p → at0 p = 0 → p = [].
Proof. destruct p; [done|]. intros [? _]%Forall_cons. simpl. done. Qed.

Lemma elements_slash p : elements (slash :: p) = elements p.
Proof. done. Qed.

Lemma elements_skip p : elements (skip_slashes p) = elements p.
Proof.
  induction p as [|c p IH]; [done|]. simpl. destruct (Z.eqb_spec c slash) as [->|]; [|done].
  by rewrite elements_slash.
Qed.

Lemma skip_slashes_nonzero p : nonzero p → nonzero (skip_slashes p).
Proof. induction 1; simpl; [constructor|]. destruct (_ =? _); [done|by constructor]. Qed.

Lemma skip_slashes_head p : at0 (skip_slashes p) ≠ slash.
Proof. induction p as [|c p IH]; simpl; [done|]. destruct (Z.eqb_spec c slash); done. Qed.

(** The element [split_elem] cuts off. *)
Lemma split_elem_spec p e r : nonzero p → split_elem p = (e, r) →
  p = e ++ r ∧ Forall (λ c, c ≠ slash) e ∧ nonzero e ∧ nonzero r ∧ (r = [] ∨ at0 r = slash).
Proof.
  revert e r. induction p as [|c p IH]; intros e r Hp Hs; simpl in Hs.
  { injection Hs as <- <-. split_and!; [done|constructor|constructor|constructor|by left]. }
  apply Forall_cons in Hp as [Hc Hp].
  destruct (Z.eqb_spec c slash) as [->|Hsl]; simpl in Hs.
  { injection Hs as <- <-. split_and!; [done|constructor|constructor|by constructor|by right]. }
  destruct (Z.eqb_spec c 0); [done|]. destruct (split_elem p) as [e' r'] eqn:E. injection Hs as <- <-.
  destruct (IH e' r' Hp eq_refl) as (->&?&?&?&?). split_and!; try done; by constructor.
Qed.

Lemma elements_go_app e r cur : Forall (λ c, c ≠ slash) e →
  elements_go (e ++ r) cur = elements_go r (cur ++ e).
Proof.
  intros He. revert cur. induction He as [|c e Hc _ IH]; intros cur; simpl; [by rewrite app_nil_r|].
  destruct (Z.eqb_spec c slash); [done|]. by rewrite IH, <- app_assoc.
Qed.

Lemma elements_cons e r : e ≠ [] → Forall (λ c, c ≠ slash) e → (r = [] ∨ at0 r = slash) →
  elements (e ++ r) = e :: elements r.
Proof.
  intros Hne He Hr. unfold elements. rewrite elements_go_app by done. simpl.
  destruct Hr as [->|Hr]; simpl; [by rewrite decide_False|].
  destruct r as [|c r]; [done|]. simpl in Hr. subst c. simpl. by rewrite decide_False.
Qed.

(** The name buffer after an element has been stored in it. *)
Lemma store_elem_name e name : length name = DIRSIZ → nonzero e →
  let name' := if (DIRSIZ <=? length e)%nat then splice 0 (take DIRSIZ e) name
               else <[length e:=0]> (splice 0 e name) in
  length name' = DIRSIZ ∧ take DIRSIZ (cstr name') = take DIRSIZ e.
Proof.
  intros Hl He. cbv zeta. destruct (Nat.leb_spec DIRSIZ (length e)) as [Hle|Hlt].
  - assert (length (take DIRSIZ e) = DIRSIZ) as Hlt by (rewrite length_take; lia).
    split; [rewrite length_splice; lia|].
    unfold splice. rewrite Hlt, take_0, (drop_ge name) by lia. simpl. rewrite app_nil_r.
    rewrite cstr_id by (by apply Forall_take). by rewrite take_take, Nat.min_id.
  - split; [rewrite length_insert, length_splice; lia|].
    f_equal.
    assert (<[length e:=0]> (splice 0 e name) = e ++ 0 :: drop (S (length e)) name) as ->;
      [|by apply cstr_app_zero].
    unfold splice. rewrite take_0. simpl. rewrite insert_app_r_alt by lia. rewrite Nat.sub_diag. f_equal.
    by rewrite (drop_S name (name !!! length e)) by (apply list_lookup_lookup_total_lt; lia).
Qed.

(** [skipelem] peels off the first element of a path.  It returns 0
    exactly when the path has no elements; otherwise the elements of the path
    it returns are the remaining ones, that path has no leading slash, and
    [name] holds the first element, cut to DIRSIZ bytes. *)
Theorem skipelem_correct path name :
  nonzero path → length name = DIRSIZ →
  match skipelem path name with
  | None => elements path = []
  | Some (rest, name') =>
      ∃ e, elements path = e :: elements rest ∧ nonzero rest ∧ at0 rest ≠ slash ∧
           length name' = DIRSIZ ∧ take DIRSIZ (cstr name') = take DIRSIZ e
  end.
Proof.
  intros Hp Hn. unfold skipelem. pose proof (elements_skip path) as Es.
  pose proof (skip_slashes_nonzero _ Hp) as Hp'. pose proof (skip_slashes_head path) as Hh.
  destruct (Z.eqb_spec (at0 (skip_slashes path)) 0) as [E|E].
  { rewrite <- Es, (nonzero_at0 _ Hp' E). done. }
  destruct (split_elem (skip_slashes path)) as [e r] eqn:Er.
  destruct (split_elem_spec _ _ _ Hp' Er) as (Epath&He&Hze&Hzr&Hr). cbv zeta.
  assert (e ≠ []) as Hne by (intros ->; simpl in Epath; rewrite Epath in *; destruct Hr as [->|]; done).
  destruct (store_elem_name e name Hn Hze) as [Hl Hc]. exists e. split_and!; try done.
  - by rewrite <- Es, Epath, elements_cons, elements_skip.
  - by apply skip_slashes_nonzero.
  - apply skip_slashes_head.
Qed.

(** "///a//bb": the element "a", the rest "bb". *)
Lemma skipelem_correct_witness : ∃ e, elements [47; 47; 47; 97; 47; 47; 98; 98] = e :: elements [98; 98].
Proof.
  pose proof (skipelem_correct [47; 47; 47; 97; 47; 47; 98; 98] (replicate DIRSIZ 7)) as Hs.
  cbn in Hs. destruct Hs as (e&E&_).
  - unfold nonzero. repeat constructor; lia.
  - reflexivity.
  - exists e. exact E.
Defined.

(** ** The inode cache *)

Definition entry_for (dev inum : Z) (ip : inode) : bool :=
  (0 <? i_ref ip) && (i_dev ip =? dev) && (i_inum ip =? inum).

Lemma iget_scan_spec l : ∀ i dev inum empty,
  match iget_scan l i dev inum empty with
  | inl j => ∃ k ip, j = (i + k)%nat ∧ l !! k = Some ip ∧ entry_for dev inum ip = true
  | inr e =>
      Forall (λ ip, entry_for dev inum ip = false) l ∧
      match e with
      | Some j => empty = Some j ∨ (∃ k ip, j = (i + k)%nat ∧ l !! k = Some ip ∧ i_ref ip = 0)
      | None => empty = None ∧ Forall (λ ip, i_ref ip ≠ 0) l
      end
  end.
Proof.
  induction l as [|ip l IH]; intros i dev inum empty; simpl.
  { split; [constructor|]. destruct empty; [by left|by split; [|constructor]]. }
  fold (entry_for dev inum ip). destruct (entry_for dev inum ip) eqn:E.
  { exists 0%nat, ip. split_and!; [lia|done|done]. }
  set (empty' := match empty with None => _ | Some e => Some e end).
  specialize (IH (S i) dev inum empty'). destruct (iget_scan l (S i) dev inum empty') as [j|e].
  - destruct IH as (k&ip'&->&?&?). exists (S k), ip'. split_and!; [lia|done|done].
  - destruct IH as [Hall He]. split; [by constructor|]. unfold empty' in He. destruct e as [j|].
    + destruct He as [He|(k&ip'&->&?&?)]; [|right; exists (S k), ip'; split_and!; [lia|done|done]].
      destruct empty as [e|]; [by left|]. destruct (Z.eqb_spec (i_ref ip) 0); [|done].
      injection He as <-. right. exists 0%nat, ip. split_and!; [lia|done|done].
    + destruct He as [He1 He2]. destruct empty as [e|]; [done|]. destruct (Z.eqb_spec (i_ref ip) 0); [done|].
      split; [done|]. by constructor.
Qed.

(** At most one entry in use for each inode, and no negative counts. *)
Definition icache_ok (l : list inode) : Prop :=
  (∀ j ip, l !! j = Some ip → 0 ≤ i_ref ip < 2 ^ 31 - 1) ∧
  (∀ j k ip jp, l !! j = Some ip → l !! k = Some jp → 0 < i_ref ip → 0 < i_ref jp →
     i_dev ip = i_dev jp → i_inum ip = i_inum jp → j = k).

Definition same_id (ip ip' : inode) : Prop := i_dev ip' = i_dev ip ∧ i_inum ip' = i_inum ip.

(** One more reference to an entry in use. *)
Lemma icache_ok_ref l i ip r : icache_ok l → l !! i = Some ip → 0 < i_ref ip → 0 ≤ r < 2 ^ 31 - 1 →
  icache_ok (<[i:=set_i_ref r ip]> l).
Proof.
  intros [H1 H2] Hi Hr Hrr. pose proof (lookup_lt_Some _ _ _ Hi) as Hlt.
  assert (E : ∀ j jp, <[i:=set_i_ref r ip]> l !! j = Some jp → ∃ jp0, l !! j = Some jp0 ∧ same_id jp0 jp ∧
    (0 < i_ref jp → 0 < i_ref jp0) ∧ 0 ≤ i_ref jp < 2 ^ 31 - 1).
  { intros j jp Hj. destruct (decide (i = j)) as [<-|Hne].
    - rewrite list_lookup_insert_eq in Hj by done. injection Hj as <-. exists ip. done.
    - rewrite list_lookup_insert_ne in Hj by done. exists jp. split_and!; [done|done|done|by eapply H1|by eapply H1]. }
  split.
  - intros j jp Hj. by destruct (E j jp Hj) as (_&_&_&_&?).
  - intros j k jp kp Hj Hk Hj0 Hk0 Hd Hn.
    destruct (E j jp Hj) as (jp0&Ej&[Ed Ei]&Hjr&_), (E k kp Hk) as (kp0&Ek&[Ed' Ei']&Hkr&_).
    apply (H2 j k jp0 kp0); auto; congruence.
Qed.

(** A free entry given to an inode that has none. *)
Lemma icache_ok_new l i ip dev inum : icache_ok l → l !! i = Some ip →
  Forall (λ ip, entry_for dev inum ip = false) l → icache_ok (<[i:=set_i_id dev inum 1 false ip]> l).
Proof.
  intros [H1 H2] Hi Hno. pose proof (lookup_lt_Some _ _ _ Hi) as Hlt. rewrite Forall_lookup in Hno.
  assert (Hfresh : ∀ j jp, l !! j = Some jp → 0 < i_ref jp → i_dev jp = dev → i_inum jp = inum → False).
  { intros j jp Hj Hr <- <-. specialize (Hno j jp Hj). unfold entry_for in Hno.
    rewrite (proj2 (Z.ltb_lt _ _)), !Z.eqb_refl in Hno by done. done. }
  split.
  - intros j jp. destruct (decide (i = j)) as [<-|Hne].
    + rewrite list_lookup_insert_eq by done. intros [= <-]. simpl. lia.
    + rewrite list_lookup_insert_ne by done. apply H1.
  - intros j k jp kp. destruct (decide (i = j)) as [<-|Hj], (decide (i = k)) as [<-|Hk]; [done| | |];
      rewrite ?list_lookup_insert_eq, ?list_lookup_insert_ne by done.
    + intros [= <-] Hk' _ Hr Hd Hn. simpl in *. exfalso. by eapply (Hfresh k kp).
    + intros Hj' [= <-] Hr _ Hd Hn. simpl in *. exfalso. by eapply (Hfresh j jp).
    + apply H2.
Qed.

(** The inode cache holds at most one copy of each inode.  On a cache with
    that property [iget] returns an entry for the inode asked for, in use, and
    the property still holds; no other entry and nothing on disk changes.  It
    panics only when the inode is not cached and no entry is free. *)
Theorem iget_unique {S : Type} (s : fs S) dev inum :
  icache_lock s = false → icache_ok (icache s) →
  (∀ i ip, icache s !! i = Some ip → i_ref ip < 2 ^ 31 - 2) →
  match iget dev inum s with
  | Done i s' =>
      (∃ ip, icache s' !! i = Some ip ∧ i_dev ip = dev ∧ i_inum ip = inum ∧ 0 < i_ref ip) ∧
      icache_ok (icache s') ∧ (∀ j, j ≠ i → icache s' !! j = icache s !! j) ∧
      fs_tx s' = fs_tx s ∧ icache_lock s' = false
  | Panic _ => Forall (λ ip, entry_for dev inum ip = false ∧ i_ref ip ≠ 0) (icache s)
  | _ => False
  end.
Proof.
  intros Hl Hok Hmax. unfold iget, acquire_icache, acquire, release_icache, release, upd_inode.
  unfold mbind, M_bind, gets, modify, panic, mret, M_ret. rewrite Hl. simpl.
  pose proof (iget_scan_spec (icache s) 0 dev inum None) as Hs.
  assert (Halter : ∀ i ip f, icache s !! i = Some ip → alter f i (icache s) = <[i:=f ip]> (icache s)).
  { intros i ip f Hi. apply list_eq. intros j. destruct (decide (i = j)) as [<-|Hne].
    - rewrite list_lookup_alter_eq, Hi, list_lookup_insert_eq; [done|by eapply lookup_lt_Some].
    - by rewrite list_lookup_alter_ne, list_lookup_insert_ne. }
  destruct (iget_scan (icache s) 0 dev inum None) as [i|[i|]].
  - destruct Hs as (k&ip&->&Hi&He). simpl. rewrite (Halter k ip _ Hi).
    apply andb_prop in He as [He En%Z.eqb_eq]. apply andb_prop in He as [Er%Z.ltb_lt Ed%Z.eqb_eq].
    pose proof (proj1 Hok k ip Hi). specialize (Hmax k ip Hi).
    split_and!; try done.
    + exists (set_i_ref (i32 (i_ref ip + 1)) ip). simpl. rewrite i32_small by lia.
      split_and!; try done; [|lia]. apply list_lookup_insert_eq. by eapply lookup_lt_Some.
    + apply icache_ok_ref; try done. rewrite i32_small; lia.
    + intros j Hj. simpl. by apply list_lookup_insert_ne.
  - destruct Hs as [Hno [?|(k&ip&->&Hi&He)]]; [done|]. simpl. rewrite (Halter k ip _ Hi). split_and!; try done.
    + exists (set_i_id dev inum 1 false ip). split_and!; try done. apply list_lookup_insert_eq. by eapply lookup_lt_Some.
    + by apply icache_ok_new.
    + intros j Hj. simpl. by apply list_lookup_insert_ne.
  - destruct Hs as [Hno [_ Hz]]. apply Forall_and. done.
Qed.

Lemma iget_unique_witness :
  let s := mkfs tt (mksb 0 0 0 0 0 0 0) false
             [mkinode 1 5 2 (initsleeplock "inode") true 1 0 0 1 0 []] 1 0 in
  ∃ i s', iget 1 5 s = Done i s' ∧ icache_ok (icache s').
Proof.
  intros s. pose proof (iget_unique s 1 5) as Hu.
  assert (icache_ok (icache s)) as Hok.
  { split.
    - intros [|j] ip [= <-]. simpl. lia.
    - intros [|j] [|k] ip jp Hj Hk; done. }
  assert (∀ i ip, icache s !! i = Some ip → i_ref ip < 2 ^ 31 - 2) as Hmax by (intros [|j] ip [= <-]; simpl; lia).
  specialize (Hu eq_refl Hok Hmax). destruct (iget 1 5 s) as [i s'| | | |] eqn:E; try discriminate E.
  exists i, s'. split; [reflexivity|apply Hu].
Defined.

(** ** Directories *)

(** Entry [k] of the directory with addresses [addrs]. *)
Definition dir_entry (v : gmap Z block) (addrs : list Z) (k : nat) : dirent :=
  decode_dirent ((λ j, file_byte v addrs (16 * Z.of_nat k + Z.of_nat j)) <$> seq 0 16).

Definition dir_entries (v : gmap Z block) (ip : inode) : list dirent :=
  dir_entry v (i_addrs ip) <$> seq 0 (Z.to_nat (i_size ip / 16)).

(** An entry in use with the given name. *)
Definition de_match (name : list Z) (de : dirent) : bool :=
  negb (de_inum de =? 0) && (namecmp name (de_name de) =? 0).

Lemma de_match_same name name' de : take DIRSIZ (cstr name') = take DIRSIZ (cstr name) → de_match name' de = de_match name de.
Proof. intros E. unfold de_match, namecmp. by rewrite (strncmp_cstr _ _ _ _ E). Qed.

(** The first entry with the name, and the first free one (from position [k]). *)
Fixpoint dir_find (name : list Z) (l : list dirent) (k : nat) : option (nat * dirent) :=
  match l with
  | [] => None
  | de :: l' => if de_match name de then Some (k, de) else dir_find name l' (S k)
  end.
Fixpoint dir_free (l : list dirent) (k : nat) : nat :=
  match l with
  | [] => k
  | de :: l' => if de_inum de =? 0 then k else dir_free l' (S k)
  end.

(** The directory with one entry set, or appended. *)
Definition dir_put (l : list dirent) (k : nat) (de : dirent) : list dirent :=
  take k l ++ de :: drop (S k) l.

Lemma dir_free_spec l : ∀ k, (k ≤ dir_free l k ≤ k + length l)%nat ∧
  (∀ de, l !! (dir_free l k - k)%nat = Some de → de_inum de = 0).
Proof.
  induction l as [|de l IH]; intros k; simpl; [split; [lia|done]|].
  destruct (Z.eqb_spec (de_inum de) 0).
  - rewrite Nat.sub_diag. split; [lia|]. by intros de' [= <-].
  - destruct (IH (S k)) as [H1 H2]. split; [lia|].
    intros de'. replace (dir_free l (S k) - k)%nat with (S (dir_free l (S k) - S k)) by lia. apply H2.
Qed.

Lemma dir_find_None name l : ∀ k, dir_find name l k = None ↔ Forall (λ de, de_match name de = false) l.
Proof.
  induction l as [|de l IH]; intros k; simpl; [split; [constructor|done]|].
  rewrite Forall_cons, <- (IH (S k)). destruct (de_match name de); naive_solver.
Qed.

Lemma dir_find_same name name' l : take DIRSIZ (cstr name') = take DIRSIZ (cstr name) → ∀ k, dir_find name' l k = dir_find name l k.
Proof. intros E. induction l as [|de l IH]; intros k; cbn; [done|]. by rewrite (de_match_same name name'), IH. Qed.

Lemma dir_find_app name l1 l2 : ∀ k, dir_find name (l1 ++ l2) k =
  match dir_find name l1 k with Some r => Some r | None => dir_find name l2 (k + length l1) end.
Proof.
  induction l1 as [|de l IH]; intros k; simpl; [by rewrite Nat.add_0_r|].
  destruct (de_match name de); [done|]. rewrite IH. by rewrite Nat.add_succ_r.
Qed.

(** The new entry is found under its name. *)
Lemma dir_find_put name l k de : (k ≤ length l)%nat → dir_find name l 0 = None → de_match name de = true →
  dir_find name (dir_put l k de) 0 = Some (k, de).
Proof.
  intros Hk Hn Hm. apply dir_find_None in Hn. unfold dir_put. rewrite dir_find_app.
  rewrite (proj2 (dir_find_None name (take k l) 0)) by by apply Forall_take.
  simpl. rewrite Hm, length_take. f_equal. f_equal. lia.
Qed.

(** Other names are found where they were. *)
Lemma dir_find_put_ne name l k de : (k ≤ length l)%nat →
  (∀ de0, l !! k = Some de0 → de_match name de0 = false) → de_match name de = false →
  dir_find name (dir_put l k de) 0 = dir_find name l 0.
Proof.
  intros Hk Hold Hm. unfold dir_put. rewrite dir_find_app. trans (dir_find name (take k l ++ drop k l) 0); [|by rewrite take_drop]. rewrite dir_find_app.
  destruct (dir_find name (take k l) 0); [done|]. simpl. rewrite Hm.
  destruct (drop k l) as [|de0 l'] eqn:E.
  - assert (length l ≤ k)%nat by (apply (f_equal length) in E; rewrite length_drop in E; simpl in E; lia).
    by rewrite drop_ge by lia.
  - assert (l !! k = Some de0) as E0 by (rewrite <- (Nat.add_0_r k), <- lookup_drop, E; done).
    rewrite <- (Nat.add_1_r k), <- drop_drop, E. simpl.
    by rewrite (Hold de0 E0).
Qed.

Section dir.
Context `{DevSw (log bio)} (sb : superblock).
Implicit Types s : fs (log bio).

(** A directory: a file of type [T_DIR] that is a whole number of entries. *)
Record dir_rep s x i ip : Prop := {
  dr_file : file_rep sb s x i ip;
  dr_type : i_type ip = T_DIR;
  dr_size : i_size ip mod 16 = 0;
  dr_room : room 0 x
}.

Lemma file_rep_same s x i ip t : file_rep sb s x i ip → ino_rep sb (set_tx t s) x i ip →
  file_rep sb (set_tx t s) x i ip.
Proof. intros [I F1 F2 F3 F4 F5 F6] I'. by split. Qed.

Lemma length_dir_entries v ip : length (dir_entries v ip) = Z.to_nat (i_size ip / 16).
Proof. unfold dir_entries. by rewrite length_fmap, length_seq. Qed.

Lemma lookup_dir_entries v ip k : (k < Z.to_nat (i_size ip / 16))%nat →
  dir_entries v ip !! k = Some (dir_entry v (i_addrs ip) k).
Proof. intros Hk. unfold dir_entries. by rewrite list_lookup_fmap, lookup_seq_lt. Qed.

Lemma drop_dir_entries v ip k : (k < Z.to_nat (i_size ip / 16))%nat →
  drop k (dir_entries v ip) = dir_entry v (i_addrs ip) k :: drop (S k) (dir_entries v ip).
Proof. intros Hk. apply drop_S. by apply lookup_dir_entries. Qed.

(** Reading one entry. *)
Lemma readi_dirent s x i ip k : dir_rep s x i ip → (k < Z.to_nat (i_size ip / 16))%nat →
  ∃ t l, readi i (16 * Z.of_nat k) (Z.of_nat DIRENT_SIZE) s = Done (Z.of_nat DIRENT_SIZE, l) (set_tx t s) ∧
    dir_rep (set_tx t s) x i ip ∧ decode_dirent l = dir_entry (x_view x) (i_addrs ip) k.
Proof.
  intros [Fl Ht Hm Hr] Hk. change (Z.of_nat DIRENT_SIZE) with 16.
  pose proof (fl_size _ _ _ _ _ Fl) as Hsz. assert (MAXBYTES = 71680) as EM by done.
  assert (16 * Z.of_nat k + 16 ≤ i_size ip) as Hle by dlia.
  assert (wp (readi i (16 * Z.of_nat k) 16) (λ r s', ∃ t l, r = (16, l) ∧ s' = set_tx t s ∧
    dir_rep s' x i ip ∧ decode_dirent l = dir_entry (x_view x) (i_addrs ip) k) s) as W.
  { apply (wp_readi sb s x i ip); [apply Fl|done|apply Fl|lia|lia|lia|lia|apply Fl|].
    intros t l n' I' Hl Hb. unfold n' in *. replace (Z.min _ _) with 16 in * by lia.
    exists t, l. split_and!; [done|done|split; [by apply file_rep_same|done..]|].
    unfold dir_entry. f_equal. apply list_eq. intros j. rewrite list_lookup_fmap.
    destruct (decide (j < 16)%nat) as [Hj|Hj].
    - rewrite lookup_seq_lt by done. specialize (Hb (Z.of_nat j)). rewrite Nat2Z.id in Hb. by rewrite Hb by lia.
    - by rewrite (lookup_ge_None_2 (seq 0 16)), lookup_ge_None_2 by (rewrite ?length_seq; lia). }
  apply wp_inv in W as (r&s'&E&t&l&->&->&?&?). eauto.
Qed.

Lemma run_the_inode s x i ip : dir_rep s x i ip → the_inode i s = Done ip s.
Proof.
  intros D. unfold the_inode, gets. f_equal. apply the_inode_eq. apply (ir_ip _ _ _ _ _ (fl_ino _ _ _ _ _ (dr_file _ _ _ _ D))).
Qed.

(** What [dirlookup] does once it has found entry [k]. *)
Definition lookup_result (ip : inode) (r : option (nat * dirent)) : M (fs (log bio)) (option (nat * Z)) :=
  match r with
  | None => mret None
  | Some (k, de) => j ← iget (i_dev ip) (de_inum de); mret (Some (j, 16 * Z.of_nat k))
  end.

Lemma dirlookup_loop_eq x i ip name fuel : ∀ s k, dir_rep s x i ip → (k ≤ Z.to_nat (i_size ip / 16))%nat →
  (Z.to_nat (i_size ip / 16) - k < fuel)%nat →
  ∃ t, dir_rep (set_tx t s) x i ip ∧
    dirlookup_loop fuel i name (16 * Z.of_nat k) s =
    lookup_result ip (dir_find name (drop k (dir_entries (x_view x) ip)) k) (set_tx t s).
Proof.
  induction fuel as [|fuel IH]; intros s k D Hk Hf; [lia|]. cbn [dirlookup_loop].
  unfold mbind at 1, M_bind at 1. rewrite (run_the_inode s x i ip D).
  pose proof (dr_size _ _ _ _ D) as Hm. pose proof (fl_size _ _ _ _ _ (dr_file _ _ _ _ D)) as Hsz.
  change MAXBYTES with 71680 in Hsz.
  destruct (Z.ltb_spec (16 * Z.of_nat k) (i_size ip)) as [Hlt|Hge].
  - assert (k < Z.to_nat (i_size ip / 16))%nat as Hlk by dlia.
    destruct (readi_dirent s x i ip k D Hlk) as (t&l&E&D'&Ede).
    unfold mbind at 1, M_bind at 1. rewrite E. cbn [fst snd]. rewrite Z.eqb_refl. cbn [negb].
    rewrite Ede, (drop_dir_entries _ _ k Hlk). cbn [dir_find]. unfold de_match.
    destruct (negb _ && _); [by exists t|].
    rewrite u32_small by (change (Z.of_nat DIRENT_SIZE) with 16; lia).
    replace (16 * Z.of_nat k + Z.of_nat DIRENT_SIZE) with (16 * Z.of_nat (S k)) by (change (Z.of_nat DIRENT_SIZE) with 16; lia).
    destruct (IH (set_tx t s) (S k) D' ltac:(lia) ltac:(lia)) as (t'&?&?). by exists t'.
  - exists (fs_tx s). rewrite set_tx_id. split; [done|]. rewrite drop_ge by (rewrite length_dir_entries; dlia). done.
Qed.

Lemma dirlookup_eq s x i ip name : dir_rep s x i ip →
  ∃ t, dir_rep (set_tx t s) x i ip ∧
    dirlookup i name s = lookup_result ip (dir_find name (dir_entries (x_view x) ip) 0) (set_tx t s).
Proof.
  intros D. unfold dirlookup. unfold mbind at 1, M_bind at 1. rewrite (run_the_inode s x i ip D).
  rewrite (dr_type _ _ _ _ D). cbn [negb]. pose proof (fl_size _ _ _ _ _ (dr_file _ _ _ _ D)) as Hsz.
  destruct (dirlookup_loop_eq x i ip name (Z.to_nat (i_size ip) + 1) s 0 D) as (t&D'&E); [lia|dlia|].
  exists t. split; [done|]. exact E.
Qed.

(** [dirlookup] on a directory finds the first entry in use whose name
    compares equal: it returns the inode [iget] gives for that entry's number,
    with the entry's offset, and [None] if there is none; it reads the
    directory only. *)
Theorem dirlookup_correct s x i ip name : dir_rep s x i ip →
  ∃ t, dir_rep (set_tx t s) x i ip ∧
    dirlookup i name s =
    match dir_find name (dir_entries (x_view x) ip) 0 with
    | None => Done None (set_tx t s)
    | Some (k, de) => (j ← iget (i_dev ip) (de_inum de); mret (Some (j, 16 * Z.of_nat k))) (set_tx t s)
    end.
Proof.
  intros D. destruct (dirlookup_eq s x i ip name D) as (t&D'&E). exists t. split; [done|]. rewrite E.
  by destruct (dir_find _ _ _) as [[]|].
Qed.
Lemma dirlink_scan_eq x i ip fuel : ∀ s k, dir_rep s x i ip → (k ≤ Z.to_nat (i_size ip / 16))%nat →
  (Z.to_nat (i_size ip / 16) - k < fuel)%nat →
  ∃ t, dir_rep (set_tx t s) x i ip ∧ dirlink_scan fuel i (16 * Z.of_nat k) s =
    Done (16 * Z.of_nat (dir_free (drop k (dir_entries (x_view x) ip)) k)) (set_tx t s).
Proof.
  induction fuel as [|fuel IH]; intros s k D Hk Hf; [lia|]. cbn [dirlink_scan].
  unfold mbind at 1, M_bind at 1. rewrite (run_the_inode s x i ip D).
  pose proof (dr_size _ _ _ _ D) as Hm. pose proof (fl_size _ _ _ _ _ (dr_file _ _ _ _ D)) as Hsz.
  destruct (Z.ltb_spec (16 * Z.of_nat k) (i_size ip)) as [Hlt|Hge].
  - assert (k < Z.to_nat (i_size ip / 16))%nat as Hlk by dlia.
    destruct (readi_dirent s x i ip k D Hlk) as (t&l&E&D'&Ede).
    unfold mbind at 1, M_bind at 1. rewrite E. cbn [fst snd]. rewrite Z.eqb_refl. cbn [negb].
    rewrite Ede, (drop_dir_entries _ _ k Hlk). cbn [dir_free]. destruct (_ =? 0); [by exists t|].
    replace (16 * Z.of_nat k + Z.of_nat DIRENT_SIZE) with (16 * Z.of_nat (S k)) by (change (Z.of_nat DIRENT_SIZE) with 16; lia).
    destruct (IH (set_tx t s) (S k) D' ltac:(lia) ltac:(lia)) as (t'&?&?). by exists t'.
  - exists (fs_tx s). rewrite set_tx_id. split; [done|]. rewrite drop_ge by (rewrite length_dir_entries; dlia).
    done.
Qed.

(** The entries after an entry has been written at position [k]. *)
Lemma dir_entries_put x ip x' ip' de k : length (de_name de) = DIRSIZ → 0 ≤ de_inum de < 2 ^ 16 →
  0 ≤ i_size ip → i_size ip mod 16 = 0 → (k ≤ Z.to_nat (i_size ip / 16))%nat →
  writei_post sb x ip (16 * Z.of_nat k) (encode_dirent de) x' ip' →
  dir_entries (x_view x') ip' = dir_put (dir_entries (x_view x) ip) k de ∧ i_size ip' mod 16 = 0.
Proof.
  intros Hn Hi H0 Hm Hk W. pose proof (length_encode_dirent de Hn) as Hl. change DIRENT_SIZE with 16%nat in Hl.
  destruct (wi_ip _ _ _ _ _ _ _ W) as (addrs'&Eip). rewrite Hl in Eip.
  assert (i_size ip' = Z.max (i_size ip) (16 * Z.of_nat k + 16)) as Esz by (rewrite Eip; simpl; lia).
  clear Eip. pose proof (wi_bytes _ _ _ _ _ _ _ W) as Hb. rewrite Hl in Hb. split; [|dlia].
  assert (Hoth : ∀ j, (j < Z.to_nat (i_size ip' / 16))%nat → j ≠ k →
    dir_entry (x_view x') (i_addrs ip') j = dir_entry (x_view x) (i_addrs ip) j).
  { intros j Hj Hne. unfold dir_entry. f_equal. apply list_fmap_ext. intros m o Ho%lookup_seq.
    rewrite Hb by dlia. by rewrite decide_False by lia. }
  assert (Hnew : dir_entry (x_view x') (i_addrs ip') k = de).
  { rewrite <- (decode_encode_dirent de Hi Hn). unfold dir_entry. f_equal. apply list_eq. intros j.
    rewrite list_lookup_fmap. destruct (decide (j < 16)%nat) as [Hj|Hj].
    - rewrite lookup_seq_lt by done. cbn [fmap option_fmap option_map Nat.add]. rewrite Hb by lia. rewrite decide_True by lia.
      replace (Z.to_nat (16 * Z.of_nat k + Z.of_nat j - 16 * Z.of_nat k)) with j by lia.
      symmetry. apply list_lookup_lookup_total_lt. lia.
    - by rewrite (lookup_ge_None_2 (seq 0 16)), lookup_ge_None_2 by (rewrite ?length_seq; lia). }
  apply list_eq. intros j. unfold dir_put. pose proof (length_dir_entries (x_view x) ip) as Hle.
  destruct (decide (j < Z.to_nat (i_size ip' / 16))%nat) as [Hj|Hj].
  - rewrite lookup_dir_entries by done. destruct (Nat.lt_trichotomy j k) as [Hlt|[->|Hgt]].
    + rewrite lookup_app_l, lookup_take_lt, lookup_dir_entries by (rewrite ?length_take; lia).
      by rewrite Hoth by lia.
    + rewrite lookup_app_r, length_take by (rewrite length_take; lia).
      replace (k - _)%nat with 0%nat by lia. by rewrite Hnew.
    + rewrite lookup_app_r, length_take by (rewrite length_take; lia).
      replace (j - _)%nat with (S (j - S k)) by lia. simpl. rewrite lookup_drop.
      replace (S k + (j - S k))%nat with j by lia. rewrite lookup_dir_entries by dlia. by rewrite Hoth by lia.
  - rewrite !lookup_ge_None_2; [done| |rewrite length_dir_entries; lia].
    rewrite length_app, length_take. cbn [length]. rewrite length_drop. dlia.
Qed.

(** The entry [dirlink] writes matches its own name and, up to [DIRSIZ] bytes, no other. *)
Lemma new_entry_match name name' inum : 0 < inum < 2 ^ 16 → Forall byte name → Forall byte name' →
  de_match name' (mkdirent inum (strncpy (replicate DIRSIZ 0) name DIRSIZ)) = true ↔
  take DIRSIZ (cstr name') = take DIRSIZ (cstr name).
Proof.
  intros Hi Hb Hb'. unfold de_match, namecmp. cbn [de_inum de_name].
  rewrite (proj2 (Z.eqb_neq inum 0)) by lia. cbn [negb andb]. rewrite Z.eqb_eq, strncmp_zero.
  - by rewrite cstr_strncpy, take_take, Nat.min_id.
  - done.
  - apply strncpy_bytes; [|done]. repeat constructor; lia.
Qed.

(** [dirlink] of a name that is not there, with its effect on the state. *)
Lemma dirlink_run s x i ip name inum r :
  let l := dir_entries (x_view x) ip in
  let k := dir_free l 0 in
  let de := mkdirent inum (strncpy (replicate DIRSIZ 0) name DIRSIZ) in
  dir_rep s x i ip → 0 < inum < 2 ^ 16 → dir_find name l 0 = None →
  16 * Z.of_nat k + 16 ≤ MAXBYTES → room (7 + r) x → has_free sb 2 (x_view x) →
  ∃ t x' ip', dirlink i name inum s = Done 0 (upd_st i ip' t s) ∧ dir_rep (upd_st i ip' t s) x' i ip' ∧
    writei_post sb x ip (16 * Z.of_nat k) (encode_dirent de) x' ip' ∧ room r x' ∧
    dir_entries (x_view x') ip' = dir_put l k de.
Proof.
  intros l k de D Hi Hno Hmax Hr Hfree. unfold dirlink.
  destruct (dirlookup_eq s x i ip name D) as (t&D1&E1). fold l in E1. rewrite Hno in E1.
  unfold mbind at 1, M_bind at 1. rewrite E1. cbn [lookup_result mret M_ret].
  unfold mbind at 1, M_bind at 1. rewrite (run_the_inode _ x i ip D1).
  pose proof (fl_size _ _ _ _ _ (dr_file _ _ _ _ D)) as Hsz. pose proof (dr_size _ _ _ _ D) as Hm.
  destruct (dirlink_scan_eq x i ip (Z.to_nat (i_size ip) + 1) (set_tx t s) 0 D1) as (t2&D2&E2); [lia|dlia|].
  unfold mbind at 1, M_bind at 1. change (16 * Z.of_nat 0) with 0 in E2. rewrite E2. rewrite drop_0. fold l k.
  destruct (dir_free_spec l 0) as [Hk _]. fold k in Hk.
  assert (length l = Z.to_nat (i_size ip / 16)) as Hll by apply length_dir_entries.
  assert (u16 inum = inum) as -> by (apply Z.mod_small; lia). fold de.
  assert (length (de_name de) = DIRSIZ) as Hdn by by apply length_strncpy.
  pose proof (length_encode_dirent de Hdn) as Hel. change DIRENT_SIZE with 16%nat in Hel.
  assert (wp (writei i (encode_dirent de) (16 * Z.of_nat k) (Z.of_nat DIRENT_SIZE))
    (λ n s', n = 16 ∧ ∃ t' x' ip', s' = upd_st i ip' t' s ∧ dir_rep s' x' i ip' ∧
      writei_post sb x ip (16 * Z.of_nat k) (encode_dirent de) x' ip' ∧ room r x' ∧
      dir_entries (x_view x') ip' = dir_put l k de) (set_tx t2 (set_tx t s))) as W.
  { apply (wp_writei sb _ x i ip _ _ _ 1 r); change (Z.of_nat DIRENT_SIZE) with 16;
      [apply D2|dlia|lia|done|dlia|by replace (6 * 1 + S r)%nat with (7 + r)%nat by lia|done|].
    intros t' x' ip' W Fl' Hr'. rewrite take_ge in W by lia.
    pose proof (wi_ip _ _ _ _ _ _ _ W) as (addrs'&Eip).
    destruct (dir_entries_put x ip x' ip' de k) as [He Hm']; [done|simpl; lia|lia|done|lia|done|].
    split; [done|]. exists t', x', ip'. split_and!; try done.
    split; [done| |done|eapply room_weaken; [|done]; lia]. rewrite Eip. apply D. }
  apply wp_inv in W as (n&s'&E&->&t'&x'&ip'&->&D'&W&Hr'&He). exists t', x', ip'.
  unfold mbind at 1, M_bind at 1. rewrite E. done.
Qed.

(** A new entry at the first free position: its name is found there, and names
    that differ in their first [DIRSIZ] bytes where they were. *)
Lemma dir_put_found l name inum :
  let k := dir_free l 0 in
  let de := mkdirent inum (strncpy (replicate DIRSIZ 0) name DIRSIZ) in
  Forall byte name → 0 < inum < 2 ^ 16 → dir_find name l 0 = None →
  (∀ name', Forall byte name' → take DIRSIZ (cstr name') = take DIRSIZ (cstr name) →
     dir_find name' (dir_put l k de) 0 = Some (k, de)) ∧
  ∀ name', Forall byte name' → take DIRSIZ (cstr name') ≠ take DIRSIZ (cstr name) →
    dir_find name' (dir_put l k de) 0 = dir_find name' l 0.
Proof.
  intros k de Hb Hi Hno. destruct (dir_free_spec l 0) as [Hk Hkfree]. fold k in Hk, Hkfree. rewrite Nat.sub_0_r in Hkfree.
  assert (Hold : ∀ name' de0, l !! k = Some de0 → de_match name' de0 = false).
  { intros name' de0 Hde. unfold de_match. by rewrite (Hkfree de0 Hde). }
  split; intros name' Hb' He.
  - apply dir_find_put; [lia|by rewrite (dir_find_same name name')|by apply new_entry_match].
  - apply dir_find_put_ne; [lia|by apply Hold|]. apply not_true_iff_false. unfold de. by rewrite new_entry_match.
Qed.

(** [dirlink] of a name that is not in the directory returns 0 and adds
    exactly that name: the entry goes into the first free slot, or at the
    end; looking the name up then finds the new entry; and every name that
    differs in its first [DIRSIZ] bytes is found exactly where it was. *)
Theorem dirlink_correct s x i ip name inum :
  let l := dir_entries (x_view x) ip in
  let k := dir_free l 0 in
  let de := mkdirent inum (strncpy (replicate DIRSIZ 0) name DIRSIZ) in
  dir_rep s x i ip → Forall byte name → 0 < inum < 2 ^ 16 → dir_find name l 0 = None →
  16 * Z.of_nat k + 16 ≤ MAXBYTES → room 7 x → has_free sb 2 (x_view x) →
  ∃ s' x' ip', dirlink i name inum s = Done 0 s' ∧ dir_rep s' x' i ip' ∧
    dir_entries (x_view x') ip' = dir_put l k de ∧
    dir_find name (dir_entries (x_view x') ip') 0 = Some (k, de) ∧
    ∀ name', Forall byte name' → take DIRSIZ (cstr name') ≠ take DIRSIZ (cstr name) →
      dir_find name' (dir_entries (x_view x') ip') 0 = dir_find name' l 0.
Proof.
  intros l k de D Hb Hi Hno Hmax Hr Hfree.
  destruct (dirlink_run s x i ip name inum 0 D Hi Hno Hmax Hr Hfree) as (t&x'&ip'&E&D'&_&_&He).
  exists (upd_st i ip' t s), x', ip'. rewrite He.
  destruct (dir_put_found l name inum Hb Hi Hno) as [Hn Ho]. split_and!; auto.
Qed.
End dir.

(** Witnesses: an empty directory of the example file system. *)
#[local] Instance no_devices : DevSw (log bio) := { dev_read _ := None; dev_write _ := None }.

Lemma demo_dir t : tx_rep t Demo.x → dir_rep Demo.sb (Demo.state t) Demo.x 1 Demo.dp.
Proof. intros R. split; [exact (Demo.dir_state t R)|done|done|apply Demo.some_room; lia]. Qed.

Lemma dirlookup_correct_witness : ∃ s s', dirlookup 1 [97; 0] s = Done None s'.
Proof.
  destruct Demo.started as (t&R).
  destruct (dirlookup_correct Demo.sb (Demo.state t) Demo.x 1 Demo.dp [97; 0] (demo_dir t R)) as (t'&_&E).
  exists (Demo.state t), (set_tx t' (Demo.state t)). exact E.
Defined.

Lemma dirlink_correct_witness : ∃ s s', dirlink 1 [97; 0] 1 s = Done 0 s'.
Proof.
  destruct Demo.started as (t&R).
  destruct (dirlink_correct Demo.sb (Demo.state t) Demo.x 1 Demo.dp [97; 0] 1 (demo_dir t R)) as (s'&x'&ip'&E&_).
  - repeat constructor; lia.
  - lia.
  - reflexivity.
  - by vm_compute.
  - apply Demo.some_room. lia.
  - apply Demo.two_free.
  - exists (Demo.state t), s'. exact E.
Defined.
