(* ===== verification/Mkfs.v ===== *)
(** * The image maker (mkfs.c)

    mkfs builds the file system the kernel boots from.  The image is the disk
    as the kernel sees it, and the theorems are stated with the notions of the
    kernel's file system: the layout, the bitmap, block maps, directory
    entries.  The host is little-endian, as mkfs.c itself needs where it uses
    fields of the superblock without [xint]. *)

From S2P Require Import Prelude Params Block Format Str Fs.

(** ** mkfs.c *)

Definition NINODES : Z := 200.

Definition nbitmap : Z := FSSIZE / (Z.of_nat BSIZE * 8) + 1.
Definition ninodeblocks : Z := NINODES / IPB + 1.
Definition nlog : Z := LOGSIZE.
Definition nmeta : Z := 2 + nlog + ninodeblocks + nbitmap.
Definition nblocks : Z := FSSIZE - nmeta.
Definition mkfs_sb : superblock :=
  mksb FSSIZE nblocks NINODES nlog 2 (2 + nlog) (2 + nlog + ninodeblocks).

(** [xshort] and [xint] store their argument byte by byte, lowest first; the
    result is what the host reads back, so on a little-endian host they do
    nothing, and the definitions below leave them out. *)
Definition xshort (x : Z) : Z := get16 [u8 x; u8 (Z.shiftr x 8)] 0.
Definition xint (x : Z) : Z := get32 [u8 x; u8 (Z.shiftr x 8); u8 (Z.shiftr x 16); u8 (Z.shiftr x 24)] 0.

Record mkst := mkmk {
  mk_img : gmap Z block;        (** the image file, by sectors *)
  mk_inode : Z;                 (** freeinode *)
  mk_block : Z                  (** freeblock *)
}.

Definition assert (b : bool) : M mkst unit := if b then mret tt else panic "assert".

Definition wsect (sec : Z) (buf : block) : M mkst unit :=
  modify (λ s, mkmk (<[sec:=buf]> (mk_img s)) (mk_inode s) (mk_block s)).
(** A read past the end of the image is short. *)
Definition rsect (sec : Z) : M mkst block :=
  s ← gets id;
  match mk_img s !! sec with
  | Some d => mret d
  | None => panic "read"
  end.

Definition winode (inum : Z) (ip : dinode) : M mkst unit :=
  let bn := IBLOCK inum mkfs_sb in
  buf ← rsect bn;
  wsect bn (put_dinode buf (islot inum) ip).
Definition rinode (inum : Z) : M mkst dinode :=
  let bn := IBLOCK inum mkfs_sb in
  buf ← rsect bn;
  mret (get_dinode buf (islot inum)).

(** [freeinode++] and [freeblock++]. *)
Definition new_inode : M mkst Z :=
  s ← gets id;
  modify (λ s, mkmk (mk_img s) (u32 (mk_inode s + 1)) (mk_block s));;
  mret (mk_inode s).
Definition new_block : M mkst Z :=
  s ← gets id;
  modify (λ s, mkmk (mk_img s) (mk_inode s) (u32 (mk_block s + 1)));;
  mret (mk_block s).

(** mkfs.c's [ialloc] and [balloc]. *)
Definition mk_ialloc (type : Z) : M mkst Z :=
  inum ← new_inode;
  winode inum (mkdinode type 0 0 1 0 (replicate (NDIRECT + 1) 0));;
  mret inum.

Definition first_bits (used : nat) : block := foldl mark_bit zero_block (Z.of_nat <$> seq 0 used).
Definition mk_balloc (used : Z) : M mkst unit :=
  assert (used <? Z.of_nat BSIZE * 8);;
  wsect (sb_bmapstart mkfs_sb) (first_bits (Z.to_nat used)).

Definition set_d_addrs (a : list Z) (d : dinode) : dinode :=
  mkdinode (d_type d) (d_major d) (d_minor d) (d_nlink d) (d_size d) a.
Definition set_d_size (n : Z) (d : dinode) : dinode :=
  mkdinode (d_type d) (d_major d) (d_minor d) (d_nlink d) n (d_addrs d).

(** The block of the file with number [fbn], allocated if there is none. *)
Definition addr_or_new (k : nat) (din : dinode) : M mkst dinode :=
  if d_addrs din !!! k =? 0 then
    b ← new_block;
    mret (set_d_addrs (<[k:=b]> (d_addrs din)) din)
  else mret din.
Definition file_sect (din : dinode) (fbn : nat) : M mkst (dinode * Z) :=
  if (fbn <? NDIRECT)%nat then
    din ← addr_or_new fbn din;
    mret (din, d_addrs din !!! fbn)
  else
    din ← addr_or_new NDIRECT din;
    let ind := d_addrs din !!! NDIRECT in
    indirect ← rsect ind;
    if get32 indirect (4 * (fbn - NDIRECT)) =? 0 then
      b ← new_block;
      let indirect := put32 indirect (4 * (fbn - NDIRECT)) b in
      wsect ind indirect;;
      mret (din, get32 indirect (4 * (fbn - NDIRECT)))
    else mret (din, get32 indirect (4 * (fbn - NDIRECT))).

(** The loop of [iappend] on the bytes [p] that are left. *)
Fixpoint iappend_loop (fuel : nat) (din : dinode) (off : Z) (p : list Z) : M mkst (dinode * Z) :=
  match fuel with
  | O => diverge
  | S fuel' =>
      if 0 <? Z.of_nat (length p) then
        let fbn := off / Z.of_nat BSIZE in
        assert (fbn <? Z.of_nat MAXFILE);;
        '(din, x) ← file_sect din (Z.to_nat fbn);
        let n1 := Z.min (Z.of_nat (length p)) ((fbn + 1) * Z.of_nat BSIZE - off) in
        buf ← rsect x;
        wsect x (splice (Z.to_nat (off - fbn * Z.of_nat BSIZE)) (take (Z.to_nat n1) p) buf);;
        iappend_loop fuel' din (u32 (off + n1)) (drop (Z.to_nat n1) p)
      else mret (din, off)
  end.
Definition iappend (inum : Z) (p : list Z) : M mkst unit :=
  din ← rinode inum;
  '(din, off) ← iappend_loop (S (length p)) din (d_size din) p;
  winode inum (set_d_size off din).

(** ** main *)

(** [for(i = 0; i < FSSIZE; i++) wsect(i, zeroes)]. *)
Fixpoint zero_all (k : nat) (i : Z) : M mkst unit :=
  match k with
  | O => mret tt
  | S k' => wsect i zero_block;; zero_all k' (i + 1)
  end.

(** The bytes of a directory entry. *)
Definition de_bytes (inum : Z) (name : list Z) : list Z :=
  encode_dirent (mkdirent (u16 inum) (strncpy (replicate DIRSIZ 0) name DIRSIZ)).

Fixpoint append_all (inum : Z) (chunks : list (list Z)) : M mkst unit :=
  match chunks with
  | [] => mret tt
  | c :: chunks' => iappend inum c;; append_all inum chunks'
  end.

(** The name without a leading [_]. *)
Definition skip_underscore (name : list Z) : list Z :=
  match name with
  | c :: name' => if c =? 95 then name' else name
  | [] => []
  end.

(** One file of the command line: its name, and what the reads of it return if
    it can be opened. *)
Definition add_file (rootino : Z) (f : list Z * option (list (list Z))) : M mkst unit :=
  assert (forallb (λ c, negb (c =? 47)) f.1);;
  match f.2 with
  | None => panic "open"
  | Some chunks =>
      inum ← mk_ialloc T_FILE;
      iappend rootino (de_bytes inum (skip_underscore f.1));;
      append_all inum chunks
  end.
Fixpoint add_files (rootino : Z) (fs : list (list Z * option (list (list Z)))) : M mkst unit :=
  match fs with
  | [] => mret tt
  | f :: fs' => add_file rootino f;; add_files rootino fs'
  end.

(** The size of the root directory is rounded up to a whole block. *)
Definition fix_root (rootino : Z) : M mkst unit :=
  din ← rinode rootino;
  let off := d_size din in
  winode rootino (set_d_size (u32 ((off / Z.of_nat BSIZE + 1) * Z.of_nat BSIZE)) din).

Definition mkfs_main (fs : list (list Z * option (list (list Z)))) : M mkst unit :=
  assert ((BSIZE mod DINODE_SIZE =? 0)%nat);;
  assert ((BSIZE mod DIRENT_SIZE =? 0)%nat);;
  modify (λ s, mkmk (mk_img s) (mk_inode s) nmeta);;
  zero_all (Z.to_nat FSSIZE) 0;;
  wsect 1 (encode_sb mkfs_sb zero_block);;
  rootino ← mk_ialloc T_DIR;
  assert (rootino =? ROOTINO);;
  iappend rootino (de_bytes rootino [46]);;
  iappend rootino (de_bytes rootino [46; 46]);;
  add_files rootino fs;;
  fix_root rootino;;
  s ← gets id;
  mk_balloc (mk_block s).

(** The image file is empty at first. *)
Definition mk_start : mkst := mkmk ∅ 1 0.

Lemma xshort_id x : 0 ≤ x < 2 ^ 16 → xshort x = x.
Proof.
  intros Hx. unfold xshort, get16, slice, u8. cbn [drop take le_value]. rewrite !Z.shiftr_div_pow2 by lia. dlia.
Qed.

Lemma xint_id x : 0 ≤ x < 2 ^ 32 → xint x = x.
Proof.
  intros Hx. unfold xint, get32, slice, u8. cbn [drop take le_value]. rewrite !Z.shiftr_div_pow2 by lia. dlia.
Qed.
