(* ===== verification/MkfsSpec.v ===== *)
(** * Correctness of mkfs.c

    The image is at every moment the view of the kernel's file system in which
    the blocks below [freeblock] are allocated: [iappend] does to it what
    [writei] does to the kernel's.  So the files of the finished image have
    the contents they were given, and the kernel finds and reads them. *)

From S2P Require Import Prelude Params Block Sleeplock Bio BioSpec Format Log LogSpec.
From S2P Require Import Str Tx Fs FsSpec FsData FsWrite FsFile FsStack FsDir Mkfs.

(** ** The layout *)

Lemma mkfs_geom : geom_ok mkfs_sb.
Proof. split; vm_compute; repeat split; intros; discriminate. Qed.

Lemma mkfs_data_start : data_start mkfs_sb = 59.
Proof. done. Qed.

Lemma mkfs_BBLOCK b : 0 ≤ b < 4096 → BBLOCK b mkfs_sb = 58.
Proof. intros Hb. unfold BBLOCK. change BPB with 4096. rewrite Z.div_small by lia. done. Qed.

Lemma first_bits_S n : first_bits (S n) = mark_bit (first_bits n) (Z.of_nat n).
Proof. unfold first_bits. by rewrite seq_S, fmap_app, foldl_app. Qed.

Lemma length_first_bits n : length (first_bits n) = BSIZE.
Proof. induction n as [|n IH]; [done|]. by rewrite first_bits_S, length_mark_bit. Qed.

Lemma bit_first_bits n bi : Z.of_nat n ≤ 4096 → bit_ok bi → bit_clear (first_bits n) bi = negb (bi <? Z.of_nat n).
Proof.
  intros Hn Hb. induction n as [|n IH].
  - assert (bi <? Z.of_nat 0 = false) as -> by (apply Z.ltb_ge; unfold bit_ok in Hb; lia). rewrite bit_clear_testbit by done.
    unfold first_bits. simpl. unfold zero_block. rewrite lookup_total_replicate_2 by (by apply bit_byte_lt). by rewrite Z.testbit_0_l.
  - rewrite first_bits_S, bit_clear_mark; [|apply length_first_bits|unfold bit_ok; change BPB with 4096; lia|done].
    rewrite IH by lia. case_decide; unfold bit_ok in Hb; destruct (Z.ltb_spec bi (Z.of_nat n)), (Z.ltb_spec bi (Z.of_nat (S n))); try done; lia.
Qed.

(** The image with the bitmap that [balloc] will write. *)
Definition final (v : gmap Z block) (fb : Z) : gmap Z block := <[58:=first_bits (Z.to_nat fb)]> v.

Lemma final_used v fb b : 0 ≤ b < 1000 → 0 ≤ fb ≤ 1000 → block_used mkfs_sb (final v fb) b = (b <? fb).
Proof.
  intros Hb Hf. unfold block_used, final. rewrite mkfs_BBLOCK, lookup_total_insert_eq by lia. change BPB with 4096. rewrite Z.mod_small by lia.
  rewrite bit_first_bits; [|lia|unfold bit_ok; change BPB with 4096; lia]. rewrite negb_involutive. by rewrite Z2Nat.id by lia.
Qed.

(** ** The image as a view of the file system *)

Record mrel (s : mkst) (x : txst) : Prop := {
  mv_view : x_view x = final (mk_img s) (mk_block s);
  mv_blocks b : 0 ≤ b < 1000 → ∃ d, mk_img s !! b = Some d ∧ length d = BSIZE;
  mv_sb : decode_sb (mk_img s !!! 1) = mkfs_sb;
  mv_zero b : mk_block s ≤ b < 1000 → mk_img s !! b = Some zero_block;
  mv_range : 59 ≤ mk_block s ≤ 1000
}.

Section rel.
Implicit Types (s : mkst) (x : txst).

Lemma mrel_image s x : mrel s x → image_ok mkfs_sb (x_view x).
Proof.
  intros [Hv Hb Hsb Hz Hr]. rewrite Hv. split.
  - intros b Hbr. change (sb_size mkfs_sb) with 1000 in Hbr. unfold final. destruct (decide (b = 58)) as [->|].
    + rewrite lookup_insert_eq. eexists. split; [done|]. apply length_first_bits.
    + rewrite lookup_insert_ne by done. by apply Hb.
  - unfold final. by rewrite lookup_total_insert_ne.
  - rewrite mkfs_data_start. intros b Hbr. rewrite final_used by lia. apply Z.ltb_lt. lia.
Qed.

Lemma mrel_used s x b : mrel s x → 0 ≤ b < 1000 → block_used mkfs_sb (x_view x) b = (b <? mk_block s).
Proof. intros [Hv Hb Hsb Hz Hr] Hbr. rewrite Hv. apply final_used; lia. Qed.

Lemma mrel_good s x b : mrel s x → good mkfs_sb (x_view x) b ↔ 59 ≤ b < mk_block s.
Proof.
  intros R. pose proof (mv_range _ _ R). unfold good. rewrite mkfs_data_start. change (sb_size mkfs_sb) with 1000. split.
  - intros [Hb Hu]. rewrite (mrel_used s) in Hu by (done || lia). apply Z.ltb_lt in Hu. lia.
  - intros Hb. split; [lia|]. rewrite (mrel_used s) by (done || lia). apply Z.ltb_lt. lia.
Qed.

Lemma mrel_first_free s x : mrel s x → mk_block s < 1000 → first_free mkfs_sb (x_view x) (mk_block s).
Proof.
  intros R Hlt. pose proof (mv_range _ _ R). unfold first_free. change (sb_size mkfs_sb) with 1000. split_and!; [lia..| |].
  - rewrite (mrel_used s) by (done || lia). apply Z.ltb_irrefl.
  - intros b Hb. rewrite (mrel_used s) by (done || lia). apply Z.ltb_lt. lia.
Qed.

Lemma mrel_lookup s x b : mrel s x → b ≠ 58 → x_view x !! b = mk_img s !! b.
Proof. intros R Hb. rewrite (mv_view _ _ R). unfold final. by rewrite lookup_insert_ne. Qed.

(** [freeblock++] is the kernel's [balloc]. *)
Lemma mrel_new s x : mrel s x → mk_block s < 1000 →
  mrel (mkmk (mk_img s) (mk_inode s) (u32 (mk_block s + 1))) (x_alloc mkfs_sb (mk_block s) x).
Proof.
  intros R Hlt. pose proof (mv_range _ _ R) as Hr. rewrite u32_small by lia. split; cbn [mk_img mk_block].
  - unfold x_alloc. cbn [x_put x_view]. rewrite mkfs_BBLOCK by lia. rewrite (mv_view _ _ R). unfold final.
    rewrite lookup_total_insert_eq, insert_insert_eq. change BPB with 4096. rewrite Z.mod_small by lia.
    replace (Z.to_nat (mk_block s + 1)) with (S (Z.to_nat (mk_block s))) by lia. rewrite first_bits_S, Z2Nat.id by lia.
    rewrite insert_insert_ne by lia. f_equal. apply insert_id. apply R. lia.
  - apply R.
  - apply R.
  - intros b Hb. apply R. lia.
  - lia.
Qed.

Lemma wp_new_block s x (Q : Z → mkst → Prop) : mrel s x → mk_block s < 1000 →
  (∀ s', mrel s' (x_alloc mkfs_sb (mk_block s) x) → mk_block s' = mk_block s + 1 → mk_inode s' = mk_inode s → Q (mk_block s) s') →
  wp new_block Q s.
Proof.
  intros R Hlt HQ. unfold new_block. wp_steps. unfold id. pose proof (mv_range _ _ R). apply HQ; [by apply mrel_new|cbn [mk_block]; apply u32_small; lia|done].
Qed.

(** A write outside the superblock, the bitmap and the free blocks. *)
Lemma mrel_put s x b d : mrel s x → length d = BSIZE → 2 ≤ b < mk_block s → b ≠ 58 →
  mrel (mkmk (<[b:=d]> (mk_img s)) (mk_inode s) (mk_block s)) (x_put b d x).
Proof.
  intros R Hd Hb H58. split; cbn [mk_img mk_block x_put x_view].
  - rewrite (mv_view _ _ R). unfold final. by rewrite insert_insert_ne by done.
  - intros c Hc. destruct (decide (c = b)) as [->|]; [rewrite lookup_insert_eq; eauto|]. rewrite lookup_insert_ne by done. by apply R.
  - rewrite lookup_total_insert_ne by lia. apply R.
  - intros c Hc. rewrite lookup_insert_ne by lia. by apply R.
  - apply R.
Qed.

Lemma wp_rsect s x b (Q : block → mkst → Prop) : mrel s x → 0 ≤ b < 1000 → b ≠ 58 →
  (length (x_view x !!! b) = BSIZE → Q (x_view x !!! b) s) → wp (rsect b) Q s.
Proof.
  intros R Hb H58 HQ. unfold rsect. wp_steps. unfold id. destruct (mv_blocks _ _ R b Hb) as (d&Hd&Hl). rewrite Hd. wp_steps.
  assert (x_view x !!! b = d) as E. { apply lookup_total_correct. by rewrite (mrel_lookup s) by done. }
  rewrite E in HQ. by apply HQ.
Qed.

Lemma wp_wsect s x b d (Q : unit → mkst → Prop) : mrel s x → length d = BSIZE → 2 ≤ b < mk_block s → b ≠ 58 →
  (∀ s', mrel s' (x_put b d x) → mk_block s' = mk_block s → mk_inode s' = mk_inode s → Q tt s') → wp (wsect b d) Q s.
Proof. intros R Hd Hb H58 HQ. unfold wsect. wp_steps. apply HQ; [by apply mrel_put|done|done]. Qed.
End rel.

(** ** Appending to a file *)

(** The blocks a file of [n] bytes takes. *)
Definition nblk (n : Z) : Z := (n + 511) / 512 + (if 12 * 512 <? n then 1 else 0).

(** The blocks of the map are those below [n]. *)
Definition tight (v : gmap Z block) (addrs : list Z) (n : Z) : Prop :=
  (∀ bn, (bn < MAXFILE)%nat → addr_of v addrs bn ≠ 0 ↔ Z.of_nat bn * 512 < n) ∧
  (addrs !!! NDIRECT ≠ 0 ↔ 12 * 512 < n).

(** The number of blocks that the block number [bn] still needs. *)
Definition cost (v : gmap Z block) (addrs : list Z) (bn : nat) : Z :=
  if addr_of v addrs bn =? 0 then
    if (NDIRECT <=? bn)%nat && (addrs !!! NDIRECT =? 0) then 2 else 1
  else 0.

Section append.
Implicit Types (s : mkst) (x : txst) (din : dinode).

Lemma d_addrs_set a din : d_addrs (set_d_addrs a din) = a.
Proof. done. Qed.
Lemma set_d_addrs_id din : set_d_addrs (d_addrs din) din = din.
Proof. by destruct din. Qed.

Lemma good_range s x b : mrel s x → good mkfs_sb (x_view x) b → 59 ≤ b < mk_block s ∧ 2 ≤ b < mk_block s ∧ 0 ≤ b < 1000 ∧ b ≠ 58.
Proof. intros R Hg. apply (mrel_good s) in Hg; [|done]. pose proof (mv_range _ _ R). lia. Qed.

Lemma wp_file_sect_direct s x din bn (Q : dinode * Z → mkst → Prop) :
  mrel s x → map_ok mkfs_sb (x_view x) (d_addrs din) → (bn < NDIRECT)%nat →
  mk_block s + cost (x_view x) (d_addrs din) bn ≤ 1000 →
  (∀ s' x' a addr, mrel s' x' → bmap_post mkfs_sb x (d_addrs din) bn addr x' a → mk_inode s' = mk_inode s →
     mk_block s' = mk_block s + cost (x_view x) (d_addrs din) bn →
     ((bn < NDIRECT)%nat → a !!! NDIRECT = d_addrs din !!! NDIRECT) → Q (set_d_addrs a din, addr) s') →
  wp (file_sect din bn) Q s.
Proof.
  intros R Ho Hbn Hc HQ. pose proof mkfs_geom as G. unfold file_sect, addr_or_new. rewrite (proj2 (Nat.ltb_lt _ _)) by done.
  assert (bn < MAXFILE)%nat as Hmax by (change NDIRECT with 12%nat in *; change MAXFILE with 140%nat; lia).
  unfold cost in *. rewrite (addr_of_direct _ _ bn Hbn) in *. rewrite (proj2 (Nat.leb_gt _ _)) in * by done. cbn [andb] in *.
  destruct (Z.eqb_spec (d_addrs din !!! bn) 0) as [Hz|Hnz].
  - wp_steps. eapply wp_new_block; [done|lia|]. intros s' R' Hb' Hi'. wp_steps. rewrite d_addrs_set.
    rewrite list_lookup_total_insert_eq by (rewrite (mo_len _ _ _ Ho); lia).
    eapply HQ; [done| |done|done|intros _; apply list_lookup_total_insert_ne; lia].
    apply bmap_post_direct; try done; [by eapply mrel_image|]. apply mrel_first_free; [done|lia].
  - wp_steps. rewrite <- (set_d_addrs_id din) at 1. eapply HQ; [done| |done|lia|done].
    rewrite <- (addr_of_direct (x_view x) (d_addrs din) bn) by done. apply bmap_post_refl; try done. by rewrite addr_of_direct.
Qed.

(** The end of [file_sect]: the entry [bn] of the indirect block. *)
Lemma wp_indirect_entry s x din bn (Q : dinode * Z → mkst → Prop) :
  mrel s x → map_ok mkfs_sb (x_view x) (d_addrs din) → (NDIRECT ≤ bn < MAXFILE)%nat →
  d_addrs din !!! NDIRECT ≠ 0 → mk_block s + cost (x_view x) (d_addrs din) bn ≤ 1000 →
  (∀ s', addr_of (x_view x) (d_addrs din) bn = 0 → mrel s' (x_entry mkfs_sb (d_addrs din) bn (mk_block s) x) → mk_inode s' = mk_inode s →
     mk_block s' = mk_block s + 1 → first_free mkfs_sb (x_view x) (mk_block s) → Q (din, mk_block s) s') →
  (addr_of (x_view x) (d_addrs din) bn ≠ 0 → Q (din, addr_of (x_view x) (d_addrs din) bn) s) →
  wp (indirect ← rsect (d_addrs din !!! NDIRECT);
      if get32 indirect (4 * (bn - NDIRECT)) =? 0 then
        b ← new_block;
        let indirect := put32 indirect (4 * (bn - NDIRECT)) b in
        wsect (d_addrs din !!! NDIRECT) indirect;;
        mret (din, get32 indirect (4 * (bn - NDIRECT)))
      else mret (din, get32 indirect (4 * (bn - NDIRECT)))) Q s.
Proof.
  intros R Ho Hbn Hind Hc HQ1 HQ2. pose proof (mo_ind _ _ _ Ho Hind) as Hg. pose proof (mv_range _ _ R) as Hr.
  destruct (good_range s x _ R Hg) as (Hi1&Hi2&Hi3&Hi4). unfold cost in Hc.
  rewrite (addr_of_indirect _ _ bn ltac:(lia) Hind) in *. wp_step. eapply wp_rsect; [done|done|done|]. intros Hl.
  destruct (Z.eqb_spec (get32 (x_view x !!! (d_addrs din !!! NDIRECT)) (4 * (bn - NDIRECT))) 0) as [Hz|Hnz].
  - rewrite (proj2 (Nat.leb_le _ _)), (proj2 (Z.eqb_neq _ _) Hind) in Hc by lia. cbn [andb] in Hc.
    pose proof (mrel_first_free s x R ltac:(lia)) as Hf.
    assert (4 * (bn - NDIRECT) + 4 ≤ length (x_view x !!! (d_addrs din !!! NDIRECT)))%nat as Hlen.
    { rewrite Hl. change NDIRECT with 12%nat in *. change MAXFILE with 140%nat in *. change BSIZE with 512%nat. lia. }
    wp_step. eapply wp_new_block; [done|lia|]. intros s1 R1 Hb1 Hn1. cbv zeta. wp_step.
    eapply wp_wsect; [exact R1|by rewrite length_put32|lia|done|]. intros s2 R2 Hb2 Hn2. wp_step.
    rewrite get32_put32_eq, u32_small by (done || lia). apply HQ1; [done|exact R2|congruence|congruence|done].
  - wp_step. by apply HQ2.
Qed.

Lemma wp_file_sect_indirect s x din bn (Q : dinode * Z → mkst → Prop) :
  mrel s x → map_ok mkfs_sb (x_view x) (d_addrs din) → (NDIRECT ≤ bn < MAXFILE)%nat →
  mk_block s + cost (x_view x) (d_addrs din) bn ≤ 1000 →
  (∀ s' x' a addr, mrel s' x' → bmap_post mkfs_sb x (d_addrs din) bn addr x' a → mk_inode s' = mk_inode s →
     mk_block s' = mk_block s + cost (x_view x) (d_addrs din) bn →
     ((bn < NDIRECT)%nat → a !!! NDIRECT = d_addrs din !!! NDIRECT) → Q (set_d_addrs a din, addr) s') →
  wp (file_sect din bn) Q s.
Proof.
  intros R Ho Hbn Hc HQ. pose proof mkfs_geom as G. pose proof (mrel_image s x R) as Im. unfold file_sect, addr_or_new. rewrite (proj2 (Nat.ltb_ge _ _)) by lia.
  destruct (Z.eqb_spec (d_addrs din !!! NDIRECT) 0) as [Hz|Hnz].
  - assert (addr_of (x_view x) (d_addrs din) bn = 0) as Ea.
    { unfold addr_of. rewrite (proj2 (Nat.ltb_ge _ _)) by lia. by rewrite Hz. }
    assert (cost (x_view x) (d_addrs din) bn = 2) as Ec.
    { unfold cost. rewrite Ea, Hz, (proj2 (Nat.leb_le _ _)) by lia. done. }
    rewrite Ec in *. pose proof (mrel_first_free s x R ltac:(lia)) as Hf. pose proof (mv_range _ _ R) as Hr.
    wp_step. wp_step. eapply wp_new_block; [done|lia|]. intros s1 R1 Hb1 Hn1. wp_step.
    set (a1 := <[NDIRECT:=mk_block s]> (d_addrs din)). set (x1 := x_alloc mkfs_sb (mk_block s) x) in *.
    destruct (map_ok_new_indirect mkfs_sb _ (x_view x1) (d_addrs din) (mk_block s) Ho Hz) as [Ho1 E1].
    { lia. } { apply Hf. } { by apply (alloc_good mkfs_sb G). } { apply alloc_zero. } { intros b Hb. by apply (alloc_keep_good mkfs_sb G). }
    assert (a1 !!! NDIRECT = mk_block s) as Ei by (apply list_lookup_total_insert_eq; rewrite (mo_len _ _ _ Ho); lia).
    fold a1 in Ho1, E1. apply (wp_indirect_entry s1 x1 (set_d_addrs a1 din) bn); rewrite ?d_addrs_set; try done.
    + rewrite Ei. lia.
    + unfold cost. rewrite (E1 bn) by lia. rewrite Ea, Ei. cbn [Z.eqb]. rewrite (proj2 (Z.eqb_neq _ 0)) by lia. rewrite andb_false_r. lia.
    + intros s2 _ R2 Hn2 Hb2 Hf2. apply (HQ s2 _ a1 (mk_block s1) R2); [|congruence|lia|lia].
      apply bmap_post_new_indirect; try done. by eapply mrel_image.
    + intros Hne. exfalso. apply Hne. by rewrite (E1 bn) by lia.
  - wp_step. wp_step. apply (wp_indirect_entry s x din bn); try done.
    + intros s' Ea R' Hn' Hb' Hf. rewrite <- (set_d_addrs_id din) at 1. apply (HQ s' _ _ _ R'); [|done| |done].
      * by apply bmap_post_indirect.
      * unfold cost. rewrite Ea, (proj2 (Z.eqb_neq _ _) Hnz), andb_false_r. done.
    + intros Hne. rewrite <- (set_d_addrs_id din) at 1. eapply HQ; [done|apply bmap_post_refl; [done|lia|done]|done| |done].
      unfold cost. rewrite (proj2 (Z.eqb_neq _ _) Hne). lia.
Qed.

Lemma wp_file_sect s x din bn (Q : dinode * Z → mkst → Prop) :
  mrel s x → map_ok mkfs_sb (x_view x) (d_addrs din) → (bn < MAXFILE)%nat →
  mk_block s + cost (x_view x) (d_addrs din) bn ≤ 1000 →
  (∀ s' x' a addr, mrel s' x' → bmap_post mkfs_sb x (d_addrs din) bn addr x' a → mk_inode s' = mk_inode s →
     mk_block s' = mk_block s + cost (x_view x) (d_addrs din) bn →
     ((bn < NDIRECT)%nat → a !!! NDIRECT = d_addrs din !!! NDIRECT) → Q (set_d_addrs a din, addr) s') →
  wp (file_sect din bn) Q s.
Proof.
  intros R Ho Hbn Hc HQ. destruct (decide (bn < NDIRECT)%nat); [by apply (wp_file_sect_direct s x)|].
  apply (wp_file_sect_indirect s x); [done|done|lia|done|done].
Qed.

(** One round of the loop of [iappend]. *)
Section round.
Context (x : txst) (addrs : list Z) (off m : Z).
Context (Ho : 0 ≤ off) (Hm : 0 < m) (Hfit : off mod 512 + m ≤ 512) (Hmax : off + m ≤ MAXBYTES) (T : tight (x_view x) addrs off).

Lemma round_block : let bn := Z.to_nat (off / 512) in
  (bn < MAXFILE)%nat ∧ Z.of_nat bn * 512 = off - off mod 512 ∧ 0 ≤ off mod 512 < 512.
Proof using Ho Hm Hfit Hmax. change MAXBYTES with 71680 in Hmax. change MAXFILE with 140%nat. cbv zeta. dlia. Qed.

Lemma tight_step x' addrs' addr : bmap_post mkfs_sb x addrs (Z.to_nat (off / 512)) addr x' addrs' →
  ((Z.to_nat (off / 512) < NDIRECT)%nat → addrs' !!! NDIRECT = addrs !!! NDIRECT) →
  tight (x_view x') addrs' (off + m).
Proof using All.
  intros B Hind. destruct T as [T1 T2]. destruct round_block as (Hbn&Eb&Hmod). set (bn := Z.to_nat (off / 512)) in *.
  pose proof (good_nonzero _ _ _ mkfs_geom (bp_good _ _ _ _ _ _ _ B)) as Hnz. clearbody bn. change NDIRECT with 12%nat in *.
  split.
  - intros b Hb. destruct (decide (b = bn)) as [->|Hne]; [rewrite (bp_addr _ _ _ _ _ _ _ B); split; [lia|done]|].
    rewrite (bp_same _ _ _ _ _ _ _ B), T1 by done. lia.
  - change NDIRECT with 12%nat. destruct (decide (bn < 12)%nat) as [Hlt|Hge]; [rewrite Hind, T2 by done; lia|]. split; [lia|]. intros _ E0.
    apply Hnz. rewrite <- (bp_addr _ _ _ _ _ _ _ B). unfold addr_of. change NDIRECT with 12%nat. rewrite (proj2 (Nat.ltb_ge _ _)) by lia. by rewrite E0.
Qed.

Lemma tight_cost : cost (x_view x) addrs (Z.to_nat (off / 512)) = nblk (off + m) - nblk off.
Proof using All.
  destruct T as [T1 T2]. destruct round_block as (Hbn&Eb&Hmod). set (bn := Z.to_nat (off / 512)) in *. clearbody bn. unfold cost. change NDIRECT with 12%nat in *.
  pose proof (T1 bn Hbn) as Tb. destruct (Z.eqb_spec (addr_of (x_view x) addrs bn) 0) as [E0|En].
  - assert (off mod 512 = 0) as E by (destruct (decide (off mod 512 = 0)); [done|]; exfalso; apply Tb; [lia|done]).
    replace (nblk (off + m) - nblk off) with (1 + (if 12 * 512 <? off + m then 1 else 0) - (if 12 * 512 <? off then 1 else 0)).
    2:{ unfold nblk. assert ((off + m + 511) / 512 = (off + 511) / 512 + 1) as -> by dlia. lia. }
    destruct (12 <=? bn)%nat eqn:E12; [apply Nat.leb_le in E12|apply Nat.leb_gt in E12]; cbn [andb];
      destruct (Z.eqb_spec (addrs !!! 12%nat) 0), (Z.ltb_spec (12 * 512) (off + m)), (Z.ltb_spec (12 * 512) off); lia.
  - assert (off mod 512 ≠ 0) as E by (intros E; apply Tb in En; lia). unfold nblk.
    assert ((off + m + 511) / 512 = (off + 511) / 512) as -> by dlia.
    destruct (Z.ltb_spec (12 * 512) (off + m)), (Z.ltb_spec (12 * 512) off); lia.
Qed.
End round.

Lemma nblk_mono n m : 0 ≤ n ≤ m → nblk n ≤ nblk m.
Proof.
  intros H. unfold nblk. pose proof (Z.div_le_mono (n + 511) (m + 511) 512 ltac:(lia) ltac:(lia)).
  destruct (Z.ltb_spec (12 * 512) n), (Z.ltb_spec (12 * 512) m); lia.
Qed.

(** The loop of [iappend] does what [writei] does. *)
Lemma wp_iappend_loop fuel : ∀ s x din off p (Q : dinode * Z → mkst → Prop),
  mrel s x → map_ok mkfs_sb (x_view x) (d_addrs din) → tight (x_view x) (d_addrs din) off →
  0 ≤ off → off + Z.of_nat (length p) ≤ MAXBYTES → (length p < fuel)%nat →
  mk_block s + nblk (off + Z.of_nat (length p)) - nblk off ≤ 1000 →
  (∀ s' x' a, mrel s' x' → write_post mkfs_sb x (d_addrs din) off p x' a → tight (x_view x') a (off + Z.of_nat (length p)) →
     mk_inode s' = mk_inode s → mk_block s' = mk_block s + nblk (off + Z.of_nat (length p)) - nblk off →
     Q (set_d_addrs a din, off + Z.of_nat (length p)) s') →
  wp (iappend_loop fuel din off p) Q s.
Proof.
  induction fuel as [|fuel IH]; intros s x din off p Q R Ho T Hoff Hmax Hf Hroom HQ; [lia|]. cbn [iappend_loop].
  pose proof mkfs_geom as G. pose proof (mv_range _ _ R) as Hr.
  destruct (Z.ltb_spec 0 (Z.of_nat (length p))) as [Hp|Hp].
  2:{ destruct p; [|simpl in Hp; lia]. wp_steps. specialize (HQ s x (d_addrs din) R). cbn [length] in HQ.
      rewrite set_d_addrs_id, !Z.add_0_r in HQ. apply HQ; [by apply write_post_nil|done|done|lia]. }
  change (Z.of_nat BSIZE) with 512. change MAXBYTES with 71680 in Hmax.
  set (n1 := Z.min (Z.of_nat (length p)) ((off / 512 + 1) * 512 - off)).
  assert (0 < n1 ≤ Z.of_nat (length p) ∧ off mod 512 + n1 ≤ 512) as [Hn1 Hfit] by (unfold n1; dlia).
  assert (Z.of_nat (length (take (Z.to_nat n1) p)) = n1) as Hlt by (rewrite length_take; lia).
  assert (Z.of_nat (length (drop (Z.to_nat n1) p)) = Z.of_nat (length p) - n1) as Hld by (rewrite length_drop; lia).
  set (bn := Z.to_nat (off / 512)). assert (bn < MAXFILE)%nat as Hbn by (change MAXFILE with 140%nat; unfold bn; dlia).
  unfold assert. rewrite (proj2 (Z.ltb_lt _ _)) by (change (Z.of_nat MAXFILE) with 140; dlia). wp_step. wp_step.
  pose proof (nblk_mono (off + n1) (off + Z.of_nat (length p)) ltac:(lia)) as Hmono.
  assert (off + n1 ≤ MAXBYTES) as Hmax' by (change MAXBYTES with 71680; lia).
  pose proof (tight_cost x (d_addrs din) off n1 Hoff ltac:(lia) Hfit Hmax' T) as Hcost. fold bn in Hcost.
  apply wp_bind, (wp_file_sect s x); [done|done|done|lia|]. intros s1 x1 a addr R1 B Hi1 Hb1 Hind. rewrite Hcost in Hb1.
  pose proof (tight_step x (d_addrs din) off n1 Hoff ltac:(lia) Hfit Hmax' T x1 a addr B Hind) as T1.
  destruct (good_range s1 x1 addr R1 (bp_good _ _ _ _ _ _ _ B)) as (Ha1&Ha2&Ha3&Ha4).
  wp_step. eapply wp_rsect; [exact R1|done|done|]. intros Hlen.
  assert (off - off / 512 * 512 = off mod 512) as -> by dlia.
  assert (length (splice (Z.to_nat (off mod 512)) (take (Z.to_nat n1) p) (x_view x1 !!! addr)) = BSIZE) as Hls.
  { pose proof (Z.mod_pos_bound off 512 ltac:(lia)). rewrite length_splice; [done|]. rewrite Hlen. change BSIZE with 512%nat. lia. }
  wp_step. eapply wp_wsect; [exact R1|done|done|done|]. intros s2 R2 Hb2 Hi2.
  assert (write_post mkfs_sb x (d_addrs din) off (take (Z.to_nat n1) p)
    (x_put addr (splice (Z.to_nat (off mod 512)) (take (Z.to_nat n1) p) (x_view x1 !!! addr)) x1) a) as W1.
  { apply write_post_block; try done; rewrite ?Hlt; try done; try (change MAXBYTES with 71680; lia). by eapply mrel_image. }
  set (x2 := x_put addr _ x1) in *. rewrite u32_small by lia.
  assert (addr ≠ a !!! NDIRECT) as Hni.
  { intros E. apply (mo_ind_ne _ _ _ (bp_map _ _ _ _ _ _ _ B) bn Hbn); [rewrite <- E; lia|]. by rewrite (bp_addr _ _ _ _ _ _ _ B). }
  assert (tight (x_view x2) a (off + n1)) as T2.
  { destruct T1 as [T11 T12]. split; [|done]. intros b Hb. rewrite <- T11 by done. unfold x2. rewrite (addr_of_ext (x_view x1)); [done|].
    intros _. apply lookup_total_insert_ne. done. }
  apply (IH s2 x2); rewrite ?d_addrs_set, ?Hld; try done; try lia.
  - apply W1.
  - change MAXBYTES with 71680. lia.
  - replace (off + n1 + (Z.of_nat (length p) - n1)) with (off + Z.of_nat (length p)) by lia. lia.
  - intros s' x' a' R' W' T' Hi' Hb'. replace (off + n1 + (Z.of_nat (length p) - n1)) with (off + Z.of_nat (length p)) in * by lia.
    apply (HQ s' x' a'); [done| |done|congruence|lia]. rewrite <- (take_drop (Z.to_nat n1) p).
    eapply write_post_trans; [done|exact W1|]. by rewrite Hlt.
Qed.
End append.

(** ** The files of the image *)

(** Block [c] belongs to the file. *)
Definition in_file (v : gmap Z block) (addrs : list Z) (c : Z) : Prop :=
  c ≠ 0 ∧ (c = addrs !!! NDIRECT ∨ ∃ bn, (bn < MAXFILE)%nat ∧ addr_of v addrs bn = c).

(** A file with the given contents, followed by zeroes in its last block. *)
Record file_ok (v : gmap Z block) (addrs data : list Z) : Prop := {
  fo_map : map_ok mkfs_sb v addrs;
  fo_tight : tight v addrs (Z.of_nat (length data));
  fo_bytes o : 0 ≤ o < MAXBYTES → addr_of v addrs (Z.to_nat (o / 512)) ≠ 0 → file_byte v addrs o = nth (Z.to_nat o) data 0;
  fo_max : Z.of_nat (length data) ≤ MAXBYTES
}.

(** The blocks of the files in the list. *)
Definition total_blocks (l : list (Z * list Z)) : Z := foldr (λ f n, nblk (Z.of_nat (length f.2)) + n) 0 l.

(** The inode of file [k] of the list. *)
Definition inode_at (v : gmap Z block) (k : nat) : dinode := disk_inode mkfs_sb v (Z.of_nat k + 1).

Record mk_rep (s : mkst) (x : txst) (l : list (Z * list Z)) : Prop := {
  mk_rel : mrel s x;
  mk_next : mk_inode s = Z.of_nat (length l) + 1;
  mk_few : (length l ≤ 199)%nat;
  mk_total : mk_block s = 59 + total_blocks l;
  mk_log : x_view x !! 2 = Some zero_block;
  mk_file k f : l !! k = Some f → short f.1 ∧
    inode_at (x_view x) k = mkdinode f.1 0 0 1 (Z.of_nat (length f.2)) (d_addrs (inode_at (x_view x) k)) ∧
    file_ok (x_view x) (d_addrs (inode_at (x_view x) k)) f.2;
  mk_disjoint k k' c : (k < length l)%nat → (k' < length l)%nat → k ≠ k' →
    in_file (x_view x) (d_addrs (inode_at (x_view x) k)) c → ¬ in_file (x_view x) (d_addrs (inode_at (x_view x) k')) c
}.

Section files.
Implicit Types (s : mkst) (x : txst) (l : list (Z * list Z)).

Lemma in_file_good v addrs c : map_ok mkfs_sb v addrs → in_file v addrs c → good mkfs_sb v c.
Proof. intros Ho [Hnz [->|(bn&Hbn&<-)]]; [by apply Ho|by apply Ho]. Qed.

(** A file stays when its blocks do. *)
Lemma keep_addr v v' addrs bn : (∀ c, in_file v addrs c → v' !!! c = v !!! c) → addr_of v' addrs bn = addr_of v addrs bn.
Proof. intros Hk. apply addr_of_ext. intros Hnz. apply Hk. split; [done|]. by left. Qed.

Lemma keep_file v v' addrs data : (∀ c, in_file v addrs c → v' !!! c = v !!! c) → (∀ c, good mkfs_sb v c → good mkfs_sb v' c) →
  file_ok v addrs data → file_ok v' addrs data.
Proof.
  intros Hk Hg [M T B Hm]. assert (∀ bn, addr_of v' addrs bn = addr_of v addrs bn) as Ea by (intros; by apply keep_addr). split; [| | |done].
  - eapply map_ok_ext; [exact M| |done]. intros Hnz. apply Hk. split; [done|]. by left.
  - destruct T as [T1 T2]. split; [|done]. intros bn Hbn. rewrite Ea. by apply T1.
  - intros o Ho Hnz. rewrite Ea in Hnz. rewrite <- (B o Ho Hnz). unfold file_byte. rewrite Ea. f_equal. apply Hk. split; [done|]. right.
    exists (Z.to_nat (o / 512)). split; [|done]. change MAXBYTES with 71680 in Ho. change MAXFILE with 140%nat. dlia.
Qed.

Lemma keep_in_file v v' addrs c : (∀ c, in_file v addrs c → v' !!! c = v !!! c) → in_file v' addrs c ↔ in_file v addrs c.
Proof.
  intros Hk. unfold in_file. assert (∀ bn, addr_of v' addrs bn = addr_of v addrs bn) as Ea by (intros; by apply keep_addr).
  split; intros [Hnz Hc]; (split; [done|]); destruct Hc as [?|(bn&Hbn&E)]; [by left| |by left|]; right; exists bn; (split; [done|]); by rewrite <- E, Ea.
Qed.

Lemma total_blocks_nonneg l : 0 ≤ total_blocks l.
Proof.
  induction l as [|f l IH]; [done|]. simpl. unfold nblk. pose proof (Z.div_pos (Z.of_nat (length f.2) + 511) 512). destruct (_ <? _); lia.
Qed.

Lemma total_blocks_app l l' : total_blocks (l ++ l') = total_blocks l + total_blocks l'.
Proof. induction l as [|f l IH]; simpl; [done|lia]. Qed.

Lemma total_blocks_insert l k f f' : l !! k = Some f →
  total_blocks (<[k:=f']> l) = total_blocks l + nblk (Z.of_nat (length f'.2)) - nblk (Z.of_nat (length f.2)).
Proof.
  revert k. induction l as [|g l IH]; intros [|k] E; simplify_eq/=; [lia|]. rewrite (IH k E). lia.
Qed.

(** ** Inodes *)

Lemma inode_block inum : 0 ≤ inum < 200 → 32 ≤ IBLOCK inum mkfs_sb < 58.
Proof. intros Hi. unfold IBLOCK. change IPB with 8. change (sb_inodestart mkfs_sb) with 32. dlia. Qed.

Lemma wp_rinode s x inum (Q : dinode → mkst → Prop) : mrel s x → 0 ≤ inum < 200 → Q (disk_inode mkfs_sb (x_view x) inum) s → wp (rinode inum) Q s.
Proof.
  intros R Hi HQ. unfold rinode. pose proof (inode_block inum Hi). wp_step. eapply wp_rsect; [done|lia|lia|]. intros Hl. by wp_step.
Qed.

Lemma wp_winode s x inum di (Q : unit → mkst → Prop) : mrel s x → 0 ≤ inum < 200 → dinode_ok di →
  (∀ s', mrel s' (put_inode mkfs_sb inum di x) → mk_block s' = mk_block s → mk_inode s' = mk_inode s → Q tt s') → wp (winode inum di) Q s.
Proof.
  intros R Hi Hd HQ. unfold winode. pose proof (inode_block inum Hi). pose proof (mv_range _ _ R). wp_step. eapply wp_rsect; [done|lia|lia|]. intros Hl.
  eapply wp_wsect; [done| |lia|lia|]; [apply length_put_dinode; [done|apply islot_lt|done]|]. intros s' R' Hb Hn. by apply HQ.
Qed.

Lemma inode_put x inum di k : image_ok mkfs_sb (x_view x) → 0 ≤ inum < 200 → dinode_ok di →
  inode_at (x_view (put_inode mkfs_sb inum di x)) k = if decide (inum = Z.of_nat k + 1) then di else inode_at (x_view x) k.
Proof. intros Im Hi Hd. unfold inode_at. apply disk_inode_put; [apply mkfs_geom|done|done|lia|done]. Qed.

Lemma put_inode_data x inum di c : 0 ≤ inum < 200 → 59 ≤ c → x_view (put_inode mkfs_sb inum di x) !!! c = x_view x !!! c.
Proof. intros Hi Hc. pose proof (inode_block inum Hi). unfold put_inode. cbn [x_view x_put]. apply lookup_total_insert_ne. lia. Qed.

(** Writing inodes keeps the files. *)
Lemma put_inode_keeps s x inum di s' addrs : mrel s x → mrel s' (put_inode mkfs_sb inum di x) → mk_block s' = mk_block s → 0 ≤ inum < 200 →
  map_ok mkfs_sb (x_view x) addrs →
  (∀ data, file_ok (x_view x) addrs data → file_ok (x_view (put_inode mkfs_sb inum di x)) addrs data) ∧
  (∀ c, in_file (x_view (put_inode mkfs_sb inum di x)) addrs c ↔ in_file (x_view x) addrs c).
Proof.
  intros R R' Hb Hi Ho. assert (∀ c, in_file (x_view x) addrs c → x_view (put_inode mkfs_sb inum di x) !!! c = x_view x !!! c) as Hk.
  { intros c Hc. apply (in_file_good _ _ _ Ho) in Hc. destruct (good_range s x c R Hc). apply put_inode_data; [done|lia]. }
  split; [|intros c; by apply keep_in_file]. intros data. apply keep_file; [done|].
  intros c Hc. apply (mrel_good s') ; [done|]. rewrite Hb. by apply (mrel_good s x).
Qed.
End files.

(** ** Operations on the list of files *)

Section ops.
Implicit Types (s : mkst) (x : txst) (l : list (Z * list Z)).

Lemma nth_total (p : list Z) i : (i < length p)%nat → p !!! i = nth i p 0.
Proof. intros Hi. apply lookup_lt_is_Some_2 in Hi as [c Hc]. rewrite (list_lookup_total_correct _ _ _ Hc). symmetry. by apply nth_lookup_Some. Qed.

(** The file that was written. *)
Lemma write_file_ok x addrs data p x' a : file_ok (x_view x) addrs data →
  write_post mkfs_sb x addrs (Z.of_nat (length data)) p x' a → Z.of_nat (length data) + Z.of_nat (length p) ≤ MAXBYTES →
  tight (x_view x') a (Z.of_nat (length data) + Z.of_nat (length p)) → file_ok (x_view x') a (data ++ p).
Proof.
  intros [M T B Hm] W Hmax T'. rewrite <- Nat2Z.inj_add, <- length_app in *. split; [apply W|done| |done].
  intros o Ho Hnz. rewrite (wr_bytes _ _ _ _ _ _ _ W) by done. case_decide as Hr.
  - rewrite nth_total by lia. rewrite app_nth2 by lia. f_equal. lia.
  - assert (nth (Z.to_nat o) (data ++ p) 0 = nth (Z.to_nat o) data 0) as ->.
    { destruct (decide (o < Z.of_nat (length data))); [by rewrite app_nth1 by lia|]. rewrite !nth_overflow; rewrite ?length_app; lia. }
    case_decide as Hz; [|by apply B]. symmetry. apply nth_overflow. destruct (decide (o < Z.of_nat (length data))); [|lia].
    destruct T as [T1 _]. exfalso. revert Hz. apply T1; [change MAXBYTES with 71680 in Ho; change MAXFILE with 140%nat; dlia|dlia].
Qed.

(** The blocks of the written file are its old ones or were free. *)
Lemma write_in_file x addrs off p x' a c : write_post mkfs_sb x addrs off p x' a → in_file (x_view x') a c →
  in_file (x_view x) addrs c ∨ ¬ good mkfs_sb (x_view x) c.
Proof.
  intros W [Hnz [->|(bn&Hbn&<-)]].
  - destruct (wr_ind _ _ _ _ _ _ _ W) as [E|[_ ?]]; [|by right]. left. rewrite <- E in *. split; [done|]. by left.
  - destruct (decide (addr_of (x_view x) addrs bn = 0)) as [E|E]; [right; by apply (wr_new _ _ _ _ _ _ _ W)|].
    left. rewrite (wr_old _ _ _ _ _ _ _ W) in * by done. split; [done|]. right. by exists bn.
Qed.

Lemma inode_at_other x x' k : (∀ c, 0 ≤ c < 58 → x_view x' !! c = x_view x !! c) → (k < 199)%nat → inode_at (x_view x') k = inode_at (x_view x) k.
Proof. intros Hv Hk. apply disk_inode_same; [done|apply mkfs_geom|]. change (sb_ninodes mkfs_sb) with 200. lia. Qed.

Lemma file_dinode v addrs f : file_ok v addrs f.2 → short f.1 → dinode_ok (mkdinode f.1 0 0 1 (Z.of_nat (length f.2)) addrs).
Proof.
  intros F Hs. pose proof (fo_max _ _ _ F) as Hm. change MAXBYTES with 71680 in Hm. split; cbn; unfold short, uint in *; try lia.
  - exact (map_ok_uint _ _ _ mkfs_geom (fo_map _ _ _ F)).
  - apply F.
Qed.

(** The image after [iappend]: the loop changed [x] to [x1], and the inode was
    written. *)
Section write.
Context s x l (k : nat) (f : Z * list Z) (p : list Z) s1 x1 (a : list Z) s2 (M : mk_rep s x l) (Hk : l !! k = Some f).
Context (R1 : mrel s1 x1) (W : write_post mkfs_sb x (d_addrs (inode_at (x_view x) k)) (Z.of_nat (length f.2)) p x1 a).
Context (F1 : file_ok (x_view x1) a (f.2 ++ p)) (Hb2 : mk_block s2 = mk_block s1).
Let di := mkdinode f.1 0 0 1 (Z.of_nat (length (f.2 ++ p))) a.
Let x2 := put_inode mkfs_sb (Z.of_nat k + 1) di x1.
Context (R2 : mrel s2 x2).

Lemma write_inum : 0 ≤ Z.of_nat k + 1 < 200.
Proof using M Hk. pose proof (lookup_lt_Some _ _ _ Hk). pose proof (mk_few _ _ _ M). lia. Qed.

Lemma write_inode j : (j < length l)%nat → inode_at (x_view x2) j = if decide (j = k) then di else inode_at (x_view x) j.
Proof using M Hk R1 W F1.
  intros Hj. pose proof (mk_few _ _ _ M). destruct (mk_file _ _ _ M k f Hk) as (Hs&_&_). unfold x2.
  rewrite inode_put; [|by eapply mrel_image|apply write_inum|by apply (file_dinode _ a (f.1, f.2 ++ p) F1)].
  destruct (decide (j = k)) as [->|]; [by rewrite decide_True|]. rewrite decide_False by lia. apply inode_at_other; [apply W|lia].
Qed.

(** The other files keep their blocks and their contents. *)
Lemma write_other j g : l !! j = Some g → j ≠ k → file_ok (x_view x2) (d_addrs (inode_at (x_view x) j)) g.2 ∧
  ∀ c, in_file (x_view x2) (d_addrs (inode_at (x_view x) j)) c ↔ in_file (x_view x) (d_addrs (inode_at (x_view x) j)) c.
Proof using M Hk R1 W Hb2 R2.
  intros Hj Hne. destruct (mk_file _ _ _ M j g Hj) as (_&_&Fj). pose proof (lookup_lt_Some _ _ _ Hj). pose proof (lookup_lt_Some _ _ _ Hk).
  assert (∀ c, in_file (x_view x) (d_addrs (inode_at (x_view x) j)) c → x_view x1 !!! c = x_view x !!! c) as Hkeep.
  { intros c Hc. pose proof (mk_disjoint _ _ _ M j k c ltac:(lia) ltac:(lia) Hne Hc) as Hn. apply W.
    - by apply (in_file_good _ _ _ (fo_map _ _ _ Fj)).
    - intros ->. apply Hn. split; [apply Hc|]. by left.
    - intros bn Hbn E. apply Hn. split; [apply Hc|]. right. by exists bn. }
  pose proof (keep_file _ _ _ _ Hkeep (wr_used _ _ _ _ _ _ _ W) Fj) as Fj1.
  destruct (put_inode_keeps s1 x1 _ di s2 _ R1 R2 Hb2 write_inum (fo_map _ _ _ Fj1)) as [K1 K2]. split; [by apply K1|].
  intros c. unfold x2. rewrite K2. by apply keep_in_file.
Qed.

Lemma write_self : file_ok (x_view x2) a (f.2 ++ p) ∧ ∀ j g c, l !! j = Some g → j ≠ k →
  in_file (x_view x2) a c → ¬ in_file (x_view x) (d_addrs (inode_at (x_view x) j)) c.
Proof using M Hk R1 W F1 Hb2 R2.
  destruct (put_inode_keeps s1 x1 _ di s2 _ R1 R2 Hb2 write_inum (fo_map _ _ _ F1)) as [K1 K2]. split; [by apply K1|].
  intros j g c Hj Hne Hc Hcj. apply K2 in Hc. pose proof (lookup_lt_Some _ _ _ Hj). pose proof (lookup_lt_Some _ _ _ Hk).
  destruct (mk_file _ _ _ M j g Hj) as (_&_&Fj). destruct (write_in_file _ _ _ _ _ _ _ W Hc) as [Hc'|Hc'].
  - by apply (mk_disjoint _ _ _ M j k c ltac:(lia) ltac:(lia) Hne Hcj).
  - apply Hc'. by apply (in_file_good _ _ _ (fo_map _ _ _ Fj)).
Qed.

Lemma mk_rep_write : mk_inode s2 = mk_inode s →
  mk_block s1 = mk_block s + nblk (Z.of_nat (length f.2) + Z.of_nat (length p)) - nblk (Z.of_nat (length f.2)) →
  mk_rep s2 x2 (<[k:=(f.1, f.2 ++ p)]> l).
Proof using M Hk R1 W F1 Hb2 R2.
  intros Hi Hb. pose proof (lookup_lt_Some _ _ _ Hk) as Hlt. destruct write_self as [S1 S2]. destruct (mk_file _ _ _ M k f Hk) as (Hs&_&_).
  assert (∀ j, (j < length l)%nat → ∃ g, l !! j = Some g) as Hget by (intros j ?; by apply lookup_lt_is_Some_2).
  split; rewrite ?length_insert; try done.
  - rewrite Hi. apply M.
  - apply M.
  - rewrite Hb2, Hb, (mk_total _ _ _ M), (total_blocks_insert _ _ _ _ Hk). cbn [snd]. rewrite length_app, Nat2Z.inj_add. lia.
  - pose proof (inode_block _ write_inum). unfold x2, put_inode. cbn [x_view x_put]. rewrite lookup_insert_ne by lia.
    rewrite (wr_meta _ _ _ _ _ _ _ W) by (change (sb_bmapstart mkfs_sb) with 58; lia). apply M.
  - intros j g Hj. pose proof (lookup_lt_Some _ _ _ Hj) as Hjl. rewrite length_insert in Hjl. rewrite write_inode by done. case_decide as E.
    + subst j. rewrite list_lookup_insert_eq in Hj by done. by simplify_eq/=.
    + rewrite list_lookup_insert_ne in Hj by done. destruct (mk_file _ _ _ M j g Hj) as (?&?&_). split_and!; [done..|]. by apply write_other.
  - intros j j' c Hj Hj' Hne. destruct (Hget j Hj) as [g Hg], (Hget j' Hj') as [g' Hg']. rewrite !write_inode by done.
    repeat case_decide; subst; try done; cbn [di d_addrs].
    + intros Hc Hc'. apply (write_other j' g') in Hc'; [|done..]. by apply (S2 j' g' c).
    + intros Hc Hc'. apply (write_other j g) in Hc; [|done..]. by apply (S2 j g c).
    + intros Hc Hc'. apply (write_other j g) in Hc; [|done..]. apply (write_other j' g') in Hc'; [|done..]. by apply (mk_disjoint _ _ _ M j j' c).
Qed.
End write.

Lemma wp_iappend s x l k f p (Q : unit → mkst → Prop) : mk_rep s x l → l !! k = Some f →
  Z.of_nat (length (f.2 ++ p)) ≤ MAXBYTES → total_blocks (<[k:=(f.1, f.2 ++ p)]> l) ≤ 941 →
  (∀ s' x', mk_rep s' x' (<[k:=(f.1, f.2 ++ p)]> l) → Q tt s') → wp (iappend (Z.of_nat k + 1) p) Q s.
Proof.
  intros M Hk Hmax Htot HQ. pose proof M as [R Hnext Hfew Htotal Hlog Hfile Hdisj]. pose proof (lookup_lt_Some _ _ _ Hk) as Hlt.
  destruct (Hfile k f Hk) as (Hs&Ein&F).
  rewrite (total_blocks_insert _ _ _ _ Hk) in Htot. cbn [snd] in Htot. rewrite length_app, Nat2Z.inj_add in Hmax, Htot.
  unfold iappend. wp_step. apply (wp_rinode _ x); [done|lia|]. fold (inode_at (x_view x) k). rewrite Ein. cbn [d_size]. wp_step.
  apply (wp_iappend_loop _ s x); cbn [d_addrs]; try apply F; try done; [lia..|].
  intros s1 x1 a R1 W T1 Hi1 Hb1.
  change (wp (winode (Z.of_nat k + 1) (mkdinode f.1 0 0 1 (Z.of_nat (length f.2) + Z.of_nat (length p)) a)) Q s1).
  pose proof (write_file_ok _ _ _ _ _ _ F W Hmax T1) as F1. rewrite <- Nat2Z.inj_add, <- length_app.
  apply (wp_winode _ x1); [done|lia|by apply (file_dinode (x_view x1) a (f.1, f.2 ++ p))|]. intros s2 R2 Hb2 Hi2.
  eapply (HQ s2), (mk_rep_write s x l k f p s1 x1 a s2); done || congruence.
Qed.

(** [ialloc] adds an empty file. *)
Lemma no_addr v bn : addr_of v (replicate (NDIRECT + 1) 0) bn = 0.
Proof. unfold addr_of. destruct (Nat.ltb_spec bn NDIRECT); [apply lookup_total_replicate_2; lia|done]. Qed.

Lemma empty_file_ok v : file_ok v (replicate (NDIRECT + 1) 0) [].
Proof.
  assert (∀ bn, addr_of v (replicate (NDIRECT + 1) 0) bn = 0) as E by apply no_addr.
  split; [split|split| |done]; try done; intros; rewrite ?E in *; try done. split; [done|cbn; lia].
Qed.

Lemma empty_in_file v c : ¬ in_file v (replicate (NDIRECT + 1) 0) c.
Proof. intros [Hc [->|(bn&_&<-)]]; [done|]. by rewrite no_addr in Hc. Qed.

Lemma mk_rep_new s x l ty s2 : let di := mkdinode ty 0 0 1 0 (replicate (NDIRECT + 1) 0) in
  mk_rep s x l → (length l < 199)%nat → short ty → mrel s2 (put_inode mkfs_sb (Z.of_nat (length l) + 1) di x) →
  mk_block s2 = mk_block s → mk_inode s2 = Z.of_nat (length l) + 2 →
  mk_rep s2 (put_inode mkfs_sb (Z.of_nat (length l) + 1) di x) (l ++ [(ty, [])]).
Proof.
  intros di M Hl Hs R2 Hb Hn. pose proof M as [R Hnext Hfew Htotal Hlog Hfile Hdisj].
  assert (dinode_ok di) as Hdi by (apply (file_dinode ∅ _ (ty, []) (empty_file_ok ∅) Hs)).
  assert (0 ≤ Z.of_nat (length l) + 1 < 200) as Hi by lia. pose proof (inode_block _ Hi) as Hib.
  assert (∀ j, (j ≤ length l)%nat → inode_at (x_view (put_inode mkfs_sb (Z.of_nat (length l) + 1) di x)) j =
    if decide (j = length l) then di else inode_at (x_view x) j) as Ein.
  { intros j Hj. rewrite inode_put by (done || by eapply mrel_image). destruct (decide (j = length l)) as [->|]; [by rewrite decide_True|].
    by rewrite decide_False by lia. }
  assert (∀ j, (j < length l)%nat → ∃ g, l !! j = Some g) as Hget by (intros j ?; by apply lookup_lt_is_Some_2).
  pose proof (λ j g (Hj : l !! j = Some g), put_inode_keeps s x _ di s2 _ R R2 Hb Hi (fo_map _ _ _ (proj2 (proj2 (Hfile j g Hj))))) as Koth.
  split; try done; rewrite ?length_app; cbn [length]; try lia.
  - rewrite total_blocks_app. change (total_blocks [(ty, [])]) with 0. lia.
  - unfold put_inode. cbn [x_view x_put]. by rewrite lookup_insert_ne by lia.
  - intros j g Hj. destruct (decide (j = length l)) as [->|Hne].
    + rewrite lookup_app_r, Nat.sub_diag in Hj by lia. injection Hj as <-. rewrite Ein, decide_True by done. split_and!; [done..|]. apply empty_file_ok.
    + pose proof (lookup_lt_Some _ _ _ Hj) as Hjl. rewrite length_app in Hjl. cbn [length] in Hjl. rewrite lookup_app_l in Hj by lia.
      rewrite Ein, decide_False by (done || lia). destruct (Hfile j g Hj) as (?&?&?). split_and!; [done..|]. by apply (Koth j g Hj).
  - intros j j' c Hj Hj' Hne. rewrite !Ein by lia. repeat case_decide; subst; cbn [di d_addrs].
    + intros []%empty_in_file.
    + intros []%empty_in_file.
    + intros _. apply empty_in_file.
    + destruct (Hget j ltac:(lia)) as [g Hg], (Hget j' ltac:(lia)) as [g' Hg']. rewrite (proj2 (Koth j g Hg)), (proj2 (Koth j' g' Hg')). apply Hdisj; lia.
Qed.

Lemma wp_ialloc s x l ty (Q : Z → mkst → Prop) : mk_rep s x l → (length l < 199)%nat → short ty →
  (∀ s' x', mk_rep s' x' (l ++ [(ty, [])]) → Q (Z.of_nat (length l) + 1) s') → wp (mk_ialloc ty) Q s.
Proof.
  intros M Hl Hs HQ. pose proof (mk_rel _ _ _ M) as R. unfold mk_ialloc, new_inode. wp_steps. unfold id. rewrite (mk_next _ _ _ M).
  eapply (wp_winode _ x); [by destruct R|lia|apply (file_dinode ∅ _ (ty, []) (empty_file_ok ∅) Hs)|]. intros s2 R2 Hb2 Hi2. wp_steps. eapply (HQ s2), mk_rep_new; try done.
  rewrite Hi2. cbn [mk_inode]. rewrite u32_small; lia.
Qed.
End ops.
