(* ===== verification/MkfsImage.v ===== *)
(** * The image mkfs makes, and the kernel on it

    The finished image holds the files of the command line under their names,
    and the kernel's [dirlookup] and [readi] find them there. *)

From S2P Require Import Prelude Params Block Sleeplock Bio BioSpec Format Log LogSpec.
From S2P Require Import Str Tx Fs FsSpec FsData FsWrite FsFile FsStack FsDir Mkfs MkfsSpec.

(** ** The files of a command line *)

(** A file that can be opened: its name and what the reads return. *)
Abbreviation source := (list Z * list (list Z))%type.
Definition opened (f : source) : list Z * option (list (list Z)) := (f.1, Some f.2).

Definition dir_list (fs : list source) : list dirent :=
  mkdirent 1 (strncpy (replicate DIRSIZ 0) [46] DIRSIZ) :: mkdirent 1 (strncpy (replicate DIRSIZ 0) [46; 46] DIRSIZ) ::
  imap (λ k f, mkdirent (u16 (Z.of_nat k + 2)) (strncpy (replicate DIRSIZ 0) (skip_underscore f.1) DIRSIZ)) fs.
Definition dir_bytes (fs : list source) : list Z := concat (encode_dirent <$> dir_list fs).
Definition file_data (f : source) : Z * list Z := (T_FILE, concat f.2).
Definition img_list (fs : list source) : list (Z * list Z) := (T_DIR, dir_bytes fs) :: (file_data <$> fs).

Lemma dir_list_snoc fs f : dir_list (fs ++ [f]) =
  dir_list fs ++ [mkdirent (u16 (Z.of_nat (length fs) + 2)) (strncpy (replicate DIRSIZ 0) (skip_underscore f.1) DIRSIZ)].
Proof. unfold dir_list. rewrite imap_app. cbn [imap app]. by rewrite Nat.add_0_r. Qed.

Lemma dir_bytes_snoc fs f : dir_bytes (fs ++ [f]) = dir_bytes fs ++ de_bytes (Z.of_nat (length fs) + 2) (skip_underscore f.1).
Proof. unfold dir_bytes, de_bytes. rewrite dir_list_snoc, fmap_app, concat_app. cbn [fmap list_fmap concat]. by rewrite app_nil_r. Qed.

(** ** Parts of the image *)

(** Every file of [l] is the beginning of the file of [F]. *)
Definition part (l F : list (Z * list Z)) : Prop :=
  ∀ k f, l !! k = Some f → ∃ g, F !! k = Some g ∧ f.1 = g.1 ∧ f.2 `prefix_of` g.2.

Lemma part_cons f l F : part (f :: l) F → ∃ g F', F = g :: F' ∧ f.2 `prefix_of` g.2 ∧ part l F'.
Proof.
  intros P. destruct (P 0%nat f eq_refl) as (g&Hg&_&Hp). destruct F as [|g' F']; [done|]. injection Hg as ->.
  exists g, F'. split_and!; [done|done|]. intros k h Hk. apply (P (S k) h Hk).
Qed.

Lemma part_total l : ∀ F, part l F → total_blocks l ≤ total_blocks F.
Proof.
  induction l as [|f l IH]; intros F P; [apply total_blocks_nonneg|]. destruct (part_cons _ _ _ P) as (g&F'&->&Hp&P').
  apply prefix_length in Hp. pose proof (nblk_mono (Z.of_nat (length f.2)) (Z.of_nat (length g.2)) ltac:(lia)).
  specialize (IH F' P'). simpl. lia.
Qed.

Lemma part_insert l F k t d p : part (<[k:=(t, d ++ p)]> l) F → part (<[k:=(t, d)]> l) F.
Proof.
  intros P j f Hj. destruct (decide (j = k)) as [->|Hne].
  - pose proof (lookup_lt_Some _ _ _ Hj) as Hlt. rewrite length_insert in Hlt. rewrite list_lookup_insert_eq in Hj by done. injection Hj as <-.
    destruct (P k (t, d ++ p)) as (g&Hg&E&Hp); [by apply list_lookup_insert_eq|]. exists g. split_and!; [done..|].
    cbn [snd] in *. by eapply prefix_app_l.
  - rewrite list_lookup_insert_ne in Hj by done. apply P. by rewrite list_lookup_insert_ne.
Qed.

Section image.
Context (F : list (Z * list Z)).
Context (Htotal : total_blocks F ≤ 941) (Hsize : ∀ k g, F !! k = Some g → Z.of_nat (length g.2) ≤ MAXBYTES).
Implicit Types (s : mkst) (x : txst) (l : list (Z * list Z)).

Lemma wp_append_part s x l k f p (Q : unit → mkst → Prop) : mk_rep s x l → l !! k = Some f →
  part (<[k:=(f.1, f.2 ++ p)]> l) F →
  (∀ s' x', mk_rep s' x' (<[k:=(f.1, f.2 ++ p)]> l) → Q tt s') → wp (iappend (Z.of_nat k + 1) p) Q s.
Proof using Htotal Hsize.
  intros M Hk P HQ. pose proof (lookup_lt_Some _ _ _ Hk) as Hlt. eapply (wp_iappend s x l k f p); try done.
  - destruct (P k (f.1, f.2 ++ p)) as (g&Hg&_&Hp%prefix_length); [by apply list_lookup_insert_eq|]. specialize (Hsize k g Hg). cbn [snd] in Hp. lia.
  - pose proof (part_total _ _ P). lia.
Qed.

Lemma wp_append_all chunks : ∀ s x l k f (Q : unit → mkst → Prop), mk_rep s x l → l !! k = Some f →
  part (<[k:=(f.1, f.2 ++ concat chunks)]> l) F →
  (∀ s' x', mk_rep s' x' (<[k:=(f.1, f.2 ++ concat chunks)]> l) → Q tt s') → wp (append_all (Z.of_nat k + 1) chunks) Q s.
Proof using Htotal Hsize.
  induction chunks as [|c chunks IH]; intros s x l k f Q M Hk P HQ; cbn [append_all concat] in *.
  - wp_step. apply (HQ s x). rewrite app_nil_r. by rewrite list_insert_id by (by destruct f).
  - pose proof (lookup_lt_Some _ _ _ Hk) as Hlt. rewrite app_assoc in *. wp_step.
    apply (wp_append_part s x l k f c); [done|done|by eapply part_insert|]. intros s1 x1 M1.
    assert (∀ d, <[k:=(f.1, d)]> (<[k:=(f.1, f.2 ++ c)]> l) = <[k:=(f.1, d)]> l) as E by (intros; apply list_insert_insert_eq).
    apply (IH s1 x1 (<[k:=(f.1, f.2 ++ c)]> l) k (f.1, f.2 ++ c)); cbn [fst snd]; rewrite ?E; try done. by apply list_lookup_insert_eq.
Qed.

(** One file of the command line. *)
Lemma wp_add_file s x pre f rest (Q : unit → mkst → Prop) : F = img_list (pre ++ f :: rest) → (length pre < 198)%nat →
  mk_rep s x (img_list pre) → 47 ∉ f.1 → (∀ s' x', mk_rep s' x' (img_list (pre ++ [f])) → Q tt s') →
  wp (add_file ROOTINO (opened f)) Q s.
Proof using Htotal Hsize.
  intros HF Hn M Hname HQ. unfold add_file, opened, assert. cbn [fst snd].
  assert (forallb (λ c, negb (c =? 47)) f.1 = true) as ->.
  { apply forallb_forall. intros c Hc%list_elem_of_In. apply negb_true_iff, Z.eqb_neq. by intros ->. }
  assert (length (img_list pre) = S (length pre)) as Hlen by (unfold img_list; cbn; by rewrite length_fmap).
  wp_step. wp_step. wp_step. eapply (wp_ialloc s x); [done|lia|unfold short, T_FILE; lia|]. intros s1 x1 M1. rewrite Hlen.
  assert (∀ d1 d2, d1 `prefix_of` dir_bytes (pre ++ f :: rest) → d2 `prefix_of` concat f.2 →
    part ((T_DIR, d1) :: (file_data <$> pre) ++ [(T_FILE, d2)]) F) as HP.
  { intros d1 d2 P1 P2 [|k] g Hk; rewrite HF; cbn in Hk; [by simplify_eq; eexists|]. 
    change (∃ g0, (file_data <$> pre ++ f :: rest) !! k = Some g0 ∧ g.1 = g0.1 ∧ g.2 `prefix_of` g0.2). rewrite fmap_app.
    apply lookup_app_Some in Hk as [Hk|[Hge Hk]].
    - exists g. split; [|done]. by rewrite lookup_app_l by (by eapply lookup_lt_Some).
    - rewrite lookup_app_r by done. destruct (k - length (file_data <$> pre))%nat eqn:E; [|by destruct n]. cbn in *. simplify_eq. by eexists. }
  assert (dir_bytes (pre ++ [f]) `prefix_of` dir_bytes (pre ++ f :: rest)) as Hpre.
  { exists (concat (encode_dirent <$> imap (λ k g, mkdirent (u16 (Z.of_nat (length (pre ++ [f]) + k) + 2)) (strncpy (replicate DIRSIZ 0) (skip_underscore g.1) DIRSIZ)) rest)).
    unfold dir_bytes. rewrite <- concat_app, <- fmap_app. f_equal. f_equal. rewrite (cons_middle f pre rest), app_assoc. unfold dir_list. by rewrite imap_app. }
  wp_step. change ROOTINO with (Z.of_nat 0 + 1). change (img_list pre ++ [(T_FILE, [])]) with ((T_DIR, dir_bytes pre) :: (file_data <$> pre) ++ [(T_FILE, [])]) in M1.
  replace (Z.of_nat (S (length pre)) + 1) with (Z.of_nat (length pre) + 2) by lia.
  assert (∀ t : Z, (T_DIR, dir_bytes pre ++ de_bytes (Z.of_nat (length pre) + 2) (skip_underscore f.1)) = (T_DIR, dir_bytes (pre ++ [f]))) as Ed
    by (intros; by rewrite dir_bytes_snoc).
  eapply (wp_append_part s1 x1 _ 0 (T_DIR, dir_bytes pre)); [exact M1|done|cbn [fst snd]; rewrite (Ed 0); apply HP; [done|apply prefix_nil]|].
  cbn [fst snd]. rewrite (Ed 0). cbn [insert list_insert]. intros s2 x2 M2.
  replace (Z.of_nat (length pre) + 2) with (Z.of_nat (S (length pre)) + 1) by lia.
  assert (∀ d, <[S (length pre):=(T_FILE, d)]> ((T_DIR, dir_bytes (pre ++ [f])) :: (file_data <$> pre) ++ [(T_FILE, [])]) =
    (T_DIR, dir_bytes (pre ++ [f])) :: (file_data <$> pre) ++ [(T_FILE, d)]) as Ei.
  { intros d. change ((T_DIR, dir_bytes (pre ++ [f])) :: <[length pre:=(T_FILE, d)]> ((file_data <$> pre) ++ [(T_FILE, [])]) =
      (T_DIR, dir_bytes (pre ++ [f])) :: (file_data <$> pre) ++ [(T_FILE, d)]).
    rewrite insert_app_r_alt by (rewrite length_fmap; lia). rewrite length_fmap, Nat.sub_diag. done. }
  eapply (wp_append_all f.2 s2 x2 _ (S (length pre)) (T_FILE, [])); [exact M2| |cbn [fst snd app]; rewrite Ei; by apply HP|].
  - change (((file_data <$> pre) ++ [(T_FILE, [])]) !! length pre = Some (T_FILE, [])). rewrite lookup_app_r by (rewrite length_fmap; lia). by rewrite length_fmap, Nat.sub_diag.
  - cbn [fst snd app]. rewrite Ei. intros s3 x3 M3. apply (HQ s3 x3). unfold img_list. rewrite fmap_app. exact M3.
Qed.

Lemma wp_add_files rest : ∀ s x pre (Q : unit → mkst → Prop), F = img_list (pre ++ rest) → (length (pre ++ rest) ≤ 198)%nat →
  mk_rep s x (img_list pre) → Forall (λ f : source, 47 ∉ f.1) rest → (∀ s' x', mk_rep s' x' F → Q tt s') →
  wp (add_files ROOTINO (opened <$> rest)) Q s.
Proof using Htotal Hsize.
  induction rest as [|f rest IH]; intros s x pre Q HF Hn M Hnames HQ; cbn [fmap list_fmap add_files].
  - wp_step. apply (HQ s x). by rewrite HF, app_nil_r.
  - apply Forall_cons in Hnames as [Hf Hnames]. rewrite length_app in Hn. cbn [length] in Hn. wp_step.
    apply (wp_add_file s x pre f rest); [done|lia|done|done|]. intros s1 x1 M1. rewrite (cons_middle f pre rest), app_assoc in HF.
    apply (IH s1 x1 (pre ++ [f])); [done|rewrite !length_app; cbn; lia|done|done|done].
Qed.
End image.

(** ** The finished image *)

Definition root_inode (v : gmap Z block) : dinode := disk_inode mkfs_sb v ROOTINO.
Definition entries_of (v : gmap Z block) (di : dinode) : list dirent := dir_entry v (d_addrs di) <$> seq 0 (Z.to_nat (d_size di / 16)).
Definition free_entry : dirent := mkdirent 0 (replicate DIRSIZ 0).

(** The image of the files [fs]: the bitmap marks exactly the blocks in use, the
    log is empty, the root directory lists the files, each file has its
    contents, and no two of them share a block. *)
Record image_of (fs : list source) (v : gmap Z block) : Prop := {
  io_image : image_ok mkfs_sb v;
  io_used b : 0 ≤ b < FSSIZE → block_used mkfs_sb v b = (b <? nmeta + total_blocks (img_list fs));
  io_log : v !! sb_logstart mkfs_sb = Some zero_block;
  io_root : d_type (root_inode v) = T_DIR ∧ d_major (root_inode v) = 0 ∧ d_minor (root_inode v) = 0 ∧ d_nlink (root_inode v) = 1 ∧ map_ok mkfs_sb v (d_addrs (root_inode v)) ∧
    d_size (root_inode v) = (16 * (Z.of_nat (length fs) + 2) / 512 + 1) * 512;
  io_root_hole : mapped v (d_addrs (root_inode v)) (d_size (root_inode v)) ↔ (Z.of_nat (length fs) + 2) mod 32 ≠ 0;
  io_entries : (Z.of_nat (length fs) + 2) mod 32 ≠ 0 →
    entries_of v (root_inode v) = dir_list fs ++ replicate (Z.to_nat (d_size (root_inode v) / 16) - (length fs + 2)) free_entry;
  io_file k f : fs !! k = Some f → let di := disk_inode mkfs_sb v (Z.of_nat k + 2) in
    d_type di = T_FILE ∧ d_major di = 0 ∧ d_minor di = 0 ∧ d_nlink di = 1 ∧ d_size di = Z.of_nat (length (concat f.2)) ∧
    map_ok mkfs_sb v (d_addrs di) ∧ mapped v (d_addrs di) (d_size di) ∧
    ∀ o, 0 ≤ o < d_size di → file_byte v (d_addrs di) o = concat f.2 !!! Z.to_nat o;
  io_disjoint k k' c : (k < S (length fs))%nat → (k' < S (length fs))%nat → k ≠ k' →
    in_file v (d_addrs (inode_at v k)) c → ¬ in_file v (d_addrs (inode_at v k')) c
}.

Lemma nth_concat (l : list (list Z)) : ∀ k j, Forall (λ e, length e = 16%nat) l → (j < 16)%nat → nth (16 * k + j) (concat l) 0 = nth j (nth k l []) 0.
Proof.
  induction l as [|e l IH]; intros k j Hl Hj; [by destruct (16 * k + j)%nat, k, j|]. apply Forall_cons in Hl as [He Hl]. cbn [concat].
  destruct k as [|k]; [rewrite app_nth1 by lia; f_equal; lia|]. rewrite app_nth2 by lia.
  replace (16 * S k + j - length e)%nat with (16 * k + j)%nat by lia. by apply IH.
Qed.

Lemma dir_list_ok fs : Forall (λ de, length (de_name de) = DIRSIZ ∧ 0 ≤ de_inum de < 2 ^ 16) (dir_list fs).
Proof.
  repeat apply Forall_cons_2; [split; [by apply length_strncpy|cbn; lia]..|]. apply Forall_lookup. intros k de Hk. rewrite list_lookup_imap in Hk.
  destruct (fs !! k) as [g|]; [|done]. apply (inj Some) in Hk as <-. split; cbn [de_name de_inum]; [apply length_strncpy, length_replicate|]. unfold u16. apply Z.mod_pos_bound. lia.
Qed.

Lemma length_dir_list fs : length (dir_list fs) = (length fs + 2)%nat.
Proof. unfold dir_list. cbn [length]. rewrite length_imap. lia. Qed.

Lemma length_dir_bytes fs : length (dir_bytes fs) = (16 * (length fs + 2))%nat.
Proof.
  rewrite <- length_dir_list. unfold dir_bytes. pose proof (dir_list_ok fs) as H. induction (dir_list fs) as [|de l IH]; [done|].
  apply Forall_cons in H as [[Hn _] H]. cbn [fmap list_fmap concat length]. rewrite length_app, (length_encode_dirent _ Hn), IH by done. change DIRENT_SIZE with 16%nat. lia.
Qed.

(** The bytes of entry [k] of the root directory. *)
Lemma dir_bytes_entry fs k : decode_dirent ((λ j, nth (16 * k + j) (dir_bytes fs) 0) <$> seq 0 16) = default free_entry (dir_list fs !! k).
Proof.
  pose proof (dir_list_ok fs) as H. assert (Forall (λ e, length e = 16%nat) (encode_dirent <$> dir_list fs)) as H16.
  { apply Forall_fmap. eapply Forall_impl; [exact H|]. intros de [Hn _]. by apply length_encode_dirent. }
  assert ((λ j, nth (16 * k + j) (dir_bytes fs) 0) <$> seq 0 16 = (λ j, nth j (nth k (encode_dirent <$> dir_list fs) []) 0) <$> seq 0 16) as ->.
  { apply list_fmap_ext. intros i j Hj. apply lookup_seq in Hj as [-> ?]. by apply nth_concat. }
  destruct (dir_list fs !! k) as [de|] eqn:Hk; cbn [default from_option].
  - rewrite (nth_lookup_Some _ k [] (encode_dirent de)) by (by rewrite list_lookup_fmap, Hk). rewrite Forall_lookup in H. destruct (H k de Hk) as [Hn Hi].
    trans (decode_dirent (encode_dirent de)); [|by apply decode_encode_dirent]. f_equal. pose proof (length_encode_dirent de Hn) as Hl.
    change DIRENT_SIZE with 16%nat in Hl. apply list_eq. intros j. rewrite list_lookup_fmap. destruct (decide (j < 16)%nat) as [Hj|Hj].
    + rewrite lookup_seq_lt by done. cbn. destruct (encode_dirent de !! j) as [c|] eqn:Ec; [f_equal; by apply nth_lookup_Some|].
      apply lookup_ge_None in Ec. lia.
    + rewrite !lookup_ge_None_2; [done|lia|rewrite length_seq; lia].
  - rewrite nth_overflow by (rewrite length_fmap; by apply lookup_ge_None). done.
Qed.

Lemma entries_root fs v di : file_ok v (d_addrs di) (dir_bytes fs) → d_size di = (16 * (Z.of_nat (length fs) + 2) / 512 + 1) * 512 →
  mapped v (d_addrs di) (d_size di) → d_size di ≤ MAXBYTES →
  entries_of v di = dir_list fs ++ replicate (Z.to_nat (d_size di / 16) - (length fs + 2)) free_entry.
Proof.
  intros Fo Hsz Hm Hmax. change MAXBYTES with 71680 in Hmax. unfold entries_of.
  assert (∀ k, (k < Z.to_nat (d_size di / 16))%nat → dir_entry v (d_addrs di) k = default free_entry (dir_list fs !! k)) as He.
  { intros k Hk. rewrite <- dir_bytes_entry. unfold dir_entry. f_equal. apply list_fmap_ext. intros i j Hj. apply lookup_seq in Hj as [-> Hi]. cbn [Nat.add].
    rewrite (fo_bytes _ _ _ Fo); [f_equal; lia|change MAXBYTES with 71680; dlia|]. apply Hm. dlia. }
  apply list_eq. intros k. rewrite list_lookup_fmap. destruct (decide (k < Z.to_nat (d_size di / 16))%nat) as [Hk|Hk].
  - rewrite lookup_seq_lt by done. cbn [fmap option_fmap option_map Nat.add]. rewrite He by done. destruct (dir_list fs !! k) as [de|] eqn:E.
    + by rewrite (lookup_app_l_Some _ _ _ _ E).
    + apply lookup_ge_None in E as E'. rewrite lookup_app_r by done. rewrite length_dir_list in *. by rewrite lookup_replicate_2 by lia.
  - rewrite !lookup_ge_None_2; [done| |rewrite length_seq; lia]. rewrite length_app, length_replicate, length_dir_list. dlia.
Qed.

Section finish.
Context (fs : list source) (s : mkst) (x : txst) (s2 : mkst) (M : mk_rep s x (img_list fs)).
Let n : Z := 16 * (Z.of_nat (length fs) + 2).
Let di : dinode := set_d_size ((n / 512 + 1) * 512) (inode_at (x_view x) 0).
Let x2 : txst := put_inode mkfs_sb 1 di x.
Context (R2 : mrel s2 x2) (Hb : mk_block s2 = mk_block s).

Lemma finish_few : (length fs ≤ 198)%nat.
Proof using M. pose proof (mk_few _ _ _ M) as H. unfold img_list in H. cbn [length] in H. rewrite length_fmap in H. lia. Qed.

Lemma finish_root : file_ok (x_view x) (d_addrs di) (dir_bytes fs) ∧ dinode_ok di ∧ d_type di = T_DIR ∧ d_major di = 0 ∧ d_minor di = 0 ∧ d_nlink di = 1.
Proof using M.
  destruct (mk_file _ _ _ M 0 (T_DIR, dir_bytes fs) eq_refl) as (Hs&Ein&Fo). cbn [fst snd] in *. unfold di. pose proof finish_few.
  pose proof (file_dinode _ _ (T_DIR, dir_bytes fs) Fo Hs) as [D1 D2 D3 D4 D5 D6 D7]. rewrite Ein.
  split; [exact Fo|]. split; [split; [exact D1|exact D2|exact D3|exact D4| |exact D6|exact D7]|split_and!; reflexivity].
  cbn [d_size set_d_size]. unfold uint, n. dlia.
Qed.

Lemma finish_inode k : inode_at (x_view x2) k = if decide (k = 0%nat) then di else inode_at (x_view x) k.
Proof using M.
  unfold x2. rewrite inode_put; [|eapply mrel_image, M|lia|apply finish_root]. destruct (decide (k = 0%nat)) as [->|]; [by rewrite decide_True|]. by rewrite decide_False by lia.
Qed.

Lemma finish_keeps k f : img_list fs !! k = Some f →
  file_ok (x_view x2) (d_addrs (inode_at (x_view x) k)) f.2 ∧
  ∀ c, in_file (x_view x2) (d_addrs (inode_at (x_view x2) k)) c ↔ in_file (x_view x) (d_addrs (inode_at (x_view x) k)) c.
Proof using M R2 Hb.
  intros Hk. destruct (mk_file _ _ _ M k f Hk) as (_&_&Fo).
  destruct (put_inode_keeps s x 1 di s2 _ (mk_rel _ _ _ M) R2 Hb ltac:(lia) (fo_map _ _ _ Fo)) as [K1 K2]. split; [by apply K1|].
  intros c. rewrite finish_inode. case_decide as E; [subst k|]; apply K2.
Qed.

Lemma finish_mapped : mapped (x_view x2) (d_addrs di) (d_size di) ↔ (Z.of_nat (length fs) + 2) mod 32 ≠ 0.
Proof using M R2 Hb.
  destruct (finish_keeps 0 (T_DIR, dir_bytes fs) eq_refl) as [Fo _]. destruct (fo_tight _ _ _ Fo) as [T _]. cbn [snd] in T.
  rewrite length_dir_bytes in T. pose proof finish_few as Hf. change (d_size di) with ((n / 512 + 1) * 512).
  change (d_addrs di) with (d_addrs (inode_at (x_view x) 0)). change MAXFILE with 140%nat in T.
  split.
  - intros Hm E. assert (n mod 512 = 0) as En by (unfold n; dlia). specialize (Hm (Z.to_nat (n / 512))). apply T in Hm; unfold n in *; dlia.
  - intros E bn Hbn. apply T; unfold n in *; dlia.
Qed.

Lemma finish_image : image_of fs (x_view x2).
Proof using M R2 Hb.
  pose proof finish_few as Hf. destruct finish_root as (F0&D0&T0&Ma&Mi&L0). pose proof (finish_inode 0) as E0. rewrite decide_True in E0 by done.
  assert (root_inode (x_view x2) = di) as Er by exact E0. destruct (finish_keeps 0 (T_DIR, dir_bytes fs) eq_refl) as [Fo _].
  change (d_addrs (inode_at (x_view x) 0)) with (d_addrs di) in Fo. cbn [snd] in Fo.
  split; rewrite ?Er.
  - by eapply mrel_image.
  - intros b Hbr. change FSSIZE with 1000 in Hbr. rewrite (mrel_used s2 x2 b R2 Hbr), Hb, (mk_total _ _ _ M). reflexivity.
  - pose proof (inode_block 1 ltac:(lia)). unfold x2, put_inode. cbn [x_view x_put]. change (sb_logstart mkfs_sb) with 2. rewrite lookup_insert_ne by lia. apply M.
  - split; [exact T0|]. split; [exact Ma|]. split; [exact Mi|]. split; [exact L0|]. split; [apply Fo|reflexivity].
  - apply finish_mapped.
  - intros Hm. apply finish_mapped in Hm. apply entries_root; [exact Fo|reflexivity|exact Hm|]. change MAXBYTES with 71680. change (d_size di) with ((n / 512 + 1) * 512). unfold n. dlia.
  - intros k f Hk. assert (img_list fs !! S k = Some (file_data f)) as Hk'.
    { change ((file_data <$> fs) !! k = Some (file_data f)). by rewrite list_lookup_fmap, Hk. }
    replace (Z.of_nat k + 2) with (Z.of_nat (S k) + 1) by lia. fold (inode_at (x_view x2) (S k)). rewrite finish_inode, decide_False by done.
    destruct (mk_file _ _ _ M _ _ Hk') as (_&Ein&_). destruct (finish_keeps _ _ Hk') as [Fk _]. cbn [file_data fst snd] in *.
    pose proof (fo_max _ _ _ Fk) as Hmax. rewrite Ein. cbn [d_type d_major d_minor d_nlink d_size d_addrs]. destruct (fo_tight _ _ _ Fk) as [T _].
    assert (mapped (x_view x2) (d_addrs (inode_at (x_view x) (S k))) (Z.of_nat (length (concat f.2)))) as Hm.
    { intros bn Hbn. apply T; [|done]. change MAXBYTES with 71680 in Hmax. change MAXFILE with 140%nat. lia. }
    do 5 (split; [reflexivity|]). split; [apply Fk|]. split; [exact Hm|]. intros o Ho. rewrite (fo_bytes _ _ _ Fk); [symmetry; apply nth_total; lia|lia|apply Hm; dlia].
  - intros k k' c Hk Hk' Hne. assert (∀ j, (j < S (length fs))%nat → ∃ g, img_list fs !! j = Some g) as Hg.
    { intros j Hj. apply lookup_lt_is_Some_2. unfold img_list. cbn [length]. by rewrite length_fmap. }
    destruct (Hg k Hk) as [g Hgk], (Hg k' Hk') as [g' Hgk']. rewrite (proj2 (finish_keeps k g Hgk)), (proj2 (finish_keeps k' g' Hgk')).
    apply (mk_disjoint _ _ _ M); [by eapply lookup_lt_Some..|done].
Qed.
End finish.

(** ** mkfs *)

Lemma wp_zero_all k : ∀ i s (Q : unit → mkst → Prop), 
  (∀ s', (∀ b, i ≤ b < i + Z.of_nat k → mk_img s' !! b = Some zero_block) → (∀ b, ¬ i ≤ b < i + Z.of_nat k → mk_img s' !! b = mk_img s !! b) →
     mk_inode s' = mk_inode s → mk_block s' = mk_block s → Q tt s') → wp (zero_all k i) Q s.
Proof.
  induction k as [|k IH]; intros i s Q HQ; cbn [zero_all].
  - wp_step. apply HQ; [lia|done|done|done].
  - unfold wsect. wp_steps. apply IH. cbn [mk_img mk_inode mk_block]. intros s' H1 H2 H3 H4. apply HQ; [|intros b Hb|done|done].
    + intros b Hb. destruct (decide (b = i)) as [->|]; [|apply H1; lia]. rewrite H2 by lia. apply lookup_insert_eq.
    + rewrite H2 by lia. apply lookup_insert_ne. lia.
Qed.

(** The image before the first file. *)
Lemma start_rep s : (∀ b, 0 ≤ b < 1000 → mk_img s !! b = Some zero_block) → mk_inode s = 1 → mk_block s = 59 →
  ∃ x, mk_rep (mkmk (<[1:=encode_sb mkfs_sb zero_block]> (mk_img s)) (mk_inode s) (mk_block s)) x [].
Proof.
  intros Hz Hi Hb. set (img := <[1:=encode_sb mkfs_sb zero_block]> (mk_img s)).
  exists (mktx 0 (0, 0) 0 (final img 59) ∅ ∅ ∅ ∅). split.
  - split; cbn [mk_img mk_block x_view]; rewrite ?Hb; [done| | | |lia].
    + intros b Hbr. unfold img. destruct (decide (b = 1)) as [->|]; [rewrite lookup_insert_eq; eexists; by split|].
      rewrite lookup_insert_ne, Hz by done. eexists. by split.
    + unfold img. rewrite lookup_total_insert_eq. by vm_compute.
    + intros b Hbr. unfold img. rewrite lookup_insert_ne by lia. apply Hz. lia.
  - cbn [mk_inode length]. lia.
  - cbn [length]. lia.
  - cbn [mk_block]. exact Hb.
  - cbn [x_view]. unfold final, img. rewrite !lookup_insert_ne by done. by apply Hz.
  - intros k f Hk. by rewrite lookup_nil in Hk.
  - intros k k' c Hk. cbn [length] in Hk. lia.
Qed.

Lemma wp_fix_root s x fs (Q : unit → mkst → Prop) : mk_rep s x (img_list fs) →
  (∀ s' x', mrel s' x' → mk_block s' = mk_block s → image_of fs (x_view x') → Q tt s') → wp (fix_root ROOTINO) Q s.
Proof.
  intros M HQ. unfold fix_root. destruct (finish_root fs s x M) as (_&D&_). pose proof (finish_few fs s x M) as Hf.
  destruct (mk_file _ _ _ M 0 (T_DIR, dir_bytes fs) eq_refl) as (_&Ein&_). cbn [fst snd] in Ein.
  wp_step. apply (wp_rinode _ x); [apply M|unfold ROOTINO; lia|]. change (disk_inode mkfs_sb (x_view x) ROOTINO) with (inode_at (x_view x) 0).
  assert (d_size (inode_at (x_view x) 0) = 16 * (Z.of_nat (length fs) + 2)) as Es by (rewrite Ein; cbn [d_size]; rewrite length_dir_bytes; lia).
  rewrite Es. change (Z.of_nat BSIZE) with 512. rewrite u32_small by dlia.
  apply (wp_winode _ x); [apply M|unfold ROOTINO; lia|exact D|]. intros s2 R2 Hb2 Hi2. apply (HQ s2 _ R2 Hb2). by apply (finish_image fs s x s2).
Qed.

Lemma wp_mkfs fs : Forall (λ f : source, 47 ∉ f.1) fs → (length fs ≤ 198)%nat → Forall (λ f : source, Z.of_nat (length (concat f.2)) ≤ MAXBYTES) fs →
  total_blocks (img_list fs) ≤ nblocks → wp (mkfs_main (opened <$> fs)) (λ _ s, image_of fs (mk_img s)) mk_start.
Proof.
  intros Hn Hl Hs Ht. change nblocks with 941 in Ht. unfold mkfs_main, assert. change (BSIZE mod DINODE_SIZE =? 0)%nat with true. change (BSIZE mod DIRENT_SIZE =? 0)%nat with true.
  do 4 wp_step. do 2 wp_step. apply wp_bind, wp_zero_all. intros s1 H1 _ Hi1 Hb1. change (0 + Z.of_nat (Z.to_nat FSSIZE)) with 1000 in H1. cbn [mk_start mk_inode mk_block] in Hi1, Hb1.
  destruct (start_rep s1 H1 Hi1 Hb1) as (x2&M2). unfold wsect at 1. wp_step. wp_step. set (s2 := mkmk _ _ _) in *. clearbody s2.
  set (F := img_list fs). assert (∀ k g, F !! k = Some g → Z.of_nat (length g.2) ≤ MAXBYTES) as HF.
  { intros [|k] g Hg; [injection Hg as <-; cbn [snd]; rewrite length_dir_bytes; change MAXBYTES with 71680; lia|].
    change ((file_data <$> fs) !! k = Some g) in Hg. rewrite list_lookup_fmap in Hg. destruct (fs !! k) as [f|] eqn:Ef; [|done]. injection Hg as <-.
    rewrite Forall_lookup in Hs. by apply (Hs k f). }
  assert (∀ d, d `prefix_of` dir_bytes fs → part [(T_DIR, d)] F) as HP.
  { intros d Hd [|k] f Hk; [|done]. injection Hk as <-. by exists (T_DIR, dir_bytes fs). }
  assert (dir_bytes [] `prefix_of` dir_bytes fs) as Hpre.
  { unfold dir_bytes, dir_list. cbn [imap fmap list_fmap concat]. rewrite app_nil_r, app_assoc. by eexists. }
  wp_step. eapply (wp_ialloc s2 x2); [exact M2|cbn; lia|unfold short, T_DIR; lia|]. intros s3 x3 M3. wp_step.
  change (Z.of_nat (@length (Z * list Z) []) + 1) with ROOTINO. rewrite Z.eqb_refl. wp_step. wp_step.
  eapply (wp_append_part F Ht HF s3 x3 [(T_DIR, [])] 0 (T_DIR, [])); [exact M3|reflexivity|apply HP|].
  { etrans; [|exact Hpre]. by eexists. }
  intros s4 x4 M4. wp_step.
  eapply (wp_append_part F Ht HF s4 x4 _ 0 (T_DIR, de_bytes ROOTINO [46])); [exact M4|reflexivity|apply HP; exact Hpre|].
  intros s5 x5 M5. wp_step. eapply (wp_add_files F Ht HF fs s5 x5 []); [done|done|exact M5|done|]. intros s6 x6 M6. wp_step.
  apply (wp_fix_root s6 x6 fs); [exact M6|]. intros s7 x7 R7 Hb7 Im. wp_step. wp_step. unfold id, mk_balloc, assert, wsect.
  pose proof (mv_range _ _ R7). rewrite (proj2 (Z.ltb_lt _ _)) by (change (Z.of_nat BSIZE) with 512; lia). wp_steps. cbn [mk_img].
  by rewrite (mv_view _ _ R7) in Im.
Qed.


(** The directory is always made a block longer than its last full block.  With
    30 files, or 62, ..., that block does not exist: the kernel allocates it
    when it reads the directory, also in calls that run outside a
    transaction. *)
Theorem mkfs_root_hole fs :
  Forall (λ f : source, 47 ∉ f.1) fs → (length fs ≤ 198)%nat → Forall (λ f : source, Z.of_nat (length (concat f.2)) ≤ MAXBYTES) fs →
  total_blocks (img_list fs) ≤ nblocks → (Z.of_nat (length fs) + 2) mod 32 = 0 →
  ∃ s, mkfs_main (opened <$> fs) mk_start = Done tt s ∧
    ¬ mapped (mk_img s) (d_addrs (root_inode (mk_img s))) (d_size (root_inode (mk_img s))).
Proof.
  intros H1 H2 H3 H4 H5. destruct (wp_inv _ _ _ (wp_mkfs fs H1 H2 H3 H4)) as ([]&s&E&Im). exists s. split; [exact E|].
  rewrite (io_root_hole _ _ Im). auto.
Qed.

(** A command line with two files, read in pieces. *)
Definition demo_files : list source := [([95; 115; 104], [[1; 2; 3]; [4]]); ([82; 69; 65; 68; 77; 69], [replicate 512 7; replicate 100 8])].

