(* ===== verification/Boot.v ===== *)
(** * From the image to the running system

    The kernel started on the image of mkfs: the log is recovered, a path is
    resolved with [namei], the inode is locked with [ilock] and the file is
    read with [readi].  The theorem at the end ties the image maker, the
    buffer cache, the log, the inode cache, directories and files together. *)

From S2P Require Import Prelude Params Block Sleeplock Bio BioSpec Format Log LogSpec Crash.
From S2P Require Import Str Tx Fs FsSpec FsData FsWrite FsFile FsStack FsDir Mkfs MkfsSpec MkfsImage.

(** ** Locking inodes *)

Section inodes.
Context {S : Type} `{TxSpec S} (sb : superblock).
Implicit Types (s : fs S) (x : txst) (i : nat) (ip : inode).

Lemma wp_acquiresleep s i ip (Q : unit → fs S → Prop) : icache s !! i = Some ip → sl_locked (i_lock ip) = false →
  Q tt (upd_st i (set_i_lock (mksl true (sl_name (i_lock ip)) (fs_pid s)) ip) (fs_tx s) s) → wp (acquiresleep_inode i) Q s.
Proof.
  intros Hi Hl HQ. unfold wp, acquiresleep_inode, acquiresleep. rewrite (list_lookup_total_correct _ _ _ Hi), Hl.
  rewrite <- (upd_inode_st _ _ _ (set_i_lock _) _ Hi) in HQ. by rewrite set_tx_id in HQ.
Qed.

Lemma upd_locked s i ip t : icache_lock s = false → set_icache_lock false (upd_st i ip t (set_icache_lock true s)) = upd_st i ip t s.
Proof. intros E. destruct s; simpl in *. by subst. Qed.

(** [ilock] of an inode that is not in memory yet reads it from the disk. *)
Lemma wp_ilock s x i ip (Q : unit → fs S → Prop) :
  let di := disk_inode sb (x_view x) (i_inum ip) in
  fs_rep sb s x → x_held x = ∅ → room 0 x → icache s !! i = Some ip → 1 ≤ i_ref ip → sl_locked (i_lock ip) = false →
  i_valid ip = false → i_dev ip = ROOTDEV → 0 ≤ i_inum ip < sb_ninodes sb → d_type di ≠ 0 →
  (∀ t, tx_rep t x → Q tt (upd_st i (load_dinode di (set_i_lock (mksl true (sl_name (i_lock ip)) (fs_pid s)) ip)) t s)) →
  wp (ilock i) Q s.
Proof.
  intros di F Hh Hr Hi Href Hl Hv Hd Hin Hty HQ. pose proof (fr_geom _ _ _ F) as G.
  destruct (IBLOCK_home sb G _ Hin) as [Hb _]. pose proof (bmapstart_data sb G). pose proof (data_start_range sb G).
  unfold ilock. wp_step. apply (wp_the_inode _ _ ip); [done|]. rewrite (proj2 (Z.ltb_ge _ _)) by done.
  wp_step. apply (wp_acquiresleep s i ip); [done|done|]. set (ip1 := set_i_lock _ ip). set (s1 := upd_st i ip1 (fs_tx s) s).
  assert (icache s1 !! i = Some ip1) as Hi1 by (by apply (lookup_upd s i ip)).
  wp_step. apply (wp_the_inode _ _ ip1); [done|]. change (i_valid ip1) with (i_valid ip). rewrite Hv. wp_step; [|done].
  wp_step. wp_step. change (fs_sb s1) with (fs_sb s). rewrite (fr_sb _ _ _ F). change (i_dev ip1) with (i_dev ip). rewrite Hd. change (i_inum ip1) with (i_inum ip).
  eapply wp_get; [exact (fr_tx _ _ _ F)|rewrite (fr_size _ _ _ F); lia|by apply no_held|done|]. intros bp t1 Hbp R1 Hlen.
  wp_step. apply (wp_upd_inode _ i ip1); [done|]. change (get_dinode (x_view x !!! IBLOCK (i_inum ip) sb) (islot (i_inum ip))) with di.
  set (ip2 := load_dinode di ip1). change (upd_st i ip2 (fs_tx (set_tx t1 s1)) (set_tx t1 s1)) with (set_tx t1 (upd_st i ip2 t1 s1)).
  eapply wp_release_read; [exact R1|done|by eapply fr_not_fresh|]. intros t2 R2. wp_step.
  apply (wp_the_inode _ _ ip2); [by apply (lookup_upd s1 i ip1)|]. change (i_type ip2) with (d_type di). rewrite (proj2 (Z.eqb_neq _ _) Hty). wp_step; [done|].
  specialize (HQ t2 R2). unfold s1. change (set_tx t2 (upd_st i ip2 t1 (upd_st i ip1 (fs_tx s) s))) with (upd_st i ip2 t2 (upd_st i ip1 (fs_tx s) s)).
  by rewrite upd_st_upd.
Qed.

(** [iunlockput] of an inode that stays on disk. *)
Lemma wp_iunlockput s i ip (Q : unit → fs S → Prop) :
  icache_lock s = false → icache s !! i = Some ip → 1 ≤ i_ref ip < 2 ^ 31 → holdingsleep (fs_pid s) (i_lock ip) = true → i_nlink ip ≠ 0 →
  Q tt (upd_st i (set_i_ref (i_ref ip - 1) (set_i_lock (mksl false (sl_name (i_lock ip)) 0) ip)) (fs_tx s) s) →
  wp (iunlockput i) Q s.
Proof.
  intros Hl Hi Href Hh Hn HQ. unfold iunlockput, iunlock, releasesleep_inode. wp_step. wp_step. wp_step. wp_step. unfold id.
  apply (wp_the_inode _ _ ip); [done|]. rewrite Hh, (proj2 (Z.ltb_ge _ _)) by lia. cbn [negb orb].
  apply (wp_upd_inode _ i ip); [done|]. unfold releasesleep. set (ip1 := set_i_lock _ ip). set (s1 := upd_st i ip1 (fs_tx s) s).
  assert (icache s1 !! i = Some ip1) as Hi1 by (by apply (lookup_upd s i ip)).
  unfold iput. wp_step. apply (wp_acquiresleep s1 i ip1); [done|done|]. set (ip2 := set_i_lock _ ip1). set (s2 := upd_st i ip2 (fs_tx s1) s1).
  assert (icache s2 !! i = Some ip2) as Hi2 by (by apply (lookup_upd s1 i ip1)).
  wp_step. apply (wp_the_inode _ _ ip2); [done|]. change (i_nlink ip2) with (i_nlink ip). rewrite (proj2 (Z.eqb_neq _ _) Hn), andb_false_r.
  wp_step. wp_step; [done|]. wp_step. unfold releasesleep_inode. apply (wp_upd_inode _ i ip2); [done|]. set (ip3 := set_i_lock _ ip2). set (s3 := upd_st i ip3 (fs_tx s2) s2).
  wp_step. apply wp_acquire; [done|]. wp_step. apply (wp_upd_inode _ i ip3); [by apply (lookup_upd s2 i ip2)|]. apply wp_release; [done|].
  change (i_ref ip3) with (i_ref ip). rewrite i32_small by lia.
  change (fs_tx (set_icache_lock true s3)) with (fs_tx s). rewrite upd_locked by done. unfold s3, s2, s1. rewrite !upd_st_upd. exact HQ.
Qed.

(** [iget] of an inode that is not in the cache takes the first free entry. *)
Lemma iget_scan_new l : ∀ k dev inum i, Forall (λ ip, entry_for dev inum ip = false) l → l !! i ≫= (λ ip, Some (i_ref ip)) = Some 0 →
  (∀ j ip, (j < i)%nat → l !! j = Some ip → i_ref ip ≠ 0) → iget_scan l k dev inum None = inr (Some (k + i)%nat).
Proof.
  assert (∀ l k dev inum e, Forall (λ ip, entry_for dev inum ip = false) l → iget_scan l k dev inum (Some e) = inr (Some e)) as Hsome.
  { clear l. induction l as [|ip l IH]; intros k dev inum e Hl; [done|]. apply Forall_cons in Hl as [Hip Hl]. cbn [iget_scan].
    fold (entry_for dev inum ip). rewrite Hip. by apply IH. }
  induction l as [|ip l IH]; intros k dev inum i Hl Hi Hne; [done|]. apply Forall_cons in Hl as [Hip Hl]. cbn [iget_scan].
  fold (entry_for dev inum ip). rewrite Hip. destruct i as [|i].
  - injection Hi as Hr. rewrite Hr. cbn. rewrite Hsome by done. f_equal. f_equal. lia.
  - rewrite (proj2 (Z.eqb_neq _ _) (Hne 0%nat ip ltac:(lia) eq_refl)). rewrite (IH (Datatypes.S k) dev inum i); [f_equal; f_equal; lia|done|done|].
    intros j jp Hj. apply (Hne (Datatypes.S j)). lia.
Qed.

Lemma wp_iget_new s dev inum i ip (Q : nat → fs S → Prop) :
  icache_lock s = false → icache s !! i = Some ip → i_ref ip = 0 → Forall (λ ip, entry_for dev inum ip = false) (icache s) →
  (∀ j ip, (j < i)%nat → icache s !! j = Some ip → i_ref ip ≠ 0) →
  Q i (upd_st i (set_i_id dev inum 1 false ip) (fs_tx s) s) → wp (iget dev inum) Q s.
Proof.
  intros Hl Hi Hr Hall Hne HQ. unfold iget. wp_step. apply wp_acquire; [done|]. wp_step. wp_step. cbn [set_icache_lock icache].
  rewrite (iget_scan_new _ 0 dev inum i) by (done || by rewrite Hi; cbn; rewrite Hr). cbn [Nat.add].
  wp_step. apply (wp_upd_inode _ i ip); [done|]. wp_step. apply wp_release; [done|]. wp_step.
  change (fs_tx (set_icache_lock true s)) with (fs_tx s). by rewrite upd_locked.
Qed.
End inodes.

Lemma wp_eq {S A} (m m' : M S A) (Q : A → S → Prop) s s' : m s = m' s' → wp m' Q s' → wp m Q s.
Proof. unfold wp. by intros ->. Qed.

(** ** Names *)

(** A path element: no slashes, no NUL. *)
Definition plain (nm : list Z) : Prop := nm ≠ [] ∧ Forall (λ c, 0 < c < 256 ∧ c ≠ 47) nm.

Lemma split_plain nm : Forall (λ c, 0 < c < 256 ∧ c ≠ 47) nm → split_elem nm = (nm, []).
Proof.
  induction 1 as [|c nm [Hc Hs] _ IH]; [done|]. cbn [split_elem]. unfold slash. rewrite (proj2 (Z.eqb_neq _ _) Hs), (proj2 (Z.eqb_neq c 0)) by lia. cbn [orb]. by rewrite IH.
Qed.

Lemma cstr_plain nm : Forall (λ c, 0 < c < 256 ∧ c ≠ 47) nm → cstr nm = nm.
Proof. induction 1 as [|c nm [Hc Hs] _ IH]; [done|]. cbn [cstr]. rewrite (proj2 (Z.eqb_neq c 0)) by lia. by rewrite IH. Qed.

Lemma plain_bytes nm : Forall (λ c, 0 < c < 256 ∧ c ≠ 47) nm → Forall byte nm.
Proof. intros Hp. eapply Forall_impl; [exact Hp|]. unfold byte. cbn. lia. Qed.

Lemma skipelem_plain nm : plain nm → ∃ name', skipelem (slash :: nm) (replicate DIRSIZ 0) = Some ([], name') ∧ Forall byte name' ∧
  take DIRSIZ (cstr name') = take DIRSIZ (cstr nm).
Proof.
  intros [Hne Hp]. pose proof (plain_bytes _ Hp) as Hb. unfold skipelem. cbn [skip_slashes]. rewrite Z.eqb_refl.
  assert (skip_slashes nm = nm) as ->.
  { destruct nm as [|c nm]; [done|]. apply Forall_cons in Hp as [[_ Hs] _]. cbn [skip_slashes]. unfold slash. by rewrite (proj2 (Z.eqb_neq _ _) Hs). }
  assert (at0 nm =? 0 = false) as ->.
  { destruct nm as [|c nm]; [done|]. apply Forall_cons in Hp as [[Hc _] _]. apply Z.eqb_neq. cbn. lia. }
  rewrite split_plain by done.
  exists (if (DIRSIZ <=? length nm)%nat then splice 0 (take DIRSIZ nm) (replicate DIRSIZ 0) else <[length nm:=0]> (splice 0 nm (replicate DIRSIZ 0))).
  split; [reflexivity|].
  assert (nonzero nm) as Hnz by (eapply Forall_impl; [exact Hp|]; cbn; lia).
  destruct (store_elem_name nm (replicate DIRSIZ 0) (length_replicate _ _) Hnz) as [_ Hc]. rewrite (cstr_plain nm Hp). split; [|exact Hc].
  assert (Forall byte (replicate DIRSIZ 0)) as Hz by (apply Forall_replicate; unfold byte; lia).
  destruct (DIRSIZ <=? length nm)%nat; [|apply Forall_insert; [|unfold byte; lia]];
    unfold splice; rewrite !Forall_app; (split; [by apply Forall_take|split; [done || by apply Forall_take|by apply Forall_drop]]).
Qed.

(** The file is found under its name: no earlier entry of the directory has the
    same name. *)
Definition found_first (fs : list source) (k : nat) (nm : list Z) : Prop :=
  Forall (λ e, Forall byte e ∧ take DIRSIZ (cstr e) ≠ take DIRSIZ (cstr nm)) ([46] :: [46; 46] :: ((λ g, skip_underscore g.1) <$> take k fs)).

Lemma root_find fs k f nm name' l : fs !! k = Some f → (k < 198)%nat → skip_underscore f.1 = nm → Forall byte nm → Forall byte name' →
  take DIRSIZ (cstr name') = take DIRSIZ (cstr nm) → found_first fs k nm →
  ∃ de, dir_find name' (dir_list fs ++ l) 0 = Some ((k + 2)%nat, de) ∧ de_inum de = Z.of_nat k + 2.
Proof.
  intros Hk Hl Hnm Hb Hb' Hc Hff. set (de := mkdirent (u16 (Z.of_nat k + 2)) (strncpy (replicate DIRSIZ 0) nm DIRSIZ)). exists de.
  assert (u16 (Z.of_nat k + 2) = Z.of_nat k + 2) as Hu by (unfold u16; apply Z.mod_small; lia). split; [|exact Hu].
  assert (∀ e n, Forall byte e → 0 < n < 2 ^ 16 → take DIRSIZ (cstr e) ≠ take DIRSIZ (cstr nm) →
    de_match name' (mkdirent n (strncpy (replicate DIRSIZ 0) e DIRSIZ)) = false) as Hno.
  { intros e n He Hn Hne. apply not_true_iff_false. rewrite new_entry_match by done. congruence. }
  apply Forall_cons in Hff as [[D1 D2] Hff]. apply Forall_cons in Hff as [[D3 D4] Hff].
  assert (dir_list fs = dir_list (take k fs) ++ de :: imap (λ j g, mkdirent (u16 (Z.of_nat (k + S j) + 2)) (strncpy (replicate DIRSIZ 0) (skip_underscore g.1) DIRSIZ)) (drop (S k) fs)) as ->.
  { rewrite <- (take_drop_middle _ _ _ Hk) at 1. unfold dir_list. rewrite imap_app. cbn [imap app].
    rewrite length_take_le by (apply lookup_lt_Some in Hk; lia). rewrite Nat.add_0_r, Hnm. reflexivity. }
  rewrite <- app_assoc, dir_find_app. rewrite (proj2 (dir_find_None name' (dir_list (take k fs)) 0)).
  - rewrite length_dir_list, length_take_le by (apply lookup_lt_Some in Hk; lia). cbn [app dir_find].
    assert (de_match name' de = true) as -> by (apply new_entry_match; [lia|done|done|done]). done.
  - apply Forall_cons; split; [apply Hno; [done|lia|done]|]. apply Forall_cons; split; [apply Hno; [done|lia|done]|].
    apply Forall_lookup. intros j d Hj. rewrite list_lookup_imap in Hj. destruct (take k fs !! j) as [g|] eqn:Eg; [|done]. apply (inj Some) in Hj as <-.
    pose proof (lookup_lt_Some _ _ _ Eg) as Hlt. rewrite length_take in Hlt. rewrite Forall_fmap, Forall_lookup in Hff. destruct (Hff j g Eg) as [G1 G2]. apply Hno; [done| |done].
    unfold u16. rewrite Z.mod_small by lia. lia.
Qed.

(** ** The kernel on the image *)

Definition free_inode : inode := mkinode 0 0 0 (initsleeplock "inode") false 0 0 0 0 0 (replicate (NDIRECT + 1) 0).
(** The file system after [iinit], with the log in state [t]. *)
Definition boot_fs (t : log bio) (pid : Z) : fs (log bio) := mkfs t mkfs_sb false (replicate NINODE free_inode) pid 0.
Definition boot_tx (v : gmap Z block) : txst := mktx 1000 (2, 30) 1 v v ∅ ∅ ∅.

Section boot.
Context `{DevSw (log bio)} (fs : list source) (v : gmap Z block) (Im : image_of fs v).
Implicit Types (s : Fs.fs (log bio)) (t : log bio).

Lemma boot_disk : disk_ok 1000 2 30 v.
Proof using Im.
  destruct (io_image _ _ Im) as [B1 B2 _]. pose proof (io_log _ _ Im) as Hlog. change (sb_logstart mkfs_sb) with 2 in Hlog.
  split; rewrite ?B2; [exact B1|done|done|change LOGSIZE with 30; lia|]. rewrite (lookup_total_correct _ _ _ Hlog). split; [by vm_compute|].
  assert (head_blocks zero_block = []) as -> by (by vm_compute). constructor.
Qed.

Lemma boot_recovered : recovered 2 v = v.
Proof using Im.
  pose proof (io_log _ _ Im) as Hlog. change (sb_logstart mkfs_sb) with 2 in Hlog. unfold recovered, recover_writes.
  rewrite (lookup_total_correct _ _ _ Hlog). assert (head_blocks zero_block = []) as -> by (by vm_compute).
  assert (encode_head zero_block 0 [] = zero_block) as -> by (by vm_compute). cbn. by apply insert_id.
Qed.

Lemma boot_started pid : ∃ l t, initlog ROOTDEV (boot_log 1000 v pid) = Done tt l ∧ begin_op l = Done tt t ∧ tx_rep t (boot_tx v).
Proof using Im. destruct (booted_tx 1000 2 30 v pid boot_disk) as (l&t&Hi&Hb&R). rewrite boot_recovered in R. exists l, t. exact (conj Hi (conj Hb R)). Qed.

Lemma boot_room : room 0 (boot_tx v).
Proof. split; [change (Z.of_nat (0 + 0) ≤ 29)|change (0 + 0 + 0 < 30)%nat]; lia. Qed.

Lemma image_rep s t : tx_rep t (boot_tx v) → fs_sb s = mkfs_sb → fs_rep mkfs_sb (set_tx t s) (boot_tx v).
Proof using Im. intros R E. split; [exact R|exact E|exact mkfs_geom|done|done|done|exact (io_image _ _ Im)]. Qed.

(** An inode of the image after [ilock]. *)
Definition loaded (inum : Z) (ip : inode) : Prop :=
  i_dev ip = ROOTDEV ∧ i_inum ip = inum ∧ inode_disk ip = disk_inode mkfs_sb v inum.

Lemma load_disk di ip : inode_disk (load_dinode di ip) = di.
Proof. by destruct di. Qed.

Lemma loaded_file s t i inum ip : tx_rep t (boot_tx v) → fs_sb s = mkfs_sb → icache s !! i = Some ip → loaded inum ip → 0 ≤ inum < 200 →
  let di := disk_inode mkfs_sb v inum in
  (d_type di = T_DIR ∨ d_type di = T_FILE) → d_nlink di = 1 → d_major di = 0 → d_minor di = 0 → 0 ≤ d_size di ≤ MAXBYTES →
  map_ok mkfs_sb v (d_addrs di) → mapped v (d_addrs di) (d_size di) → file_rep mkfs_sb (set_tx t s) (boot_tx v) i ip.
Proof using Im.
  intros R E Hi (Hd&Hin&Hdi) Hr di Hty Hnl Hma Hmi Hsz Ho Hm. unfold di in *. rewrite <- Hdi in *. cbn [inode_disk d_type d_nlink d_major d_minor d_size d_addrs] in *.
  split.
  - split; [by apply image_rep|done|done|done|done].
  - rewrite Hin. exact Hr.
  - rewrite Hnl, Hma, Hmi. unfold short. destruct Hty as [-> | ->]; unfold T_DIR, T_FILE; lia.
  - by destruct Hty as [-> | ->].
  - by rewrite Hin.
  - done.
  - done.
Qed.

Lemma boot_inum k f : fs !! k = Some f → (length fs ≤ 198)%nat → 0 ≤ Z.of_nat k + 2 < 200.
Proof. intros Hk%lookup_lt_Some Hl. lia. Qed.

Definition cached (inum : Z) : inode := set_i_id ROOTDEV inum 1 false free_inode.
Definition locked_inode (inum pid : Z) : inode := load_dinode (disk_inode mkfs_sb v inum) (set_i_lock (mksl true "inode" pid) (cached inum)).

Lemma loaded_locked inum pid : loaded inum (locked_inode inum pid).
Proof. split_and!; [done|done|apply load_disk]. Qed.

(** The root directory once it is locked. *)
Lemma boot_root s t pid : tx_rep t (boot_tx v) → fs_sb s = mkfs_sb → icache s !! 0%nat = Some (locked_inode ROOTINO pid) →
  (length fs ≤ 198)%nat → (Z.of_nat (length fs) + 2) mod 32 ≠ 0 → dir_rep mkfs_sb (set_tx t s) (boot_tx v) 0 (locked_inode ROOTINO pid).
Proof using Im.
  intros R E Hi Hl Hm. destruct (io_root _ _ Im) as (R1&R2&R3&R4&R5&R6). pose proof (proj2 (io_root_hole _ _ Im) Hm) as Hmap.
  assert (0 ≤ d_size (root_inode v) ≤ MAXBYTES) as Hsz by (rewrite R6; change MAXBYTES with 71680; dlia).
  split; [|exact R1| |exact boot_room].
  - apply (loaded_file s t 0 ROOTINO); try done. by left.
  - change (d_size (root_inode v) mod 16 = 0). rewrite R6. dlia.
Qed.

Lemma wp_namei t pid k f nm (Q : option nat → Fs.fs (log bio) → Prop) : tx_rep t (boot_tx v) → (length fs ≤ 198)%nat →
  (Z.of_nat (length fs) + 2) mod 32 ≠ 0 → fs !! k = Some f → skip_underscore f.1 = nm → plain nm → found_first fs k nm →
  (∀ s', tx_rep (fs_tx s') (boot_tx v) → fs_sb s' = mkfs_sb → icache s' !! 1%nat = Some (cached (Z.of_nat k + 2)) → Q (Some 1%nat) s') →
  wp (namei (slash :: nm)) Q (boot_fs t pid).
Proof using Im.
  intros R Hl Hm Hk Hnm Hp Hff HQ. pose proof (boot_inum k f Hk Hl) as Hin. assert (k < 198)%nat as Hk198 by lia. destruct (skipelem_plain nm Hp) as (name'&Esk&Hb'&Hc').
  unfold namei, namex. cbn [at0]. change (slash =? slash) with true. cbv iota. wp_step. wp_step.
  apply (wp_iget_new _ ROOTDEV ROOTINO 0 free_inode); [done|done|done|by apply Forall_replicate|lia|]. set (s1 := upd_st 0 _ _ (boot_fs t pid)).
  replace (length (slash :: nm) + 1)%nat with (S (S (length nm))) by (cbn [length]; lia). cbn [namex_loop]. rewrite Esk.
  destruct (io_root _ _ Im) as (R1&R2&R3&R4&R5&R6).
  wp_step. apply (wp_ilock mkfs_sb s1 (boot_tx v) 0 (cached ROOTINO)); try done.
  { exact (image_rep s1 t R eq_refl). } { exact boot_room. } { change (d_type (root_inode v) ≠ 0). by rewrite R1. }
  intros t2 Rt2. change (load_dinode _ _) with (locked_inode ROOTINO pid). set (s2 := upd_st 0 (locked_inode ROOTINO pid) t2 s1).
  wp_step. apply (wp_the_inode _ _ (locked_inode ROOTINO pid)); [done|]. change (i_type (locked_inode ROOTINO pid)) with (d_type (root_inode v)). rewrite R1.
  change (negb (T_DIR =? T_DIR)) with false. cbn [andb].
  destruct (dirlookup_eq mkfs_sb s2 (boot_tx v) 0 (locked_inode ROOTINO pid) name') as (t3&[D3 _ _ _]&E3).
  { exact (boot_root s2 t2 pid Rt2 eq_refl eq_refl Hl Hm). }
  assert (dir_entries (x_view (boot_tx v)) (locked_inode ROOTINO pid) = entries_of v (root_inode v)) as Ee by reflexivity.
  destruct (root_find fs k f nm name' (replicate (Z.to_nat (d_size (root_inode v) / 16) - (length fs + 2)) free_entry) Hk Hk198 Hnm (plain_bytes _ (proj2 Hp)) Hb' Hc' Hff) as (de&Ef&Hde).
  rewrite Ee, (io_entries _ _ Im Hm), Ef in E3. wp_step. eapply wp_eq; [exact E3|]. cbn [lookup_result]. change (i_dev (locked_inode ROOTINO pid)) with ROOTDEV. rewrite Hde.
  pose proof (fr_tx _ _ _ (ir_fs _ _ _ _ _ (fl_ino _ _ _ _ _ D3))) as Rt3.
  wp_step. apply (wp_iget_new (set_tx t3 s2) ROOTDEV (Z.of_nat k + 2) 1 free_inode); [done|done|done| | |].
  { change (Forall (λ ip, entry_for ROOTDEV (Z.of_nat k + 2) ip = false) (locked_inode ROOTINO pid :: replicate 49 free_inode)).
    apply Forall_cons. split; [|by apply Forall_replicate]. unfold entry_for. change (i_inum (locked_inode ROOTINO pid)) with 1. rewrite (proj2 (Z.eqb_neq 1 (Z.of_nat k + 2))) by lia. apply andb_false_r. }
  { intros [|j] ip Hj Hip; [|lia]. injection Hip as <-. done. }
  wp_step. change (set_i_id ROOTDEV (Z.of_nat k + 2) 1 false free_inode) with (cached (Z.of_nat k + 2)). set (s3 := upd_st 1 _ _ (set_tx t3 s2)).
  wp_step. apply (wp_iunlockput s3 0 (locked_inode ROOTINO pid)); try done.
  { unfold holdingsleep. cbn. apply Z.eqb_refl. } { change (d_nlink (root_inode v) ≠ 0). by rewrite R4. }
  change (skipelem [] name') with (@None (list Z * list Z)). cbv iota. wp_step. wp_step. cbn [fst]. apply HQ; [exact Rt3|reflexivity|reflexivity].
Qed.

(** The file once it is locked, read from its beginning. *)
Lemma wp_read_file s pid k f (Q : Z * list Z → Fs.fs (log bio) → Prop) : tx_rep (fs_tx s) (boot_tx v) → fs_sb s = mkfs_sb →
  (length fs ≤ 198)%nat → fs !! k = Some f → Z.of_nat (length (concat f.2)) ≤ MAXBYTES → fs_pid s = pid → icache s !! 1%nat = Some (cached (Z.of_nat k + 2)) →
  (∀ s', Q (Z.of_nat (length (concat f.2)), concat f.2) s') → wp (ilock 1;; readi 1 0 (Z.of_nat (length (concat f.2)))) Q s.
Proof using Im.
  intros R E Hl Hk Hmax Hpid Hi HQ. pose proof (boot_inum k f Hk Hl) as Hin. destruct (io_file _ _ Im k f Hk) as (R1&R2&R3&R4&R5&R6&R7&R8).
  change MAXBYTES with 71680 in Hmax. wp_step. apply (wp_ilock mkfs_sb s (boot_tx v) 1 (cached (Z.of_nat k + 2))); try done.
  { rewrite <- (set_tx_id s). by apply image_rep. } { exact boot_room. } { cbn [cached set_i_id i_inum]. change (x_view (boot_tx v)) with v. by rewrite R1. }
  intros t2 Rt2. rewrite Hpid. change (load_dinode _ _) with (locked_inode (Z.of_nat k + 2) pid). set (s2 := upd_st 1 _ t2 s).
  assert (icache s2 !! 1%nat = Some (locked_inode (Z.of_nat k + 2) pid)) as Hi2 by (by apply (lookup_upd s 1 (cached (Z.of_nat k + 2)))).
  assert (file_rep mkfs_sb s2 (boot_tx v) 1 (locked_inode (Z.of_nat k + 2) pid)) as Fl.
  { apply (loaded_file s2 t2 1 (Z.of_nat k + 2)); try done; [by right|]. rewrite R5. change MAXBYTES with 71680. lia. }
  destruct Fl as [I F1 F2 F3 F4 F5 F6].
  assert (i_size (locked_inode (Z.of_nat k + 2) pid) = Z.of_nat (length (concat f.2))) as Esz by exact R5.
  apply (wp_readi mkfs_sb s2 (boot_tx v) 1 (locked_inode (Z.of_nat k + 2) pid)); try done; try lia; [exact boot_room|]. cbv zeta. rewrite Esz, Z.sub_0_r, Z.min_id.
  intros t' l _ Hlen Hbytes. assert (l = concat f.2) as ->; [|apply HQ]. apply list_eq. intros j. destruct (decide (j < length (concat f.2))%nat) as [Hj|Hj].
  - specialize (Hbytes (Z.of_nat j) ltac:(lia)). rewrite Nat2Z.id in Hbytes. rewrite Hbytes. symmetry. change (i_addrs (locked_inode (Z.of_nat k + 2) pid)) with (d_addrs (disk_inode mkfs_sb v (Z.of_nat k + 2))).
    change (x_view (boot_tx v)) with v. rewrite Z.add_0_l, R8 by (rewrite R5; lia). rewrite Nat2Z.id. by apply list_lookup_lookup_total_lt.
  - rewrite !lookup_ge_None_2; [done|lia|lia].
Qed.
End boot.

(** C10: from mkfs to [readi].  Start the kernel on the image that mkfs made of
    some files: recovery leaves the disk as it is, [namei] of the path of a
    file finds its inode, and [ilock] and [readi] of that inode return the
    bytes the file had.  The name is taken as mkfs takes it, without a leading
    underscore, and the file is the first with its name. *)
Theorem mkfs_boot_read `{DevSw (log bio)} fs pid k f :
  Forall (λ f : source, 47 ∉ f.1) fs → (length fs ≤ 198)%nat → Forall (λ f : source, Z.of_nat (length (concat f.2)) ≤ MAXBYTES) fs →
  total_blocks (img_list fs) ≤ nblocks → (Z.of_nat (length fs) + 2) mod 32 ≠ 0 →
  fs !! k = Some f → plain (skip_underscore f.1) → found_first fs k (skip_underscore f.1) →
  let n := Z.of_nat (length (concat f.2)) in
  ∃ img l t i s1 s2, mkfs_main (opened <$> fs) mk_start = Done tt img ∧
    initlog ROOTDEV (boot_log FSSIZE (mk_img img) pid) = Done tt l ∧ begin_op l = Done tt t ∧
    namei (slash :: skip_underscore f.1) (boot_fs t pid) = Done (Some i) s1 ∧
    (ilock i;; readi i 0 n) s1 = Done (n, concat f.2) s2.
Proof.
  intros H1 H2 H3 H4 H5 Hk Hp Hff n. destruct (wp_inv _ _ _ (wp_mkfs fs H1 H2 H3 H4)) as ([]&img&E&Im).
  destruct (boot_started fs _ Im pid) as (l&t&Hl&Ht&R).
  assert (wp (namei (slash :: skip_underscore f.1)) (λ r s1, r = Some 1%nat ∧ ∃ s2, (ilock 1;; readi 1 0 n) s1 = Done (n, concat f.2) s2) (boot_fs t pid)) as W.
  { apply (wp_namei fs _ Im t pid k f _ _ R H2 H5 Hk eq_refl Hp Hff). intros s1 R1 E1 Hi1. split; [reflexivity|].
    assert (wp (ilock 1;; readi 1 0 n) (λ r _, r = (n, concat f.2)) s1) as W.
    { rewrite Forall_lookup in H3. apply (wp_read_file fs _ Im s1 (fs_pid s1) k f _ R1 E1 H2 Hk (H3 k f Hk) eq_refl Hi1). reflexivity. }
    destruct (wp_inv _ _ _ W) as (r&s2&E2& ->). exists s2. exact E2. }
  destruct (wp_inv _ _ _ W) as (r&s1&En& -> &s2&Er). exists img, l, t, 1%nat, s1, s2. exact (conj E (conj Hl (conj Ht (conj En Er)))).
Qed.

#[local] Instance no_devices : DevSw (log bio) := { dev_read _ := None; dev_write _ := None }.

(** The first of the two files. *)
Lemma mkfs_boot_read_witness : ∃ i s s', (ilock i;; readi i 0 4) s = Done (4, [1; 2; 3; 4]) s'.
Proof.
  destruct (mkfs_boot_read demo_files 1 0 ([95; 115; 104], [[1; 2; 3]; [4]])) as (img&l&t&i&s1&s2&E1&E2&E3&E4&E5).
  - repeat (apply Forall_cons; split; [apply (bool_decide_eq_true_1 (47 ∉ _)); by vm_compute|]). apply Forall_nil_2.
  - cbn. lia.
  - repeat (apply Forall_cons; split; [by vm_compute|]). apply Forall_nil_2.
  - by vm_compute.
  - by vm_compute.
  - reflexivity.
  - split; [done|]. repeat (apply Forall_cons; split; [lia|]). apply Forall_nil_2.
  - repeat (apply Forall_cons; split; [split; [repeat constructor; lia|done]|]). apply Forall_nil_2.
  - exists i, s1, s2. exact E5.
Defined.
