(* ===== verification/File.v ===== *)
(** * Open files (file.c, pipealloc of pipe.c)

    The table of open files over the inodes of fs.c, the pipes of pipe.c and
    the page allocator.  [kern] is the state of these components together; it
    is what proc.c and the system calls work on. *)

From S2P Require Import Prelude Params Mmu Str Block Sleeplock Format Bio Log Tx Fs Kalloc Pipe.

(** Transactions as the callers of log.c see them. *)
Class TxnOps (S : Type) := { txn_begin : M S unit; txn_end : M S unit }.

#[export] Instance log_txn {S} `{BlockOps S} : TxnOps (log S) := { txn_begin := begin_op; txn_end := end_op }.

(** ** State *)

Inductive fdtype := FD_NONE | FD_PIPE | FD_INODE.
#[global] Instance fdtype_eq_dec : EqDecision fdtype.
Proof. solve_decision. Defined.

Record file := mkfile {
  f_type : fdtype;
  f_ref : Z;
  f_readable : bool;
  f_writable : bool;
  f_pipe : Z;
  f_ip : nat;
  f_off : Z
}.
Definition zero_file : file := mkfile FD_NONE 0 false false 0 0 0.
#[global] Instance file_inhabited : Inhabited file := populate zero_file.

Definition set_f_ref (v : Z) (f : file) : file :=
  mkfile (f_type f) v (f_readable f) (f_writable f) (f_pipe f) (f_ip f) (f_off f).
Definition set_f_off (v : Z) (f : file) : file :=
  mkfile (f_type f) (f_ref f) (f_readable f) (f_writable f) (f_pipe f) (f_ip f) v.
Definition set_f_none (f : file) : file :=
  mkfile FD_NONE 0 (f_readable f) (f_writable f) (f_pipe f) (f_ip f) (f_off f).
Definition set_f_pipe (r w : bool) (p : Z) (f : file) : file :=
  mkfile FD_PIPE (f_ref f) r w p (f_ip f) (f_off f).
Definition set_f_inode (r w : bool) (ip : nat) (f : file) : file :=
  mkfile FD_INODE (f_ref f) r w (f_pipe f) ip 0.

(** A pipe is known by the address of its page. *)
Record kern (S : Type) := mkkern {
  k_fs : fs S;
  k_mem : kmem;
  k_pipes : gmap Z pipe;
  k_ftlock : bool;
  k_file : list file;
  k_killed : bool              (** myproc()->killed *)
}.
Arguments mkkern {S}.
Arguments k_fs {S}.
Arguments k_mem {S}.
Arguments k_pipes {S}.
Arguments k_ftlock {S}.
Arguments k_file {S}.
Arguments k_killed {S}.

Section file.
Context (kend : Z) {S : Type} `{TxOps S} `{DevSw S} `{TxnOps S}.
Implicit Types s : kern S.

Definition set_k_fs (v : fs S) s : kern S := mkkern v (k_mem s) (k_pipes s) (k_ftlock s) (k_file s) (k_killed s).
Definition set_k_mem (v : kmem) s : kern S := mkkern (k_fs s) v (k_pipes s) (k_ftlock s) (k_file s) (k_killed s).
Definition set_k_pipes (v : gmap Z pipe) s : kern S := mkkern (k_fs s) (k_mem s) v (k_ftlock s) (k_file s) (k_killed s).
Definition set_k_ftlock (v : bool) s : kern S := mkkern (k_fs s) (k_mem s) (k_pipes s) v (k_file s) (k_killed s).
Definition set_k_file (v : list file) s : kern S := mkkern (k_fs s) (k_mem s) (k_pipes s) (k_ftlock s) v (k_killed s).
Definition set_k_killed (v : bool) s : kern S := mkkern (k_fs s) (k_mem s) (k_pipes s) (k_ftlock s) (k_file s) v.

Definition on_fs {A} (m : M (fs S) A) : M (kern S) A := zoom k_fs set_k_fs m.
Definition on_mem {A} (m : M kmem A) : M (kern S) A := zoom k_mem set_k_mem m.
(** A routine of pipe.c on the pipe at address [a]. *)
Definition on_pipe {A} (a : Z) (m : M pipe A) : M (kern S) A := λ s,
  match k_pipes s !! a with
  | None => Undef
  | Some p => zoom (λ _, p) (λ p' s, set_k_pipes (<[a:=p']> (k_pipes s)) s) m s
  end.
Definition begin_txn : M (kern S) unit := on_fs (in_tx txn_begin).
Definition end_txn : M (kern S) unit := on_fs (in_tx txn_end).
Definition asleep {A} (c : chan) : M (kern S) A := λ s, Asleep c s.

Definition acquire_ft : M (kern S) unit := acquire k_ftlock set_k_ftlock.
Definition release_ft : M (kern S) unit := release k_ftlock set_k_ftlock.
Definition the_file (i : nat) : M (kern S) file := gets (λ s, k_file s !!! i).
Definition upd_file (i : nat) (f : file → file) : M (kern S) unit :=
  modify (λ s, set_k_file (alter f i (k_file s)) s).

(** ** Operations *)

Definition filealloc : M (kern S) (option nat) :=
  acquire_ft;;
  r ← gets (λ s, fst <$> list_find (λ f, f_ref f = 0) (k_file s));
  match r with
  | Some i => upd_file i (set_f_ref 1);; release_ft;; mret (Some i)
  | None => release_ft;; mret None
  end.

Definition filedup (i : nat) : M (kern S) nat :=
  acquire_ft;;
  f ← the_file i;
  if f_ref f <? 1 then panic "filedup"
  else
    upd_file i (set_f_ref (i32 (f_ref f + 1)));;
    release_ft;;
    mret i.

(** [pipeclose] with the [kfree] of its page. *)
Definition pipeclose_free (a : Z) (writable : bool) : M (kern S) unit :=
  free ← on_pipe a (pipeclose writable);
  if (free : bool) then
    on_mem (kfree kend a);;
    modify (λ s, set_k_pipes (delete a (k_pipes s)) s)
  else mret tt.

Definition fileclose (i : nat) : M (kern S) unit :=
  acquire_ft;;
  f ← the_file i;
  if f_ref f <? 1 then panic "fileclose"
  else
    let r := i32 (f_ref f - 1) in
    upd_file i (set_f_ref r);;
    if 0 <? r then release_ft
    else
      upd_file i set_f_none;;
      release_ft;;
      match f_type f with
      | FD_PIPE => pipeclose_free (f_pipe f) (f_writable f)
      | FD_INODE => begin_txn;; on_fs (iput (f_ip f));; end_txn
      | FD_NONE => mret tt
      end.

(** The metadata, if the file has any. *)
Definition filestat (i : nat) : M (kern S) (option stat) :=
  f ← the_file i;
  match f_type f with
  | FD_INODE =>
      on_fs (ilock (f_ip f));;
      st ← on_fs (stati (f_ip f));
      on_fs (iunlock (f_ip f));;
      mret (Some st)
  | _ => mret None
  end.

(** The result and the bytes stored at [addr]. *)
Definition fileread (i : nat) (n : Z) : M (kern S) (Z * list Z) :=
  f ← the_file i;
  if negb (f_readable f) then mret (-1, [])
  else match f_type f with
  | FD_PIPE =>
      killed ← gets k_killed;
      r ← on_pipe (f_pipe f) (piperead killed n);
      match r with
      | RRet r bytes => mret (r, bytes)
      | RSleep => asleep chan_read
      end
  | FD_INODE =>
      on_fs (ilock (f_ip f));;
      r ← on_fs (readi (f_ip f) (f_off f) (u32 n));
      (if 0 <? r.1 then upd_file i (λ f, set_f_off (u32 (f_off f + r.1)) f) else mret tt);;
      on_fs (iunlock (f_ip f));;
      mret r
  | FD_NONE => panic "fileread"
  end.

(** The most bytes one transaction writes. *)
Definition write_max : Z := (MAXOPBLOCKS - 1 - 1 - 2) / 2 * 512.

(** The loop of [filewrite]; [k] is the source's [i]. *)
Fixpoint filewrite_loop (fuel : nat) (i : nat) (addr : list Z) (k n : Z) : M (kern S) Z :=
  match fuel with
  | O => diverge
  | Datatypes.S fuel' =>
      if k <? n then
        let n1 := if write_max <? n - k then write_max else n - k in
        begin_txn;;
        f ← the_file i;
        on_fs (ilock (f_ip f));;
        r ← on_fs (writei (f_ip f) (drop (Z.to_nat k) addr) (f_off f) n1);
        (if 0 <? r then upd_file i (λ f, set_f_off (u32 (f_off f + r)) f) else mret tt);;
        on_fs (iunlock (f_ip f));;
        end_txn;;
        if r <? 0 then mret k
        else if negb (r =? n1) then panic "short filewrite"
        else filewrite_loop fuel' i addr (k + r) n
      else mret k
  end.

Definition filewrite (i : nat) (addr : list Z) (n : Z) : M (kern S) Z :=
  f ← the_file i;
  if negb (f_writable f) then mret (-1)
  else match f_type f with
  | FD_PIPE =>
      killed ← gets k_killed;
      r ← on_pipe (f_pipe f) (pipewrite killed addr n 0);
      match r with
      | WRet r => mret r
      | WSleep _ => asleep chan_write
      end
  | FD_INODE =>
      k ← filewrite_loop (Z.to_nat n + 1) i addr 0 n;
      mret (if k =? n then n else -1)
  | FD_NONE => panic "filewrite"
  end.

(** The two ends of a new pipe. *)
Definition pipealloc : M (kern S) (option (nat * nat)) :=
  f0 ← filealloc;
  f1 ← match f0 with None => mret None | Some _ => filealloc end;
  p ← match f1 with None => mret 0 | Some _ => on_mem kalloc end;
  match f0, f1 with
  | Some i, Some j =>
      if negb (p =? 0) then
        modify (λ s, set_k_pipes (<[p:=new_pipe (replicate 512 1)]> (k_pipes s)) s);;
        upd_file i (set_f_pipe true false p);;
        upd_file j (set_f_pipe false true p);;
        mret (Some (i, j))
      else fileclose i;; fileclose j;; mret None
  | Some i, None => fileclose i;; mret None
  | _, _ => mret None
  end.
End file.

(** ** Reference counts *)

Definition count (h : list nat) (i : nat) : nat := length (filter (eq i) h).

Lemma count_cons h i j : count (j :: h) i = ((if decide (i = j) then 1 else 0) + count h i)%nat.
Proof. unfold count. rewrite filter_cons. by case_decide. Qed.

Lemma count_remove h1 h2 i j : count (h1 ++ j :: h2) i = ((if decide (i = j) then 1 else 0) + count (h1 ++ h2) i)%nat.
Proof. unfold count. rewrite !filter_app, filter_cons, !length_app. case_decide; simpl; lia. Qed.

Lemma count_length h i : (count h i ≤ length h)%nat.
Proof. apply length_filter. Qed.

Lemma count_elem h i : i ∈ h → (0 < count h i)%nat.
Proof.
  intros Hi. unfold count. destruct (filter (eq i) h) eqn:E; [|simpl; lia].
  assert (i ∈ filter (eq i) h) as Hf by (by apply list_elem_of_filter). rewrite E in Hf. by apply elem_of_nil in Hf.
Qed.

Lemma count_not_elem h i : i ∉ h → count h i = 0%nat.
Proof.
  induction h as [|j h IH]; [done|]. rewrite not_elem_of_cons. intros [Hj Hh]. by rewrite count_cons, decide_False, IH.
Qed.

Section refs.
Context (kend : Z) {S : Type} `{TxOps S} `{DevSw S} `{TxnOps S}.
Implicit Types (s : kern S) (h : list nat).

(** What the kernel does with open files: [h] are the references to entries
    of the table that processes and system calls have. *)
Inductive fstep : kern S * list nat → kern S * list nat → Prop :=
  | fst_alloc s h i s' : Z.of_nat (length h) < 2 ^ 31 - 1 → filealloc s = Done (Some i) s' → fstep (s, h) (s', i :: h)
  | fst_full s h s' : filealloc s = Done None s' → fstep (s, h) (s', h)
  | fst_dup s h i j s' : i ∈ h → Z.of_nat (length h) < 2 ^ 31 - 1 → filedup i s = Done j s' → fstep (s, h) (s', i :: h)
  | fst_close s h1 i h2 s' : fileclose kend i s = Done tt s' → fstep (s, h1 ++ i :: h2) (s', h1 ++ h2)
  | fst_use s h s' : k_ftlock s' = k_ftlock s → f_ref <$> k_file s' = f_ref <$> k_file s → fstep (s, h) (s', h).

Record refs_ok s h : Prop := {
  ro_lock : k_ftlock s = false;
  ro_small : Z.of_nat (length h) < 2 ^ 31;
  ro_ref i f : k_file s !! i = Some f → f_ref f = Z.of_nat (count h i);
  ro_in i : i ∈ h → (i < length (k_file s))%nat
}.

Lemma run_filealloc s : k_ftlock s = false →
  filealloc s = match fst <$> list_find (λ f, f_ref f = 0) (k_file s) with
                | Some i => Done (Some i) (set_k_file (alter (set_f_ref 1) i (k_file s)) s)
                | None => Done None s
                end.
Proof.
  intros Hl. destruct s. cbn in Hl. subst.
  unfold filealloc, acquire_ft, release_ft, acquire, release, upd_file, gets, modify, mbind, M_bind. cbn.
  by destruct (list_find _ _) as [[i f]|].
Qed.

Lemma run_filedup s i f : k_ftlock s = false → k_file s !! i = Some f → 1 ≤ f_ref f →
  filedup i s = Done i (set_k_file (alter (set_f_ref (i32 (f_ref f + 1))) i (k_file s)) s).
Proof.
  intros Hl Hf Hr. destruct s. cbn in *. subst.
  unfold filedup, acquire_ft, release_ft, acquire, release, the_file, upd_file, gets, modify, mbind, M_bind. cbn. rewrite (list_lookup_total_correct _ _ _ Hf).
  by rewrite (proj2 (Z.ltb_ge _ _)) by done.
Qed.

(** Routines of the other components leave the table alone. *)
Lemma wlp_on_fs {A} (m : M (fs S) A) (Q : A → kern S → Prop) s :
  (∀ a v, Q a (set_k_fs v s)) → wlp false (on_fs m) Q s.
Proof. intros HQ. unfold wlp, on_fs, zoom. by destruct (m (k_fs s)). Qed.

Lemma wlp_on_mem {A} (m : M kmem A) (Q : A → kern S → Prop) s :
  (∀ a v, Q a (set_k_mem v s)) → wlp false (on_mem m) Q s.
Proof. intros HQ. unfold wlp, on_mem, zoom. by destruct (m (k_mem s)). Qed.

Lemma wlp_on_pipe {A} a (m : M pipe A) (Q : A → kern S → Prop) s :
  (∀ r v, Q r (set_k_pipes v s)) → wlp false (on_pipe a m) Q s.
Proof. intros HQ. unfold wlp, on_pipe, zoom. destruct (k_pipes s !! a) as [p|]; [|done]. by destruct (m p). Qed.

Lemma fileclose_refs s i f : k_ftlock s = false → k_file s !! i = Some f → 1 ≤ f_ref f < 2 ^ 31 →
  wlp false (fileclose kend i) (λ _ s', k_ftlock s' = false ∧
    ∃ g, k_file s' = alter g i (k_file s) ∧ f_ref (g f) = f_ref f - 1 ∧ (1 < f_ref f → f_type (g f) = f_type f)) s.
Proof.
  intros Hl Hf Hr. unfold fileclose, acquire_ft, acquire, release_ft, release, the_file, upd_file.
  wlp_step. unfold wlp at 1. rewrite Hl. wlp_steps. cbn [k_file set_k_ftlock]. rewrite (list_lookup_total_correct _ _ _ Hf).
  rewrite (proj2 (Z.ltb_ge _ _)) by lia. wlp_steps. rewrite i32_small by lia.
  destruct (Z.ltb_spec 0 (f_ref f - 1)) as [Hp|Hz].
  - unfold wlp. cbn. split; [done|]. by eexists.
  - wlp_steps. unfold wlp at 1. cbn [k_ftlock set_k_file set_k_ftlock k_file].
    assert (HR : ∃ g, alter set_f_none i (alter (set_f_ref (f_ref f - 1)) i (k_file s)) = alter g i (k_file s) ∧ f_ref (g f) = f_ref f - 1 ∧ (1 < f_ref f → f_type (g f) = f_type f)).
    { exists (set_f_none ∘ set_f_ref (f_ref f - 1)). split; [|cbn; split; lia]. apply list_eq. intros j.
      destruct (decide (i = j)) as [<-|]; [rewrite !list_lookup_alter_eq; by destruct (k_file s !! i)|by rewrite !list_lookup_alter_ne]. }
    destruct (f_type f).
    + wlp_steps. split; [done|]. exact HR.
    + unfold pipeclose_free. wlp_steps. apply wlp_on_pipe. intros [] v; [|by wlp_steps].
      wlp_steps. apply wlp_on_mem. intros [] v'. by wlp_steps.
    + unfold begin_txn, end_txn. wlp_step. apply wlp_on_fs. intros [] v. wlp_step. apply wlp_on_fs. intros [] v'.
      apply wlp_on_fs. intros [] v''. by split.
Qed.

Lemma find_free (l : list file) i : fst <$> list_find (λ f, f_ref f = 0) l = Some i → ∃ f, l !! i = Some f ∧ f_ref f = 0.
Proof. intros ([j f]&(Hf&Hz&_)%list_find_Some& ->)%fmap_Some. by exists f. Qed.

Lemma refs_alter s s' h h' i f g : refs_ok s h → k_ftlock s' = false → k_file s' = alter g i (k_file s) →
  k_file s !! i = Some f → f_ref (g f) = Z.of_nat (count h' i) → (∀ j, j ≠ i → count h' j = count h j) →
  Z.of_nat (length h') < 2 ^ 31 → (∀ j, j ∈ h' → j = i ∨ j ∈ h) → refs_ok s' h'.
Proof.
  intros [R1 R2 R3 R4] Hl Ef Hf Hg Ho Hsm Hin. pose proof (lookup_lt_Some _ _ _ Hf) as Hi. split; [done|done|..].
  - intros j f'. rewrite Ef. destruct (decide (i = j)) as [<-|Hj].
    + rewrite list_lookup_alter_eq, Hf. by intros [= <-].
    + rewrite list_lookup_alter_ne by done. rewrite Ho by done. apply R3.
  - intros j Hj. rewrite Ef, length_alter. destruct (Hin j Hj) as [->|]; auto.
Qed.

Lemma fstep_refs x y : fstep x y → refs_ok x.1 x.2 → refs_ok y.1 y.2.
Proof.
  intros Hst R. destruct Hst as [s h i s' Hsm E|s h s' E|s h i j s' Hi Hsm E|s h1 i h2 s' E|s h s' El Ef]; cbn in *.
  - rewrite (run_filealloc s (ro_lock _ _ R)) in E. destruct (fst <$> _) as [j|] eqn:Ej; [|done]. injection E as -> <-.
    destruct (find_free _ _ Ej) as (f&Hf&Hz). pose proof (ro_ref _ _ R i f Hf) as Hc.
    eapply (refs_alter s _ h _ i f _ R); [apply (ro_lock _ _ R)|done|done|..]; cbn [f_ref set_f_ref length].
    + rewrite count_cons, decide_True by done. lia.
    + intros j Hj. by rewrite count_cons, decide_False.
    + lia.
    + intros j. rewrite elem_of_cons. tauto.
  - rewrite (run_filealloc s (ro_lock _ _ R)) in E. destruct (fst <$> _) as [j|] eqn:Ej; [done|]. by injection E as <-.
  - destruct (lookup_lt_is_Some_2 _ _ (ro_in _ _ R i Hi)) as [f Hf]. pose proof (ro_ref _ _ R i f Hf) as Hc.
    pose proof (count_elem h i Hi). pose proof (count_length h i).
    rewrite (run_filedup s i f (ro_lock _ _ R) Hf ltac:(lia)) in E. injection E as -> <-.
    eapply (refs_alter s _ h _ j f _ R); [apply (ro_lock _ _ R)|done|done|..]; cbn [f_ref set_f_ref length].
    + rewrite i32_small, count_cons, decide_True by (done || lia). lia.
    + intros j' Hj. by rewrite count_cons, decide_False.
    + lia.
    + intros j'. rewrite elem_of_cons. tauto.
  - assert (i ∈ h1 ++ i :: h2) as Hi by set_solver.
    destruct (lookup_lt_is_Some_2 _ _ (ro_in _ _ R i Hi)) as [f Hf]. pose proof (ro_ref _ _ R i f Hf) as Hc.
    pose proof (count_elem _ _ Hi). pose proof (count_length (h1 ++ i :: h2) i). pose proof (ro_small _ _ R) as Hsm.
    destruct (wlp_elim false _ _ _ _ _ (fileclose_refs s i f (ro_lock _ _ R) Hf ltac:(lia)) E) as (Hl&g&Eg&Hg&_).
    rewrite count_remove, decide_True in Hc by done.
    eapply (refs_alter s _ (h1 ++ i :: h2) _ i f _ R); [done|done|done|..].
    + lia.
    + intros j Hj. by rewrite count_remove, decide_False.
    + rewrite length_app in *. simpl in Hsm. lia.
    + set_solver.
  - destruct R as [R1 R2 R3 R4]. split; [congruence|done|..].
    + intros i f Hf. assert ((f_ref <$> k_file s') !! i = Some (f_ref f)) as Hi by (by rewrite list_lookup_fmap, Hf).
      rewrite Ef, list_lookup_fmap in Hi. apply fmap_Some in Hi as (f'&Hf'&Er). rewrite Er. by apply R3.
    + intros i Hi. apply R4 in Hi. assert (length (f_ref <$> k_file s') = length (f_ref <$> k_file s)) as El' by congruence.
      rewrite !length_fmap in El'. lia.
Qed.

(** No reference exists and every entry is free. *)
Definition no_files s : Prop := k_ftlock s = false ∧ ∀ i f, k_file s !! i = Some f → f_ref f = 0.

(** the reference count of an open file is the number of references to it,
    in every sequence of [filealloc], [filedup] and [fileclose]: a file that
    somebody refers to is never handed out again nor its slot reused,
    [filealloc] fails only when every entry is referred to, and neither
    [filedup] nor the count check of [fileclose] fails on a file that is
    referred to. *)
Theorem file_refs_exact s0 s h : no_files s0 → rtc fstep (s0, []) (s, h) →
  (∀ i f, k_file s !! i = Some f → f_ref f = Z.of_nat (count h i)) ∧
  (∀ i s', filealloc s = Done (Some i) s' → i ∉ h) ∧
  (∀ s', filealloc s = Done None s' → ∀ i, (i < length (k_file s))%nat → i ∈ h) ∧
  (∀ i, i ∈ h → ∃ s', filedup i s = Done i s') ∧
  (∀ i, i ∈ h → 1 ≤ f_ref (k_file s !!! i)).
Proof.
  intros [Hl Hz] Hr. assert (R0 : refs_ok s0 []).
  { split; [done|simpl; lia|intros i f Hf; by apply Hz in Hf|intros i Hi; by apply elem_of_nil in Hi]. }
  assert (R : refs_ok (s, h).1 (s, h).2).
  { change s0 with (s0, @nil nat).1 in R0. change [] with (s0, @nil nat).2 in R0 at 2. revert R0.
    induction Hr as [|x y z Hxy _ IH]; intros Hx; [done|]. by apply IH, (fstep_refs x). }
  cbn in R. clear R0 Hr. assert (Hin : ∀ i, i ∈ h → ∃ f, k_file s !! i = Some f ∧ 1 ≤ f_ref f).
  { intros i Hi. destruct (lookup_lt_is_Some_2 _ _ (ro_in _ _ R i Hi)) as [f Hf]. exists f. split; [done|].
    rewrite (ro_ref _ _ R i f Hf). pose proof (count_elem h i Hi). lia. }
  split_and!.
  - apply (ro_ref _ _ R).
  - intros i s'. rewrite (run_filealloc s (ro_lock _ _ R)). destruct (fst <$> _) as [j|] eqn:Ej; [|done].
    intros [= -> _] Hi. destruct (find_free _ _ Ej) as (f&Hf&Hfz), (Hin i Hi) as (f'&Hf'&?). simplify_eq. lia.
  - intros s'. rewrite (run_filealloc s (ro_lock _ _ R)). destruct (list_find _ _) as [|] eqn:Ej; [done|]. intros _ i Hi.
    destruct (lookup_lt_is_Some_2 _ _ Hi) as [f Hf]. apply list_find_None in Ej. rewrite Forall_lookup in Ej.
    pose proof (Ej i f Hf) as Hnz. rewrite (ro_ref _ _ R i f Hf) in Hnz.
    destruct (decide (i ∈ h)) as [|Hni]; [done|]. exfalso. apply Hnz. by rewrite count_not_elem.
  - intros i Hi. destruct (Hin i Hi) as (f&Hf&Hf1). eexists. by apply (run_filedup s i f (ro_lock _ _ R) Hf).
  - intros i Hi. destruct (Hin i Hi) as (f&Hf&Hf1). by rewrite (list_lookup_total_correct _ _ _ Hf).
Qed.
End refs.

(** Two entries, one of them taken, duplicated and closed once. *)
Module Demo.
#[local] Instance no_devices : DevSw (log bio) := { dev_read _ := None; dev_write _ := None }.
Definition table (f : file) : kern (log bio) :=
  mkkern (mkfs (mklog (mkbio [] false ∅ 0 [] 1) false 0 0 0 false 0 0 [] []) (mksb 0 0 0 0 0 0 0) false [] 0 0)
    (mkkmem ∅ false false 0) ∅ false [f; zero_file] false.

Lemma opened : rtc (fstep KERNBASE) (table zero_file, []) (table (mkfile FD_NONE 1 false false 0 0 0), [0%nat]).
Proof.
  eapply rtc_l; [eapply (fst_alloc _ _ _ 0%nat (table (mkfile FD_NONE 1 false false 0 0 0))); [simpl; lia|by vm_compute]|].
  eapply rtc_l; [eapply (fst_dup _ _ _ 0%nat 0%nat (table (mkfile FD_NONE 2 false false 0 0 0))); [left|simpl; lia|by vm_compute]|].
  eapply rtc_l; [eapply (fst_close KERNBASE _ [0%nat] 0%nat []); by vm_compute|]. apply rtc_refl.
Qed.
End Demo.

Lemma file_refs_exact_witness :
  f_ref (k_file (Demo.table (mkfile FD_NONE 1 false false 0 0 0)) !!! 0%nat) = 1 ∧
  ∃ s', filedup 0 (Demo.table (mkfile FD_NONE 1 false false 0 0 0)) = Done 0%nat s'.
Proof.
  destruct (file_refs_exact KERNBASE (Demo.table zero_file) _ _ ltac:(split; [done|by intros [|[|i]] f; cbn; intros; simplify_eq]) Demo.opened)
    as (H1&_&_&H2&_).
  split; [exact (H1 0%nat _ eq_refl)|apply H2; left].
Defined.
