(* ===== verification/Kernel.v ===== *)
(** * The kernel as one state

    proc.c runs on the state of file.c, fs.c, pipe.c, kalloc.c and vm.c
    together: [kern_ops] is the instance of its interface.  Also the accesses
    of the kernel to the memory of the running process, [loaduvm] of vm.c and
    the program loader exec.c. *)

From S2P Require Import Prelude Params Mmu Str Block Sleeplock Format Log Tx Fs Kalloc Vm VmSpec Pipe Spinlock Proc File.

(** ** The memory of the running process *)

(** A byte at user address [va]; an address that is not mapped faults. *)
Definition uload1 (pgdir va : Z) : M kmem Z := λ s,
  let e := entry (km_mem s) pgdir va in
  if present e then Done ((km_mem s !!! P2V (PTE_ADDR e)) !!! Z.to_nat (va mod PGSIZE)) s else Undef.

Fixpoint uload (n : nat) (pgdir va : Z) : M kmem (list Z) :=
  match n with
  | O => mret []
  | S n' =>
      b ← uload1 pgdir va;
      l ← uload n' pgdir (u32 (va + 1));
      mret (b :: l)
  end.

Definition ustore1 (pgdir va b : Z) : M kmem unit := λ s,
  let e := entry (km_mem s) pgdir va in
  let v := P2V (PTE_ADDR e) in
  if present e then Done tt (set_km_mem (<[v:=<[Z.to_nat (va mod PGSIZE):=b]> (km_mem s !!! v)]> (km_mem s)) s) else Undef.

Fixpoint ustore (pgdir va : Z) (l : list Z) : M kmem unit :=
  match l with
  | [] => mret tt
  | b :: l' => ustore1 pgdir va b;; ustore pgdir (u32 (va + 1)) l'
  end.

Section kernel.
(** Where the kernel image and its read-only part end, and the program the
    first process runs: symbols of the linker. *)
Context (kend data : Z) (initcode : list Z) {S : Type} `{TxOps S} `{DevSw S} `{TxnOps S}.
Implicit Types s : kern S.

(** The process in whose context fs.c and pipe.c run. *)
Definition set_me (pid : Z) (cwd : nat) (killed : bool) : M (kern S) unit :=
  modify (λ s, set_k_killed killed
    (set_k_fs (mkfs (fs_tx (k_fs s)) (fs_sb (k_fs s)) (icache_lock (k_fs s)) (icache (k_fs s)) pid cwd) s)).

Definition kern_ops (fsinit : M (kern S) unit) : ProcOps (kern S) := {|
  op_kalloc := on_mem kalloc;
  op_kfree v := on_mem (kfree kend v);
  op_setupkvm := on_mem (setupkvm kend data);
  op_inituvm d := on_mem (inituvm d initcode (Z.of_nat (length initcode)));
  op_copyuvm d sz := on_mem (copyuvm kend data d sz);
  op_allocuvm d old new := on_mem (allocuvm kend d old new);
  op_deallocuvm d old new := on_mem (deallocuvm kend d old new);
  op_freevm d := on_mem (freevm kend d);
  op_filedup i := filedup i;
  op_fileclose i := fileclose kend i;
  op_idup ip := on_fs (idup ip);
  op_iput ip := on_fs (iput ip);
  op_namei path := on_fs (namei path);
  op_begin_op := begin_txn;
  op_end_op := end_txn;
  op_fsinit := fsinit
|}.

(** ** loaduvm (vm.c) *)

Fixpoint loaduvm_loop (fuel : nat) (pgdir addr : Z) (ip : nat) (offset i sz : Z) : M (kern S) Z :=
  match fuel with
  | O => diverge
  | Datatypes.S fuel' =>
      if i <? sz then
        pte ← on_mem (walkpgdir pgdir (u32 (addr + i)) false);
        if pte =? 0 then panic "loaduvm: address should exist"
        else
          e ← on_mem (load32 pte);
          let pa := PTE_ADDR e in
          let n := if sz - i <? PGSIZE then sz - i else PGSIZE in
          r ← on_fs (readi ip (u32 (offset + i)) n);
          p ← on_mem (load_page (P2V pa));
          on_mem (store_page (P2V pa) (splice 0 r.2 p));;
          if negb (r.1 =? n) then mret (-1)
          else loaduvm_loop fuel' pgdir addr ip offset (u32 (i + PGSIZE)) sz
      else mret 0
  end.

Definition loaduvm (pgdir addr : Z) (ip : nat) (offset sz : Z) : M (kern S) Z :=
  if negb (addr mod PGSIZE =? 0) then panic "loaduvm: addr must be page aligned"
  else loaduvm_loop (Z.to_nat (sz / PGSIZE) + 2) pgdir addr ip offset 0 sz.

(** ** exec.c *)

(** elf.h *)
Definition ELF_MAGIC : Z := 1179403647.
Definition ELF_PROG_LOAD : Z := 1.
Record elfhdr := mkelf { elf_magic : Z; elf_entry : Z; elf_phoff : Z; elf_phnum : Z }.
Definition ELFHDR_SIZE : nat := 52.
Definition decode_elfhdr (l : list Z) : elfhdr := mkelf (get32 l 0) (get32 l 24) (get32 l 28) (get16 l 44).
Record proghdr := mkph { ph_type : Z; ph_off : Z; ph_vaddr : Z; ph_filesz : Z; ph_memsz : Z }.
Definition PROGHDR_SIZE : nat := 32.
Definition decode_proghdr (l : list Z) : proghdr :=
  mkph (get32 l 0) (get32 l 4) (get32 l 8) (get32 l 16) (get32 l 20).

(** The size after loading the segments from header [i] on, at file offset
    [off]; [None] is [goto bad]. *)
Fixpoint load_segments (fuel : nat) (pgdir : Z) (ip : nat) (off sz : Z) : M (kern S) (option Z) :=
  match fuel with
  | O => mret (Some sz)
  | Datatypes.S fuel' =>
      r ← on_fs (readi ip off (Z.of_nat PROGHDR_SIZE));
      let ph := decode_proghdr r.2 in
      let next := u32 (off + Z.of_nat PROGHDR_SIZE) in
      if negb (r.1 =? Z.of_nat PROGHDR_SIZE) then mret None
      else if negb (ph_type ph =? ELF_PROG_LOAD) then load_segments fuel' pgdir ip next sz
      else if ph_memsz ph <? ph_filesz ph then mret None
      else if u32 (ph_vaddr ph + ph_memsz ph) <? ph_vaddr ph then mret None
      else
        sz' ← on_mem (allocuvm kend pgdir sz (u32 (ph_vaddr ph + ph_memsz ph)));
        if sz' =? 0 then mret None
        else if negb (ph_vaddr ph mod PGSIZE =? 0) then mret None
        else
          r ← loaduvm pgdir (ph_vaddr ph) ip (ph_off ph) (ph_filesz ph);
          if r <? 0 then mret None else load_segments fuel' pgdir ip next sz'
  end.

(** The strings pushed below [sp], and the addresses they got. *)
Fixpoint push_args (pgdir sp : Z) (argc : nat) (argv : list (list Z)) (at_ : list Z) : M (kern S) (option (Z * list Z)) :=
  match argv with
  | [] => mret (Some (sp, at_))
  | a :: argv' =>
      if (MAXARG <=? argc)%nat then mret None
      else
        let len := Z.of_nat (length a) + 1 in
        let sp := Z.land (u32 (sp - len)) (Z.lnot 3) in
        r ← on_mem (copyout pgdir sp (a ++ [0]) len);
        if r <? 0 then mret None
        else push_args pgdir sp (Datatypes.S argc) argv' (at_ ++ [sp])
  end.

(** The words below the strings: fake return address, argc, argv and its elements. *)
Definition ustack (sp : Z) (at_ : list Z) : list Z :=
  let argc := Z.of_nat (length at_) in
  [4294967295; argc; u32 (sp - (argc + 1) * 4)] ++ at_ ++ [0].

(** The new stack: the user's [sp] or failure. *)
Definition exec_stack (pgdir sz : Z) (argv : list (list Z)) : M (kern S) (option Z) :=
  r ← push_args pgdir sz 0 argv [];
  match r with
  | None => mret None
  | Some (sp, at_) =>
      let words := ustack sp at_ in
      let len := 4 * Z.of_nat (length words) in
      let sp' := u32 (sp - len) in
      r ← on_mem (copyout pgdir sp' (concat (le_bytes 4 <$> words)) len);
      mret (if r <? 0 then None else Some sp')
  end.

(** The last element of a path. *)
Fixpoint base_name (last s : list Z) : list Z :=
  match s with
  | [] => last
  | c :: s' => if c =? 0 then last else base_name (if c =? slash then s' else last) s'
  end.

Definition exec_bad (pgdir : Z) (ip : option nat) : M (kern S) Z :=
  (if negb (pgdir =? 0) then on_mem (freevm kend pgdir) else mret tt);;
  match ip with
  | Some ip => on_fs (iunlockput ip);; end_txn
  | None => mret tt
  end;;
  mret (-1).

(** [exec] up to the commitment to the new image: the page table, the size,
    the entry point and the stack pointer. *)
Definition exec_image (path : list Z) (argv : list (list Z)) : M (kern S) (Z + Z * Z * Z * Z) :=
  begin_txn;;
  ip ← on_fs (namei path);
  match ip with
  | None => end_txn;; mret (inl (-1))
  | Some ip =>
      on_fs (ilock ip);;
      r ← on_fs (readi ip 0 (Z.of_nat ELFHDR_SIZE));
      let elf := decode_elfhdr r.2 in
      if negb (r.1 =? Z.of_nat ELFHDR_SIZE) then r ← exec_bad 0 (Some ip); mret (inl r)
      else if negb (elf_magic elf =? ELF_MAGIC) then r ← exec_bad 0 (Some ip); mret (inl r)
      else
        pgdir ← on_mem (setupkvm kend data);
        if pgdir =? 0 then r ← exec_bad 0 (Some ip); mret (inl r)
        else
          sz ← load_segments (Z.to_nat (elf_phnum elf)) pgdir ip (elf_phoff elf) 0;
          match sz with
          | None => r ← exec_bad pgdir (Some ip); mret (inl r)
          | Some sz =>
              on_fs (iunlockput ip);;
              end_txn;;
              let sz := PGROUNDUP sz in
              sz ← on_mem (allocuvm kend pgdir sz (u32 (sz + 2 * PGSIZE)));
              if sz =? 0 then r ← exec_bad pgdir None; mret (inl r)
              else
                on_mem (clearpteu pgdir (u32 (sz - 2 * PGSIZE)));;
                sp ← exec_stack pgdir sz argv;
                match sp with
                | None => r ← exec_bad pgdir None; mret (inl r)
                | Some sp => mret (inr (pgdir, sz, elf_entry elf, sp))
                end
          end
  end.
End kernel.
