(* ===== verification/ExecStack.v ===== *)
(** * The stack of a new program (exec.c)

    [exec] leaves the argument strings, the array [argv] and [argc] on the new
    user stack; the program finds them there. *)

From S2P Require Import Prelude Params Mmu Str Block Sleeplock Format Bio Log Tx Fs Kalloc Vm VmSpec VmUser Pipe Spinlock Proc File Kernel.

(** ** Words as bytes *)

Lemma concat_words (ws : list Z) i j w : ws !! i = Some w → (j < 4)%nat →
  concat (le_bytes 4 <$> ws) !! (4 * i + j)%nat = le_bytes 4 w !! j.
Proof.
  revert i. induction ws as [|x ws IH]; intros i Hi Hj; [done|]. rewrite fmap_cons. cbn [concat].
  destruct i as [|i]; cbn in Hi.
  - injection Hi as ->. rewrite lookup_app_l; [done|rewrite length_le_bytes; lia].
  - rewrite lookup_app_r by (rewrite length_le_bytes; lia). rewrite length_le_bytes.
    replace (4 * S i + j - 4)%nat with (4 * i + j)%nat by lia. by apply IH.
Qed.

Lemma length_concat_words (ws : list Z) : length (concat (le_bytes 4 <$> ws)) = (4 * length ws)%nat.
Proof.
  induction ws as [|x ws IH]; [done|]. rewrite fmap_cons. cbn [concat]. rewrite length_app, length_le_bytes, IH. cbn. lia.
Qed.

Lemma land_lnot3 x : Z.land x (Z.lnot 3) = x - x mod 4.
Proof.
  change 3 with (Z.ones 2). rewrite <- Z.ldiff_land, Z.ldiff_ones_r, Z.shiftl_mul_pow2, Z.shiftr_div_pow2 by lia.
  change (2 ^ 2) with 4. dlia.
Qed.

Section stack.
Context (kend pgdir : Z) {S : Type} `{TxOps S} `{DevSw S} `{TxnOps S}.
Implicit Types (s : kern S) (m : kmem) (l : list Z).
Abbreviation ubyte := (ubyte pgdir).
Abbreviation um_ok := (um_ok kend pgdir).

(** What the program reads: a word, and a string with its NUL. *)
Definition uword m (va : Z) : Z := le_value [ubyte m va; ubyte m (va + 1); ubyte m (va + 2); ubyte m (va + 3)].
Definition ustr m (va : Z) (str : list Z) : Prop :=
  ∀ k, (k ≤ length str)%nat → ubyte m (va + Z.of_nat k) = (str ++ [0]) !!! k.

(** The stack page, [lo] to [hi], is accessible. *)
Context (l : list Z) (lo hi : Z) (Hlo : 0 ≤ lo) (Hhi : lo ≤ hi ≤ 2 ^ 31).
Definition stack_ok m : Prop := um_ok m l ∧ ∀ w, lo ≤ w < hi → accessible pgdir m w = true.

(** Bytes are stored at [va] and nothing else changes. *)
Lemma stack_copyout m va src len : stack_ok m → lo ≤ va → len = Z.of_nat (length src) → va + len ≤ hi →
  ∃ m', copyout pgdir va src len m = Done 0 m' ∧ stack_ok m' ∧
    ∀ w, lo ≤ w < hi → ubyte m' w = if decide (va ≤ w < va + len) then src !!! Z.to_nat (w - va) else ubyte m w.
Proof.
  intros [U Ha] Hva -> Hle.
  destruct (copyout_loop_spec kend pgdir l (Z.to_nat (Z.of_nat (length src) / PGSIZE) + 3) m va src (Z.of_nat (length src)) U)
    as (m'&E&U'&He&Hb); [lia|lia|lia|change PGSIZE with 4096; dlia|intros w Hw; apply Ha; lia|].
  exists m'. split; [exact E|]. split.
  - split; [done|]. intros w Hw. unfold accessible. rewrite He. by apply Ha.
  - intros w Hw. apply Hb; [lia|by apply Ha].
Qed.

(** The most space the strings can take. *)
Definition args_size (argv : list (list Z)) : Z := foldr (λ a n, Z.of_nat (length a) + 4 + n) 0 argv.

Lemma args_size_nonneg argv : 0 ≤ args_size argv.
Proof. unfold args_size. induction argv; cbn [foldr]; lia. Qed.

Lemma push_args_spec argv : ∀ s sp argc at_, stack_ok (k_mem s) → sp mod 4 = 0 → sp ≤ hi → lo + args_size argv ≤ sp →
  (argc + length argv ≤ MAXARG)%nat →
  ∃ m' sp' new, push_args pgdir sp argc argv at_ s = Done (Some (sp', at_ ++ new)) (set_k_mem m' s) ∧ stack_ok m' ∧
    length new = length argv ∧ sp' mod 4 = 0 ∧ sp - args_size argv ≤ sp' ≤ sp ∧
    (∀ w, sp ≤ w < hi → ubyte m' w = ubyte (k_mem s) w) ∧
    (∀ k a str, new !! k = Some a → argv !! k = Some str → sp' ≤ a ∧ a + Z.of_nat (length str) + 1 ≤ sp ∧ ustr m' a str).
Proof.
  induction argv as [|x argv IH]; intros s sp argc at_ K Hm Hsp Hlow Hargc.
  { exists (k_mem s), sp, []. rewrite app_nil_r. cbn [push_args]. split_and!; try done; [by destruct s|cbn; lia..]. }
  cbn [args_size foldr length] in Hlow, Hargc. fold (args_size argv) in Hlow. pose proof (args_size_nonneg argv).
  cbn [push_args]. rewrite (proj2 (Nat.leb_gt _ _)) by (change MAXARG with 32%nat in *; lia).
  rewrite u32_small by lia. rewrite land_lnot3. set (len := Z.of_nat (length x) + 1). set (a := sp - len - (sp - len) mod 4).
  assert (a mod 4 = 0 ∧ sp - len - 4 < a ≤ sp - len) as [Ham Har] by (unfold a; split; dlia).
  assert (sp - len - 3 ≤ a) as Ha3 by (unfold a; dlia).
  destruct (stack_copyout (k_mem s) a (x ++ [0]) len K) as (m1&E1&K1&B1); [unfold len in *; lia|unfold len; rewrite length_app; cbn; lia|lia|].
  unfold mbind at 1, M_bind at 1, on_mem at 1, zoom. rewrite E1. cbn [Z.ltb Z.compare].
  destruct (IH (set_k_mem m1 s) a (Datatypes.S argc) (at_ ++ [a])) as (m2&sp2&new&E2&K2&Hn&Hm2&Hr2&B2&S2); [done|done|lia|unfold len in *; lia|lia|].
  exists m2, sp2, (a :: new). rewrite E2, <- app_assoc. split_and!; try done; [cbn; lia|cbn; fold (args_size argv); unfold len in *; lia|lia|..].
  - intros w Hw. rewrite B2 by lia. cbn. rewrite B1 by lia. by rewrite decide_False by (unfold len in *; lia).
  - intros [|k] b str Hb Hstr; cbn in Hb, Hstr; simplify_eq.
    + split; [lia|]. split; [unfold len in *; lia|]. intros k Hk. rewrite B2 by (unfold len in *; lia). cbn.
      rewrite B1 by (unfold len in *; lia). rewrite decide_True by (unfold len; lia). f_equal. lia.
    + destruct (S2 k b str Hb Hstr) as (?&?&?). split_and!; [lia|unfold len in *; lia|done].
Qed.

(** Words that were copied out are read back. *)
Lemma uword_copied m m' va ws i w : lo ≤ va → va + 4 * Z.of_nat (length ws) ≤ hi →
  (∀ x, lo ≤ x < hi → ubyte m' x = if decide (va ≤ x < va + 4 * Z.of_nat (length ws))
     then concat (le_bytes 4 <$> ws) !!! Z.to_nat (x - va) else ubyte m x) →
  ws !! i = Some w → uword m' (va + 4 * Z.of_nat i) = u32 w.
Proof.
  intros Hva Hle Hb Hi. pose proof (lookup_lt_Some _ _ _ Hi) as Hlt. unfold uword.
  assert (Hj : ∀ j, (j < 4)%nat → ubyte m' (va + 4 * Z.of_nat i + Z.of_nat j) = le_bytes 4 w !!! j).
  { intros j Hj. rewrite Hb, decide_True by lia. apply list_total_eq. rewrite <- (concat_words ws i j w Hi Hj). f_equal. lia. }
  pose proof (Hj 0%nat ltac:(lia)) as J0. rewrite Z.add_0_r in J0.
  pose proof (Hj 1%nat ltac:(lia)) as J1. pose proof (Hj 2%nat ltac:(lia)) as J2. pose proof (Hj 3%nat ltac:(lia)) as J3.
  change (Z.of_nat 1) with 1 in J1. change (Z.of_nat 2) with 2 in J2. change (Z.of_nat 3) with 3 in J3. rewrite J0, J1, J2, J3.
  change (le_value (le_bytes 4 w) = u32 w). by rewrite le_value_bytes.
Qed.

End stack.

