(* ===== verification/Bootmain.v ===== *)
(** * The boot loader (bootmain.c)

    [bootmain] runs on the bare machine: physical memory and the registers of
    the disk controller.  It loads the ELF file that starts at sector 1. *)

From S2P Require Import Prelude Params Mmu Str Kernel.

Definition SECTSIZE : Z := 512.

(** The controller: its registers 0x1F2 to 0x1F6, for how many more polls it is
    busy, and the sector it has ready. *)
Record bootm := mkboot {
  bt_mem : Z → Z;
  bt_count : Z; bt_lba0 : Z; bt_lba1 : Z; bt_lba2 : Z; bt_head : Z;
  bt_busy : nat;
  bt_data : option (list Z)
}.

Section bootmain.
(** The sectors of the disk, and how long the controller takes for each. *)
Context (disk : Z → list Z) (delay : Z → nat).

Definition lba (s : bootm) : Z :=
  bt_lba0 s + 256 * bt_lba1 s + 65536 * bt_lba2 s + 16777216 * Z.land (bt_head s) 15.

(** ** Instructions *)

(** Status: busy (0x80) or ready (0x40). *)
Definition inb_status : M bootm Z := λ s,
  match bt_busy s with
  | O => Done 64 s
  | Datatypes.S n => Done 128 (mkboot (bt_mem s) (bt_count s) (bt_lba0 s) (bt_lba1 s) (bt_lba2 s) (bt_head s) n (bt_data s))
  end.

(** A byte to a register; command 0x20 reads the sector that the registers name. *)
Definition outb (port v : Z) : M bootm unit := modify (λ s,
  let v := u8 v in
  match port with
  | 498 => mkboot (bt_mem s) v (bt_lba0 s) (bt_lba1 s) (bt_lba2 s) (bt_head s) (bt_busy s) (bt_data s)
  | 499 => mkboot (bt_mem s) (bt_count s) v (bt_lba1 s) (bt_lba2 s) (bt_head s) (bt_busy s) (bt_data s)
  | 500 => mkboot (bt_mem s) (bt_count s) (bt_lba0 s) v (bt_lba2 s) (bt_head s) (bt_busy s) (bt_data s)
  | 501 => mkboot (bt_mem s) (bt_count s) (bt_lba0 s) (bt_lba1 s) v (bt_head s) (bt_busy s) (bt_data s)
  | 502 => mkboot (bt_mem s) (bt_count s) (bt_lba0 s) (bt_lba1 s) (bt_lba2 s) v (bt_busy s) (bt_data s)
  | 503 =>
      if (v =? 32) && (bt_count s =? 1) then
        mkboot (bt_mem s) (bt_count s) (bt_lba0 s) (bt_lba1 s) (bt_lba2 s) (bt_head s) (delay (lba s)) (Some (disk (lba s)))
      else s
  | _ => s
  end).

Definition set_mem (m : Z → Z) (s : bootm) : bootm :=
  mkboot m (bt_count s) (bt_lba0 s) (bt_lba1 s) (bt_lba2 s) (bt_head s) (bt_busy s) (bt_data s).
(** Bytes from address [a] on. *)
Definition mem_store (a : Z) (l : list Z) (m : Z → Z) : Z → Z :=
  λ x, if (a <=? x) && (x <? a + Z.of_nat (length l)) then l !!! Z.to_nat (x - a) else m x.
Definition mem_load (m : Z → Z) (a : Z) (n : nat) : list Z := (λ i, m (a + i)) <$> seqZ 0 (Z.of_nat n).

(** The data of the sector, once the controller is ready. *)
Definition insl (dst : Z) : M bootm unit := λ s,
  match bt_busy s, bt_data s with
  | O, Some l => Done tt (set_mem (mem_store dst (take 512 l) (bt_mem s)) s)
  | _, _ => Undef
  end.
Definition stosb (a : Z) (v : Z) (n : nat) : M bootm unit :=
  modify (λ s, set_mem (mem_store a (replicate n (u8 v)) (bt_mem s)) s).

(** ** The loader *)

Fixpoint waitdisk_loop (fuel : nat) : M bootm unit :=
  match fuel with
  | O => diverge
  | Datatypes.S fuel' =>
      st ← inb_status;
      if negb (Z.land st 192 =? 64) then waitdisk_loop fuel' else mret tt
  end.
Definition waitdisk : M bootm unit := n ← gets bt_busy; waitdisk_loop (n + 1).

Definition readsect (dst offset : Z) : M bootm unit :=
  waitdisk;;
  outb 498 1;;
  outb 499 offset;;
  outb 500 (Z.shiftr offset 8);;
  outb 501 (Z.shiftr offset 16);;
  outb 502 (Z.lor (Z.shiftr offset 24) 224);;
  outb 503 32;;
  waitdisk;;
  insl dst.

Fixpoint readseg_loop (fuel : nat) (pa epa offset : Z) : M bootm unit :=
  match fuel with
  | O => diverge
  | Datatypes.S fuel' =>
      if pa <? epa then readsect pa offset;; readseg_loop fuel' (u32 (pa + SECTSIZE)) epa (u32 (offset + 1))
      else mret tt
  end.
Definition readseg (pa count offset : Z) : M bootm unit :=
  let epa := u32 (pa + count) in
  let pa := u32 (pa - offset mod SECTSIZE) in
  let offset := offset / SECTSIZE + 1 in
  readseg_loop (Z.to_nat (count / SECTSIZE) + 3) pa epa offset.

(** The fields of a program header that the loader uses. *)
Record bootph := mkbph { bp_off : Z; bp_paddr : Z; bp_filesz : Z; bp_memsz : Z }.
Definition decode_bootph (l : list Z) : bootph := mkbph (get32 l 4) (get32 l 12) (get32 l 16) (get32 l 20).

(** The segments of [n] program headers from address [ph] on. *)
Fixpoint load_loop (n : nat) (ph : Z) : M bootm unit :=
  match n with
  | O => mret tt
  | Datatypes.S n' =>
      h ← gets (λ s, decode_bootph (mem_load (bt_mem s) ph PROGHDR_SIZE));
      readseg (bp_paddr h) (bp_filesz h) (bp_off h);;
      (if bp_filesz h <? bp_memsz h then stosb (u32 (bp_paddr h + bp_filesz h)) 0 (Z.to_nat (bp_memsz h - bp_filesz h)) else mret tt);;
      load_loop n' (ph + Z.of_nat PROGHDR_SIZE)
  end.

(** Where the kernel starts, or the return to bootasm.S. *)
Definition bootmain : M bootm (option Z) :=
  let elf := 65536 in
  readseg elf 4096 0;;
  h ← gets (λ s, decode_elfhdr (mem_load (bt_mem s) elf ELFHDR_SIZE));
  if negb (elf_magic h =? ELF_MAGIC) then mret None
  else
    load_loop (Z.to_nat (elf_phnum h)) (u32 (elf + elf_phoff h));;
    mret (Some (elf_entry h)).
End bootmain.

(** ** What is loaded *)

Section loads.
(** The bytes of the kernel's file, which the disk has from sector 1 on. *)
Context (disk : Z → list Z) (delay : Z → nat) (img : Z → Z).
Context (Hlen : ∀ k, length (disk k) = 512%nat).
Context (Hdisk : ∀ k j, 0 ≤ k → 0 ≤ j < 512 → disk (k + 1) !!! Z.to_nat j = img (512 * k + j)).

Lemma wp_waitdisk s Q : (∀ s', s' = mkboot (bt_mem s) (bt_count s) (bt_lba0 s) (bt_lba1 s) (bt_lba2 s) (bt_head s) O (bt_data s) → Q tt s') → wp waitdisk Q s.
Proof.
  intros HQ. unfold waitdisk. wp_steps. specialize (HQ _ eq_refl). revert HQ. destruct s as [m c l0 l1 l2 hd n d]. cbn [bt_busy bt_mem bt_count bt_lba0 bt_lba1 bt_lba2 bt_head bt_data].
  intros HQ. induction n as [|n IH]; [exact HQ|]. cbn [waitdisk_loop Nat.add]. unfold wp, mbind, M_bind, inb_status. cbn [bt_busy]. exact IH.
Qed.

(** The registers hold the sector number. *)
Lemma lba_value o : 0 ≤ o < 2 ^ 28 → u8 o + 256 * u8 (Z.shiftr o 8) + 65536 * u8 (Z.shiftr o 16) + 16777216 * Z.land (u8 (Z.lor (Z.shiftr o 24) 224)) 15 = o.
Proof.
  intros Ho. assert (Hb : Z.land (u8 (Z.lor (Z.shiftr o 24) 224)) 15 = Z.shiftr o 24).
  { assert (Hr : 0 ≤ Z.shiftr o 24 < 16). { rewrite Z.shiftr_div_pow2 by lia. split; [dlia|]. apply Z.div_lt_upper_bound; lia. }
    generalize dependent (Z.shiftr o 24). intros z Hz. assert (z ∈ seqZ 0 16) as Hin by (apply elem_of_seqZ; lia). revert z Hin Hz.
    assert (Forall (λ z, Z.land (u8 (Z.lor z 224)) 15 = z) (seqZ 0 16)) as HF by (apply (bool_decide_unpack _); vm_compute; exact I).
    intros z Hin _. by apply (proj1 (Forall_forall _ _) HF). }
  rewrite Hb. unfold u8. rewrite !Z.shiftr_div_pow2 by lia. change (2 ^ 8) with 256. change (2 ^ 16) with 65536. change (2 ^ 24) with 16777216. dlia.
Qed.

Definition loaded (m : Z → Z) (a n off : Z) : Prop := ∀ x, a ≤ x < a + n → m x = img (off + (x - a)).
Definition outside (m m' : Z → Z) (a b : Z) : Prop := ∀ x, x < a ∨ b ≤ x → m' x = m x.

Lemma wp_readsect dst o s : 1 ≤ o < 2 ^ 28 →
  wp (readsect disk delay dst o) (λ _ s', loaded (bt_mem s') dst 512 (512 * (o - 1)) ∧ outside (bt_mem s) (bt_mem s') dst (dst + 512)) s.
Proof using Hlen Hdisk.
  intros Ho. unfold readsect. destruct s as [m c l0 l1 l2 hd n d]. wp_step. apply wp_waitdisk. intros s1 E1. cbn in E1. subst s1.
  do 5 (wp_step; apply wp_modify; cbn [bt_mem bt_count bt_lba0 bt_lba1 bt_lba2 bt_head bt_busy bt_data]).
  wp_step. apply wp_modify. unfold lba. cbn [bt_mem bt_count bt_lba0 bt_lba1 bt_lba2 bt_head bt_busy bt_data].
  rewrite lba_value by lia. change ((u8 32 =? 32) && (u8 1 =? 1)) with true. wp_step. apply wp_waitdisk. intros s2 E2. cbn [bt_mem bt_count bt_lba0 bt_lba1 bt_lba2 bt_head bt_busy bt_data] in E2.
  subst s2. unfold wp, insl. cbn [bt_busy bt_data bt_mem set_mem]. rewrite take_ge by (rewrite Hlen; lia). split; intros x Hx; unfold mem_store; rewrite Hlen.
  - rewrite (proj2 (Z.leb_le _ _)), (proj2 (Z.ltb_lt _ _)) by lia. cbn [andb]. replace o with (o - 1 + 1) at 1 by lia. rewrite Hdisk by lia. f_equal; lia.
  - destruct (Z.leb_spec dst x), (Z.ltb_spec x (dst + Z.of_nat 512)); cbn [andb]; try done; lia.
Qed.

Lemma readseg_loop_ok fuel pa epa o s : 0 ≤ pa → epa + 512 ≤ 2 ^ 32 → 1 ≤ o → o + Z.of_nat fuel < 2 ^ 28 → epa - pa < 512 * (Z.of_nat fuel - 1) → (0 < fuel)%nat →
  wp (readseg_loop disk delay fuel pa epa o) (λ _ s', loaded (bt_mem s') pa (epa - pa) (512 * (o - 1)) ∧ outside (bt_mem s) (bt_mem s') pa (epa + 511)) s.
Proof using Hlen Hdisk.
  revert pa o s. induction fuel as [|fuel IH]; intros pa o s H1 H2 H3 H4 H5 H6; [lia|]. cbn [readseg_loop]. destruct (Z.ltb_spec pa epa) as [Hlt|Hge].
  - wp_step. eapply wp_mono; [apply wp_readsect; lia|]. cbn beta. intros _ s1 [L1 O1]. rewrite !u32_small by (unfold SECTSIZE; lia). unfold SECTSIZE.
    eapply wp_mono; [apply IH; lia|]. cbn beta. intros _ s2 [L2 O2]. split; intros x Hx.
    + destruct (Z.lt_ge_cases x (pa + 512)) as [Hl|Hg]; [rewrite O2 by lia; rewrite L1 by lia; f_equal; lia|]. rewrite L2 by lia. f_equal. lia.
    + rewrite O2 by lia. apply O1. lia.
  - wp_step. split; intros x Hx; [lia|done].
Qed.

(** [readseg] reads the bytes asked for, and at most 511 before and after them. *)
Lemma wp_readseg pa count off s : 0 ≤ off < 2 ^ 32 → 0 ≤ count → off mod 512 ≤ pa → pa + count + 512 ≤ 2 ^ 32 →
  wp (readseg disk delay pa count off) (λ _ s', loaded (bt_mem s') (pa - off mod 512) (off mod 512 + count) (off - off mod 512) ∧
    outside (bt_mem s) (bt_mem s') (pa - off mod 512) (pa + count + 511)) s.
Proof using Hlen Hdisk.
  intros Ho Hc Hp Hw. unfold readseg. pose proof (Z.mod_pos_bound off 512 ltac:(lia)) as Hm. unfold SECTSIZE.
  rewrite !u32_small by lia. assert (Hq : 0 ≤ off / 512 < 2 ^ 23) by (split; [dlia|apply Z.div_lt_upper_bound; lia]).
  assert (Hcq : 0 ≤ count / 512 < 2 ^ 23) by (split; [dlia|apply Z.div_lt_upper_bound; lia]). pose proof (Z.div_mod count 512 ltac:(lia)). pose proof (Z.mod_pos_bound count 512 ltac:(lia)).
  pose proof (Z.div_mod off 512 ltac:(lia)).
  eapply wp_mono; [apply readseg_loop_ok; lia|]. cbn beta. intros _ s' [L O]. split; [|exact O].
  intros x Hx. rewrite L by lia. f_equal. lia.
Qed.

(** ** The segments *)

Context (Hbyte : ∀ x, 0 ≤ img x < 256).

Definition header : elfhdr := decode_elfhdr (mem_load img 0 ELFHDR_SIZE).
Definition segment (i : Z) : bootph := decode_bootph (mem_load img (elf_phoff header + 32 * i) PROGHDR_SIZE).
Definition segments : list bootph := segment <$> seqZ 0 (elf_phnum header).
Definition seg_end (g : bootph) : Z := bp_paddr g + Z.max (bp_filesz g) (bp_memsz g).

(** The segments follow each other upwards from [lo]: also the sector in which a
    segment starts, which is loaded from its beginning, lies above the end of
    the one before. *)
Fixpoint laid_out (lo : Z) (gs : list bootph) : Prop :=
  match gs with
  | [] => True
  | g :: gs' => lo ≤ bp_paddr g - bp_off g mod 512 ∧ seg_end g + 512 ≤ 2 ^ 32 ∧ laid_out (seg_end g) gs'
  end.

(** The segment is in memory: its bytes of the file, then zeros. *)
Definition in_memory (m : Z → Z) (g : bootph) : Prop :=
  (∀ j, 0 ≤ j < bp_filesz g → m (bp_paddr g + j) = img (bp_off g + j)) ∧
  (∀ j, bp_filesz g ≤ j < bp_memsz g → m (bp_paddr g + j) = 0).

Lemma le_value_range l : Forall (λ b, 0 ≤ b < 256) l → 0 ≤ le_value l < 256 ^ Z.of_nat (length l).
Proof.
  induction 1 as [|b l Hb Hl IH]; cbn [le_value length]; [lia|]. rewrite Nat2Z.inj_succ, Z.pow_succ_r by lia. lia.
Qed.

Lemma mem_load_bytes a n : Forall (λ b, 0 ≤ b < 256) (mem_load img a n).
Proof using Hbyte. unfold mem_load. apply Forall_fmap, Forall_forall. intros x _. apply Hbyte. Qed.

Lemma get32_range a n off : 0 ≤ get32 (mem_load img a n) off < 2 ^ 32.
Proof using Hbyte.
  unfold get32, slice. pose proof (le_value_range (take 4 (drop off (mem_load img a n)))) as Hr. destruct Hr as [H1 H2]; [by apply Forall_take, Forall_drop, mem_load_bytes|].
  split; [done|]. eapply Z.lt_le_trans; [exact H2|]. change (2 ^ 32) with (256 ^ 4). apply Z.pow_le_mono_r; [lia|]. rewrite length_take. lia.
Qed.

Lemma mem_load_eq m a b n : (∀ x, 0 ≤ x < Z.of_nat n → m (a + x) = img (b + x)) → mem_load m a n = mem_load img b n.
Proof. intros Hm. unfold mem_load. apply list_fmap_ext. intros i x Hx. apply lookup_seqZ in Hx. apply Hm. lia. Qed.

Lemma load_loop_ok n i lo s : 0 ≤ i → 69632 ≤ lo → 0 ≤ elf_phoff header → elf_phoff header + 32 * (i + Z.of_nat n) ≤ 4096 →
  loaded (bt_mem s) 65536 4096 0 → laid_out lo (segment <$> seqZ i (Z.of_nat n)) →
  wp (load_loop disk delay n (65536 + elf_phoff header + 32 * i)) (λ _ s', Forall (in_memory (bt_mem s')) (segment <$> seqZ i (Z.of_nat n)) ∧ ∀ x, x < lo → bt_mem s' x = bt_mem s x) s.
Proof using Hlen Hdisk Hbyte.
  revert i lo s. induction n as [|n IH]; intros i lo s H1 H2 H3 H4 H5 H6; [split; [constructor|done]|]. cbn [load_loop].
  rewrite seqZ_cons in H6 |- * by lia. rewrite fmap_cons in H6 |- *. destruct H6 as (L1&L2&L3).
  replace (Z.pred (Z.of_nat (Datatypes.S n))) with (Z.of_nat n) in * by lia.
  wp_step. wp_step. assert (Eh : decode_bootph (mem_load (bt_mem s) (65536 + elf_phoff header + 32 * i) PROGHDR_SIZE) = segment i).
  { unfold segment. f_equal. apply mem_load_eq. intros x Hx. change (Z.of_nat PROGHDR_SIZE) with 32 in Hx. rewrite H5 by lia. f_equal. lia. }
  rewrite Eh. clear Eh. set (g := segment i) in *. assert (R : 0 ≤ bp_off g < 2 ^ 32 ∧ 0 ≤ bp_filesz g ∧ 0 ≤ bp_memsz g) by (split_and!; apply get32_range).
  pose proof (Z.mod_pos_bound (bp_off g) 512 ltac:(lia)) as Hm. unfold seg_end in L2, L3.
  wp_step. eapply wp_mono; [apply wp_readseg; lia|]. cbn beta. intros _ s1 [R1 O1]. wp_step.
  eapply (wp_mono _ (λ _ s2, in_memory (bt_mem s2) g ∧ outside (bt_mem s1) (bt_mem s2) (bp_paddr g) (Z.max (bp_paddr g) (seg_end g)))).
  { destruct (Z.ltb_spec (bp_filesz g) (bp_memsz g)) as [Hz|Hz].
    - apply wp_modify. cbn [bt_mem set_mem]. rewrite u32_small by lia. split; [split|]; [intros j Hj..|intros x Hx]; unfold mem_store; rewrite length_replicate, Z2Nat.id by lia.
      + rewrite (proj2 (Z.leb_gt _ _)) by lia. cbn [andb]. rewrite R1 by lia. f_equal. lia.
      + rewrite (proj2 (Z.leb_le _ _)), (proj2 (Z.ltb_lt _ _)) by lia. cbn [andb]. apply lookup_total_replicate_2. lia.
      + unfold seg_end in Hx. destruct (Z.leb_spec (bp_paddr g + bp_filesz g) x), (Z.ltb_spec x (bp_paddr g + bp_filesz g + (bp_memsz g - bp_filesz g))); cbn [andb]; try done; lia.
    - wp_step. split; [split|]; [intros j Hj; rewrite R1 by lia; f_equal; lia|lia|done]. }
  cbn beta. intros _ s2 [M2 O2]. assert (K : ∀ x, x < lo → bt_mem s2 x = bt_mem s x).
  { intros x Hx. rewrite O2 by lia. apply O1. lia. }
  replace (65536 + elf_phoff header + 32 * i + Z.of_nat PROGHDR_SIZE) with (65536 + elf_phoff header + 32 * (i + 1)) by (change (Z.of_nat PROGHDR_SIZE) with 32; lia).
  eapply wp_mono; [apply (IH (i + 1) (seg_end g) s2); [lia|unfold seg_end; lia|done|lia| |done]|].
  { intros x Hx. rewrite K by lia. by apply H5. }
  cbn beta. intros _ s3 [M3 K3]. split.
  - constructor; [|exact M3]. destruct M2 as [Ma Mb]. unfold seg_end in K3. split; intros j Hj; rewrite K3 by lia; auto.
  - intros x Hx. rewrite K3 by (unfold seg_end; lia). by apply K.
Qed.

(** C12: the boot loader loads the kernel.  The disk has an ELF file from sector
    1 on whose program headers are in its first page and whose segments lie one
    above the other, above the page at 0x11000 and with room for the sector in
    which a segment starts.  However long the disk takes for each sector,
    [bootmain] ends, every segment is in memory at its physical address, with
    zeros after the bytes of the file, and the entry point is that of the
    header; a file that is no ELF file is not started. *)
Theorem bootmain_loads s : elf_phoff header + 32 * elf_phnum header ≤ 4096 → laid_out 69632 segments →
  ∃ s', bootmain disk delay s = Done (if elf_magic header =? ELF_MAGIC then Some (elf_entry header) else None) s' ∧
    (elf_magic header = ELF_MAGIC → Forall (in_memory (bt_mem s')) segments).
Proof using Hlen Hdisk Hbyte.
  intros H2 H3. assert (H1 : 0 ≤ elf_phoff header) by apply get32_range. assert (W : wp (bootmain disk delay) (λ r s', r = (if elf_magic header =? ELF_MAGIC then Some (elf_entry header) else None) ∧
    (elf_magic header = ELF_MAGIC → Forall (in_memory (bt_mem s')) segments)) s).
  { unfold bootmain. wp_step. eapply wp_mono; [apply (wp_readseg 65536 4096 0); [lia|lia|by vm_compute|lia]|]. cbn beta. intros _ s1 [R1 _]. change (0 mod 512) with 0 in R1. rewrite !Z.sub_0_r, Z.add_0_l in R1.
    wp_step. wp_step. assert (Eh : decode_elfhdr (mem_load (bt_mem s1) 65536 ELFHDR_SIZE) = header).
    { unfold header. f_equal. apply mem_load_eq. intros x Hx. change (Z.of_nat ELFHDR_SIZE) with 52 in Hx. rewrite R1 by lia. f_equal. lia. }
    rewrite Eh. destruct (Z.eqb_spec (elf_magic header) ELF_MAGIC) as [Em|Em]; cbn [negb]; [|wp_step; by split].
    assert (Hn : 0 ≤ elf_phnum header). { apply le_value_range. apply Forall_take, Forall_drop, mem_load_bytes. }
    wp_step. rewrite u32_small by lia. replace (65536 + elf_phoff header) with (65536 + elf_phoff header + 32 * 0) by lia.
    eapply wp_mono; [apply (load_loop_ok _ 0 69632 s1); rewrite ?Z2Nat.id by done; try done; lia|]. cbn beta. intros _ s2 [M2 _]. rewrite Z2Nat.id in M2 by done. wp_step. by split. }
  apply wp_inv in W as (r&s'&E& ->&HM). eauto.
Qed.
End loads.

(** A kernel of two segments, the first followed by two zero bytes. *)
Module Demo.
Definition file : list Z :=
  le_bytes 4 ELF_MAGIC ++ replicate 20 0 ++ le_bytes 4 1048588 ++ le_bytes 4 52 ++ replicate 12 0 ++ le_bytes 2 2 ++ replicate 6 0 ++
  (le_bytes 4 1 ++ le_bytes 4 200 ++ le_bytes 4 0 ++ le_bytes 4 1048776 ++ le_bytes 4 3 ++ le_bytes 4 5 ++ replicate 8 0) ++
  (le_bytes 4 1 ++ le_bytes 4 203 ++ le_bytes 4 0 ++ le_bytes 4 1049291 ++ le_bytes 4 2 ++ le_bytes 4 2 ++ replicate 8 0) ++
  replicate 84 0 ++ [11; 12; 13; 21; 22].
Definition img (x : Z) : Z := if (0 <=? x) && (x <? 205) then u8 (file !!! Z.to_nat x) else 0.
Definition disk (k : Z) : list Z := (λ j, img (512 * (k - 1) + j)) <$> seqZ 0 512.
Definition power_on : bootm := mkboot (λ _, 255) 0 0 0 0 0 3 None.

Lemma disk_length k : length (disk k) = 512%nat.
Proof. unfold disk. by rewrite length_fmap, length_seqZ. Qed.
Lemma disk_img k j : 0 ≤ k → 0 ≤ j < 512 → disk (k + 1) !!! Z.to_nat j = img (512 * k + j).
Proof.
  intros Hk Hj. apply list_lookup_total_correct. unfold disk. rewrite list_lookup_fmap, (proj2 (lookup_seqZ 0 512 (Z.to_nat j) j)) by lia.
  cbn. f_equal. f_equal. lia.
Qed.
Lemma img_byte x : 0 ≤ img x < 256.
Proof. unfold img. destruct (_ && _); [apply Z.mod_pos_bound|]; lia. Qed.

Lemma bootmain_loads_witness : ∃ s', bootmain disk (λ _, 2%nat) power_on = Done (Some 1048588) s' ∧ Forall (in_memory img (bt_mem s')) (segments img).
Proof.
  destruct (bootmain_loads disk (λ _, 2%nat) img disk_length disk_img img_byte power_on) as (s'&E&HM).
  - vm_compute. discriminate.
  - vm_compute. repeat split; discriminate.
  - exists s'. split; [exact E|]. apply HM. reflexivity.
Defined.
End Demo.
