(* ===== verification/Args.v ===== *)
(** * System call arguments (syscall.c)

    The words and strings a process passes on its stack, fetched from its
    memory through its page table, with the checks that keep the kernel inside
    the process's memory. *)

From S2P Require Import Prelude Params Mmu Str Block Sleeplock Format Bio Log Tx Fs Kalloc Vm VmSpec Pipe Spinlock Proc ProcInv File Kernel.

Section args.
Context {S : Type}.
Implicit Types s : ptable (kern S).

(** The running process of CPU [c], and its memory. *)
Definition me (c : nat) : M (ptable (kern S)) proc :=
  i ← curproc c;
  the_proc i.
Definition user {A} (p : proc) (m : Z → M kmem A) : M (ptable (kern S)) A :=
  zoom pt_ext set_ext (on_mem (m (p_pgdir p))).

Definition fetchint (c : nat) (addr : Z) : M (ptable (kern S)) (option Z) :=
  p ← me c;
  if (p_sz p <=? addr) || (p_sz p <? u32 (addr + 4)) then mret None
  else
    l ← user p (λ pg, uload 4 pg addr);
    mret (Some (i32 (le_value l))).

(** The bytes from [s] up to the NUL, which must come before [ep]. *)
Fixpoint fetchstr_loop (fuel : nat) (p : proc) (s ep : Z) : M (ptable (kern S)) (option (list Z)) :=
  match fuel with
  | O => diverge
  | Datatypes.S fuel' =>
      if s <? ep then
        b ← user p (λ pg, uload1 pg s);
        if b =? 0 then mret (Some [])
        else
          r ← fetchstr_loop fuel' p (s + 1) ep;
          mret (cons b <$> r)
      else mret None
  end.

(** The string at [addr]; its length is the source's result. *)
Definition fetchstr (c : nat) (addr : Z) : M (ptable (kern S)) (option (list Z)) :=
  p ← me c;
  if p_sz p <=? addr then mret None
  else fetchstr_loop (Z.to_nat (p_sz p - addr) + 1) p addr (p_sz p).

Definition argint (c : nat) (n : Z) : M (ptable (kern S)) (option Z) :=
  p ← me c;
  fetchint c (u32 (tf_esp (p_tf p) + 4 + 4 * n)).

(** The pointer, if the [size] bytes at it belong to the process. *)
Definition argptr (c : nat) (n size : Z) : M (ptable (kern S)) (option Z) :=
  p ← me c;
  r ← argint c n;
  match r with
  | None => mret None
  | Some i =>
      let a := u32 i in
      if (size <? 0) || (p_sz p <=? a) || (p_sz p <? u32 (a + size)) then mret None
      else mret (Some a)
  end.

Definition argstr (c : nat) (n : Z) : M (ptable (kern S)) (option (list Z)) :=
  r ← argint c n;
  match r with
  | None => mret None
  | Some addr => fetchstr c (u32 addr)
  end.
End args.

(** ** The checks keep the kernel inside the process *)

Section safe.
Context {S : Type} (n nl c : nat) (hd : nat → list nat).
Implicit Types (s : ptable (kern S)) (p : proc).

(** The byte at address [va] of the process. *)
Definition mem_byte s p (va : Z) : Z :=
  let m := km_mem (k_mem (pt_ext s)) in
  (m !!! P2V (PTE_ADDR (entry m (p_pgdir p) va))) !!! Z.to_nat (va mod PGSIZE).

(** CPU [c] runs process [p], all of whose memory is mapped. *)
Record running s p : Prop := {
  rn_mach : mach_ok n nl hd (pt_mach s);
  rn_cpu : (c < n)%nat;
  rn_proc : ∃ i, u_proc (pt_cpus s !!! c) = Some i ∧ pt_procs s !! i = Some p;
  rn_sz : 0 ≤ p_sz p < 2 ^ 31;
  rn_esp : 0 ≤ tf_esp (p_tf p) < 2 ^ 32;
  rn_mapped va : 0 ≤ va < p_sz p → present (entry (km_mem (k_mem (pt_ext s))) (p_pgdir p) va) = true
}.

(** Only the interrupt bookkeeping of the CPU differs. *)
Definition unchanged s s' : Prop := ∃ m, mach_ok n nl hd m ∧ s' = set_mach m s.

Lemma unchanged_refl s p : running s p → unchanged s s.
Proof. intros R. exists (pt_mach s). split; [apply (rn_mach _ _ R)|by destruct s]. Qed.

Lemma unchanged_running s s' p : running s p → unchanged s s' → running s' p.
Proof. intros [R1 R2 R3 R4 R5 R6] (m&Hm& ->). by split. Qed.

Lemma unchanged_trans s1 s2 s3 : unchanged s1 s2 → unchanged s2 s3 → unchanged s1 s3.
Proof. intros (m&Hm& ->) (m'&Hm'& ->). by exists m'. Qed.

Lemma unchanged_byte s s' p va : unchanged s s' → mem_byte s' p va = mem_byte s p va.
Proof. by intros (m&Hm& ->). Qed.

Lemma wp_me s p : running s p → wp (me c) (λ q s', q = p ∧ unchanged s s') s.
Proof.
  intros R. destruct (rn_proc _ _ R) as (i&Hu&Hp).
  destruct (mach_pushpop n nl hd _ c (rn_mach _ _ R) (rn_cpu _ _ R)) as (m1&m2&E1&E2&Hm2).
  unfold wp, me, curproc, myproc, onmach, zoom, gets, the_proc, mbind, M_bind. rewrite E1. cbn [pt_cpus set_mach pt_mach].
  rewrite E2. unfold mret, M_ret. rewrite Hu. cbn. rewrite (list_lookup_total_correct _ _ _ Hp).
  split; [done|]. by exists m2.
Qed.

Lemma wp_uload1 s p va : running s p → 0 ≤ va < p_sz p →
  wp (user p (λ pg, uload1 pg va)) (λ b s', b = mem_byte s p va ∧ unchanged s s') s.
Proof.
  intros R Hva. unfold wp, user, zoom, on_mem, zoom, uload1. rewrite (rn_mapped _ _ R va Hva). split; [done|].
  exists (pt_mach s). split; [apply (rn_mach _ _ R)|]. destruct s as [[] ? ? ? ? ? ?]. done.
Qed.

(** The [k] bytes of the process at [va]. *)
Definition mem_bytes s p (va : Z) (k : nat) : list Z := (λ j, mem_byte s p (va + Z.of_nat j)) <$> seq 0 k.

Lemma wp_uload s p : running s p → ∀ k va, 0 ≤ va → va + Z.of_nat k ≤ p_sz p →
  wp (user p (λ pg, uload k pg va)) (λ l s', l = mem_bytes s p va k ∧ unchanged s s') s.
Proof.
  intros R. assert (Hs : ∀ e, set_ext (set_k_mem (k_mem (pt_ext s)) (pt_ext s)) e = set_ext (pt_ext s) e).
  { intros e. by destruct (pt_ext s). }
  assert (Hrun : ∀ k va, 0 ≤ va → va + Z.of_nat k ≤ p_sz p →
    uload k (p_pgdir p) va (k_mem (pt_ext s)) = Done (mem_bytes s p va k) (k_mem (pt_ext s))).
  { induction k as [|k IH]; intros va Hva Hk; [done|]. cbn [uload]. unfold mbind at 1, M_bind at 1, uload1.
    rewrite (rn_mapped _ _ R va) by lia. unfold mbind, M_bind. pose proof (rn_sz _ _ R). rewrite u32_small by lia.
    rewrite IH by lia. unfold mret, M_ret. f_equal. unfold mem_bytes. cbn [seq]. rewrite fmap_cons. f_equal.
    - unfold mem_byte. by rewrite Z.add_0_r.
    - rewrite <- fmap_S_seq, <- list_fmap_compose. apply list_fmap_ext. intros i j _. cbn. f_equal. lia. }
  intros k va Hva Hk. unfold wp, user, zoom, on_mem, zoom. rewrite Hrun by done. split; [done|].
  exists (pt_mach s). split; [apply (rn_mach _ _ R)|]. rewrite Hs. by destruct s.
Qed.

Definition mem_word s p (va : Z) : Z := i32 (le_value (mem_bytes s p va 4)).

Lemma unchanged_word s s' p va : unchanged s s' → mem_word s' p va = mem_word s p va.
Proof. by intros (m&Hm& ->). Qed.

Lemma wp_fetchint s p addr : running s p → 0 ≤ addr < 2 ^ 32 →
  wp (fetchint c addr) (λ r s', unchanged s s' ∧
    r = if addr + 4 <=? p_sz p then Some (mem_word s p addr) else None) s.
Proof.
  intros R Ha. pose proof (rn_sz _ _ R) as Hsz. unfold fetchint. wp_step. eapply wp_mono; [by apply wp_me|].
  intros q s1 [-> U1]. cbv beta. pose proof (unchanged_running _ _ _ R U1) as R1.
  destruct (Z.leb_spec (addr + 4) (p_sz p)) as [Hin|Hout].
  - rewrite (proj2 (Z.leb_gt _ _)), u32_small, (proj2 (Z.ltb_ge _ _)) by lia. cbn [orb]. wp_step.
    eapply wp_mono; [apply (wp_uload s1 p R1); lia|]. intros l s2 [-> U2]. wp_step.
    split; [by eapply unchanged_trans|]. f_equal. by apply (unchanged_word s s1 p addr).
  - destruct (Z.leb_spec (p_sz p) addr) as [|Hlt]; cbn [orb]; [by wp_step|].
    rewrite u32_small, (proj2 (Z.ltb_lt _ _)) by lia. by wp_step.
Qed.

(** The address of the word that holds argument [k]. *)
Definition arg_addr p (k : Z) : Z := u32 (tf_esp (p_tf p) + 4 + 4 * k).

Lemma wp_argint s p k : running s p →
  wp (argint c k) (λ r s', unchanged s s' ∧
    r = if arg_addr p k + 4 <=? p_sz p then Some (mem_word s p (arg_addr p k)) else None) s.
Proof.
  intros R. unfold argint. wp_step. eapply wp_mono; [by apply wp_me|]. intros q s1 [-> U1]. cbv beta.
  pose proof (unchanged_running _ _ _ R U1) as R1. eapply wp_mono; [apply wp_fetchint; [done|apply u32_range]|].
  intros r s2 [U2 ->]. split; [by eapply unchanged_trans|]. by rewrite (unchanged_word s s1).
Qed.

(** The string at [va]: its bytes, none of them NUL, then a NUL before [ep]. *)
Definition str_at s p (va : Z) (str : list Z) : Prop :=
  va + Z.of_nat (length str) < p_sz p ∧ str = mem_bytes s p va (length str) ∧ 0 ∉ str ∧
  mem_byte s p (va + Z.of_nat (length str)) = 0.

Lemma mem_bytes_cons s p va k : mem_bytes s p va (Datatypes.S k) = mem_byte s p va :: mem_bytes s p (va + 1) k.
Proof.
  unfold mem_bytes. cbn [seq]. rewrite fmap_cons, Z.add_0_r. f_equal.
  rewrite <- fmap_S_seq, <- list_fmap_compose. apply list_fmap_ext. intros i j _. cbn. f_equal. lia.
Qed.

Lemma wp_fetchstr_loop s p : running s p → ∀ fuel va, 0 ≤ va ≤ p_sz p → p_sz p - va < Z.of_nat fuel →
  wp (fetchstr_loop fuel p va (p_sz p)) (λ r s', unchanged s s' ∧
    match r with
    | Some str => str_at s p va str
    | None => ∀ w, va ≤ w < p_sz p → mem_byte s p w ≠ 0
    end) s.
Proof.
  intros R fuel. revert s R. induction fuel as [|fuel IH]; intros s R va Hva Hf; [lia|]. cbn [fetchstr_loop].
  destruct (Z.ltb_spec va (p_sz p)) as [Hlt|Hge].
  2:{ wp_step. split; [by eapply unchanged_refl|]. intros; lia. }
  wp_step. eapply wp_mono; [apply wp_uload1; [done|lia]|]. intros b s1 [-> U1]. cbv beta.
  pose proof (unchanged_running _ _ _ R U1) as R1. destruct (Z.eqb_spec (mem_byte s p va) 0) as [Hz|Hnz].
  - wp_step. split; [done|]. split_and!; [simpl; lia|done|by apply not_elem_of_nil|simpl; by rewrite Z.add_0_r].
  - wp_step. eapply wp_mono; [apply (IH s1 R1 (va + 1)); lia|]. intros r s2 [U2 Hr]. wp_step.
    split; [by eapply unchanged_trans|]. destruct r as [str|]; cbn [fmap option_fmap option_map].
    + destruct Hr as (H1&H2&H3&H4). unfold str_at. cbn [length]. split_and!.
      * lia.
      * rewrite mem_bytes_cons. f_equal. rewrite H2 at 1. by destruct U1 as (m&_& ->).
      * rewrite not_elem_of_cons. split; [congruence|done].
      * rewrite <- H4. destruct U1 as (m&_& ->). unfold mem_byte. cbn [pt_ext set_mach].
        by replace (va + Z.of_nat (Datatypes.S (length str))) with (va + 1 + Z.of_nat (length str)) by lia.
    + intros w Hw. destruct (decide (w = va)) as [->|]; [done|]. rewrite <- (unchanged_byte s s1) by done. apply Hr. lia.
Qed.

(** C34: the kernel never reaches outside a process through the arguments of a
    system call: whatever stack pointer, argument word and length the process
    supplies, fetching them returns without a fault and changes nothing; a
    buffer that [argptr] accepts lies in the memory of the process with all
    its [size] bytes; and a string that [argstr] accepts is the one at the
    address passed, with its terminating NUL inside the process. *)
Theorem syscall_args_in_bounds s p k size : running s p → - 2 ^ 31 ≤ size < 2 ^ 31 →
  wp (argptr c k size) (λ r s', unchanged s s' ∧
    match r with
    | Some a => a = u32 (mem_word s p (arg_addr p k)) ∧ 0 ≤ a ∧ 0 ≤ size ∧ a + size ≤ p_sz p
    | None => p_sz p < arg_addr p k + 4 ∨ size < 0 ∨ p_sz p ≤ u32 (mem_word s p (arg_addr p k)) ∨
              p_sz p < u32 (mem_word s p (arg_addr p k)) + size
    end) s ∧
  wp (argstr c k) (λ r s', unchanged s s' ∧
    match r with
    | Some str => str_at s p (u32 (mem_word s p (arg_addr p k))) str
    | None => p_sz p < arg_addr p k + 4 ∨
              ∀ w, u32 (mem_word s p (arg_addr p k)) ≤ w < p_sz p → mem_byte s p w ≠ 0
    end) s.
Proof.
  intros R Hsize. pose proof (rn_sz _ _ R) as Hsz. split.
  - unfold argptr. wp_step. eapply wp_mono; [by apply wp_me|]. intros q s1 [-> U1]. cbv beta. wp_step.
    pose proof (unchanged_running _ _ _ R U1) as R1. eapply wp_mono; [by apply wp_argint|]. intros r s2 [U2 ->].
    rewrite (unchanged_word s s1) by done. assert (unchanged s s2) as U by (by eapply unchanged_trans).
    destruct (Z.leb_spec (arg_addr p k + 4) (p_sz p)) as [Hin|Hout].
    2:{ wp_step. split; [done|]. by left. }
    pose proof (u32_range (mem_word s p (arg_addr p k))) as Ha.
    destruct (Z.ltb_spec size 0) as [|Hpos]; cbn [orb]; [wp_step; split; [done|tauto]|].
    destruct (Z.leb_spec (p_sz p) (u32 (mem_word s p (arg_addr p k)))) as [|Hlt]; cbn [orb]; [wp_step; split; [done|tauto]|].
    rewrite (u32_small (_ + size)) by lia. destruct (Z.ltb_spec (p_sz p) (u32 (mem_word s p (arg_addr p k)) + size)) as [|Hle].
    + wp_step. split; [done|tauto].
    + wp_step. split; [done|]. split_and!; [done|lia..].
  - unfold argstr. wp_step. eapply wp_mono; [by apply wp_argint|]. intros r s1 [U1 ->]. cbv beta.
    destruct (Z.leb_spec (arg_addr p k + 4) (p_sz p)) as [Hin|Hout].
    2:{ wp_step. split; [done|]. by left. }
    pose proof (unchanged_running _ _ _ R U1) as R1. unfold fetchstr. wp_step.
    eapply wp_mono; [by apply wp_me|]. intros q s2 [-> U2]. cbv beta.
    pose proof (unchanged_running _ _ _ R1 U2) as R2. assert (unchanged s s2) as U by (by eapply unchanged_trans).
    pose proof (u32_range (mem_word s p (arg_addr p k))) as Ha.
    destruct (Z.leb_spec (p_sz p) (u32 (mem_word s p (arg_addr p k)))) as [Hge|Hlt].
    { wp_step. split; [done|]. right. intros; lia. }
    eapply wp_mono; [apply (wp_fetchstr_loop s2 p R2); lia|]. intros r s3 [U3 Hr].
    split; [by eapply unchanged_trans|]. destruct U as (m&_& ->). destruct r; [exact Hr|by right].
Qed.
End safe.

(** A process with 16 bytes of memory: its stack pointer is 0 and its first
    argument points to the string at 8. *)
Module Demo.
Definition dir : Z := KERNBASE + 4096.
Definition frame : list Z := [0; 0; 0; 0; 8; 0; 0; 0; 104; 105; 0; 0; 0; 0; 0; 0] ++ replicate 4080 0.
Definition pages : gmap Z page :=
  list_to_map [(dir, le_bytes 4 (8192 + 7) ++ replicate 4092 0);
               (KERNBASE + 8192, le_bytes 4 (12288 + 7) ++ replicate 4092 0);
               (KERNBASE + 12288, frame)].
Definition proc1 : proc := set_mem 16 dir (set_state RUNNING zero_proc).
Definition kernel : kern (log bio) :=
  set_k_mem (mkkmem pages false false 0) (File.Demo.table zero_file).
Definition machine : ptable (kern (log bio)) :=
  mkpt kernel (s_m (start 1 1 (λ _, false))) [proc1] 2 None [mkcpust (Some 0%nat) (Some dir)] false.

Lemma args_running : running 1 1 0 (hd_of (λ _, Idle)) machine proc1.
Proof.
  split.
  - split_and!; [done..|]. exists (λ _, O), (λ _, None), (λ _, false). split_and!; [done..|]. apply (start_inv 1 1 (λ _, false)).
  - lia.
  - by exists 0%nat.
  - simpl; lia.
  - simpl; lia.
  - intros va Hva. change (p_sz proc1) with 16 in Hva.
    assert (va ∈ (Z.of_nat <$> seq 0 16)) as Hin.
    { apply list_elem_of_fmap. exists (Z.to_nat va). rewrite elem_of_seq. lia. }
    revert Hin. generalize va. apply Forall_forall. repeat constructor; by vm_compute.
Qed.
End Demo.

Lemma demo_word : mem_word Demo.machine Demo.proc1 (arg_addr Demo.proc1 0) = 8.
Proof. by vm_compute. Qed.
Lemma demo_nul : mem_byte Demo.machine Demo.proc1 10 = 0.
Proof. by vm_compute. Qed.

Lemma syscall_args_in_bounds_witness :
  wp (argptr 0 0 8) (λ r _, r = Some 8) Demo.machine ∧
  wp (argstr 0 0) (λ r _, r ≠ None) Demo.machine.
Proof.
  destruct (syscall_args_in_bounds 1 1 0 _ Demo.machine Demo.proc1 0 8 Demo.args_running ltac:(lia)) as [H1 H2].
  rewrite demo_word in *. change (arg_addr Demo.proc1 0 + 4) with 8 in *. change (p_sz Demo.proc1) with 16 in *.
  change (u32 8) with 8 in *. split.
  - apply (wp_mono _ _ _ _ H1). intros r s' [_ Hr]. clear H1 H2. destruct r as [a|]; [by destruct Hr as [-> _]|lia].
  - apply (wp_mono _ _ _ _ H2). intros r s' [_ Hr]. clear H1 H2. destruct r as [str|]; [discriminate|].
    destruct Hr as [?|Hr]; [lia|]. exfalso. apply (Hr 10); [lia|exact demo_nul].
Defined.
