(* ===== verification/Sysfile.v ===== *)
(** * File-system system calls (sysfile.c)

    The handlers run on the process table whose other components are one
    kernel state ([Kernel]).  A handler returns the value that goes into the
    process's [eax]. *)

From S2P Require Import Prelude Params Mmu Str Block Sleeplock Format Log Tx Fs Kalloc Vm VmSpec Pipe Spinlock Proc File Kernel Args.

Definition set_i_nlink (v : Z) (ip : inode) : inode :=
  mkinode (i_dev ip) (i_inum ip) (i_ref ip) (i_lock ip) (i_valid ip) (i_type ip) (i_major ip) (i_minor ip)
          v (i_size ip) (i_addrs ip).
Definition set_i_dev (major minor nlink : Z) (ip : inode) : inode :=
  mkinode (i_dev ip) (i_inum ip) (i_ref ip) (i_lock ip) (i_valid ip) (i_type ip) major minor
          nlink (i_size ip) (i_addrs ip).

(** The names "." and "..", in a DIRSIZ array. *)
Definition dot : list Z := [46; 0].
Definition dotdot : list Z := [46; 46; 0].

(** ** Inodes and directories *)

Section dirs.
Context {S : Type} `{TxOps S} `{DevSw S}.

(** [ip->nlink += d; iupdate(ip)]. *)
Definition add_nlink (d : Z) (ip : nat) : M (fs S) unit :=
  upd_inode ip (λ i, set_i_nlink (i16 (i_nlink i + d)) i);;
  iupdate ip.

(** The loop of [isdirempty] from [off] on. *)
Fixpoint isdirempty_loop (fuel : nat) (dp : nat) (off : Z) : M (fs S) bool :=
  match fuel with
  | O => diverge
  | Datatypes.S fuel' =>
      ip ← the_inode dp;
      if off <? i_size ip then
        r ← readi dp off (Z.of_nat DIRENT_SIZE);
        if negb (r.1 =? Z.of_nat DIRENT_SIZE) then panic "isdirempty: readi"
        else if negb (de_inum (decode_dirent r.2) =? 0) then mret false
        else isdirempty_loop fuel' dp (off + Z.of_nat DIRENT_SIZE)
      else mret true
  end.
Definition isdirempty (dp : nat) : M (fs S) bool :=
  ip ← the_inode dp;
  isdirempty_loop (Z.to_nat (i_size ip) + 1) dp (2 * Z.of_nat DIRENT_SIZE).

(** The locked inode of the new or existing file, [None] for null. *)
Definition create (path : list Z) (type major minor : Z) : M (fs S) (option nat) :=
  r ← nameiparent path (replicate DIRSIZ 0);
  let name := r.2 in
  match r.1 with
  | None => mret None
  | Some dp =>
      ilock dp;;
      r ← dirlookup dp name;
      match r with
      | Some (ip, _) =>
          iunlockput dp;;
          ilock ip;;
          i ← the_inode ip;
          if (type =? T_FILE) && (i_type i =? T_FILE) then mret (Some ip)
          else iunlockput ip;; mret None
      | None =>
          d ← the_inode dp;
          ip ← ialloc (i_dev d) type;
          ilock ip;;
          upd_inode ip (set_i_dev (i16 major) (i16 minor) 1);;
          iupdate ip;;
          i ← the_inode ip;
          (if type =? T_DIR then
             add_nlink 1 dp;;
             r1 ← dirlink ip dot (i_inum i);
             r2 ← (if r1 <? 0 then mret (-1) else dirlink ip dotdot (i_inum d));
             if r2 <? 0 then panic "create dots" else mret tt
           else mret tt);;
          r ← dirlink dp name (i_inum i);
          (if r <? 0 then panic "create: dirlink" else mret tt);;
          iunlockput dp;;
          mret (Some ip)
      end
  end.

(** [sys_link] inside its transaction. *)
Definition link_bad (ip : nat) : M (fs S) Z :=
  ilock ip;;
  add_nlink (-1) ip;;
  iunlockput ip;;
  mret (-1).
Definition link (old new : list Z) : M (fs S) Z :=
  r ← namei old;
  match r with
  | None => mret (-1)
  | Some ip =>
      ilock ip;;
      i ← the_inode ip;
      if i_type i =? T_DIR then iunlockput ip;; mret (-1)
      else
        add_nlink 1 ip;;
        iunlock ip;;
        r ← nameiparent new (replicate DIRSIZ 0);
        match r.1 with
        | None => link_bad ip
        | Some dp =>
            ilock dp;;
            d ← the_inode dp;
            i ← the_inode ip;
            l ← (if negb (i_dev d =? i_dev i) then mret (-1) else dirlink dp r.2 (i_inum i));
            if l <? 0 then iunlockput dp;; link_bad ip
            else iunlockput dp;; iput ip;; mret 0
        end
  end.

(** [sys_unlink] inside its transaction. *)
Definition unlink (path : list Z) : M (fs S) Z :=
  r ← nameiparent path (replicate DIRSIZ 0);
  let name := r.2 in
  match r.1 with
  | None => mret (-1)
  | Some dp =>
      ilock dp;;
      if (namecmp name dot =? 0) || (namecmp name dotdot =? 0) then iunlockput dp;; mret (-1)
      else
        r ← dirlookup dp name;
        match r with
        | None => iunlockput dp;; mret (-1)
        | Some (ip, off) =>
            ilock ip;;
            i ← the_inode ip;
            if i_nlink i <? 1 then panic "unlink: nlink < 1"
            else
              empty ← (if i_type i =? T_DIR then isdirempty ip else mret true);
              if negb empty then iunlockput ip;; iunlockput dp;; mret (-1)
              else
                w ← writei dp (replicate DIRENT_SIZE 0) off (Z.of_nat DIRENT_SIZE);
                if negb (w =? Z.of_nat DIRENT_SIZE) then panic "unlink: writei"
                else
                  (if i_type i =? T_DIR then add_nlink (-1) dp else mret tt);;
                  iunlockput dp;;
                  add_nlink (-1) ip;;
                  iunlockput ip;;
                  mret 0
        end
  end.
End dirs.

(** ** The handlers *)

Section sysfile.
Context (kend data : Z) {S : Type} `{TxOps S} `{DevSw S} `{TxnOps S} `{ProcOps (kern S)}.
Abbreviation sys := (M (ptable (kern S))).

(** A routine of the rest of the kernel, in the context of the running process. *)
Definition kcall {A} (c : nat) (m : M (kern S) A) : sys A :=
  p ← me c;
  match p_cwd p with
  | None => undef
  | Some cwd => ext (set_me (p_pid p) cwd (p_killed p));; ext m
  end.

Definition set_ofile (i : nat) (fd : nat) (v : option nat) : sys unit :=
  upd_proc i (λ p, set_files (<[fd:=v]> (p_ofile p)) (p_cwd p) p).

(** The descriptor and its file. *)
Definition argfd (c : nat) (n : Z) : sys (option (nat * nat)) :=
  r ← argint c n;
  match r with
  | None => mret None
  | Some fd =>
      if (fd <? 0) || (Z.of_nat NOFILE <=? fd) then mret None
      else
        p ← me c;
        mret ((λ f, (Z.to_nat fd, f)) <$> (p_ofile p !!! Z.to_nat fd))
  end.

Definition fdalloc (c : nat) (f : nat) : sys (option nat) :=
  i ← curproc c;
  p ← the_proc i;
  match list_find (λ o, o = None) (take NOFILE (p_ofile p)) with
  | Some (fd, _) => set_ofile i fd (Some f);; mret (Some fd)
  | None => mret None
  end.

Definition sys_dup (c : nat) : sys Z :=
  r ← argfd c 0;
  match r with
  | None => mret (-1)
  | Some (_, f) =>
      fd ← fdalloc c f;
      match fd with
      | None => mret (-1)
      | Some fd => kcall c (filedup f);; mret (Z.of_nat fd)
      end
  end.

(** The file, the buffer and the length of [read] and [write]. *)
Definition arg_buf (c : nat) : sys (option (nat * Z * Z)) :=
  f ← argfd c 0;
  match f with
  | None => mret None
  | Some (_, f) =>
      n ← argint c 2;
      match n with
      | None => mret None
      | Some n =>
          a ← argptr c 1 n;
          mret ((λ a, (f, a, n)) <$> a)
      end
  end.

Definition sys_read (c : nat) : sys Z :=
  r ← arg_buf c;
  match r with
  | None => mret (-1)
  | Some (f, a, n) =>
      r ← kcall c (fileread f n);
      p ← me c;
      user p (λ pg, ustore pg a r.2);;
      mret r.1
  end.

Definition sys_write (c : nat) : sys Z :=
  r ← arg_buf c;
  match r with
  | None => mret (-1)
  | Some (f, a, n) =>
      p ← me c;
      l ← user p (λ pg, uload (Z.to_nat n) pg a);
      kcall c (filewrite f l n)
  end.

Definition sys_close (c : nat) : sys Z :=
  r ← argfd c 0;
  match r with
  | None => mret (-1)
  | Some (fd, f) =>
      i ← curproc c;
      set_ofile i fd None;;
      kcall c (fileclose kend f);;
      mret 0
  end.

(** [sizeof(struct stat)] and the stores into its fields. *)
Definition STAT_SIZE : Z := 20.
Definition store_stat (p : proc) (a : Z) (st : stat) : sys unit :=
  user p (λ pg, ustore pg a (le_bytes 2 (st_type st)));;
  user p (λ pg, ustore pg (a + 4) (le_bytes 4 (st_dev st)));;
  user p (λ pg, ustore pg (a + 8) (le_bytes 4 (st_ino st)));;
  user p (λ pg, ustore pg (a + 12) (le_bytes 2 (st_nlink st)));;
  user p (λ pg, ustore pg (a + 16) (le_bytes 4 (st_size st))).

Definition sys_fstat (c : nat) : sys Z :=
  r ← argfd c 0;
  match r with
  | None => mret (-1)
  | Some (_, f) =>
      a ← argptr c 1 STAT_SIZE;
      match a with
      | None => mret (-1)
      | Some a =>
          st ← kcall c (filestat f);
          match st with
          | None => mret (-1)
          | Some st => p ← me c; store_stat p a st;; mret 0
          end
      end
  end.

(** A path as fs.c gets it: the string with its NUL. *)
Definition argpath (c : nat) (n : Z) : sys (option (list Z)) :=
  r ← argstr c n;
  mret ((λ l, l ++ [0]) <$> r).

Definition in_txn {A} (m : M (fs S) A) : M (kern S) A :=
  begin_txn;;
  r ← on_fs m;
  end_txn;;
  mret r.

Definition sys_link (c : nat) : sys Z :=
  old ← argpath c 0;
  match old with
  | None => mret (-1)
  | Some old =>
      new ← argpath c 1;
      match new with
      | None => mret (-1)
      | Some new => kcall c (in_txn (link old new))
      end
  end.

Definition sys_unlink (c : nat) : sys Z :=
  path ← argpath c 0;
  match path with
  | None => mret (-1)
  | Some path => kcall c (in_txn (unlink path))
  end.

(** A flag of fcntl.h. *)
Definition has_flag (omode f : Z) : bool := negb (Z.land omode f =? 0).

(** The inode that [sys_open] opens, locked. *)
Definition open_inode (path : list Z) (omode : Z) : M (fs S) (option nat) :=
  if has_flag omode O_CREATE then create path T_FILE 0 0
  else
    r ← namei path;
    match r with
    | None => mret None
    | Some ip =>
        ilock ip;;
        i ← the_inode ip;
        if (i_type i =? T_DIR) && negb (omode =? O_RDONLY) then iunlockput ip;; mret None
        else mret (Some ip)
    end.

Definition sys_open (c : nat) : sys Z :=
  path ← argpath c 0;
  match path with
  | None => mret (-1)
  | Some path =>
      omode ← argint c 1;
      match omode with
      | None => mret (-1)
      | Some omode =>
          kcall c begin_txn;;
          ip ← kcall c (on_fs (open_inode path omode));
          match ip with
          | None => kcall c end_txn;; mret (-1)
          | Some ip =>
              f ← kcall c filealloc;
              fd ← match f with None => mret None | Some f => fdalloc c f end;
              match f, fd with
              | Some f, Some fd =>
                  kcall c (on_fs (iunlock ip));;
                  kcall c end_txn;;
                  kcall c (upd_file f (set_f_inode (negb (has_flag omode O_WRONLY))
                    (has_flag omode O_WRONLY || has_flag omode O_RDWR) ip));;
                  mret (Z.of_nat fd)
              | _, _ =>
                  match f with Some f => kcall c (fileclose kend f) | None => mret tt end;;
                  kcall c (on_fs (iunlockput ip));;
                  kcall c end_txn;;
                  mret (-1)
              end
          end
      end
  end.

(** [create] and the release of its result, for [mkdir] and [mknod]. *)
Definition create_put (path : list Z) (type major minor : Z) : M (fs S) Z :=
  ip ← create path type major minor;
  match ip with
  | None => mret (-1)
  | Some ip => iunlockput ip;; mret 0
  end.

Definition sys_mkdir (c : nat) : sys Z :=
  kcall c begin_txn;;
  path ← argpath c 0;
  match path with
  | None => kcall c end_txn;; mret (-1)
  | Some path =>
      r ← kcall c (on_fs (create_put path T_DIR 0 0));
      kcall c end_txn;;
      mret r
  end.

Definition sys_mknod (c : nat) : sys Z :=
  kcall c begin_txn;;
  path ← argpath c 0;
  major ← match path with None => mret None | Some _ => argint c 1 end;
  minor ← match major with None => mret None | Some _ => argint c 2 end;
  match path, major, minor with
  | Some path, Some major, Some minor =>
      r ← kcall c (on_fs (create_put path T_DEV major minor));
      kcall c end_txn;;
      mret r
  | _, _, _ => kcall c end_txn;; mret (-1)
  end.

Definition sys_chdir (c : nat) : sys Z :=
  i ← curproc c;
  kcall c begin_txn;;
  path ← argpath c 0;
  ip ← match path with None => mret None | Some path => kcall c (on_fs (namei path)) end;
  match ip with
  | None => kcall c end_txn;; mret (-1)
  | Some ip =>
      kcall c (on_fs (ilock ip));;
      t ← kcall c (on_fs (the_inode ip));
      if negb (i_type t =? T_DIR) then
        kcall c (on_fs (iunlockput ip));;
        kcall c end_txn;;
        mret (-1)
      else
        kcall c (on_fs (iunlock ip));;
        p ← the_proc i;
        match p_cwd p with None => undef | Some cwd => kcall c (on_fs (iput cwd)) end;;
        kcall c end_txn;;
        upd_proc i (λ p, set_files (p_ofile p) (Some ip) p);;
        mret 0
  end.

(** [exec] (exec.c): the new image, and the commitment to it. *)
Definition exec (c : nat) (path : list Z) (argv : list (list Z)) : sys Z :=
  i ← curproc c;
  r ← kcall c (exec_image kend data path argv);
  match r with
  | inl v => mret v
  | inr (pgdir, sz, entry, sp) =>
      upd_proc i (λ p, set_name (safestrcpy (p_name p) (base_name path path) 16) p);;
      p ← the_proc i;
      upd_proc i (set_mem sz pgdir);;
      upd_proc i (λ p, set_tf (set_entry entry sp (p_tf p)) p);;
      switchuvm c i;;
      ext (on_mem (freevm kend (p_pgdir p)));;
      mret 0
  end.

(** The argument strings from element [i] of the user's [argv] on. *)
Fixpoint exec_args (fuel : nat) (c : nat) (uargv i : Z) : sys (option (list (list Z))) :=
  match fuel with
  | O => mret None
  | Datatypes.S fuel' =>
      uarg ← fetchint c (u32 (uargv + 4 * i));
      match uarg with
      | None => mret None
      | Some uarg =>
          if uarg =? 0 then mret (Some [])
          else
            a ← fetchstr c (u32 uarg);
            match a with
            | None => mret None
            | Some a =>
                r ← exec_args fuel' c uargv (i + 1);
                mret (cons a <$> r)
            end
      end
  end.

Definition sys_exec (c : nat) : sys Z :=
  path ← argpath c 0;
  match path with
  | None => mret (-1)
  | Some path =>
      uargv ← argint c 1;
      match uargv with
      | None => mret (-1)
      | Some uargv =>
          argv ← exec_args MAXARG c (u32 uargv) 0;
          match argv with
          | None => mret (-1)
          | Some argv => exec c path argv
          end
      end
  end.

Definition sys_pipe (c : nat) : sys Z :=
  a ← argptr c 0 8;
  match a with
  | None => mret (-1)
  | Some a =>
      i ← curproc c;
      r ← kcall c (pipealloc kend);
      match r with
      | None => mret (-1)
      | Some (rf, wf) =>
          fd0 ← fdalloc c rf;
          fd1 ← match fd0 with None => mret None | Some _ => fdalloc c wf end;
          match fd0, fd1 with
          | Some fd0, Some fd1 =>
              p ← me c;
              user p (λ pg, ustore pg a (le_bytes 4 (Z.of_nat fd0)));;
              user p (λ pg, ustore pg (a + 4) (le_bytes 4 (Z.of_nat fd1)));;
              mret 0
          | _, _ =>
              match fd0 with Some fd0 => set_ofile i fd0 None | None => mret tt end;;
              kcall c (fileclose kend rf);;
              kcall c (fileclose kend wf);;
              mret (-1)
          end
      end
  end.
End sysfile.
