(* ===== verification/Create.v ===== *)
(** * Creating files (create of sysfile.c)

    [create] calls almost all of fs.c: it resolves the path, locks the
    directory, looks the name up, allocates an inode, writes it, links it into
    the directory and releases the directory.  The theorems say what the whole
    call does to the directory, to the new inode and to every other file, and
    what a machine that stops on the way finds on its disk. *)

From S2P Require Import Prelude Params Block Sleeplock Bio BioSpec Format Log LogSpec Crash.
From S2P Require Import Str Tx Fs FsSpec FsData FsWrite FsFile FsStack FsDir Mkfs Boot Sysfile.

(** ** The inode operations [create] calls *)

Section inodes.
Context {S : Type} `{TxSpec S} (sb : superblock).
Implicit Types (s : fs S) (x : txst) (i : nat) (ip : inode).

(** The inode locked by the process that runs, and released. *)
Definition locked s ip : inode := set_i_lock (mksl true (sl_name (i_lock ip)) (fs_pid s)) ip.
Definition unlocked ip : inode := set_i_lock (mksl false (sl_name (i_lock ip)) 0) ip.

(** [ilock] of an inode that is in memory only takes the lock. *)
Lemma wp_ilock_valid s i ip (Q : unit → fs S → Prop) :
  icache s !! i = Some ip → 1 ≤ i_ref ip → sl_locked (i_lock ip) = false → i_valid ip = true →
  Q tt (upd_st i (locked s ip) (fs_tx s) s) → wp (ilock i) Q s.
Proof.
  intros Hi Href Hl Hv HQ. unfold ilock. wp_step. apply (wp_the_inode _ _ ip); [done|]. rewrite (proj2 (Z.ltb_ge _ _)) by done.
  wp_step. apply (wp_acquiresleep s i ip); [done|done|]. wp_step.
  apply (wp_the_inode _ _ (locked s ip)); [by apply (lookup_upd s i ip)|]. change (i_valid (locked s ip)) with (i_valid ip). rewrite Hv.
  by wp_step.
Qed.

Lemma wp_iunlock s i ip (Q : unit → fs S → Prop) :
  icache s !! i = Some ip → 1 ≤ i_ref ip → holdingsleep (fs_pid s) (i_lock ip) = true →
  Q tt (upd_st i (unlocked ip) (fs_tx s) s) → wp (iunlock i) Q s.
Proof.
  intros Hi Href Hh HQ. unfold iunlock, releasesleep_inode. wp_step. wp_step. wp_step. unfold id.
  apply (wp_the_inode _ _ ip); [done|]. rewrite Hh, (proj2 (Z.ltb_ge _ _)) by lia. cbn [negb orb].
  by apply (wp_upd_inode _ i ip).
Qed.

Lemma wp_idup s i ip (Q : nat → fs S → Prop) :
  icache_lock s = false → icache s !! i = Some ip → 0 ≤ i_ref ip < 2 ^ 31 - 1 →
  Q i (upd_st i (set_i_ref (i_ref ip + 1) ip) (fs_tx s) s) → wp (idup i) Q s.
Proof.
  intros Hl Hi Hr HQ. unfold idup. wp_step. apply wp_acquire; [done|]. wp_step. apply (wp_upd_inode _ i ip); [done|].
  wp_step. apply wp_release; [done|]. wp_step. rewrite i32_small by lia.
  change (fs_tx (set_icache_lock true s)) with (fs_tx s). by rewrite upd_locked.
Qed.

(** The inode [ialloc] takes: the first with type 0. *)
Definition first_inum (v : gmap Z block) (inum : Z) : Prop :=
  1 ≤ inum < sb_ninodes sb ∧ d_type (disk_inode sb v inum) = 0 ∧
  ∀ j, 1 ≤ j < inum → d_type (disk_inode sb v j) ≠ 0.

Definition new_dinode (type : Z) : dinode := mkdinode type 0 0 0 0 (replicate (NDIRECT + 1) 0).

Lemma new_dinode_ok type : short type → dinode_ok (new_dinode type).
Proof.
  intros Ht. split; try done; simpl. apply (Forall_replicate uint (NDIRECT + 1) 0). unfold uint. lia.
Qed.

(** The cache entry [iget] takes for an inode that is not cached. *)
Definition free_entry_at s (inum : Z) (j : nat) (jp : inode) : Prop :=
  icache s !! j = Some jp ∧ i_ref jp = 0 ∧ Forall (λ ip, entry_for ROOTDEV inum ip = false) (icache s) ∧
  (∀ k ip, (k < j)%nat → icache s !! k = Some ip → i_ref ip ≠ 0) ∧ sl_locked (i_lock jp) = false.

Lemma fs_rep_put_inode s x t inum di : fs_rep sb s x → 0 ≤ inum < sb_ninodes sb → dinode_ok di →
  tx_rep t (put_inode sb inum di x) → fs_rep sb (set_tx t s) (put_inode sb inum di x).
Proof.
  intros F Hi Hd R. pose proof (fr_geom _ _ _ F) as G. destruct (IBLOCK_home sb G _ Hi) as [Hb _].
  pose proof (bmapstart_data sb G). pose proof (data_start_range sb G).
  apply fr_put; [done|done|]. apply image_inode; [done|apply F| |done].
  apply length_put_dinode; [|apply islot_lt|done]. apply (image_lookup sb); [apply F|lia].
Qed.

Lemma wp_ialloc_loop fuel : ∀ s x type inum0 inum j jp (Q : nat → fs S → Prop),
  fs_rep sb s x → x_held x = ∅ → room 1 x → short type → icache_lock s = false →
  first_inum (x_view x) inum → free_entry_at s inum j jp → 1 ≤ inum0 ≤ inum → (Z.to_nat (inum - inum0) < fuel)%nat →
  (∀ t, fs_rep sb (set_tx t s) (put_inode sb inum (new_dinode type) x) → Q j (upd_st j (set_i_id ROOTDEV inum 1 false jp) t s)) →
  wp (ialloc_loop fuel ROOTDEV type inum0) Q s.
Proof.
  induction fuel as [|fuel IH]; intros s x type inum0 inum j jp Q F Hh Hr Ht Hl Hfi Hfe Hst Hf HQ; [lia|].
  pose proof Hfi as (Hi&Hz&Hnz). pose proof (fr_geom _ _ _ F) as G. destruct (IBLOCK_home sb G inum0 ltac:(lia)) as [Hb Hbl].
  pose proof (bmapstart_data sb G). pose proof (data_start_range sb G).
  cbn [ialloc_loop]. wp_step. apply wp_gets. rewrite (fr_sb _ _ _ F), (proj2 (Z.ltb_lt _ _)) by lia.
  eapply wp_get; [apply F|rewrite (fr_size _ _ _ F); lia|by apply no_held|eapply room_weaken; [|done]; lia|].
  intros bp t1 Hbp R1 Hlen. change (get_dinode (x_view x !!! IBLOCK inum0 sb) (islot inum0)) with (disk_inode sb (x_view x) inum0).
  destruct (decide (inum0 = inum)) as [->|Hne].
  - rewrite Hz. cbn [Z.eqb]. eapply wp_put; [exact R1|done|by eapply fr_not_fresh|eapply fr_home; [done|lia|done]|done| |].
    { apply length_put_dinode; [done|apply islot_lt|by apply new_dinode_ok]. }
    intros t2 R2. destruct Hfe as (Hj&Href&Hall&Hbefore&_). apply (wp_iget_new _ ROOTDEV inum j jp); try done.
    apply (HQ t2). apply fs_rep_put_inode; [done|lia|by apply new_dinode_ok|done].
  - rewrite (proj2 (Z.eqb_neq _ _)) by (apply Hnz; lia). eapply wp_release_read; [exact R1|done|by eapply fr_not_fresh|].
    intros t2 R2. apply (IH _ x type _ inum j jp); try done; [by apply fr_same|lia|lia].
Qed.

Lemma wp_ialloc_new s x type inum j jp (Q : nat → fs S → Prop) :
  fs_rep sb s x → x_held x = ∅ → room 1 x → short type → icache_lock s = false →
  first_inum (x_view x) inum → free_entry_at s inum j jp →
  (∀ t, fs_rep sb (set_tx t s) (put_inode sb inum (new_dinode type) x) → Q j (upd_st j (set_i_id ROOTDEV inum 1 false jp) t s)) →
  wp (ialloc ROOTDEV type) Q s.
Proof.
  intros F Hh Hr Ht Hl Hfi Hfe HQ. unfold ialloc. wp_step. apply wp_gets. rewrite (fr_sb _ _ _ F).
  pose proof Hfi as (Hi&_). apply (wp_ialloc_loop _ s x type 1 inum j jp); try done; lia.
Qed.
End inodes.

(** ** What keeps a file *)

Section frames.
Context `{DevSw (log bio)} (sb : superblock).
Implicit Types (s : fs (log bio)) (x : txst) (i : nat) (ip : inode).

(** The two copies differ in their lock, references and validity only. *)
Definition same_file ip ip' : Prop :=
  i_dev ip' = i_dev ip ∧ i_inum ip' = i_inum ip ∧ inode_disk ip' = inode_disk ip.

Lemma file_rep_st s x i ip s' ip' : file_rep sb s x i ip → fs_rep sb s' x → icache s' !! i = Some ip' → same_file ip ip' →
  file_rep sb s' x i ip'.
Proof.
  intros [[F E D M Hh] F1 F2 F3 F4 F5 F6] F' Hi (Ed&En&Edi). pose proof Edi as Edi'. injection Edi' as Et Ema Emi Enl Es Ea.
  split; [split|..]; rewrite ?Ed, ?En, ?Et, ?Ema, ?Emi, ?Enl, ?Es, ?Ea, ?Edi; done.
Qed.

Lemma dir_rep_st s x i ip s' ip' : dir_rep sb s x i ip → fs_rep sb s' x → icache s' !! i = Some ip' → same_file ip ip' →
  dir_rep sb s' x i ip'.
Proof.
  intros [D1 D2 D3 D4] F Hi Hs. split; [by apply (file_rep_st s x i ip)|..]; destruct Hs as (_&_&[= Et _ _ _ Es _]); rewrite ?Et, ?Es; done.
Qed.

Lemma dir_entries_same v ip ip' : same_file ip ip' → dir_entries v ip' = dir_entries v ip.
Proof. intros (_&_&[= _ _ _ _ Es Ea]). unfold dir_entries. by rewrite Es, Ea. Qed.

(** The file of an inode, as the disk has it. *)
Definition on_disk (v : gmap Z block) ip : Prop :=
  map_ok sb v (i_addrs ip) ∧ disk_inode sb v (i_inum ip) = inode_disk ip ∧ mapped v (i_addrs ip) (i_size ip).

Lemma file_on_disk s x i ip : file_rep sb s x i ip → on_disk (x_view x) ip.
Proof. intros [[] ? ? ? ? ? ?]. done. Qed.

Lemma file_rep_view s x i ip s' x' : file_rep sb s x i ip → fs_rep sb s' x' → x_held x' = ∅ → icache s' !! i = Some ip →
  on_disk (x_view x') ip → file_rep sb s' x' i ip.
Proof. intros [[] ? ? ? ? ? ?] F' Hh Hi (?&?&?). split; [by split|done..]. Qed.

(** Writing an inode keeps the data blocks and the bitmap. *)
Lemma put_inode_block x inum di c : geom_ok sb → 0 ≤ inum < sb_ninodes sb → data_start sb ≤ c →
  x_view (put_inode sb inum di x) !!! c = x_view x !!! c.
Proof.
  intros G Hi Hc. destruct (IBLOCK_home sb G _ Hi) as [Hb _]. pose proof (bmapstart_data sb G). apply lookup_total_insert_ne. lia.
Qed.

Lemma put_inode_used x inum di c : geom_ok sb → 0 ≤ inum < sb_ninodes sb → 0 ≤ c < sb_size sb →
  block_used sb (x_view (put_inode sb inum di x)) c = block_used sb (x_view x) c.
Proof.
  intros G Hi Hc. destruct (IBLOCK_home sb G _ Hi) as [Hb _]. apply block_used_other. pose proof (BBLOCK_range sb c Hc). lia.
Qed.

Lemma put_inode_good x inum di c : geom_ok sb → 0 ≤ inum < sb_ninodes sb →
  good sb (x_view x) c → good sb (x_view (put_inode sb inum di x)) c.
Proof. intros G Hi [Hc Hu]. pose proof (data_start_range sb G). split; [done|]. by rewrite put_inode_used by (done || lia). Qed.

Lemma put_inode_free x inum di n : geom_ok sb → 0 ≤ inum < sb_ninodes sb →
  has_free sb n (x_view x) → has_free sb n (x_view (put_inode sb inum di x)).
Proof.
  intros G Hi (F&?&?&HF). exists F. split_and!; try done. eapply Forall_impl; [exact HF|]. intros c [Hc Hu].
  split; [done|]. by rewrite put_inode_used.
Qed.

Section put.
Context (x : txst) (inum : Z) (di : dinode) (G : geom_ok sb) (Hi : 0 ≤ inum < sb_ninodes sb).

Lemma put_inode_map addrs : map_ok sb (x_view x) addrs → map_ok sb (x_view (put_inode sb inum di x)) addrs.
Proof using G Hi.
  intros Ho. eapply map_ok_ext; [exact Ho| |].
  - intros Hnz. apply put_inode_block; [done|done|]. apply (mo_ind _ _ _ Ho Hnz).
  - intros c. by apply put_inode_good.
Qed.

Lemma put_inode_addr addrs bn : map_ok sb (x_view x) addrs →
  addr_of (x_view (put_inode sb inum di x)) addrs bn = addr_of (x_view x) addrs bn.
Proof using G Hi.
  intros Ho. apply addr_of_ext. intros Hnz. apply put_inode_block; [done|done|]. apply (mo_ind _ _ _ Ho Hnz).
Qed.

Lemma put_inode_byte addrs o : map_ok sb (x_view x) addrs → 0 ≤ o < MAXBYTES → addr_of (x_view x) addrs (Z.to_nat (o / 512)) ≠ 0 →
  file_byte (x_view (put_inode sb inum di x)) addrs o = file_byte (x_view x) addrs o.
Proof using G Hi.
  intros Ho Hr Hnz. unfold file_byte. rewrite put_inode_addr by done. f_equal. apply put_inode_block; [done|done|].
  change MAXBYTES with 71680 in Hr. destruct (mo_addr _ _ _ Ho (Z.to_nat (o / 512))) as [? _]; [change MAXFILE with 140%nat; dlia|done|lia].
Qed.

Lemma put_inode_on_disk ip : on_disk (x_view x) ip → image_ok sb (x_view x) → dinode_ok di → 0 ≤ i_inum ip → i_inum ip ≠ inum →
  on_disk (x_view (put_inode sb inum di x)) ip.
Proof using G Hi.
  intros (Ho&Hs&Hm) Im Hd Hip Hne. split_and!; [by apply put_inode_map| |].
  - rewrite disk_inode_put by (done || lia). by rewrite decide_False.
  - intros bn Hbn. rewrite put_inode_addr by done. by apply Hm.
Qed.

Lemma put_inode_image : image_ok sb (x_view x) → dinode_ok di → image_ok sb (x_view (put_inode sb inum di x)).
Proof using G Hi.
  intros Im Hd. destruct (IBLOCK_home sb G _ Hi) as [Hb _]. pose proof (bmapstart_data sb G). pose proof (data_start_range sb G).
  apply image_inode; [done|done| |done]. apply length_put_dinode; [|apply islot_lt|done]. apply (image_lookup sb); [done|lia].
Qed.

Lemma put_inode_entries ip : on_disk (x_view x) ip → 0 ≤ i_size ip ≤ MAXBYTES →
  dir_entries (x_view (put_inode sb inum di x)) ip = dir_entries (x_view x) ip.
Proof using G Hi.
  intros (Ho&_&Hm) Hsz. unfold dir_entries. apply list_fmap_ext. intros k j Hj%lookup_seq. unfold dir_entry. f_equal.
  apply list_fmap_ext. intros k' j' Hj'%lookup_seq. apply put_inode_byte; [done|dlia|]. apply Hm. dlia.
Qed.
End put.

(** The entries of a directory, on a disk with its blocks. *)
Lemma agree_entries v d ip : geom_ok sb → agrees sb v d → on_disk v ip → 0 ≤ i_size ip ≤ MAXBYTES →
  dir_entries d ip = dir_entries v ip.
Proof.
  intros G Ha (Ho&_&Hm) Hsz. unfold dir_entries. apply list_fmap_ext. intros k j Hj%lookup_seq. unfold dir_entry. f_equal.
  apply list_fmap_ext. intros k' j' Hj'%lookup_seq. apply (agree_byte sb G d v Ha); [done|dlia|]. apply Hm. dlia.
Qed.

(** An inode without blocks. *)
Lemma no_blocks v bn : addr_of v (replicate (NDIRECT + 1) 0) bn = 0.
Proof.
  unfold addr_of. destruct (Nat.ltb_spec bn NDIRECT); [|done]. apply lookup_total_replicate_2. lia.
Qed.

Lemma no_blocks_ok v : map_ok sb v (replicate (NDIRECT + 1) 0).
Proof. split; try done; intros; by rewrite no_blocks in *. Qed.
End frames.

(** ** The parts of [create] *)

Section parts.
Context `{DevSw (log bio)} (sb : superblock).
Implicit Types (s : fs (log bio)) (x : txst) (i j d : nat) (ip jp dp : inode).

(** The inode [create] makes, locked by process [pid]. *)
Definition new_inode (inum type major minor : Z) (lock : string) (pid : Z) : inode :=
  mkinode ROOTDEV inum 1 (mksl true lock pid) true type (i16 major) (i16 minor) 1 0 (replicate (NDIRECT + 1) 0).

(** The transaction after it has been written. *)
Definition x_new (inum type major minor : Z) x : txst :=
  put_inode sb inum (mkdinode type (i16 major) (i16 minor) 1 0 (replicate (NDIRECT + 1) 0)) (put_inode sb inum (new_dinode type) x).

Lemma i16_short v : short (i16 v).
Proof.
  unfold short, i16, u16. cbv zeta. pose proof (Z.mod_pos_bound v (2 ^ 16) ltac:(lia)). destruct (Z.ltb_spec (v mod 2 ^ 16) (2 ^ 15)); lia.
Qed.

Lemma new_inode_ok inum type major minor lock pid : short type → dinode_ok (inode_disk (new_inode inum type major minor lock pid)).
Proof.
  intros Ht. split; try done; cbn.
  - apply i16_short.
  - apply i16_short.
  - apply (Forall_replicate uint (NDIRECT + 1) 0). unfold uint. lia.
Qed.

Lemma wp_new_inode {A} s x type major minor inum j jp (k : nat → M (fs (log bio)) A) Q :
  fs_rep sb s x → x_held x = ∅ → room 2 x → short type → type ≠ 0 → icache_lock s = false →
  first_inum sb (x_view x) inum → free_entry_at s inum j jp →
  (∀ t, let np := new_inode inum type major minor (sl_name (i_lock jp)) (fs_pid s) in
     ino_rep sb (upd_st j np t s) (x_new inum type major minor x) j np → wp (k j) Q (upd_st j np t s)) →
  wp (ip ← ialloc ROOTDEV type; ilock ip;; upd_inode ip (set_i_dev (i16 major) (i16 minor) 1);; iupdate ip;; k ip) Q s.
Proof.
  intros F Hh Hr Ht Hnz Hl Hfi Hfe HQ. pose proof Hfi as ((Hi1&Hi2)&_). pose proof Hfe as (Hj&_&_&_&Hlk).
  wp_step. apply (wp_ialloc_new sb s x type inum j jp); try done; [eapply room_weaken; [|done]; lia|]. intros t1 F1.
  set (x1 := put_inode sb inum (new_dinode type) x) in *. set (jp1 := set_i_id ROOTDEV inum 1 false jp). set (s1 := upd_st j jp1 t1 s).
  assert (fs_rep sb s1 x1) as F1' by (by apply fs_rep_upd).
  assert (icache s1 !! j = Some jp1) as Hj1 by (by apply (lookup_upd s j jp)).
  assert (disk_inode sb (x_view x1) inum = new_dinode type) as Ed.
  { unfold x1. rewrite disk_inode_put by (lia || apply F || by apply new_dinode_ok). by rewrite decide_True. }
  assert (room 1 x1) as Hr1 by (by apply room_put).
  wp_step. apply (wp_ilock sb s1 x1 j jp1); try done; [eapply room_weaken; [|done]; lia|change (i_inum jp1) with inum; lia|
    change (i_inum jp1) with inum; by rewrite Ed|].
  change (i_inum jp1) with inum. rewrite Ed. intros t2 R2. set (jp2 := load_dinode _ _). set (s2 := upd_st j jp2 t2 s1).
  assert (icache s2 !! j = Some jp2) as Hj2 by (by apply (lookup_upd s1 j jp1)).
  wp_step. apply (wp_upd_inode s2 j jp2); [done|].
  set (np := new_inode inum type major minor (sl_name (i_lock jp)) (fs_pid s)). change (set_i_dev _ _ _ jp2) with np.
  change (fs_tx s2) with t2. unfold s2, s1. rewrite !upd_st_upd.
  assert (ino_rep sb (upd_st j np t2 s) x1 j np) as I3.
  { split; [|by apply (lookup_upd s j jp)|done|apply no_blocks_ok|done]. apply fs_rep_upd. destruct F1'. by split. }
  wp_step. apply (wp_iupdate sb _ x1 j np); [done|cbn; lia|by apply new_inode_ok|done|]. intros t3 x3 I4.
  exact (HQ t3 I4).
Qed.

(** [nameiparent] of a name in the current directory. *)
Lemma skipelem_path nm name : plain nm → skipelem (nm ++ [0]) name =
  match skipelem (slash :: nm) name with Some (_, name') => Some ([0], name') | None => None end.
Proof.
  intros [Hne Hp]. unfold skipelem. cbn [skip_slashes]. rewrite Z.eqb_refl.
  assert (split_elem (nm ++ [0]) = (nm, [0])) as E.
  { clear Hne. induction Hp as [|c nm [Hc Hs] _ IH]; [done|]. cbn [split_elem app]. unfold slash.
    rewrite (proj2 (Z.eqb_neq _ _) Hs), (proj2 (Z.eqb_neq c 0)) by lia. cbn [orb]. by rewrite IH. }
  pose proof (split_plain _ Hp) as E'. destruct nm as [|c nm]; [done|]. apply Forall_cons in Hp as [[Hc Hs] _].
  assert (∀ l, skip_slashes (c :: l) = c :: l) as Es by (intros l; cbn; unfold slash; by rewrite (proj2 (Z.eqb_neq _ _) Hs)).
  cbn [app] in *. rewrite !Es, E, E'.
  cbn [at0]. by rewrite (proj2 (Z.eqb_neq c 0)) by lia.
Qed.

Lemma wp_parent s x dp nm (Q : option nat * list Z → fs (log bio) → Prop) :
  let d := fs_cwd s in
  icache_lock s = false → icache s !! d = Some dp → i_valid dp = true → sl_locked (i_lock dp) = false →
  1 ≤ i_ref dp < 2 ^ 31 - 1 → i_type dp = T_DIR → plain nm →
  (∀ name, Forall byte name → take DIRSIZ (cstr name) = take DIRSIZ nm →
     Q (Some d, name) (upd_st d (unlocked (set_i_ref (i_ref dp + 1) dp)) (fs_tx s) s)) →
  wp (nameiparent (nm ++ [0]) (replicate DIRSIZ 0)) Q s.
Proof.
  intros d Hl Hd Hv Hlk Hr Hty Hp HQ. destruct (skipelem_plain nm Hp) as (name&Esk&Hb&Hc). rewrite (cstr_plain nm (proj2 Hp)) in Hc.
  unfold nameiparent, namex. assert (at0 (nm ++ [0]) =? slash = false) as ->.
  { destruct Hp as [Hne Hp]. destruct nm as [|c nm]; [done|]. apply Forall_cons in Hp as [[_ Hs] _]. by apply Z.eqb_neq. }
  wp_step. wp_step. wp_step. apply (wp_idup s d dp); [done|done|lia|]. set (dp1 := set_i_ref _ dp). set (s1 := upd_st d dp1 _ s).
  assert (icache s1 !! d = Some dp1) as Hd1 by (by apply (lookup_upd s d dp)).
  rewrite Nat.add_1_r. cbn [namex_loop]. rewrite (skipelem_path nm _ Hp), Esk. wp_step.
  apply (wp_ilock_valid s1 d dp1); [done|cbn; lia|done|done|]. set (dp2 := locked s1 dp1). set (s2 := upd_st d dp2 _ s1).
  assert (icache s2 !! d = Some dp2) as Hd2 by (by apply (lookup_upd s1 d dp1)).
  wp_step. apply (wp_the_inode s2 d dp2); [done|]. change (i_type dp2) with (i_type dp). rewrite Hty. change (negb (T_DIR =? T_DIR)) with false. cbn [andb at0]. change (0 =? 0) with true. cbv iota.
  wp_step. apply (wp_iunlock s2 d dp2); [done|cbn; lia|unfold holdingsleep; cbn; apply Z.eqb_refl|]. wp_step.
  unfold s2, s1. rewrite !upd_st_upd. by apply HQ.
Qed.
End parts.

(** ** A new file *)

Section create.
Context `{DevSw (log bio)} (sb : superblock).
Implicit Types (s : fs (log bio)) (x : txst) (i j d : nat) (ip jp dp : inode).

(** The current directory of the process, in memory and not locked. *)
Record cwd_dir s x dp : Prop := {
  cd_dir : dir_rep sb s x (fs_cwd s) dp;
  cd_valid : i_valid dp = true;
  cd_lock : sl_locked (i_lock dp) = false;
  cd_ref : 1 ≤ i_ref dp < 2 ^ 31 - 1;
  cd_nlink : i_nlink dp ≠ 0;
  cd_icache : icache_lock s = false
}.

(** The free entry stays free when another entry changes. *)
Lemma free_entry_upd s inum j jp d dp dp' t : free_entry_at s inum j jp → icache s !! d = Some dp → i_ref dp ≠ 0 → i_ref dp' ≠ 0 →
  i_inum dp' ≠ inum → free_entry_at (upd_st d dp' t s) inum j jp.
Proof.
  intros (Hj&Hr&Hall&Hb&Hl) Hd Hr1 Hr2 Hne. assert (d ≠ j) by congruence. cbn. split_and!; try done.
  - cbn. by rewrite list_lookup_insert_ne.
  - cbn. apply Forall_insert; [done|]. unfold entry_for. rewrite (proj2 (Z.eqb_neq _ _) Hne). apply andb_false_r.
  - intros k ip Hk. cbn. destruct (decide (d = k)) as [<-|]; [|rewrite list_lookup_insert_ne by done; by apply Hb].
    rewrite list_lookup_insert_eq by (by eapply lookup_lt_Some). by intros [= <-].
Qed.

(** The inode of a directory is in use. *)
Lemma dir_inum_used s x i ip inum : dir_rep sb s x i ip → first_inum sb (x_view x) inum → i_inum ip ≠ inum.
Proof.
  intros D (_&Hz&_) <-. rewrite (fl_sync _ _ _ _ _ (dr_file _ _ _ _ _ D)) in Hz. cbn in Hz. by rewrite (dr_type _ _ _ _ _ D) in Hz.
Qed.

(** The directory and its entries after the new inode has been written. *)
Lemma x_new_dir s x d dp inum type major minor s' : short type → first_inum sb (x_view x) inum → dir_rep sb s x d dp → room 2 x →
  fs_rep sb s' (x_new sb inum type major minor x) → icache s' !! d = Some dp →
  dir_rep sb s' (x_new sb inum type major minor x) d dp ∧
  dir_entries (x_view (x_new sb inum type major minor x)) dp = dir_entries (x_view x) dp.
Proof.
  intros Hs Hfi D Hr F' Hd. pose proof (dir_inum_used _ _ _ _ _ D Hfi) as Hne. destruct Hfi as ((Hi1&Hi2)&_).
  assert (0 ≤ inum < sb_ninodes sb) as Hi by lia. destruct D as [Fl D2 D3 D4]. pose proof (ir_fs _ _ _ _ _ (fl_ino _ _ _ _ _ Fl)) as F.
  pose proof (fr_geom _ _ _ F) as G.
  assert (dinode_ok (mkdinode type (i16 major) (i16 minor) 1 0 (replicate (NDIRECT + 1) 0))) as Hok by exact (new_inode_ok 0 type major minor (sl_name (i_lock dp)) 0 Hs).
  pose proof (fl_size _ _ _ _ _ Fl) as Hsz. pose proof (fl_inum _ _ _ _ _ Fl) as Hin. pose proof (file_on_disk _ _ _ _ _ Fl) as Od.
  pose proof (put_inode_on_disk sb x inum (new_dinode type) G Hi dp Od (fr_image _ _ _ F) (new_dinode_ok _ Hs) ltac:(lia) Hne) as Od1.
  pose proof (put_inode_image sb x inum (new_dinode type) G Hi (fr_image _ _ _ F) (new_dinode_ok _ Hs)) as Im1.
  split.
  - split; [|done|done|by do 2 apply room_put]. apply (file_rep_view sb s x); [done|done|apply Fl|done|].
    by apply put_inode_on_disk; try lia.
  - unfold x_new. rewrite put_inode_entries by done. by rewrite put_inode_entries.
Qed.

(** The other inodes and files. *)
Lemma x_new_disk x inum type major minor n : geom_ok sb → image_ok sb (x_view x) → short type → 0 ≤ inum < sb_ninodes sb → 0 ≤ n →
  disk_inode sb (x_view (x_new sb inum type major minor x)) n =
  if decide (inum = n) then mkdinode type (i16 major) (i16 minor) 1 0 (replicate (NDIRECT + 1) 0) else disk_inode sb (x_view x) n.
Proof.
  intros G Im Hs Hi Hn. pose proof (new_inode_ok 0 type major minor "inode" 0 Hs) as Hok. unfold x_new.
  rewrite disk_inode_put by (done || by apply put_inode_image, new_dinode_ok). case_decide; [done|].
  rewrite disk_inode_put by (done || by apply new_dinode_ok). by rewrite decide_False.
Qed.

Lemma x_new_file x inum type major minor a : geom_ok sb → 0 ≤ inum < sb_ninodes sb → map_ok sb (x_view x) a →
  let v := x_view (x_new sb inum type major minor x) in
  map_ok sb v a ∧ (∀ bn, addr_of v a bn = addr_of (x_view x) a bn) ∧
  ∀ o, 0 ≤ o < MAXBYTES → addr_of (x_view x) a (Z.to_nat (o / 512)) ≠ 0 → file_byte v a o = file_byte (x_view x) a o.
Proof.
  intros G Hi Ho v. pose proof (put_inode_map sb x inum (new_dinode type) G Hi a Ho) as Ho1. unfold v, x_new. split_and!.
  - by apply put_inode_map.
  - intros bn. by rewrite !put_inode_addr.
  - intros o Hr Hnz. rewrite put_inode_byte; [by apply put_inode_byte|done|done|done|done|by rewrite put_inode_addr].
Qed.

(** The names of the directory after the call: the new one, and the old ones. *)
Definition adds_name (l l' : list dirent) (nm : list Z) (inum : Z) : Prop :=
  ∃ de, de_inum de = inum ∧ ∀ name, Forall byte name → dir_find name l' 0 =
    if decide (take DIRSIZ (cstr name) = take DIRSIZ nm) then Some (dir_free l 0, de) else dir_find name l 0.

(** From the lookup on: the directory [d] is locked, the name is not there. *)
Section link.
Context s x d dp (name : list Z) (inum type major minor : Z) j jp.
Context (D : dir_rep sb s x d dp) (Hfi : first_inum sb (x_view x) inum) (Hfe : free_entry_at s inum j jp).
Context (Hs : short type) (Hnz : type ≠ 0) (Hr : room 9 x) (Hfree : has_free sb 2 (x_view x)) (Hin : inum < 2 ^ 16).
Context (Hno : dir_find name (dir_entries (x_view x) dp) 0 = None) (Hl : icache_lock s = false) (Href : 2 ≤ i_ref dp < 2 ^ 31).
Context (Hmax : 16 * Z.of_nat (dir_free (dir_entries (x_view x) dp) 0) + 16 ≤ MAXBYTES).
Context (Hh : holdingsleep (fs_pid s) (i_lock dp) = true) (Hnl : i_nlink dp ≠ 0) (Hty : type ≠ T_DIR).

Let np := new_inode inum type major minor (sl_name (i_lock jp)) (fs_pid s).
Let x1 := x_new sb inum type major minor x.
Let l := dir_entries (x_view x) dp.
Let de := mkdirent inum (strncpy (replicate DIRSIZ 0) name DIRSIZ).

Lemma wp_create_link (Q : option nat → fs (log bio) → Prop) :
  (∀ t x' dp', writei_post sb x1 dp (16 * Z.of_nat (dir_free l 0)) (encode_dirent de) x' dp' →
     dir_entries (x_view x') dp' = dir_put l (dir_free l 0) de →
     let s' := upd_st d (set_i_ref (i_ref dp - 1) (unlocked dp')) t (upd_st j np t s) in
     dir_rep sb s' x' d (set_i_ref (i_ref dp - 1) (unlocked dp')) → Q (Some j) s') →
  wp (ip ← ialloc (i_dev dp) type;
      ilock ip;;
      upd_inode ip (set_i_dev (i16 major) (i16 minor) 1);;
      iupdate ip;;
      i ← the_inode ip;
      (if type =? T_DIR then
         add_nlink 1 d;;
         r1 ← dirlink ip dot (i_inum i);
         r2 ← (if r1 <? 0 then mret (-1) else dirlink ip dotdot (i_inum dp));
         if r2 <? 0 then panic "create dots" else mret tt
       else mret tt);;
      r ← dirlink d name (i_inum i);
      (if r <? 0 then panic "create: dirlink" else mret tt);;
      iunlockput d;;
      mret (Some ip)) Q s.
Proof.
  intros HQ. pose proof (dr_file _ _ _ _ _ D) as Fl. pose proof (fl_ino _ _ _ _ _ Fl) as [F Hd Hdev _ Hheld].
  assert (j ≠ d) as Hjd by (destruct Hfe as (Hj&Hz&_); intros ->; simplify_eq; lia).
  rewrite Hdev. apply (wp_new_inode sb s x type major minor inum j jp); try done; [eapply room_weaken; [|exact Hr]; lia|].
  intros t1 np0 I1. fold np in np0. unfold np0 in *. clear np0. fold x1 in I1. set (s1 := upd_st j np t1 s) in *.
  wp_step. apply (wp_the_inode s1 j np); [apply I1|]. rewrite (proj2 (Z.eqb_neq _ _) Hty). wp_step. wp_step.
  change (i_inum np) with inum.
  assert (icache s1 !! d = Some dp) as Hd1 by (cbn; by rewrite list_lookup_insert_ne).
  destruct (x_new_dir s x d dp inum type major minor s1 Hs Hfi D) as [D1 Ee]; [eapply room_weaken; [|exact Hr]; lia|apply I1|done|].
  fold x1 in D1, Ee. fold l in Ee.
  destruct (dirlink_run sb s1 x1 d dp name inum 0 D1) as (t2&x2&dp2&E&D2&W&_&He); rewrite ?Ee; try done.
  { destruct Hfi as ((?&?)&_). lia. }
  { unfold x1, x_new. by do 2 apply room_put. }
  { destruct Hfi as ((?&?)&_). unfold x1, x_new. pose proof (fr_geom _ _ _ F). by do 2 (apply put_inode_free; [done|lia|]). }
  rewrite Ee in W, He. wp_step. apply (wp_done _ _ _ _ _ E). change (0 <? 0) with false. cbv iota. wp_step. wp_step. set (s2 := upd_st d dp2 t2 s1) in *.
  destruct (wi_ip _ _ _ _ _ _ _ W) as (addrs'&Edp). wp_step. apply (wp_iunlockput s2 d dp2);
    [done|by apply (lookup_upd s1 d dp)|rewrite Edp; cbn; lia|by rewrite Edp|by rewrite Edp|]. wp_step.
  set (dp3 := set_i_ref _ _). assert (dp3 = set_i_ref (i_ref dp - 1) (unlocked dp2)) as -> by (unfold dp3; by rewrite Edp).
  change (fs_tx s2) with t2. unfold s2. rewrite upd_st_upd. apply (HQ t2 x2 dp2 W He).
  apply (dir_rep_st sb s2 x2 d dp2); [done| |by apply (lookup_upd s1 d dp)|done].
  destruct (ir_fs _ _ _ _ _ (fl_ino _ _ _ _ _ (dr_file _ _ _ _ _ D2))). by split.
Qed.
End link.

Lemma upd_st_between s i j a b c t t' : i ≠ j → upd_st i a t (upd_st j b t (upd_st i c t' s)) = upd_st i a t (upd_st j b t s).
Proof.
  intros Hne. unfold upd_st, set_icache, set_tx; cbn. f_equal.
  by rewrite (list_insert_insert_ne _ j i) by done; rewrite list_insert_insert_eq.
Qed.

(** What the call does, step by step: [dp2] is the directory while it is locked. *)
Definition created s x dp nm (type major minor inum : Z) j jp s' : Prop :=
  ∃ t x' name dp2 dp', let l := dir_entries (x_view x) dp in
    let de := mkdirent inum (strncpy (replicate DIRSIZ 0) name DIRSIZ) in
    let fin := set_i_ref (i_ref dp) (unlocked dp') in
    Forall byte name ∧ take DIRSIZ (cstr name) = take DIRSIZ nm ∧ same_file dp dp2 ∧ i_valid dp2 = true ∧
    writei_post sb (x_new sb inum type major minor x) dp2 (16 * Z.of_nat (dir_free l 0)) (encode_dirent de) x' dp' ∧
    dir_entries (x_view x') dp' = dir_put l (dir_free l 0) de ∧
    s' = upd_st (fs_cwd s) fin t (upd_st j (new_inode inum type major minor (sl_name (i_lock jp)) (fs_pid s)) t s) ∧
    dir_rep sb s' x' (fs_cwd s) fin.

(** Locking the directory [nameiparent] returned and looking the name up. *)
Definition dir_held s dp : inode := locked s (unlocked (set_i_ref (i_ref dp + 1) dp)).

Lemma wp_lock_lookup {A} s x dp nm name (K : option (nat * Z) → M (fs (log bio)) A) Q :
  let d := fs_cwd s in
  cwd_dir s x dp → plain nm → take DIRSIZ (cstr name) = take DIRSIZ nm →
  (∀ t, dir_rep sb (upd_st d (dir_held s dp) t s) x d (dir_held s dp) →
     wp (r ← lookup_result (dir_held s dp) (dir_find nm (dir_entries (x_view x) dp) 0); K r) Q (upd_st d (dir_held s dp) t s)) →
  wp (ilock d;; r ← dirlookup d name; K r) Q (upd_st d (unlocked (set_i_ref (i_ref dp + 1) dp)) (fs_tx s) s).
Proof.
  intros d [D Hv Hlk Href Hnl Hl] Hp Hc HQ. fold d in D. pose proof (fl_ino _ _ _ _ _ (dr_file _ _ _ _ _ D)) as [F Hd _ _ _].
  set (dp1 := unlocked _). set (s1 := upd_st d dp1 _ s). assert (icache s1 !! d = Some dp1) as Hd1 by (by apply (lookup_upd s d dp)).
  wp_step. apply (wp_ilock_valid s1 d dp1); [done|cbn; lia|done|done|]. change (locked s1 dp1) with (dir_held s dp). unfold s1. rewrite upd_st_upd.
  set (s2 := upd_st d (dir_held s dp) _ s). assert (dir_rep sb s2 x d (dir_held s dp)) as D2.
  { apply (dir_rep_st sb s x d dp); [done|destruct F; by split|by apply (lookup_upd s d dp)|done]. }
  destruct (dirlookup_eq sb s2 x d (dir_held s dp) name D2) as (t3&D3&E3).
  rewrite (dir_entries_same _ dp), (dir_find_same nm name) in E3 by (done || by rewrite (cstr_plain nm (proj2 Hp))).
  eapply wp_eq; [|exact (HQ t3 D3)]. unfold mbind, M_bind. by rewrite E3.
Qed.

Lemma wp_create s x dp nm type major minor inum j jp :
  let l := dir_entries (x_view x) dp in
  cwd_dir s x dp → plain nm → dir_find nm l 0 = None → 16 * Z.of_nat (dir_free l 0) + 16 ≤ MAXBYTES →
  short type → type ≠ 0 → type ≠ T_DIR → first_inum sb (x_view x) inum → inum < 2 ^ 16 → free_entry_at s inum j jp →
  room 9 x → has_free sb 2 (x_view x) →
  wp (create (nm ++ [0]) type major minor) (λ r s', r = Some j ∧ created s x dp nm type major minor inum j jp s') s.
Proof.
  intros l C Hp Hno Hmax Hs Hnz Hty Hfi Hin Hfe Hr Hfree. pose proof C as [D Hv Hlk Href Hnl Hl]. set (d := fs_cwd s) in *.
  pose proof (ir_ip _ _ _ _ _ (fl_ino _ _ _ _ _ (dr_file _ _ _ _ _ D))) as Hd. pose proof (dir_inum_used _ _ _ _ _ D Hfi) as Hne.
  unfold create. wp_step. apply (wp_parent s x dp nm); try done; [apply D|]. intros name Hb Hc. cbn [fst snd].
  apply (wp_lock_lookup s x dp nm); [done..|]. fold l d. rewrite Hno. intros t D2. set (dp2 := dir_held s dp) in *. set (s2 := upd_st d dp2 t s) in *.
  cbn [lookup_result]. wp_step. wp_step. wp_step. apply (wp_the_inode s2 d dp2); [by apply (lookup_upd s d dp)|].
  assert (dir_entries (x_view x) dp2 = l) as El by (by apply dir_entries_same).
  apply (wp_create_link s2 x d dp2 name inum type major minor j jp); rewrite ?El; try done.
  { apply (free_entry_upd s inum j jp d dp); [done|done|lia|cbn; lia|done]. }
  { rewrite (dir_find_same nm name); [done|]. by rewrite (cstr_plain nm (proj2 Hp)). }
  { cbn. lia. }
  { unfold holdingsleep. cbn. apply Z.eqb_refl. }
  intros t' x' dp' W He s' D'.
  assert (set_i_ref (i_ref dp2 - 1) (unlocked dp') = set_i_ref (i_ref dp) (unlocked dp')) as Efin by (f_equal; cbn; lia).
  assert (d ≠ j) as Hdj by (destruct Hfe as (Hj&Hz&_); intros <-; simplify_eq; lia).
  split; [done|]. exists t', x', name, dp2, dp'. rewrite <- Efin. split_and!; try done.
  unfold s', s2. by rewrite upd_st_between.
Qed.

(** What the whole call does: the new inode [np] is locked, has one link and no
    contents, in memory and on disk alike; the directory has the name, bound to
    that inode, and its other names as they were; no other inode on disk, no
    other entry of the inode cache and no other file changes. *)
Record create_post s x dp nm (inum : Z) j (np : inode) s' x' dp' : Prop := {
  cp_new : ino_rep sb s' x' j np;
  cp_disk : disk_inode sb (x_view x') inum = inode_disk np;
  cp_cwd : cwd_dir s' x' dp';
  cp_ref : i_ref dp' = i_ref dp;
  cp_name : adds_name (dir_entries (x_view x) dp) (dir_entries (x_view x') dp') nm inum;
  cp_inodes n : 0 ≤ n < sb_ninodes sb → n ≠ inum → n ≠ i_inum dp → disk_inode sb (x_view x') n = disk_inode sb (x_view x) n;
  cp_dir : i_inum dp' = i_inum dp;
  cp_cache i : i ≠ j → i ≠ fs_cwd s → icache s' !! i = icache s !! i;
  cp_files a2 o : map_ok sb (x_view x) a2 → disjoint_files (x_view x) (i_addrs dp) a2 → 0 ≤ o < MAXBYTES →
    addr_of (x_view x) a2 (Z.to_nat (o / 512)) ≠ 0 → file_byte (x_view x') a2 o = file_byte (x_view x) a2 o;
  cp_op : x_ops x' = x_ops x ∧ x_disk x' = x_disk x
}.

Section new_file.
Context s x dp (nm : list Z) (type major minor inum : Z) j jp.
Context (C : cwd_dir s x dp) (Hp : plain nm) (Hno : dir_find nm (dir_entries (x_view x) dp) 0 = None).
Context (Hmax : 16 * Z.of_nat (dir_free (dir_entries (x_view x) dp) 0) + 16 ≤ MAXBYTES).
Context (Hs : short type) (Hnz : type ≠ 0) (Hty : type ≠ T_DIR) (Hfi : first_inum sb (x_view x) inum) (Hin : inum < 2 ^ 16).
Context (Hfe : free_entry_at s inum j jp) (Hr : room 9 x) (Hfree : has_free sb 2 (x_view x)).
Let np := new_inode inum type major minor (sl_name (i_lock jp)) (fs_pid s).

Lemma create_run : ∃ s' x' dp', create (nm ++ [0]) type major minor s = Done (Some j) s' ∧ create_post s x dp nm inum j np s' x' dp'.
Proof using All.
  set (d := fs_cwd s). set (l := dir_entries (x_view x) dp).
  destruct (wp_inv _ _ _ (wp_create s x dp nm type major minor inum j jp C Hp Hno Hmax Hs Hnz Hty Hfi Hin Hfe Hr Hfree))
    as (r&s'&E&->&(t&x'&name&dp2&dp'&Hb&Hc&Hsf&Hv&W&He&Es&D')).
  exists s', x', (set_i_ref (i_ref dp) (unlocked dp')). fold d np in Es, D'. fold l in He, W.
  set (fin := set_i_ref _ _) in *. destruct C as [D _ _ Href Hnl Hl].
  pose proof (fl_ino _ _ _ _ _ (dr_file _ _ _ _ _ D)) as I. pose proof (fl_ino _ _ _ _ _ (dr_file _ _ _ _ _ D')) as I'.
  pose proof (dir_inum_used _ _ _ _ _ D Hfi) as Hne. destruct (wi_ip _ _ _ _ _ _ _ W) as (addrs'&Edp).
  assert (d ≠ j) as Hdj by (destruct Hfe as (Hj&Hz&_); pose proof (ir_ip _ _ _ _ _ I) as Hd; fold d in Hd; intros ->; simplify_eq; lia).
  pose proof (fr_image _ _ _ (ir_fs _ _ _ _ _ I)) as Im. pose proof (fr_geom _ _ _ (ir_fs _ _ _ _ _ I)) as G.
  assert (0 ≤ inum < sb_ninodes sb) as Hir by (destruct Hfi as ((?&?)&_); lia). destruct Hsf as (_&En&[= _ _ _ Enl _ Ea]).
  split; [done|]. split.
  - split; [apply I'|rewrite Es; cbn|done|apply no_blocks_ok|apply I'].
    rewrite list_lookup_insert_ne by done. apply list_lookup_insert_eq. destruct Hfe as (Hj&_). by eapply lookup_lt_Some.
  - rewrite (wi_inodes _ _ _ _ _ _ _ W), x_new_disk by (done || lia). by rewrite decide_True.
  - split; [by rewrite Es at 2| |done|done| |by rewrite Es].
    + change (i_valid dp' = true). by rewrite Edp.
    + change (i_nlink dp' ≠ 0). rewrite Edp. cbn. by rewrite Enl.
  - done.
  - exists (mkdirent inum (strncpy (replicate DIRSIZ 0) name DIRSIZ)). split; [done|]. intros name' Hb'.
    rewrite (dir_entries_same _ dp' fin) by done. rewrite He. destruct (dir_put_found l name inum Hb ltac:(destruct Hfi as ((?&?)&_); lia)) as [H1 H2].
    { rewrite (dir_find_same nm name); [done|]. by rewrite (cstr_plain nm (proj2 Hp)). }
    case_decide; [apply H1|apply H2]; congruence.
  - intros n Hn Hn1 Hn2. rewrite (wi_inodes _ _ _ _ _ _ _ W), x_new_disk by (done || lia). by rewrite decide_False.
  - change (i_inum dp' = i_inum dp). by rewrite Edp.
  - intros i Hi1 Hi2. rewrite Es. cbn. by rewrite !list_lookup_insert_ne.
  - intros a2 o Ho Hdis Hor Ha. destruct (x_new_file x inum type major minor a2 G Hir Ho) as (Ho1&Ha1&Hf1).
    destruct (x_new_file x inum type major minor (i_addrs dp) G Hir (ir_map _ _ _ _ _ I)) as (_&Ha2&_).
    rewrite <- (Hf1 o) by done. eapply other_file_kept; [done|exact W|done| |done|by rewrite Ha1].
    rewrite Ea. unfold disjoint_files in *. setoid_rewrite Ha1. setoid_rewrite Ha2. done.
  - destruct (wi_held _ _ _ _ _ _ _ W) as (_&->&->). done.
Qed.

End new_file.


(** C2: [create] is atomic with respect to crashes.  Create a file in an
    operation of its own, end the operation, and stop the machine after any
    number of the disk writes this causes: on the recovered disk either the
    directory and the inode are as before, or the inode has been written and
    the directory has the name for it; never the one without the other. *)
Theorem create_crash_atomic s x dp nm type major minor inum j jp pid :
  let l := dir_entries (x_view x) dp in
  let np := new_inode inum type major minor (sl_name (i_lock jp)) (fs_pid s) in
  cwd_dir s x dp → plain nm → dir_find nm l 0 = None → 16 * Z.of_nat (dir_free l 0) + 16 ≤ MAXBYTES →
  short type → type ≠ 0 → type ≠ T_DIR → first_inum sb (x_view x) inum → inum < 2 ^ 16 → free_entry_at s inum j jp →
  room 9 x → has_free sb 2 (x_view x) → x_ops x = 1 → x_disk x = x_view x →
  ∃ s' dp' t' ws, create (nm ++ [0]) type major minor s = Done (Some j) s' ∧ end_op (fs_tx s') = Done tt t' ∧
    writes (l_bio t') = writes (l_bio (fs_tx s')) ++ ws ∧ i_inum dp' = i_inum dp ∧
    ∀ c, (c ≤ length ws)%nat → ∃ t2,
      initlog ROOTDEV (boot_log (sb_size sb) (apply_writes (disk (l_bio (fs_tx s'))) (take c ws)) pid) = Done tt t2 ∧
      let v := disk (l_bio t2) in
      (d_type (disk_inode sb v inum) = 0 ∧ disk_inode sb v (i_inum dp) = inode_disk dp ∧ dir_entries v dp = l) ∨
      (disk_inode sb v inum = inode_disk np ∧ disk_inode sb v (i_inum dp) = inode_disk dp' ∧ adds_name l (dir_entries v dp') nm inum).
Proof.
  intros l np C Hp Hno Hmax Hs Hnz Hty Hfi Hin Hfe Hr Hfree Hop Hdisk.
  destruct (create_run s x dp nm type major minor inum j jp C Hp Hno Hmax Hs Hnz Hty Hfi Hin Hfe Hr Hfree) as (s'&x'&dp'&E&P). pose proof (fl_ino _ _ _ _ _ (dr_file _ _ _ _ _ (cd_dir _ _ _ C))) as I.
  pose proof (dr_file _ _ _ _ _ (cd_dir _ _ _ C)) as Fl. pose proof (dr_file _ _ _ _ _ (cd_dir _ _ _ (cp_cwd _ _ _ _ _ _ _ _ _ _ P))) as Fl'.
  pose proof (fr_geom _ _ _ (ir_fs _ _ _ _ _ I)) as G. pose proof (fl_inum _ _ _ _ _ Fl) as Hdi. destruct Hfi as ((Hi1&Hi2)&Hz&_).
  destruct (cp_op _ _ _ _ _ _ _ _ _ _ P) as [Hop' Hdisk'].
  destruct (end_op_agrees sb s' x' (x_view x) pid) as (t'&ws&He&Hw&_&Hcrash); [apply P|apply P|congruence|congruence|apply I|].
  exists s', dp', t', ws. split_and!; [done|done|done|apply P|]. intros c Hc. destruct (Hcrash c Hc) as (t2&Hi&Ha). exists t2. split; [exact Hi|].
  clear Hi. cbv zeta. generalize dependent (disk (l_bio t2)). intros v Ha. destruct Ha as [Ha|Ha]; [left|right].
  - rewrite !(agree_inode sb G v (x_view x) Ha) by (done || lia). split_and!; [done|apply Fl|].
    apply (agree_entries sb); [done|done|by eapply file_on_disk|apply Fl].
  - rewrite !(agree_inode sb G v (x_view x') Ha) by (done || lia). split_and!; [apply P| |].
    + rewrite <- (cp_dir _ _ _ _ _ _ _ _ _ _ P). apply Fl'.
    + rewrite (agree_entries sb (x_view x') v dp'); [apply P|done|done|by eapply file_on_disk|apply Fl'].
Qed.
(** ** A name that exists *)

Lemma wp_found s x d dp j jp type n de k K (Q : option nat → fs (log bio) → Prop) :
  let di := disk_inode sb (x_view x) n in
  let jp' := load_dinode di (locked s (set_i_id ROOTDEV n 1 false jp)) in
  let dp' := set_i_ref (i_ref dp - 1) (unlocked dp) in
  dir_rep sb s x d dp → icache_lock s = false → 2 ≤ i_ref dp < 2 ^ 31 → holdingsleep (fs_pid s) (i_lock dp) = true → i_nlink dp ≠ 0 →
  de_inum de = n → 0 ≤ n < sb_ninodes sb → free_entry_at s n j jp → d_type di ≠ 0 → d_nlink di ≠ 0 →
  (∀ t, fs_rep sb (set_tx t s) x →
     Q (if (type =? T_FILE) && (d_type di =? T_FILE) then Some j else None)
       (upd_st d dp' t (upd_st j (if (type =? T_FILE) && (d_type di =? T_FILE) then jp' else set_i_ref 0 (unlocked jp')) t s))) →
  wp (r ← lookup_result dp (Some (k, de));
      match r with
      | Some (ip, _) =>
          iunlockput d;;
          ilock ip;;
          i ← the_inode ip;
          if (type =? T_FILE) && (i_type i =? T_FILE) then mret (Some ip)
          else iunlockput ip;; mret None
      | None => K
      end) Q s.
Proof.
  intros di jp' dp' D Hl Href Hh Hnl Hde Hn (Hj&Hz&Hall&Hbefore&Hlk) Hty Hnl' HQ.
  pose proof (dr_file _ _ _ _ _ D) as Fl. pose proof (fl_ino _ _ _ _ _ Fl) as [F Hd Hdev _ Hheld].
  assert (j ≠ d) as Hjd by (intros ->; simplify_eq; lia).
  cbn [lookup_result]. rewrite Hdev, Hde. wp_step. wp_step. apply (wp_iget_new s ROOTDEV n j jp); try done. wp_step.
  set (jp1 := set_i_id ROOTDEV n 1 false jp). set (s1 := upd_st j jp1 (fs_tx s) s).
  assert (icache s1 !! d = Some dp) as Hd1 by (cbn; by rewrite list_lookup_insert_ne).
  wp_step. apply (wp_iunlockput s1 d dp); try done; [lia|]. fold (unlocked dp). fold dp'. set (s2 := upd_st d dp' _ s1).
  assert (icache s2 !! j = Some jp1) as Hj2.
  { cbn. rewrite list_lookup_insert_ne by done. apply list_lookup_insert_eq. by eapply lookup_lt_Some. }
  wp_step. apply (wp_ilock sb s2 x j jp1); try done; [destruct F; by split|apply D|]. change (load_dinode _ _) with jp'.
  intros t3 R3. set (s3 := upd_st j jp' t3 s2). assert (icache s3 !! j = Some jp') as Hj3 by (by apply (lookup_upd s2 j jp1)).
  assert (fs_rep sb (set_tx t3 s) x) as F3 by (destruct F; by split). specialize (HQ t3 F3).
  assert (∀ ip, upd_st j ip t3 s2 = upd_st d dp' t3 (upd_st j ip t3 s)) as Es.
  { intros ip. unfold s2, s1, upd_st, set_icache, set_tx. cbn. f_equal. rewrite (list_insert_insert_ne _ j d) by done. by rewrite list_insert_insert_eq. }
  wp_step. apply (wp_the_inode s3 j jp'); [done|]. change (i_type jp') with (d_type di). destruct (_ && _).
  - wp_step. unfold s3. by rewrite Es.
  - wp_step. apply (wp_iunlockput s3 j jp'); try done; [unfold holdingsleep; cbn; apply Z.eqb_refl|]. wp_step.
    change (fs_tx s3) with t3. unfold s3. rewrite upd_st_upd, Es. exact HQ.
Qed.

End create.

(** ** The theorems on an example *)

Module Cwd.
Import FsStack.

(** The example file system, with its directory not locked and the current one. *)
Definition unlocked_dir : inode := set_i_lock (initsleeplock "inode") Demo.dp.
Definition files (dp : inode) (t : log bio) : fs (log bio) :=
  mkfs t Demo.sb false (Demo.free_slot :: dp :: replicate 48 Demo.free_slot) 1 1.

#[local] Instance no_devices : DevSw (log bio) := { dev_read _ := None; dev_write _ := None }.

Lemma files_rep dp t x : tx_rep t x → x_size x = 24 → x_log x = (2, 10) → x_fresh x = ∅ → image_ok Demo.sb (x_view x) →
  fs_rep Demo.sb (files dp t) x.
Proof. intros R Hs Hl Hf Im. split; [exact R|done|apply Demo.geom|done|done|done|done]. Qed.

Lemma demo_cwd t : tx_rep t Demo.x → cwd_dir Demo.sb (files unlocked_dir t) Demo.x unlocked_dir.
Proof.
  intros R. split; try done. apply (dir_rep_st Demo.sb (Demo.state t) Demo.x 1 Demo.dp); [exact (demo_dir t R)| |done|done].
  apply files_rep; [exact R|done|done|done|apply Demo.image_view].
Qed.

Lemma free_first dp inum t : inum ≠ i_inum dp → free_entry_at (files dp t) inum 0 Demo.free_slot.
Proof.
  intros Hne. split_and!; try done; [|lia]. cbn. apply Forall_cons; split; [done|]. apply Forall_cons; split; [|by apply (Forall_replicate _ 48)].
  unfold entry_for. rewrite (proj2 (Z.eqb_neq (i_inum dp) inum)) by congruence. apply andb_false_r.
Qed.

Lemma third_inode : first_inum Demo.sb (x_view Demo.x) 3.
Proof.
  split; [by vm_compute|]. split; [by vm_compute|]. intros j Hj. assert (j = 1 ∨ j = 2) as [-> | ->] by lia; by vm_compute.
Qed.

Lemma plain_a : plain [97].
Proof. split; [done|]. apply Forall_cons. split; [lia|constructor]. Qed.


Lemma create_crash_atomic_witness : ∃ s s' t', create [97; 0] T_FILE 0 0 s = Done (Some 0%nat) s' ∧ end_op (fs_tx s') = Done tt t'.
Proof.
  destruct Demo.started as (t&R).
  destruct (create_crash_atomic Demo.sb (files unlocked_dir t) Demo.x unlocked_dir [97] T_FILE 0 0 3 0 Demo.free_slot 1) as (s'&dp'&t'&ws&E&E'&_).
  - exact (demo_cwd t R).
  - exact plain_a.
  - reflexivity.
  - by vm_compute.
  - by vm_compute.
  - done.
  - done.
  - exact third_inode.
  - lia.
  - by apply free_first.
  - by apply Demo.some_room.
  - exact Demo.two_free.
  - reflexivity.
  - reflexivity.
  - exists (files unlocked_dir t), s', t'. split; [exact E|exact E'].
Defined.

(** The directory with the name "a" for inode 1. *)
Lemma linked : ∃ t x dp de, cwd_dir Demo.sb (files dp t) x dp ∧ i_inum dp = 2 ∧ de_inum de = 1 ∧
  dir_find [97] (dir_entries (x_view x) dp) 0 = Some (0%nat, de) ∧ disk_inode Demo.sb (x_view x) 1 = Demo.file.
Proof.
  destruct Demo.started as (t&R). pose proof (demo_cwd t R) as [D _ _ _ _ _].
  assert (dir_find [97] (dir_entries (x_view Demo.x) unlocked_dir) 0 = None) as Hno by reflexivity.
  destruct (dirlink_run Demo.sb _ Demo.x 1 unlocked_dir [97] 1 0 D) as (t'&x'&dp'&_&D'&W&_&He); [lia|done|by vm_compute|apply Demo.some_room; lia|exact Demo.two_free|].
  destruct (dir_put_found (dir_entries (x_view Demo.x) unlocked_dir) [97] 1) as [Hn _]; [repeat constructor; lia|lia|done|].
  rewrite <- He in Hn. destruct (wi_ip _ _ _ _ _ _ _ W) as (addrs&Edp).
  exists t', x', dp', (mkdirent 1 (strncpy (replicate DIRSIZ 0) [97] DIRSIZ)). split_and!.
  - split; [exact D'|by rewrite Edp..|done].
  - by rewrite Edp.
  - done.
  - apply Hn; [repeat constructor; lia|done].
  - rewrite (wi_inodes _ _ _ _ _ _ _ W); [by vm_compute|done|done].
Qed.

End Cwd.
