(* ===== verification/Unlink.v ===== *)
(** * Removing files (unlink of sysfile.c, iput of fs.c)

    [sys_unlink] clears the entry of the directory and takes a link from the
    inode; when it was the last one, and nobody has the file open, releasing the
    inode frees its blocks and the inode itself.  All of it happens, or nothing,
    when the machine stops on the way. *)

From S2P Require Import Prelude Params Block Sleeplock Bio BioSpec Format Log LogSpec Crash.
From S2P Require Import Str Tx Fs FsSpec FsData FsWrite FsFile FsTrunc FsStack FsDir Mkfs Boot Sysfile Create.

(** ** The last reference to an inode without links *)

Section release.
Context {S : Type} `{TxSpec S} (sb : superblock).
Implicit Types (s : fs S) (x : txst) (i : nat) (ip : inode).

(** The cache entry of an inode that has been freed. *)
Definition gone ip : inode := set_i_ref 0 (unlocked (set_i_valid false (set_i_type 0 (emptied ip)))).

(** The transaction after it has been written for the last time. *)
Definition x_gone ip x : txst :=
  put_inode sb (i_inum ip) (inode_disk (set_i_type 0 (emptied ip))) (put_inode sb (i_inum ip) (inode_disk (emptied ip)) x).

Lemma relock s : icache_lock s = false → set_icache_lock false (set_icache_lock true s) = s.
Proof. destruct s. cbn. by intros ->. Qed.

Lemma wp_iunlockput_free s x i ip (Q : unit → fs S → Prop) :
  ino_rep sb s x i ip → icache_lock s = false → i_ref ip = 1 → holdingsleep (fs_pid s) (i_lock ip) = true → i_valid ip = true →
  i_nlink ip = 0 → 0 ≤ i_inum ip < sb_ninodes sb → dinode_ok (inode_disk ip) → free_room sb 2 x →
  (∀ t x1, freed sb x (file_blocks (x_view x) (i_addrs ip)) x1 → image_ok sb (x_view x1) →
     ino_rep sb (upd_st i (gone ip) t s) (x_gone ip x1) i (gone ip) → Q tt (upd_st i (gone ip) t s)) →
  wp (iunlockput i) Q s.
Proof.
  intros I Hl Href Hh Hv Hnl Hin Hok Hr HQ. pose proof I as [F Hi Hd Ho Hx].
  unfold iunlockput. wp_step. apply (wp_iunlock s i ip); [done|lia|done|]. set (ip1 := unlocked ip). set (s1 := upd_st i ip1 (fs_tx s) s).
  assert (Hi1 : icache s1 !! i = Some ip1) by (by apply (lookup_upd s i ip)).
  unfold iput. wp_step. apply (wp_acquiresleep s1 i ip1); [done|done|]. set (ip2 := set_i_lock _ ip1). set (s2 := upd_st i ip2 (fs_tx s1) s1).
  assert (Hi2 : icache s2 !! i = Some ip2) by (by apply (lookup_upd s1 i ip1)).
  wp_step. apply (wp_the_inode _ _ ip2); [done|]. change (i_valid ip2) with (i_valid ip). change (i_nlink ip2) with (i_nlink ip). rewrite Hv, Hnl.
  change (true && (0 =? 0)) with true. wp_step. wp_step; [|done].
  wp_step. apply wp_acquire; [done|]. wp_step. wp_step. wp_step. apply wp_release; [done|].
  change (icache (set_icache_lock true s2)) with (icache s2). rewrite (list_lookup_total_correct _ _ _ Hi2). change (i_ref ip2) with (i_ref ip). rewrite Href.
  rewrite (relock s2 Hl). change (1 =? 1) with true. wp_step; [|done].
  assert (Es2 : s2 = upd_st i ip2 (fs_tx s) s) by (unfold s2, s1; by rewrite upd_st_upd).
  assert (I2 : ino_rep sb s2 x i ip2).
  { split; [|done|done|done|done]. rewrite Es2. destruct F; by split. }
  wp_step. apply (wp_itrunc sb s2 x i ip2 I2 Hr); [done|done|]. intros t x1 Fd Im I3. rewrite Es2, upd_st_upd in I3 |- *.
  change (i_addrs ip2) with (i_addrs ip) in Fd. change (i_inum ip2) with (i_inum ip) in I3.
  set (ip3 := emptied ip2) in *. set (s3 := upd_st i ip3 t s) in *. change (inode_disk ip3) with (inode_disk (emptied ip)) in I3.
  set (x3 := put_inode sb (i_inum ip) (inode_disk (emptied ip)) x1) in *.
  wp_step. apply (wp_upd_inode s3 i ip3); [apply I3|]. set (ip4 := set_i_type 0 ip3). unfold s3 at 2. rewrite upd_st_upd. change (fs_tx s3) with t.
  assert (Hr3 : room 1 x3) by (apply room_put, (free_room_room sb), (freed_room _ _ _ _ _ Fd), Hr).
  wp_step. apply (wp_iupdate sb _ x3 i ip4); [|done| |done|].
  { destruct I3 as [[] ? ? ? ?]. split; [by split|by apply (lookup_upd s i ip)|done..]. }
  { destruct (emptied_ok ip Hok). by split. }
  intros t4 x4 I4. change (set_tx t4 (upd_st i ip4 t s)) with (upd_st i ip4 t4 s) in *.
  assert (Hi4 : icache (upd_st i ip4 t4 s) !! i = Some ip4) by (by apply (lookup_upd s i ip)).
  apply (wp_upd_inode _ i ip4); [done|]. rewrite upd_st_upd. change (fs_tx (upd_st i ip4 t4 s)) with t4. set (ip5 := set_i_valid false ip4).
  assert (Hi5 : icache (upd_st i ip5 t4 s) !! i = Some ip5) by (by apply (lookup_upd s i ip)).
  wp_step. unfold releasesleep_inode. apply (wp_upd_inode _ i ip5); [done|]. rewrite upd_st_upd. set (ip6 := set_i_lock _ ip5). change (fs_tx (upd_st i ip5 t4 s)) with t4.
  set (s6 := upd_st i ip6 t4 s).
  assert (Hi6 : icache s6 !! i = Some ip6) by (by apply (lookup_upd s i ip)).
  wp_step. apply wp_acquire; [done|]. wp_step. apply (wp_upd_inode _ i ip6); [done|]. apply wp_release; [done|].
  change (i_ref ip6) with (i_ref ip). rewrite Href. change (i32 (1 - 1)) with 0. change (fs_tx (set_icache_lock true s6)) with t4.
  rewrite upd_locked by done. unfold s6. rewrite upd_st_upd. apply (HQ t4 x1 Fd Im).
  destruct I4 as [[] ? ? ? ?]. split; [by split|by apply (lookup_upd s i ip)|done..].
Qed.
End release.

(** ** Overwriting an entry of a directory *)

Section clear.
Context `{DevSw (log bio)} (sb : superblock).
Implicit Types (s : fs (log bio)) (x : txst) (i j d : nat) (ip jp dp : inode).

(** The block of entry [k] with [data] at the place of the entry. *)
Definition x_entry_put x dp (k : nat) (data : list Z) : txst :=
  let off := 16 * Z.of_nat k in
  let b := addr_of (x_view x) (i_addrs dp) (Z.to_nat (off / 512)) in
  x_put b (splice (Z.to_nat (off mod 512)) data (x_view x !!! b)) x.

Lemma wp_writei_entry s x d dp (k : nat) data (Q : Z → fs (log bio) → Prop) :
  dir_rep sb s x d dp → (k < Z.to_nat (i_size dp / 16))%nat → length data = 16%nat → room 1 x →
  (∀ t, let x' := x_entry_put x dp k data in
     writei_post sb x dp (16 * Z.of_nat k) data x' dp → file_rep sb (set_tx t s) x' d dp → Q 16 (set_tx t s)) →
  wp (writei d data (16 * Z.of_nat k) 16) Q s.
Proof.
  intros D Hk Hlen Hr HQ. pose proof (dr_file _ _ _ _ _ D) as Fl. pose proof (fl_ino _ _ _ _ _ Fl) as I. pose proof I as [F Hi Hd Ho Hh].
  pose proof (fr_geom _ _ _ F) as G. pose proof (fl_size _ _ _ _ _ Fl) as Hsz. pose proof (dr_size _ _ _ _ _ D) as Hm. assert (MAXBYTES = 71680) as EM by done.
  set (off := 16 * Z.of_nat k) in *. set (bn := Z.to_nat (off / 512)).
  assert (Hoff : 0 ≤ off ∧ off + 16 ≤ i_size dp) by (unfold off; dlia).
  assert (Hbn : (bn < MAXFILE)%nat) by (change MAXFILE with 140%nat; unfold bn; dlia).
  assert (Hnz : addr_of (x_view x) (i_addrs dp) bn ≠ 0) by (apply (fl_mapped _ _ _ _ _ Fl); unfold bn; dlia).
  set (addr := addr_of (x_view x) (i_addrs dp) bn) in *.
  assert (Hfit : off mod 512 + 16 ≤ 512) by (unfold off; dlia).
  unfold writei. wp_step. apply (wp_the_inode _ _ dp); [done|].
  rewrite (proj2 (Z.eqb_neq _ _)) by apply Fl. rewrite u32_small by lia.
  rewrite (proj2 (Z.ltb_ge (i_size dp) off)), (proj2 (Z.ltb_ge (off + 16) off)) by lia. cbn [orb].
  rewrite (proj2 (Z.ltb_ge _ _)) by lia. wp_step. apply wp_require; [apply Z.leb_le; lia|].
  wp_step. change (Z.to_nat 16 + 1)%nat with (Datatypes.S (Datatypes.S 15)). generalize 15%nat. intros fuel.
  cbn [writei_loop]. change (0 <? 16) with true. cbv iota.
  wp_step. apply (wp_the_inode _ _ dp); [done|]. change (Z.of_nat BSIZE) with 512. rewrite <- (Z2Nat.id (off / 512)) by dlia. fold bn.
  wp_step. apply (wp_bmap_mapped sb s x d dp bn); [done|done|eapply room_weaken; [|done]; lia|done|]. intros t1 I1. fold addr.
  destruct (mo_addr _ _ _ Ho bn Hbn Hnz) as [Har Hau]. fold addr in Har, Hau. pose proof (data_start_range sb G) as Hds.
  rewrite Hd. eapply wp_get; [apply I1|rewrite (fr_size _ _ _ (ir_fs _ _ _ _ _ I1)); lia|by apply no_held|eapply room_weaken; [|done]; lia|].
  intros bp t2 Hbp R2 Hbl. assert (Hc : chunk 16 0 off = 16) by (unfold chunk; change (Z.of_nat BSIZE) with 512; lia). rewrite Hc.
  assert (Esl : slice (Z.to_nat 0) (Z.to_nat 16) data = data) by (unfold slice; rewrite drop_0, take_ge by lia; done). rewrite Esl.
  set (b := splice _ data _). assert (Hlb : length b = BSIZE) by (unfold b; rewrite length_splice; [done|rewrite Hlen, Hbl; change BSIZE with 512%nat; dlia]).
  destruct (data_home sb G addr Har) as [_ Hal].
  eapply wp_put; [exact R2|done|by eapply fr_not_fresh, I1|eapply fr_home; [apply I1|lia|done]|done|done|]. intros t3 R3.
  assert (Ex : x_put addr b x = x_entry_put x dp k data) by done.
  pose proof (write_post_block sb x (i_addrs dp) off data addr x (i_addrs dp) G ltac:(lia) ltac:(lia) ltac:(lia) Ho (fr_image _ _ _ F)
    (bmap_post_refl sb x (i_addrs dp) bn Ho Hbn Hnz)) as W. fold b in W. rewrite Ex in W, R3. set (x' := x_entry_put x dp k data) in *.
  assert (W' : writei_post sb x dp off data x' dp).
  { apply (writei_post_within sb s x d dp off data Fl); rewrite ?Hlen; try done; change (Z.of_nat 16) with 16; lia. }
  rewrite !u32_small by lia. change (0 + 16 <? 16) with false. cbv iota. wp_step. wp_step.
  apply (wp_the_inode _ _ dp); [done|]. wp_step.
  apply wp_when; intros Hb; [apply andb_true_iff in Hb as [_ Hb%Z.ltb_lt]; rewrite u32_small in Hb by lia; lia|]. wp_step. rewrite i32_small by lia.
  change (set_tx t3 (set_tx t1 s)) with (set_tx t3 s). apply (HQ t3 W').
  assert (F3 : fs_rep sb (set_tx t3 s) x').
  { rewrite <- Ex. apply fr_put; [done|by rewrite Ex|]. apply image_data; [done|apply F|done|done]. }
  destruct Fl as [_ F2 F3' F4 F5 F6 F7]. split; try done.
  - split; [done|done|done|apply W|done].
  - rewrite <- F5. apply disk_inode_same; [apply W|done|done].
  - intros n Hn. rewrite (wr_old _ _ _ _ _ _ _ W); [by apply F7|change MAXFILE with 140%nat; dlia|by apply F7].
Qed.
End clear.

(** ** What a change of one inode keeps *)

Section change.
Context (sb : superblock).
Implicit Types (x : txst) (n : Z) (di : dinode) (ip : inode) (v : gmap Z block).

(** Inode [n] becomes [di], the blocks [F] become free; no data block changes. *)
Record inode_change x n di (F : list Z) x' : Prop := {
  ic_inode m : 0 ≤ m < sb_ninodes sb → disk_inode sb (x_view x') m = if decide (n = m) then di else disk_inode sb (x_view x) m;
  ic_used b : 0 ≤ b < sb_size sb → block_used sb (x_view x') b = block_used sb (x_view x) b && negb (bool_decide (b ∈ F));
  ic_data c : data_start sb ≤ c → x_view x' !!! c = x_view x !!! c;
  ic_held : x_held x' = x_held x ∧ x_disk x' = x_disk x ∧ x_ops x' = x_ops x
}.

Lemma used_nil (b : Z) (u : bool) : u && negb (bool_decide (b ∈ [])) = u.
Proof. rewrite bool_decide_eq_false_2 by apply not_elem_of_nil. apply andb_true_r. Qed.

Lemma ic_put x n di : geom_ok sb → image_ok sb (x_view x) → 0 ≤ n < sb_ninodes sb → dinode_ok di → inode_change x n di [] (put_inode sb n di x).
Proof.
  intros G Im Hn Hd. split; [| | |done].
  - intros m Hm. by rewrite disk_inode_put by (done || lia).
  - intros b Hb. by rewrite used_nil, put_inode_used.
  - intros c Hc. by apply put_inode_block.
Qed.

Lemma ic_trans x n d1 x1 d2 F x2 : inode_change x n d1 [] x1 → inode_change x1 n d2 F x2 → inode_change x n d2 F x2.
Proof.
  intros [I1 U1 D1 H1] [I2 U2 D2 H2]. split.
  - intros m Hm. rewrite I2 by done. case_decide; [done|]. rewrite I1 by done. by rewrite decide_False.
  - intros b Hb. by rewrite U2, U1, used_nil.
  - intros c Hc. by rewrite D2, D1.
  - destruct H1 as (<-&<-&<-). exact H2.
Qed.

Lemma ic_freed x n di F x1 x2 : geom_ok sb → freed sb x F x1 → inode_change x1 n di [] x2 → inode_change x n di F x2.
Proof.
  intros G [V U L (Hh&Hd&Ho&_)] [I2 U2 D2 H2]. split.
  - intros m Hm. rewrite I2 by done. case_decide; [done|]. apply disk_inode_same; [|done|done].
    intros c Hc. apply V. pose proof (bmapstart_data sb G). lia.
  - intros b Hb. by rewrite U2, used_nil, U.
  - intros c Hc. rewrite D2 by done. apply lookup_total_same, V. lia.
  - destruct H2 as (->&->&->). done.
Qed.

Lemma ic_gone x F x1 ip : geom_ok sb → image_ok sb (x_view x1) → 0 ≤ i_inum ip < sb_ninodes sb → dinode_ok (inode_disk ip) → freed sb x F x1 →
  inode_change x (i_inum ip) (inode_disk (set_i_type 0 (emptied ip))) F (x_gone sb ip x1).
Proof.
  intros G Im Hn Hd Fd. pose proof (emptied_ok ip Hd) as He. assert (Hz : dinode_ok (inode_disk (set_i_type 0 (emptied ip)))) by (destruct He; by split).
  apply (ic_freed _ _ _ _ _ _ G Fd). apply (ic_trans _ _ (inode_disk (emptied ip)) (put_inode sb (i_inum ip) (inode_disk (emptied ip)) x1)); [by apply ic_put|].
  apply ic_put; [done| |done|done]. by apply put_inode_image.
Qed.

Context x n di F x' (G : geom_ok sb) (Ic : inode_change x n di F x').

Lemma ic_addr a bn : map_ok sb (x_view x) a → addr_of (x_view x') a bn = addr_of (x_view x) a bn.
Proof using Ic. intros Ho. apply addr_of_ext. intros Hnz. apply (ic_data _ _ _ _ _ Ic). apply (mo_ind _ _ _ Ho Hnz). Qed.

Lemma ic_byte a o : map_ok sb (x_view x) a → 0 ≤ o < MAXBYTES → addr_of (x_view x) a (Z.to_nat (o / 512)) ≠ 0 →
  file_byte (x_view x') a o = file_byte (x_view x) a o.
Proof using Ic.
  intros Ho Hr Hnz. unfold file_byte. rewrite ic_addr by done. f_equal. apply (ic_data _ _ _ _ _ Ic).
  change MAXBYTES with 71680 in Hr. destruct (mo_addr _ _ _ Ho (Z.to_nat (o / 512))) as [? _]; [change MAXFILE with 140%nat; dlia|done|lia].
Qed.

Lemma ic_good c : good sb (x_view x) c → c ∉ F → good sb (x_view x') c.
Proof using Ic G.
  intros [Hc Hu] Hn. pose proof (data_start_range sb G). split; [done|].
  rewrite (ic_used _ _ _ _ _ Ic), Hu by lia. by rewrite bool_decide_eq_false_2.
Qed.

(** A file with no block among the freed ones. *)
Lemma ic_map a : map_ok sb (x_view x) a → (∀ b, b ∈ file_blocks (x_view x) a → b ∉ F) → map_ok sb (x_view x') a.
Proof using Ic G.
  intros Ho Hn. pose proof (λ bn, ic_addr a bn Ho) as Ea. destruct Ho as [H1 H2 H3 H4 H5]. split; [done|..].
  - intros bn Hbn. rewrite Ea. intros Hnz. apply ic_good; [by apply H2|]. apply Hn, elem_of_app. left. apply elem_of_first_blocks. eauto.
  - intros Hnz. apply ic_good; [by apply H3|]. apply Hn, elem_of_app. right. rewrite decide_False by done. by apply list_elem_of_singleton.
  - intros bn bn'. rewrite !Ea. apply H4.
  - intros bn. rewrite Ea. apply H5.
Qed.

Lemma ic_on_disk ip : on_disk sb (x_view x) ip → 0 ≤ i_inum ip < sb_ninodes sb → i_inum ip ≠ n →
  (∀ b, b ∈ file_blocks (x_view x) (i_addrs ip) → b ∉ F) → on_disk sb (x_view x') ip.
Proof using Ic G.
  intros (Ho&Hs&Hm) Hi Hne HF. split_and!; [by apply ic_map| |].
  - rewrite (ic_inode _ _ _ _ _ Ic) by done. by rewrite decide_False.
  - intros bn Hbn. rewrite ic_addr by done. by apply Hm.
Qed.

Lemma ic_entries ip : on_disk sb (x_view x) ip → 0 ≤ i_size ip ≤ MAXBYTES → dir_entries (x_view x') ip = dir_entries (x_view x) ip.
Proof using Ic.
  intros (Ho&_&Hm) Hsz. unfold dir_entries. apply list_fmap_ext. intros k j Hj%lookup_seq. unfold dir_entry. f_equal.
  apply list_fmap_ext. intros k' j' Hj'%lookup_seq. apply ic_byte; [done|dlia|]. apply Hm. dlia.
Qed.
End change.

(** ** Taking a link from a file *)

Section drop_link.
Context {S : Type} `{TxSpec S} (sb : superblock).
Implicit Types (s : fs S) (x : txst) (j : nat) (jp : inode) (di : dinode).

(** The inode with a link less: free when it was the last one. *)
Definition unlinked di : dinode :=
  if decide (d_nlink di = 1) then mkdinode 0 (d_major di) (d_minor di) 0 0 (replicate (NDIRECT + 1) 0)
  else mkdinode (d_type di) (d_major di) (d_minor di) (d_nlink di - 1) (d_size di) (d_addrs di).

(** The blocks that become free. *)
Definition unlinked_blocks (v : gmap Z block) di : list Z :=
  if decide (d_nlink di = 1) then file_blocks v (d_addrs di) else [].

Lemma free_room_put k b d x : free_room sb (Datatypes.S k) x → free_room sb k (x_put b d x).
Proof.
  intros [H1 H2]. unfold free_room, x_max in *. cbn [x_put x_logged x_held x_log].
  assert (size ({[b]} ∪ x_logged x ∪ bitmap_blocks sb) ≤ Datatypes.S (size (x_logged x ∪ bitmap_blocks sb)))%nat; [|split; lia].
  rewrite <- union_assoc_L. apply size_add_le.
Qed.

Lemma i16_nonneg z : 0 ≤ z < 2 ^ 15 → i16 z = z.
Proof. intros Hz. unfold i16, u16. cbv zeta. rewrite Z.mod_small by lia. by rewrite (proj2 (Z.ltb_lt _ _)) by lia. Qed.

Lemma wp_drop_link {A} s x j jp (m : M (fs S) A) Q :
  let di := inode_disk jp in
  ino_rep sb s x j jp → icache_lock s = false → i_ref jp = 1 → holdingsleep (fs_pid s) (i_lock jp) = true → i_valid jp = true →
  1 ≤ i_nlink jp → 0 ≤ i_inum jp < sb_ninodes sb → dinode_ok di → free_room sb 3 x →
  (∀ t x' jp', inode_change sb x (i_inum jp) (unlinked di) (unlinked_blocks (x_view x) di) x' → room 0 x' → i_ref jp' = 0 →
     fs_rep sb (upd_st j jp' t s) x' → wp m Q (upd_st j jp' t s)) →
  wp (add_nlink (-1) j;; iunlockput j;; m) Q s.
Proof.
  intros di I Hl Href Hh Hv Hnl Hin Hok Hr HQ. pose proof I as [F Hj Hd Ho Hx]. pose proof (fr_geom _ _ _ F) as G.
  pose proof (di_nlink _ Hok) as Hs. change (short (i_nlink jp)) in Hs. unfold short in Hs.
  unfold add_nlink. wp_step. wp_step. apply (wp_upd_inode s j jp); [done|]. rewrite i16_nonneg by lia. set (jp1 := set_i_nlink (i_nlink jp + -1) jp).
  assert (Hok1 : dinode_ok (inode_disk jp1)) by (destruct Hok; split; try done; unfold short; cbn; lia).
  assert (I1 : ino_rep sb (upd_st j jp1 (fs_tx s) s) x j jp1).
  { split; [|by apply (lookup_upd s j jp)|done..]. apply fs_rep_upd. by rewrite set_tx_id. }
  apply (wp_iupdate sb _ x j jp1 _ I1); [done|done|eapply room_weaken; [|by eapply free_room_room]; lia|].
  intros t2 x2 I2. change (set_tx t2 (upd_st j jp1 (fs_tx s) s)) with (upd_st j jp1 t2 s) in *. set (s2 := upd_st j jp1 t2 s) in *.
  change (i_inum jp1) with (i_inum jp) in *. pose proof (ic_put sb x (i_inum jp) _ G (fr_image _ _ _ F) Hin Hok1) as Ic. fold x2 in Ic.
  assert (Hr2 : free_room sb 2 x2) by by apply free_room_put.
  wp_step. unfold unlinked, unlinked_blocks in HQ. change (d_nlink di) with (i_nlink jp) in HQ. destruct (decide (i_nlink jp = 1)) as [E1|E1].
  - apply (wp_iunlockput_free sb s2 x2 j jp1); try done; [cbn; lia|]. intros t3 x3 Fd Im I3.
    assert (Eb : file_blocks (x_view x2) (i_addrs jp1) = file_blocks (x_view x) (d_addrs di)).
    { unfold file_blocks, first_blocks. do 2 f_equal. apply list_fmap_ext. intros k bn _. by apply (ic_addr sb x _ _ _ x2 Ic). }
    rewrite Eb in Fd. unfold s2 in I3 |- *. rewrite upd_st_upd in I3 |- *. apply (HQ t3 (x_gone sb jp1 x3) (gone jp1)); [|..|done|apply I3].
    + eapply ic_trans; [exact Ic|]. pose proof (ic_gone sb x2 _ x3 jp1 G Im Hin Hok1 Fd) as Ig.
      assert (Ed : inode_disk (set_i_type 0 (emptied jp1)) = mkdinode 0 (d_major di) (d_minor di) 0 0 (replicate (NDIRECT + 1) 0)).
      { unfold jp1. rewrite E1. done. }
      rewrite Ed in Ig. exact Ig.
    + apply room_put, room_put, (free_room_room sb), (freed_room sb _ _ _ _ Fd), Hr2.
  - apply (wp_iunlockput s2 j jp1); try done; [apply I2|cbn; lia|cbn; lia|].
    change (fs_tx s2) with t2. unfold s2. rewrite upd_st_upd. apply (HQ t2 x2); [exact Ic|..].
    + eapply room_weaken; [|by eapply free_room_room]. lia.
    + cbn. lia.
    + apply fs_rep_upd. destruct (ir_fs _ _ _ _ _ I2). by split.
Qed.
End drop_link.

(** ** Removing a name *)

Section unlink.
Context `{DevSw (log bio)} (sb : superblock).
Implicit Types (s : fs (log bio)) (x : txst) (i j d : nat) (ip jp dp : inode) (de : dirent).

(** A directory entry not in use, as [memset] leaves it. *)
Definition no_entry : dirent := mkdirent 0 (replicate DIRSIZ 0).

(** The transaction with entry [k] cleared. *)
Definition x_clear x dp (k : nat) : txst := x_entry_put x dp k (encode_dirent no_entry).

Lemma clear_used s x d dp k b : dir_rep sb s x d dp → (k < Z.to_nat (i_size dp / 16))%nat → 0 ≤ b < sb_size sb →
  block_used sb (x_view (x_clear x dp k)) b = block_used sb (x_view x) b.
Proof.
  intros D Hk Hb. pose proof (dr_file _ _ _ _ _ D) as Fl. pose proof (fl_size _ _ _ _ _ Fl) as Hsz. assert (MAXBYTES = 71680) as EM by done.
  pose proof (dr_size _ _ _ _ _ D) as Hm. pose proof (BBLOCK_range sb b Hb). apply block_used_other.
  destruct (mo_addr _ _ _ (ir_map _ _ _ _ _ (fl_ino _ _ _ _ _ Fl)) (Z.to_nat (16 * Z.of_nat k / 512))) as [? _].
  { change MAXFILE with 140%nat. dlia. }
  { apply (fl_mapped _ _ _ _ _ Fl). dlia. }
  lia.
Qed.

(** The map of a file is not in the blocks of the directory. *)
Lemma clear_map x dp k dp' a : writei_post sb x dp (16 * Z.of_nat k) (encode_dirent no_entry) (x_clear x dp k) dp' →
  map_ok sb (x_view x) a → disjoint_files (x_view x) (i_addrs dp) a →
  map_ok sb (x_view (x_clear x dp k)) a ∧ ∀ bn, addr_of (x_view (x_clear x dp k)) a bn = addr_of (x_view x) a bn.
Proof.
  intros W Ho (_&_&D3&D4).
  assert (Hi : a !!! NDIRECT ≠ 0 → x_view (x_clear x dp k) !!! (a !!! NDIRECT) = x_view x !!! (a !!! NDIRECT)).
  { intros Hnz. apply (wi_keep _ _ _ _ _ _ _ W); [by apply Ho|by apply D4|]. intros bn Hbn. by apply D3. }
  split; [|intros bn; by apply addr_of_ext]. eapply map_ok_ext; [done|done|]. apply W.
Qed.

Lemma file_blocks_ext v v' a : (∀ bn, addr_of v' a bn = addr_of v a bn) → file_blocks v' a = file_blocks v a.
Proof. intros Ea. unfold file_blocks, first_blocks. do 2 f_equal. apply list_fmap_ext. intros k bn _. apply Ea. Qed.

(** What the transaction has after the name has been removed. *)
Record name_removed x dp k n x' : Prop := {
  nr_clear : writei_post sb x dp (16 * Z.of_nat k) (encode_dirent no_entry) (x_clear x dp k) dp;
  nr_dir : on_disk sb (x_view (x_clear x dp k)) dp;
  nr_inode : inode_change sb (x_clear x dp k) n (unlinked (disk_inode sb (x_view x) n))
               (unlinked_blocks (x_view x) (disk_inode sb (x_view x) n)) x';
  nr_room : room 0 x'
}.

(** From the lookup on: the directory is locked, entry [k] has the name. *)
Lemma wp_unlink_found s x d dp j jp k de (Q : Z → fs (log bio) → Prop) K :
  let n := de_inum de in
  let di := disk_inode sb (x_view x) n in
  let dp' := set_i_ref (i_ref dp - 1) (unlocked dp) in
  dir_rep sb s x d dp → icache_lock s = false → 2 ≤ i_ref dp < 2 ^ 31 → holdingsleep (fs_pid s) (i_lock dp) = true → i_nlink dp ≠ 0 →
  (k < Z.to_nat (i_size dp / 16))%nat → 0 ≤ n < sb_ninodes sb → n ≠ i_inum dp → free_entry_at s n j jp →
  dinode_ok di → d_type di ≠ 0 → d_type di ≠ T_DIR → 1 ≤ d_nlink di →
  map_ok sb (x_view x) (d_addrs di) → disjoint_files (x_view x) (i_addrs dp) (d_addrs di) → free_room sb 4 x →
  (∀ t x' jp', name_removed x dp k n x' → i_ref jp' = 0 → fs_rep sb (set_tx t s) x' → Q 0 (upd_st d dp' t (upd_st j jp' t s))) →
  wp (r ← lookup_result dp (Some (k, de));
      match r with
      | None => K
      | Some (ip, off) =>
          ilock ip;;
          i ← the_inode ip;
          if i_nlink i <? 1 then panic "unlink: nlink < 1"
          else
            empty ← (if i_type i =? T_DIR then isdirempty ip else mret true);
            if negb empty then iunlockput ip;; iunlockput d;; mret (-1)
            else
              w ← writei d (replicate DIRENT_SIZE 0) off (Z.of_nat DIRENT_SIZE);
              if negb (w =? Z.of_nat DIRENT_SIZE) then panic "unlink: writei"
              else
                (if i_type i =? T_DIR then add_nlink (-1) d else mret tt);;
                iunlockput d;;
                add_nlink (-1) ip;;
                iunlockput ip;;
                mret 0
      end) Q s.
Proof.
  intros n di dp' D Hl Href Hh Hnl Hk Hn Hne (Hj&Hz&Hall&Hbefore&Hlk) Hok Hty Hnd Hnl' Ho Hdis Hr HQ.
  pose proof (dr_file _ _ _ _ _ D) as Fl. pose proof (fl_ino _ _ _ _ _ Fl) as [F Hd Hdev _ Hheld].
  assert (Hjd : j ≠ d) by (intros ->; simplify_eq; lia).
  cbn [lookup_result]. rewrite Hdev. wp_step. wp_step. apply (wp_iget_new s ROOTDEV n j jp); try done. wp_step.
  set (jp1 := set_i_id ROOTDEV n 1 false jp). set (s1 := upd_st j jp1 (fs_tx s) s).
  wp_step. apply (wp_ilock sb s1 x j jp1); try done; [destruct F; by split|apply D|by apply (lookup_upd s j jp)|].
  intros t3 R3. set (jp2 := load_dinode _ _). unfold s1. rewrite upd_st_upd. set (s3 := upd_st j jp2 t3 s).
  assert (Hj3 : icache s3 !! j = Some jp2) by by apply (lookup_upd s j jp).
  wp_step. apply (wp_the_inode s3 j jp2); [done|]. change (i_type jp2) with (d_type di). change (i_nlink jp2) with (d_nlink di).
  rewrite (proj2 (Z.ltb_ge _ _) Hnl'), (proj2 (Z.eqb_neq _ _) Hnd). wp_step. wp_step. cbn [negb].
  assert (D3 : dir_rep sb s3 x d dp).
  { apply (dir_rep_st sb s x d dp); [done|destruct F; by split| |done]. cbn. by rewrite list_lookup_insert_ne. }
  change (replicate DIRENT_SIZE 0) with (encode_dirent no_entry). change (Z.of_nat DIRENT_SIZE) with 16.
  wp_step. apply (wp_writei_entry sb s3 x d dp k); [done|done|done|eapply room_weaken; [|by eapply free_room_room]; lia|].
  intros t4 x4 W F4. change (x4) with (x_clear x dp k) in W, F4. clear x4. change (negb (16 =? 16)) with false. cbv iota. wp_step. wp_step.
  set (s4 := set_tx t4 s3) in *. pose proof (fl_ino _ _ _ _ _ F4) as I4.
  wp_step. apply (wp_iunlockput s4 d dp); try done; [apply I4|lia|]. fold (unlocked dp). fold dp'. change (fs_tx s4) with t4.
  destruct (clear_map x dp k dp (d_addrs di) W Ho Hdis) as [Ho4 Ea]. set (s5 := upd_st d dp' t4 s4).
  assert (Es : ∀ ip t, upd_st j ip t s5 = upd_st d dp' t (upd_st j ip t s)).
  { intros ip t. unfold s5, s4, s3, upd_st, set_icache, set_tx. cbn. f_equal. rewrite (list_insert_insert_ne _ j d) by done. by rewrite list_insert_insert_eq. }
  apply (wp_drop_link sb s5 (x_clear x dp k) j jp2); try done.
  { split; [|cbn; by rewrite list_lookup_insert_ne|done|exact Ho4|apply I4]. apply fs_rep_upd. destruct (ir_fs _ _ _ _ _ I4). by split. }
  { unfold holdingsleep. cbn. apply Z.eqb_refl. }
  { by apply free_room_put. }
  intros t6 x6 jp6 Ic Hr6 Hz6 F6. wp_step. rewrite Es in F6 |- *. apply (HQ t6 x6 jp6); [|done|destruct F6; by split].
  assert (Eb : unlinked_blocks (x_view (x_clear x dp k)) di = unlinked_blocks (x_view x) di).
  { unfold unlinked_blocks. case_decide; [|done]. by apply file_blocks_ext. }
  change (inode_disk jp2) with di in Ic. rewrite Eb in Ic. split; try done. by eapply file_on_disk.
Qed.
(** The directory keeps its blocks. *)
Lemma clear_addr s x d dp k bn : dir_rep sb s x d dp → (k < Z.to_nat (i_size dp / 16))%nat →
  addr_of (x_view (x_clear x dp k)) (i_addrs dp) bn = addr_of (x_view x) (i_addrs dp) bn.
Proof.
  intros D Hk. pose proof (dr_file _ _ _ _ _ D) as Fl. pose proof (fl_size _ _ _ _ _ Fl) as Hsz. assert (MAXBYTES = 71680) as EM by done.
  apply addr_of_ext. intros Hnz. apply lookup_total_insert_ne. apply (mo_ind_ne _ _ _ (ir_map _ _ _ _ _ (fl_ino _ _ _ _ _ Fl))); [|done].
  change MAXFILE with 140%nat. pose proof (dr_size _ _ _ _ _ D). dlia.
Qed.

Lemma disjoint_blocks v a1 a2 b : disjoint_files v a1 a2 → b ∈ file_blocks v a1 → b ∉ file_blocks v a2.
Proof.
  intros (D1&D2&D3&D4) [(Hb&b1&Hb1&E1)%elem_of_first_blocks|Hi1]%elem_of_app [(_&b2&Hb2&E2)%elem_of_first_blocks|Hi2]%elem_of_app.
  - subst b. symmetry in E2. by apply (D1 b1 b2).
  - case_decide; [by apply not_elem_of_nil in Hi2|]. apply list_elem_of_singleton in Hi2. subst b. by apply (D3 b1).
  - case_decide; [by apply not_elem_of_nil in Hi1|]. apply list_elem_of_singleton in Hi1. subst b. apply (D2 b2); [done| |done]. by rewrite E2.
  - do 2 (case_decide; [by apply not_elem_of_nil in Hi1 || by apply not_elem_of_nil in Hi2|]).
    apply list_elem_of_singleton in Hi1, Hi2. subst b. by apply D4.
Qed.

(** A name of the directory that is not one of the two special ones. *)
Lemma namecmp_ne nm name q : plain nm → Forall byte name → take DIRSIZ (cstr name) = take DIRSIZ nm → Forall byte q →
  (length (cstr q) < DIRSIZ)%nat → nm ≠ cstr q → namecmp name q =? 0 = false.
Proof.
  intros Hp Hb Hc Hq Hlen Hne. apply Z.eqb_neq. unfold namecmp. rewrite strncmp_zero by done. rewrite Hc, (take_ge (cstr q)) by lia.
  intros E. apply Hne. rewrite <- E. symmetry. apply take_ge. apply (f_equal length) in E. rewrite length_take in E. lia.
Qed.

(** The directory after the removal. *)
Lemma removed_dir s x dp k n x' s' i dp' : dir_rep sb s x i dp → (k < Z.to_nat (i_size dp / 16))%nat → n ≠ i_inum dp →
  disjoint_files (x_view x) (i_addrs dp) (d_addrs (disk_inode sb (x_view x) n)) → name_removed x dp k n x' →
  fs_rep sb s' x' → icache s' !! i = Some dp' → same_file dp dp' →
  dir_rep sb s' x' i dp' ∧ dir_entries (x_view x') dp' = dir_put (dir_entries (x_view x) dp) k no_entry.
Proof.
  intros D Hk Hne Hdis [W Od Ic Hr] F' Hi (Ed&En&Edi). pose proof (dr_file _ _ _ _ _ D) as Fl. pose proof (fl_ino _ _ _ _ _ Fl) as I.
  pose proof (fr_geom _ _ _ (ir_fs _ _ _ _ _ I)) as G. pose proof (fl_size _ _ _ _ _ Fl) as Hsz. pose proof (fl_inum _ _ _ _ _ Fl) as Hin.
  assert (Od' : on_disk sb (x_view x') dp).
  { apply (ic_on_disk sb _ _ _ _ x' G Ic); try done. intros b. rewrite (file_blocks_ext (x_view x)) by (intros bn; by apply (clear_addr s x i dp)).
    intros Hb. unfold unlinked_blocks. case_decide; [|apply not_elem_of_nil]. by apply (disjoint_blocks _ _ _ b Hdis). }
  pose proof Edi as Edi'. injection Edi' as Et Ema Emi Enl Es Ea. destruct Fl as [[_ _ Hdev _ Hh] F1 F2 F3 F4 F5 F6]. destruct Od' as (O1&O2&O3). split.
  - split; [split; [split|..]|..]; rewrite ?Ed, ?En, ?Et, ?Ema, ?Emi, ?Enl, ?Es, ?Ea, ?Edi; try done; try apply D.
    destruct (ic_held _ _ _ _ _ _ Ic) as (->&_). by destruct (wi_held _ _ _ _ _ _ _ W) as (->&_).
  - rewrite (dir_entries_same _ dp dp') by done. rewrite (ic_entries sb _ _ _ _ _ Ic dp Od Hsz).
    apply (dir_entries_put sb x dp (x_clear x dp k) dp no_entry k); try done; [lia|apply D|lia].
Qed.
Lemma dir_find_lookup nm l k de : ∀ k0, dir_find nm l k0 = Some (k, de) → (k0 ≤ k)%nat ∧ l !! (k - k0)%nat = Some de ∧
  Forall (λ de, de_match nm de = false) (take (k - k0) l).
Proof.
  induction l as [|de0 l IH]; intros k0; cbn [dir_find]; [done|]. destruct (de_match nm de0) eqn:E.
  - intros [= -> ->]. by rewrite Nat.sub_diag.
  - intros (?&?&?)%IH. replace (k - k0)%nat with (Datatypes.S (k - Datatypes.S k0)) by lia. split_and!; [lia|done|]. by apply Forall_cons.
Qed.

(** The names of the directory after the call: entry [k] is not in use, the
    other names are found where they were, and [nm] is not found unless a
    later entry has it too. *)
Definition removes_name (l l' : list dirent) (nm : list Z) (k : nat) de : Prop :=
  l' = dir_put l k no_entry ∧
  (∀ name, de_match name de = false → dir_find name l' 0 = dir_find name l 0) ∧
  (Forall (λ de, de_match nm de = false) (drop (Datatypes.S k) l) → dir_find nm l' 0 = None).

Lemma dir_put_removes l nm k de : dir_find nm l 0 = Some (k, de) → removes_name l (dir_put l k no_entry) nm k de.
Proof.
  intros (_&Hk&Hb)%dir_find_lookup. rewrite Nat.sub_0_r in Hk, Hb. pose proof (lookup_lt_Some _ _ _ Hk). split_and!; [done|..].
  - intros name Hn. apply dir_find_put_ne; [lia| |done]. intros de0. rewrite Hk. by intros [= <-].
  - intros Ha. apply dir_find_None. apply Forall_app. split; [done|]. by apply Forall_cons.
Qed.

Lemma found_in_dir nm v dp k de : dir_find nm (dir_entries v dp) 0 = Some (k, de) → (k < Z.to_nat (i_size dp / 16))%nat.
Proof. intros (_&Hlk%lookup_lt_Some&_)%dir_find_lookup. rewrite length_dir_entries in Hlk. lia. Qed.

(** What the whole call does: the entry [k] is cleared and no other; inode [n]
    has a link less, and with the last one it is free and so are its blocks;
    no other inode, no other entry of the inode cache and no byte of another
    file changes. *)
Record unlink_post s x dp nm (k : nat) de j s' x' dp' : Prop := {
  up_fs : fs_rep sb s' x';
  up_cwd : cwd_dir sb s' x' dp';
  up_same : same_file dp dp' ∧ i_ref dp' = i_ref dp;
  up_name : removes_name (dir_entries (x_view x) dp) (dir_entries (x_view x') dp') nm k de;
  up_inode m : 0 ≤ m < sb_ninodes sb → disk_inode sb (x_view x') m =
    if decide (de_inum de = m) then unlinked (disk_inode sb (x_view x) (de_inum de)) else disk_inode sb (x_view x) m;
  up_used b : 0 ≤ b < sb_size sb → block_used sb (x_view x') b =
    block_used sb (x_view x) b && negb (bool_decide (b ∈ unlinked_blocks (x_view x) (disk_inode sb (x_view x) (de_inum de))));
  up_released : ∃ jp', icache s' !! j = Some jp' ∧ i_ref jp' = 0;
  up_cache i : i ≠ j → i ≠ fs_cwd s → icache s' !! i = icache s !! i;
  up_files a2 o : map_ok sb (x_view x) a2 → disjoint_files (x_view x) (i_addrs dp) a2 → 0 ≤ o < MAXBYTES →
    addr_of (x_view x) a2 (Z.to_nat (o / 512)) ≠ 0 → file_byte (x_view x') a2 o = file_byte (x_view x) a2 o;
  up_op : x_ops x' = x_ops x ∧ x_disk x' = x_disk x ∧ x_held x' = x_held x
}.

Section remove.
Context s x dp (nm : list Z) (k : nat) de j jp.
Let d := fs_cwd s.
Let l := dir_entries (x_view x) dp.
Let n := de_inum de.
Let di := disk_inode sb (x_view x) n.
Context (C : cwd_dir sb s x dp) (Hp : plain nm) (Hdot : nm ≠ cstr dot) (Hdd : nm ≠ cstr dotdot) (Hf : dir_find nm l 0 = Some (k, de)).
Context (Hn : 0 ≤ n < sb_ninodes sb) (Hne : n ≠ i_inum dp) (Hfe : free_entry_at s n j jp).
Context (Hok : dinode_ok di) (Hty : d_type di ≠ 0) (Hnd : d_type di ≠ T_DIR) (Hnl' : 1 ≤ d_nlink di).
Context (Ho : map_ok sb (x_view x) (d_addrs di)) (Hdis : disjoint_files (x_view x) (i_addrs dp) (d_addrs di)) (Hr : free_room sb 4 x).

(** The directory while it is locked, and at the end. *)
Let dp2 := dir_held s dp.
Let dp' := set_i_ref (i_ref dp) (unlocked dp2).

Lemma wp_unlink : wp (unlink (nm ++ [0])) (λ r s', r = 0 ∧ ∃ t0 t x' jp', dir_rep sb (upd_st d dp2 t0 s) x d dp2 ∧
  name_removed x dp2 k n x' ∧ i_ref jp' = 0 ∧ fs_rep sb (set_tx t s) x' ∧ s' = upd_st d dp' t (upd_st j jp' t s)) s.
Proof using All.
  pose proof C as [D Hv Hlk Href Hnl Hl]. fold d in D. pose proof (ir_ip _ _ _ _ _ (fl_ino _ _ _ _ _ (dr_file _ _ _ _ _ D))) as Hd.
  assert (d ≠ j) as Hdj by (destruct Hfe as (Hj&Hz&_); intros E; rewrite E in Hd; simplify_eq; lia).
  unfold unlink. wp_step. apply (wp_parent s x dp nm); try done; [apply D|]. intros name Hb Hc. cbn [fst snd].
  rewrite (namecmp_ne nm name dot), (namecmp_ne nm name dotdot) by (done || (repeat constructor; lia) || (cbn; lia)). cbn [orb].
  apply (wp_lock_lookup sb s x dp nm); [done..|]. fold d l dp2. rewrite Hf. intros t D2. set (s2 := upd_st d _ t s) in *.
  apply (wp_unlink_found s2 x d dp2 j jp k de); try done.
  { cbn. lia. }
  { unfold holdingsleep. cbn. apply Z.eqb_refl. }
  { by apply (found_in_dir nm (x_view x) dp k de). }
  { apply (free_entry_upd s _ j jp d dp); [done|done|lia|cbn; lia|done]. }
  intros t' x' jp' Nr Hz F'. split; [done|]. exists t, t', x', jp'. split_and!; [done|done|done|destruct F'; by split|].
  unfold s2. rewrite upd_st_between by done. unfold dp'. do 2 f_equal. cbn. lia.
Qed.

Lemma unlink_run : ∃ s' x', unlink (nm ++ [0]) s = Done 0 s' ∧ unlink_post s x dp nm k de j s' x' dp'.
Proof using All.
  destruct (wp_inv _ _ _ wp_unlink) as (r&s'&E&->&t0&t&x'&jp'&D2&Nr&Hz&F&Es). exists s', x'. split; [done|].
  pose proof C as [D Hv _ Href Hnl Hl]. fold d in D. pose proof (fl_ino _ _ _ _ _ (dr_file _ _ _ _ _ D)) as I. pose proof (ir_ip _ _ _ _ _ I) as Hd.
  pose proof (fr_geom _ _ _ (ir_fs _ _ _ _ _ I)) as G. pose proof (found_in_dir _ _ _ _ _ Hf) as Hk.
  assert (d ≠ j) as Hdj by (destruct Hfe as (Hj&Hzj&_); intros Edj; rewrite Edj in Hd; simplify_eq; lia).
  assert (F' : fs_rep sb s' x') by (rewrite Es; destruct F; by split).
  assert (Hd' : icache s' !! d = Some dp').
  { rewrite Es. cbn. apply list_lookup_insert_eq. rewrite length_insert. by eapply lookup_lt_Some. }
  destruct (removed_dir _ x dp2 k n x' s' d dp' D2 Hk Hne Hdis Nr F' Hd') as [D' He]; [done|]. destruct Nr as [W Od Ic Hr'].
  destruct (wi_held _ _ _ _ _ _ _ W) as (Hw1&Hw2&Hw3). destruct (ic_held _ _ _ _ _ _ Ic) as (Hi1&Hi2&Hi3). split; [done| |done|..].
  - split; [by rewrite Es at 2|done|done|done|done|by rewrite Es].
  - rewrite He. by apply dir_put_removes.
  - intros m Hm. rewrite (ic_inode _ _ _ _ _ _ Ic) by done. fold n di. case_decide; [done|]. destruct (decide (m = i_inum dp)) as [->|Hm'].
    + destruct Od as (_&Esy&_). rewrite (fl_sync _ _ _ _ _ (dr_file _ _ _ _ _ D)). exact Esy.
    + by apply (wi_inodes _ _ _ _ _ _ _ W).
  - intros b Hb. by rewrite (ic_used _ _ _ _ _ _ Ic), (clear_used _ x d dp2 k _ D2 Hk).
  - exists jp'. split; [|done]. rewrite Es. cbn. rewrite list_lookup_insert_ne by done. apply list_lookup_insert_eq.
    destruct Hfe as (Hj&_). by eapply lookup_lt_Some.
  - intros i Hi Hi'. rewrite Es. cbn. by rewrite !list_lookup_insert_ne.
  - intros a2 o Ho2 Hdis2 Hor Ha. destruct (clear_map x dp2 k dp2 a2 W Ho2 Hdis2) as [Ho3 Ea]. rewrite (ic_byte sb _ _ _ _ _ Ic) by (done || by rewrite Ea).
    by apply (other_file_kept sb x dp2 _ _ _ _ a2 o G W).
  - rewrite Hi1, Hi2, Hi3, Hw1, Hw2, Hw3. done.
Qed.
End remove.



(** ** Names that are not removed *)

Lemma namecmp_eq name q : Forall byte name → Forall byte q → take DIRSIZ (cstr name) = take DIRSIZ (cstr q) → namecmp name q =? 0 = true.
Proof. intros Hb Hq E. apply Z.eqb_eq. by apply strncmp_zero. Qed.

(** The directory is given back as it was. *)
Lemma wp_give_back s x dp t (Q : Z → fs (log bio) → Prop) :
  let d := fs_cwd s in
  let dp' := set_i_ref (i_ref dp) (unlocked dp) in
  cwd_dir sb s x dp → fs_rep sb (upd_st d (dir_held s dp) t s) x →
  (cwd_dir sb (upd_st d dp' t s) x dp' → Q (-1) (upd_st d dp' t s)) →
  wp (iunlockput d;; mret (-1)) Q (upd_st d (dir_held s dp) t s).
Proof.
  intros d dp' [D Hv Hlk Href Hnl Hl] F HQ. pose proof (ir_ip _ _ _ _ _ (fl_ino _ _ _ _ _ (dr_file _ _ _ _ _ D))) as Hd. fold d in D, Hd.
  wp_step. apply (wp_iunlockput _ d (dir_held s dp)); try done;
    [by apply (lookup_upd s d dp)|cbn; lia|unfold holdingsleep; cbn; apply Z.eqb_refl|].
  wp_step. set (dp1 := set_i_ref _ _). assert (i_ref (dir_held s dp) - 1 = i_ref dp) as Er by (cbn; lia).
  assert (dp1 = dp') as -> by (unfold dp1; by rewrite Er).
  rewrite upd_st_upd. change (fs_tx (upd_st d (dir_held s dp) t s)) with t. apply HQ. split; try done.
  change (fs_cwd (upd_st d dp' t s)) with d. apply (dir_rep_st sb s x d dp); [done| |by apply (lookup_upd s d dp)|done]. destruct F; by split.
Qed.

(** [unlink] of "." or "..", and of a name the directory does not have, returns
    -1; nothing in the transaction changes, and the directory is given back. *)
Theorem unlink_refused s x dp nm :
  let d := fs_cwd s in
  cwd_dir sb s x dp → plain nm → nm = cstr dot ∨ nm = cstr dotdot ∨ dir_find nm (dir_entries (x_view x) dp) 0 = None →
  ∃ s' dp', unlink (nm ++ [0]) s = Done (-1) s' ∧ cwd_dir sb s' x dp' ∧ same_file dp dp' ∧ i_ref dp' = i_ref dp ∧
    ∀ i, i ≠ d → icache s' !! i = icache s !! i.
Proof.
  intros d C Hp Hno. set (dp' := set_i_ref (i_ref dp) (unlocked dp)). pose proof C as [D Hv Hlk Href Hnl Hl]. fold d in D.
  pose proof (fl_ino _ _ _ _ _ (dr_file _ _ _ _ _ D)) as [F Hd _ _ _].
  assert (wp (unlink (nm ++ [0])) (λ r s', r = -1 ∧ ∃ t, s' = upd_st d dp' t s ∧ cwd_dir sb s' x dp') s) as W.
  { unfold unlink. wp_step. apply (wp_parent s x dp nm); try done; [apply D|]. intros name Hb Hc. cbn [fst snd].
    assert (Forall byte dot ∧ Forall byte dotdot) as [Bd Bdd] by (split; repeat constructor; lia).
    pose proof (λ q H1 H2, namecmp_eq name q Hb H1 (eq_trans Hc H2)) as Eq.
    destruct (_ || _) eqn:Ed.
    - fold d. set (dp1 := unlocked _). set (s1 := upd_st d dp1 _ s). assert (icache s1 !! d = Some dp1) as Hd1 by (by apply (lookup_upd s d dp)).
      wp_step. apply (wp_ilock_valid s1 d dp1); [done|cbn; lia|done|done|]. change (locked s1 dp1) with (dir_held s dp). unfold s1. rewrite upd_st_upd.
      apply (wp_give_back s x dp); [done|destruct F; by split|]. intros C'. by eauto.
    - apply orb_false_iff in Ed as [E1 E2]. destruct Hno as [E|[E|Hno]]; [by rewrite (Eq dot Bd) in E1; [|rewrite E]|by rewrite (Eq dotdot Bdd) in E2; [|rewrite E]|].
      apply (wp_lock_lookup sb s x dp nm); [done..|]. fold d. rewrite Hno. intros t D2. cbn [lookup_result]. wp_step. wp_step.
      apply (wp_give_back s x dp); [done|apply D2|]. intros C'. by eauto. }
  apply wp_inv in W as (r&s'&E&->&t&Es&C'). exists s', dp'. split_and!; try done.
  intros i Hi. rewrite Es. cbn. by rewrite list_lookup_insert_ne.
Qed.
End unlink.

(** ** The theorem on an example *)

Module One.
Import FsStack.

(** A directory with the name "a" for inode 1, a file of one block. *)
Definition addrs (b : Z) : list Z := b :: replicate NDIRECT 0.
Definition sb : superblock := Demo.sb.
Definition file : dinode := mkdinode T_FILE 0 0 1 512 (addrs 15).
Definition dir : dinode := mkdinode T_DIR 0 0 1 16 (addrs 14).
Definition entry : dirent := mkdirent 1 (97 :: replicate 13 0).
Definition image : gmap Z block :=
  make_disk 24 (λ b, if (b =? 1)%nat then encode_sb sb zero_block
                     else if (b =? 12)%nat then put_dinode (put_dinode zero_block 1 file) 2 dir
                     else if (b =? 13)%nat then foldl mark_bit zero_block (Z.of_nat <$> seq 0 16)
                     else if (b =? 14)%nat then splice 0 (encode_dirent entry) zero_block
                     else zero_block).

(** The inode of the directory in memory, and the state after the start. *)
Definition dp : inode := mkinode ROOTDEV 2 1 (initsleeplock "inode") true T_DIR 0 0 1 16 (addrs 14).
Definition view : gmap Z block := recovered 2 image.
Definition x : txst := mktx 24 (2, 10) 1 view view ∅ ∅ ∅.

#[local] Instance no_devices : DevSw (log bio) := { dev_read _ := None; dev_write _ := None }.

Lemma one_disk_ok : disk_ok 24 2 10 image.
Proof.
  split; [|by vm_compute..|change LOGSIZE with 30; lia|].
  - intros b Hb. unfold image. rewrite lookup_make_disk by done. eexists. split; [done|].
    pose proof (Demo.in_range_cases b 24 Hb) as Hin. clear Hb. revert b Hin.
    rewrite <- Forall_forall. by repeat (constructor; [vm_compute; reflexivity|]).
  - split; [by vm_compute|]. vm_compute. constructor.
Qed.

Definition whole (b : Z) : bool := match view !! b with Some d => (length d =? BSIZE)%nat | None => false end.

Lemma one_image : image_ok sb view.
Proof.
  split.
  - intros b Hb. exists (view !!! b).
    assert (whole b = true) as E by (revert b Hb; apply (Demo.forall_blocks 24); by vm_compute).
    unfold whole in E. unfold lookup_total, map_lookup_total. destruct (view !! b); [|done]. by apply Nat.eqb_eq in E.
  - by vm_compute.
  - change (data_start sb) with (Z.of_nat 14). apply Demo.forall_blocks. by vm_compute.
Qed.

(** A file of one block. *)
Lemma one_addr v b bn : addr_of v (addrs b) bn = if decide (bn = 0%nat) then b else 0.
Proof.
  unfold addr_of. case_decide as E; [by subst|]. destruct (Nat.ltb_spec bn NDIRECT); [|done].
  destruct bn as [|bn]; [done|]. apply lookup_total_replicate_2. lia.
Qed.

Lemma one_map b : good sb view b → map_ok sb view (addrs b).
Proof.
  intros Hg. split; try done.
  - intros bn _. rewrite one_addr. by case_decide.
  - intros bn bn' _ _. rewrite !one_addr. repeat case_decide; congruence.
Qed.

Lemma one_disjoint v : disjoint_files v (addrs 14) (addrs 15).
Proof.
  split_and!; try done; intros *; rewrite ?one_addr; repeat case_decide; done.
Qed.

Lemma one_cwd t : tx_rep t x → cwd_dir sb (Create.Cwd.files dp t) x dp.
Proof.
  intros R. assert (F : fs_rep sb (Create.Cwd.files dp t) x) by (apply Create.Cwd.files_rep; [exact R|done|done|done|apply one_image]).
  split; try done. split; [|done|done|split; [change (0 ≤ 9)|change (0 < 30)%nat]; lia]. split.
  - split; [exact F|done|done|apply one_map; by split; vm_compute|done].
  - by vm_compute.
  - repeat split; by vm_compute.
  - done.
  - by vm_compute.
  - by vm_compute.
  - intros bn Hbn. change (i_size dp) with 16 in Hbn. change (i_addrs dp) with (addrs 14). rewrite one_addr, decide_True by lia. done.
Qed.

Lemma one_file : disk_inode sb (x_view x) (de_inum entry) = file.
Proof. by vm_compute. Qed.

Lemma file_ok : dinode_ok file.
Proof.
  split; unfold short; cbn [file d_type d_major d_minor d_nlink d_size d_addrs]; [change T_FILE with 2; lia|lia|lia|lia|unfold uint; lia| |done].
  apply Forall_cons. split; [unfold uint; lia|]. apply (Forall_replicate uint NDIRECT 0). unfold uint. lia.
Qed.

Lemma one_room : free_room sb 4 x.
Proof. split; [change (Z.of_nat (1 + 4) ≤ 9)|change (1 + 0 + 4 < 30)%nat]; lia. Qed.


End One.
