(* ===== verification/Trap.v ===== *)
(** * System calls and traps (syscall.c, sysproc.c, trap.c)

    [trap] dispatches what the hardware delivers to CPU [c]; a system call is
    looked up by its number and its result stored in the trap frame.  A handler
    that gives up the CPU for good or until it is woken ends the run ([Gone]);
    one that waits in its own loop is run again when it is woken. *)

From S2P Require Import Prelude Params Mmu Str Block Sleeplock Bio Format Log Tx Fs Kalloc Vm VmSpec Pipe Spinlock Proc File Kernel Args Sysfile.

(** Returned a value, or gave up the CPU. *)
Inductive ran := Back (v : Z) | Gone.

(** Lock 1 of the machine is [tickslock]. *)
Definition TICKSLOCK : nat := 1.

Section trap.
Context (kend data : Z) {S : Type} `{TxOps S} `{DevSw S} `{TxnOps S} `{ProcOps (kern S)}.
(** The tick counter, and the interrupt handlers of the devices. *)
Context (get_ticks : kern S → Z) (set_ticks : Z → kern S → kern S).
Context (ideintr kbdintr uartintr lapiceoi : M (kern S) unit).
Abbreviation sys := (M (ptable (kern S))).

(** ** sysproc.c *)

Definition back (m : sys Z) : sys ran := v ← m; mret (Back v).

Definition sys_fork (c : nat) : sys Z := fork c.
Definition sys_exit (c : nat) : sys ran := exit c;; mret Gone.
Definition sys_wait (c : nat) : sys ran :=
  r ← wait c;
  mret (match r with Some pid => Back pid | None => Gone end).

Definition sys_kill (c : nat) : sys Z :=
  pid ← argint c 0;
  match pid with
  | None => mret (-1)
  | Some pid => kill c pid
  end.

Definition sys_getpid (c : nat) : sys Z := p ← me c; mret (p_pid p).

Definition sys_sbrk (c : nat) : sys Z :=
  n ← argint c 0;
  match n with
  | None => mret (-1)
  | Some n =>
      p ← me c;
      r ← growproc c n;
      mret (if r <? 0 then -1 else i32 (p_sz p))
  end.

Definition ticks : sys Z := gets (λ s, get_ticks (pt_ext s)).

(** One turn of the loop of [sys_sleep], [tickslock] held; the comparison is unsigned. *)
Definition sleep_turn (c : nat) (ticks0 n : Z) : sys ran :=
  t ← ticks;
  if u32 (t - ticks0) <? u32 n then
    p ← me c;
    if p_killed p then release c TICKSLOCK;; mret (Back (-1))
    else sleep c (Some ChanTicks) TICKSLOCK;; mret Gone
  else release c TICKSLOCK;; mret (Back 0).

Definition sys_sleep (c : nat) : sys ran :=
  n ← argint c 0;
  match n with
  | None => mret (Back (-1))
  | Some n =>
      acquire c TICKSLOCK;;
      ticks0 ← ticks;
      sleep_turn c ticks0 n
  end.

Definition sys_uptime (c : nat) : sys Z :=
  acquire c TICKSLOCK;;
  xticks ← ticks;
  release c TICKSLOCK;;
  mret (i32 xticks).

(** ** syscall.c *)

(** The table [syscalls]: numbers 1 to 21. *)
Definition syscalls (num : Z) (c : nat) : option (sys ran) :=
  match num with
  | 1 => Some (back (sys_fork c))
  | 2 => Some (sys_exit c)
  | 3 => Some (sys_wait c)
  | 4 => Some (back (sys_pipe kend c))
  | 5 => Some (back (sys_read c))
  | 6 => Some (back (sys_kill c))
  | 7 => Some (back (sys_exec kend data c))
  | 8 => Some (back (sys_fstat c))
  | 9 => Some (back (sys_chdir c))
  | 10 => Some (back (sys_dup c))
  | 11 => Some (back (sys_getpid c))
  | 12 => Some (back (sys_sbrk c))
  | 13 => Some (sys_sleep c)
  | 14 => Some (back (sys_uptime c))
  | 15 => Some (back (sys_open kend c))
  | 16 => Some (back (sys_write c))
  | 17 => Some (back (sys_mknod c))
  | 18 => Some (back (sys_unlink c))
  | 19 => Some (back (sys_link c))
  | 20 => Some (back (sys_mkdir c))
  | 21 => Some (back (sys_close kend c))
  | _ => None
  end.

Definition set_result (c : nat) (v : Z) : sys unit :=
  i ← curproc c;
  upd_proc i (λ p, set_tf (set_eax (u32 v) (p_tf p)) p).

(** Whether the call came back. *)
Definition syscall (c : nat) : sys bool :=
  p ← me c;
  match syscalls (i32 (tf_eax (p_tf p))) c with
  | Some h =>
      r ← h;
      match r with
      | Back v => set_result c v;; mret true
      | Gone => mret false
      end
  | None => set_result c (-1);; mret true
  end.

(** ** trap.c *)

(** The timer interrupt: CPU 0 counts. *)
Definition clock_tick (c : nat) : sys unit :=
  if bool_decide (c = 0%nat) then
    acquire c TICKSLOCK;;
    modify (λ s, set_ext (set_ticks (u32 (get_ticks (pt_ext s) + 1)) (pt_ext s)) s);;
    wakeup c ChanTicks;;
    release c TICKSLOCK
  else mret tt.

(** The [switch] of [trap]. *)
Definition trap_dispatch (c : nat) (tf : trapframe) : sys unit :=
  let t := tf_trapno tf in
  if t =? T_IRQ0 + IRQ_TIMER then clock_tick c;; ext lapiceoi
  else if t =? T_IRQ0 + IRQ_IDE then ext ideintr;; ext lapiceoi
  else if t =? T_IRQ0 + IRQ_IDE + 1 then mret tt
  else if t =? T_IRQ0 + IRQ_KBD then ext kbdintr;; ext lapiceoi
  else if t =? T_IRQ0 + IRQ_COM1 then ext uartintr;; ext lapiceoi
  else if (t =? T_IRQ0 + 7) || (t =? T_IRQ0 + IRQ_SPURIOUS) then ext lapiceoi
  else
    p ← myproc c;
    match p with
    | None => panic "trap"
    | Some i =>
        if Z.land (tf_cs tf) 3 =? 0 then panic "trap"
        else upd_proc i (set_killed true)
    end.

(** The running process was killed and is in user space. *)
Definition must_exit (c : nat) (tf : trapframe) : sys bool :=
  p ← myproc c;
  match p with
  | None => mret false
  | Some i =>
      q ← the_proc i;
      mret (p_killed q && (Z.land (tf_cs tf) 3 =? DPL_USER))
  end.

(** What is left to do when [trap] stops: return to the interrupted code,
    nothing (the process has exited or sleeps), or the check after [yield]. *)
Inductive trap_end := TReturn | TGone | TYielded.

Definition trap_last (c : nat) (tf : trapframe) : sys trap_end :=
  k ← must_exit c tf;
  if (k : bool) then exit c;; mret TGone else mret TReturn.

Definition trap_syscall (c : nat) (tf : trapframe) : sys trap_end :=
  p ← me c;
  if p_killed p then exit c;; mret TGone
  else
    i ← curproc c;
    upd_proc i (set_tf tf);;
    r ← syscall c;
    if negb r then mret TGone
    else
      p ← me c;
      if p_killed p then exit c;; mret TGone else mret TReturn.

Definition trap (c : nat) (tf : trapframe) : sys trap_end :=
  if tf_trapno tf =? T_SYSCALL then trap_syscall c tf
  else
    trap_dispatch c tf;;
    k ← must_exit c tf;
    if (k : bool) then exit c;; mret TGone
    else
      p ← myproc c;
      st ← match p with None => mret UNUSED | Some i => q ← the_proc i; mret (p_state q) end;
      if bool_decide (st = RUNNING) && (tf_trapno tf =? T_IRQ0 + IRQ_TIMER) then yield c;; mret TYielded
      else trap_last c tf.

(** ** Killed processes *)

(** The process on CPU [c], if any, is not marked killed. *)
Definition not_killed (c : nat) (s : ptable (kern S)) : Prop :=
  match u_proc (pt_cpus s !!! c) with Some i => p_killed (pt_procs s !!! i) = false | None => True end.

Lemma myproc_done c (s s' : ptable (kern S)) p : myproc c s = Done p s' →
  p = u_proc (pt_cpus s' !!! c) ∧ pt_cpus s' = pt_cpus s ∧ pt_procs s' = pt_procs s.
Proof.
  unfold myproc. intros (a&s1&E1&(p1&s2&E2&(b&s3&E3&E4)%bind_done)%bind_done)%bind_done.
  unfold onmach, zoom in E1, E3. destruct (pushcli c (pt_mach s)) eqn:P1; simplify_eq.
  unfold gets in E2. simplify_eq. destruct (popcli c _) eqn:P2; simplify_eq. unfold mret, M_ret in E4. by simplify_eq.
Qed.

Lemma me_done c (s s' : ptable (kern S)) p : me c s = Done p s' →
  ∃ i, u_proc (pt_cpus s' !!! c) = Some i ∧ p = pt_procs s' !!! i.
Proof.
  unfold me, curproc. intros (i&s1&(q&s2&E1%myproc_done&E2)%bind_done&E3)%bind_done. destruct E1 as (->&E1&E1').
  destruct (u_proc (pt_cpus s2 !!! c)) as [j|] eqn:Ej; [|done]. unfold mret, M_ret in E2. simplify_eq.
  unfold the_proc, gets in E3. simplify_eq. by exists i.
Qed.

Lemma trap_last_done c tf (s s' : ptable (kern S)) : Z.land (tf_cs tf) 3 = DPL_USER →
  trap_last c tf s = Done TReturn s' → not_killed c s'.
Proof.
  intros Hcs. unfold trap_last. intros (k&s1&E1&E2)%bind_done. unfold must_exit in E1.
  apply bind_done in E1 as (p&s2&E1%myproc_done&E3). destruct E1 as (->&E1&E1').
  destruct k.
  { apply bind_done in E2 as (?&?&_&E2). done. }
  unfold mret, M_ret in E2. simplify_eq. unfold not_killed.
  destruct (u_proc (pt_cpus s2 !!! c)) as [i|] eqn:Ei.
  - apply bind_done in E3 as (q&s3&Eq&E3). unfold the_proc, gets in Eq. unfold mret, M_ret in E3. simplify_eq.
    rewrite Ei. rewrite Hcs, Z.eqb_refl, andb_true_r in E3. exact E3.
  - unfold mret, M_ret in E3. simplify_eq. by rewrite Ei.
Qed.

End trap.

Module Demo.
Import Args.Demo.
#[local] Existing Instance File.Demo.no_devices.
#[local] Instance ops : ProcOps (kern (log bio)) := kern_ops KERNBASE KERNBASE [] (mret tt).
Definition machine_trap (tf : trapframe) : M (ptable (kern (log bio))) trap_end :=
  trap KERNBASE KERNBASE (λ _, 0) (λ _ s, s) (mret tt) (mret tt) (mret tt) (mret tt) 0 tf.
(** The frame of an interrupt or a system call from user space. *)
Definition user_frame (no eax : Z) : trapframe := mktf 0 0 0 0 0 0 0 eax 0 0 0 0 no 0 0 27 0 0 0.

Definition result {A B} (o : outcome A B) : option B := match o with Done b _ => Some b | _ => None end.
Definition after {A B} (d : A) (o : outcome A B) : A := match o with Done _ s => s | _ => d end.

(** The state after a spurious interrupt. *)
Definition after_spurious : ptable (kern (log bio)) :=
  after machine (machine_trap (user_frame 39 0) machine).

(** The state after [growproc(-16)] by a process of 16 bytes. *)
Definition after_shrink : ptable (kern (log bio)) := after machine (growproc 0 (-16) machine).
End Demo.


(** shrinking a process to nothing is half done: [growproc] takes the size
    0 that [deallocuvm] returns for its failure value, so that it reports -1
    and leaves [sz] as it was, after the memory has been freed: the first byte
    of the process faults although it is below [sz]. *)
Theorem growproc_to_zero_frees_but_fails :
  Demo.result (growproc (H := Demo.ops) 0 (-16) Args.Demo.machine) = Some (-1) ∧
  p_sz (pt_procs Demo.after_shrink !!! 0%nat) = 16 ∧
  Demo.result (uload1 Args.Demo.dir 0 (k_mem (pt_ext Args.Demo.machine))) = Some 0 ∧
  uload1 Args.Demo.dir 0 (k_mem (pt_ext Demo.after_shrink)) = Undef.
Proof. split_and!; vm_compute; reflexivity. Qed.
