(* ===== verification/Segments.v ===== *)
(** * Segments, gates and the task state (mmu.h, seginit, kvmalloc and switchuvm of vm.c, tvinit of trap.c)

    The descriptors that the kernel builds are bit fields in 64-bit words; the
    processor takes them apart again when a trap happens.  The entry of a trap
    is written here from the processor's side, and the theorem says where traps
    end up with the tables of the kernel. *)

From S2P Require Import Prelude Params Mmu Kalloc Vm Spinlock Proc.

(** ** Bit fields *)

Definition bits (w v : Z) : Z := v mod 2 ^ w.

(** The word with the given fields (width and value), the first in the low bits. *)
Fixpoint pack (l : list (Z * Z)) : Z :=
  match l with
  | [] => 0
  | (w, v) :: l' => bits w v + 2 ^ w * pack l'
  end.
Definition field (k w x : Z) : Z := (x / 2 ^ k) mod 2 ^ w.
Definition widths (l : list (Z * Z)) : Z := foldr (λ f n, f.1 + n) 0 l.

(** ** mmu.h *)

Definition SEG_KCODE : Z := 1.
Definition SEG_KDATA : Z := 2.
Definition SEG_TSS : Z := 5.
Definition NSEGS : nat := 6.
Definition STA_X : Z := 8.
Definition STA_W : Z := 2.
Definition STA_R : Z := 2.
Definition STS_T32A : Z := 9.
Definition STS_IG32 : Z := 14.
Definition STS_TG32 : Z := 15.

Record segdesc := mkseg {
  lim_15_0 : Z; base_15_0 : Z; base_23_16 : Z; sd_type : Z; sd_s : Z; sd_dpl : Z; sd_p : Z;
  lim_19_16 : Z; sd_avl : Z; sd_rsv1 : Z; sd_db : Z; sd_g : Z; base_31_24 : Z
}.
#[global] Instance segdesc_inhabited : Inhabited segdesc := populate (mkseg 0 0 0 0 0 0 0 0 0 0 0 0 0).

Definition seg_word (d : segdesc) : Z := pack
  [(16, lim_15_0 d); (16, base_15_0 d); (8, base_23_16 d); (4, sd_type d); (1, sd_s d); (2, sd_dpl d); (1, sd_p d);
   (4, lim_19_16 d); (1, sd_avl d); (1, sd_rsv1 d); (1, sd_db d); (1, sd_g d); (8, base_31_24 d)].

Definition SEG (type base lim dpl : Z) : segdesc :=
  mkseg (Z.land (Z.shiftr lim 12) 65535) (Z.land (u32 base) 65535)
        (Z.land (Z.shiftr (u32 base) 16) 255) type 1 dpl 1
        (Z.shiftr (u32 lim) 28) 0 0 1 1 (Z.shiftr (u32 base) 24).
Definition SEG16 (type base lim dpl : Z) : segdesc :=
  mkseg (Z.land lim 65535) (Z.land (u32 base) 65535)
        (Z.land (Z.shiftr (u32 base) 16) 255) type 1 dpl 1
        (Z.shiftr (u32 lim) 16) 0 0 1 0 (Z.shiftr (u32 base) 24).

Record gatedesc := mkgate {
  off_15_0 : Z; gd_cs : Z; gd_args : Z; gd_rsv1 : Z; gd_type : Z; gd_s : Z; gd_dpl : Z; gd_p : Z; off_31_16 : Z
}.
#[global] Instance gatedesc_inhabited : Inhabited gatedesc := populate (mkgate 0 0 0 0 0 0 0 0 0).

Definition gate_word (d : gatedesc) : Z := pack
  [(16, off_15_0 d); (16, gd_cs d); (5, gd_args d); (3, gd_rsv1 d); (4, gd_type d); (1, gd_s d); (2, gd_dpl d); (1, gd_p d);
   (16, off_31_16 d)].

Definition SETGATE (istrap : bool) (sel off d : Z) : gatedesc :=
  mkgate (Z.land (u32 off) 65535) sel 0 0 (if istrap then STS_TG32 else STS_IG32) 0 d 1 (Z.shiftr (u32 off) 16).

(** The fields without the padding. *)
Record taskstate := mkts {
  ts_link : Z; ts_esp0 : Z; ts_ss0 : Z; ts_esp1 : Z; ts_ss1 : Z; ts_esp2 : Z; ts_ss2 : Z; ts_cr3 : Z; ts_eip : Z;
  ts_eflags : Z; ts_eax : Z; ts_ecx : Z; ts_edx : Z; ts_ebx : Z; ts_esp : Z; ts_ebp : Z; ts_esi : Z; ts_edi : Z;
  ts_es : Z; ts_cs : Z; ts_ss : Z; ts_ds : Z; ts_fs : Z; ts_gs : Z; ts_ldt : Z; ts_t : Z; ts_iomb : Z
}.
(** 26 words of four bytes. *)
Definition sizeof_ts : Z := 104.

Definition set_ts_stack (ss0 esp0 iomb : Z) (t : taskstate) : taskstate :=
  mkts (ts_link t) esp0 ss0 (ts_esp1 t) (ts_ss1 t) (ts_esp2 t) (ts_ss2 t) (ts_cr3 t) (ts_eip t)
       (ts_eflags t) (ts_eax t) (ts_ecx t) (ts_edx t) (ts_ebx t) (ts_esp t) (ts_ebp t) (ts_esi t) (ts_edi t)
       (ts_es t) (ts_cs t) (ts_ss t) (ts_ds t) (ts_fs t) (ts_gs t) (ts_ldt t) (ts_t t) iomb.

(** ** One processor: its tables and the registers that point to them *)

Record hw := mkhw {
  h_gdt : list segdesc; h_ts : taskstate;           (** of its struct cpu *)
  h_idt : list gatedesc; h_tickslock : spinlock;
  h_gdtr : Z * Z; h_idtr : Z * Z;                   (** base and limit *)
  h_tr : Z * Z; h_cr3 : Z
}.
Definition set_gdt (i : Z) (d : segdesc) (s : hw) : hw :=
  mkhw (<[Z.to_nat i:=d]> (h_gdt s)) (h_ts s) (h_idt s) (h_tickslock s) (h_gdtr s) (h_idtr s) (h_tr s) (h_cr3 s).
Definition set_ts (t : taskstate) (s : hw) : hw :=
  mkhw (h_gdt s) t (h_idt s) (h_tickslock s) (h_gdtr s) (h_idtr s) (h_tr s) (h_cr3 s).
Definition set_idt (i : nat) (g : gatedesc) (s : hw) : hw :=
  mkhw (h_gdt s) (h_ts s) (<[i:=g]> (h_idt s)) (h_tickslock s) (h_gdtr s) (h_idtr s) (h_tr s) (h_cr3 s).
Definition set_tickslock (l : spinlock) (s : hw) : hw :=
  mkhw (h_gdt s) (h_ts s) (h_idt s) l (h_gdtr s) (h_idtr s) (h_tr s) (h_cr3 s).
Definition set_gdtr (r : Z * Z) (s : hw) : hw :=
  mkhw (h_gdt s) (h_ts s) (h_idt s) (h_tickslock s) r (h_idtr s) (h_tr s) (h_cr3 s).
Definition set_idtr (r : Z * Z) (s : hw) : hw :=
  mkhw (h_gdt s) (h_ts s) (h_idt s) (h_tickslock s) (h_gdtr s) r (h_tr s) (h_cr3 s).
Definition set_tr (r : Z * Z) (s : hw) : hw :=
  mkhw (h_gdt s) (h_ts s) (h_idt s) (h_tickslock s) (h_gdtr s) (h_idtr s) r (h_cr3 s).
Definition set_cr3 (v : Z) (s : hw) : hw :=
  mkhw (h_gdt s) (h_ts s) (h_idt s) (h_tickslock s) (h_gdtr s) (h_idtr s) (h_tr s) v.

(** *** What the processor reads from descriptors *)

Definition seg_base (w : Z) : Z := field 16 16 w + 2 ^ 16 * field 32 8 w + 2 ^ 24 * field 56 8 w.
Definition seg_limit (w : Z) : Z :=
  let l := field 0 16 w + 2 ^ 16 * field 48 4 w in
  if field 55 1 w =? 1 then l * 4096 + 4095 else l.
Definition d_type (w : Z) : Z := field 40 4 w.
Definition d_s (w : Z) : Z := field 44 1 w.
Definition d_dpl (w : Z) : Z := field 45 2 w.
Definition d_p (w : Z) : Z := field 47 1 w.
Definition gate_off (w : Z) : Z := field 0 16 w + 2 ^ 16 * field 48 16 w.
Definition gate_sel (w : Z) : Z := field 16 16 w.

(** Base and limit that [lgdt] and [lidt] read from the three shorts at their operand. *)
Definition load_pd (pd : Z * Z * Z) : Z * Z := let '(p0, p1, p2) := pd in (p1 + 2 ^ 16 * p2, p0).

Section kernel.
Context (gdt_addr ts_addr idt_addr : Z) (vectors : Z → Z).

(** An entry of a table: the register has to point to it, and the limit to cover it. *)
Definition entry_at (reg : Z * Z) (addr : Z) (t : list Z) (i : Z) : option Z :=
  if (reg.1 =? addr) && (8 * i + 7 <=? reg.2) then t !! Z.to_nat i else None.
Definition gdt_entry (s : hw) (sel : Z) : option Z := entry_at (h_gdtr s) gdt_addr (seg_word <$> h_gdt s) (sel / 8).
Definition idt_entry (s : hw) (n : Z) : option Z := entry_at (h_idtr s) idt_addr (gate_word <$> h_idt s) n.

(** ** x86.h *)

Definition lgdt (p size : Z) : M hw unit :=
  let pd := (u16 (size - 1), u16 p, u16 (Z.shiftr (u32 p) 16)) in
  modify (set_gdtr (load_pd pd)).
Definition lidt (p size : Z) : M hw unit :=
  let pd := (u16 (size - 1), u16 p, u16 (Z.shiftr (u32 p) 16)) in
  modify (set_idtr (load_pd pd)).

(** The processor takes base and limit from the descriptor, which has to be that
    of an available task state, and marks it busy. *)
Definition ltr (sel : Z) : M hw unit := λ s,
  match gdt_entry s sel with
  | None => Undef
  | Some w =>
      if (d_p w =? 1) && (d_s w =? 0) && (d_type w =? STS_T32A) then
        let d := h_gdt s !!! Z.to_nat (sel / 8) in
        Done tt (set_tr (seg_base w, seg_limit w)
          (set_gdt (sel / 8)
            (mkseg (lim_15_0 d) (base_15_0 d) (base_23_16 d) (Z.lor (sd_type d) 2) (sd_s d) (sd_dpl d) (sd_p d)
               (lim_19_16 d) (sd_avl d) (sd_rsv1 d) (sd_db d) (sd_g d) (base_31_24 d)) s))
      else Undef
  end.
Definition lcr3 (v : Z) : M hw unit := modify (set_cr3 v).

(** ** vm.c and trap.c *)

Definition seginit : M hw unit :=
  modify (set_gdt SEG_KCODE (SEG (Z.lor STA_X STA_R) 0 4294967295 0));;
  modify (set_gdt SEG_KDATA (SEG STA_W 0 4294967295 0));;
  modify (set_gdt SEG_UCODE (SEG (Z.lor STA_X STA_R) 0 4294967295 DPL_USER));;
  modify (set_gdt SEG_UDATA (SEG STA_W 0 4294967295 DPL_USER));;
  lgdt gdt_addr (8 * Z.of_nat NSEGS).

Definition clear_s (d : segdesc) : segdesc :=
  mkseg (lim_15_0 d) (base_15_0 d) (base_23_16 d) (sd_type d) 0 (sd_dpl d) (sd_p d)
        (lim_19_16 d) (sd_avl d) (sd_rsv1 d) (sd_db d) (sd_g d) (base_31_24 d).

(** [switchuvm] for a process with the kernel stack and the page table given,
    between [pushcli] and [popcli]. *)
Definition load_task (kstack pgdir : Z) : M hw unit :=
  modify (set_gdt SEG_TSS (SEG16 STS_T32A ts_addr (sizeof_ts - 1) 0));;
  modify (λ s, set_gdt SEG_TSS (clear_s (h_gdt s !!! Z.to_nat SEG_TSS)) s);;
  modify (λ s, set_ts (set_ts_stack (Z.shiftl SEG_KDATA 3) (u32 (kstack + KSTACKSIZE)) (u16 65535) (h_ts s)) s);;
  ltr (Z.shiftl SEG_TSS 3);;
  lcr3 (V2P pgdir).

Definition tvinit : M hw unit :=
  for_range 256 0 (λ i, modify (set_idt (Z.to_nat i) (SETGATE false (Z.shiftl SEG_KCODE 3) (vectors i) 0)));;
  modify (set_idt (Z.to_nat T_SYSCALL) (SETGATE true (Z.shiftl SEG_KCODE 3) (vectors T_SYSCALL) DPL_USER));;
  modify (set_tickslock initlock).

Definition idtinit : M hw unit := lidt idt_addr (8 * 256).

(** ** The entry of a trap *)

(** The handler with its code segment, the stack that is loaded when the
    privilege changes, and whether interrupts are turned off; or an exception. *)
Inductive tentry := Enter (cs eip : Z) (stack : option (Z * Z)) (intoff : bool) | Fault (vec : Z).

Definition code_seg (w : Z) : bool := Z.testbit (d_type w) 3 && (d_s w =? 1) && (d_p w =? 1).
Definition task (s : hw) : option taskstate := if (h_tr s).1 =? ts_addr then Some (h_ts s) else None.

(** Vector [n] at the privilege level [cpl]; [soft] for the instruction [int n]. *)
Definition deliver (s : hw) (cpl : Z) (soft : bool) (n : Z) : tentry :=
  match idt_entry s n with
  | None => Fault 13
  | Some g =>
      if soft && (d_dpl g <? cpl) then Fault 13
      else if negb ((d_s g =? 0) && ((d_type g =? STS_IG32) || (d_type g =? STS_TG32))) then Fault 13
      else if d_p g =? 0 then Fault 11
      else match gdt_entry s (gate_sel g) with
      | None => Fault 13
      | Some c =>
          if negb (code_seg c) || (cpl <? d_dpl c) then Fault 13
          else if d_dpl c <? cpl then
            match task s with
            | None => Fault 10
            | Some t => Enter (gate_sel g) (gate_off g) (Some (ts_ss0 t, ts_esp0 t)) (d_type g =? STS_IG32)
            end
          else Enter (gate_sel g) (gate_off g) None (d_type g =? STS_IG32)
      end
  end.

(** An I/O instruction: by the privilege level of eflags, or by the bit map at
    [iomb], as far as the limit of the task state reaches. *)
Definition io_allowed (s : hw) (bitmap : Z → bool) (cpl iopl port : Z) : bool :=
  (cpl <=? iopl) ||
  match task s with
  | None => false
  | Some t => (ts_iomb t + port / 8 + 1 <=? (h_tr s).2) && bitmap port
  end.

(** ** The tables are read as they were written *)
End kernel.

Lemma pack_field l1 w v l2 : Forall (λ f, 0 ≤ f.1) (l1 ++ [(w, v)]) →
  field (widths l1) w (pack (l1 ++ (w, v) :: l2)) = bits w v.
Proof.
  induction l1 as [|[w1 v1] l1 IH]; intros HF.
  - cbn [app widths foldr pack]. unfold field, bits. rewrite Z.pow_0_r, Z.div_1_r.
    apply Forall_inv in HF; cbn in HF. pose proof (Z.pow_pos_nonneg 2 w ltac:(lia) HF).
    rewrite (Z.mul_comm (2 ^ w)), Z.mod_add by lia. by rewrite Z.mod_mod by lia.
  - cbn [app] in *. apply Forall_cons in HF as [Hw1 HF]; cbn in Hw1. rewrite <- (IH HF). cbn [pack widths foldr fst]. fold (widths l1).
    assert (Hws : 0 ≤ widths l1). { clear -HF. apply Forall_app in HF as [HF _]. induction HF as [|[a b] l Ha HF IH]; cbn in *; [lia|]. unfold widths in IH. lia. }
    unfold field, bits. f_equal. rewrite Z.pow_add_r by done. pose proof (Z.pow_pos_nonneg 2 w1 ltac:(lia) Hw1).
    pose proof (Z.pow_pos_nonneg 2 (widths l1) ltac:(lia) Hws). rewrite <- Z.div_div by lia. f_equal.
    rewrite (Z.mul_comm (2 ^ w1)), Z.div_add by lia. pose proof (Z.mod_pos_bound v1 (2 ^ w1) ltac:(lia)). rewrite Z.div_small by lia. lia.
Qed.

Lemma pack_nth l (i : nat) w v : l !! i = Some (w, v) → Forall (λ f, 0 ≤ f.1) l →
  field (widths (take i l)) w (pack l) = bits w v.
Proof.
  intros Hi HF. rewrite <- (take_drop_middle l i (w, v) Hi) at 2. apply pack_field.
  apply Forall_app. split; [by apply Forall_take|]. constructor; [|constructor]. by apply (Forall_lookup_1 _ _ _ _ HF Hi).
Qed.

Lemma land_bits w v : 0 ≤ w → Z.land v (2 ^ w - 1) = v mod 2 ^ w.
Proof. intros Hw. rewrite <- Z.land_ones by done. by rewrite Z.ones_equiv, Z.sub_1_r. Qed.

Lemma bits_small w v : 0 ≤ v < 2 ^ w → bits w v = v.
Proof. intros H. by apply Z.mod_small. Qed.

Lemma split3 x : 0 ≤ x < 2 ^ 32 → x mod 2 ^ 16 + 2 ^ 16 * ((x / 2 ^ 16) mod 2 ^ 8) + 2 ^ 24 * (x / 2 ^ 24) = x.
Proof. intros H. dlia. Qed.

(** What the processor finds in the words is what the fields hold. *)
Lemma seg_word_fields d : let w := seg_word d in
  (field 0 16 w = bits 16 (lim_15_0 d) ∧ field 16 16 w = bits 16 (base_15_0 d) ∧ field 32 8 w = bits 8 (base_23_16 d)) ∧
  (d_type w = bits 4 (sd_type d) ∧ d_s w = bits 1 (sd_s d) ∧ d_dpl w = bits 2 (sd_dpl d) ∧ d_p w = bits 1 (sd_p d)) ∧
  (field 48 4 w = bits 4 (lim_19_16 d) ∧ field 55 1 w = bits 1 (sd_g d) ∧ field 56 8 w = bits 8 (base_31_24 d)).
Proof.
  intros w. unfold w, seg_word, d_type, d_s, d_dpl, d_p.
  match goal with |- context [pack ?l] => assert (HF : Forall (λ f : Z * Z, 0 ≤ f.1) l) by (repeat constructor; cbn; lia) end.
  pose proof (λ i w v E, pack_nth _ i w v E HF) as P.
  exact (conj (conj (P 0%nat _ _ eq_refl) (conj (P 1%nat _ _ eq_refl) (P 2%nat _ _ eq_refl)))
    (conj (conj (P 3%nat _ _ eq_refl) (conj (P 4%nat _ _ eq_refl)
                 (conj (P 5%nat _ _ eq_refl) (P 6%nat _ _ eq_refl))))
          (conj (P 7%nat _ _ eq_refl) (conj (P 11%nat _ _ eq_refl) (P 12%nat _ _ eq_refl))))).
Qed.

Lemma gate_word_fields d : let w := gate_word d in
  (field 0 16 w = bits 16 (off_15_0 d) ∧ gate_sel w = bits 16 (gd_cs d) ∧ field 48 16 w = bits 16 (off_31_16 d)) ∧
  (d_type w = bits 4 (gd_type d) ∧ d_s w = bits 1 (gd_s d) ∧ d_dpl w = bits 2 (gd_dpl d) ∧ d_p w = bits 1 (gd_p d)).
Proof.
  intros w. unfold w, gate_word, gate_sel, d_type, d_s, d_dpl, d_p.
  match goal with |- context [pack ?l] => assert (HF : Forall (λ f : Z * Z, 0 ≤ f.1) l) by (repeat constructor; cbn; lia) end.
  pose proof (λ i w v E, pack_nth _ i w v E HF) as P.
  exact (conj (conj (P 0%nat _ _ eq_refl) (conj (P 1%nat _ _ eq_refl) (P 8%nat _ _ eq_refl)))
    (conj (P 4%nat _ _ eq_refl) (conj (P 5%nat _ _ eq_refl)
      (conj (P 6%nat _ _ eq_refl) (P 7%nat _ _ eq_refl))))).
Qed.

(** A gate gives back the handler, its segment, its privilege and its kind. *)
Lemma SETGATE_word istrap sel off d : 0 ≤ sel < 2 ^ 16 → 0 ≤ off < 2 ^ 32 → 0 ≤ d < 4 →
  let w := gate_word (SETGATE istrap sel off d) in
  gate_off w = off ∧ gate_sel w = sel ∧ d_type w = (if istrap then STS_TG32 else STS_IG32) ∧ d_s w = 0 ∧ d_dpl w = d ∧ d_p w = 1.
Proof.
  intros Hs Ho Hd w. destruct (gate_word_fields (SETGATE istrap sel off d)) as [(E1&E2&E3) (E4&E5&E6&E7)].
  unfold gate_off, w. rewrite E1, E2, E3, E4, E5, E6, E7. cbn [SETGATE off_15_0 gd_cs off_31_16 gd_type gd_s gd_dpl gd_p].
  change 65535 with (2 ^ 16 - 1). rewrite land_bits, Z.shiftr_div_pow2 by lia. unfold bits, u32.
  rewrite (Z.mod_small off (2 ^ 32)) by done. repeat split; try (apply Z.mod_small; lia); [dlia|by destruct istrap].
Qed.

Lemma SEG16_word type base lim dpl : 0 ≤ type < 16 → 0 ≤ base < 2 ^ 32 → 0 ≤ lim < 2 ^ 20 → 0 ≤ dpl < 4 →
  let w := seg_word (clear_s (SEG16 type base lim dpl)) in
  seg_base w = base ∧ seg_limit w = lim ∧ d_type w = type ∧ d_s w = 0 ∧ d_dpl w = dpl ∧ d_p w = 1.
Proof.
  intros Ht Hb Hl Hd w. destruct (seg_word_fields (clear_s (SEG16 type base lim dpl))) as [(E1&E2&E3) [(E4&E5&E6&E7) (E8&E9&E10)]].
  unfold seg_base, seg_limit, w. rewrite E1, E2, E3, E4, E5, E6, E7, E8, E9, E10.
  cbn [clear_s SEG16 lim_15_0 base_15_0 base_23_16 sd_type sd_s sd_dpl sd_p lim_19_16 sd_g base_31_24].
  change 65535 with (2 ^ 16 - 1). change 255 with (2 ^ 8 - 1). rewrite !land_bits, !Z.shiftr_div_pow2 by lia. unfold bits, u32.
  rewrite (Z.mod_small base (2 ^ 32)), (Z.mod_small lim (2 ^ 32)) by lia. change (0 mod 2 ^ 1 =? 1) with false. cbv iota.
  repeat split; try (apply Z.mod_small; lia); dlia.
Qed.

(** A segment with the whole address space. *)
Lemma SEG_flat_word type dpl : 0 ≤ type < 16 → 0 ≤ dpl < 4 →
  let w := seg_word (SEG type 0 4294967295 dpl) in
  seg_base w = 0 ∧ seg_limit w = 4294967295 ∧ d_type w = type ∧ d_s w = 1 ∧ d_dpl w = dpl ∧ d_p w = 1.
Proof.
  intros Ht Hd w. destruct (seg_word_fields (SEG type 0 4294967295 dpl)) as [(E1&E2&E3) [(E4&E5&E6&E7) (E8&E9&E10)]].
  unfold seg_base, seg_limit, w. rewrite E1, E2, E3, E4, E5, E6, E7, E8, E9, E10. cbn [SEG sd_type sd_dpl]. unfold bits at 9 10.
  repeat split; try reflexivity; apply Z.mod_small; lia.
Qed.

Lemma load_pd_addr p size : 0 ≤ p < 2 ^ 32 → 0 < size ≤ 2 ^ 16 →
  load_pd (u16 (size - 1), u16 p, u16 (Z.shiftr (u32 p) 16)) = (p, size - 1).
Proof.
  intros Hp Hs. cbn [load_pd]. unfold u16, u32. rewrite Z.shiftr_div_pow2 by lia. rewrite (Z.mod_small p (2 ^ 32)) by done. f_equal; dlia.
Qed.

Section entry.
Context (gdt_addr ts_addr idt_addr : Z) (vectors : Z → Z).
Hypothesis Hgdt : 0 ≤ gdt_addr < 2 ^ 32.
Hypothesis Hts : 0 ≤ ts_addr < 2 ^ 32.
Hypothesis Hidt : 0 ≤ idt_addr < 2 ^ 32.
Hypothesis Hvec : ∀ n, 0 ≤ n < 256 → 0 ≤ vectors n < 2 ^ 32.

Definition gate_of (n : Z) : gatedesc :=
  if n =? T_SYSCALL then SETGATE true 8 (vectors n) DPL_USER else SETGATE false 8 (vectors n) 0.

(** The tables as [seginit], [tvinit] and [idtinit] leave them. *)
Record booted (s : hw) : Prop := {
  bo_len : length (h_gdt s) = NSEGS;
  bo_kcode : h_gdt s !! 1%nat = Some (SEG 10 0 4294967295 0);
  bo_kdata : h_gdt s !! 2%nat = Some (SEG 2 0 4294967295 0);
  bo_ucode : h_gdt s !! 3%nat = Some (SEG 10 0 4294967295 DPL_USER);
  bo_udata : h_gdt s !! 4%nat = Some (SEG 2 0 4294967295 DPL_USER);
  bo_gdtr : h_gdtr s = (gdt_addr, 47);
  bo_idt : ∀ n, 0 ≤ n < 256 → h_idt s !! Z.to_nat n = Some (gate_of n);
  bo_idtr : h_idtr s = (idt_addr, 2047)
}.

Definition boot_tables : M hw unit := seginit gdt_addr;; tvinit vectors;; idtinit idt_addr.

Lemma tvinit_ok s : length (h_idt s) = 256%nat →
  wp (tvinit vectors) (λ _ s', h_gdt s' = h_gdt s ∧ h_gdtr s' = h_gdtr s ∧
    ∀ n, 0 ≤ n < 256 → h_idt s' !! Z.to_nat n = Some (gate_of n)) s.
Proof.
  intros Hi. unfold tvinit. apply wp_bind.
  apply (wp_for_range (λ i s', h_gdt s' = h_gdt s ∧ h_gdtr s' = h_gdtr s ∧ length (h_idt s') = 256%nat ∧
      ∀ n, 0 ≤ n < i → h_idt s' !! Z.to_nat n = Some (SETGATE false 8 (vectors n) 0))).
  - repeat split; [done|]. intros; lia.
  - intros i s' Hr (E1&E2&E3&E4). apply wp_modify. cbn [set_idt h_gdt h_gdtr h_idt]. rewrite length_insert. repeat split; try done.
    intros n Hn. destruct (decide (n = i)) as [->|Hne].
    + rewrite list_lookup_insert_eq by lia. done.
    + rewrite list_lookup_insert_ne by lia. apply E4. lia.
  - intros s' (E1&E2&E3&E4). wp_steps. cbn [set_idt set_tickslock h_gdt h_gdtr h_idt]. repeat split; try done.
    intros n Hn. unfold gate_of. destruct (Z.eqb_spec n T_SYSCALL) as [->|Hne].
    + rewrite list_lookup_insert_eq; [done|]. rewrite E3. cbn. lia.
    + rewrite list_lookup_insert_ne by (unfold T_SYSCALL in *; lia). apply E4. lia.
Qed.

Lemma boot_tables_ok s : length (h_gdt s) = NSEGS → length (h_idt s) = 256%nat → wp boot_tables (λ _, booted) s.
Proof.
  intros Hg Hi. unfold boot_tables, seginit, idtinit, lgdt, lidt. rewrite !load_pd_addr by (try done; cbn; lia). wp_steps.
  eapply wp_mono; [apply tvinit_ok; exact Hi|]. cbv beta. intros _ s' (E1&E2&E3). wp_steps.
  destruct (h_gdt s) as [|d0 [|d1 [|d2 [|d3 [|d4 [|d5 [|]]]]]]] eqn:Eg; try done.
  split; cbn [set_idtr h_gdt h_gdtr h_idt h_idtr]; [rewrite E1|rewrite E1|rewrite E1|rewrite E1|rewrite E1|rewrite E2| |];
    cbn [set_gdtr set_gdt h_gdt h_gdtr]; rewrite ?Eg; try done.
Qed.

Lemma ltr_ok s : h_gdtr s = (gdt_addr, 47) → h_gdt s !! 5%nat = Some (clear_s (SEG16 STS_T32A ts_addr (sizeof_ts - 1) 0)) →
  ∃ d, ltr gdt_addr (Z.shiftl SEG_TSS 3) s = Done tt (set_tr (ts_addr, 103) (set_gdt SEG_TSS d s)).
Proof.
  intros Hr Hd. destruct (SEG16_word STS_T32A ts_addr 103 0) as (W1&W2&W3&W4&W5&W6); try (unfold STS_T32A; lia).
  unfold ltr, gdt_entry, entry_at. rewrite Hr, list_lookup_fmap. cbn [fst snd]. rewrite Z.eqb_refl.
  change (8 * (Z.shiftl SEG_TSS 3 / 8) + 7 <=? 47) with true. change (Z.to_nat (Z.shiftl SEG_TSS 3 / 8)) with 5%nat. cbn [andb]. rewrite Hd.
  cbn [fmap option_fmap option_map]. change (sizeof_ts - 1) with 103 in *. rewrite W1, W2, W3, W4, W6. rewrite !Z.eqb_refl. cbn [andb].
  eexists. reflexivity.
Qed.

Lemma booted_set_tss d s : booted s → booted (set_gdt SEG_TSS d s).
Proof.
  intros [Hl H1 H2 H3 H4 Hr Hi Hir]. split; cbn [set_gdt h_gdt h_gdtr h_idt h_idtr]; change (Z.to_nat SEG_TSS) with 5%nat;
    rewrite ?length_insert, ?list_lookup_insert_ne by lia; assumption.
Qed.

(** [switchuvm] finds the tables and leaves them, and the task state is that of
    the process: the busy mark of the last time does not matter. *)
Lemma load_task_ok k d s : booted s →
  wp (load_task gdt_addr ts_addr k d) (λ _ s', booted s' ∧ h_tr s' = (ts_addr, 103) ∧ h_cr3 s' = V2P d ∧
    ts_ss0 (h_ts s') = 16 ∧ ts_esp0 (h_ts s') = u32 (k + KSTACKSIZE) ∧ ts_iomb (h_ts s') = 65535) s.
Proof.
  intros Hb. unfold load_task. wp_steps. set (s1 := set_gdt SEG_TSS (SEG16 STS_T32A ts_addr (sizeof_ts - 1) 0) s).
  assert (Hb1 : booted s1) by by apply booted_set_tss.
  assert (E1 : h_gdt s1 !! 5%nat = Some (SEG16 STS_T32A ts_addr (sizeof_ts - 1) 0)).
  { unfold s1. cbn [set_gdt h_gdt]. apply list_lookup_insert_eq. rewrite (bo_len _ Hb). apply Nat.ltb_lt. reflexivity. }
  change (Z.to_nat SEG_TSS) with 5%nat. rewrite (list_lookup_total_correct _ _ _ E1).
  set (s2 := set_gdt SEG_TSS (clear_s _) s1). assert (Hb2 : booted s2) by by apply booted_set_tss.
  set (s3 := set_ts _ s2). assert (Hb3 : booted s3) by (destruct Hb2; by split).
  destruct (ltr_ok s3) as [d' E]; [apply Hb3| |].
  { unfold s3, s2. cbn [set_ts set_gdt h_gdt]. apply list_lookup_insert_eq. rewrite (bo_len _ Hb1). apply Nat.ltb_lt. reflexivity. }
  eapply wp_done; [exact E|]. apply wp_modify. cbn [set_cr3 set_tr set_gdt h_tr h_cr3 h_ts].
  assert (Hb4 : booted (set_gdt SEG_TSS d' s3)) by by apply booted_set_tss.
  split; [destruct Hb4; by split|]. repeat split.
Qed.

(** The processes that get the processor one after the other. *)
Fixpoint load_tasks (ps : list (Z * Z)) : M hw unit :=
  match ps with
  | [] => mret tt
  | (k, d) :: ps' => load_task gdt_addr ts_addr k d;; load_tasks ps'
  end.

Lemma load_tasks_ok ps k d : ∀ s, booted s →
  wp (load_tasks (ps ++ [(k, d)])) (λ _ s', booted s' ∧ h_tr s' = (ts_addr, 103) ∧ h_cr3 s' = V2P d ∧
    ts_ss0 (h_ts s') = 16 ∧ ts_esp0 (h_ts s') = u32 (k + KSTACKSIZE) ∧ ts_iomb (h_ts s') = 65535) s.
Proof.
  induction ps as [|[k' d'] ps IH]; intros s Hb; cbn [app load_tasks]; wp_steps.
  - eapply wp_mono; [by apply load_task_ok|]. intros [] s' H. by apply wp_ret.
  - eapply wp_mono; [by apply load_task_ok|]. intros [] s' (H&_). by apply IH.
Qed.

(** With the tables of the kernel a vector leads to its entry, in the kernel's
    code segment. *)
Lemma deliver_booted s cpl soft n : booted s → h_tr s = (ts_addr, 103) → cpl = 0 ∨ cpl = DPL_USER → 0 ≤ n < 256 →
  deliver gdt_addr ts_addr idt_addr s cpl soft n =
  if soft && (0 <? cpl) && negb (n =? T_SYSCALL) then Fault 13
  else Enter 8 (vectors n) (if 0 <? cpl then Some (ts_ss0 (h_ts s), ts_esp0 (h_ts s)) else None) (negb (n =? T_SYSCALL)).
Proof.
  intros [Hl H1 H2 H3 H4 Hr Hi Hir] Htr Hc Hn.
  assert (Eg : gdt_entry gdt_addr s 8 = Some (seg_word (SEG 10 0 4294967295 0))).
  { unfold gdt_entry, entry_at. rewrite Hr, list_lookup_fmap. cbn [fst snd]. rewrite Z.eqb_refl. change (8 * (8 / 8) + 7 <=? 47) with true.
    change (Z.to_nat (8 / 8)) with 1%nat. cbn [andb]. by rewrite H1. }
  assert (Ei : idt_entry idt_addr s n = Some (gate_word (gate_of n))).
  { unfold idt_entry, entry_at. rewrite Hir, list_lookup_fmap. cbn [fst snd]. rewrite Z.eqb_refl. cbn [andb].
    destruct (Z.leb_spec (8 * n + 7) 2047); [|lia]. by rewrite (Hi n Hn). }
  destruct (SEG_flat_word 10 0) as (S1&S2&S3&S4&S5&S6); [lia..|].
  assert (Hgw : let w := gate_word (gate_of n) in gate_off w = vectors n ∧ gate_sel w = 8 ∧
    d_type w = (if n =? T_SYSCALL then STS_TG32 else STS_IG32) ∧ d_s w = 0 ∧ d_dpl w = (if n =? T_SYSCALL then DPL_USER else 0) ∧ d_p w = 1).
  { unfold gate_of. specialize (Hvec n Hn). destruct (n =? T_SYSCALL).
    - apply (SETGATE_word true); [lia|done|unfold DPL_USER; lia].
    - apply (SETGATE_word false); [lia|done|lia]. }
  destruct Hgw as (G1&G2&G3&G4&G5&G6). unfold deliver, code_seg, task. rewrite Ei, G1, G2, G3, G4, G5, G6, Eg, S3, S4, S5, S6, Htr. cbn [fst]. rewrite (Z.eqb_refl ts_addr).
  destruct Hc as [->| ->], soft, (n =? T_SYSCALL); reflexivity.
Qed.

Definition flat (w dpl : Z) : Prop := seg_base w = 0 ∧ seg_limit w = 2 ^ 32 - 1 ∧ d_dpl w = dpl ∧ d_s w = 1 ∧ d_p w = 1.

(** C35: Traps enter the kernel where they should.  When the tables have been set up and
    any number of processes have had the processor, the last with the kernel
    stack [k]: every interrupt and exception of the processor leads to the entry
    of its vector at kernel privilege with interrupts off (but for system calls),
    from user space on the stack of the process; from user space the instruction [int] gets
    into the kernel with the system call vector only, and I/O instructions are
    not allowed; the code and data segments of kernel and user are flat. *)
Theorem trap_entry_correct (ps : list (Z * Z)) (k d : Z) (s : hw) :
  length (h_gdt s) = NSEGS → length (h_idt s) = 256%nat →
  wp (boot_tables;; load_tasks (ps ++ [(k, d)])) (λ _ s',
    (∀ n, 0 ≤ n < 256 →
       deliver gdt_addr ts_addr idt_addr s' DPL_USER false n =
         Enter 8 (vectors n) (Some (16, u32 (k + KSTACKSIZE))) (negb (n =? T_SYSCALL)) ∧
       deliver gdt_addr ts_addr idt_addr s' 0 false n = Enter 8 (vectors n) None (negb (n =? T_SYSCALL)) ∧
       deliver gdt_addr ts_addr idt_addr s' DPL_USER true n =
         if n =? T_SYSCALL then Enter 8 (vectors n) (Some (16, u32 (k + KSTACKSIZE))) false else Fault 13) ∧
    (∀ bitmap port, 0 ≤ port < 2 ^ 16 → io_allowed ts_addr s' bitmap DPL_USER 0 port = false) ∧
    (∀ i, 1 ≤ i ≤ 4 → ∃ w, gdt_entry gdt_addr s' (8 * i) = Some w ∧ flat w (if i <=? 2 then 0 else DPL_USER)) ∧
    h_cr3 s' = V2P d) s.
Proof.
  intros Hg Hi. apply wp_bind. eapply wp_mono; [by apply boot_tables_ok|]. intros [] s0 Hb0. eapply wp_mono; [by apply load_tasks_ok|].
  intros [] s' (Hb&Htr&Hc&Hss&Hsp&Hio). split; [|split; [|split; [|done]]].
  - intros n Hn. rewrite !deliver_booted by (try done; unfold DPL_USER; lia). rewrite Hss, Hsp. repeat split. by destruct (n =? T_SYSCALL).
  - intros bitmap port Hp. unfold io_allowed, task. rewrite Htr. cbn [fst snd]. rewrite Z.eqb_refl, Hio.
    destruct (Z.leb_spec (65535 + port / 8 + 1) 103); [|done]. pose proof (Z.div_pos port 8 ltac:(lia) ltac:(lia)). lia.
  - intros i Hr. unfold gdt_entry, entry_at. rewrite (bo_gdtr _ Hb). cbn [fst snd]. rewrite Z.eqb_refl, list_lookup_fmap.
    assert (i = 1 ∨ i = 2 ∨ i = 3 ∨ i = 4) as [->|[->|[->| ->]]] by lia; cbn [andb].
    + change (Z.to_nat (8 * 1 / 8)) with 1%nat. rewrite (bo_kcode _ Hb). eexists. split; [reflexivity|].
      destruct (SEG_flat_word 10 0) as (?&?&?&?&?&?); [lia..|]. by split_and!.
    + change (Z.to_nat (8 * 2 / 8)) with 2%nat. rewrite (bo_kdata _ Hb). eexists. split; [reflexivity|].
      destruct (SEG_flat_word 2 0) as (?&?&?&?&?&?); [lia..|]. by split_and!.
    + change (Z.to_nat (8 * 3 / 8)) with 3%nat. rewrite (bo_ucode _ Hb). eexists. split; [reflexivity|].
      destruct (SEG_flat_word 10 DPL_USER) as (?&?&?&?&?&?); [unfold DPL_USER; lia..|]. by split_and!.
    + change (Z.to_nat (8 * 4 / 8)) with 4%nat. rewrite (bo_udata _ Hb). eexists. split; [reflexivity|].
      destruct (SEG_flat_word 2 DPL_USER) as (?&?&?&?&?&?); [unfold DPL_USER; lia..|]. by split_and!.
Qed.
End entry.

(** ** Page tables of the start (main.c, vm.c) *)

Definition PTE_PS : Z := 128.

(** entrypgdir of main.c. *)
Definition entrypgdir_init : list Z :=
  <[Z.to_nat (Z.shiftr KERNBASE PDXSHIFT):=Z.lor (Z.lor (Z.lor 0 PTE_P) PTE_W) PTE_PS]>
    (<[0%nat:=Z.lor (Z.lor (Z.lor 0 PTE_P) PTE_W) PTE_PS]> (replicate NPDENTRIES 0)).

(** The translation by a directory of pages of 4 MB. *)
Definition big_page (dir : list Z) (va : Z) : option Z :=
  e ← dir !! Z.to_nat (PDX va);
  if present e && negb (Z.land e PTE_PS =? 0) then Some (Z.land e 4290772992 + va mod 2 ^ 22) else None.

(** Both the low addresses and those of the kernel are the first 4 MB of memory,
    and there is nothing else. *)
Lemma entrypgdir_maps va : 0 ≤ va < 2 ^ 32 →
  big_page entrypgdir_init va =
  if decide (va < 2 ^ 22) then Some va
  else if decide (KERNBASE ≤ va < KERNBASE + 2 ^ 22) then Some (V2P va) else None.
Proof.
  intros Hva. unfold big_page. rewrite PDX_div by done. unfold entrypgdir_init. change (Z.to_nat (Z.shiftr KERNBASE PDXSHIFT)) with 512%nat.
  change (Z.lor (Z.lor (Z.lor 0 PTE_P) PTE_W) PTE_PS) with 131. change NPDENTRIES with 1024%nat. change KERNBASE with 2147483648.
  repeat case_decide.
  - rewrite list_lookup_insert_ne by dlia. replace (Z.to_nat (va / 2 ^ 22)) with 0%nat by dlia.
    rewrite list_lookup_insert_eq by (rewrite length_replicate; lia). change (Some (0 + va mod 4194304) = Some va). f_equal. dlia.
  - replace (Z.to_nat (va / 2 ^ 22)) with 512%nat by dlia.
    rewrite list_lookup_insert_eq by (rewrite length_insert, length_replicate; lia). change (Some (0 + va mod 4194304) = Some (V2P va)). f_equal. unfold V2P. change KERNBASE with 2147483648.
    rewrite u32_small by lia. dlia.
  - rewrite !list_lookup_insert_ne by dlia. rewrite lookup_replicate_2 by dlia. done.
Qed.

(** [kvmalloc]: the kernel's page table, in its variable and in the register. *)
Record vmst := mkvm { v_mem : kmem; v_kpgdir : Z; v_hw : hw }.
Definition kvmalloc (kend data : Z) : M vmst unit :=
  d ← zoom v_mem (λ m s, mkvm m (v_kpgdir s) (v_hw s)) (setupkvm kend data);
  modify (λ s, mkvm (v_mem s) d (v_hw s));;
  zoom v_hw (λ h s, mkvm (v_mem s) (v_kpgdir s) h) (lcr3 (V2P d)).

Lemma kvmalloc_run kend data s d m : setupkvm kend data (v_mem s) = Done d m →
  kvmalloc kend data s = Done tt (mkvm m d (set_cr3 (V2P d) (v_hw s))).
Proof. intros E. unfold kvmalloc, mbind, M_bind, zoom. rewrite E. done. Qed.

(** ** A machine *)
Module Demo.
Definition no_ts : taskstate := mkts 0 0 0 0 0 0 0 0 0 0 0 0 0 0 0 0 0 0 0 0 0 0 0 0 0 0 0.
Definition reset : hw :=
  mkhw (replicate NSEGS inhabitant) no_ts (replicate 256 inhabitant) (mkspin true None) (0, 0) (0, 0) (0, 0) 0.
Definition vectors (n : Z) : Z := 2148560896 + 10 * n.

Lemma trap_entry_correct_witness :
  ∃ s', (boot_tables 2148603328 2148600000 vectors;;
         load_tasks 2148603328 2148603424 ([(2380000000, 2380100000)] ++ [(2381336576, 2381340672)])) reset = Done tt s' ∧
    deliver 2148603328 2148603424 2148600000 s' DPL_USER true 64 = Enter 8 2148561536 (Some (16, 2381340672)) false ∧
    deliver 2148603328 2148603424 2148600000 s' DPL_USER true 32 = Fault 13.
Proof.
  pose proof (trap_entry_correct 2148603328 2148603424 2148600000 vectors ltac:(lia) ltac:(lia) ltac:(lia) ltac:(unfold vectors; lia)
    [(2380000000, 2380100000)] 2381336576 2381340672 reset eq_refl eq_refl) as W.
  apply wp_inv in W as ([]&s'&E&Hd&_). exists s'. split; [exact E|]. split; [apply (Hd 64); lia|apply (Hd 32); lia].
Defined.
End Demo.
