(* ===== verification/Descriptors.v ===== *)
(** * Descriptors of all processes

    The descriptors are spread over three components: the tables [ofile] of
    the processes (proc.c, sysfile.c), the table of open files with its
    reference counts (file.c) and the system calls that move references
    between them.  Here they are put together: what every system call keeps is
    that the counts are exact and that a descriptor refers to a file that is
    open. *)

From S2P Require Import Prelude Params Mmu Str Block Sleeplock Bio Format Log Tx Fs Kalloc Vm VmSpec Pipe Spinlock Proc ProcInv ProcSafe File Kernel Args Sysfile Trap.

(** ** Routines that leave the descriptors alone *)

(** What matters of an open file. *)
Definition file_key (f : file) : fdtype * Z := (f_type f, f_ref f).

Section keeps.
Context {S : Type}.
Implicit Types (e : kern S) (s : ptable (kern S)).

Definition fview e : bool * list (fdtype * Z) := (k_ftlock e, file_key <$> k_file e).

(** The process is not a free slot, a new one or a zombie. *)
Definition live (p : proc) : bool :=
  match p_state p with SLEEPING | RUNNABLE | RUNNING => true | _ => false end.

Definition pkeep (ps ps' : list proc) : Prop :=
  Forall2 (λ p p', p_ofile p' = p_ofile p ∧ (live p = true → live p' = true)) ps ps'.
Definition keep s s' : Prop :=
  fview (pt_ext s') = fview (pt_ext s) ∧
  pkeep (pt_procs s) (pt_procs s') ∧
  u_proc <$> pt_cpus s' = u_proc <$> pt_cpus s.

Class KKeeps {A} (m : M (kern S) A) : Prop := kkeeps e : wlp false m (λ _ e', fview e' = fview e) e.
Class Keeps {A} (m : M (ptable (kern S)) A) : Prop := keeps s : wlp false m (λ _ s', keep s s') s.

Lemma pkeep_refl ps : pkeep ps ps.
Proof. apply Forall_Forall2_diag, Forall_forall. auto. Qed.
Lemma pkeep_trans ps1 ps2 ps3 : pkeep ps1 ps2 → pkeep ps2 ps3 → pkeep ps1 ps3.
Proof.
  intros A2 B2. eapply Forall2_same_length_lookup_2; [by rewrite (Forall2_length _ _ _ A2), (Forall2_length _ _ _ B2)|]. intros i p r Hp Hr.
  destruct (Forall2_lookup_l _ _ _ _ _ A2 Hp) as (q&Hq&[Hf L1]). destruct (Forall2_lookup_lr _ _ _ _ _ _ B2 Hq Hr) as [Hf' L2].
  split; [congruence|auto].
Qed.

Lemma keep_refl s : keep s s.
Proof. split; [done|]. split; [apply pkeep_refl|done]. Qed.
Lemma keep_trans s1 s2 s3 : keep s1 s2 → keep s2 s3 → keep s1 s3.
Proof. intros (A1&A2&A3) (B1&B2&B3). split; [congruence|]. split; [by eapply pkeep_trans|congruence]. Qed.

#[global] Instance kkeeps_ret {A} (a : A) : KKeeps (mret a).
Proof. by intros e. Qed.
#[global] Instance kkeeps_gets {A} (f : kern S → A) : KKeeps (gets f).
Proof. by intros e. Qed.
#[global] Instance kkeeps_panic {A} m : KKeeps (panic m : M (kern S) A).
Proof. by intros e. Qed.
#[global] Instance kkeeps_diverge {A} : KKeeps (diverge : M (kern S) A).
Proof. by intros e. Qed.
#[global] Instance kkeeps_asleep {A} c : KKeeps (asleep c : M (kern S) A).
Proof. by intros e. Qed.
#[global] Instance kkeeps_bind {A B} (m : M (kern S) A) (f : A → M (kern S) B) : KKeeps m → (∀ a, KKeeps (f a)) → KKeeps (m ≫= f).
Proof. intros Hm Hf e. apply wlp_bind. eapply wlp_mono; [apply Hm|]. cbn. intros a e' <-. apply Hf. Qed.
#[global] Instance kkeeps_fs {A} (m : M (fs S) A) : KKeeps (on_fs m).
Proof. intros e. by apply wlp_on_fs. Qed.
#[global] Instance kkeeps_mem {A} (m : M kmem A) : KKeeps (on_mem m).
Proof. intros e. by apply wlp_on_mem. Qed.
#[global] Instance kkeeps_pipe {A} a (m : M pipe A) : KKeeps (on_pipe a m).
Proof. intros e. by apply wlp_on_pipe. Qed.
#[global] Instance kkeeps_file i g : (∀ f, file_key (g f) = file_key f) → KKeeps (upd_file (S := S) i g).
Proof.
  intros Hg e. unfold upd_file. apply wlp_modify. unfold fview. cbn [set_k_file k_ftlock k_file]. f_equal. apply list_eq. intros j.
  rewrite !list_lookup_fmap. destruct (decide (i = j)) as [<-|Hne]; [|by rewrite list_lookup_alter_ne].
  rewrite list_lookup_alter_eq. destruct (k_file e !! i); cbn; [by rewrite Hg|done].
Qed.

#[global] Instance keeps_ret {A} (a : A) : Keeps (mret a).
Proof. intros s. apply keep_refl. Qed.
#[global] Instance keeps_gets {A} (f : ptable (kern S) → A) : Keeps (gets f).
Proof. intros s. apply keep_refl. Qed.
#[global] Instance keeps_panic {A} m : Keeps (panic m : M (ptable (kern S)) A).
Proof. by intros s. Qed.
#[global] Instance keeps_undef {A} : Keeps (undef : M (ptable (kern S)) A).
Proof. by intros s. Qed.
#[global] Instance keeps_diverge {A} : Keeps (diverge : M (ptable (kern S)) A).
Proof. by intros s. Qed.
#[global] Instance keeps_bind {A B} (m : M (ptable (kern S)) A) (f : A → M (ptable (kern S)) B) : Keeps m → (∀ a, Keeps (f a)) → Keeps (m ≫= f).
Proof.
  intros Hm Hf s. apply wlp_bind. eapply wlp_mono; [apply Hm|]. cbn. intros a s1 H1. eapply wlp_mono; [apply Hf|]. cbn. intros b s2 H2. by eapply keep_trans.
Qed.
#[global] Instance keeps_ext {A} (m : M (kern S) A) : KKeeps m → Keeps (zoom pt_ext set_ext m).
Proof.
  intros Hm s. unfold wlp, zoom. specialize (Hm (pt_ext s)). unfold wlp in Hm. destruct (m (pt_ext s)) as [a e| | | |]; try done.
  split; [done|]. split; [apply pkeep_refl|done].
Qed.
#[global] Instance keeps_mach {A} (m : M mach A) : Keeps (zoom pt_mach set_mach m).
Proof. intros s. unfold wlp, zoom. destruct (m (pt_mach s)); try done. exact (keep_refl s). Qed.

Lemma keeps_procs_map (g : list proc → list proc) :
  (∀ l, pkeep l (g l)) →
  Keeps (modify (λ s, set_procs (g (pt_procs s)) s)).
Proof. intros Hg s. apply wlp_modify. split; [done|]. split; [apply Hg|done]. Qed.

Lemma Forall2_alter_diag {A} (R : A → A → Prop) (g : A → A) i (l : list A) : (∀ a, R a a) → (∀ a, R a (g a)) → Forall2 R l (alter g i l).
Proof.
  intros Hr Hg. apply Forall2_same_length_lookup_2; [by rewrite length_alter|]. intros j a b Ha Hb. destruct (decide (i = j)) as [<-|Hne].
  - rewrite list_lookup_alter_eq, Ha in Hb. by injection Hb as <-.
  - rewrite list_lookup_alter_ne, Ha in Hb by done. by injection Hb as <-.
Qed.

#[global] Instance keeps_proc i g : (∀ p, p_ofile (g p) = p_ofile p ∧ (live p = true → live (g p) = true)) → Keeps (upd_proc (E := kern S) i g).
Proof. intros Hg. apply (keeps_procs_map (alter g i)). intros l. apply Forall2_alter_diag; [auto|]. intros p. apply Hg. Qed.
#[global] Instance keeps_cpu c g : (∀ u, u_proc (g u) = u_proc u) → Keeps (upd_cpu (E := kern S) c g).
Proof.
  intros Hg s. unfold upd_cpu. apply wlp_modify. split; [done|]. split; [apply pkeep_refl|]. cbn [set_cpus pt_cpus]. apply list_eq. intros j. rewrite !list_lookup_fmap.
  destruct (decide (c = j)) as [<-|Hne]; [|by rewrite list_lookup_alter_ne]. rewrite list_lookup_alter_eq. destruct (pt_cpus s !! c); cbn; [by rewrite Hg|done].
Qed.

Lemma wlp_keeps {A B} (m : M (ptable (kern S)) A) (f : A → M (ptable (kern S)) B) Q s :
  Keeps m → (∀ a s', keep s s' → wlp false (f a) Q s') → wlp false (m ≫= f) Q s.
Proof. intros Hm Hf. apply wlp_bind. eapply wlp_mono; [apply Hm|]. auto. Qed.
Lemma wlp_keeps_end {A} (m : M (ptable (kern S)) A) (Q : A → ptable (kern S) → Prop) s :
  Keeps m → (∀ a s', keep s s' → Q a s') → wlp false m Q s.
Proof. intros Hm HQ. eapply wlp_mono; [apply Hm|]. auto. Qed.
End keeps.

(** The routine is taken apart down to the routines above. *)
Ltac keeps_tac :=
  repeat lazymatch goal with
  | |- KKeeps (_ ≫= _) => apply kkeeps_bind; [|intros ?]
  | |- Keeps (_ ≫= _) => apply keeps_bind; [|intros ?]
  | |- KKeeps (match ?x with _ => _ end) => destruct x
  | |- Keeps (match ?x with _ => _ end) => destruct x
  | |- KKeeps (let _ := _ in _) => cbv zeta
  | |- Keeps (let _ := _ in _) => cbv zeta
  | |- KKeeps (upd_file _ _) => apply kkeeps_file; by intros []
  | |- Keeps (upd_proc _ _) => apply keeps_proc; by intros []
  | |- Keeps (upd_cpu _ _) => apply keeps_cpu; by intros []
  | |- Keeps (zoom pt_ext set_ext _) => apply keeps_ext
  | |- _ => apply _
  end.

(** ** Counting descriptors *)

Fixpoint zsum (l : list Z) : Z := match l with [] => 0 | x :: l' => x + zsum l' end.

Lemma zsum_insert l i x y : l !! i = Some x → zsum (<[i:=y]> l) = zsum l - x + y.
Proof.
  revert i. induction l as [|z l IH]; intros [|i] Hx; try done; [injection Hx as ->; cbn; lia|].
  change (z + zsum (<[i:=y]> l) = z + zsum l - x + y). rewrite (IH i Hx). lia.
Qed.
Lemma zsum_bound l b : Forall (λ x, 0 ≤ x ≤ b) l → 0 ≤ zsum l ≤ b * Z.of_nat (length l).
Proof. induction 1 as [|x l Hx Hl IH]; cbn [zsum length]; lia. Qed.
Lemma zsum_zero l : Forall (λ x, x = 0) l → zsum l = 0.
Proof. induction 1 as [|x l Hx Hl IH]; cbn [zsum]; lia. Qed.
Lemma zsum_nonneg l : Forall (λ x, 0 ≤ x) l → 0 ≤ zsum l.
Proof. induction 1 as [|x l Hx Hl IH]; cbn [zsum]; lia. Qed.
Lemma zsum_elem l i x : Forall (λ x, 0 ≤ x) l → l !! i = Some x → x ≤ zsum l.
Proof.
  intros Hl. revert i. induction Hl as [|z l Hz Hl IH]; intros [|i] Hx; try done; cbn in *.
  - injection Hx as ->. pose proof (zsum_nonneg l Hl). lia.
  - specialize (IH i Hx). lia.
Qed.

(** Whether an entry of a table refers to file [a]. *)
Definition one (i a : nat) : Z := if decide (i = a) then 1 else 0.
Definition refers (a : nat) (o : option nat) : Z := match o with Some i => one i a | None => 0 end.
(** How many descriptors of the processes refer to file [a]. *)
Definition descriptors (ps : list proc) (a : nat) : Z := zsum ((λ p, zsum (refers a <$> p_ofile p)) <$> ps).

Lemma refers_range a o : 0 ≤ refers a o ≤ 1.
Proof. unfold refers, one. destruct o; [case_decide|]; lia. Qed.

Lemma table_range a l : 0 ≤ zsum (refers a <$> l) ≤ Z.of_nat (length l).
Proof.
  pose proof (zsum_bound (refers a <$> l) 1) as Hb. rewrite length_fmap in Hb. destruct Hb; [|lia]. apply Forall_fmap, Forall_forall. intros o _. apply refers_range.
Qed.

Lemma descriptors_range ps a : Forall (λ p, length (p_ofile p) = NOFILE) ps → 0 ≤ descriptors ps a ≤ 16 * Z.of_nat (length ps).
Proof.
  intros Hl. unfold descriptors. pose proof (zsum_bound ((λ p, zsum (refers a <$> p_ofile p)) <$> ps) 16) as Hb. rewrite length_fmap in Hb. apply Hb.
  apply Forall_fmap. eapply Forall_impl; [exact Hl|]. cbn. intros p Hp. pose proof (table_range a (p_ofile p)). rewrite Hp in *. unfold NOFILE in *. lia.
Qed.

Lemma descriptors_pos ps a i p fd : ps !! i = Some p → p_ofile p !! fd = Some (Some a) → 1 ≤ descriptors ps a.
Proof.
  intros Hp Hf. transitivity (zsum (refers a <$> p_ofile p)).
  - apply (zsum_elem _ fd); [apply Forall_fmap, Forall_forall; intros o _; apply refers_range|]. rewrite list_lookup_fmap, Hf. cbn. unfold one. by rewrite decide_True.
  - apply (zsum_elem _ i); [apply Forall_fmap, Forall_forall; intros q _; apply table_range|]. by rewrite list_lookup_fmap, Hp.
Qed.

Lemma descriptors_keep ps ps' a : Forall2 (λ p p', p_ofile p' = p_ofile p) ps ps' → descriptors ps' a = descriptors ps a.
Proof. unfold descriptors. induction 1 as [|p p' ps ps' E HF IH]; [done|]. cbn. rewrite E. lia. Qed.

(** One entry of one table changes. *)
Lemma descriptors_set ps i p fd o v a : ps !! i = Some p → p_ofile p !! fd = Some o →
  descriptors (alter (λ p, set_files (<[fd:=v]> (p_ofile p)) (p_cwd p) p) i ps) a = descriptors ps a - refers a o + refers a v.
Proof.
  intros Hp Ho. assert (alter (λ p, set_files (<[fd:=v]> (p_ofile p)) (p_cwd p) p) i ps = <[i:=set_files (<[fd:=v]> (p_ofile p)) (p_cwd p) p]> ps) as ->.
  { rewrite list_insert_alter. apply (list_alter_ext _ _ ps ps); [|done]. intros q Hq. by simplify_eq. }
  unfold descriptors. rewrite list_fmap_insert, (zsum_insert _ _ (zsum (refers a <$> p_ofile p))); [|by rewrite list_lookup_fmap, Hp].
  cbn [p_ofile set_files]. rewrite list_fmap_insert, (zsum_insert _ _ (refers a o)); [lia|]. by rewrite list_lookup_fmap, Ho.
Qed.

(** ** The table of open files

    [h a] is the count of file [a]; the files that have no type yet have been
    handed out [z a] times. *)

Section files.
Context (kend : Z) {S : Type} `{TxOps S} `{DevSw S} `{TxnOps S}.
Implicit Types (e : kern S) (h z : nat → Z).

Record kfd h z e : Prop := {
  kf_lock : k_ftlock e = false;
  kf_ref a f : k_file e !! a = Some f → f_ref f = h a;
  kf_in a : (length (k_file e) ≤ a)%nat → h a = 0;
  kf_type a f : k_file e !! a = Some f → f_type f = FD_NONE → h a ≤ z a;
  kf_z a : 0 ≤ z a
}.

Lemma kfd_ext h h' z z' e : (∀ a, h' a = h a) → (∀ a, z a ≤ z' a) → kfd h z e → kfd h' z' e.
Proof.
  intros Hh Hz [K1 K2 K3 K4 K5]. split; [done|..].
  - intros a f Hf. rewrite Hh. by apply K2.
  - intros a Ha. rewrite Hh. by apply K3.
  - intros a f Hf Ht. rewrite Hh. etransitivity; [by apply (K4 a f)|done].
  - intros a. by transitivity (z a).
Qed.

Lemma kfd_view h z e e' : fview e' = fview e → kfd h z e → kfd h z e'.
Proof.
  intros E [K1 K2 K3 K4 K5]. injection E as El Ef.
  assert (HL : ∀ a f, k_file e' !! a = Some f → ∃ f0, k_file e !! a = Some f0 ∧ file_key f = file_key f0).
  { intros a f Hf. assert ((file_key <$> k_file e') !! a = Some (file_key f)) as Ha by (by rewrite list_lookup_fmap, Hf).
    rewrite Ef, list_lookup_fmap in Ha. apply fmap_Some in Ha as (f0&Hf0&Ek). by exists f0. }
  assert (length (k_file e') = length (k_file e)) as Elen by (rewrite <- (length_fmap file_key), Ef; apply length_fmap).
  split; [congruence|..|done].
  - intros a f Hf. destruct (HL a f Hf) as (f0&Hf0&[= _ ->]). by apply K2.
  - intros a Ha. apply K3. lia.
  - intros a f Hf Ht. destruct (HL a f Hf) as (f0&Hf0&[= Et _]). apply (K4 a f0); congruence.
Qed.

(** One entry changes. *)
Lemma kfd_alter h z h' z' e e' i f g : kfd h z e → k_ftlock e' = false → k_file e' = alter g i (k_file e) → k_file e !! i = Some f →
  f_ref (g f) = h' i → (f_type (g f) = FD_NONE → h' i ≤ z' i) → (∀ a, a ≠ i → h' a = h a ∧ z a ≤ z' a) → (∀ a, 0 ≤ z' a) → kfd h' z' e'.
Proof.
  intros [K1 K2 K3 K4 K5] Hl Ef Hf Hr Ht Ho Hz. pose proof (lookup_lt_Some _ _ _ Hf) as Hi. split; [done|..|done]; rewrite Ef.
  - intros a fa. destruct (decide (i = a)) as [<-|Hne].
    + rewrite list_lookup_alter_eq, Hf. by intros [= <-].
    + rewrite list_lookup_alter_ne by done. destruct (Ho a) as [-> _]; [done|]. apply K2.
  - intros a. rewrite length_alter. intros Ha. destruct (Ho a) as [-> _]; [lia|]. by apply K3.
  - intros a fa. destruct (decide (i = a)) as [<-|Hne].
    + rewrite list_lookup_alter_eq, Hf. by intros [= <-].
    + rewrite list_lookup_alter_ne by done. intros Hfa Hta. destruct (Ho a) as [-> Hza]; [done|]. etransitivity; [by apply (K4 a fa)|done].
Qed.

Lemma one_eq i : one i i = 1.
Proof. unfold one. by rewrite decide_True. Qed.
Lemma one_ne i a : a ≠ i → one i a = 0.
Proof. intros. unfold one. by rewrite decide_False. Qed.
Lemma one_range i a : 0 ≤ one i a ≤ 1.
Proof. unfold one. case_decide; lia. Qed.

Lemma kfd_filealloc h z e : kfd h z e →
  wlp false filealloc (λ r e', match r with Some i => kfd (λ a, h a + one i a) (λ a, z a + one i a) e' | None => kfd h z e' end) e.
Proof.
  intros K. unfold wlp. rewrite (run_filealloc e (kf_lock _ _ _ K)). destruct (fst <$> _) as [i|] eqn:Ei; [|done].
  destruct (find_free _ _ Ei) as (f&Hf&Hz). pose proof (kf_ref _ _ _ K i f Hf) as Hh. pose proof (kf_z _ _ _ K i).
  eapply (kfd_alter h z _ _ e _ i f _ K); [apply (kf_lock _ _ _ K)|done|done|..]; cbn [f_ref set_f_ref]; rewrite ?one_eq; [lia|lia|..].
  - intros a Ha. rewrite one_ne by done. lia.
  - intros a. pose proof (kf_z _ _ _ K a). pose proof (one_range i a). lia.
Qed.

(** A file that is not in the table has no references. *)
Lemma unreferenced h z e i : kfd h z e → (k_file e !! i = None ∨ ∃ f, k_file e !! i = Some f ∧ f_ref f < 1) ∨ ∃ f, k_file e !! i = Some f ∧ 1 ≤ f_ref f.
Proof.
  intros K. destruct (k_file e !! i) as [f|] eqn:Hf; [|by do 2 left]. destruct (Z.le_gt_cases 1 (f_ref f)); [right; eauto|left; right; eauto].
Qed.

Lemma count_check {A} e i m (k : file → M (kern S) A) Q : k_ftlock e = false → (k_file e !! i = None ∨ ∃ f, k_file e !! i = Some f ∧ f_ref f < 1) →
  wlp false (acquire_ft;; f ← the_file i; if f_ref f <? 1 then panic m else k f) Q e.
Proof.
  intros Hl Hi. unfold acquire_ft, Prelude.acquire, the_file. wlp_step. unfold wlp at 1. rewrite Hl. wlp_steps. cbn [k_file set_k_ftlock].
  destruct Hi as [Hn|(f&Hf&Hr)]; [by rewrite list_lookup_total_alt, Hn|].
  by rewrite (list_lookup_total_correct _ _ _ Hf), (proj2 (Z.ltb_lt _ _)).
Qed.

Lemma kfd_filedup h z e i : kfd h z e → z i = 0 → h i + 1 < 2 ^ 31 → wlp false (filedup i) (λ r e', r = i ∧ kfd (λ a, h a + one i a) z e') e.
Proof.
  intros K Hzi Hb. destruct (unreferenced h z e i K) as [Hn|(f&Hf&Hr)]; [by apply count_check; [apply (kf_lock _ _ _ K)|]|].
  unfold wlp. rewrite (run_filedup e i f (kf_lock _ _ _ K) Hf Hr). split; [done|]. pose proof (kf_ref _ _ _ K i f Hf) as Hh.
  eapply (kfd_alter h z _ _ e _ i f _ K); [apply (kf_lock _ _ _ K)|done|done|..]; cbn [f_ref f_type set_f_ref].
  - rewrite one_eq, i32_small by lia. lia.
  - intros Ht. pose proof (kf_type _ _ _ K i f Hf Ht). lia.
  - intros a Ha. rewrite one_ne by done. lia.
  - apply (kf_z _ _ _ K).
Qed.

(** Closing gives back a reference, and a share in a file without a type. *)
Lemma kfd_fileclose h z z' e i : kfd h z e → h i < 2 ^ 31 → (∀ a, 0 ≤ z' a ∧ z a ≤ z' a + one i a) →
  wlp false (fileclose kend i) (λ _ e', kfd (λ a, h a - one i a) z' e') e.
Proof.
  intros K Hb Hz. destruct (unreferenced h z e i K) as [Hn|(f&Hf&Hr)]; [by apply count_check; [apply (kf_lock _ _ _ K)|]|].
  pose proof (kf_ref _ _ _ K i f Hf) as Hh. eapply wlp_mono; [apply (fileclose_refs kend e i f (kf_lock _ _ _ K) Hf); lia|].
  cbn beta. intros _ e' (Hl&g&Eg&Hg&Ht). eapply (kfd_alter h z _ _ e _ i f _ K); [done|done|done|..].
  - rewrite one_eq. lia.
  - intros Hty. rewrite one_eq. pose proof (Hz i) as Hzi. rewrite one_eq in Hzi. destruct (Z.le_gt_cases (f_ref f) 1); [lia|].
    rewrite Ht in Hty by lia. pose proof (kf_type _ _ _ K i f Hf Hty). lia.
  - intros a Ha. specialize (Hz a). rewrite one_ne in * by done. lia.
  - apply Hz.
Qed.

(** A file that gets its type. *)
Lemma kfd_typed h z z' e i g : kfd h z e → (∀ f, f_ref (g f) = f_ref f ∧ f_type (g f) ≠ FD_NONE) → (∀ a, 0 ≤ z' a ∧ z a ≤ z' a + one i a) →
  wlp false (upd_file i g) (λ _ e', kfd h z' e') e.
Proof.
  intros K Hg Hz. apply wlp_modify. destruct (k_file e !! i) as [f|] eqn:Hf.
  - eapply (kfd_alter h z _ _ e _ i f _ K); [apply (kf_lock _ _ _ K)|done|done|..].
    + destruct (Hg f) as [-> _]. by apply (kf_ref _ _ _ K).
    + intros Ht. by destruct (Hg f).
    + intros a Ha. specialize (Hz a). rewrite one_ne in Hz by done. split; [done|lia].
    + apply Hz.
  - destruct K as [K1 K2 K3 K4 K5]. assert (E : alter g i (k_file e) = k_file e).
    { apply list_eq. intros j. destruct (decide (i = j)) as [<-|]; [by rewrite list_lookup_alter_eq, Hf|by rewrite list_lookup_alter_ne]. }
    split; cbn [k_ftlock k_file set_k_file]; rewrite ?E; [done|done|done| |apply Hz].
    intros a fa Hfa Ht. pose proof (K4 a fa Hfa Ht). destruct (decide (a = i)) as [->|Hne]; [congruence|]. specialize (Hz a). rewrite one_ne in Hz by done. lia.
Qed.

Lemma kfd_pipealloc h z e : kfd h z e → (∀ a, h a + 2 < 2 ^ 31) →
  wlp false (pipealloc kend) (λ r e', match r with Some (i, j) => kfd (λ a, h a + one i a + one j a) z e' | None => kfd h z e' end) e.
Proof.
  intros K Hb. pose proof (kf_z _ _ _ K) as Hz. unfold pipealloc. wlp_step. eapply wlp_mono; [by apply kfd_filealloc|].
  intros [i|] e1 K1; [|by wlp_steps]. wlp_step. eapply wlp_mono; [by apply kfd_filealloc|]. intros [j|] e2 K2; wlp_step; cycle 1.
  { wlp_step. wlp_step. eapply wlp_mono; [apply (kfd_fileclose _ _ z _ i K2); [pose proof (one_range i i); specialize (Hb i); lia|]|].
    - intros a. specialize (Hz a). lia.
    - cbn beta. intros _ e3 K3. wlp_step. revert K3. apply kfd_ext; [intros a; lia|done]. }
  apply wlp_on_mem. intros p v. assert (K3 : kfd (λ a, h a + one i a + one j a) (λ a, z a + one i a + one j a) (set_k_mem v e2)) by (by apply (kfd_view _ _ e2)).
  revert K3. generalize (set_k_mem v e2). clear e1 K1 e2 K2 v. intros e2 K2. destruct (negb (p =? 0)).
  - wlp_step. wlp_step. wlp_step. eapply wlp_mono; [apply (kfd_typed _ _ (λ a, z a + one j a) (set_k_pipes (<[p:=new_pipe (replicate 512 1)]> (k_pipes e2)) e2) i _ (kfd_view _ _ e2 (set_k_pipes _ e2) eq_refl K2)); [done|]|].
    { intros a. specialize (Hz a). pose proof (one_range j a). lia. }
    cbn beta. intros _ e3 K3. wlp_step. eapply wlp_mono; [apply (kfd_typed _ _ z _ j _ K3); [done|]|]; [intros a; specialize (Hz a); lia|done].
  - wlp_step. eapply wlp_mono; [apply (kfd_fileclose _ _ (λ a, z a + one j a) _ i K2)|].
    { specialize (Hb i). pose proof (one_range i i). pose proof (one_range j i). lia. }
    { intros a. specialize (Hz a). pose proof (one_range j a). lia. }
    cbn beta. intros _ e3 K3. wlp_step. eapply wlp_mono; [apply (kfd_fileclose _ _ z _ j K3)|].
    { specialize (Hb j). pose proof (one_range i j). pose proof (one_range j j). lia. }
    { intros a. specialize (Hz a). lia. }
    cbn beta. intros _ e4 K4. wlp_step. revert K4. apply kfd_ext; [intros a; lia|done].
Qed.
End files.

(** A step over such a routine. *)
Ltac keep_step :=
  lazymatch goal with
  | |- wlp _ (_ ≫= _) _ _ => eapply wlp_keeps
  | |- _ => eapply wlp_keeps_end
  end; [solve [keeps_tac]|]; cbv beta.
Ltac keep_chain := repeat match goal with H : keep _ _ |- keep _ _ => eapply keep_trans; [|exact H]; clear H end; apply keep_refl.

Section routines.
Context (kend data : Z) {S : Type} `{TxOps S} `{DevSw S} `{TxnOps S}.

#[local] Instance kkeeps_begin : KKeeps (S := S) begin_txn.
Proof. unfold begin_txn. apply _. Qed.
#[local] Instance kkeeps_end : KKeeps (S := S) end_txn.
Proof. unfold end_txn. apply _. Qed.
#[local] Instance kkeeps_me pid cwd k : KKeeps (S := S) (set_me pid cwd k).
Proof. by intros e. Qed.
#[local] Instance kkeeps_in_txn {A} (m : M (fs S) A) : KKeeps (in_txn m).
Proof. unfold in_txn. keeps_tac. Qed.
#[local] Instance kkeeps_stat i : KKeeps (S := S) (filestat i).
Proof. unfold filestat, the_file. keeps_tac. Qed.
#[local] Instance kkeeps_read i n : KKeeps (S := S) (fileread i n).
Proof. unfold fileread, the_file. keeps_tac. Qed.
#[local] Instance kkeeps_write_loop fuel i addr k n : KKeeps (S := S) (filewrite_loop fuel i addr k n).
Proof. revert k. induction fuel as [|fuel IH]; intros k; cbn [filewrite_loop]; unfold the_file; keeps_tac. Qed.
#[local] Instance kkeeps_write i addr n : KKeeps (S := S) (filewrite i addr n).
Proof. unfold filewrite, the_file. keeps_tac. Qed.
#[local] Instance kkeeps_load fuel pg addr ip off i sz : KKeeps (S := S) (loaduvm_loop fuel pg addr ip off i sz).
Proof. revert i. induction fuel as [|fuel IH]; intros i; cbn [loaduvm_loop]; keeps_tac. Qed.
#[local] Instance kkeeps_segments fuel pg ip off sz : KKeeps (S := S) (load_segments kend fuel pg ip off sz).
Proof. revert off sz. induction fuel as [|fuel IH]; intros off sz; cbn [load_segments]; unfold loaduvm; keeps_tac. Qed.
#[local] Instance kkeeps_push pg sp n argv l : KKeeps (S := S) (push_args pg sp n argv l).
Proof. revert sp n l. induction argv as [|a argv IH]; intros sp n l; cbn [push_args]; keeps_tac. Qed.
#[local] Instance kkeeps_exec path argv : KKeeps (S := S) (exec_image kend data path argv).
Proof. unfold exec_image, exec_bad, exec_stack. keeps_tac. Qed.

(** *** proc.c and the system calls *)

Context (initcode : list Z) (fsinit : M (fs S) unit).
#[local] Instance kops : ProcOps (kern S) := kern_ops kend data initcode (on_fs fsinit).
Abbreviation sys := (M (ptable (kern S))).

#[local] Instance keeps_kcall {A} c (m : M (kern S) A) : KKeeps m → Keeps (kcall c m).
Proof. intros Hm. unfold kcall, me, curproc, myproc, the_proc, onmach, ext. keeps_tac. Qed.
#[local] Instance keeps_myproc c : Keeps (myproc (E := kern S) c).
Proof. unfold myproc, onmach. keeps_tac. Qed.
#[local] Instance keeps_curproc c : Keeps (curproc (E := kern S) c).
Proof. unfold curproc. keeps_tac. Qed.
#[local] Instance keeps_me c : Keeps (me (S := S) c).
Proof. unfold me, the_proc. keeps_tac. Qed.
#[local] Instance keeps_user {A} p (m : Z → M kmem A) : Keeps (user (S := S) p m).
Proof. unfold user. keeps_tac. Qed.
#[local] Instance keeps_acquire c l : Keeps (Proc.acquire (E := kern S) c l).
Proof. unfold Proc.acquire, onmach. keeps_tac. Qed.
#[local] Instance keeps_release c l : Keeps (Proc.release (E := kern S) c l).
Proof. unfold Proc.release, onmach. keeps_tac. Qed.
#[local] Instance keeps_fetchint c a : Keeps (fetchint (S := S) c a).
Proof. unfold fetchint. keeps_tac. Qed.
#[local] Instance keeps_fetchstr_loop fuel p a ep : Keeps (fetchstr_loop (S := S) fuel p a ep).
Proof. revert a. induction fuel as [|fuel IH]; intros a; cbn [fetchstr_loop]; keeps_tac. Qed.
#[local] Instance keeps_fetchstr c a : Keeps (fetchstr (S := S) c a).
Proof. unfold fetchstr. keeps_tac. Qed.
#[local] Instance keeps_argint c n : Keeps (argint (S := S) c n).
Proof. unfold argint. keeps_tac. Qed.
#[local] Instance keeps_argptr c n sz : Keeps (argptr (S := S) c n sz).
Proof. unfold argptr. keeps_tac. Qed.
#[local] Instance keeps_argpath c n : Keeps (argpath (S := S) c n).
Proof. unfold argpath, argstr. keeps_tac. Qed.
#[local] Instance keeps_argfd c n : Keeps (argfd (S := S) c n).
Proof. unfold argfd. keeps_tac. Qed.
#[local] Instance keeps_arg_buf c : Keeps (arg_buf (S := S) c).
Proof. unfold arg_buf. keeps_tac. Qed.
#[local] Instance keeps_switchuvm c i : Keeps (switchuvm (E := kern S) c i).
Proof. unfold switchuvm, the_proc, onmach. keeps_tac. Qed.
#[local] Instance keeps_exec_args fuel c a i : Keeps (exec_args (S := S) fuel c a i).
Proof. revert i. induction fuel as [|fuel IH]; intros i; cbn [exec_args]; keeps_tac. Qed.

#[local] Instance keeps_sys_read c : Keeps (S := S) (sys_read c).
Proof. unfold sys_read. keeps_tac. Qed.
#[local] Instance keeps_sys_write c : Keeps (S := S) (sys_write c).
Proof. unfold sys_write. keeps_tac. Qed.
#[local] Instance keeps_sys_fstat c : Keeps (S := S) (sys_fstat c).
Proof. unfold sys_fstat, store_stat. keeps_tac. Qed.
#[local] Instance keeps_sys_link c : Keeps (S := S) (sys_link c).
Proof. unfold sys_link. keeps_tac. Qed.
#[local] Instance keeps_sys_unlink c : Keeps (S := S) (sys_unlink c).
Proof. unfold sys_unlink. keeps_tac. Qed.
#[local] Instance keeps_sys_mkdir c : Keeps (S := S) (sys_mkdir c).
Proof. unfold sys_mkdir. keeps_tac. Qed.
#[local] Instance keeps_sys_mknod c : Keeps (S := S) (sys_mknod c).
Proof. unfold sys_mknod. keeps_tac. Qed.
#[local] Instance keeps_sys_chdir c : Keeps (S := S) (sys_chdir c).
Proof. unfold sys_chdir, the_proc. keeps_tac. Qed.
#[local] Instance keeps_sys_exec c : Keeps (S := S) (sys_exec kend data c).
Proof. unfold sys_exec, exec, the_proc, ext. keeps_tac. Qed.
#[local] Instance keeps_sys_getpid c : Keeps (S := S) (sys_getpid c).
Proof. unfold sys_getpid. keeps_tac. Qed.
#[local] Instance keeps_growproc c n : Keeps (S := S) (growproc c n).
Proof. unfold growproc, the_proc, ext. keeps_tac. Qed.
#[local] Instance keeps_sys_sbrk c : Keeps (S := S) (sys_sbrk c).
Proof. unfold sys_sbrk. keeps_tac. Qed.
#[local] Instance keeps_kill c pid : Keeps (S := S) (kill c pid).
Proof.
  unfold kill. keeps_tac. apply keeps_proc. intros q. destruct (is_state SLEEPING q); [by destruct q|auto].
Qed.
#[local] Instance keeps_sys_kill c : Keeps (S := S) (sys_kill c).
Proof. unfold sys_kill. keeps_tac. Qed.
#[local] Instance keeps_sched c k : Keeps (S := S) (sched c k).
Proof. unfold sched, onmach, the_proc. keeps_tac. Qed.
#[local] Instance keeps_yield c : Keeps (S := S) (yield c).
Proof. unfold yield. keeps_tac. Qed.
#[local] Instance keeps_sleep c ch lk : Keeps (S := S) (sleep c ch lk).
Proof. unfold sleep. keeps_tac. Qed.
Lemma wakeup1_keep ch ps : pkeep ps (wakeup1 ch ps).
Proof.
  unfold wakeup1. apply Forall2_fmap_r, Forall_Forall2_diag, Forall_forall. intros p _. unfold compose. destruct (is_state SLEEPING p && bool_decide (p_chan p = ch))%bool; [by destruct p|auto].
Qed.
#[local] Instance keeps_wakeup c ch : Keeps (S := S) (wakeup c ch).
Proof. unfold wakeup. keeps_tac. apply (keeps_procs_map (wakeup1 (Some ch))). intros l. apply wakeup1_keep. Qed.

(** A slot that was not live may get any state. *)
Lemma keep_dead (s0 s : ptable (kern S)) i g : keep s0 s → live (pt_procs s0 !!! i) = false → (∀ p, p_ofile (g p) = p_ofile p) →
  keep s0 (set_procs (alter g i (pt_procs s)) s).
Proof.
  intros (K1&K2&K3) Hl Hf. split; [done|]. split; [|done]. cbn [pt_procs set_procs].
  apply Forall2_same_length_lookup_2; [by rewrite length_alter; eapply Forall2_length|]. intros j p q Hp Hq.
  destruct (Forall2_lookup_l _ _ _ _ _ K2 Hp) as (q0&Hq0&Eq&Lq). destruct (decide (i = j)) as [<-|Hne].
  - rewrite list_lookup_alter_eq, Hq0 in Hq. injection Hq as <-. rewrite (list_lookup_total_correct _ _ _ Hp) in Hl. rewrite Hl, Hf. split; [congruence|done].
  - rewrite list_lookup_alter_ne, Hq0 in Hq by done. injection Hq as <-. auto.
Qed.

#[local] Instance keeps_wait_scan n j i h : Keeps (S := S) (wait_scan n j i h).
Proof.
  revert j h. induction n as [|n IH]; intros j h s; [apply keep_refl|]. cbn [wait_scan]. unfold the_proc. wlp_step. wlp_step.
  destruct (negb _); [apply IH|]. destruct (is_state ZOMBIE _) eqn:Ez; [|apply IH].
  unfold is_state in Ez. apply bool_decide_eq_true in Ez.
  assert (Hz : live (pt_procs s !!! j) = false) by (unfold live; by rewrite Ez). unfold ext.
  keep_step. intros _ s1 K1. keep_step. intros _ s2 K2. keep_step. intros _ s3 K3.
  wlp_step. apply wlp_modify. wlp_step. apply keep_dead; [|done|done]. keep_chain.
Qed.

#[local] Instance keeps_wait_turn c : Keeps (S := S) (wait_turn c).
Proof. unfold wait_turn, the_proc. keeps_tac. Qed.
#[local] Instance keeps_wait c : Keeps (S := S) (wait c).
Proof. unfold wait. keeps_tac. Qed.

(** A new process is a slot that was not live. *)
Lemma wlp_allocproc c (s : ptable (kern S)) :
  wlp false (allocproc c) (λ r s', keep s s' ∧ ∀ i, r = Some i → (i < length (pt_procs s))%nat ∧ live (pt_procs s !!! i) = false) s.
Proof.
  unfold allocproc. keep_step. intros _ s1 K1. wlp_step. wlp_step. destruct (find_from _ _ _) as [i|] eqn:Ei; cycle 1.
  { keep_step. intros _ s2 K2. wlp_step. split; [keep_chain|done]. }
  apply find_from_some in Ei as (_&p&Hp&Eu). apply bool_decide_eq_true in Eu.
  assert (Hi : (i < length (pt_procs s))%nat ∧ live (pt_procs s !!! i) = false).
  { destruct (Forall2_lookup_r _ _ _ _ _ (proj1 (proj2 K1)) Hp) as (p0&Hp0&_&Lp). split; [by eapply lookup_lt_Some|].
    rewrite (list_lookup_total_correct _ _ _ Hp0). destruct (live p0); [|done]. specialize (Lp eq_refl). unfold live in Lp. by rewrite Eu in Lp. }
  eapply (wlp_mono _ _ (λ r s', keep s s' ∧ ∀ i', r = Some i' → i' = i)); cycle 1.
  { intros r s' [K Hr]. split; [done|]. by intros i' ->%Hr. }
  wlp_step. apply wlp_modify. assert (K2 : keep s (set_procs (alter (set_state EMBRYO) i (pt_procs s1)) s1)) by (apply keep_dead; [done|apply Hi|done]).
  revert K2. generalize (set_procs (alter (set_state EMBRYO) i (pt_procs s1)) s1). clear s1 K1 Hp. intros s2 K2.
  wlp_step. wlp_step. keep_step. intros _ s3 K3. wlp_step. wlp_step. keep_step. intros _ s4 K4.
  unfold ext. keep_step. intros k s5 K5. keep_step. intros _ s6 K6. change (keep s3 s4) in K4.
  destruct (k =? 0).
  - wlp_step. apply wlp_modify. wlp_step. split; [|done]. apply keep_dead; [keep_chain|apply Hi|done].
  - keep_step. intros _ s7 K7. wlp_step. split; [keep_chain|]. by intros i' [= ->].
Qed.
(** ** The descriptors of all processes *)

(** Every process has NOFILE entries; only live ones, and the one that is being
    made ([x]), have descriptors. *)
Record tables (x : option nat) (ps : list proc) : Prop := {
  tb_n : length ps = NPROC;
  tb_len : Forall (λ p, length (p_ofile p) = NOFILE) ps;
  tb_dead i p : ps !! i = Some p → Some i ≠ x → live p = false → Forall (.= None) (p_ofile p)
}.

(** The counts are the descriptors and the references [d] that the running
    system call has besides. *)
Definition fdi (x : option nat) (d z : nat → Z) (s : ptable (kern S)) : Prop :=
  kfd (λ a, descriptors (pt_procs s) a + d a) z (pt_ext s) ∧ tables x (pt_procs s).

(** CPU [c] runs process [i]. *)
Definition cur (c i : nat) (s : ptable (kern S)) : Prop := u_proc (pt_cpus s !!! c) = Some i ∧ live (pt_procs s !!! i) = true.

Definition same (s s' : ptable (kern S)) : Prop := pt_procs s' = pt_procs s ∧ pt_cpus s' = pt_cpus s.

Lemma keep_procs s s' : keep (S := S) s s' → Forall2 (λ p p', p_ofile p' = p_ofile p) (pt_procs s) (pt_procs s').
Proof. intros (_&K&_). eapply Forall2_impl; [exact K|]. by intros p p' []. Qed.

Lemma keep_tables x s s' : keep (S := S) s s' → tables x (pt_procs s) → tables x (pt_procs s').
Proof.
  intros K [T1 T2 T3]. pose proof (keep_procs _ _ K) as KP. destruct K as (_&K&_). split.
  - by rewrite <- (Forall2_length _ _ _ K).
  - apply Forall_lookup. intros i p' Hp'. destruct (Forall2_lookup_r _ _ _ _ _ K Hp') as (p&Hp&E&_). rewrite E. by eapply (proj1 (Forall_lookup _ _) T2).
  - intros i p' Hp' Hx Hl. destruct (Forall2_lookup_r _ _ _ _ _ K Hp') as (p&Hp&E&L). rewrite E. apply (T3 i p Hp Hx).
    destruct (live p); [|done]. by rewrite L in Hl.
Qed.

Lemma keep_fdi x d z s s' : keep s s' → fdi x d z s → fdi x d z s'.
Proof.
  intros K [F T]. split; [|by eapply keep_tables]. eapply kfd_ext; [|done|eapply kfd_view; [apply K|exact F]].
  intros a. by rewrite (descriptors_keep _ _ a (keep_procs _ _ K)).
Qed.

Lemma keep_lookup s s' i : keep (S := S) s s' → p_ofile (pt_procs s' !!! i) = p_ofile (pt_procs s !!! i) ∧ (live (pt_procs s !!! i) = true → live (pt_procs s' !!! i) = true).
Proof.
  intros (_&K&_). rewrite !list_lookup_total_alt. destruct (pt_procs s !! i) as [p|] eqn:Hp.
  - destruct (Forall2_lookup_l _ _ _ _ _ K Hp) as (p'&Hp'&E). by rewrite Hp'.
  - apply lookup_ge_None in Hp. rewrite (Forall2_length _ _ _ K) in Hp. apply lookup_ge_None in Hp. by rewrite Hp.
Qed.

Lemma keep_cpu s s' c : keep (S := S) s s' → u_proc (pt_cpus s' !!! c) = u_proc (pt_cpus s !!! c).
Proof.
  intros (_&_&K). rewrite !list_lookup_total_alt. assert ((u_proc <$> pt_cpus s') !! c = (u_proc <$> pt_cpus s) !! c) as E by (by rewrite K).
  rewrite !list_lookup_fmap in E. destruct (pt_cpus s' !! c), (pt_cpus s !! c); cbn in *; congruence.
Qed.

Lemma keep_cur c i s s' : keep s s' → cur c i s → cur c i s'.
Proof. intros K [H2 H3]. split; [by rewrite (keep_cpu _ _ _ K)|by apply (keep_lookup _ _ i K)]. Qed.

Lemma same_cur c i s s' : same s s' → cur c i s → cur c i s'.
Proof. intros [E1 E2]. unfold cur. by rewrite E1, E2. Qed.
Lemma same_fdi x d z d' z' s s' : same s s' → kfd (λ a, descriptors (pt_procs s) a + d' a) z' (pt_ext s') → fdi x d z s → fdi x d' z' s'.
Proof. intros [E1 E2] K [_ T]. split; by rewrite E1. Qed.

Lemma cur_lookup c i s : cur c i s → pt_procs s !! i = Some (pt_procs s !!! i).
Proof.
  intros [_ Hl]. rewrite list_lookup_total_alt in *. destruct (pt_procs s !! i); [done|]. done.
Qed.

(** *** Steps *)

Lemma wlp_cur c i s : cur c i s → wlp false (curproc c) (λ j s', j = i ∧ same s s' ∧ keep s s') s.
Proof.
  intros [Hu _]. unfold curproc, myproc, onmach. wlp_step. wlp_step. unfold wlp at 1, zoom. destruct (pushcli c (pt_mach s)) as [[] m| | | |]; try done.
  wlp_step. wlp_step. cbn [pt_cpus set_mach]. wlp_step. unfold wlp at 1, zoom. cbn [pt_mach set_mach]. destruct (popcli c m) as [[] m'| | | |]; try done.
  wlp_step. rewrite Hu. wlp_step. split; [done|]. split; [done|]. exact (keep_refl s).
Qed.

Lemma wlp_me c i s : cur c i s → wlp false (me c) (λ p s', p = pt_procs s !!! i ∧ same s s' ∧ keep s s') s.
Proof.
  intros C. unfold me, the_proc. wlp_step. eapply wlp_mono; [by apply wlp_cur|]. cbn beta. intros j s' (->&E&K). wlp_step.
  split; [by destruct E as [-> _]|done].
Qed.

(** A routine of the rest of the kernel, with what it does to the counts. *)
Lemma wlp_ext_files {A} (m : M (kern S) A) (R : A → kern S → Prop) x d z s : fdi x d z s →
  (∀ e, kfd (λ a, descriptors (pt_procs s) a + d a) z e → wlp false m R e) →
  wlp false (ext m) (λ r s', same s s' ∧ R r (pt_ext s')) s.
Proof.
  intros [F T] Hm. specialize (Hm _ F). unfold wlp, ext, zoom in *. by destruct (m (pt_ext s)).
Qed.

Lemma wlp_kcall_files {A} c i (m : M (kern S) A) (R : A → kern S → Prop) x d z s : fdi x d z s → cur c i s →
  (∀ e, kfd (λ a, descriptors (pt_procs s) a + d a) z e → wlp false m R e) →
  wlp false (kcall c m) (λ r s', same s s' ∧ R r (pt_ext s')) s.
Proof.
  intros F C Hm. unfold kcall. wlp_step. eapply wlp_mono; [by apply (wlp_me c i)|]. cbn beta. intros p s1 (->&E1&K1).
  destruct (p_cwd _) as [cwd|]; [|done]. wlp_step. destruct (keep_fdi _ _ _ _ _ K1 F) as [F1 T1].
  eapply wlp_mono; [eapply (wlp_ext_files _ (λ _ e, kfd _ z e) x d z s1 (conj F1 T1))|].
  { intros e Ke. eapply wlp_mono; [apply kkeeps_me|]. cbn beta. intros _ e' Ee. eapply kfd_view; [exact Ee|exact Ke]. }
  cbn beta. intros _ s2 [E2 K2]. destruct E1 as [P1 C1], E2 as [P2 C2]. eapply wlp_mono; [eapply (wlp_ext_files _ R x d z s2)|].
  - split; rewrite P2; [exact K2|exact T1].
  - intros e. rewrite P2, P1. apply Hm.
  - cbn beta. intros r s3 [[P3 C3] HR]. split; [|done]. split; congruence.
Qed.
(** One entry of the table of process [i] changes from [o] to [v]. *)
Lemma fdi_entry x d z d' s i fd o v : fdi x d z s → p_ofile (pt_procs s !!! i) !! fd = Some o → (i < length (pt_procs s))%nat →
  (v = None ∨ Some i = x ∨ live (pt_procs s !!! i) = true) → (∀ a, d' a = d a + refers a o - refers a v) →
  fdi x d' z (set_procs (alter (λ p, set_files (<[fd:=v]> (p_ofile p)) (p_cwd p) p) i (pt_procs s)) s).
Proof.
  intros [F [T1 T2 T3]] Ho Hi Hv Hd. destruct (lookup_lt_is_Some_2 _ _ Hi) as [p Hp]. rewrite (list_lookup_total_correct _ _ _ Hp) in *. split.
  - eapply kfd_ext; [|done|exact F]. intros a. cbn [pt_procs set_procs]. rewrite (descriptors_set _ i p fd o v a Hp Ho), Hd. lia.
  - cbn [pt_procs set_procs]. split; [by rewrite length_alter|..].
    + apply Forall_alter; [done|]. intros q Hq Hl. cbn [p_ofile set_files]. by rewrite length_insert.
    + intros j q Hq Hx Hl. destruct (decide (i = j)) as [<-|Hne]; [|rewrite list_lookup_alter_ne in Hq by done; by apply (T3 j)].
      rewrite list_lookup_alter_eq, Hp in Hq. injection Hq as <-. change (live p = false) in Hl. destruct Hv as [->|[Hv|Hv]]; [|congruence|congruence].
      cbn [p_ofile set_files]. apply Forall_insert; [by apply (T3 i)|done].
Qed.

Lemma wlp_argfd c i n x d z s : fdi x d z s → cur c i s →
  wlp false (argfd c n) (λ r s', keep s s' ∧ ∀ fd f, r = Some (fd, f) → p_ofile (pt_procs s' !!! i) !! fd = Some (Some f)) s.
Proof.
  intros F C. unfold argfd. keep_step. intros r s1 K1. destruct r as [fd|]; [|by wlp_step].
  destruct ((fd <? 0) || (Z.of_nat NOFILE <=? fd)) eqn:Eb; [by wlp_step|]. apply orb_false_iff in Eb as [B1%Z.ltb_ge B2%Z.leb_gt].
  wlp_step. eapply wlp_mono; [eapply wlp_me, keep_cur; [exact K1|exact C]|]. cbn beta. intros p s2 (->&E2&K2). wlp_step. split; [keep_chain|].
  intros fd' f [f' [Hf [= -> ->]]]%fmap_Some. destruct E2 as [-> _].
  destruct (keep_fdi _ _ _ _ _ K1 F) as [_ T]. pose proof (cur_lookup c i s1 (keep_cur _ _ _ _ K1 C)) as Hp.
  rewrite <- Hf. apply list_lookup_lookup_total_lt. rewrite (proj1 (Forall_lookup _ _) (tb_len _ _ T) i _ Hp). lia.
Qed.

Lemma wlp_fdalloc c i f x d z s : fdi x d z s → cur c i s →
  wlp false (fdalloc c f) (λ r s', cur c i s' ∧
    match r with
    | Some fd => fdi x (λ a, d a - one f a) z s' ∧ p_ofile (pt_procs s' !!! i) !! fd = Some (Some f)
    | None => keep s s'
    end) s.
Proof.
  intros F C. unfold fdalloc, the_proc. wlp_step. eapply wlp_mono; [by apply wlp_cur|]. cbn beta. intros j s1 (->&E1&K1). wlp_step. wlp_step.
  pose proof (keep_cur _ _ _ _ K1 C) as C1. pose proof (keep_fdi _ _ _ _ _ K1 F) as F1. pose proof (cur_lookup _ _ _ C1) as Hp.
  destruct (list_find _ _) as [[fd o]|] eqn:Ef; [|by wlp_step]. apply list_find_Some in Ef as (Ho&->&_). apply lookup_take_Some in Ho as [Ho Hlt].
  unfold set_ofile. wlp_step. apply wlp_modify. wlp_step. pose proof (lookup_lt_Some _ _ _ Hp) as Hi. split_and!.
  - destruct C1 as [Cu Cl]. split; [done|]. cbn [pt_procs set_procs]. by rewrite list_lookup_total_alter_eq.
  - apply (fdi_entry x d z _ s1 i fd None (Some f)); [done|done|done|right; right; apply C1|]. intros a. cbn [refers]. lia.
  - cbn [pt_procs set_procs]. rewrite list_lookup_total_alter_eq by done. cbn [p_ofile set_files]. apply list_lookup_insert_eq. by eapply lookup_lt_Some.
Qed.

(** No count comes near the end of its range. *)
Lemma fdi_bound x d z s a : fdi x d z s → 0 ≤ descriptors (pt_procs s) a ≤ 1024.
Proof. intros [_ [T1 T2 _]]. pose proof (descriptors_range _ a T2) as Hr. rewrite T1 in Hr. unfold NPROC in Hr. lia. Qed.

Definition zero (a : nat) : Z := 0.
Abbreviation fd_ok := (fdi None zero zero).

(** What a system call that comes back to process [i] on CPU [c] keeps. *)
Definition Fd {A} (c : nat) (m : sys A) : Prop := ∀ i s, fd_ok s → cur c i s → wlp false m (λ _ s', fd_ok s' ∧ cur c i s') s.

Lemma fd_keeps {A} c (m : sys A) : Keeps m → Fd c m.
Proof. intros Hm i s F C. eapply wlp_mono; [apply Hm|]. cbn beta. intros _ s' K. split; [by eapply keep_fdi|by eapply keep_cur]. Qed.

(** Entry [fd] is cleared: the call has the reference now. *)
Lemma fdi_clear c i fd f x d z s : fdi x d z s → cur c i s → p_ofile (pt_procs s !!! i) !! fd = Some (Some f) →
  let s' := set_procs (alter (λ p, set_files (<[fd:=None]> (p_ofile p)) (p_cwd p) p) i (pt_procs s)) s in
  fdi x (λ a, d a + one f a) z s' ∧ cur c i s'.
Proof.
  intros F C Hf s'. pose proof (lookup_lt_Some _ _ _ (cur_lookup _ _ _ C)) as Hi. split.
  - apply (fdi_entry x d z _ s i fd (Some f) None); [done|done|done|by left|]. intros a. cbn [refers]. lia.
  - destruct C as [Cu Cl]. split; [done|]. cbn [s' pt_procs set_procs]. by rewrite list_lookup_total_alter_eq.
Qed.

(** A reference of the call is given back. *)
Lemma wlp_close c i f d d' z z' s : fdi None d' z s → cur c i s → (∀ a, 0 ≤ d a ≤ 1 ∧ d' a = d a + one f a) → (∀ a, 0 ≤ z' a ∧ z a ≤ z' a + one f a) →
  wlp false (kcall c (fileclose kend f)) (λ _ s', fdi None d z' s' ∧ cur c i s') s.
Proof.
  intros F C Hd Hz. pose proof (fdi_bound _ _ _ _ f F) as Hb.
  eapply wlp_mono; [apply (wlp_kcall_files c i _ (λ _ e, kfd (λ a, descriptors (pt_procs s) a + d a) z' e) _ _ _ _ F C)|].
  - intros e Ke. eapply wlp_mono; [apply (kfd_fileclose kend _ _ z' _ f Ke)|].
    + destruct (Hd f) as [? ->]. pose proof (one_range f f). lia.
    + exact Hz.
    + cbn beta. intros _ e'. apply kfd_ext; [|done]. intros a. destruct (Hd a) as [_ ->]. lia.
  - cbn beta. intros _ s' [E K]. split; [by eapply same_fdi|by eapply same_cur].
Qed.

Lemma fdi_ext x d d' z s : (∀ a, d' a = d a) → fdi x d z s → fdi x d' z s.
Proof. intros Hd [F T]. split; [|done]. eapply kfd_ext; [|done|exact F]. intros a. by rewrite Hd. Qed.

Lemma wlp_kcall_filealloc c i s : fd_ok s → cur c i s →
  wlp false (kcall c filealloc) (λ r s', match r with Some f => fdi None (one f) (one f) s' | None => fd_ok s' end ∧ cur c i s') s.
Proof.
  intros F C. eapply wlp_mono; [apply (wlp_kcall_files c i _ (λ r e, match r with
    | Some f => kfd (λ a, descriptors (pt_procs s) a + one f a) (one f) e
    | None => kfd (λ a, descriptors (pt_procs s) a + zero a) zero e end) _ _ _ _ F C)|].
  - intros e Ke. eapply wlp_mono; [by apply (kfd_filealloc _ _ _ Ke)|]. cbn beta. intros [f|] e' Ke'; [|done].
    revert Ke'. apply kfd_ext; intros a; unfold zero; lia.
  - cbn beta. intros [f|] s' [E K]; (split; [by eapply same_fdi|by eapply same_cur]).
Qed.

(** [sys_pipe] gives both ends back. *)
Lemma fd_pipe_undo c i rf wf s : fdi None (λ a, one rf a + one wf a) zero s → cur c i s →
  wlp false (kcall c (fileclose kend rf);; kcall c (fileclose kend wf);; mret (-1)) (λ _ s', fd_ok s' ∧ cur c i s') s.
Proof.
  intros F C. wlp_step. eapply wlp_mono; [apply (wlp_close c i rf (one wf) _ _ zero _ F C)|].
  - intros a. pose proof (one_range wf a). lia.
  - intros a. pose proof (one_range rf a). unfold zero. lia.
  - cbn beta. intros _ s1 [F1 C1]. wlp_step. eapply wlp_mono; [apply (wlp_close c i wf zero _ _ zero _ F1 C1)|by cbn beta; intros _ s2 F2; wlp_step];
      intros a; pose proof (one_range wf a); unfold zero; lia.
Qed.

Ltac keep_end := wlp_step; split; [eapply keep_fdi; [|eassumption]; keep_chain|eapply keep_cur; [|eassumption]; keep_chain].

Lemma fd_sys_dup c : Fd c (sys_dup c).
Proof.
  intros i s F C. unfold sys_dup. wlp_step. eapply wlp_mono; [by apply (wlp_argfd c i _ None zero zero)|]. cbn beta. intros r s1 [K1 _].
  pose proof (keep_cur _ _ _ _ K1 C) as C1. pose proof (keep_fdi _ _ _ _ _ K1 F) as F1. destruct r as [[fd0 f]|]; [|by wlp_step].
  wlp_step. eapply wlp_mono; [by apply (wlp_fdalloc c i f None zero zero)|]. cbn beta. intros [fd|] s2 [C2 F2]; wlp_step; [|by split; [eapply keep_fdi|]].
  destruct F2 as [F2 _]. pose proof (fdi_bound _ _ _ _ f F2) as Hb.
  eapply wlp_mono; [apply (wlp_kcall_files c i _ (λ _ e, kfd (λ a, descriptors (pt_procs s2) a + zero a) zero e) _ _ _ _ F2 C2)|].
  - intros e Ke. eapply wlp_mono; [apply (kfd_filedup _ _ _ _ Ke); [done|pose proof (one_range f f); unfold zero; lia]|].
    cbn beta. intros _ e' [_ Ke']. revert Ke'. apply kfd_ext; [|done]. intros a. unfold zero. lia.
  - cbn beta. intros _ s3 [E3 K3]. wlp_step. split; [by eapply same_fdi|by eapply same_cur].
Qed.

Lemma fd_sys_close c : Fd c (sys_close kend c).
Proof.
  intros i s F C. unfold sys_close. wlp_step. eapply wlp_mono; [by apply (wlp_argfd c i _ None zero zero)|]. cbn beta. intros r s1 [K1 Hr].
  pose proof (keep_cur _ _ _ _ K1 C) as C1. pose proof (keep_fdi _ _ _ _ _ K1 F) as F1. destruct r as [[fd f]|]; [|by wlp_step].
  specialize (Hr fd f eq_refl). wlp_step. eapply wlp_mono; [by apply wlp_cur|]. cbn beta. intros j s2 (->&[E2 E2']&K2).
  pose proof (keep_cur _ _ _ _ K2 C1) as C2. pose proof (keep_fdi _ _ _ _ _ K2 F1) as F2. rewrite <- E2 in Hr.
  wlp_step. apply wlp_modify. destruct (fdi_clear c i fd f _ _ _ _ F2 C2 Hr) as [F3 C3]. wlp_step.
  eapply wlp_mono; [apply (wlp_close c i f zero _ _ zero _ F3 C3)|cbn beta; intros _ s3 [F4 C4]; by wlp_step];
    intros a; pose proof (one_range f a); unfold zero; lia.
Qed.

Lemma fd_sys_open c : Fd c (sys_open kend c).
Proof.
  intros i s F C. unfold sys_open. keep_step. intros path s1 K1. destruct path as [path|]; [|keep_end].
  keep_step. intros omode s2 K2. destruct omode as [omode|]; [|keep_end]. keep_step. intros _ s3 K3. keep_step. intros ip s4 K4.
  destruct ip as [ip|]; [|keep_step; intros _ s5 K5; keep_end].
  pose proof (keep_trans _ _ _ (keep_trans _ _ _ (keep_trans _ _ _ K1 K2) K3) K4) as K. clear K1 K2 K3 K4.
  apply (keep_fdi _ _ _ _ _ K) in F. apply (keep_cur _ _ _ _ K) in C. clear K s s1 s2 s3. rename s4 into s.
  wlp_step. eapply wlp_mono; [by apply (wlp_kcall_filealloc c i s)|]. cbn beta. intros [f|] s1 [F1 C1]; cycle 1.
  { wlp_step. wlp_step. wlp_step. wlp_step. keep_step. intros _ s2 K2. keep_step. intros _ s3 K3. keep_end. }
  wlp_step. eapply wlp_mono; [by apply (wlp_fdalloc c i f _ _ _ _ F1)|]. cbn beta. intros [fd|] s2 [C2 F2].
  - destruct F2 as [F2 _]. keep_step. intros _ s3 K3. keep_step. intros _ s4 K4. wlp_step. pose proof (keep_trans _ _ _ K3 K4) as K.
    apply (keep_fdi _ _ _ _ _ K) in F2. apply (keep_cur _ _ _ _ K) in C2.
    eapply wlp_mono; [apply (wlp_kcall_files c i _ (λ _ e, kfd (λ a, descriptors (pt_procs s4) a + zero a) zero e) _ _ _ _ F2 C2)|].
    + intros e Ke. eapply wlp_mono; [apply (kfd_typed _ _ zero _ f _ Ke); [done|unfold zero; lia]|].
      cbn beta. intros _ e'. apply kfd_ext; [|done]. intros a. unfold zero. lia.
    + cbn beta. intros _ s5 [E5 K5]. wlp_step. split; [by eapply same_fdi|by eapply same_cur].
  - apply (keep_fdi _ _ _ _ _ F2) in F1. wlp_step.
    eapply wlp_mono; [apply (wlp_close c i f zero _ _ zero _ F1 C2); intros a; pose proof (one_range f a); unfold zero; lia|].
    cbn beta. intros _ s3 [F3 C3]. keep_step. intros _ s4 K4. keep_step. intros _ s5 K5. clear F F1 C C1 C2. keep_end.
Qed.

Lemma fd_sys_pipe c : Fd c (sys_pipe kend c).
Proof.
  intros i s F C. unfold sys_pipe. keep_step. intros a s1 K1. destruct a as [a|]; [|keep_end].
  apply (keep_fdi _ _ _ _ _ K1) in F. apply (keep_cur _ _ _ _ K1) in C. clear K1 s.
  wlp_step. eapply wlp_mono; [by apply (wlp_cur c i)|]. cbn beta. intros j s2 (->&_&K2).
  apply (keep_fdi _ _ _ _ _ K2) in F. apply (keep_cur _ _ _ _ K2) in C. clear K2 s1.
  wlp_step. eapply wlp_mono; [apply (wlp_kcall_files c i _ (λ r e, match r with
    | Some (rf, wf) => kfd (λ a, descriptors (pt_procs s2) a + (one rf a + one wf a)) zero e
    | None => kfd (λ a, descriptors (pt_procs s2) a + zero a) zero e end) _ _ _ _ F C)|].
  { intros e Ke. eapply wlp_mono; [apply (kfd_pipealloc kend _ _ _ Ke)|].
    - intros a'. pose proof (fdi_bound _ _ _ _ a' F). unfold zero. lia.
    - cbn beta. intros [[rf wf]|] e' Ke'; [|done]. revert Ke'. apply kfd_ext; [|done]. intros a'. unfold zero. lia. }
  cbn beta. intros [[rf wf]|] s3 [E3 K3]; [|wlp_step; split; [by eapply same_fdi|by eapply same_cur]].
  pose proof (same_cur _ _ _ _ E3 C) as C3. pose proof (same_fdi _ _ _ _ _ _ _ E3 K3 F) as F3. clear F C E3 K3 s2.
  wlp_step. eapply wlp_mono; [by apply (wlp_fdalloc c i rf _ _ _ _ F3)|]. cbn beta. intros [fd0|] s4 [C4 F4]; cycle 1.
  { apply (keep_fdi _ _ _ _ _ F4) in F3. wlp_step. wlp_step. wlp_step. by apply (fd_pipe_undo c i rf wf). }
  destruct F4 as [F4 H4]. wlp_step. eapply wlp_mono; [by apply (wlp_fdalloc c i wf _ _ _ _ F4)|]. cbn beta. intros [fd1|] s5 [C5 F5].
  - destruct F5 as [F5 _]. assert (F6 : fd_ok s5) by (eapply fdi_ext; [|exact F5]; intros a'; unfold zero; lia). clear F5.
    keep_step. intros p s6 K6. keep_step. intros _ s7 K7. keep_step. intros _ s8 K8. keep_end.
  - apply (keep_fdi _ _ _ _ _ F5) in F4. rewrite <- (proj1 (keep_lookup _ _ i F5)) in H4.
    wlp_step. apply wlp_modify. destruct (fdi_clear c i fd0 rf _ _ _ _ F4 C5 H4) as [F6 C6].
    apply (fd_pipe_undo c i rf wf); [|done]. eapply fdi_ext; [|exact F6]. intros a'. cbn beta. lia.
Qed.
(** *** fork and exit *)

(** The entries of a table from [k] on are null. *)
Definition null_from (k : Z) (l : list (option nat)) : Prop := ∀ j, k ≤ Z.of_nat j → (j < NOFILE)%nat → l !! j = Some None.

(** The loop of [fork] up to descriptor [k] of the child [j]. *)
Definition dup_inv (c i j : nat) (k : Z) (s : ptable (kern S)) : Prop :=
  fdi (Some j) zero zero s ∧ cur c i s ∧ (j < length (pt_procs s))%nat ∧ null_from k (p_ofile (pt_procs s !!! j)).

Lemma fd_dup_ofile c i j k s : i ≠ j → 0 ≤ k < Z.of_nat NOFILE → dup_inv c i j k s → wlp false (dup_ofile i j k) (λ _, dup_inv c i j (k + 1)) s.
Proof.
  intros Hij Hk (F&C&Hj&Hn). unfold dup_ofile, the_proc. wlp_step. wlp_step. destruct (p_ofile _ !!! _) as [f|] eqn:Ef; cycle 1.
  { wlp_step. split_and!; try done. intros a Ha. apply Hn. lia. }
  pose proof (fdi_bound _ _ _ _ f F) as Hb. wlp_step.
  eapply wlp_mono; [apply (wlp_ext_files _ (λ r e, r = f ∧ kfd (λ a, descriptors (pt_procs s) a + one f a) zero e) _ _ _ _ F)|].
  { intros e Ke. eapply wlp_mono; [apply (kfd_filedup _ _ _ f Ke); [done|unfold zero; lia]|]. cbn beta. intros r e' [-> Ke']. split; [done|].
    revert Ke'. apply kfd_ext; [|done]. intros a. unfold zero. lia. }
  cbn beta. intros r s1 (E1&->&K1). pose proof (same_fdi _ _ _ _ _ _ _ E1 K1 F) as F1. pose proof (same_cur _ _ _ _ E1 C) as C1.
  destruct E1 as [P1 _]. rewrite <- P1 in *. apply wlp_modify. unfold dup_inv. cbn [pt_procs set_procs]. rewrite length_alter. split_and!; [| |done|].
  - apply (fdi_entry _ (one f) zero _ s1 j (Z.to_nat k) None (Some f)); [done| |done|by right; left|].
    + apply Hn; lia.
    + intros a. cbn [refers]. unfold zero. lia.
  - destruct C1 as [Cu Cl]. split; [done|]. cbn [pt_procs set_procs]. by rewrite list_lookup_total_alter_ne.
  - intros a Ha Hlt. rewrite list_lookup_total_alter_eq by done. cbn [p_ofile set_files]. rewrite list_lookup_insert_ne by lia. apply Hn; lia.
Qed.

Lemma fdi_weaken d z s j : fdi None d z s → fdi (Some j) d z s.
Proof. intros [F [T1 T2 T3]]. split; [done|]. split; [done|done|]. intros i p Hp _. by apply (T3 i). Qed.

(** A process that becomes live may have descriptors. *)
Lemma fdi_live j d z s : fdi (Some j) d z s → fdi None d z (set_procs (alter (set_state RUNNABLE) j (pt_procs s)) s).
Proof.
  intros [F [T1 T2 T3]]. split.
  - eapply kfd_ext; [|done|exact F]. intros a. cbn [pt_procs set_procs]. f_equal. apply descriptors_keep. by apply Forall2_alter_diag.
  - cbn [pt_procs set_procs]. split; [by rewrite length_alter|by apply Forall_alter|].
    intros i p Hp _ Hl. destruct (decide (j = i)) as [<-|Hne].
    + rewrite list_lookup_alter_eq in Hp. apply fmap_Some in Hp as (q&_&->). done.
    + rewrite list_lookup_alter_ne in Hp by done. apply (T3 i p Hp); [congruence|done].
Qed.
Lemma fd_fork c : Fd c (sys_fork c).
Proof.
  intros i s F C. unfold sys_fork, fork. wlp_step. eapply wlp_mono; [by apply (wlp_cur c i)|]. cbn beta. intros j0 s1 (->&_&K1).
  apply (keep_fdi _ _ _ _ _ K1) in F. apply (keep_cur _ _ _ _ K1) in C. clear K1 s. rename s1 into s.
  wlp_step. eapply wlp_mono; [apply wlp_allocproc|]. cbn beta. intros np s1 [K1 Hnp]. destruct np as [j|]; [|keep_end].
  destruct (Hnp j eq_refl) as [Hj Hd]. assert (Hij : i ≠ j) by (intros ->; destruct C; congruence). unfold fork_fill, the_proc, ext.
  wlp_step. wlp_step. keep_step. intros d s2 K2. keep_step. intros _ s3 K3. destruct (d =? 0).
  { wlp_step. wlp_step. keep_step. intros _ s4 K4. keep_step. intros _ s5 K5. wlp_step. apply wlp_modify.
    assert (K : keep s (set_procs (alter (set_state UNUSED) j (pt_procs s5)) s5)) by (apply keep_dead; [keep_chain|done|done]).
    revert K. generalize (set_procs (alter (set_state UNUSED) j (pt_procs s5)) s5). clear K1 K2 K3 K4 K5. intros s6 K6. keep_end. }
  keep_step. intros _ s4 K4. keep_step. intros _ s5 K5. keep_step. intros _ s6 K6. assert (K : keep s s6) by keep_chain. clear K2 K3 K4 K5 K6.
  wlp_step. eapply wlp_mono; [apply (wlp_for_index false (dup_inv c i j) NOFILE 0); [|intros k s' Hk; by apply fd_dup_ofile]|].
  { pose proof (keep_fdi _ _ _ _ _ K F) as F6. destruct F6 as [F6 T6]. split_and!; [by apply fdi_weaken| |by destruct K as (_&<-%Forall2_length&_)|].
    - by eapply keep_cur.
    - intros a _ Ha. rewrite (proj1 (keep_lookup _ _ j K)). destruct F as [_ [_ T2 T3]]. destruct (lookup_lt_is_Some_2 _ _ Hj) as [q Hq].
      rewrite (list_lookup_total_correct _ _ _ Hq) in *. destruct (lookup_lt_is_Some_2 (p_ofile q) a) as [o Ho].
      { by rewrite (proj1 (Forall_lookup _ _) T2 _ _ Hq). }
      rewrite Ho. f_equal. eapply (proj1 (Forall_lookup _ _) (T3 j q Hq ltac:(done) Hd)), Ho. }
  cbn beta. clear F C K. intros _ s7 (F&C&_&_). destruct (p_cwd _) as [ip|]; [|done]. keep_step. intros ip' s8 K8. keep_step. intros _ s9 K9.
  keep_step. intros _ s10 K10. wlp_step. wlp_step. keep_step. intros _ s11 K11. assert (K : keep s7 s11) by keep_chain. clear K8 K9 K10 K11.
  apply (keep_fdi _ _ _ _ _ K) in F. apply (keep_cur _ _ _ _ K) in C. wlp_step. apply wlp_modify. apply fdi_live in F.
  assert (C' : cur c i (set_procs (alter (set_state RUNNABLE) j (pt_procs s11)) s11)).
  { destruct C as [Cu Cl]. split; [done|]. cbn [pt_procs set_procs]. by rewrite list_lookup_total_alter_ne. }
  clear K C. revert F C'. generalize (set_procs (alter (set_state RUNNABLE) j (pt_procs s11)) s11). intros s12 F C. keep_step. intros _ s13 K. clear K1. keep_end.
Qed.
(** The loop of [exit]: the entries below [k] are closed. *)
Definition close_inv (c i : nat) (k : Z) (s : ptable (kern S)) : Prop :=
  fd_ok s ∧ cur c i s ∧ ∀ j, Z.of_nat j < k → (j < NOFILE)%nat → p_ofile (pt_procs s !!! i) !! j = Some None.

Lemma fd_close_ofile c i k s : 0 ≤ k < Z.of_nat NOFILE → close_inv c i k s → wlp false (close_ofile i k) (λ _, close_inv c i (k + 1)) s.
Proof.
  intros Hk (F&C&Hn). pose proof (cur_lookup _ _ _ C) as Hp. pose proof (proj1 (Forall_lookup _ _) (tb_len _ _ (proj2 F)) i _ Hp) as Hlen. cbn beta in Hlen.
  assert (Hk' : p_ofile (pt_procs s !!! i) !! Z.to_nat k = Some (p_ofile (pt_procs s !!! i) !!! Z.to_nat k)) by (apply list_lookup_lookup_total_lt; lia).
  unfold close_ofile, the_proc. wlp_step. wlp_step. destruct (p_ofile _ !!! _) as [f|] eqn:Ef; cycle 1.
  { wlp_step. split_and!; [done|done|]. intros j Hj Hlt. destruct (decide (j = Z.to_nat k)) as [->|]; [done|]. apply Hn; lia. }
  pose proof (fdi_bound _ _ _ _ f F) as Hb. wlp_step.
  eapply wlp_mono; [apply (wlp_ext_files _ (λ _ e, kfd (λ a, descriptors (pt_procs s) a + - one f a) zero e) _ _ _ _ F)|].
  { intros e Ke. eapply wlp_mono; [apply (kfd_fileclose kend _ _ zero _ f Ke); [unfold zero; lia|]|].
    - intros a. pose proof (one_range f a). unfold zero. lia.
    - cbn beta. intros _ e'. apply kfd_ext; [|done]. intros a. unfold zero. lia. }
  cbn beta. intros _ s1 (E1&K1). pose proof (same_fdi _ _ _ _ _ _ _ E1 K1 F) as F1. pose proof (same_cur _ _ _ _ E1 C) as C1.
  destruct E1 as [P1 _]. rewrite <- P1 in *. apply wlp_modify. destruct (fdi_clear c i (Z.to_nat k) f _ _ _ _ F1 C1 Hk') as [F2 C2]. split_and!; [|done|].
  - eapply fdi_ext; [|exact F2]. intros a. unfold zero. lia.
  - intros j Hj Hlt. cbn [pt_procs set_procs]. rewrite list_lookup_total_alter_eq by (by eapply lookup_lt_Some). cbn [p_ofile set_files].
    destruct (decide (Z.to_nat k = j)) as [<-|]; [apply list_lookup_insert_eq; lia|]. rewrite list_lookup_insert_ne by done. apply Hn; lia.
Qed.

Lemma pass_children_keep n j i ini ps : pkeep ps (pass_children n j i ini ps).
Proof.
  revert j ps. induction n as [|n IH]; intros j ps; cbn [pass_children]; [apply pkeep_refl|].
  eapply pkeep_trans; [|apply IH]. destruct (bool_decide _); [|apply pkeep_refl].
  assert (Ha : pkeep ps (alter (set_parent ini) j ps)) by (by apply Forall2_alter_diag; [auto|intros []]).
  destruct (is_state ZOMBIE _); [|done]. eapply pkeep_trans; [exact Ha|apply wakeup1_keep].
Qed.

(** A process without descriptors may end. *)
Lemma fdi_end i d z s : fdi None d z s → Forall (.= None) (p_ofile (pt_procs s !!! i)) →
  fdi None d z (set_procs (alter (set_state ZOMBIE) i (pt_procs s)) s).
Proof.
  intros [F [T1 T2 T3]] Hn. split.
  - eapply kfd_ext; [|done|exact F]. intros a. cbn [pt_procs set_procs]. f_equal. apply descriptors_keep. by apply Forall2_alter_diag.
  - cbn [pt_procs set_procs]. split; [by rewrite length_alter|by apply Forall_alter|].
    intros j p Hp _ Hl. destruct (decide (i = j)) as [<-|Hne].
    + rewrite list_lookup_alter_eq in Hp. apply fmap_Some in Hp as (q&Hq&->). by rewrite (list_lookup_total_correct _ _ _ Hq) in Hn.
    + rewrite list_lookup_alter_ne in Hp by done. by apply (T3 j p Hp).
Qed.
Lemma fd_exit c i s : fd_ok s → cur c i s → wlp false (exit c) (λ _ s', fd_ok s') s.
Proof.
  intros F C. unfold exit. wlp_step. eapply wlp_mono; [by apply (wlp_cur c i)|]. cbn beta. intros j0 s1 (->&_&K1).
  apply (keep_fdi _ _ _ _ _ K1) in F. apply (keep_cur _ _ _ _ K1) in C. clear K1 s. wlp_step. wlp_step.
  destruct (bool_decide _); [done|]. wlp_step. unfold exit_files, the_proc, ext.
  wlp_step. eapply wlp_mono; [apply (wlp_for_index false (close_inv c i) NOFILE 0); [|intros k s' Hk; by apply fd_close_ofile]|].
  { split_and!; [done|done|lia]. }
  cbn beta. clear F C. intros _ s2 (F&C&Hn). keep_step. intros _ s3 K3. wlp_step. wlp_step. destruct (p_cwd _) as [ip|]; [|done].
  keep_step. intros _ s4 K4. keep_step. intros _ s5 K5. keep_step. intros _ s6 K6. unfold exit_tail, the_proc. keep_step. intros _ s7 K7. wlp_step. wlp_step.
  eapply wlp_keeps; [apply (keeps_procs_map (wakeup1 _)), wakeup1_keep|]. cbv beta. intros _ s8 K8.
  eapply wlp_keeps; [apply (keeps_procs_map (pass_children NPROC 0 i _)); intros l; apply pass_children_keep|]. cbv beta. intros _ s9 K9.
  assert (K : keep s2 s9) by keep_chain. clear K3 K4 K5 K6 K7 K8 K9. pose proof (cur_lookup _ _ _ C) as Hp. wlp_step. apply wlp_modify.
  assert (F' : fd_ok (set_procs (alter (set_state ZOMBIE) i (pt_procs s9)) s9)).
  { apply fdi_end; [by eapply keep_fdi|]. rewrite (proj1 (keep_lookup _ _ i K)). apply Forall_lookup. intros j o Ho.
    rewrite Hn in Ho; [congruence|..]; pose proof (lookup_lt_Some _ _ _ Ho) as Hlt; rewrite (proj1 (Forall_lookup _ _) (tb_len _ _ (proj2 F)) i _ Hp) in Hlt; lia. }
  keep_step. intros _ s10 K10. by eapply keep_fdi.
Qed.

(** ** Traps *)

(** The tick counter and the handlers of the devices do not touch files. *)
Context (get_ticks : kern S → Z) (set_ticks : Z → kern S → kern S) (ideintr kbdintr uartintr lapiceoi : M (kern S) unit).
Context (Hticks : ∀ v e, fview (set_ticks v e) = fview e).
Context `{!KKeeps ideintr} `{!KKeeps kbdintr} `{!KKeeps uartintr} `{!KKeeps lapiceoi}.

#[local] Instance keeps_ticks : Keeps (ticks get_ticks).
Proof. unfold ticks. keeps_tac. Qed.
#[local] Instance keeps_sleep_turn c t n : Keeps (sleep_turn get_ticks c t n).
Proof. unfold sleep_turn. keeps_tac. Qed.
#[local] Instance keeps_sys_sleep c : Keeps (sys_sleep get_ticks c).
Proof. unfold sys_sleep. keeps_tac. Qed.
#[local] Instance keeps_sys_uptime c : Keeps (sys_uptime get_ticks c).
Proof. unfold sys_uptime. keeps_tac. Qed.
#[local] Instance keeps_sys_wait c : Keeps (S := S) (sys_wait c).
Proof. unfold sys_wait. keeps_tac. Qed.
#[local] Instance keeps_set_result c v : Keeps (S := S) (set_result c v).
Proof. unfold set_result. keeps_tac. Qed.
#[local] Instance keeps_clock c : Keeps (clock_tick get_ticks set_ticks c).
Proof.
  unfold clock_tick. keeps_tac. intros s. apply wlp_modify. split; [apply Hticks|]. split; [apply pkeep_refl|done].
Qed.
#[local] Instance keeps_dispatch c tf : Keeps (trap_dispatch get_ticks set_ticks ideintr kbdintr uartintr lapiceoi c tf).
Proof using All. unfold trap_dispatch, ext. keeps_tac. Qed.
#[local] Instance keeps_must_exit c tf : Keeps (S := S) (must_exit c tf).
Proof. unfold must_exit, the_proc. keeps_tac. Qed.
(** A call that gives up the CPU may have ended the process. *)
Definition FdRan (c : nat) (m : sys ran) : Prop :=
  ∀ i s, fd_ok s → cur c i s → wlp false m (λ r s', fd_ok s' ∧ (r ≠ Gone → cur c i s')) s.

Lemma fd_back c m : Fd c m → FdRan c (back m).
Proof. intros Hm i s F C. unfold back. wlp_step. eapply wlp_mono; [by apply (Hm i)|]. cbn beta. intros v s' [F' C']. by wlp_step. Qed.
Lemma fd_ran c (m : sys ran) : Keeps m → FdRan c m.
Proof. intros Hm i s F C. eapply wlp_mono; [by apply (fd_keeps c m Hm i)|]. by intros r s' []. Qed.

Lemma fd_syscalls num c h : syscalls kend data get_ticks num c = Some h → FdRan c h.
Proof.
  assert (Hk : ∀ m : sys Z, Keeps m → FdRan c (back m)) by (intros m Hm; by apply fd_back, fd_keeps).
  unfold syscalls. intros E. repeat case_match; try done; injection E as <-;
    first [apply Hk; apply _ | apply fd_ran; apply _ | apply fd_back; first [apply fd_sys_dup|apply fd_sys_close|apply fd_sys_open|apply fd_sys_pipe|apply fd_fork] | idtac].
  intros i s F C. unfold sys_exit. wlp_step. eapply wlp_mono; [by apply (fd_exit c i)|]. cbn beta. intros _ s' F'. by wlp_step.
Qed.

Lemma fd_syscall c i s : fd_ok s → cur c i s → wlp false (syscall kend data get_ticks c) (λ r s', fd_ok s' ∧ (r = true → cur c i s')) s.
Proof.
  intros F C. unfold syscall. keep_step. intros p s1 K1. apply (keep_fdi _ _ _ _ _ K1) in F. apply (keep_cur _ _ _ _ K1) in C. clear K1.
  destruct (syscalls _ _ _ _ c) as [h|] eqn:Eh.
  - wlp_step. eapply wlp_mono; [by apply (fd_syscalls _ _ _ Eh i)|]. cbn beta. intros [v|] s2 [F2 C2].
    + specialize (C2 ltac:(done)). keep_step. intros _ s3 K3. clear F C. wlp_step. split; [by eapply keep_fdi|]. intros _. by eapply keep_cur.
    + by wlp_step.
  - keep_step. intros _ s3 K3. wlp_step. split; [by eapply keep_fdi|]. intros _. by eapply keep_cur.
Qed.

(** The process on CPU [c], if there is one, is running. *)
Definition on_cpu (c : nat) (s : ptable (kern S)) : Prop := ∀ i, u_proc (pt_cpus s !!! c) = Some i → p_state (pt_procs s !!! i) = RUNNING.

Lemma on_cpu_cur c i s : on_cpu c s → u_proc (pt_cpus s !!! c) = Some i → cur c i s.
Proof. intros Ho Hu. split; [done|]. unfold live. by rewrite (Ho i Hu). Qed.

Definition any_cur (c : nat) (s : ptable (kern S)) : Prop := ∀ i, u_proc (pt_cpus s !!! c) = Some i → cur c i s.

Lemma wlp_no_process c Q s : u_proc (pt_cpus s !!! c) = None → wlp false (curproc (E := kern S) c) Q s.
Proof.
  intros Hu. unfold curproc, myproc, onmach. wlp_step. wlp_step. unfold wlp at 1, zoom. destruct (pushcli c (pt_mach s)) as [[] m| | | |]; try done.
  wlp_step. wlp_step. cbn [pt_cpus set_mach]. wlp_step. unfold wlp at 1, zoom. cbn [pt_mach set_mach]. destruct (popcli c m) as [[] m'| | | |]; try done.
  wlp_step. by rewrite Hu.
Qed.

Lemma fd_exit_any c s : fd_ok s → any_cur c s → wlp false (exit c;; mret TGone) (λ _ s', fd_ok s') s.
Proof.
  intros F Hc. wlp_step. destruct (u_proc (pt_cpus s !!! c)) as [i|] eqn:Hu.
  - eapply wlp_mono; [by apply (fd_exit c i), Hc|]. cbn beta. intros _ s' F'. by wlp_step.
  - unfold exit. wlp_step. by apply wlp_no_process.
Qed.
Lemma keep_any c s s' : keep s s' → any_cur c s → any_cur c s'.
Proof. intros K Hc i. rewrite (keep_cpu _ _ c K). intros Hu. eapply keep_cur; [exact K|auto]. Qed.

Abbreviation the_trap := (trap kend data get_ticks set_ticks ideintr kbdintr uartintr lapiceoi).

Lemma fd_trap_last c tf s : fd_ok s → any_cur c s → wlp false (trap_last c tf) (λ _ s', fd_ok s') s.
Proof.
  intros F Hc. unfold trap_last. keep_step. intros k s1 K1. apply (keep_fdi _ _ _ _ _ K1) in F. apply (keep_any _ _ _ K1) in Hc.
  destruct k; [by apply fd_exit_any|by wlp_step].
Qed.

Lemma fd_trap_syscall c tf s : fd_ok s → any_cur c s →
  wlp false (trap_syscall kend data get_ticks c tf) (λ _ s', fd_ok s') s.
Proof.
  intros F Hc. unfold trap_syscall. keep_step. intros p s1 K1. apply (keep_fdi _ _ _ _ _ K1) in F. apply (keep_any _ _ _ K1) in Hc. clear K1.
  destruct (p_killed p); [by apply fd_exit_any|]. wlp_step. destruct (u_proc (pt_cpus s1 !!! c)) as [i|] eqn:Hu; cycle 1.
  { by apply wlp_no_process. }
  apply Hc in Hu as Hc'. clear Hc. rename Hc' into Hc. eapply wlp_mono; [by apply (wlp_cur c i)|]. cbn beta. intros j s2 (->&_&K2). keep_step. intros _ s3 K3.
  assert (K : keep s1 s3) by keep_chain. apply (keep_fdi _ _ _ _ _ K) in F. apply (keep_cur _ _ _ _ K) in Hc. clear K K2 K3.
  wlp_step. eapply wlp_mono; [by apply (fd_syscall c i)|]. cbn beta. intros r s4 [F4 C4]. destruct r; cbn [negb]; [|by wlp_step].
  specialize (C4 eq_refl). keep_step. intros q s5 K5. apply (keep_fdi _ _ _ _ _ K5) in F4. apply (keep_cur _ _ _ _ K5) in C4.
  destruct (p_killed q); [|by wlp_step]. apply fd_exit_any; [done|]. intros i' Hi'. destruct C4 as [Cu Cl]. by simplify_eq.
Qed.

Lemma fd_trap c tf s : fd_ok s → on_cpu c s → wlp false (the_trap c tf) (λ _ s', fd_ok s') s.
Proof using All.
  intros F Ho. assert (Hc : any_cur c s) by (intros i; by apply on_cpu_cur). clear Ho.
  unfold trap. destruct (tf_trapno tf =? T_SYSCALL); [by apply fd_trap_syscall|].
  keep_step. intros _ s1 K1. keep_step. intros k s2 K2. pose proof (keep_trans _ _ _ K1 K2) as K. clear K1 K2.
  apply (keep_fdi _ _ _ _ _ K) in F. apply (keep_any _ _ _ K) in Hc. clear K. destruct k; [by apply fd_exit_any|].
  keep_step. intros p s3 K3. unfold the_proc. keep_step. intros st s4 K4. pose proof (keep_trans _ _ _ K3 K4) as K. clear K3 K4.
  apply (keep_fdi _ _ _ _ _ K) in F. apply (keep_any _ _ _ K) in Hc. clear K.
  destruct (bool_decide _ && _); [|by apply fd_trap_last]. keep_step. intros _ s5 K5. wlp_step. by eapply keep_fdi.
Qed.
(** ** Every sequence of steps *)

#[local] Instance keeps_resume c : Keeps (S := S) (resume c).
Proof.
  unfold resume, forkret, the_proc, ext. keeps_tac.
  all: intros s; apply wlp_modify; exact (keep_refl s).
Qed.

Lemma fd_userinit c s : fd_ok s → wlp false (userinit c) (λ _ s', fd_ok s') s.
Proof.
  intros F. unfold userinit, ext, the_proc. wlp_step. eapply wlp_mono; [apply wlp_allocproc|]. cbn beta. intros p s1 [K1 _]. wlp_step. wlp_step.
  destruct p as [i|]; [|done]. eapply wlp_keeps_end; [keeps_tac|]. intros _ s2 K2. eapply keep_fdi; [|exact F]. eapply keep_trans; [exact K1|exact K2].
Qed.

(** [cpu->proc] changes. *)
Lemma fd_cpu_step {A} c u (m : sys A) s : fd_ok s → Keeps m → wlp false (upd_cpu c u;; m) (λ _ s', fd_ok s') s.
Proof. intros F Hm. wlp_step. apply wlp_modify. eapply wlp_mono; [apply Hm|]. cbn beta. intros _ s' K. eapply keep_fdi; [exact K|]. exact F. Qed.

Lemma fd_scan c from s : fd_ok s → wlp false (scheduler_scan c from) (λ _ s', fd_ok s') s.
Proof.
  intros F. unfold scheduler_scan. wlp_step. wlp_step. destruct (find_from _ _ _) as [i|].
  - apply fd_cpu_step; [done|]. keeps_tac.
  - keep_step. intros _ s1 K1. wlp_step. by eapply keep_fdi.
Qed.

(** What the CPUs do: a trap while the process runs, the rest of one after it
    has waited, the turns of the loops in which a call waits, the scheduler and
    the first process. *)
Inductive fd_step : ptable (kern S) → ptable (kern S) → Prop :=
  | fds_trap c tf r s s' : on_cpu c s → the_trap c tf s = Done r s' → fd_step s s'
  | fds_last c tf r s s' : on_cpu c s → trap_last c tf s = Done r s' → fd_step s s'
  | fds_wait c r s s' : wait_turn c s = Done r s' → fd_step s s'
  | fds_sleep c t n r s s' : sleep_turn get_ticks c t n s = Done r s' → fd_step s s'
  | fds_result c v s s' : set_result c v s = Done tt s' → fd_step s s'
  | fds_killed c s s' : on_cpu c s → exit c s = Done tt s' → fd_step s s'
  | fds_round c r s s' : scheduler_round c s = Done r s' → fd_step s s'
  | fds_scan c from r s s' : scheduler_scan c from s = Done r s' → fd_step s s'
  | fds_back c s s' : scheduler_back c s = Done tt s' → fd_step s s'
  | fds_resume c s s' : resume c s = Done tt s' → fd_step s s'
  | fds_userinit c s s' : userinit c s = Done tt s' → fd_step s s'.

Lemma keeps_done {A} (m : sys A) r s s' : Keeps m → m s = Done r s' → fd_ok s → fd_ok s'.
Proof. intros Hm E F. eapply keep_fdi; [|exact F]. by apply (wlp_elim false _ _ _ _ _ (Hm s) E). Qed.

Lemma fd_step_ok s s' : fd_step s s' → fd_ok s → fd_ok s'.
Proof using All.
  intros Hs F. destruct Hs as [c tf r s s' Ho E|c tf r s s' Ho E|c r s s' E|c t n r s s' E|c v s s' E|c s s' Ho E|c r s s' E|c from r s s' E|c s s' E|c s s' E|c s s' E].
  - by apply (wlp_elim false _ _ _ _ _ (fd_trap c tf s F Ho) E).
  - by apply (wlp_elim false _ _ _ _ _ (fd_trap_last c tf s F (λ i, on_cpu_cur c i s Ho)) E).
  - by eapply (keeps_done (wait_turn c)); [apply _|exact E|].
  - by eapply (keeps_done (sleep_turn get_ticks c t n)); [apply _|exact E|].
  - by eapply (keeps_done (set_result c v)); [apply _|exact E|].
  - assert (E' : (exit c;; mret TGone) s = Done TGone s') by (unfold mbind, M_bind; by rewrite E).
    by apply (wlp_elim false _ _ _ _ _ (fd_exit_any c s F (λ i, on_cpu_cur c i s Ho)) E').
  - refine (wlp_elim false (scheduler_round c) (λ _ s', fd_ok s') s r s' _ E). unfold scheduler_round, sti. wlp_step. wlp_step.
    eapply (wlp_keeps (Proc.acquire c PTLOCK)); [apply _|]. intros _ s1 K1. apply fd_scan. eapply keep_fdi; [exact K1|exact F].
  - by apply (wlp_elim false _ _ _ _ _ (fd_scan c from s F) E).
  - refine (wlp_elim false (scheduler_back c) (λ _ s', fd_ok s') s tt s' _ E). unfold scheduler_back, switchkvm. wlp_step. apply wlp_modify. by apply wlp_modify.
  - by eapply (keeps_done (resume c)); [apply _|exact E|].
  - by apply (wlp_elim false _ _ _ _ _ (fd_userinit c s F) E).
Qed.

(** No file is open and no process has descriptors. *)
Definition no_descriptors (s : ptable (kern S)) : Prop :=
  no_files (pt_ext s) ∧ length (pt_procs s) = NPROC ∧ Forall (λ p, p_ofile p = replicate NOFILE None) (pt_procs s).

Lemma no_descriptors_ok s : no_descriptors s → fd_ok s.
Proof.
  intros ([Hl Hz]&Hn&Hp). assert (Hd : ∀ a, descriptors (pt_procs s) a = 0).
  { intros a. apply zsum_zero, Forall_fmap. eapply Forall_impl; [exact Hp|]. intros p E. unfold compose. rewrite E. reflexivity. }
  split; [split|split].
  - done.
  - intros a f Hf. rewrite (Hz a f Hf), Hd. done.
  - intros a _. by rewrite Hd.
  - intros a f _ _. by rewrite Hd.
  - done.
  - done.
  - eapply Forall_impl; [exact Hp|]. intros p E. cbn beta. by rewrite E.
  - intros i p Hi _ _. rewrite (proj1 (Forall_lookup _ _) Hp i p Hi). by repeat constructor.
Qed.

End routines.

(** A process that calls [pipe]: it gets two descriptors, of two files. *)
Module Demo.
#[local] Existing Instance File.Demo.no_devices.
Definition free_page : Z := KERNBASE + 16384.
Definition kernel : kern (log bio) :=
  set_k_mem (mkkmem (<[free_page:=replicate 4096 0]> Args.Demo.pages) false false free_page) (File.Demo.table zero_file).
Definition caller : proc := set_files (replicate NOFILE None) (Some 0%nat) Args.Demo.proc1.
Definition machine : ptable (kern (log bio)) :=
  mkpt kernel (pt_mach Args.Demo.machine) (caller :: replicate 63 zero_proc) 2 None [mkcpust (Some 0%nat) (Some Args.Demo.dir)] false.
Abbreviation call_pipe := (trap KERNBASE KERNBASE (H2 := kern_ops KERNBASE KERNBASE [] (on_fs (mret tt)))
  (λ _, 0) (λ _ s, s) (mret tt) (mret tt) (mret tt) (mret tt) 0 (Trap.Demo.user_frame 64 4)).
Definition after_pipe : ptable (kern (log bio)) := Trap.Demo.after machine (call_pipe machine).

Lemma pipe_called : call_pipe machine = Done TReturn after_pipe.
Proof. vm_compute. reflexivity. Qed.
Lemma pipe_files : pt_procs after_pipe !! 0%nat = Some (pt_procs after_pipe !!! 0%nat) ∧ p_ofile (pt_procs after_pipe !!! 0%nat) !! 1%nat = Some (Some 1%nat).
Proof. split; vm_compute; reflexivity. Qed.
Lemma machine_start : no_descriptors machine.
Proof.
  split; [|split; [reflexivity|apply (bool_decide_unpack _); vm_compute; exact I]]. split; [reflexivity|]. intros i f Hf.
  destruct i as [|[|i]]; [by injection Hf as <-|by injection Hf as <-|done].
Qed.
Lemma machine_run : rtc (fd_step KERNBASE KERNBASE [] (mret tt) (λ _, 0) (λ _ s, s) (mret tt) (mret tt) (mret tt) (mret tt)) machine after_pipe.
Proof. apply rtc_once. eapply fds_trap; [|exact pipe_called]. intros i [= <-]. reflexivity. Qed.
End Demo.

