(* ===== verification/Grep.v ===== *)
(** * grep (grep.c)

    The matcher against the language its pattern denotes, and the line buffer
    of [grep].  Strings are byte lists that end at their first NUL or at the
    end of the list. *)

From S2P Require Import Prelude Str.

(** ** The matcher *)

Definition caret : Z := 94.
Definition dollar : Z := 36.
Definition star : Z := 42.
Definition dot : Z := 46.

(** The loop of [matchstar]; [here] is [matchhere] of the rest of the pattern. *)
Fixpoint matchstar_loop (here : list Z → bool) (c : Z) (text : list Z) : bool :=
  here text ||
  match text with
  | [] => false
  | t :: text' => negb (t =? 0) && ((t =? c) || (c =? dot)) && matchstar_loop here c text'
  end.

Fixpoint matchhere (re text : list Z) : bool :=
  match re with
  | [] => true
  | c :: re1 =>
      if c =? 0 then true
      else
        let one :=
          if (c =? dollar) && (at0 re1 =? 0) then at0 text =? 0
          else if negb (at0 text =? 0) && ((c =? dot) || (c =? at0 text)) then matchhere re1 (tail text)
          else false in
        match re1 with
        | d :: re2 => if d =? star then matchstar_loop (matchhere re2) c text else one
        | [] => one
        end
  end.
Definition matchstar (c : Z) (re text : list Z) : bool := matchstar_loop (matchhere re) c text.

(** The [do] loop of [match]. *)
Fixpoint match_loop (re text : list Z) : bool :=
  matchhere re text ||
  match text with
  | [] => false
  | t :: text' => negb (t =? 0) && match_loop re text'
  end.
Definition match_re (re text : list Z) : bool :=
  if at0 re =? caret then matchhere (tail re) text else match_loop re text.

(** ** The lines of a buffer *)

(** The inner loop of [grep]: what is written, and the bytes after the last newline. *)
Fixpoint grep_lines (fuel : nat) (pattern p : list Z) : list Z * list Z :=
  match fuel with
  | O => ([], p)
  | S fuel' =>
      match strchr p 10 with
      | Some q =>
          let '(out, rest) := grep_lines fuel' pattern (drop (S q) p) in
          ((if match_re pattern (take q p) then take (S q) p else []) ++ out, rest)
      | None => ([], p)
      end
  end.

(** [sizeof(buf) - 1]. *)
Definition GREPBUF : nat := 1023.

(** The outer loop.  [buf] is the first [m] bytes of the buffer, [input] what
    is left of the file, and each [read] returns at most the number of bytes
    [reads] allows it, 0 at the end of the file. *)
Fixpoint grep_loop (reads : list nat) (pattern buf input : list Z) : list Z :=
  match reads with
  | [] => []
  | r :: reads' =>
      let n := (r `min` (GREPBUF - length buf))%nat in
      let got := take n input in
      if decide (got = []) then []
      else
        let buf1 := buf ++ got in
        let '(out, rest) := grep_lines (S (length buf1)) pattern buf1 in
        let buf2 := if (length rest =? length buf1)%nat then [] else rest in
        out ++ grep_loop reads' pattern buf2 (drop n input)
  end.
Definition grep (reads : list nat) (pattern input : list Z) : list Z := grep_loop reads pattern [] input.

(** ** What a pattern denotes *)

Inductive piece := One (c : Z) | Many (c : Z).

(** The pieces of a pattern, and whether it ends in a [$]. *)
Fixpoint pieces (re : list Z) : list piece * bool :=
  match re with
  | [] => ([], false)
  | c :: re1 =>
      let one := if (c =? dollar) && (at0 re1 =? 0) then ([], true)
                 else let '(ps, e) := pieces re1 in (One c :: ps, e) in
      match re1 with
      | d :: re2 => if d =? star then let '(ps, e) := pieces re2 in (Many c :: ps, e) else one
      | [] => one
      end
  end.

(** A character of the pattern matches itself, and a dot anything. *)
Definition atom (c t : Z) : Prop := c = dot ∨ c = t.

Inductive lang : list piece → list Z → Prop :=
  | lang_nil : lang [] []
  | lang_one c t ps u : atom c t → lang ps u → lang (One c :: ps) (t :: u)
  | lang_many c l ps u : Forall (atom c) l → lang ps u → lang (Many c :: ps) (l ++ u).

(** The pattern matches at the beginning of the text. *)
Definition matches_here (pe : list piece * bool) (text : list Z) : Prop :=
  ∃ u v, text = u ++ v ∧ lang pe.1 u ∧ (pe.2 = true → v = []).

Definition chars (l : list Z) : Prop := Forall (λ c, c ≠ 0) l.

Lemma chars_at0 l : chars l → at0 l = 0 ↔ l = [].
Proof. intros Hl. destruct Hl; simpl; naive_solver. Qed.

Lemma matchstar_loop_spec here c text : chars text →
  matchstar_loop here c text = true ↔ ∃ l v, text = l ++ v ∧ Forall (atom c) l ∧ here v = true.
Proof.
  induction 1 as [|t text Ht _ IH]; simpl.
  { rewrite orb_false_r. split; [by exists [], []|]. by intros ([]&[]&?&_&?). }
  rewrite (proj2 (Z.eqb_neq t 0)) by done. simpl. rewrite orb_true_iff, andb_true_iff, IH, orb_true_iff, !Z.eqb_eq.
  split.
  - intros [Hh|[Hc (l&v&->&Hl&Hv)]]; [by exists [], (t :: text)|].
    exists (t :: l), v. split_and!; [done|constructor; [unfold atom; naive_solver|done]|done].
  - intros ([|t' l]&v&E&Hl&Hv); simpl in E; [left; by subst|right].
    injection E as <- ->. apply Forall_cons in Hl as [Ha Hl]. split; [unfold atom in Ha; naive_solver|eauto].
Qed.

Lemma lang_many_inv c ps u : lang (Many c :: ps) u ↔ ∃ l u', u = l ++ u' ∧ Forall (atom c) l ∧ lang ps u'.
Proof.
  split; [inversion 1; subst; eauto|]. intros (l&u'&->&?&?). by constructor.
Qed.

Lemma matches_many c ps e text :
  matches_here (Many c :: ps, e) text ↔ ∃ l v, text = l ++ v ∧ Forall (atom c) l ∧ matches_here (ps, e) v.
Proof.
  split.
  - intros (u&v&->&Hu&He). apply lang_many_inv in Hu as (l&u'&->&Hl&Hu').
    exists l, (u' ++ v). split_and!; [by rewrite app_assoc|done|]. by exists u', v.
  - intros (l&w&->&Hl&u&v&->&Hu&He). exists (l ++ u), v.
    split_and!; [by rewrite app_assoc|apply lang_many_inv; eauto|done].
Qed.

Lemma matches_one c ps e text :
  matches_here (One c :: ps, e) text ↔ ∃ t text', text = t :: text' ∧ atom c t ∧ matches_here (ps, e) text'.
Proof.
  split.
  - intros (u&v&->&Hu&He). inversion Hu; subst. eexists _, _. split; [done|]. split; [done|]. eexists _, _. eauto.
  - intros (t&text'&->&Ha&u&v&->&Hu&He). exists (t :: u), v. split_and!; [done|by constructor|done].
Qed.

Lemma matches_end text : matches_here ([], true) text ↔ text = [].
Proof.
  split; [|intros ->; exists [], []; eauto using lang]. intros (u&v&->&Hu&He). inversion Hu. simpl. by apply He.
Qed.

(** The case of a pattern character that is not starred. *)
Definition matchone (c : Z) (re1 text : list Z) : bool :=
  if (c =? dollar) && (at0 re1 =? 0) then at0 text =? 0
  else if negb (at0 text =? 0) && ((c =? dot) || (c =? at0 text)) then matchhere re1 (tail text)
  else false.

Lemma matchone_spec c re1 text : chars text →
  (∀ text, chars text → matchhere re1 text = true ↔ matches_here (pieces re1) text) →
  matchone c re1 text = true ↔
  matches_here (if (c =? dollar) && (at0 re1 =? 0) then ([], true)
                else let '(ps, e) := pieces re1 in (One c :: ps, e)) text.
Proof.
  intros Ht IH. unfold matchone. destruct (_ && _).
  { by rewrite Z.eqb_eq, matches_end, chars_at0. }
  destruct (pieces re1) as [ps e]. rewrite matches_one. destruct Ht as [|t text Ht Hts]; simpl.
  { split; [done|]. by intros (?&?&?&_). }
  rewrite (proj2 (Z.eqb_neq t 0)) by done. simpl. destruct ((c =? dot) || (c =? t)) eqn:E.
  - rewrite orb_true_iff, !Z.eqb_eq in E. rewrite IH by done. split; [|by intros (?&?&[= <- <-]&_&?)].
    intros Hm. exists t, text. by split_and!.
  - rewrite orb_false_iff, !Z.eqb_neq in E. split; [done|]. intros (?&?&[= <- <-]&[]&_); naive_solver.
Qed.

Lemma matchhere_spec n : ∀ re text, (length re < n)%nat → chars re → chars text →
  matchhere re text = true ↔ matches_here (pieces re) text.
Proof.
  induction n as [|n IH]; intros re text Hn Hre Ht; [lia|].
  destruct Hre as [|c re1 Hc Hre]; simpl.
  { split; [|done]. intros _. exists [], text. split_and!; [done|constructor|done]. }
  simpl in Hn. rewrite (proj2 (Z.eqb_neq c 0)) by done. fold (matchone c re1 text).
  destruct Hre as [|d re2 Hd Hre].
  { apply (matchone_spec c []); [done|]. intros. apply IH; [simpl; lia|constructor|done]. }
  destruct (Z.eqb_spec d star) as [->|Hs].
  - destruct (pieces re2) as [ps e] eqn:Ep. rewrite matchstar_loop_spec, matches_many by done.
    split; intros (l&v&->&Hl&Hv); exists l, v; (split; [done|split; [done|]]).
    + apply IH in Hv; [by rewrite Ep in Hv|simpl in Hn; lia|done|by apply Forall_app in Ht as [_ ?]].
    + apply IH; [simpl in Hn; lia|done|by apply Forall_app in Ht as [_ ?]|by rewrite Ep].
  - apply (matchone_spec c (d :: re2)); [done|]. intros. apply IH; [lia|by constructor|done].
Qed.

Lemma match_loop_spec re text : chars re → chars text →
  match_loop re text = true ↔ ∃ w v, text = w ++ v ∧ matches_here (pieces re) v.
Proof.
  intros Hre. induction 1 as [|t text Ht Hts IH]; cbn [match_loop].
  - rewrite orb_false_r, (matchhere_spec (S (length re))) by (done || lia || constructor).
    split; [by exists [], []|]. by intros ([]&[]&?&?).
  - rewrite orb_true_iff, (matchhere_spec (S (length re))) by (done || lia || by constructor).
    rewrite (proj2 (Z.eqb_neq t 0)) by done. cbn [negb andb]. rewrite IH. split.
    + intros [Hm|(w&v&->&Hm)]; [by exists [], (t :: text)|by exists (t :: w), v].
    + intros ([|t' w]&v&E&Hm); simpl in E; [left; by subst|right]. injection E as <- ->. eauto.
Qed.

(** C40: the matcher decides the language of its pattern.  With [^], the rest
    of the pattern matches a prefix of the text, otherwise a substring; with a
    final [$] the match extends to the end of the text; a starred character
    stands for any number of instances and a dot for any character. *)
Theorem match_correct re text : chars re → chars text →
  match_re re text = true ↔
  if at0 re =? caret then matches_here (pieces (tail re)) text
  else ∃ w v, text = w ++ v ∧ matches_here (pieces re) v.
Proof.
  intros Hre Ht. unfold match_re. destruct (_ =? _).
  - apply (matchhere_spec (S (length (tail re)))); [lia| |done]. destruct Hre; [constructor|done].
  - by apply match_loop_spec.
Qed.

Lemma match_correct_witness : match_re [97; 42; 98; 36] [120; 97; 97; 98] = true.
Proof.
  apply match_correct; [repeat constructor; lia..|]. simpl.
  exists [120], [97; 97; 98]. split; [done|]. exists [97; 97; 98], []. split_and!; [done| |done].
  apply (lang_many 97 [97; 97] [One 98] [98]); [repeat constructor; by right|].
  constructor; [by right|constructor].
Defined.

(** ** Whole lines *)

(** A line: no NUL and no newline. *)
Definition line (l : list Z) : Prop := chars l ∧ Forall (λ c, c ≠ 10) l.

(** The text of the lines, each with its newline. *)
Definition text_of (ls : list (list Z)) : list Z := concat ((λ l, l ++ [10]) <$> ls).

(** What grep should print. *)
Definition matching (pattern : list Z) (ls : list (list Z)) : list Z :=
  text_of (filter (λ l, match_re pattern l = true) ls).

Lemma strchr_line l r : line l → strchr (l ++ 10 :: r) 10 = Some (length l).
Proof.
  intros [H0 H10]. induction l as [|c l IH]; [done|].
  apply Forall_cons in H0 as [Hc H0], H10 as [Hn H10]. simpl.
  rewrite (proj2 (Z.eqb_neq c 0)), (proj2 (Z.eqb_neq c 10)) by done. by rewrite IH.
Qed.

Lemma strchr_no_line l : line l → strchr l 10 = None.
Proof.
  intros [H0 H10]. induction l as [|c l IH]; [done|].
  apply Forall_cons in H0 as [Hc H0], H10 as [Hn H10]. simpl.
  rewrite (proj2 (Z.eqb_neq c 0)), (proj2 (Z.eqb_neq c 10)) by done. by rewrite IH.
Qed.

(** A buffer of whole lines and a piece of the next one. *)
Lemma grep_lines_spec pattern ls : ∀ fuel p, Forall line ls → line p → (length ls < fuel)%nat →
  grep_lines fuel pattern (text_of ls ++ p) = (matching pattern ls, p).
Proof.
  induction ls as [|l ls IH]; intros [|fuel] p Hls Hp Hf; simpl in Hf; try lia.
  - simpl. by rewrite strchr_no_line.
  - apply Forall_cons in Hls as [Hl Hls].
    assert (text_of (l :: ls) ++ p = l ++ 10 :: (text_of ls ++ p)) as ->.
    { unfold text_of. simpl. by rewrite <- !app_assoc. }
    cbn [grep_lines]. rewrite strchr_line by done. rewrite take_app_length.
    replace (S (length l)) with (length (l ++ [10])) by (rewrite length_app; simpl; lia).
    assert (∀ r, l ++ 10 :: r = (l ++ [10]) ++ r) as Eq by (intros; by rewrite <- app_assoc).
    rewrite (Eq (text_of ls ++ p)).
    rewrite drop_app_length, take_app_length, IH by (done || lia).
    unfold matching. rewrite filter_cons. case_decide as E; rewrite ?E; [done|].
    by apply not_true_iff_false in E as ->.
Qed.

Lemma text_of_cons l ls : text_of (l :: ls) = l ++ 10 :: text_of ls.
Proof. unfold text_of. simpl. by rewrite <- app_assoc. Qed.

Lemma text_of_app l1 l2 : text_of (l1 ++ l2) = text_of l1 ++ text_of l2.
Proof. unfold text_of. by rewrite fmap_app, concat_app. Qed.

Lemma length_text_of ls : (length ls ≤ length (text_of ls))%nat.
Proof. induction ls as [|l ls IH]; [done|]. rewrite text_of_cons, length_app. simpl. lia. Qed.

Lemma line_take n l : line l → line (take n l).
Proof. intros []. split; by apply Forall_take. Qed.

(** The first [n] bytes of a text: whole lines and a piece of the next. *)
Lemma take_text_of ls : ∀ n, (n ≤ length (text_of ls))%nat → Forall line ls →
  ∃ l1 p l2, ls = l1 ++ l2 ∧ take n (text_of ls) = text_of l1 ++ p ∧ line p ∧
    (p = [] ∨ ∃ l l2', l2 = l :: l2' ∧ p = take (length p) l).
Proof.
  induction ls as [|l ls IH]; intros n Hn Hls.
  { exists [], [], []. split_and!; [done|by destruct n|by split; constructor|by left]. }
  apply Forall_cons in Hls as [Hl Hls]. rewrite text_of_cons in *. rewrite length_app in Hn. simpl in Hn.
  destruct (decide (n ≤ length l)%nat) as [Hle|Hgt].
  - exists [], (take n l), (l :: ls). split_and!; [done|by rewrite take_app_le|by apply line_take|].
    right. exists l, ls. split; [done|]. rewrite length_take. f_equal. lia.
  - destruct (IH (n - length l - 1)%nat ltac:(lia) Hls) as (l1&p&l2&->&E&Hp&Hq).
    exists (l :: l1), p, l2. split_and!; [done| |done|done].
    rewrite take_app_ge by lia. replace (n - length l)%nat with (S (n - length l - 1)) by lia.
    simpl. rewrite E, text_of_cons. by rewrite <- app_assoc.
Qed.

(** A text that contains no newline has no lines. *)
Lemma no_newline_nil ls p r : line p → text_of ls ++ r = p → ls = [].
Proof.
  intros [_ Hp] <-. destruct ls as [|l ls]; [done|]. rewrite text_of_cons in Hp.
  rewrite !Forall_app, Forall_cons in Hp. naive_solver.
Qed.

(** A piece of text without newline is within the first line. *)
Lemma within_first_line l ls p r : line p → p ++ r = text_of (l :: ls) → (length p ≤ length l)%nat.
Proof.
  intros [_ Hp] E. destruct (decide (length p ≤ length l)%nat) as [|Hgt]; [done|exfalso].
  rewrite text_of_cons in E. assert (p !! length l = Some 10) as Hl.
  { rewrite <- (lookup_app_l p r) by lia. rewrite E, lookup_app_r, Nat.sub_diag by lia. done. }
  rewrite Forall_lookup in Hp. by apply (Hp _ _ Hl).
Qed.

Lemma matching_app pattern l1 l2 : matching pattern (l1 ++ l2) = matching pattern l1 ++ matching pattern l2.
Proof. unfold matching. by rewrite filter_app, text_of_app. Qed.

Lemma grep_loop_spec pattern reads : ∀ buf input ls,
  Forall (λ r, GREPBUF ≤ r)%nat reads → (length input < length reads)%nat →
  Forall line ls → Forall (λ l, length l < GREPBUF)%nat ls → line buf → buf ++ input = text_of ls →
  grep_loop reads pattern buf input = matching pattern ls.
Proof.
  induction reads as [|r reads IH]; intros buf input ls Hr Hlen Hls Hshort Hb E; simpl in Hlen; [lia|].
  apply Forall_cons in Hr as [Hr Hrs]. cbn [grep_loop]. destruct ls as [|l ls].
  { apply app_eq_nil in E as [-> ->]. by rewrite take_nil. }
  pose proof (within_first_line l ls buf input Hb E) as Hw.
  apply Forall_cons in Hshort as Hl1. destruct Hl1 as [Hl1 _].
  rewrite Nat.min_r by lia. set (n := (GREPBUF - length buf)%nat) in *.
  assert (buf ++ take n input = take GREPBUF (text_of (l :: ls))) as Eb.
  { rewrite <- E, take_app_ge by lia. done. }
  assert (drop n input = drop GREPBUF (text_of (l :: ls))) as Ed.
  { rewrite <- E, drop_app_ge by lia. done. }
  assert (input ≠ []) as Hne.
  { intros ->. rewrite app_nil_r in E. destruct Hb as [_ Hb]. rewrite E, text_of_cons, Forall_app, Forall_cons in Hb. naive_solver. }
  rewrite decide_False by (destruct input, n eqn:?; done || lia).
  rewrite Eb, Ed. clear Eb. set (txt := text_of (l :: ls)) in *.
  destruct (take_text_of (l :: ls) (GREPBUF `min` length txt)) as (l1&p&l2&Els&Et&Hp&_); [apply Nat.le_min_r|done|].
  fold txt in Et. rewrite <- take_take, (take_ge txt (length txt)) in Et by lia. rewrite Et.
  assert (Forall line l1 ∧ Forall line l2) as [Hl1' Hl2'] by (rewrite Els in Hls; by apply Forall_app in Hls).
  rewrite grep_lines_spec by (done || (rewrite length_app; pose proof (length_text_of l1); lia)).
  assert (l1 ≠ []) as Hl1ne.
  { intros ->. simpl in Et. assert (line (take GREPBUF txt)) as [_ Hc] by by rewrite Et.
    unfold txt in Hc. rewrite text_of_cons in Hc. rewrite Forall_lookup in Hc. apply (Hc (length l) 10); [|done].
    rewrite lookup_take_lt, lookup_app_r, Nat.sub_diag by lia. done. }
  rewrite (proj2 (Nat.eqb_neq _ _)).
  2: { rewrite length_app. destruct l1; [done|]. rewrite text_of_cons, length_app. simpl. lia. }
  rewrite Els, matching_app. f_equal. apply IH; try done.
  - rewrite <- Ed, length_drop. unfold n. destruct input; [done|]. simpl in *. lia.
  - rewrite Els, Forall_app in Hshort. apply Hshort.
  - apply (app_inv_head (text_of l1)). rewrite app_assoc, <- Et, take_drop. unfold txt. by rewrite Els, text_of_app.
Qed.

(** when every [read] fills the buffer or reaches the end of the file,
    [grep] prints exactly the lines that match, in order, for any text of
    lines of at most 1022 characters. *)
Theorem grep_correct pattern reads ls :
  Forall line ls → Forall (λ l, length l < GREPBUF)%nat ls →
  Forall (λ r, GREPBUF ≤ r)%nat reads → (length (text_of ls) < length reads)%nat →
  grep reads pattern (text_of ls) = matching pattern ls.
Proof. intros. unfold grep. apply grep_loop_spec; try done. by split; constructor. Qed.

Lemma grep_correct_witness :
  grep (replicate 7 2000%nat) [98] (text_of [[97; 98]; [99; 99]]) = [97; 98; 10].
Proof.
  apply (grep_correct [98] (replicate 7 2000%nat) [[97; 98]; [99; 99]]).
  - repeat constructor; lia.
  - repeat (apply Forall_cons; split); [apply Nat.ltb_lt; by vm_compute..|constructor].
  - apply Forall_replicate, Nat.leb_le. by vm_compute.
  - simpl. lia.
Defined.

(** a [read] that ends in the middle of the first line of the buffer
    loses that part of the line: the same file read in two pieces prints a
    matching line as if it did not match. *)
Theorem grep_short_read_drops_line :
  grep [1023; 1023; 1023]%nat [97] [97; 98; 10] = [97; 98; 10] ∧
  grep [1; 1023; 1023]%nat [97] [97; 98; 10] = [].
Proof. by vm_compute. Qed.
