(* ===== verification/Printf.v ===== *)
(** * Formatted output (printf.c, and printint and cprintf of console.c)

    What is printed is the list of bytes given to [putc] or [consputc]. *)

From S2P Require Import Prelude Str.

(** ** Numbers *)

Definition udigits : list Z := [48; 49; 50; 51; 52; 53; 54; 55; 56; 57; 65; 66; 67; 68; 69; 70].
Definition kdigits : list Z := [48; 49; 50; 51; 52; 53; 54; 55; 56; 57; 97; 98; 99; 100; 101; 102].

(** The [do] loop of both [printint]s: the digits of [x], the last one first. *)
Fixpoint digit_loop (fuel : nat) (digits : list Z) (x base : Z) : list Z :=
  match fuel with
  | O => []
  | S fuel' =>
      (digits !!! Z.to_nat (x mod base)) ::
      (if x / base =? 0 then [] else digit_loop fuel' digits (x / base) base)
  end.

(** [buf], in the order it is filled. *)
Definition printint_buf (digits : list Z) (xx base : Z) (sgn : bool) : list Z :=
  let neg := sgn && (xx <? 0) in
  let x := if neg then u32 (- xx) else u32 xx in
  digit_loop 32 digits x base ++ (if neg then [45] else []).

(** printf.c *)
Definition uprintint (xx base : Z) (sgn : bool) : list Z := reverse (printint_buf udigits xx base sgn).
(** console.c *)
Definition kprintint (xx base : Z) (sgn : bool) : list Z := reverse (printint_buf kdigits xx base sgn).

(** ** Formats *)

(** The words after the format: a number or character, or a string pointer. *)
Inductive arg := AWord (w : Z) | APtr (s : option (list Z)).

Definition null_str : list Z := [40; 110; 117; 108; 108; 41].
Definition str_of (s : option (list Z)) : list Z := match s with Some s => cstr s | None => null_str end.

(** The loop of [printf]; [pct] is [state == '%'].  [None]: an argument is
    missing or of the wrong kind, which C leaves undefined. *)
Fixpoint printf_loop (fmt : list Z) (pct : bool) (ap : list arg) : option (list Z) :=
  match fmt with
  | [] => Some []
  | c0 :: fmt' =>
      if c0 =? 0 then Some []
      else
        let c := u8 c0 in
        if negb pct then
          if c =? 37 then printf_loop fmt' true ap
          else out ← printf_loop fmt' false ap; Some (c :: out)
        else if c =? 100 then
          match ap with
          | AWord w :: ap' => out ← printf_loop fmt' false ap'; Some (uprintint (i32 w) 10 true ++ out)
          | _ => None
          end
        else if (c =? 120) || (c =? 112) then
          match ap with
          | AWord w :: ap' => out ← printf_loop fmt' false ap'; Some (uprintint (i32 w) 16 false ++ out)
          | _ => None
          end
        else if c =? 115 then
          match ap with
          | APtr s :: ap' => out ← printf_loop fmt' false ap'; Some (str_of s ++ out)
          | _ => None
          end
        else if c =? 99 then
          match ap with
          | AWord w :: ap' => out ← printf_loop fmt' false ap'; Some (u8 w :: out)
          | _ => None
          end
        else if c =? 37 then out ← printf_loop fmt' false ap; Some (c :: out)
        else out ← printf_loop fmt' false ap; Some (37 :: c :: out)
  end.
Definition printf (fmt : list Z) (ap : list arg) : option (list Z) := printf_loop fmt false ap.

(** [cprintf], the loop of console.c. *)
Fixpoint cprintf (fmt : list Z) (argp : list arg) : option (list Z) :=
  match fmt with
  | [] => Some []
  | c0 :: fmt' =>
      let c := u8 c0 in
      if c =? 0 then Some []
      else if negb (c =? 37) then out ← cprintf fmt' argp; Some (c :: out)
      else
        match fmt' with
        | [] => Some []
        | d0 :: fmt'' =>
            let c := u8 d0 in
            if c =? 0 then Some []
            else if c =? 100 then
              match argp with
              | AWord w :: argp' => out ← cprintf fmt'' argp'; Some (kprintint (i32 w) 10 true ++ out)
              | _ => None
              end
            else if (c =? 120) || (c =? 112) then
              match argp with
              | AWord w :: argp' => out ← cprintf fmt'' argp'; Some (kprintint (i32 w) 16 false ++ out)
              | _ => None
              end
            else if c =? 115 then
              match argp with
              | APtr s :: argp' => out ← cprintf fmt'' argp'; Some (str_of s ++ out)
              | _ => None
              end
            else if c =? 37 then out ← cprintf fmt'' argp; Some (37 :: out)
            else out ← cprintf fmt'' argp; Some (37 :: c :: out)
        end
  end.

(** ** The digits denote the number *)

(** The value of a digit string in a base. *)
Definition value (base : Z) (vals : list Z) : Z := foldl (λ n d, n * base + d) 0 vals.

(** The digit values, the last one first. *)
Fixpoint digit_vals (fuel : nat) (x base : Z) : list Z :=
  match fuel with
  | O => []
  | S fuel' => (x mod base) :: (if x / base =? 0 then [] else digit_vals fuel' (x / base) base)
  end.

Lemma digit_loop_vals fuel digits : ∀ x base,
  digit_loop fuel digits x base = (λ v, digits !!! Z.to_nat v) <$> digit_vals fuel x base.
Proof.
  induction fuel as [|fuel IH]; intros x base; simpl; [done|].
  destruct (_ =? _); [done|]. by rewrite IH.
Qed.

Lemma value_snoc base l d : value base (l ++ [d]) = value base l * base + d.
Proof. unfold value. by rewrite foldl_app. Qed.

Lemma digit_vals_spec base : 2 ≤ base → ∀ fuel x, 0 ≤ x < base ^ Z.of_nat fuel →
  let ds := digit_vals fuel x base in
  (fuel ≠ O → value base (reverse ds) = x) ∧ Forall (λ d, 0 ≤ d < base) ds ∧
  (∀ k, x < base ^ Z.of_nat (S k) → (length ds ≤ S k)%nat) ∧
  (x ≠ 0 → ∀ d, last ds = Some d → d ≠ 0).
Proof.
  intros Hb. induction fuel as [|fuel IH]; intros x Hx; cbn zeta; cbn [digit_vals].
  { split_and!; [done|constructor|simpl; lia|done]. }
  rewrite Nat2Z.inj_succ, Z.pow_succ_r in Hx by lia.
  assert (0 ≤ x / base < base ^ Z.of_nat fuel) as Hq by (split; [apply Z.div_pos; lia|apply Z.div_lt_upper_bound; lia]).
  pose proof (Z.mod_pos_bound x base ltac:(lia)) as Hm. pose proof (Z.div_mod x base ltac:(lia)) as Hdm.
  destruct (Z.eqb_spec (x / base) 0) as [E|E].
  { split_and!; [|by apply Forall_singleton|simpl; lia|]. { intros _. unfold value. simpl. nia. }
    intros Hx0 d [= <-]. nia. }
  destruct (IH _ Hq) as (IH1&IH2&IH3&IH4). assert (fuel ≠ O) as Hf by (intros ->; simpl in Hq; lia).
  split_and!.
  - intros _. rewrite reverse_cons, value_snoc, IH1 by done. lia.
  - by constructor.
  - intros [|k] Hk; cbn [length].
    + rewrite Z.pow_1_r in Hk. rewrite Z.div_small in E by lia. done.
    + apply le_n_S, IH3. apply Z.div_lt_upper_bound; [lia|].
      rewrite (Nat2Z.inj_succ (S k)), Z.pow_succ_r in Hk by lia. lia.
  - intros _ d. rewrite last_cons. destruct (last (digit_vals fuel (x / base) base)) as [e|] eqn:El.
    + intros [= <-]. by apply IH4.
    + apply last_None in El. destruct fuel; [done|]. discriminate El.
Qed.

Lemma i32_cases w : 0 ≤ w < 2 ^ 32 → i32 w = if w <? 2 ^ 31 then w else w - 2 ^ 32.
Proof. intros. unfold i32. by rewrite u32_small. Qed.

Lemma u32_neg x : - 2 ^ 32 ≤ x < 0 → u32 x = x + 2 ^ 32.
Proof. intros. unfold u32. rewrite <- (Z.mod_add x 1) by lia. apply Z.mod_small. lia. Qed.

(** The magnitude both [printint]s print. *)
Definition magnitude (xx : Z) (sgn : bool) : Z := if sgn then Z.abs xx else u32 xx.

Definition print_vals (xx base : Z) (sgn : bool) : list Z := reverse (digit_vals 32 (magnitude xx sgn) base).

Lemma printint_chars digits xx base sgn : - 2 ^ 31 ≤ xx < 2 ^ 31 →
  reverse (printint_buf digits xx base sgn) =
  (if sgn && (xx <? 0) then [45] else []) ++ ((λ v, digits !!! Z.to_nat v) <$> print_vals xx base sgn).
Proof.
  intros Hx. unfold printint_buf, print_vals.
  assert ((if sgn && (xx <? 0) then u32 (- xx) else u32 xx) = magnitude xx sgn) as ->.
  { unfold magnitude. destruct sgn; [|done]. simpl. destruct (Z.ltb_spec xx 0); rewrite u32_small; lia. }
  rewrite digit_loop_vals, reverse_app, fmap_reverse. by destruct (sgn && _).
Qed.

Lemma print_vals_spec xx base sgn : - 2 ^ 31 ≤ xx < 2 ^ 31 → 8 ≤ base ≤ 16 →
  let vals := print_vals xx base sgn in
  value base vals = magnitude xx sgn ∧ Forall (λ v, 0 ≤ v < base) vals ∧
  (magnitude xx sgn ≠ 0 → at0 vals ≠ 0) ∧ (1 ≤ length vals ≤ 11)%nat.
Proof.
  intros Hx Hb. cbn zeta. unfold print_vals.
  assert (0 ≤ magnitude xx sgn < 2 ^ 32) as Hm.
  { unfold magnitude. destruct sgn; [lia|apply u32_range]. }
  assert (Hp : ∀ k, (32 ≤ 3 * k)%nat → magnitude xx sgn < base ^ Z.of_nat k).
  { intros k Hk. apply Z.lt_le_trans with (8 ^ Z.of_nat k); [|apply Z.pow_le_mono_l; lia].
    change 8 with (2 ^ 3). rewrite <- Z.pow_mul_r by lia.
    apply Z.lt_le_trans with (2 ^ 32); [lia|apply Z.pow_le_mono_r; lia]. }
  destruct (digit_vals_spec base ltac:(lia) 32 (magnitude xx sgn)) as (H1&H2&H3&H4).
  { split; [lia|]. apply Hp. lia. }
  specialize (H3 10%nat (Hp 11%nat ltac:(lia))). split_and!.
  - by apply H1.
  - by apply Forall_reverse.
  - intros Hnz. set (ds := digit_vals _ _ _) in *.
    destruct (last ds) as [d|] eqn:El; [|apply last_None in El; unfold ds in El; discriminate El].
    apply last_Some in El as El'. destruct El' as [l' E]. rewrite E, reverse_app. simpl. by apply (H4 Hnz).
  - rewrite length_reverse. exact (le_n_S _ _ (Nat.le_0_l _)).
  - by rewrite length_reverse.
Qed.

(** both [printint]s, for the bases they are used with.  What is printed
    is a minus sign exactly for a negative number printed with sign, followed
    by the digits, in the given base and without leading zeros, of the
    magnitude of the number; and the buffer of 16 characters never overflows. *)
Theorem printint_correct xx base sgn :
  - 2 ^ 31 ≤ xx < 2 ^ 31 → base = 10 ∨ base = 16 →
  ∃ vals, uprintint xx base sgn =
      (if sgn && (xx <? 0) then [45] else []) ++ ((λ v, udigits !!! Z.to_nat v) <$> vals) ∧
    kprintint xx base sgn =
      (if sgn && (xx <? 0) then [45] else []) ++ ((λ v, kdigits !!! Z.to_nat v) <$> vals) ∧
    value base vals = (if sgn then Z.abs xx else u32 xx) ∧ Forall (λ v, 0 ≤ v < base) vals ∧
    ((if sgn then Z.abs xx else u32 xx) ≠ 0 → at0 vals ≠ 0) ∧
    (1 ≤ length (uprintint xx base sgn) ≤ 16)%nat.
Proof.
  intros Hx Hb. exists (print_vals xx base sgn). unfold uprintint, kprintint. rewrite !printint_chars by done.
  destruct (print_vals_spec xx base sgn) as (?&?&?&?); [done|lia|]. split_and!; try done;
    rewrite length_app, length_fmap; destruct (sgn && _); simpl; lia.
Qed.

Lemma printint_correct_witness : uprintint (-120) 10 true = [45; 49; 50; 48] ∧ kprintint (-1) 16 false = replicate 8 102.
Proof.
  destruct (printint_correct (-120) 10 true) as (v&_&_&_&_&_&H); [lia|by left|].
  destruct (printint_correct (-1) 16 false) as (v'&_&_&_&_&_&H'); [lia|by right|].
  split; reflexivity.
Defined.

(** ** Formats *)

Inductive directive := DLit (c : Z) | DDec | DHex | DPtr | DStr | DChr | DPct | DOther (c : Z).

(** The format string of a list of directives. *)
Definition fmt_of (d : directive) : list Z :=
  match d with
  | DLit c => [c]
  | DDec => [37; 100]
  | DHex => [37; 120]
  | DPtr => [37; 112]
  | DStr => [37; 115]
  | DChr => [37; 99]
  | DPct => [37; 37]
  | DOther c => [37; c]
  end.

(** A literal is not a percent sign, and an unknown conversion is none of the others. *)
Definition directive_ok (d : directive) : bool :=
  match d with
  | DLit c => (1 <=? c) && (c <? 256) && negb (c =? 37)
  | DOther c => (1 <=? c) && (c <? 256) && negb (bool_decide (c ∈ [100; 120; 112; 115; 99; 37]))
  | _ => true
  end.

(** What each directive prints, and the arguments left. *)
Definition render (d : directive) (ap : list arg) : option (list Z * list arg) :=
  match d, ap with
  | DLit c, _ => Some ([c], ap)
  | DDec, AWord w :: ap' => Some (uprintint (i32 w) 10 true, ap')
  | (DHex | DPtr), AWord w :: ap' => Some (uprintint (i32 w) 16 false, ap')
  | DStr, APtr s :: ap' => Some (str_of s, ap')
  | DChr, AWord w :: ap' => Some ([u8 w], ap')
  | DPct, _ => Some ([37], ap)
  | DOther c, _ => Some ([37; c], ap)
  | _, _ => None
  end.
Fixpoint render_all (ds : list directive) (ap : list arg) : option (list Z) :=
  match ds with
  | [] => Some []
  | d :: ds' => r ← render d ap; out ← render_all ds' r.2; Some (r.1 ++ out)
  end.

(** [printf] interprets its format string directive by directive: for
    every sequence of literal characters and conversions it prints the
    concatenation of what each of them stands for, taking the arguments in
    order, and needs no more arguments than they take. *)
Theorem printf_correct ds ap : Forall (λ d, directive_ok d = true) ds →
  printf (concat (fmt_of <$> ds)) ap = render_all ds ap.
Proof.
  intros Hds. unfold printf. revert ap. induction Hds as [|d ds Hd _ IH]; intros ap; [done|].
  cbn [fmap list_fmap concat render_all].
  destruct d as [c| | | | | | |c]; cbn [fmt_of app printf_loop directive_ok] in *.
  2-7: by destruct ap as [|[] ap]; cbn; rewrite ?IH.
  - apply andb_prop in Hd as [[?%Z.leb_le ?%Z.ltb_lt]%andb_prop E%negb_true_iff].
    rewrite u8_byte by (unfold byte; lia). rewrite (proj2 (Z.eqb_neq c 0)), E by lia. cbn. by rewrite IH.
  - apply andb_prop in Hd as [[?%Z.leb_le ?%Z.ltb_lt]%andb_prop Hc%negb_true_iff].
    apply bool_decide_eq_false in Hc. rewrite !elem_of_cons in Hc.
    change (u8 37) with 37. change (37 =? 0) with false. change (37 =? 37) with true. cbn [negb].
    rewrite u8_byte by (unfold byte; lia).
    rewrite (proj2 (Z.eqb_neq c 0)), (proj2 (Z.eqb_neq c 100)), (proj2 (Z.eqb_neq c 120)), (proj2 (Z.eqb_neq c 112)),
      (proj2 (Z.eqb_neq c 115)), (proj2 (Z.eqb_neq c 99)), (proj2 (Z.eqb_neq c 37)) by (intros ->; tauto || lia).
    cbn. by rewrite IH.
Qed.

Lemma printf_correct_witness :
  printf [110; 61; 37; 100; 44; 37; 115; 37; 33] [AWord (2 ^ 32 - 7); APtr None] =
  Some [110; 61; 45; 55; 44; 40; 110; 117; 108; 108; 41; 37; 33].
Proof.
  apply (printf_correct [DLit 110; DLit 61; DDec; DLit 44; DStr; DOther 33] [AWord (2 ^ 32 - 7); APtr None]).
  repeat constructor.
Defined.

Lemma udigit_val v : 0 ≤ v < 10 → udigits !!! Z.to_nat v = 48 + v.
Proof.
  intros Hv. replace v with (Z.of_nat (Z.to_nat v)) at 2 by lia. assert (Z.to_nat v < 10)%nat as Hk by lia.
  revert Hk. generalize (Z.to_nat v). clear. intros k Hk. do 10 (destruct k as [|k]; [done|]). lia.
Qed.

(** The value of decimal digits as [atoi] sees it. *)
Lemma number_value l : ∀ n, Forall (λ v, 0 ≤ v < 10) l →
  number ((λ v, udigits !!! Z.to_nat v) <$> l) n = foldl (λ n d, n * 10 + d) n l.
Proof.
  induction l as [|v l IH]; intros n Hl; [done|]. apply Forall_cons in Hl as [Hv Hl]. simpl. rewrite IH by done.
  f_equal. rewrite udigit_val by done. lia.
Qed.

(** what [printf] prints for [%d] of a number that is not negative reads
    back with [atoi] as the same number. *)
Theorem printf_atoi n : 0 ≤ n < 2 ^ 31 →
  ∃ l, printf [37; 100] [AWord n] = Some l ∧ atoi l = n.
Proof.
  intros Hn. exists (uprintint n 10 true).
  assert (printf [37; 100] [AWord n] = Some (uprintint (i32 n) 10 true ++ [])) as -> by done.
  rewrite app_nil_r, i32_small by lia. split; [done|]. unfold uprintint. rewrite printint_chars by lia.
  rewrite (proj2 (Z.ltb_ge n 0)) by lia. cbn [andb app].
  destruct (print_vals_spec n 10 true) as (Hv&Hd&_); [lia..|].
  set (vals := print_vals n 10 true) in *. unfold atoi.
  rewrite <- (app_nil_r (_ <$> vals)). pose proof (number_value vals 0 Hd) as E.
  unfold value in Hv. rewrite Hv in E. unfold magnitude in E. rewrite Z.abs_eq in E by lia.
  rewrite atoi_loop_spec; [done| |lia|rewrite E; lia|done].
  apply Forall_fmap. apply (Forall_impl _ _ _ Hd). intros v Hr. unfold digit, compose.
  rewrite udigit_val by done. lia.
Qed.

Lemma printf_atoi_witness : ∃ l, printf [37; 100] [AWord 1234] = Some l ∧ atoi l = 1234.
Proof. apply (printf_atoi 1234). lia. Defined.
