(* ===== verification/Dump.v ===== *)
(** * The process listing (procdump of proc.c, getcallerpcs of spinlock.c)

    What ^P prints: the processes of the table, and for those that sleep the
    calls on their kernel stacks. *)

From S2P Require Import Prelude Params Mmu Printf Proc.

Section dump.
(** The words of memory, by address, and the frame pointer that [swtch] has
    saved in the context of a process. *)
Context (mem : Z → Z) (context_ebp : nat → Z).

(** ** spinlock.c *)

Fixpoint pcs_loop (n : nat) (ebp : Z) : list Z :=
  match n with
  | O => []
  | S n' =>
      if (ebp =? 0) || (ebp <? KERNBASE) || (ebp =? 4294967295) then replicate n 0
      else mem (u32 (ebp + 4)) :: pcs_loop n' (mem ebp)
  end.
Definition getcallerpcs (v : Z) : list Z := pcs_loop 10 (u32 (v - 8)).

(** ** proc.c *)

Definition states (st : procstate) : list Z :=
  match st with
  | UNUSED => chrs "unused" | EMBRYO => chrs "embryo" | SLEEPING => chrs "sleep "
  | RUNNABLE => chrs "runble" | RUNNING => chrs "run   " | ZOMBIE => chrs "zombie"
  end.

(** [for(i=0; i<10 && pc[i] != 0; i++)]. *)
Fixpoint dump_pcs (pc : list Z) : option (list Z) :=
  match pc with
  | [] => Some []
  | w :: pc' =>
      if w =? 0 then Some []
      else
        a ← cprintf (chrs " %p") [AWord w];
        b ← dump_pcs pc';
        Some (a ++ b)
  end.

Fixpoint dump_from (i : nat) (ps : list proc) : option (list Z) :=
  match ps with
  | [] => Some []
  | p :: ps' =>
      if decide (p_state p = UNUSED) then dump_from (S i) ps'
      else
        a ← cprintf (chrs "%d %s %s") [AWord (p_pid p); APtr (Some (states (p_state p))); APtr (Some (p_name p))];
        b ← (if decide (p_state p = SLEEPING) then dump_pcs (getcallerpcs (u32 (context_ebp i + 8))) else Some []);
        c ← cprintf [10] [];
        rest ← dump_from (S i) ps';
        Some (a ++ b ++ c ++ rest)
  end.
Definition procdump (ps : list proc) : option (list Z) := dump_from 0 ps.

(** ** What they show *)

(** Stack frames from [ebp] on: the return address of each above the saved frame
    pointer, which leads to the next; the last one leads out of the kernel. *)
Fixpoint frames (ebp : Z) (pcs : list Z) : Prop :=
  match pcs with
  | [] => ¬ KERNBASE ≤ ebp < 4294967295
  | pc :: pcs' => KERNBASE ≤ ebp < 4294967295 - 4 ∧ mem (ebp + 4) = pc ∧ frames (mem ebp) pcs'
  end.

Lemma pcs_loop_frames n : ∀ ebp pcs, 0 ≤ ebp < 2 ^ 32 → (∀ a, 0 ≤ mem a < 2 ^ 32) → frames ebp pcs →
  pcs_loop n ebp = take n (pcs ++ replicate n 0).
Proof.
  induction n as [|n IH]; intros ebp pcs Hr Hm Hf; [done|]. cbn [pcs_loop]. destruct pcs as [|pc pcs].
  - cbn [frames] in Hf. rewrite app_nil_l. rewrite take_ge by (by rewrite length_replicate).
    destruct (Z.eqb_spec ebp 0), (Z.ltb_spec ebp KERNBASE), (Z.eqb_spec ebp 4294967295); try done. exfalso. apply Hf. lia.
  - cbn [frames] in Hf. destruct Hf as (Hk&<-&Hf). change KERNBASE with 2147483648 in Hk |- *.
    destruct (Z.eqb_spec ebp 0); [lia|]. destruct (Z.ltb_spec ebp 2147483648); [lia|]. destruct (Z.eqb_spec ebp 4294967295); [lia|].
    cbn [orb]. rewrite u32_small by lia. cbn [app take]. f_equal. rewrite (IH _ pcs) by done.
    change (0 :: replicate n 0) with (replicate (S n) 0). replace (S n) with (n + 1)%nat by lia. rewrite replicate_add, app_assoc.
    rewrite (take_app_le _ (replicate 1 0)); [done|]. rewrite length_app, length_replicate. lia.
Qed.

(** A line of the listing. *)
Definition stack_text (pcs : list Z) : list Z := concat ((λ w, chrs " " ++ kprintint (i32 w) 16 false) <$> pcs).
Definition dump_line (p : proc) (pcs : list Z) : list Z :=
  kprintint (i32 (p_pid p)) 10 true ++ chrs " " ++ states (p_state p) ++ chrs " " ++ str_of (Some (p_name p)) ++ stack_text pcs ++ [10].

Lemma dump_pcs_text pcs k : Forall (λ w, w ≠ 0) pcs → dump_pcs (pcs ++ replicate k 0) = Some (stack_text pcs).
Proof.
  induction 1 as [|w pcs Hw _ IH]; [by destruct k|]. cbn [app dump_pcs]. destruct (Z.eqb_spec w 0); [done|]. rewrite IH.
  assert (E : cprintf (chrs " %p") [AWord w] = Some (32 :: kprintint (i32 w) 16 false ++ [])) by reflexivity. rewrite E, app_nil_r. reflexivity.
Qed.

(** The processes that are in use and their stacks. *)
Fixpoint listing (i : nat) (ps : list proc) (stacks : nat → list Z) : list Z :=
  match ps with
  | [] => []
  | p :: ps' =>
      (if decide (p_state p = UNUSED) then []
       else dump_line p (if decide (p_state p = SLEEPING) then take 10 (stacks i) else [])) ++ listing (S i) ps' stacks
  end.

(** [procdump] prints a line for each process in use, in the order of the table,
    with the ten innermost return addresses for those that sleep. *)
Theorem procdump_correct ps stacks :
  (∀ a, 0 ≤ mem a < 2 ^ 32) →
  (∀ i p, ps !! i = Some p → p_state p = SLEEPING →
     0 ≤ context_ebp i < 2 ^ 32 - 8 ∧ frames (context_ebp i) (stacks i) ∧ Forall (λ w, w ≠ 0) (stacks i)) →
  procdump ps = Some (listing 0 ps stacks).
Proof.
  intros Hm. unfold procdump. assert (H : ∀ i, (∀ j p, ps !! j = Some p → p_state p = SLEEPING →
     0 ≤ context_ebp (i + j)%nat < 2 ^ 32 - 8 ∧ frames (context_ebp (i + j)%nat) (stacks (i + j)%nat) ∧ Forall (λ w, w ≠ 0) (stacks (i + j)%nat)) →
     dump_from i ps = Some (listing i ps stacks)); [|intros H'; exact (H 0%nat H')].
  induction ps as [|p ps IH]; intros i H; [done|]. cbn [dump_from listing].
  assert (E : dump_from (S i) ps = Some (listing (S i) ps stacks)).
  { apply IH. intros j q Hj. specialize (H (S j) q Hj). by replace (S i + j)%nat with (i + S j)%nat by lia. }
  destruct (decide (p_state p = UNUSED)); [done|]. rewrite E. specialize (H 0%nat p eq_refl). rewrite Nat.add_0_r in H.
  assert (Ea : ∀ a b c, cprintf (chrs "%d %s %s") [AWord a; APtr (Some b); APtr (Some c)] =
    Some (kprintint (i32 a) 10 true ++ 32 :: str_of (Some b) ++ 32 :: str_of (Some c) ++ [])) by reflexivity.
  rewrite Ea. clear Ea. assert (Es : str_of (Some (states (p_state p))) = states (p_state p)) by (by destruct (p_state p)). rewrite Es.
  destruct (decide (p_state p = SLEEPING)) as [Hs|Hs].
  - destruct (H Hs) as (Hr&Hf&Hnz). unfold getcallerpcs. rewrite !u32_small by (rewrite ?u32_small; lia).
    replace (context_ebp i + 8 - 8) with (context_ebp i) by lia.
    rewrite (pcs_loop_frames 10 _ (stacks i)) by (done || lia).
    assert (Et : take 10 (stacks i ++ replicate 10 0) = take 10 (stacks i) ++ replicate (10 - length (stacks i)) 0).
    { rewrite take_app, take_replicate. f_equal. f_equal. lia. }
    rewrite Et, dump_pcs_text by by apply Forall_take. unfold dump_line.
    cbn [mbind option_bind]. change (cprintf [10] []) with (Some [10]). cbn [mbind option_bind]. f_equal. change (chrs " ") with [32].
    repeat (rewrite <- app_assoc || rewrite <- app_comm_cons || rewrite app_nil_l). done.
  - unfold dump_line.
    cbn [mbind option_bind]. change (cprintf [10] []) with (Some [10]). cbn [mbind option_bind]. f_equal. change (chrs " ") with [32].
    repeat (rewrite <- app_assoc || rewrite <- app_comm_cons || rewrite app_nil_l). done.
Qed.
End dump.
