(* ===== verification/Userprogs.v ===== *)
(** * Small user programs (cat.c, wc.c, echo.c)

    The programs run on the system calls they make: files that can be opened,
    descriptors with the bytes still to be read, reads that return as many bytes
    as the kernel likes, and an output that takes a number of bytes before
    writes fail. *)

From S2P Require Import Prelude Params Str Printf.

(** ** A process *)

Abbreviation str := (list Z).

Record ust := mkust {
  us_files : gmap str (list Z);
  us_fds : list (option (list Z));
  us_chunks : list nat;          (** how many bytes the next reads return at most *)
  us_out : list Z;
  us_room : nat;                 (** how many bytes descriptor 1 still takes *)
  us_err : list Z
}.

(** A program returns, has exited, or uses an argument that is not there. *)
Inductive res (A : Type) := Ret (a : A) | Exited | Bad.
Arguments Ret {A}.
Arguments Exited {A}.
Arguments Bad {A}.
Definition U (A : Type) : Type := ust → res A * ust.
#[global] Instance U_ret : MRet U := λ A a s, (Ret a, s).
#[global] Instance U_bind : MBind U := λ A B f m s,
  match m s with (Ret a, s') => f a s' | (Exited, s') => (Exited, s') | (Bad, s') => (Bad, s') end.

Definition exit {A} : U A := λ s, (Exited, s).

Definition set_fds (v : list (option (list Z))) (s : ust) : ust :=
  mkust (us_files s) v (us_chunks s) (us_out s) (us_room s) (us_err s).

Definition open (path : str) : U Z := λ s,
  match us_files s !! path, list_find (λ o, o = None) (us_fds s) with
  | Some c, Some (fd, _) => (Ret (Z.of_nat fd), set_fds (<[fd:=Some c]> (us_fds s)) s)
  | _, _ => (Ret (-1), s)
  end.
Definition close (fd : Z) : U unit := λ s, (Ret tt, set_fds (<[Z.to_nat fd:=None]> (us_fds s)) s).

Definition read (fd : Z) (n : nat) : U (Z * list Z) := λ s,
  match us_fds s !! Z.to_nat fd with
  | Some (Some rest) =>
      let k := Nat.min n (Nat.max 1 (default n (head (us_chunks s)))) in
      (Ret (Z.of_nat (length (take k rest)), take k rest),
       mkust (us_files s) (<[Z.to_nat fd:=Some (drop k rest)]> (us_fds s)) (tail (us_chunks s)) (us_out s) (us_room s) (us_err s))
  | _ => (Ret (-1, []), s)
  end.

Definition write (fd : Z) (l : list Z) : U Z := λ s,
  if fd =? 1 then
    if (length l <=? us_room s)%nat then
      (Ret (Z.of_nat (length l)), mkust (us_files s) (us_fds s) (us_chunks s) (us_out s ++ l) (us_room s - length l) (us_err s))
    else (Ret (-1), s)
  else (Ret (Z.of_nat (length l)), mkust (us_files s) (us_fds s) (us_chunks s) (us_out s) (us_room s) (us_err s ++ l)).

(** printf.c writes character by character and ignores what [write] returns. *)
Fixpoint putcs (fd : Z) (l : list Z) : U unit :=
  match l with [] => mret tt | c :: l' => write fd [c];; putcs fd l' end.
Definition uprintf (fd : Z) (fmt : str) (ap : list arg) : U unit :=
  match printf fmt ap with Some l => putcs fd l | None => λ s, (Bad, s) end.

(** The bytes left to read on a descriptor: the loops below read until there
    are none. *)
Definition left_on (fd : Z) (s : ust) : nat :=
  match us_fds s !! Z.to_nat fd with Some (Some rest) => length rest | _ => O end.

(** ** cat.c *)

Definition BUFLEN : nat := 512.

Fixpoint cat_loop (fuel : nat) (fd : Z) : U unit :=
  match fuel with
  | O => λ s, (Bad, s)
  | Datatypes.S fuel' =>
      r ← read fd BUFLEN;
      if 0 <? r.1 then
        w ← write 1 r.2;
        if negb (w =? r.1) then uprintf 1 (chrs "cat: write error" ++ [10]) [];; exit
        else cat_loop fuel' fd
      else if r.1 <? 0 then uprintf 1 (chrs "cat: read error" ++ [10]) [];; exit
      else mret tt
  end.
Definition cat (fd : Z) : U unit := λ s, cat_loop (left_on fd s + 1) fd s.

(** The loop of [main] over the arguments that are left. *)
Fixpoint cat_args (args : list str) : U unit :=
  match args with
  | [] => exit
  | a :: args' =>
      fd ← open a;
      if fd <? 0 then uprintf 1 (chrs "cat: cannot open %s" ++ [10]) [APtr (Some a)];; exit
      else cat fd;; close fd;; cat_args args'
  end.
(** [main]; the arguments without the name of the program. *)
Definition cat_main (args : list str) : U unit :=
  match args with
  | [] => cat 0;; exit
  | _ => cat_args args
  end.

(** ** wc.c *)

Definition wc_space : list Z := [32; 13; 9; 10; 11].

(** The counts of lines, words and bytes, and [inword]. *)
Record wcst := mkwc { wc_l : Z; wc_w : Z; wc_c : Z; wc_in : bool }.
Definition wc_byte (t : wcst) (b : Z) : wcst :=
  let c := i32 (wc_c t + 1) in
  let l := if b =? 10 then i32 (wc_l t + 1) else wc_l t in
  match strchr wc_space b with
  | Some _ => mkwc l (wc_w t) c false
  | None => if wc_in t then mkwc l (wc_w t) c true else mkwc l (i32 (wc_w t + 1)) c true
  end.

Fixpoint wc_loop (fuel : nat) (fd : Z) (t : wcst) : U wcst :=
  match fuel with
  | O => λ s, (Bad, s)
  | Datatypes.S fuel' =>
      r ← read fd BUFLEN;
      if 0 <? r.1 then wc_loop fuel' fd (foldl wc_byte t r.2)
      else if r.1 <? 0 then uprintf 1 (chrs "wc: read error" ++ [10]) [];; exit
      else mret t
  end.
Definition wc (fd : Z) (name : str) : U unit :=
  t ← (λ s, wc_loop (left_on fd s + 1) fd (mkwc 0 0 0 false) s);
  uprintf 1 (chrs "%d %d %d %s" ++ [10]) [AWord (wc_l t); AWord (wc_w t); AWord (wc_c t); APtr (Some name)].

Fixpoint wc_args (args : list str) : U unit :=
  match args with
  | [] => exit
  | a :: args' =>
      fd ← open a;
      if fd <? 0 then uprintf 1 (chrs "wc: cannot open %s" ++ [10]) [APtr (Some a)];; exit
      else wc fd a;; close fd;; wc_args args'
  end.
Definition wc_main (args : list str) : U unit :=
  match args with
  | [] => wc 0 [];; exit
  | _ => wc_args args
  end.

(** ** echo.c *)

Fixpoint echo_args (args : list str) : U unit :=
  match args with
  | [] => exit
  | a :: args' =>
      uprintf 1 (chrs "%s%s") [APtr (Some a); APtr (Some (match args' with [] => [10] | _ => [32] end))];;
      echo_args args'
  end.

(** ** What the programs print *)

Definition emit (l : list Z) (s : ust) : ust :=
  mkust (us_files s) (us_fds s) (us_chunks s) (us_out s ++ l) (us_room s - length l) (us_err s).
(** After some reads. *)
Definition with_reads (fds : list (option (list Z))) (ch : list nat) (s : ust) : ust :=
  mkust (us_files s) fds ch (us_out s) (us_room s) (us_err s).

Lemma putcs_emit l s : (length l ≤ us_room s)%nat → putcs 1 l s = (Ret tt, emit l s).
Proof.
  revert s. induction l as [|c l IH]; intros s Hl; cbn [length] in Hl.
  - unfold emit. cbn. rewrite app_nil_r, Nat.sub_0_r. by destruct s.
  - cbn [putcs]. unfold mbind, U_bind, write. cbn [length]. change (1 =? 1) with true. rewrite (proj2 (Nat.leb_le 1 _)) by lia.
    cbv iota beta. rewrite IH by (cbn; lia). unfold emit. cbn. rewrite <- app_assoc. f_equal. f_equal. lia.
Qed.

(** A read of an open descriptor: some bytes, none only at the end. *)
Lemma read_rest fd n s rest : (0 < n)%nat → us_fds s !! Z.to_nat fd = Some (Some rest) →
  ∃ k ch, (0 < k)%nat ∧ read fd n s = (Ret (Z.of_nat (length (take k rest)), take k rest), with_reads (<[Z.to_nat fd:=Some (drop k rest)]> (us_fds s)) ch s).
Proof.
  intros Hn Hf. unfold read. rewrite Hf. set (k := Nat.min n _). exists k, (tail (us_chunks s)). split; [|done]. unfold k. lia.
Qed.

Lemma cat_loop_ok fuel fd s rest : us_fds s !! Z.to_nat fd = Some (Some rest) → (length rest < fuel)%nat → (length rest ≤ us_room s)%nat →
  ∃ ch, cat_loop fuel fd s = (Ret tt, emit rest (with_reads (<[Z.to_nat fd:=Some []]> (us_fds s)) ch s)).
Proof.
  revert s rest. induction fuel as [|fuel IH]; intros s rest Hf Hlt Hr; [lia|]. cbn [cat_loop]. unfold mbind, U_bind.
  destruct (read_rest fd BUFLEN s rest ltac:(unfold BUFLEN; lia) Hf) as (k&ch&Hk&->). cbn [fst snd]. destruct rest as [|b rest].
  { rewrite take_nil, drop_nil. exists ch. cbn. unfold emit. cbn. by rewrite app_nil_r, Nat.sub_0_r. }
  set (l := take k (b :: rest)). assert (Hl : (0 < length l ≤ length (b :: rest))%nat) by (unfold l; rewrite length_take; cbn; lia).
  rewrite (proj2 (Z.ltb_lt 0 _)) by lia. unfold write at 1. change (1 =? 1) with true. cbn [us_room with_reads]. rewrite (proj2 (Nat.leb_le _ _)) by lia.
  cbv iota beta. rewrite Z.eqb_refl. cbn [negb].
  match goal with |- context [cat_loop fuel fd ?s1] => destruct (IH s1 (drop k (b :: rest))) as [ch' ->] end; cbn [us_fds us_room with_reads us_out us_files us_err].
  - rewrite list_lookup_insert_eq; [done|]. by eapply lookup_lt_Some.
  - rewrite length_drop. cbn in *. lia.
  - unfold l. rewrite length_drop, length_take. lia.
  - exists ch'. unfold emit, with_reads. cbn [us_fds us_room us_out us_files us_err us_chunks]. f_equal. f_equal.
    + by rewrite list_insert_insert_eq.
    + rewrite <- app_assoc. unfold l. by rewrite take_drop.
    + unfold l. rewrite length_drop, length_take. lia.
Qed.

(** *** Counts *)

Definition space (b : Z) : bool := bool_decide (b ∈ wc_space).
Lemma strchr_space b : strchr wc_space b = None ↔ space b = false.
Proof.
  unfold space. rewrite bool_decide_eq_false. unfold wc_space. rewrite !elem_of_cons, elem_of_nil. cbn [strchr].
  repeat match goal with |- context [?x =? b] => destruct (Z.eqb_spec x b) as [<-|] end; cbn; split; intros H; try done; try naive_solver.
Qed.

Definition lines (l : list Z) : Z := Z.of_nat (length (filter (.= 10) l)).
(** Position [i] starts a word. *)
Definition starts (l : list Z) (i : nat) : bool :=
  negb (space (l !!! i)) && (bool_decide (i = O) || space (l !!! (i - 1)%nat)).
Definition words (l : list Z) : Z := Z.of_nat (length (filter (λ i, starts l i = true) (seq 0 (length l)))).
Definition in_word (l : list Z) : bool := match last l with Some b => negb (space b) | None => false end.

Lemma filter_ext_in {A} (f g : A → bool) (l : list A) : (∀ x, x ∈ l → f x = g x) → filter (λ x, f x = true) l = filter (λ x, g x = true) l.
Proof.
  induction l as [|x l IH]; intros H; [done|]. rewrite !filter_cons, (IH ltac:(set_solver)), (H x ltac:(set_solver)). done.
Qed.

Lemma words_snoc l b : words (l ++ [b]) = words l + (if negb (space b) && negb (in_word l) then 1 else 0).
Proof.
  unfold words. rewrite length_app. cbn [length]. rewrite Nat.add_1_r, seq_S, filter_app, length_app. cbn [Nat.add].
  rewrite (filter_ext_in (starts (l ++ [b])) (starts l)).
  - assert (E : starts (l ++ [b]) (length l) = negb (space b) && negb (in_word l)).
    { unfold starts, in_word. rewrite list_lookup_total_middle by done. f_equal. destruct l as [|x l] using rev_ind; [done|].
      rewrite last_snoc, bool_decide_eq_false_2 by (rewrite length_app; cbn; lia). cbn [orb]. rewrite negb_involutive. f_equal.
      rewrite length_app. cbn [length]. rewrite Nat.add_sub, <- app_assoc. by apply list_lookup_total_middle. }
    rewrite filter_cons, filter_nil, E. destruct (negb (space b) && negb (in_word l)); [rewrite decide_True by done|rewrite decide_False by done]; cbn [length]; lia.
  - intros i Hi%elem_of_seq. unfold starts. rewrite !lookup_total_app_l by lia. done.
Qed.

(** The counting loop counts lines, words and bytes. *)
Lemma wc_bytes l : Z.of_nat (length l) < 2 ^ 31 → foldl wc_byte (mkwc 0 0 0 false) l = mkwc (lines l) (words l) (Z.of_nat (length l)) (in_word l).
Proof.
  induction l as [|b l IH] using rev_ind; intros Hl; [done|]. rewrite length_app in Hl. cbn [length] in Hl. rewrite foldl_app, IH by lia. cbn [foldl].
  assert (Hb : 0 ≤ lines l ≤ Z.of_nat (length l) ∧ 0 ≤ words l ≤ Z.of_nat (length l)).
  { unfold lines, words. pose proof (length_filter (.= 10) l). pose proof (length_filter (λ i, starts l i = true) (seq 0 (length l))) as Hf. rewrite length_seq in Hf. lia. }
  unfold wc_byte. cbn [wc_l wc_w wc_c wc_in]. rewrite !i32_small by lia. rewrite words_snoc. unfold in_word at 3. rewrite last_snoc, length_app. cbn [length].
  assert (El : lines (l ++ [b]) = if b =? 10 then lines l + 1 else lines l).
  { unfold lines. rewrite filter_app, length_app, filter_cons, filter_nil. destruct (Z.eqb_spec b 10); [rewrite decide_True by done|rewrite decide_False by done]; cbn [length]; lia. }
  rewrite El, Nat2Z.inj_add. change (Z.of_nat 1) with 1. destruct (strchr wc_space b) eqn:Es.
  - destruct (space b) eqn:Eb; [|apply strchr_space in Eb; congruence]. cbn [negb andb]. by rewrite Z.add_0_r.
  - apply strchr_space in Es. rewrite Es. cbn [negb andb]. destruct (in_word l); cbn [negb]; [by rewrite Z.add_0_r|done].
Qed.

Lemma wc_loop_ok fuel fd s rest t : us_fds s !! Z.to_nat fd = Some (Some rest) → (length rest < fuel)%nat →
  ∃ ch, wc_loop fuel fd t s = (Ret (foldl wc_byte t rest), with_reads (<[Z.to_nat fd:=Some []]> (us_fds s)) ch s).
Proof.
  revert s rest t. induction fuel as [|fuel IH]; intros s rest t Hf Hlt; [lia|]. cbn [wc_loop]. unfold mbind, U_bind.
  destruct (read_rest fd BUFLEN s rest ltac:(unfold BUFLEN; lia) Hf) as (k&ch&Hk&->). cbn [fst snd]. destruct rest as [|b rest].
  { rewrite take_nil, drop_nil. by exists ch. }
  set (l := take k (b :: rest)). assert (Hl : (0 < length l)%nat) by (unfold l; rewrite length_take; cbn; lia).
  rewrite (proj2 (Z.ltb_lt 0 _)) by lia.
  match goal with |- context [wc_loop fuel fd ?t1 ?s1] => destruct (IH s1 (drop k (b :: rest)) t1) as [ch' ->] end; cbn [us_fds with_reads].
  - rewrite list_lookup_insert_eq; [done|]. by eapply lookup_lt_Some.
  - rewrite length_drop. cbn in *. lia.
  - exists ch'. unfold with_reads. cbn [us_fds us_room us_out us_files us_err us_chunks]. rewrite list_insert_insert_eq.
    unfold l. by rewrite <- foldl_app, take_drop.
Qed.

(** *** The programs *)

Definition dec (n : Z) : list Z := uprintint (i32 n) 10 true.
Definition wc_line (c : list Z) (name : str) : list Z :=
  dec (lines c) ++ 32 :: dec (words c) ++ 32 :: dec (Z.of_nat (length c)) ++ 32 :: cstr name ++ [10].

Fixpoint cat_text (files : gmap str (list Z)) (args : list str) : list Z :=
  match args with
  | [] => []
  | a :: args' =>
      match files !! a with
      | Some c => c ++ cat_text files args'
      | None => chrs "cat: cannot open " ++ cstr a ++ [10]
      end
  end.
Fixpoint wc_text (files : gmap str (list Z)) (args : list str) : list Z :=
  match args with
  | [] => []
  | a :: args' =>
      match files !! a with
      | Some c => wc_line c a ++ wc_text files args'
      | None => chrs "wc: cannot open " ++ cstr a ++ [10]
      end
  end.
Fixpoint echo_text (args : list str) : list Z :=
  match args with
  | [] => []
  | a :: args' => cstr a ++ (match args' with [] => [10] | _ => [32] end) ++ echo_text args'
  end.

Lemma printf_cat a : printf (chrs "cat: cannot open %s" ++ [10]) [APtr (Some a)] = Some (chrs "cat: cannot open " ++ cstr a ++ [10]).
Proof. reflexivity. Qed.
Lemma printf_wc a : printf (chrs "wc: cannot open %s" ++ [10]) [APtr (Some a)] = Some (chrs "wc: cannot open " ++ cstr a ++ [10]).
Proof. reflexivity. Qed.
Lemma printf_counts t name :
  printf (chrs "%d %d %d %s" ++ [10]) [AWord (wc_l t); AWord (wc_w t); AWord (wc_c t); APtr (Some name)] =
  Some (dec (wc_l t) ++ 32 :: dec (wc_w t) ++ 32 :: dec (wc_c t) ++ 32 :: cstr name ++ [10]).
Proof. reflexivity. Qed.
Lemma printf_echo a b : printf (chrs "%s%s") [APtr (Some a); APtr (Some b)] = Some (cstr a ++ cstr b).
Proof. unfold printf. cbn. by rewrite app_nil_r. Qed.

Lemma uprintf_emit fmt ap l s : printf fmt ap = Some l → (length l ≤ us_room s)%nat → uprintf 1 fmt ap s = (Ret tt, emit l s).
Proof. intros E Hl. unfold uprintf. rewrite E. by apply putcs_emit. Qed.

(** A descriptor is free. *)
Definition has_free (s : ust) : Prop := None ∈ us_fds s.

Lemma open_free a c s : has_free s → us_files s !! a = Some c →
  ∃ fd, us_fds s !! fd = Some None ∧ open a s = (Ret (Z.of_nat fd), set_fds (<[fd:=Some c]> (us_fds s)) s).
Proof.
  intros Hf Ha. unfold open. rewrite Ha. destruct (list_find (λ o, o = None) (us_fds s)) as [[fd o]|] eqn:E.
  - apply list_find_Some in E as (H1&->&_). eauto.
  - apply list_find_None in E. rewrite Forall_forall in E. by destruct (E None Hf).
Qed.
Lemma open_missing a s : us_files s !! a = None → open a s = (Ret (-1), s).
Proof. intros Ha. unfold open. by rewrite Ha. Qed.

Lemma emit_emit l1 l2 s : emit l2 (emit l1 s) = emit (l1 ++ l2) s.
Proof. unfold emit. cbn. rewrite <- app_assoc, length_app. f_equal. lia. Qed.

(** [cat] prints the files one after the other, whatever sizes its reads get, up
    to one that it cannot open; every file is closed again. *)
Theorem cat_correct args s : has_free s → args ≠ [] → (length (cat_text (us_files s) args) ≤ us_room s)%nat →
  ∃ ch, cat_main args s = (Exited, emit (cat_text (us_files s) args) (with_reads (us_fds s) ch s)).
Proof.
  intros Hf Hne. assert (E : cat_main args s = cat_args args s) by (by destruct args). rewrite E. clear E Hne. revert s Hf.
  induction args as [|a args IH]; intros s Hf Hr; cbn [cat_text cat_args] in *.
  - exists (us_chunks s). unfold emit, with_reads. cbn. rewrite app_nil_r, Nat.sub_0_r. by destruct s.
  - unfold mbind, U_bind. destruct (us_files s !! a) as [c|] eqn:Ha; cycle 1.
    { rewrite (open_missing a s Ha). change (-1 <? 0) with true. cbv iota beta.
      rewrite (uprintf_emit _ _ _ s (printf_cat a) Hr). exists (us_chunks s). by destruct s. }
    rewrite length_app in Hr. destruct (open_free a c s Hf Ha) as (fd&Hfd&->). rewrite (proj2 (Z.ltb_ge _ 0)) by lia.
    pose proof (lookup_lt_Some _ _ _ Hfd) as Hlt. unfold cat, left_on. cbn [us_fds set_fds]. rewrite Nat2Z.id, list_lookup_insert_eq by done.
    match goal with |- context [cat_loop ?n ?d ?s1] => destruct (cat_loop_ok n d s1 c) as [ch ->] end; cbn [us_fds set_fds us_room].
    { by rewrite Nat2Z.id, list_lookup_insert_eq. } { lia. } { lia. }
    unfold close. rewrite Nat2Z.id. cbn [us_fds emit with_reads]. rewrite !list_insert_insert_eq, list_insert_id by done.
    match goal with |- context [cat_args args ?s1] => destruct (IH s1) as [ch' ->] end; [done|cbn; lia|].
    exists ch'. cbn [us_files set_fds emit with_reads]. f_equal. unfold emit, with_reads. cbn. rewrite <- app_assoc, length_app. f_equal. lia.
Qed.

(** [wc] prints the numbers of lines, words and bytes of each file, whatever
    sizes its reads get, up to one that it cannot open. *)
Theorem wc_correct args s : has_free s → args ≠ [] → map_Forall (λ _ c, Z.of_nat (length c) < 2 ^ 31) (us_files s) →
  (length (wc_text (us_files s) args) ≤ us_room s)%nat →
  ∃ ch, wc_main args s = (Exited, emit (wc_text (us_files s) args) (with_reads (us_fds s) ch s)).
Proof.
  intros Hf Hne Hs. assert (E : wc_main args s = wc_args args s) by (by destruct args). rewrite E. clear E Hne. revert s Hf Hs.
  induction args as [|a args IH]; intros s Hf Hs Hr; cbn [wc_text wc_args] in *.
  - exists (us_chunks s). unfold emit, with_reads. cbn. rewrite app_nil_r, Nat.sub_0_r. by destruct s.
  - unfold mbind, U_bind. destruct (us_files s !! a) as [c|] eqn:Ha; cycle 1.
    { rewrite (open_missing a s Ha). change (-1 <? 0) with true. cbv iota beta.
      rewrite (uprintf_emit _ _ _ s (printf_wc a) Hr). exists (us_chunks s). by destruct s. }
    pose proof (Hs a c Ha) as Hc. cbn beta in Hc.
    rewrite length_app in Hr. destruct (open_free a c s Hf Ha) as (fd&Hfd&->). rewrite (proj2 (Z.ltb_ge _ 0)) by lia.
    pose proof (lookup_lt_Some _ _ _ Hfd) as Hlt. unfold wc, mbind, U_bind, left_on. cbn [us_fds set_fds]. rewrite Nat2Z.id, list_lookup_insert_eq by done.
    match goal with |- context [wc_loop ?n ?d ?t1 ?s1] => destruct (wc_loop_ok n d s1 c t1) as [ch ->] end; cbn [us_fds set_fds us_room].
    { by rewrite Nat2Z.id, list_lookup_insert_eq. } { lia. }
    rewrite wc_bytes by done. rewrite (uprintf_emit _ _ _ _ (printf_counts _ a)) by (eapply Nat.le_trans; [apply Nat.le_add_r|exact Hr]).
    unfold close. rewrite Nat2Z.id. cbn [us_fds emit with_reads]. rewrite !list_insert_insert_eq, list_insert_id by done. cbn [wc_l wc_w wc_c]. fold (wc_line c a).
    match goal with |- context [wc_args args ?s1] => destruct (IH s1) as [ch' ->] end; [done|done|cbn [us_files us_room set_fds emit with_reads]; lia|].
    exists ch'. cbn [us_files set_fds emit with_reads]. f_equal. unfold emit, with_reads. cbn [us_files us_room us_fds us_chunks us_out us_err set_fds]. rewrite <- app_assoc, length_app. f_equal. lia.
Qed.

(** [echo] prints its arguments, separated by blanks and ended by a newline. *)
Theorem echo_correct args s : (length (echo_text args) ≤ us_room s)%nat → echo_args args s = (Exited, emit (echo_text args) s).
Proof.
  revert s. induction args as [|a args IH]; intros s Hr; cbn [echo_text echo_args] in *.
  - unfold emit. cbn. rewrite app_nil_r, Nat.sub_0_r. by destruct s.
  - unfold mbind, U_bind. rewrite !length_app in Hr.
    assert (Ec : cstr (match args with [] => [10] | _ => [32] end) = match args with [] => [10] | _ => [32] end) by (by destruct args).
    rewrite (uprintf_emit _ _ _ s (printf_echo _ _)) by (rewrite length_app, Ec; lia). rewrite Ec, IH by (cbn; rewrite length_app; lia).
    by rewrite emit_emit, <- app_assoc.
Qed.
