(* ===== verification/Ls.v ===== *)
(** * Listing directories (ls.c, and stat of ulib.c)

    [ls] on a file system that is a function from paths to files: what [open],
    [fstat] and [read] give for them. *)

From S2P Require Import Prelude Params Format Str Printf.

(** What the program sees of a file: the result of [fstat], if it succeeds, and
    the bytes that [read] returns. *)
Record fst := mkfst { st_type : Z; st_ino : Z; st_size : Z }.
Record node := mknode { n_stat : option fst; n_bytes : list Z }.

(** The output on the descriptors 1 and 2, and the descriptors left open. *)
Record lst := mklst { l_out : list Z; l_err : list Z; l_open : nat }.

Definition slash : Z := 47.

(** [for(p=path+strlen(path); p >= path && *p != '/'; p--); p++], as offset:
    [n] is [p + 1]. *)
Fixpoint after_slash (path : list Z) (n : nat) : nat :=
  match n with
  | O => O
  | S p => if path !!! p =? slash then S p else after_slash path p
  end.

(** The NUL after the path is not stored. *)
Definition fmtname (path : list Z) : list Z :=
  let p := drop (after_slash path (S (length path))) path in
  if (DIRSIZ <=? length p)%nat then p
  else
    let buf := splice 0 p (replicate DIRSIZ 0) in
    splice (length p) (replicate (DIRSIZ - length p) 32) buf.

Section ls.
Context (file : list Z → option node).

(** [printf] to descriptor 1 or 2. *)
Definition say (fd : Z) (fmt : list Z) (ap : list arg) : M lst unit :=
  match printf fmt ap with
  | Some l => modify (λ s, if fd =? 1 then mklst (l_out s ++ l) (l_err s) (l_open s) else mklst (l_out s) (l_err s ++ l) (l_open s))
  | None => undef
  end.
Definition opened : M lst unit := modify (λ s, mklst (l_out s) (l_err s) (S (l_open s))).
Definition close : M lst unit := modify (λ s, mklst (l_out s) (l_err s) (l_open s - 1)).

(** [stat] of ulib.c. *)
Definition stat (n : list Z) : M lst (option fst) :=
  match file n with
  | None => mret None
  | Some nd => opened;; close;; mret (n_stat nd)
  end.

Definition ls_line (name : list Z) (st : fst) : M lst unit :=
  say 1 (chrs "%s %d %d %d" ++ [10]) [APtr (Some (fmtname name)); AWord (st_type st); AWord (st_ino st); AWord (st_size st)].

(** The loop over the entries; [buf] is the path and a slash, [rest] what has
    not been read. *)
Fixpoint ls_loop (fuel : nat) (buf rest : list Z) : M lst unit :=
  match fuel with
  | O => diverge
  | S fuel' =>
      let r := take DIRENT_SIZE rest in
      if (length r =? DIRENT_SIZE)%nat then
        let de := decode_dirent r in
        (if de_inum de =? 0 then mret tt
         else
           let path := buf ++ cstr (take DIRSIZ (de_name de)) in
           st ← stat path;
           match st with
           | None => say 1 (chrs "ls: cannot stat %s" ++ [10]) [APtr (Some path)]
           | Some st => ls_line path st
           end);;
        ls_loop fuel' buf (drop DIRENT_SIZE rest)
      else mret tt
  end.

Definition ls (path : list Z) : M lst unit :=
  match file path with
  | None => say 2 (chrs "ls: cannot open %s" ++ [10]) [APtr (Some path)]
  | Some nd =>
      opened;;
      match n_stat nd with
      | None => say 2 (chrs "ls: cannot stat %s" ++ [10]) [APtr (Some path)];; close
      | Some st =>
          (if st_type st =? T_FILE then ls_line path st
           else if st_type st =? T_DIR then
             if (512 <? length path + 1 + DIRSIZ + 1)%nat then say 1 (chrs "ls: path too long" ++ [10]) []
             else ls_loop (length (n_bytes nd) + 1) (path ++ [slash]) (n_bytes nd)
           else mret tt);;
          close
      end
  end.

Fixpoint ls_args (args : list (list Z)) : M lst unit :=
  match args with
  | [] => mret tt
  | a :: args' => ls a;; ls_args args'
  end.
(** [main]; the arguments without the name of the program. *)
Definition ls_main (args : list (list Z)) : M lst unit :=
  match args with
  | [] => ls [46]
  | _ => ls_args args
  end.
End ls.

(** ** What it prints *)

(** A name, padded with blanks to [DIRSIZ] bytes. *)
Definition pad (nm : list Z) : list Z := nm ++ replicate (DIRSIZ - length nm) 32.

Lemma after_slash_name d nm k : slash ∉ nm → (d = [] ∨ last d = Some slash) → (k ≤ length nm + 1)%nat →
  after_slash (d ++ nm) (length d + k) = length d.
Proof.
  intros Hn Hd. induction k as [|k IH]; intros Hk.
  - rewrite Nat.add_0_r. destruct Hd as [->|Hd]; [done|]. destruct d as [|c d _] using rev_ind; [done|]. rewrite last_snoc in Hd.
    apply (inj Some) in Hd as ->. rewrite length_app. cbn [length]. rewrite Nat.add_1_r. cbn [after_slash].
    rewrite <- app_assoc. cbn [app]. rewrite list_lookup_total_middle by done. done.
  - rewrite Nat.add_succ_r. cbn [after_slash]. destruct (Z.eqb_spec ((d ++ nm) !!! (length d + k)%nat) slash) as [E|E]; [|apply IH; lia].
    destruct (decide (k < length nm)%nat) as [Hlt|Hge].
    + rewrite lookup_total_app_r in E by lia. replace (length d + k - length d)%nat with k in E by lia. destruct Hn. rewrite <- E.
      by apply list_elem_of_lookup_total_2.
    + rewrite list_lookup_total_alt, lookup_ge_None_2 in E by (rewrite length_app; lia). done.
Qed.

Lemma fmtname_last d nm : slash ∉ nm → (d = [] ∨ last d = Some slash) → fmtname (d ++ nm) = pad nm.
Proof.
  intros Hn Hd. unfold fmtname. replace (S (length (d ++ nm))) with (length d + (length nm + 1))%nat by (rewrite length_app; lia).
  rewrite after_slash_name, drop_app_length by done || lia. unfold pad. destruct (Nat.leb_spec DIRSIZ (length nm)) as [Hl|Hl].
  - replace (DIRSIZ - length nm)%nat with 0%nat by lia. by rewrite app_nil_r.
  - unfold splice. rewrite take_0, app_nil_l, take_app_length, (drop_ge (nm ++ _)); [by rewrite app_nil_r|].
    rewrite length_app, length_drop, !length_replicate. lia.
Qed.

Definition dec (n : Z) : list Z := uprintint (i32 n) 10 true.
Definition line_of (nm : list Z) (st : fst) : list Z :=
  cstr nm ++ 32 :: dec (st_type st) ++ 32 :: dec (st_ino st) ++ 32 :: dec (st_size st) ++ [10].

Lemma printf_line nm st : printf (chrs "%s %d %d %d" ++ [10]) [APtr (Some nm); AWord (st_type st); AWord (st_ino st); AWord (st_size st)] =
  Some (line_of nm st).
Proof. reflexivity. Qed.

(** A component of a path: no slash, no NUL. *)
Definition name_ok (nm : list Z) : Prop := slash ∉ nm ∧ 0 ∉ nm.

Lemma cstr_no_nul l : 0 ∉ l → cstr l = l.
Proof. induction l as [|c l IH]; [done|]. intros Hn. cbn [cstr]. rewrite (proj2 (Z.eqb_neq c 0)) by set_solver. by rewrite IH by set_solver. Qed.

Lemma pad_no_nul nm : 0 ∉ nm → cstr (pad nm) = pad nm.
Proof.
  intros Hn. apply cstr_no_nul. unfold pad. rewrite elem_of_app. intros [?|Hr]; [done|]. by apply elem_of_replicate in Hr as [? _].
Qed.

Section text.
Context (file : list Z → option node).

Definition emit (l : list Z) (s : lst) : lst := mklst (l_out s ++ l) (l_err s) (l_open s).

(** What the entry [de] of the directory [path] gives. *)
Definition entry_text (path : list Z) (de : dirent) : list Z :=
  if de_inum de =? 0 then []
  else
    let nm := cstr (de_name de) in
    let p := path ++ slash :: nm in
    match file p ≫= n_stat with
    | Some st => line_of (pad nm) st
    | None => chrs "ls: cannot stat " ++ p ++ [10]
    end.

Definition ls_text (path : list Z) (des : list dirent) (st : fst) : list Z :=
  if st_type st =? T_FILE then line_of (fmtname path) st
  else if st_type st =? T_DIR then
    if (512 <? length path + 1 + DIRSIZ + 1)%nat then chrs "ls: path too long" ++ [10] else des ≫= entry_text path
  else [].

Definition entry_ok (de : dirent) : Prop :=
  0 ≤ de_inum de < 2 ^ 16 ∧ length (de_name de) = DIRSIZ ∧ slash ∉ cstr (de_name de).

Lemma stat_run p s : stat file p s = Done (file p ≫= n_stat) s.
Proof.
  unfold stat. destruct (file p) as [nd|]; [|done]. unfold opened, close, modify, mbind, M_bind. cbn. rewrite Nat.sub_0_r. by destruct s.
Qed.

Lemma cstr_nul_free l : 0 ∉ cstr l.
Proof.
  induction l as [|c l IH]; cbn [cstr]; [apply not_elem_of_nil|]. destruct (Z.eqb_spec c 0); [apply not_elem_of_nil|]. rewrite not_elem_of_cons. done.
Qed.

Lemma printf_cannot p : 0 ∉ p → printf (chrs "ls: cannot stat %s" ++ [10]) [APtr (Some p)] = Some (chrs "ls: cannot stat " ++ p ++ [10]).
Proof. intros Hn. rewrite <- (cstr_no_nul p Hn) at 2. reflexivity. Qed.

Lemma entry_run path de s : 0 ∉ path → entry_ok de →
  (if de_inum de =? 0 then mret tt
   else let p := (path ++ [slash]) ++ cstr (take DIRSIZ (de_name de)) in
        st ← stat file p;
        match st with
        | None => say 1 (chrs "ls: cannot stat %s" ++ [10]) [APtr (Some p)]
        | Some st => ls_line p st
        end) s = Done tt (emit (entry_text path de) s).
Proof.
  intros Hp (Hi&Hl&Hs). unfold entry_text. destruct (de_inum de =? 0); [unfold emit; rewrite app_nil_r; by destruct s|].
  rewrite take_ge by lia. cbv zeta. rewrite <- app_assoc. cbn [app]. set (nm := cstr (de_name de)) in *. unfold mbind at 1, M_bind at 1. rewrite stat_run.
  destruct (file (path ++ slash :: nm) ≫= n_stat) as [st|].
  - unfold ls_line, say. rewrite printf_line. replace (fmtname (path ++ slash :: nm)) with (pad nm); [done|].
    change (slash :: nm) with ([slash] ++ nm). rewrite app_assoc, fmtname_last; [done|done|]. right. apply last_snoc.
  - unfold say. rewrite printf_cannot; [done|]. rewrite not_elem_of_app, not_elem_of_cons. split_and!; [done|done|apply cstr_nul_free].
Qed.

Lemma ls_loop_run path des t : ∀ fuel s, 0 ∉ path → Forall entry_ok des → (length t < DIRENT_SIZE)%nat → (length des < fuel)%nat →
  ls_loop file fuel (path ++ [slash]) ((des ≫= encode_dirent) ++ t) s = Done tt (emit (des ≫= entry_text path) s).
Proof.
  induction des as [|de des IH]; intros fuel s Hp Hd Ht Hf; (destruct fuel as [|fuel]; [lia|]); cbn [ls_loop].
  - cbn [app mbind list_bind]. rewrite (proj2 (Nat.eqb_neq _ _)) by (rewrite length_take; lia). unfold emit. rewrite app_nil_r. by destruct s.
  - apply Forall_cons in Hd as [Hde Hd]. pose proof Hde as (Hi&Hl&_). pose proof (length_encode_dirent de Hl) as Hle.
    rewrite !bind_cons, <- app_assoc. rewrite (take_app_length' (encode_dirent de)), (drop_app_length' (encode_dirent de)) by done.
    rewrite Hle, Nat.eqb_refl, decode_encode_dirent by done. unfold mbind at 1, M_bind at 1.
    pose proof (entry_run path de s Hp Hde) as E. cbv zeta in E. rewrite E. rewrite IH by (done || cbn in Hf; lia).
    unfold emit. cbn [l_out l_err l_open]. by rewrite <- app_assoc.
Qed.

(** [ls] of a path that can be opened prints one line for a file, and for a
    directory one line for each entry in use, in order, with the blank-padded
    name, type, inode number and size of what the entry stands for, or a
    message if that has no status.  A path that does not fit the buffer gives
    a message.  No descriptor is left open. *)
Theorem ls_correct path nd st des t s :
  file path = Some nd → n_stat nd = Some st → 0 ∉ path → Forall entry_ok des → (length t < DIRENT_SIZE)%nat →
  n_bytes nd = (des ≫= encode_dirent) ++ t →
  ls file path s = Done tt (emit (ls_text path des st) s).
Proof.
  intros Hf Hst Hp Hd Ht Hb. unfold ls. rewrite Hf, Hst. unfold ls_text.
  assert (Hcl : ∀ l, close (emit l (mklst (l_out s) (l_err s) (S (l_open s)))) = Done tt (emit l s)).
  { intros l. unfold close, modify, emit. cbn. by rewrite Nat.sub_0_r. }
  unfold opened at 1, modify at 1. unfold mbind at 1, M_bind at 1. unfold mbind at 1, M_bind at 1.
  destruct (st_type st =? T_FILE); [unfold ls_line, say; rewrite printf_line; apply Hcl|].
  destruct (st_type st =? T_DIR); [|rewrite <- Hcl; cbn; unfold emit; cbn; by rewrite app_nil_r].
  destruct (512 <? _)%nat; [apply (Hcl (chrs "ls: path too long" ++ [10]))|].
  rewrite Hb, ls_loop_run; [apply Hcl|done|done|done|]. rewrite length_app.
  clear -Hd. induction Hd as [|de des (Hi&Hl&_) _ IH]; cbn [length]; [lia|]. rewrite bind_cons, length_app.
  pose proof (length_encode_dirent de Hl) as Hle. change DIRENT_SIZE with 16%nat in Hle. lia.
Qed.

(** Paths that cannot be opened, or have no status: a message, and nothing open. *)
Theorem ls_failure path s : 0 ∉ path →
  (file path = None → ls file path s = Done tt (mklst (l_out s) (l_err s ++ chrs "ls: cannot open " ++ path ++ [10]) (l_open s))) ∧
  (∀ nd, file path = Some nd → n_stat nd = None →
     ls file path s = Done tt (mklst (l_out s) (l_err s ++ chrs "ls: cannot stat " ++ path ++ [10]) (l_open s))).
Proof.
  intros Hp. split.
  - intros Hf. unfold ls. rewrite Hf. rewrite <- (cstr_no_nul path Hp) at 2. reflexivity.
  - intros nd Hf Hst. unfold ls. rewrite Hf, Hst. unfold opened, close, modify, mbind, M_bind, say. rewrite printf_cannot by done. cbn. by rewrite Nat.sub_0_r.
Qed.
End text.

(** A directory "d" with a file, an unused entry and a name without a file. *)
Module Demo.
Definition names : list dirent :=
  [mkdirent 2 (chrs "a" ++ replicate 13 0); mkdirent 0 (replicate 14 0); mkdirent 7 (chrs "gone" ++ replicate 10 0)].
Definition tree (p : list Z) : option node :=
  if decide (p = chrs "d") then Some (mknode (Some (mkfst T_DIR 1 48)) (names ≫= encode_dirent))
  else if decide (p = chrs "d/a") then Some (mknode (Some (mkfst T_FILE 2 5)) [])
  else None.

Lemma ls_correct_witness :
  ls tree (chrs "d") (mklst [] [] 3) = Done tt (mklst (chrs "a              2 2 5" ++ [10] ++ chrs "ls: cannot stat d/gone" ++ [10]) [] 3).
Proof.
  pose proof (ls_correct tree (chrs "d") (mknode (Some (mkfst T_DIR 1 48)) (names ≫= encode_dirent)) (mkfst T_DIR 1 48) names [] (mklst [] [] 3)) as Hl.
  rewrite Hl; [by vm_compute|by vm_compute|reflexivity| | |cbn; change DIRENT_SIZE with 16%nat; lia|by vm_compute].
  - apply (bool_decide_unpack _). by vm_compute.
  - repeat (apply Forall_cons; split; [split_and!; [cbn; lia|cbn; lia|reflexivity|apply (bool_decide_unpack _); by vm_compute]|]). apply Forall_nil_2.
Defined.
End Demo.
