(* ===== verification/Progs.v ===== *)
(** * Programs that make system calls (rm.c, mkdir.c, ln.c, kill.c, init.c, zombie.c, main of grep.c)

    A run is the sequence of calls that a program makes; what the kernel answers
    may depend on all calls before.  The arguments of [main] are without the
    name of the program. *)

From S2P Require Import Prelude Params Str Printf Grep.

Inductive call :=
  | CUnlink (p : list Z) | CMkdir (p : list Z) | CLink (old new : list Z) | CKill (pid : Z)
  | COpen (p : list Z) (mode : Z) | CMknod (p : list Z) (major minor : Z) | CDup (fd : Z)
  | CFork | CExec (p : list Z) (argv : list (list Z)) | CWait | CSleep (n : Z)
  | CPrint (fd : Z) (text : list Z).

(** A program goes on, has called [exit], is still in its loop, or has used an
    argument that is not there. *)
Inductive tres (A : Type) := TRet (a : A) (tr : list call) | TExit (tr : list call) | TMore (tr : list call) | TBad.
Arguments TRet {A}.
Arguments TExit {A}.
Arguments TMore {A}.
Arguments TBad {A}.
Definition T (A : Type) : Type := list call → tres A.
#[global] Instance T_ret : MRet T := λ A a tr, TRet a tr.
#[global] Instance T_bind : MBind T := λ A B f m tr,
  match m tr with TRet a tr' => f a tr' | TExit tr' => TExit tr' | TMore tr' => TMore tr' | TBad => TBad end.

Section progs.
Context (answer : list call → call → Z).

Definition sys (c : call) : T Z := λ tr, TRet (answer tr c) (tr ++ [c]).
Definition tprintf (fd : Z) (fmt : list Z) (ap : list arg) : T unit := λ tr,
  match printf fmt ap with Some l => TRet tt (tr ++ [CPrint fd l]) | None => TBad end.
Definition texit {A} : T A := λ tr, TExit tr.
(** [exec] returns only when it fails; otherwise the program ends here. *)
Definition texec (p : list Z) (argv : list (list Z)) : T unit := λ tr,
  let c := CExec p argv in if answer tr c <? 0 then TRet tt (tr ++ [c]) else TExit (tr ++ [c]).

(** ** rm.c, mkdir.c, ln.c, kill.c, zombie.c *)

Fixpoint rm_args (args : list (list Z)) : T unit :=
  match args with
  | [] => texit
  | a :: args' =>
      r ← sys (CUnlink a);
      if r <? 0 then tprintf 2 (chrs "rm: %s failed to delete" ++ [10]) [APtr (Some a)];; texit
      else rm_args args'
  end.
Definition rm_main (args : list (list Z)) : T unit :=
  match args with
  | [] => tprintf 2 (chrs "Usage: rm files..." ++ [10]) [];; texit
  | _ => rm_args args
  end.

Fixpoint mkdir_args (args : list (list Z)) : T unit :=
  match args with
  | [] => texit
  | a :: args' =>
      r ← sys (CMkdir a);
      if r <? 0 then tprintf 2 (chrs "mkdir: %s failed to create" ++ [10]) [APtr (Some a)];; texit
      else mkdir_args args'
  end.
Definition mkdir_main (args : list (list Z)) : T unit :=
  match args with
  | [] => tprintf 2 (chrs "Usage: mkdir files..." ++ [10]) [];; texit
  | _ => mkdir_args args
  end.

Definition ln_main (args : list (list Z)) : T unit :=
  match args with
  | [old; new] =>
      r ← sys (CLink old new);
      (if r <? 0 then tprintf 2 (chrs "link %s %s: failed" ++ [10]) [APtr (Some old); APtr (Some new)] else mret tt);;
      texit
  | _ => tprintf 2 (chrs "Usage: ln old new" ++ [10]) [];; texit
  end.

Fixpoint kill_args (args : list (list Z)) : T unit :=
  match args with
  | [] => texit
  | a :: args' => sys (CKill (atoi a));; kill_args args'
  end.
Definition kill_main (args : list (list Z)) : T unit :=
  match args with
  | [] => tprintf 2 (chrs "usage: kill pid..." ++ [10]) [];; texit
  | _ => kill_args args
  end.

Definition zombie_main : T unit :=
  r ← sys CFork;
  (if 0 <? r then sys (CSleep 5);; mret tt else mret tt);;
  texit.

(** ** init.c *)

Definition console : list Z := chrs "console".

(** [while((wpid=wait()) >= 0 && wpid != pid)]. *)
Fixpoint init_wait (fuel : nat) (pid : Z) : T unit :=
  match fuel with
  | O => λ tr, TMore tr
  | S fuel' =>
      wpid ← sys CWait;
      if (0 <=? wpid) && negb (wpid =? pid) then tprintf 1 (chrs "zombie!" ++ [10]) [];; init_wait fuel' pid
      else mret tt
  end.
Fixpoint init_loop (fuel : nat) : T unit :=
  match fuel with
  | O => λ tr, TMore tr
  | S fuel' =>
      tprintf 1 (chrs "init: starting sh" ++ [10]) [];;
      pid ← sys CFork;
      if pid <? 0 then tprintf 1 (chrs "init: fork failed" ++ [10]) [];; texit
      else if pid =? 0 then
        texec (chrs "sh") [chrs "sh"];;
        tprintf 1 (chrs "init: exec sh failed" ++ [10]) [];;
        texit
      else
        init_wait fuel' pid;;
        init_loop fuel'
  end.
Definition init_main (fuel : nat) : T unit :=
  fd ← sys (COpen console 2);
  (if fd <? 0 then
     sys (CMknod console 1 1);;
     sys (COpen console 2);;
     mret tt
   else mret tt);;
  sys (CDup 0);;
  sys (CDup 0);;
  init_loop fuel.

(** ** What they do *)

(** The calls for the arguments up to the first that fails, or all, from the
    calls [tr] on. *)
Inductive upto (f : list Z → call) (msg : list Z → list Z) (tr : list call) : list (list Z) → list call → Prop :=
  | upto_all : upto f msg tr [] []
  | upto_fail a args : answer tr (f a) < 0 → upto f msg tr (a :: args) [f a; CPrint 2 (msg a)]
  | upto_next a args cs : 0 ≤ answer tr (f a) → upto f msg (tr ++ [f a]) args cs → upto f msg tr (a :: args) (f a :: cs).

Definition rm_msg (a : list Z) : list Z := chrs "rm: " ++ cstr a ++ chrs " failed to delete" ++ [10].
Definition mkdir_msg (a : list Z) : list Z := chrs "mkdir: " ++ cstr a ++ chrs " failed to create" ++ [10].

Lemma printf_rm a : printf (chrs "rm: %s failed to delete" ++ [10]) [APtr (Some a)] = Some (rm_msg a).
Proof. reflexivity. Qed.
Lemma printf_mkdir a : printf (chrs "mkdir: %s failed to create" ++ [10]) [APtr (Some a)] = Some (mkdir_msg a).
Proof. reflexivity. Qed.

(** [rm] and [mkdir] make their call for one argument after the other, stop with
    a message at the first that fails, and exit in any case. *)
Theorem rm_mkdir_stop_at_failure args tr : args ≠ [] →
  (∃ cs, rm_main args tr = TExit (tr ++ cs) ∧ upto CUnlink rm_msg tr args cs) ∧
  (∃ cs, mkdir_main args tr = TExit (tr ++ cs) ∧ upto CMkdir mkdir_msg tr args cs).
Proof.
  intros Hne. destruct args as [|a0 args0]; [done|]. clear Hne. unfold rm_main, mkdir_main. generalize (a0 :: args0). intros args. split.
  - revert tr. induction args as [|a args IH]; intros tr; cbn [rm_args]; [exists []; rewrite app_nil_r; split; [done|constructor]|].
    unfold mbind at 1, T_bind at 1, sys. destruct (Z.ltb_spec (answer tr (CUnlink a)) 0) as [Hlt|Hge].
    + exists [CUnlink a; CPrint 2 (rm_msg a)]. split; [|by constructor]. unfold mbind, T_bind, tprintf. rewrite printf_rm. unfold texit. by rewrite <- app_assoc.
    + destruct (IH (tr ++ [CUnlink a])) as (cs&E&Hu). exists (CUnlink a :: cs). split; [rewrite E; by rewrite <- app_assoc|by constructor].
  - revert tr. induction args as [|a args IH]; intros tr; cbn [mkdir_args]; [exists []; rewrite app_nil_r; split; [done|constructor]|].
    unfold mbind at 1, T_bind at 1, sys. destruct (Z.ltb_spec (answer tr (CMkdir a)) 0) as [Hlt|Hge].
    + exists [CMkdir a; CPrint 2 (mkdir_msg a)]. split; [|by constructor]. unfold mbind, T_bind, tprintf. rewrite printf_mkdir. unfold texit. by rewrite <- app_assoc.
    + destruct (IH (tr ++ [CMkdir a])) as (cs&E&Hu). exists (CMkdir a :: cs). split; [rewrite E; by rewrite <- app_assoc|by constructor].
Qed.

(** [kill] sends its signals whatever the kernel answers. *)
Theorem kill_all args tr : args ≠ [] → kill_main args tr = TExit (tr ++ ((λ a, CKill (atoi a)) <$> args)).
Proof.
  intros Hne. destruct args as [|a0 args0]; [done|]. unfold kill_main. generalize (a0 :: args0). intros args. clear. revert tr.
  induction args as [|a args IH]; intros tr; cbn [kill_args]; [by rewrite app_nil_r|]. unfold mbind, T_bind, sys. rewrite IH. by rewrite <- app_assoc.
Qed.

(** *** init *)

(** One round: a shell is started, and zombies are collected until it is gone. *)
Definition start_line : call := CPrint 1 (chrs "init: starting sh" ++ [10]).
Definition zombie_line : call := CPrint 1 (chrs "zombie!" ++ [10]).

(** The calls while [pid] is waited for: the last wait has given [pid] or -1. *)
Inductive waited (pid : Z) (tr : list call) : list call → Prop :=
  | waited_end : answer tr CWait < 0 ∨ answer tr CWait = pid → waited pid tr [CWait]
  | waited_other cs : 0 ≤ answer tr CWait → answer tr CWait ≠ pid →
      waited pid (tr ++ [CWait; zombie_line]) cs → waited pid tr (CWait :: zombie_line :: cs).

(** The calls of a wait that goes on: every child that came back is another. *)
Inductive waiting (pid : Z) (tr : list call) : list call → Prop :=
  | waiting_now : waiting pid tr []
  | waiting_other cs : 0 ≤ answer tr CWait → answer tr CWait ≠ pid →
      waiting pid (tr ++ [CWait; zombie_line]) cs → waiting pid tr (CWait :: zombie_line :: cs).

Lemma init_wait_S fuel pid tr :
  init_wait (S fuel) pid tr =
  if (0 <=? answer tr CWait) && negb (answer tr CWait =? pid) then init_wait fuel pid (tr ++ [CWait; zombie_line])
  else TRet tt (tr ++ [CWait]).
Proof.
  cbn [init_wait]. unfold mbind, T_bind, sys, tprintf. destruct ((0 <=? answer tr CWait) && negb (answer tr CWait =? pid)); [|done].
  change (printf (chrs "zombie!" ++ [10]) []) with (Some (chrs "zombie!" ++ [10])). cbv iota. by rewrite <- app_assoc.
Qed.

Lemma init_wait_spec fuel pid : ∀ tr,
  (∃ cs, init_wait fuel pid tr = TRet tt (tr ++ cs) ∧ waited pid tr cs) ∨
  (∃ cs, init_wait fuel pid tr = TMore (tr ++ cs) ∧ waiting pid tr cs).
Proof.
  induction fuel as [|fuel IH]; intros tr; [right; exists []; rewrite app_nil_r; split; [done|constructor]|].
  setoid_rewrite init_wait_S. destruct (Z.leb_spec 0 (answer tr CWait)) as [Hge|Hlt]; cbn [andb].
  - destruct (Z.eqb_spec (answer tr CWait) pid) as [E|E]; cbn [negb]; [left; exists [CWait]; split; [done|constructor; by right]|].
    destruct (IH (tr ++ [CWait; zombie_line])) as [(cs&E'&Hw)|(cs&E'&Hw)]; [left|right]; exists (CWait :: zombie_line :: cs);
      rewrite <- app_assoc in E'; split; [exact E'|by constructor|exact E'|by constructor].
  - left. exists [CWait]. split; [done|constructor; by left].
Qed.

(** The rounds of [init]: each starts a shell, and the next begins only when the
    shell of the last is gone; in the last one the shell is still there. *)
Inductive rounds (tr : list call) : list call → Prop :=
  | rounds_start : rounds tr []
  | rounds_serving ws : waiting (answer (tr ++ [start_line]) CFork) (tr ++ [start_line; CFork]) ws →
      rounds tr (start_line :: CFork :: ws)
  | rounds_next ws cs : waited (answer (tr ++ [start_line]) CFork) (tr ++ [start_line; CFork]) ws →
      rounds (tr ++ start_line :: CFork :: ws) cs → rounds tr (start_line :: CFork :: ws ++ cs).

Lemma init_loop_S fuel tr : 0 < answer (tr ++ [start_line]) CFork →
  init_loop (S fuel) tr =
  match init_wait fuel (answer (tr ++ [start_line]) CFork) (tr ++ [start_line; CFork]) with
  | TRet _ tr' => init_loop fuel tr'
  | r => r
  end.
Proof.
  intros Hf. cbn [init_loop]. unfold mbind, T_bind, sys, tprintf.
  change (printf (chrs "init: starting sh" ++ [10]) []) with (Some (chrs "init: starting sh" ++ [10])). cbv iota. fold start_line.
  destruct (Z.ltb_spec (answer (tr ++ [start_line]) CFork) 0); [lia|].
  destruct (Z.eqb_spec (answer (tr ++ [start_line]) CFork) 0); [lia|]. rewrite <- app_assoc. done.
Qed.

Lemma init_loop_rounds : (∀ tr, 0 < answer tr CFork) → ∀ fuel tr, ∃ cs, init_loop fuel tr = TMore (tr ++ cs) ∧ rounds tr cs.
Proof.
  intros Hf. induction fuel as [|fuel IH]; intros tr; [exists []; rewrite app_nil_r; split; [done|constructor]|].
  setoid_rewrite init_loop_S; [|apply Hf].
  destruct (init_wait_spec fuel (answer (tr ++ [start_line]) CFork) (tr ++ [start_line; CFork])) as [(ws&->&Hw)|(ws&->&Hw)].
  - rewrite <- app_assoc. destruct (IH (tr ++ start_line :: CFork :: ws)) as (cs&E&Hr). exists (start_line :: CFork :: ws ++ cs).
    split; [|by constructor]. cbn [app] in *. rewrite E. by rewrite <- app_assoc.
  - exists (start_line :: CFork :: ws). split; [by rewrite <- app_assoc|by constructor].
Qed.

(** The calls that give [init] its three descriptors. *)
Definition console_calls : list call :=
  (if answer [] (COpen console 2) <? 0 then [COpen console 2; CMknod console 1 1; COpen console 2] else [COpen console 2])
  ++ [CDup 0; CDup 0].

(** If forks succeed, [init] opens the console (making it first where it is not
    there) with two more descriptors for it, and then runs for ever: at all times
    one shell is there or about to be started, and orphans are collected. *)
Theorem init_keeps_shell (fuel : nat) : (∀ tr, 0 < answer tr CFork) →
  ∃ cs, init_main fuel [] = TMore (console_calls ++ cs) ∧ rounds console_calls cs.
Proof.
  intros Hf. destruct (init_loop_rounds Hf fuel console_calls) as (cs&E&Hr). exists cs. split; [|exact Hr]. rewrite <- E.
  unfold init_main, console_calls, mbind, T_bind, sys. cbn [app]. by destruct (answer [] (COpen console 2) <? 0).
Qed.

(** If the first fork fails, [init] exits (and the kernel panics in [exit]). *)
Theorem init_fork_fails (fuel : nat) : answer (console_calls ++ [start_line]) CFork < 0 →
  init_main (S fuel) [] = TExit (console_calls ++ [start_line; CFork; CPrint 1 (chrs "init: fork failed" ++ [10])]).
Proof.
  intros Hf. assert (Hm : init_main (S fuel) [] = init_loop (S fuel) console_calls).
  { unfold init_main, console_calls, mbind, T_bind, sys. cbn [app]. by destruct (answer [] (COpen console 2) <? 0). }
  rewrite Hm. clear Hm. cbn [init_loop]. unfold mbind, T_bind, sys, tprintf, texit.
  change (printf (chrs "init: starting sh" ++ [10]) []) with (Some (chrs "init: starting sh" ++ [10])). cbv iota. fold start_line.
  destruct (Z.ltb_spec (answer (console_calls ++ [start_line]) CFork) 0); [|lia].
  change (printf (chrs "init: fork failed" ++ [10]) []) with (Some (chrs "init: fork failed" ++ [10])). cbv iota. by rewrite <- !app_assoc.
Qed.
End progs.

(** ** grep.c: main *)

Section grep_main.
(** The files that can be opened, each with what its reads return at most. *)
Context (files : list Z → option (list nat * list Z)).

(** What is written to descriptors 1 and 2. *)
Fixpoint grep_args (pattern : list Z) (args : list (list Z)) : option (list Z) :=
  match args with
  | [] => Some []
  | a :: args' =>
      match files a with
      | None => printf (chrs "grep: cannot open %s" ++ [10]) [APtr (Some a)]
      | Some (reads, input) =>
          rest ← grep_args pattern args';
          Some (grep reads pattern input ++ rest)
      end
  end.
Definition grep_main (stdin : list nat * list Z) (args : list (list Z)) : option (list Z * list Z) :=
  match args with
  | [] => err ← printf (chrs "usage: grep pattern [file ...]" ++ [10]) []; Some ([], err)
  | [pattern] => Some (grep (fst stdin) pattern (snd stdin), [])
  | pattern :: args' => out ← grep_args pattern args'; Some (out, [])
  end.

(** The file [a] has the lines [ls], and its reads fill the buffer. *)
Definition has_lines (a : list Z) (ls : list (list Z)) : Prop :=
  ∃ reads, files a = Some (reads, text_of ls) ∧ Forall line ls ∧ Forall (λ l, length l < GREPBUF)%nat ls ∧
    Forall (λ r, GREPBUF ≤ r)%nat reads ∧ (length (text_of ls) < length reads)%nat.

(** [grep] prints the matching lines of one file after the other, up to the first
    that it cannot open. *)
Theorem grep_main_correct stdin pattern (fs : list (list Z * list (list Z))) missing :
  fs ≠ [] ∨ missing ≠ None → Forall (λ f, has_lines f.1 f.2) fs → (∀ a, missing = Some a → files a = None) →
  grep_main stdin (pattern :: (fst <$> fs) ++ option_list missing) =
  Some (concat (matching pattern ∘ snd <$> fs) ++
        match missing with Some a => chrs "grep: cannot open " ++ cstr a ++ [10] | None => [] end, []).
Proof.
  intros Hne HF Hm.
  assert (E : grep_args pattern ((fst <$> fs) ++ option_list missing) =
    Some (concat (matching pattern ∘ snd <$> fs) ++
        match missing with Some a => chrs "grep: cannot open " ++ cstr a ++ [10] | None => [] end)).
  { clear Hne. induction HF as [|[a ls] fs (reads&Ef&Hl&Hs&Hr&Hn) HF IH]; cbn [fmap list_fmap app concat fst snd].
    - destruct missing as [a|]; [|done]. unfold option_list, option_rect, from_option. cbn [app grep_args]. by rewrite (Hm a eq_refl).
    - cbn [grep_args]. cbn [fst snd] in Ef, Hl, Hs, Hn. rewrite Ef.
      change (grep_args pattern ((fst <$> fs) ++ option_list missing) ≫= (λ rest, Some (grep reads pattern (text_of ls) ++ rest)) =
        Some ((matching pattern ls ++ concat (matching pattern ∘ snd <$> fs)) ++
          match missing with Some a => chrs "grep: cannot open " ++ cstr a ++ [10] | None => [] end)).
      rewrite IH. cbn [mbind option_bind]. rewrite <- app_assoc. do 2 f_equal. unfold grep. apply grep_loop_spec; try done. by split; constructor. }
  unfold grep_main. destruct ((fst <$> fs) ++ option_list missing) eqn:El.
  { destruct fs; [|done]. destruct missing; [done|]. by destruct Hne. }
  by rewrite E.
Qed.
End grep_main.

(** ** Runs of the programs *)
Module Demo.

(** A kernel that has only the files [a] and [c] to remove, forks with pid 3, and
    gives an orphan once before the shell. *)
Definition answer (tr : list call) (c : call) : Z :=
  match c with
  | CUnlink p => if bool_decide (p = chrs "b") then -1 else 0
  | CFork => 3
  | CWait => if bool_decide (length tr = 5%nat) then 9 else 3
  | COpen _ _ => 0
  | _ => 0
  end.

Lemma rm_mkdir_witness :
  rm_main answer [chrs "a"; chrs "b"; chrs "c"] [] =
    TExit [CUnlink (chrs "a"); CUnlink (chrs "b"); CPrint 2 (chrs "rm: b failed to delete" ++ [10])] ∧
  (∃ cs, rm_main answer [chrs "a"; chrs "b"; chrs "c"] [] = TExit ([] ++ cs) ∧
    upto answer CUnlink rm_msg [] [chrs "a"; chrs "b"; chrs "c"] cs).
Proof. split; [reflexivity|]. apply (rm_mkdir_stop_at_failure answer [chrs "a"; chrs "b"; chrs "c"] []). discriminate. Defined.

Lemma init_keeps_shell_witness :
  init_main answer 3 [] =
    TMore ([COpen console 2; CDup 0; CDup 0] ++
           [start_line; CFork; CWait; zombie_line; CWait; start_line; CFork; CWait; start_line; CFork]) ∧
  (∃ cs, init_main answer 3 [] = TMore (console_calls answer ++ cs) ∧ rounds answer (console_calls answer) cs).
Proof. split; [reflexivity|]. apply (init_keeps_shell answer 3). intros tr. reflexivity. Defined.
End Demo.
