(* ===== verification/Console.v ===== *)
(** * The console (console.c)

    Output goes to the serial line and to the screen, 25 rows of 80 cells in
    video memory with the cursor in two registers of its controller.  Input
    is edited a line at a time in a ring of 128 bytes.  [cprintf] is in the
    model of formatted output. *)

From S2P Require Import Prelude.

Definition BACKSPACE : Z := 256.
Definition INPUT_BUF : Z := 128.
(** Control-x. *)
Definition C (x : Z) : Z := x - 64.

Record cons := mkcons {
  cn_lock : bool;
  cn_panicked : bool;
  cn_buf : list Z;
  cn_r : Z;
  cn_w : Z;
  cn_e : Z;
  cn_asleep : bool;             (** a reader is asleep on [&input.r] *)
  crt : list Z;
  crt_hi : Z;                   (** registers 14 and 15 *)
  crt_lo : Z;
  uart : list Z                 (** sent on the serial line *)
}.

Definition set_cn_lock (v : bool) (s : cons) : cons :=
  mkcons v (cn_panicked s) (cn_buf s) (cn_r s) (cn_w s) (cn_e s) (cn_asleep s) (crt s) (crt_hi s) (crt_lo s) (uart s).
Definition set_input (buf : list Z) (r w e : Z) (s : cons) : cons :=
  mkcons (cn_lock s) (cn_panicked s) buf r w e (cn_asleep s) (crt s) (crt_hi s) (crt_lo s) (uart s).
Definition set_asleep (v : bool) (s : cons) : cons :=
  mkcons (cn_lock s) (cn_panicked s) (cn_buf s) (cn_r s) (cn_w s) (cn_e s) v (crt s) (crt_hi s) (crt_lo s) (uart s).
Definition set_crt (v : list Z) (s : cons) : cons :=
  mkcons (cn_lock s) (cn_panicked s) (cn_buf s) (cn_r s) (cn_w s) (cn_e s) (cn_asleep s) v (crt_hi s) (crt_lo s) (uart s).
Definition set_cursor (hi lo : Z) (s : cons) : cons :=
  mkcons (cn_lock s) (cn_panicked s) (cn_buf s) (cn_r s) (cn_w s) (cn_e s) (cn_asleep s) (crt s) hi lo (uart s).
Definition set_uart (v : list Z) (s : cons) : cons :=
  mkcons (cn_lock s) (cn_panicked s) (cn_buf s) (cn_r s) (cn_w s) (cn_e s) (cn_asleep s) (crt s) (crt_hi s) (crt_lo s) v.

Definition acquire_cons : M cons unit := acquire cn_lock set_cn_lock.
Definition release_cons : M cons unit := release cn_lock set_cn_lock.

(** ** Output *)

Definition crt_store (pos v : Z) : M cons unit := λ s,
  if (0 <=? pos) && (pos <? Z.of_nat (length (crt s))) then Done tt (set_crt (<[Z.to_nat pos:=v]> (crt s)) s) else Undef.

(** The rows move up by one, and the screen is cleared from [pos] on. *)
Definition scroll (pos : Z) (l : list Z) : list Z :=
  let l := splice 0 (slice 80 (23 * 80) l) l in
  splice (Z.to_nat pos) (replicate (Z.to_nat (24 * 80 - pos)) 0) l.

Definition cgaputc (c : Z) : M cons unit :=
  s ← gets id;
  let pos := Z.lor (Z.shiftl (crt_hi s) 8) (crt_lo s) in
  pos ← (if c =? 10 then mret (pos + (80 - pos mod 80))
         else if c =? BACKSPACE then mret (if 0 <? pos then pos - 1 else pos)
         else crt_store pos (Z.lor (Z.land c 255) 1792);; mret (pos + 1));
  if (pos <? 0) || (25 * 80 <? pos) then panic "pos under/overflow"
  else
    pos ← (if 24 <=? pos / 80 then
             modify (λ s, set_crt (scroll (pos - 80) (crt s)) s);; mret (pos - 80)
           else mret pos);
    modify (set_cursor (u8 (Z.shiftr pos 8)) (u8 pos));;
    crt_store pos (Z.lor 32 1792).

Definition uartputc (c : Z) : M cons unit := modify (λ s, set_uart (uart s ++ [c]) s).

Definition consputc (c : Z) : M cons unit :=
  s ← gets id;
  if cn_panicked s then diverge
  else
    (if c =? BACKSPACE then uartputc 8;; uartputc 32;; uartputc 8 else uartputc c);;
    cgaputc c.

(** ** Input *)

Definition move_e (d : Z) (s : cons) : cons := set_input (cn_buf s) (cn_r s) (cn_w s) (u32 (cn_e s + d)) s.
Definition move_r (d : Z) (s : cons) : cons := set_input (cn_buf s) (u32 (cn_r s + d)) (cn_w s) (cn_e s) s.
Definition commit_line (s : cons) : cons := set_input (cn_buf s) (cn_r s) (cn_e s) (cn_e s) s.
(** [input.buf[input.e++ % INPUT_BUF] = c]. *)
Definition store_char (c : Z) (s : cons) : cons :=
  set_input (<[Z.to_nat (cn_e s mod INPUT_BUF):=u8 c]> (cn_buf s)) (cn_r s) (cn_w s) (u32 (cn_e s + 1)) s.

Fixpoint kill_line (fuel : nat) : M cons unit :=
  match fuel with
  | O => diverge
  | S fuel' =>
      s ← gets id;
      if negb (cn_e s =? cn_w s) && negb (cn_buf s !!! Z.to_nat (u32 (cn_e s - 1) mod INPUT_BUF) =? 10) then
        modify (move_e (-1));;
        consputc BACKSPACE;;
        kill_line fuel'
      else mret tt
  end.

(** One turn of the loop of [consoleintr]; whether to list the processes. *)
Definition console_char (c : Z) : M cons bool :=
  if c =? C 80 then mret true
  else if c =? C 85 then kill_line (S (Z.to_nat INPUT_BUF));; mret false
  else if (c =? C 72) || (c =? 127) then
    s ← gets id;
    (if negb (cn_e s =? cn_w s) then modify (move_e (-1));; consputc BACKSPACE else mret tt);;
    mret false
  else
    s ← gets id;
    if negb (c =? 0) && (u32 (cn_e s - cn_r s) <? INPUT_BUF) then
      let c := if c =? 13 then 10 else c in
      modify (store_char c);;
      consputc c;;
      s ← gets id;
      (if (c =? 10) || (c =? C 68) || (cn_e s =? u32 (cn_r s + INPUT_BUF)) then
         modify commit_line;; modify (set_asleep false)
       else mret tt);;
      mret false
    else mret false.

(** [cs] is what [getc] delivers before it returns a negative value. *)
Fixpoint intr_loop (cs : list Z) : M cons bool :=
  match cs with
  | [] => mret false
  | c :: cs' =>
      b ← console_char c;
      b' ← intr_loop cs';
      mret (b || b')
  end.
Definition consoleintr (cs : list Z) : M cons bool :=
  acquire_cons;;
  b ← intr_loop cs;
  release_cons;;
  mret b.

(** A run of [consoleread] up to its return or to a [sleep]: the bytes stored
    so far, and how many are still wanted. *)
Inductive cread := CRet (r : Z) (bytes : list Z) | CSleep (bytes : list Z) (n : nat).

(** The loop with [n] bytes to go; [got] is what has been stored. *)
Fixpoint read_loop (killed : bool) (got : list Z) (n : nat) : M cons cread :=
  match n with
  | O => release_cons;; mret (CRet (Z.of_nat (length got)) got)
  | S n' =>
      s ← gets id;
      if cn_r s =? cn_w s then
        if killed then release_cons;; mret (CRet (-1) got)
        else release_cons;; modify (set_asleep true);; mret (CSleep got n)
      else
        let c := cn_buf s !!! Z.to_nat (cn_r s mod INPUT_BUF) in
        modify (move_r 1);;
        if c =? C 68 then
          (if (0 <? length got)%nat then modify (move_r (-1)) else mret tt);;
          release_cons;;
          mret (CRet (Z.of_nat (length got)) got)
        else if c =? 10 then release_cons;; mret (CRet (Z.of_nat (length (got ++ [c]))) (got ++ [c]))
        else read_loop killed (got ++ [c]) n'
  end.

(** The run that starts a read ([got] empty), or one after a [sleep]. *)
Definition consoleread (killed : bool) (got : list Z) (n : nat) : M cons cread :=
  acquire_cons;;
  read_loop killed got n.

Fixpoint put_all (l : list Z) : M cons unit :=
  match l with [] => mret tt | c :: l' => consputc (Z.land c 255);; put_all l' end.
Definition consolewrite (buf : list Z) (n : Z) : M cons Z :=
  acquire_cons;;
  put_all (take (Z.to_nat n) buf);;
  release_cons;;
  mret n.

(** ** The screen *)

(** The cursor is in the first 24 of the 25 rows. *)
Definition screen (s : cons) : Prop :=
  cn_panicked s = false ∧ length (crt s) = 2000%nat ∧
  ∃ pos, 0 ≤ pos < 1920 ∧ crt_hi s = pos / 256 ∧ crt_lo s = pos mod 256.

(** Everything but the screen and the serial line. *)
Definition inp (s : cons) : bool * list Z * Z * Z * Z * bool := (cn_lock s, cn_buf s, cn_r s, cn_w s, cn_e s, cn_asleep s).

Lemma cursor_pos pos : 0 ≤ pos → Z.lor (Z.shiftl (pos / 256) 8) (pos mod 256) = pos.
Proof.
  intros Hp. change 256 with (2 ^ 8). rewrite <- Z.shiftr_div_pow2, <- Z.land_ones by lia. apply Z.bits_inj'. intros n Hn.
  rewrite Z.lor_spec, Z.land_spec.
  destruct (Z.ltb_spec n 8) as [Hlt|Hge].
  - rewrite Z.shiftl_spec_low, Z.ones_spec_low by lia. by rewrite andb_true_r.
  - rewrite Z.shiftl_spec_high, Z.shiftr_spec, Z.ones_spec_high by lia. rewrite Z.sub_add, andb_false_r. apply orb_false_r.
Qed.

Lemma crt_store_wp pos v s Q : length (crt s) = 2000%nat → 0 ≤ pos < 2000 →
  Q tt (set_crt (<[Z.to_nat pos:=v]> (crt s)) s) → wp (crt_store pos v) Q s.
Proof.
  intros Hl Hp HQ. unfold wp, crt_store. rewrite Hl.
  destruct (Z.leb_spec 0 pos); [|lia]. destruct (Z.ltb_spec pos (Z.of_nat 2000)); [|lia]. done.
Qed.

(** The end of [cgaputc]: scroll if the cursor left the 24 rows, store it. *)
Lemma cga_end pos s : cn_panicked s = false → length (crt s) = 2000%nat → 0 ≤ pos ≤ 1920 →
  wp (if (pos <? 0) || (25 * 80 <? pos) then panic "pos under/overflow"
      else
        pos ← (if 24 <=? pos / 80 then modify (λ s, set_crt (scroll (pos - 80) (crt s)) s);; mret (pos - 80) else mret pos);
        modify (set_cursor (u8 (Z.shiftr pos 8)) (u8 pos));;
        crt_store pos (Z.lor 32 1792))
     (λ _ s', screen s' ∧ inp s' = inp s) s.
Proof.
  intros Hp Hl Hpos. destruct (Z.ltb_spec pos 0); [lia|]. destruct (Z.ltb_spec (25 * 80) pos); [lia|]. cbn [orb].
  assert (∀ pos' s', cn_panicked s' = false → length (crt s') = 2000%nat → 0 ≤ pos' < 1920 → inp s' = inp s →
    wp (modify (set_cursor (u8 (Z.shiftr pos' 8)) (u8 pos'));; crt_store pos' (Z.lor 32 1792)) (λ _ s', screen s' ∧ inp s' = inp s) s') as Hend.
  { intros pos' s' H1 H2 H3 H4. wp_steps. apply crt_store_wp; [done|lia|]. split; [|done]. split; [done|].
    split; [simpl; by rewrite length_insert|]. exists pos'. split; [lia|]. cbn [crt_hi crt_lo set_crt set_cursor].
    rewrite Z.shiftr_div_pow2 by lia. unfold u8. change (2 ^ 8) with 256. split; [|done]. apply Z.mod_small. dlia. }
  destruct (Z.leb_spec 24 (pos / 80)) as [Hs|Hs].
  - assert (pos = 1920) as -> by dlia. wp_steps. apply Hend; [done| |lia|done]. cbn [crt set_crt]. unfold scroll.
    rewrite !length_splice; [done|rewrite length_slice; lia|]. rewrite length_splice by (rewrite length_slice; lia).
    rewrite length_replicate, Hl. apply Nat.leb_le. by vm_compute.
  - wp_steps. apply Hend; [done|done|dlia|done].
Qed.

Lemma cgaputc_wp c s : screen s → wp (cgaputc c) (λ _ s', screen s' ∧ inp s' = inp s) s.
Proof.
  intros (Hp&Hl&pos&Hpos&Hhi&Hlo). unfold cgaputc. wp_steps. unfold id. rewrite Hhi, Hlo, cursor_pos by lia.
  destruct (Z.eqb_spec c 10).
  { wp_steps. apply cga_end; [done..|dlia]. }
  destruct (Z.eqb_spec c BACKSPACE).
  { wp_steps. apply cga_end; [done..|]. destruct (Z.ltb_spec 0 pos); lia. }
  wp_steps. apply crt_store_wp; [done|lia|]. wp_steps.
  apply (cga_end (pos + 1) (set_crt _ s)); [done|simpl; by rewrite length_insert|lia].
Qed.

Lemma consputc_wp c s : screen s → wp (consputc c) (λ _ s', screen s' ∧ inp s' = inp s) s.
Proof.
  intros Hs. unfold consputc. wp_steps. unfold id. pose proof Hs as (->&_).
  destruct (c =? BACKSPACE); unfold uartputc; wp_steps;
    (eapply wp_mono; [apply cgaputc_wp; exact Hs|]); done.
Qed.

(** ** The line discipline *)

(** Bytes that can be read, and the line that is being edited. *)
Record line := mkline { ready : list Z; pending : list Z }.

Definition edit (a : line) (c : Z) : line :=
  if c =? C 80 then a
  else if c =? C 85 then mkline (ready a) []
  else if (c =? C 72) || (c =? 127) then mkline (ready a) (removelast (pending a))
  else if (c =? 0) || (128 <=? length (ready a) + length (pending a))%nat then a
  else
    let c := if c =? 13 then 10 else c in
    let p := pending a ++ [c] in
    if (c =? 10) || (c =? C 68) || (length (ready a) + length p =? 128)%nat then mkline (ready a ++ p) []
    else mkline (ready a) p.

(** A read of [n] more bytes: how it ends, and the bytes that stay. *)
Fixpoint take_line (killed : bool) (got : list Z) (n : nat) (q : list Z) : cread * list Z :=
  match n with
  | O => (CRet (Z.of_nat (length got)) got, q)
  | S n' =>
      match q with
      | [] => (if killed then CRet (-1) got else CSleep got n, [])
      | c :: q' =>
          if c =? C 68 then (CRet (Z.of_nat (length got)) got, if (0 <? length got)%nat then q else q')
          else if c =? 10 then (CRet (Z.of_nat (length (got ++ [c]))) (got ++ [c]), q')
          else take_line killed (got ++ [c]) n' q'
      end
  end.

(** The input buffer holds [ready] and [pending]; no reader sleeps while
    there is something to read. *)
Record crel (s : cons) (a : line) : Prop := {
  cr_screen : screen s;
  cr_buf : length (cn_buf s) = 128%nat;
  cr_len : (length (ready a) + length (pending a) ≤ 128)%nat;
  cr_r : 0 ≤ cn_r s < 2 ^ 32;
  cr_w : cn_w s = u32 (cn_r s + Z.of_nat (length (ready a)));
  cr_e : cn_e s = u32 (cn_r s + Z.of_nat (length (ready a) + length (pending a)));
  cr_bytes k : (k < length (ready a) + length (pending a))%nat →
    cn_buf s !! Z.to_nat ((cn_r s + Z.of_nat k) mod 128) = (ready a ++ pending a) !! k;
  cr_asleep : cn_asleep s = true → ready a = []
}.

Lemma u32_mod128 x : u32 x mod 128 = x mod 128.
Proof. unfold u32. apply Z.mod_mod_divide. by exists (2 ^ 25). Qed.

(** Only the screen has changed. *)
Lemma crel_inp s s' a : crel s a → screen s' → inp s' = inp s → crel s' a.
Proof. intros [] Hs [= _ E1 E2 E3 E4 E5]. split; rewrite ?E1, ?E2, ?E3, ?E4, ?E5; done. Qed.

Lemma consputc_crel c s a b : crel s a → cn_lock s = b → wp (consputc c) (λ _ s', crel s' a ∧ cn_lock s' = b) s.
Proof.
  intros H Hb. eapply wp_mono; [apply consputc_wp, H|]. intros _ s' [H1 H2]. split; [by eapply crel_inp|]. injection H2. congruence.
Qed.

(** Nothing is being edited. *)
Lemma crel_ew s a : crel s a → (cn_e s =? cn_w s) = (length (pending a) =? 0)%nat.
Proof.
  intros []. rewrite cr_e0, cr_w0. destruct (Nat.eqb_spec (length (pending a)) 0) as [->|Hne].
  - rewrite Nat.add_0_r. apply Z.eqb_refl.
  - apply Z.eqb_neq. unfold u32. dlia.
Qed.
Lemma crel_rw s a : crel s a → (cn_r s =? cn_w s) = (length (ready a) =? 0)%nat.
Proof.
  intros []. rewrite cr_w0. destruct (Nat.eqb_spec (length (ready a)) 0) as [->|Hne].
  - rewrite Z.add_0_r, u32_small by lia. apply Z.eqb_refl.
  - apply Z.eqb_neq. unfold u32. dlia.
Qed.
Lemma crel_used s a : crel s a → u32 (cn_e s - cn_r s) = Z.of_nat (length (ready a) + length (pending a)).
Proof. intros []. rewrite cr_e0. unfold u32. dlia. Qed.
Lemma crel_full s a : crel s a → (cn_e s =? u32 (cn_r s + INPUT_BUF)) = (length (ready a) + length (pending a) =? 128)%nat.
Proof.
  intros []. rewrite cr_e0. unfold INPUT_BUF. destruct (Nat.eqb_spec (length (ready a) + length (pending a)) 128) as [->|Hne].
  - apply Z.eqb_refl.
  - apply Z.eqb_neq. unfold u32. dlia.
Qed.

Lemma crel_store s a c : crel s a → (length (ready a) + length (pending a) < 128)%nat → 0 ≤ c < 256 →
  crel (store_char c s) (mkline (ready a) (pending a ++ [c])).
Proof.
  intros [] Hlt Hc. split; cbn [store_char set_input cn_buf cn_r cn_w cn_e cn_asleep ready pending]; try done.
  - by rewrite length_insert.
  - rewrite length_app; simpl; lia.
  - rewrite cr_e0, length_app. simpl. unfold u32. dlia.
  - intros k Hk. rewrite length_app in Hk. simpl in Hk. rewrite cr_e0, app_assoc. unfold INPUT_BUF. rewrite u32_mod128.
    unfold u8. rewrite (Z.mod_small c) by lia. destruct (decide (k = length (ready a) + length (pending a))%nat) as [->|Hne].
    + rewrite list_lookup_insert_eq by dlia. by rewrite lookup_app_r, length_app, Nat.sub_diag by (rewrite length_app; lia).
    + rewrite list_lookup_insert_ne by dlia. rewrite lookup_app_l by (rewrite length_app; lia). apply cr_bytes0. lia.
Qed.

Lemma crel_commit s a : crel s a → crel (set_asleep false (commit_line s)) (mkline (ready a ++ pending a) []).
Proof.
  intros []. split; cbn [commit_line set_asleep set_input cn_buf cn_r cn_w cn_e cn_asleep ready pending length]; rewrite ?length_app, ?Nat.add_0_r; try done.
  intros k Hk. rewrite app_nil_r. by apply cr_bytes0.
Qed.

Lemma crel_back s a p c : crel s a → pending a = p ++ [c] → crel (move_e (-1) s) (mkline (ready a) p).
Proof.
  intros [] Hp. rewrite Hp, length_app in *. simpl in *.
  split; cbn [move_e set_input cn_buf cn_r cn_w cn_e cn_asleep ready pending]; try done; [lia| |].
  - rewrite cr_e0. unfold u32. dlia.
  - intros k Hk. rewrite cr_bytes0 by lia. rewrite app_assoc. apply lookup_app_l. rewrite length_app. lia.
Qed.

Lemma crel_last s a p c : crel s a → pending a = p ++ [c] → cn_buf s !!! Z.to_nat (u32 (cn_e s - 1) mod INPUT_BUF) = c.
Proof.
  intros [] Hp. rewrite Hp, length_app in *. simpl in *. apply list_lookup_total_correct. unfold INPUT_BUF. rewrite u32_mod128, cr_e0.
  specialize (cr_bytes0 (length (ready a) + length p)%nat ltac:(lia)).
  replace ((u32 (cn_r s + Z.of_nat (length (ready a) + (length p + 1))) - 1) mod 128) with ((cn_r s + Z.of_nat (length (ready a) + length p)) mod 128) by (unfold u32; dlia).
  rewrite cr_bytes0, app_assoc, lookup_app_r, length_app, Nat.sub_diag by (rewrite length_app; lia). done.
Qed.

Lemma crel_drop s a c q : crel s a → ready a = c :: q →
  cn_buf s !!! Z.to_nat (cn_r s mod INPUT_BUF) = c ∧ crel (move_r 1 s) (mkline q (pending a)) ∧ move_r (-1) (move_r 1 s) = s.
Proof.
  intros [] Hq. rewrite Hq in *. simpl in *. split_and!.
  - apply list_lookup_total_correct. specialize (cr_bytes0 0%nat ltac:(lia)). by rewrite Z.add_0_r in cr_bytes0.
  - split; cbn [move_r set_input cn_buf cn_r cn_w cn_e cn_asleep ready pending]; try done;
      [lia|unfold u32; dlia|rewrite cr_w0; unfold u32; dlia|rewrite cr_e0; unfold u32; dlia| |].
    + intros k Hk. rewrite <- Z.add_mod_idemp_l, u32_mod128, Z.add_mod_idemp_l by lia. specialize (cr_bytes0 (S k) ltac:(lia)). simpl in cr_bytes0.
      rewrite <- cr_bytes0. do 3 f_equal. lia.
    + intros E. by specialize (cr_asleep0 E).
  - unfold move_r, set_input. destruct s; simpl in *. f_equal. unfold u32. dlia.
Qed.

Lemma snoc_cases {A} (l : list A) : l = [] ∨ ∃ l' x, l = l' ++ [x].
Proof. destruct l as [|l x _] using rev_ind; [by left|right; eauto]. Qed.

Lemma kill_line_wp fuel : ∀ s a, crel s a → cn_lock s = true → Forall (λ c, c ≠ 10) (pending a) → (length (pending a) < fuel)%nat →
  wp (kill_line fuel) (λ _ s', crel s' (mkline (ready a) []) ∧ cn_lock s' = true) s.
Proof.
  induction fuel as [|fuel IH]; intros s a Ha Hl Hnl Hf; [lia|]. cbn [kill_line]. wp_steps. unfold id. rewrite (crel_ew s a Ha).
  destruct (snoc_cases (pending a)) as [Hp|(p&c&Hp)].
  - rewrite Hp. wp_steps. split; [|done]. destruct a; simpl in *; by subst.
  - rewrite (crel_last s a p c Ha Hp), Hp, length_app. rewrite Hp in Hnl. apply Forall_app in Hnl as [Hnl [Hc _]%Forall_cons].
    rewrite Nat.add_comm. cbn [length Nat.add Nat.eqb negb andb]. rewrite (proj2 (Z.eqb_neq c 10) Hc). cbn [negb]. wp_steps.
    eapply wp_mono; [apply (consputc_crel _ _ (mkline (ready a) p) true); [by eapply crel_back|done]|].
    intros _ s1 [H1 H2]. apply (IH s1 (mkline (ready a) p)); [done..|]. rewrite Hp, length_app in Hf. simpl in *. lia.
Qed.

(** The state while the console's lock is held. *)
Definition held (s : cons) (a : line) : Prop := crel s a ∧ cn_lock s = true ∧ Forall (λ c, c ≠ 10) (pending a).

Lemma console_char_wp c s a : held s a → 0 ≤ c < 256 → wp (console_char c) (λ _ s', held s' (edit a c)) s.
Proof.
  intros (Ha&Hl&Hnl) Hc. unfold console_char, edit. destruct (c =? C 80); [by wp_steps|]. destruct (c =? C 85).
  { wp_steps. eapply wp_mono; [apply kill_line_wp; [exact Ha|done..|]|].
    - pose proof (cr_len _ _ Ha). unfold INPUT_BUF. lia.
    - intros _ s' [? ?]. by wp_steps. }
  destruct (_ || _).
  { wp_steps. unfold id. rewrite (crel_ew s a Ha). destruct (snoc_cases (pending a)) as [Hp|(p&x&Hp)]; rewrite Hp.
    - wp_steps. split_and!; [|done|constructor]. destruct a; simpl in *; by subst.
    - rewrite length_app, Nat.add_comm, removelast_last. simpl. wp_steps.
      eapply wp_mono; [apply (consputc_crel _ _ (mkline (ready a) p) true); [by eapply crel_back|done]|].
      intros _ s1 [H1 H2]. wp_steps. split_and!; [done..|]. rewrite Hp in Hnl. by apply Forall_app in Hnl as [? _]. }
  wp_steps. unfold id. rewrite (crel_used s a Ha). unfold INPUT_BUF at 1. destruct (Z.eqb_spec c 0) as [Hz|Hz]; [by wp_steps|].
  cbn [negb andb orb]. destruct (Z.ltb_spec (Z.of_nat (length (ready a) + length (pending a))) 128) as [Hlt|Hge].
  2:{ rewrite (proj2 (Nat.leb_le 128 _)) by lia. by wp_steps. }
  rewrite (proj2 (Nat.leb_gt 128 _)) by lia. set (c' := if c =? 13 then 10 else c).
  assert (0 ≤ c' < 256) as Hc' by (unfold c'; destruct (c =? 13); lia). wp_steps.
  eapply wp_mono; [apply (consputc_crel _ _ (mkline (ready a) (pending a ++ [c'])) true); [apply crel_store; [done|lia|done]|done]|].
  intros _ s1 [H1 H2]. wp_steps. unfold id. rewrite (crel_full _ _ H1). cbn [ready pending].
  destruct (Z.eqb_spec c' 10) as [Hn|Hn]; cbn [orb]; [wp_steps; split_and!; [by apply (crel_commit _ _ H1)|done|constructor]|].
  destruct (_ || _); wp_steps; [split_and!; [by apply (crel_commit _ _ H1)|done|constructor]|].
  split_and!; [done..|]. apply Forall_app. split; [done|by constructor].
Qed.

Lemma intr_loop_wp cs : ∀ s a, held s a → Forall (λ c, 0 ≤ c < 256) cs → wp (intr_loop cs) (λ _ s', held s' (foldl edit a cs)) s.
Proof.
  induction cs as [|c cs IH]; intros s a Ha Hcs; cbn [intr_loop foldl]; wp_steps; [done|]. apply Forall_cons in Hcs as [Hc Hcs].
  eapply wp_mono; [by apply console_char_wp|]. intros b s1 H1. wp_steps. eapply wp_mono; [apply (IH _ (edit a c)); [exact H1|done]|]. intros b' s2 H2. by wp_steps.
Qed.

Definition unlocked (s : cons) (a : line) : Prop := crel s a ∧ cn_lock s = false ∧ Forall (λ c, c ≠ 10) (pending a).

Lemma unlocked_acquire s a Q : unlocked s a → (∀ s', held s' a → Q tt s') → wp acquire_cons Q s.
Proof.
  intros (Ha&Hl&Hn) HQ. apply wp_acquire; [done|]. apply HQ. split_and!; [|done..]. by destruct Ha.
Qed.
Lemma held_release s a Q : held s a → (∀ s', unlocked s' a → Q tt s') → wp release_cons Q s.
Proof.
  intros (Ha&Hl&Hn) HQ. apply wp_release; [done|]. apply HQ. split_and!; [|done..]. by destruct Ha.
Qed.

Lemma read_loop_wp killed n : ∀ got s a, held s a →
  wp (read_loop killed got n) (λ r s', r = (take_line killed got n (ready a)).1 ∧
    unlocked s' (mkline (take_line killed got n (ready a)).2 (pending a))) s.
Proof.
  induction n as [|n IH]; intros got s a Ha; cbn [read_loop take_line].
  { wp_steps. eapply held_release; [exact Ha|]. intros s' H'. wp_steps. split; [done|]. by destruct a. }
  wp_steps. unfold id. rewrite (crel_rw s a (proj1 Ha)). destruct (ready a) as [|c q] eqn:Hq; cbn [length Nat.eqb].
  { assert (a = mkline [] (pending a)) as Ea by (destruct a; simpl in *; by subst).
    destruct killed; wp_steps; (eapply held_release; [exact Ha|]); intros s' H'; wp_steps; (split; [done|]); cbn [fst snd]; rewrite <- Ea; [done|].
    destruct H' as ([]&?&?). split_and!; [|done..]. by split. }
  destruct Ha as (Ha&Hl&Hn). destruct (crel_drop s a c q Ha Hq) as (E1&E2&E3). rewrite E1. wp_steps.
  assert (held (move_r 1 s) (mkline q (pending a))) as Hd by done.
  destruct (c =? C 68).
  { wp_steps. destruct (0 <? length got)%nat; wp_steps.
    - rewrite E3. eapply (held_release s a); [done|]. intros s' H'. wp_steps. split; [done|]. by destruct a; simpl in *; subst.
    - eapply held_release; [exact Hd|]. intros s' H'. by wp_steps. }
  destruct (c =? 10).
  { wp_steps. eapply held_release; [exact Hd|]. intros s' H'. by wp_steps. }
  apply (IH (got ++ [c]) _ (mkline q (pending a)) Hd).
Qed.

(** What can happen to the console, and to its abstract state. *)
Inductive cstep : cons * line → cons * line → Prop :=
  | cs_intr s a cs b s' : Forall (λ c, 0 ≤ c < 256) cs → consoleintr cs s = Done b s' → cstep (s, a) (s', foldl edit a cs)
  | cs_read s a killed got n r s' : consoleread killed got n s = Done r s' →
      cstep (s, a) (s', mkline (take_line killed got n (ready a)).2 (pending a))
  | cs_write s a buf n r s' : consolewrite buf n s = Done r s' → cstep (s, a) (s', a).

Lemma consoleintr_wp cs s a : unlocked s a → Forall (λ c, 0 ≤ c < 256) cs → wp (consoleintr cs) (λ _ s', unlocked s' (foldl edit a cs)) s.
Proof.
  intros Ha Hcs. unfold consoleintr. wp_steps. eapply unlocked_acquire; [exact Ha|]. intros s1 H1. wp_steps.
  eapply wp_mono; [by apply intr_loop_wp|]. intros b s2 H2. wp_steps. eapply held_release; [exact H2|]. intros s3 H3. by wp_steps.
Qed.

Lemma consoleread_wp killed got n s a : unlocked s a →
  wp (consoleread killed got n) (λ r s', r = (take_line killed got n (ready a)).1 ∧ unlocked s' (mkline (take_line killed got n (ready a)).2 (pending a))) s.
Proof. intros Ha. unfold consoleread. wp_steps. eapply unlocked_acquire; [exact Ha|]. intros s1 H1. by apply read_loop_wp. Qed.

Lemma consolewrite_wp buf n s a : unlocked s a → wp (consolewrite buf n) (λ r s', r = n ∧ unlocked s' a) s.
Proof.
  intros Ha. unfold consolewrite. wp_steps. eapply unlocked_acquire; [exact Ha|]. intros s1 H1. wp_steps.
  assert (∀ l s, held s a → wp (put_all l) (λ _ s', held s' a) s) as Hput.
  { induction l as [|c l IH]; intros s2 H2; cbn [put_all]; wp_steps; [done|]. destruct H2 as (H2&Hl&Hn).
    eapply wp_mono; [by apply (consputc_crel _ _ a true)|]. intros _ s3 [? ?]. by apply IH. }
  eapply wp_mono; [by apply Hput|]. intros [] s2 H2. wp_steps. eapply held_release; [exact H2|]. intros s3 H3. by wp_steps.
Qed.

Lemma cstep_unlocked x y : unlocked x.1 x.2 → cstep x y → unlocked y.1 y.2.
Proof.
  intros Hx Hs. destruct Hs as [s a cs b s' Hcs E|s a killed got n r s' E|s a buf n r s' E]; simpl in *.
  - exact (wp_elim _ _ _ _ _ (consoleintr_wp cs s a Hx Hcs) E).
  - exact (proj2 (wp_elim _ _ _ _ _ (consoleread_wp killed got n s a Hx) E)).
  - exact (proj2 (wp_elim _ _ _ _ _ (consolewrite_wp buf n s a Hx) E)).
Qed.

Lemma reach_unlocked x y : unlocked x.1 x.2 → rtc cstep x y → unlocked y.1 y.2.
Proof. intros Hx Hr. revert Hx. induction Hr as [|x y z Hs _ IH]; [done|]. intros Hx. by apply IH, (cstep_unlocked x). Qed.

(** C24: the console's input is edited a line at a time, whatever mix of
    interrupts, reads and writes happens.  The bytes that reads return, in
    order, are those of the lines as [edit] leaves them: a backspace takes
    back the last byte of the unfinished line, control-U the whole of it, and
    a line becomes readable with its newline, a control-D or when 128 bytes
    are held.  A read stops after a newline, or before a control-D, which it
    keeps for the next read unless it has nothing to return.  Nothing is
    overwritten before it is read, no reader sleeps while there is a line, and
    neither interrupts nor reads can panic: the cursor stays on the screen. *)
Theorem console_line_discipline s0 s a :
  unlocked s0 (mkline [] []) → rtc cstep (s0, mkline [] []) (s, a) →
  (∀ cs, Forall (λ c, 0 ≤ c < 256) cs → ∃ b s', consoleintr cs s = Done b s') ∧
  (∀ killed got n, ∃ s', consoleread killed got n s = Done (take_line killed got n (ready a)).1 s') ∧
  (∀ buf n, ∃ s', consolewrite buf n s = Done n s') ∧
  (cn_asleep s = true → ready a = []) ∧ (length (ready a) + length (pending a) ≤ 128)%nat.
Proof.
  intros H0 Hr. pose proof (reach_unlocked (_, _) (_, _) H0 Hr) as Hf. simpl in Hf. split_and!.
  - intros cs Hcs. destruct (wp_inv _ _ _ (consoleintr_wp cs s a Hf Hcs)) as (b&s'&E&_). eauto.
  - intros killed got n. destruct (wp_inv _ _ _ (consoleread_wp killed got n s a Hf)) as (r&s'&E& -> &_). eauto.
  - intros buf n. destruct (wp_inv _ _ _ (consolewrite_wp buf n s a Hf)) as (r&s'&E& -> &_). eauto.
  - apply Hf.
  - apply Hf.
Qed.

Module Demo.
Definition blank : cons :=
  mkcons false false (replicate 128 0) 0 0 0 true (replicate 2000 0) 0 0 [].
(** "ax", a backspace, "b", a return and "c". *)
Definition typed : list Z := [97; 120; 8; 98; 13; 99].
Definition after_typing : cons :=
  Eval vm_compute in match consoleintr typed blank with Done _ s => s | _ => blank end.

Lemma blank_unlocked : unlocked blank (mkline [] []).
Proof.
  split_and!; [|done|constructor]. split; simpl; try done; try lia.
  split; [done|]. split; [done|]. exists 0. split; [lia|done].
Qed.
End Demo.

Lemma console_line_discipline_witness :
  ∃ s', consoleread false [] 10 Demo.after_typing = Done (CRet 3 [97; 98; 10]) s'.
Proof.
  destruct (console_line_discipline Demo.blank Demo.after_typing (mkline [97; 98; 10] [99])) as (_&H&_).
  - apply Demo.blank_unlocked.
  - apply rtc_once. apply (cs_intr Demo.blank (mkline [] []) Demo.typed false); [|vm_compute; reflexivity].
    repeat (constructor; [lia|]). constructor.
  - exact (H false [] 10%nat).
Defined.
