(* ===== verification/Kbd.v ===== *)
(** * The keyboard (kbd.c, kbd.h)

    The scan codes that the controller delivers, decoded by [kbdgetc] into the
    characters that the console gets.  The tables are those of kbd.h. *)

From S2P Require Import Prelude Params Console.

(** ** Constants and tables *)

Definition KBS_DIB : Z := 1.
Definition NO : Z := 0.
Definition SHIFT : Z := 1.
Definition CTL : Z := 2.
Definition ALT : Z := 4.
Definition CAPSLOCK : Z := 8.
Definition NUMLOCK : Z := 16.
Definition SCROLLLOCK : Z := 32.
Definition E0ESC : Z := 64.

(** An array of 256 bytes: its first elements, and those given by index. *)
Definition keymap (first : list Z) (rest : list (Z * Z)) : list Z :=
  foldr (λ x, <[Z.to_nat x.1:=x.2]>) (first ++ replicate (256 - length first) 0) rest.

Definition shiftcode : list Z := keymap [] [(29, CTL); (42, SHIFT); (54, SHIFT); (56, ALT); (157, CTL); (184, ALT)].
Definition togglecode : list Z := keymap [] [(58, CAPSLOCK); (69, NUMLOCK); (70, SCROLLLOCK)].

(** The keys that the maps share: the cursor keys and the rest of the extended ones. *)
Definition special_keys : list (Z * Z) :=
  [(200, 226); (208, 227); (201, 230); (209, 231); (203, 228); (205, 229); (151, 224); (207, 225); (210, 232); (211, 233)].
Definition keypad : list Z := chrs "789-456+1230.".

Definition normalmap : list Z :=
  keymap ([NO; 27] ++ chrs "1234567890-=" ++ [8; 9] ++ chrs "qwertyuiop[]" ++ [10; NO] ++ chrs "asdfghjkl;'`" ++ [NO] ++
          chrs "\zxcvbnm,./" ++ [NO] ++ chrs "*" ++ [NO] ++ chrs " " ++ replicate 13 NO ++ keypad ++ replicate 4 NO)
    ((156, 10) :: (181, 47) :: special_keys).
Definition shiftmap : list Z :=
  keymap ([NO; 27] ++ chrs "!@#$%^&*()_+" ++ [8; 9] ++ chrs "QWERTYUIOP{}" ++ [10; NO] ++ chrs "ASDFGHJKL:" ++ [34] ++ chrs "~" ++ [NO] ++
          chrs "|ZXCVBNM<>?" ++ [NO] ++ chrs "*" ++ [NO] ++ chrs " " ++ replicate 13 NO ++ keypad ++ replicate 4 NO)
    ((156, 10) :: (181, 47) :: special_keys).
(** [C(x)] for each character; a [uchar] keeps the low byte. *)
Definition ctl (s : string) : list Z := (λ c, u8 (C c)) <$> chrs s.
Definition ctlmap : list Z :=
  keymap (replicate 16 NO ++ ctl "QWERTYUIOP" ++ [NO; NO; 13; NO] ++ ctl "ASDFGHJKL" ++ [NO; NO; NO; NO] ++
          ctl "\ZXCVBNM" ++ [NO; NO] ++ ctl "/" ++ [NO; NO])
    ((156, 13) :: (181, u8 (C 47)) :: special_keys).
Definition charcode (i : Z) : list Z :=
  match i with 0 => normalmap | 1 => shiftmap | _ => ctlmap end.

(** ** The controller and kbdgetc *)

(** [shift] and the bytes that the controller holds. *)
Record kbd := mkkbd { kb_shift : Z; kb_data : list Z }.
#[global] Instance kbd_eq_dec : EqDecision kbd.
Proof. solve_decision. Defined.

Definition inb_KBSTATP : M kbd Z := gets (λ s, match kb_data s with [] => 0 | _ => KBS_DIB end).
Definition inb_KBDATAP : M kbd Z := λ s, Done (default 0 (head (kb_data s))) (mkkbd (kb_shift s) (tail (kb_data s))).
Definition set_shift (v : Z) : M kbd unit := modify (λ s, mkkbd v (kb_data s)).

(** The letters with their case swapped. *)
Definition swap_case (c : Z) : Z :=
  if (97 <=? c) && (c <=? 122) then c + (65 - 97)
  else if (65 <=? c) && (c <=? 90) then c + (97 - 65)
  else c.

(** What [kbdgetc] makes of a byte: the new [shift] and its result. *)
Definition kbd_decode (shift data : Z) : Z * Z :=
  let esc := negb (Z.land shift E0ESC =? 0) in
  if data =? 224 then (Z.lor shift E0ESC, 0)
  else if negb (Z.land data 128 =? 0) then
    let data := if esc then data else Z.land data 127 in
    (Z.land shift (u32 (Z.lnot (Z.lor (shiftcode !!! Z.to_nat data) E0ESC))), 0)
  else
    let data := if esc then Z.lor data 128 else data in
    let shift := if esc then Z.land shift (u32 (Z.lnot E0ESC)) else shift in
    let shift := Z.lor shift (shiftcode !!! Z.to_nat data) in
    let shift := Z.lxor shift (togglecode !!! Z.to_nat data) in
    let c := charcode (Z.land shift (Z.lor CTL SHIFT)) !!! Z.to_nat data in
    (shift, if negb (Z.land shift CAPSLOCK =? 0) then swap_case c else c).

Definition kbdgetc : M kbd Z :=
  st ← inb_KBSTATP;
  if Z.land st KBS_DIB =? 0 then mret (-1)
  else
    data ← inb_KBDATAP;
    shift ← gets kb_shift;
    set_shift (kbd_decode shift data).1;;
    mret (kbd_decode shift data).2.

(** [getc] as [consoleintr] calls it, until it returns a negative number. *)
Fixpoint getc_loop (fuel : nat) : M kbd (list Z) :=
  match fuel with
  | O => diverge
  | Datatypes.S fuel' =>
      c ← kbdgetc;
      if c <? 0 then mret []
      else cs ← getc_loop fuel'; mret (c :: cs)
  end.

(** The handler, on the keyboard and the console. *)
Definition kbdintr : M (kbd * cons) bool :=
  n ← gets (λ s, length (kb_data s.1));
  cs ← zoom fst (λ k s, (k, s.2)) (getc_loop (n + 1));
  zoom snd (λ t s, (s.1, t)) (consoleintr cs).

(** ** What is typed

    A key is known by its code and whether it is one of the extended keys.  The
    modes are what has been pressed last of the keys for shift, control and
    alt, and whether the locks are on. *)

Record modes := mkmodes { m_shift : bool; m_ctl : bool; m_alt : bool; m_caps : bool; m_num : bool; m_scroll : bool }.
#[global] Instance modes_eq_dec : EqDecision modes.
Proof. solve_decision. Defined.
Inductive event := Press (ext : bool) (k : Z) | Release (ext : bool) (k : Z).

(** The bytes of the controller for an event; 0x60 is no key, since its release
    would be the byte of the escape. *)
Definition key_ok (k : Z) : Prop := 0 ≤ k < 128 ∧ k ≠ 96.
Definition event_ok (e : event) : Prop := match e with Press _ k | Release _ k => key_ok k end.
Definition scan (e : event) : list Z :=
  match e with
  | Press ext k => (if ext then [224] else []) ++ [k]
  | Release ext k => (if ext then [224] else []) ++ [k + 128]
  end.

(** The modes with the keys that change them. *)
Definition with_mod (v : bool) (ext : bool) (k : Z) (m : modes) : modes :=
  if negb ext && ((k =? 42) || (k =? 54)) then mkmodes v (m_ctl m) (m_alt m) (m_caps m) (m_num m) (m_scroll m)
  else if k =? 29 then mkmodes (m_shift m) v (m_alt m) (m_caps m) (m_num m) (m_scroll m)
  else if k =? 56 then mkmodes (m_shift m) (m_ctl m) v (m_caps m) (m_num m) (m_scroll m)
  else m.
Definition with_lock (ext : bool) (k : Z) (m : modes) : modes :=
  if ext then m
  else mkmodes (m_shift m) (m_ctl m) (m_alt m)
    (xorb (k =? 58) (m_caps m)) (xorb (k =? 69) (m_num m)) (xorb (k =? 70) (m_scroll m)).
Definition next (m : modes) (e : event) : modes :=
  match e with
  | Press ext k => with_lock ext k (with_mod true ext k m)
  | Release ext k => with_mod false ext k m
  end.

(** The character of a key: control wins over shift, and the caps lock swaps
    the case of letters. *)
Definition key_char (m : modes) (ext : bool) (k : Z) : Z :=
  let i := Z.to_nat (if ext then k + 128 else k) in
  let c := if m_ctl m then ctlmap !!! i else if m_shift m then shiftmap !!! i else normalmap !!! i in
  if m_caps m then swap_case c else c.
Definition typed1 (m : modes) (e : event) : list Z :=
  match e with Press ext k => [key_char (next m e) ext k] | Release _ _ => [] end.
Fixpoint typed (m : modes) (es : list event) : list Z :=
  match es with [] => [] | e :: es' => typed1 m e ++ typed (next m e) es' end.

(** [shift] as a word. *)
Definition bit (b : bool) (v : Z) : Z := if b then v else 0.
Definition word (m : modes) : Z :=
  bit (m_shift m) SHIFT + bit (m_ctl m) CTL + bit (m_alt m) ALT + bit (m_caps m) CAPSLOCK + bit (m_num m) NUMLOCK + bit (m_scroll m) SCROLLLOCK.

(** ** One event, by going through all of them *)

Definition bools : list bool := [true; false].
Definition all_modes : list modes :=
  s ← bools; c ← bools; a ← bools; p ← bools; n ← bools; l ← bools; [mkmodes s c a p n l].
Lemma all_modes_in m : m ∈ all_modes.
Proof. destruct m as [[] [] [] [] [] []]; apply (bool_decide_unpack _); vm_compute; exact I. Qed.

Definition getc_is (shift b shift' c : Z) : bool := bool_decide (kbd_decode shift b = (shift', c)).
Definition press_ok (m : modes) (k : Z) : bool :=
  let c := key_char (next m (Press false k)) false k in
  let c' := key_char (next m (Press true k)) true k in
  getc_is (word m) k (word (next m (Press false k))) c && (0 <=? c) && (c <? 256) &&
  getc_is (word m + E0ESC) k (word (next m (Press true k))) c' && (0 <=? c') && (c' <? 256) &&
  ((k =? 96) || getc_is (word m) (k + 128) (word (next m (Release false k))) 0 &&
   getc_is (word m + E0ESC) (k + 128) (word (next m (Release true k))) 0) &&
  getc_is (word m) 224 (word m + E0ESC) 0.

Lemma all_press_ok m k : 0 ≤ k < 128 → press_ok m k = true.
Proof.
  intros Hk. assert (Forall (λ m, Forall (λ k, press_ok m k = true) (seqZ 0 128)) all_modes) as HF.
  { apply (bool_decide_unpack _). vm_compute. exact I. }
  rewrite Forall_forall in HF. specialize (HF m (all_modes_in m)). rewrite Forall_forall in HF. apply HF, elem_of_seqZ. lia.
Qed.

Lemma kbdgetc_is shift b l r shift' : getc_is shift b shift' r = true → kbdgetc (mkkbd shift (b :: l)) = Done r (mkkbd shift' l).
Proof.
  intros E%bool_decide_eq_true. transitivity (Done (S := kbd) (kbd_decode shift b).2 (mkkbd (kbd_decode shift b).1 l)); [reflexivity|by rewrite E].
Qed.

(** The results of [kbdgetc] for one event. *)
Definition results (m : modes) (e : event) : list Z :=
  match e with
  | Press ext k => (if ext then [0] else []) ++ [key_char (next m e) ext k]
  | Release ext k => (if ext then [0] else []) ++ [0]
  end.

Lemma getc_step shift b l r shift' fuel cs s : getc_is shift b shift' r = true → 0 ≤ r →
  getc_loop fuel (mkkbd shift' l) = Done cs s → getc_loop (Datatypes.S fuel) (mkkbd shift (b :: l)) = Done (r :: cs) s.
Proof.
  intros E Hr H. cbn [getc_loop]. unfold mbind, M_bind. rewrite (kbdgetc_is _ _ _ _ _ E), (proj2 (Z.ltb_ge r 0) Hr), H. done.
Qed.

Lemma getc_event m e l fuel cs s : event_ok e → getc_loop fuel (mkkbd (word (next m e)) l) = Done cs s →
  getc_loop (length (scan e) + fuel) (mkkbd (word m) (scan e ++ l)) = Done (results m e ++ cs) s.
Proof.
  intros He H. destruct e as [ext k|ext k], He as [Hk Hne]; pose proof (all_press_ok m k Hk) as Hp; unfold press_ok in Hp;
    rewrite (proj2 (Z.eqb_neq k 96) Hne), orb_false_l in Hp; repeat rewrite andb_true_iff in Hp; destruct Hp as [[[[[[[P1 P2] P3] P4] P5] P6] [P7 P8]] P9];
    destruct ext; cbn [scan results length app Nat.add]; rewrite ?Z.leb_le in *; eauto using getc_step, Z.le_refl.
Qed.

Fixpoint all_results (m : modes) (es : list event) : list Z :=
  match es with [] => [] | e :: es' => results m e ++ all_results (next m e) es' end.

Lemma getc_events m es : Forall event_ok es →
  getc_loop (length (es ≫= scan) + 1) (mkkbd (word m) (es ≫= scan)) = Done (all_results m es) (mkkbd (word (foldl next m es)) []).
Proof.
  intros He. revert m. induction He as [|e es He Hes IH]; intros m; [done|]. rewrite bind_cons, length_app, <- Nat.add_assoc.
  apply getc_event; [done|]. apply IH.
Qed.

Lemma key_char_range m e ext k : e = Press ext k → event_ok e → 0 ≤ key_char (next m e) ext k < 256.
Proof.
  intros -> [Hk Hne]. pose proof (all_press_ok m k Hk) as Hp. unfold press_ok in Hp. repeat rewrite andb_true_iff in Hp.
  destruct Hp as [[[[[[[_ P2] P3] _] P5] P6] _] _]. rewrite !Z.leb_le, !Z.ltb_lt in *. by destruct ext.
Qed.

Lemma all_results_range m es : Forall event_ok es → Forall (λ c, 0 ≤ c < 256) (all_results m es).
Proof.
  intros He. revert m. induction He as [|e es He Hes IH]; intros m; cbn [all_results]; [done|]. apply Forall_app. split; [|apply IH].
  destruct e as [ext k|ext k]; cbn [results]; (apply Forall_app; split; [destruct ext; repeat constructor; lia|]);
    [|repeat constructor; lia]. repeat constructor; by eapply (key_char_range m (Press ext k)).
Qed.

(** The console ignores the zeros. *)
Lemma edit_zero a : edit a 0 = a.
Proof. done. Qed.

Lemma edit_results m es a : foldl edit a (all_results m es) = foldl edit a (typed m es).
Proof.
  revert m a. induction es as [|e es IH]; intros m a; [done|]. cbn [all_results typed]. rewrite !foldl_app, IH. f_equal.
  destruct e as [ext k|ext k]; destruct ext; cbn [results typed1 app foldl]; by rewrite ?edit_zero.
Qed.

(** C37: what is typed on the keyboard is what programs read.  For any sequence
    of keys pressed and released, extended keys included, the interrupt handler
    takes all bytes of the controller and adds the characters of the keys, by
    the modes that shift, control, alt and the locks have at that moment, to
    the line that the console edits; it does not panic and [shift] holds those
    modes afterwards. *)
Theorem keyboard_line m es s a : unlocked s a → Forall event_ok es →
  ∃ b s', kbdintr (mkkbd (word m) (es ≫= scan), s) = Done b (mkkbd (word (foldl next m es)) [], s') ∧
    unlocked s' (foldl edit a (typed m es)).
Proof.
  intros Hs He. destruct (wp_inv _ _ _ (consoleintr_wp (all_results m es) s a Hs (all_results_range m es He))) as (b&s'&E&Hs').
  exists b, s'. rewrite <- edit_results with (m := m). split; [|done].
  pose proof (getc_events m es He) as G. revert G. generalize (es ≫= scan). intros l G.
  unfold kbdintr, gets, mbind, M_bind, zoom. cbn [fst snd kb_data]. rewrite G. cbn [fst snd]. by rewrite E.
Qed.

(** Shift, h released with shift still held, then i and the return key: the line
    is "Hi". *)
Module Demo.
Definition plain : modes := mkmodes false false false false false false.
Definition keys : list event := [Press false 42; Press false 35; Release false 35; Release false 42; Press false 23; Release false 23; Press false 28].

Lemma keyboard_line_witness : typed plain keys = [0; 72; 105; 10] ∧
  ∃ b s', kbdintr (mkkbd 0 (keys ≫= scan), Console.Demo.blank) = Done b (mkkbd 0 [], s') ∧ unlocked s' (mkline [72; 105; 10] []).
Proof.
  split; [reflexivity|].
  exact (keyboard_line plain keys Console.Demo.blank (mkline [] []) Console.Demo.blank_unlocked ltac:(repeat constructor; lia)).
Defined.
End Demo.
