(* ===== verification/Uart.v ===== *)
(** * The serial port (uart.c)

    The driver on an 8250 as its documentation describes it: a byte that is
    written while the transmitter is busy is lost, the transmitter stays busy
    for a while after each byte, and the first two registers are the divisor
    while bit 7 of the line control is set.  A machine without the port reads
    as 0xFF. *)

From S2P Require Import Prelude Params Apic Console.

Definition COM1 : Z := 1016.

(** The driver's [uart], and the port: whether there is one, for how many reads
    of the status the transmitter is still busy, the bytes received and not
    yet read, the bytes sent, the line control, the divisor, and the other
    registers. *)
Record com := mkcom {
  ua_uart : bool;
  ua_there : bool;
  ua_busy : nat;
  ua_in : list Z;
  ua_sent : list Z;
  ua_lcr : Z;
  ua_div : Z * Z;
  ua_regs : gmap Z Z
}.

Section uart.
(** How long the transmitter takes for a byte. *)
Context (rate : nat).

Definition dlab (s : com) : bool := Z.testbit (ua_lcr s) 7.

Definition transmit (v : Z) (s : com) : com :=
  mkcom (ua_uart s) (ua_there s) (if (ua_busy s =? 0)%nat then rate else ua_busy s) (ua_in s)
    (if (ua_busy s =? 0)%nat then ua_sent s ++ [v] else ua_sent s) (ua_lcr s) (ua_div s) (ua_regs s).
Definition set_ua_regs (port v : Z) (s : com) : com :=
  mkcom (ua_uart s) (ua_there s) (ua_busy s) (ua_in s) (ua_sent s) (ua_lcr s) (ua_div s) (<[port:=v]> (ua_regs s)).
Definition set_ua_div (d : Z * Z) (s : com) : com :=
  mkcom (ua_uart s) (ua_there s) (ua_busy s) (ua_in s) (ua_sent s) (ua_lcr s) d (ua_regs s).
Definition set_ua_lcr (v : Z) (s : com) : com :=
  mkcom (ua_uart s) (ua_there s) (ua_busy s) (ua_in s) (ua_sent s) v (ua_div s) (ua_regs s).

Definition outb (port v : Z) : M com unit := modify (λ s,
  let v := u8 v in
  if negb (ua_there s) then s
  else if port =? COM1 then (if dlab s then set_ua_div (v, (ua_div s).2) s else transmit v s)
  else if port =? COM1 + 1 then (if dlab s then set_ua_div ((ua_div s).1, v) s else set_ua_regs port v s)
  else if port =? COM1 + 3 then set_ua_lcr v s
  else set_ua_regs port v s).

(** The line status: bit 0 for data, bit 5 for an idle transmitter. *)
Definition inb (port : Z) : M com Z := λ s,
  if negb (ua_there s) then Done 255 s
  else if port =? COM1 + 5 then
    Done (Z.lor (match ua_in s with [] => 0 | _ => 1 end) (if (ua_busy s =? 0)%nat then 32 else 0))
      (mkcom (ua_uart s) (ua_there s) (ua_busy s - 1) (ua_in s) (ua_sent s) (ua_lcr s) (ua_div s) (ua_regs s))
  else if port =? COM1 then
    Done (default 0 (head (ua_in s)))
      (mkcom (ua_uart s) (ua_there s) (ua_busy s) (tail (ua_in s)) (ua_sent s) (ua_lcr s) (ua_div s) (ua_regs s))
  else Done (default 0 (ua_regs s !! port)) s.

(** [for(i = 0; i < 128 && !(inb(COM1+5) & 0x20); i++)], with the turns left. *)
Fixpoint wait_idle (n : nat) : M com unit :=
  match n with
  | O => mret tt
  | S n' => v ← inb (COM1 + 5); if Z.land v 32 =? 0 then wait_idle n' else mret tt
  end.

Definition uartputc (c : Z) : M com unit :=
  u ← gets ua_uart;
  if negb u then mret tt
  else
    wait_idle 128;;
    outb COM1 c.

Definition uartgetc : M com Z :=
  u ← gets ua_uart;
  if negb u then mret (-1)
  else
    v ← inb (COM1 + 5);
    if Z.land v 1 =? 0 then mret (-1) else inb COM1.

Fixpoint uartputs (l : list Z) : M com unit :=
  match l with
  | [] => mret tt
  | c :: l' => uartputc c;; uartputs l'
  end.

Definition on_com {A T} (m : M com A) : M (com * T) A := zoom fst (λ k s, (k, s.2)) m.
Definition on_io {A T} (m : M T A) : M (com * T) A := zoom snd (λ k s, (s.1, k)) m.

Definition set_ua_uart (v : bool) (s : com) : com :=
  mkcom v (ua_there s) (ua_busy s) (ua_in s) (ua_sent s) (ua_lcr s) (ua_div s) (ua_regs s).

Definition uartinit : M (com * ioapic) unit :=
  on_com (outb (COM1 + 2) 0);;
  on_com (outb (COM1 + 3) 128);;
  on_com (outb COM1 (115200 / 9600));;
  on_com (outb (COM1 + 1) 0);;
  on_com (outb (COM1 + 3) 3);;
  on_com (outb (COM1 + 4) 0);;
  on_com (outb (COM1 + 1) 1);;
  v ← on_com (inb (COM1 + 5));
  if v =? 255 then mret tt
  else
    on_com (modify (set_ua_uart true));;
    on_com (inb (COM1 + 2));;
    on_com (inb COM1);;
    on_io (ioapicenable IRQ_COM1 0);;
    on_com (uartputs (chrs "xv6..." ++ [10])).

(** [uartgetc] as [consoleintr] calls it. *)
Fixpoint getc_all (fuel : nat) : M com (list Z) :=
  match fuel with
  | O => diverge
  | S fuel' =>
      c ← uartgetc;
      if c <? 0 then mret []
      else cs ← getc_all fuel'; mret (c :: cs)
  end.
Definition uartintr : M (com * cons) bool :=
  n ← gets (λ s, length (ua_in s.1));
  cs ← on_com (getc_all (n + 1));
  on_io (consoleintr cs).

(** ** Sending *)

(** The port works, and is never busy for longer than the driver waits. *)
Record serial (s : com) : Prop := {
  se_uart : ua_uart s = true;
  se_there : ua_there s = true;
  se_dlab : dlab s = false;
  se_busy : (ua_busy s ≤ 128)%nat
}.

Definition with_busy (n : nat) (s : com) : com :=
  mkcom (ua_uart s) (ua_there s) n (ua_in s) (ua_sent s) (ua_lcr s) (ua_div s) (ua_regs s).

Lemma run_status s : ua_there s = true → inb (COM1 + 5) s =
  Done (Z.lor (match ua_in s with [] => 0 | _ => 1 end) (if (ua_busy s =? 0)%nat then 32 else 0)) (with_busy (ua_busy s - 1) s).
Proof. intros E. unfold inb, with_busy. by rewrite E. Qed.

Lemma status_there (l : list Z) (b : bool) : Z.lor (match l with [] => 0 | _ => 1 end) (if b then 32 else 0) =? 255 = false.
Proof. by destruct l, b. Qed.
Lemma status_idle (l : list Z) (b : bool) : Z.land (Z.lor (match l with [] => 0 | _ => 1 end) (if b then 32 else 0)) 32 =? 0 = negb b.
Proof. by destruct l, b. Qed.
Lemma status_data (l : list Z) (b : bool) : Z.land (Z.lor (match l with [] => 0 | _ => 1 end) (if b then 32 else 0)) 1 =? 0 = match l with [] => true | _ => false end.
Proof. by destruct l, b. Qed.

(** The wait ends when the transmitter is idle, or after [n] reads. *)
Lemma run_wait n : ∀ s, ua_there s = true → wait_idle n s = Done tt (with_busy (ua_busy s - n) s).
Proof.
  induction n as [|n IH]; intros s Ht; cbn [wait_idle].
  - unfold mret, M_ret. f_equal. rewrite Nat.sub_0_r. by destruct s.
  - unfold mbind, M_bind. rewrite (run_status s Ht), status_idle. destruct (Nat.eqb_spec (ua_busy s) 0) as [E|E]; cbn [negb].
    + unfold mret, M_ret. do 2 f_equal. lia.
    + rewrite IH by done. cbn. unfold with_busy. cbn. do 2 f_equal. lia.
Qed.

Lemma uartputc_run c s : serial s → uartputc c s =
  Done tt (mkcom (ua_uart s) (ua_there s) rate (ua_in s) (ua_sent s ++ [u8 c]) (ua_lcr s) (ua_div s) (ua_regs s)).
Proof.
  intros [Hu Ht Hd Hb]. unfold uartputc, gets, mbind, M_bind. rewrite Hu. cbn [negb]. rewrite run_wait by done.
  unfold outb, modify. cbn [ua_there with_busy]. rewrite Ht. cbn [negb]. rewrite Z.eqb_refl.
  change (dlab (with_busy (ua_busy s - 128) s)) with (dlab s). rewrite Hd. unfold transmit, with_busy. cbn [ua_uart ua_there ua_busy ua_in ua_sent ua_lcr ua_div ua_regs].
  rewrite (proj2 (Nat.eqb_eq (ua_busy s - 128) 0)) by lia. by rewrite ?Hu, ?Ht.
Qed.

(** Bytes are sent in order, and none is lost while the transmitter keeps up. *)
Lemma uartputs_run l : ∀ s, (rate ≤ 128)%nat → serial s → ∃ s', uartputs l s = Done tt s' ∧ serial s' ∧ ua_sent s' = ua_sent s ++ (u8 <$> l) ∧
  ua_in s' = ua_in s ∧ ua_lcr s' = ua_lcr s ∧ ua_div s' = ua_div s ∧ ua_regs s' = ua_regs s.
Proof.
  induction l as [|c l IH]; intros s Hr Hs; cbn [uartputs].
  - exists s. rewrite app_nil_r. done.
  - unfold mbind, M_bind. rewrite (uartputc_run c s Hs). set (s1 := mkcom _ _ _ _ _ _ _ _).
    destruct (IH s1 Hr) as (s'&E&Hs'&Es&?&?&?&?); [destruct Hs; by split|]. exists s'. rewrite Es. cbn. by rewrite <- app_assoc.
Qed.

(** The transmitter that is busy for more than 128 reads loses the byte. *)
Lemma uartputc_overrun c s : ua_uart s = true → ua_there s = true → dlab s = false → (128 < ua_busy s)%nat →
  uartputc c s = Done tt (with_busy (ua_busy s - 128) s).
Proof.
  intros Hu Ht Hd Hb. unfold uartputc, gets, mbind, M_bind. rewrite Hu. cbn [negb]. rewrite run_wait by done.
  unfold outb, modify. change (ua_there (with_busy _ s)) with (ua_there s). rewrite Ht. cbn [negb]. rewrite Z.eqb_refl.
  change (dlab (with_busy (ua_busy s - 128) s)) with (dlab s). rewrite Hd. unfold transmit, with_busy. cbn [ua_uart ua_there ua_busy ua_in ua_sent ua_lcr ua_div ua_regs].
  by rewrite (proj2 (Nat.eqb_neq (ua_busy s - 128) 0)) by lia.
Qed.

(** ** Receiving *)

Lemma run_getc_data s c l : ua_uart s = true → ua_there s = true → ua_in s = c :: l → uartgetc s =
  Done c (mkcom (ua_uart s) (ua_there s) (ua_busy s - 1) l (ua_sent s) (ua_lcr s) (ua_div s) (ua_regs s)).
Proof.
  intros Hu Ht Hi. unfold uartgetc, gets, mbind, M_bind. rewrite Hu. cbn [negb]. rewrite (run_status s Ht), status_data, Hi.
  destruct s as [u th b i se lc di re]. cbn in Hu, Ht, Hi. by subst.
Qed.

Lemma getc_all_run l : ∀ s, ua_uart s = true → ua_there s = true → ua_in s = l → Forall (λ c, 0 ≤ c < 256) l →
  ∃ s', getc_all (length l + 1) s = Done l s' ∧ ua_in s' = [] ∧ ua_sent s' = ua_sent s ∧ (serial s → serial s').
Proof.
  induction l as [|c l IH]; intros s Hu Ht Hi Hl; cbn [length Nat.add getc_all]; unfold mbind, M_bind.
  - unfold uartgetc, gets, mbind, M_bind. rewrite Hu. cbn [negb]. rewrite (run_status s Ht), status_data, Hi. cbn.
    eexists. split; [done|]. split_and!; try done. intros [H1 H2 H3 H4]. split; cbn; try done. lia.
  - rewrite (run_getc_data s c l Hu Ht Hi). apply Forall_cons in Hl as [Hc Hl]. rewrite (proj2 (Z.ltb_ge c 0)) by lia.
    set (s1 := mkcom _ _ _ _ _ _ _ _). destruct (IH s1 Hu Ht eq_refl Hl) as (s'&E&H1&H2&H3). rewrite E. eexists. split; [done|].
    split_and!; try done. intros [G1 G2 G3 G4]. apply H3. split; cbn; try done. lia.
Qed.
End uart.

(** The serial line is a terminal.  What the kernel prints is sent in order
    without loss, if the transmitter needs at most as long for a byte as the
    driver waits; and the interrupt handler takes all bytes that have arrived
    into the line that the console edits, without a panic. *)
Theorem serial_terminal rate s c a out : (rate ≤ 128)%nat → serial s → unlocked c a → Forall (λ b, 0 ≤ b < 256) (ua_in s) →
  (∃ s', uartputs rate out s = Done tt s' ∧ serial s' ∧ ua_sent s' = ua_sent s ++ (u8 <$> out) ∧ ua_in s' = ua_in s) ∧
  (∃ b s' c', uartintr (s, c) = Done b (s', c') ∧ serial s' ∧ ua_in s' = [] ∧ ua_sent s' = ua_sent s ∧
     unlocked c' (foldl edit a (ua_in s))).
Proof.
  intros Hr Hs Hc Hin. split.
  - destruct (uartputs_run rate out s Hr Hs) as (s'&E&?&?&?&_). by exists s'.
  - destruct (getc_all_run (ua_in s) s (se_uart _ Hs) (se_there _ Hs) eq_refl Hin) as (s'&E&H1&H2&H3).
    destruct (wp_inv _ _ _ (consoleintr_wp (ua_in s) c a Hc Hin)) as (b&c'&E'&Hc').
    exists b, s', c'. split; [|by split_and!; try done; apply H3].
    unfold uartintr, on_com, on_io, gets, mbind, M_bind, zoom. cbn [fst snd]. rewrite E. cbn [fst snd]. by rewrite E'.
Qed.

(** ** The start *)

Lemma run_on_com {A T} (m : M com A) s (io : T) a s' : m s = Done a s' → on_com m (s, io) = Done a (s', io).
Proof. intros E. unfold on_com, zoom. cbn [fst snd]. by rewrite E. Qed.
Lemma run_bind {S A B} (m : M S A) (f : A → M S B) s a s' o : m s = Done a s' → f a s' = o → (m ≫= f) s = o.
Proof. intros E Ef. unfold mbind, M_bind. by rewrite E. Qed.

Lemma outb_absent rate port v s : ua_there s = false → outb rate port v s = Done tt s.
Proof. intros E. unfold outb, modify. by rewrite E. Qed.

Section present.
Context (rate : nat) (s : com) (Ht : ua_there s = true).
Lemma outb_reg port v : port = COM1 + 2 ∨ port = COM1 + 4 → outb rate port v s = Done tt (set_ua_regs port (u8 v) s).
Proof using Ht. unfold outb, modify. rewrite Ht. by intros [-> | ->]. Qed.
Lemma outb_lcr v : outb rate (COM1 + 3) v s = Done tt (set_ua_lcr (u8 v) s).
Proof using Ht. unfold outb, modify. by rewrite Ht. Qed.
Lemma outb_div0 v : dlab s = true → outb rate COM1 v s = Done tt (set_ua_div (u8 v, (ua_div s).2) s).
Proof using Ht. intros Hd. unfold outb, modify. by rewrite Ht, Hd. Qed.
Lemma outb_div1 v : dlab s = true → outb rate (COM1 + 1) v s = Done tt (set_ua_div ((ua_div s).1, u8 v) s).
Proof using Ht. intros Hd. unfold outb, modify. by rewrite Ht, Hd. Qed.
Lemma outb_ier v : dlab s = false → outb rate (COM1 + 1) v s = Done tt (set_ua_regs (COM1 + 1) (u8 v) s).
Proof using Ht. intros Hd. unfold outb, modify. by rewrite Ht, Hd. Qed.
Lemma inb_other : inb (COM1 + 2) s = Done (default 0 (ua_regs s !! (COM1 + 2))) s.
Proof using Ht. unfold inb. by rewrite Ht. Qed.
Lemma inb_data : inb COM1 s = Done (default 0 (head (ua_in s)))
  (mkcom (ua_uart s) (ua_there s) (ua_busy s) (tail (ua_in s)) (ua_sent s) (ua_lcr s) (ua_div s) (ua_regs s)).
Proof using Ht. unfold inb. by rewrite Ht. Qed.
End present.

(** [uartinit] on a machine without the port changes nothing.  With one it sets
    9600 baud, 8 bits and no parity, enables the receive interrupt in the port
    and its line in the interrupt controller, and only that one, and sends
    the greeting. *)
Theorem uartinit_correct rate s io : (rate ≤ 128)%nat →
  (ua_there s = false → uartinit rate (s, io) = Done tt (s, io)) ∧
  (ua_there s = true → (ua_busy s ≤ 128)%nat → ∃ s' io', uartinit rate (s, io) = Done tt (s', io') ∧ serial s' ∧
     ua_div s' = (12, 0) ∧ ua_lcr s' = 3 ∧ ua_regs s' !! (COM1 + 1) = Some 1 ∧
     ua_sent s' = ua_sent s ++ chrs "xv6..." ++ [10] ∧
     ∀ i, irq_line i → route io' i = if decide (i = IRQ_COM1) then Some (T_IRQ0 + i, 0) else route io i).
Proof.
  intros Hr. split.
  - intros Ht. unfold uartinit. do 7 (eapply run_bind; [by apply run_on_com, outb_absent|]).
    eapply run_bind; [apply run_on_com; unfold inb; by rewrite Ht|]. done.
  - intros Ht Hb. destruct (route_enable IRQ_COM1 0 io) as (io'&Eio&Hio); [by vm_compute|lia|].
    assert (wp (uartinit rate) (λ _ p, serial p.1 ∧ ua_div p.1 = (12, 0) ∧ ua_lcr p.1 = 3 ∧ ua_regs p.1 !! (COM1 + 1) = Some 1 ∧
      ua_sent p.1 = ua_sent s ++ chrs "xv6..." ++ [10] ∧ p.2 = io') (s, io)) as W.
    { unfold uartinit.
      wp_step. eapply wp_done; [apply run_on_com, outb_reg; [exact Ht|by left]|]. wp_step. eapply wp_done; [apply run_on_com, outb_lcr; exact Ht|].
      wp_step. eapply wp_done; [apply run_on_com, outb_div0; [exact Ht|done]|]. wp_step. eapply wp_done; [apply run_on_com, outb_div1; [exact Ht|done]|].
      wp_step. eapply wp_done; [apply run_on_com, outb_lcr; exact Ht|]. wp_step. eapply wp_done; [apply run_on_com, outb_reg; [exact Ht|by right]|].
      wp_step. eapply wp_done; [apply run_on_com, outb_ier; [exact Ht|done]|]. set (s1 := set_ua_regs (COM1 + 1) _ _).
      wp_step. eapply wp_done; [apply run_on_com, run_status; exact Ht|]. rewrite status_there. cbv iota.
      wp_step. eapply wp_done; [by apply run_on_com|]. wp_step. eapply wp_done; [apply run_on_com, inb_other; exact Ht|].
      wp_step. eapply wp_done; [apply run_on_com, inb_data; exact Ht|]. wp_step. eapply wp_done; [unfold on_io, zoom; cbn [fst snd]; by rewrite Eio|].
      match goal with |- wp _ _ (?s, _) => set (s2 := s) end.
      destruct (uartputs_run rate (chrs "xv6..." ++ [10]) s2 Hr) as (s'&Es&Hs&H1&_&H2&H3&H4); [split; [done|exact Ht|done|cbn; lia]|].
      eapply wp_done; [apply run_on_com; exact Es|]. cbn [fst snd]. rewrite H1, H2, H3, H4.
      split_and!; [exact Hs|reflexivity|reflexivity|apply lookup_insert_eq|reflexivity|reflexivity]. }
    apply wp_inv in W as ([]&[s' io2]&E&H1&H2&H3&H4&H5&H6). cbn [fst snd] in *. subst io2. exists s', io'.
    exact (conj E (conj H1 (conj H2 (conj H3 (conj H4 (conj H5 Hio)))))).
Qed.

(** A port with an idle transmitter, a byte received, and the line of a keyboard. *)
Module Demo.
Definition port : com := mkcom false true 0 [104; 10] [] 0 (0, 0) ∅.
Definition ready : com := mkcom true true 5 [104; 10] [] 3 (12, 0) ∅.
Lemma serial_terminal_witness : ∃ b s' c', uartintr (ready, Console.Demo.blank) = Done b (s', c') ∧ unlocked c' (mkline [104; 10] []).
Proof.
  destruct (serial_terminal 10 ready Console.Demo.blank (mkline [] []) [65]) as [_ (b&s'&c'&E&_&_&_&Hc)].
  - lia.
  - split; [reflexivity|reflexivity|reflexivity|cbn; lia].
  - exact Console.Demo.blank_unlocked.
  - repeat constructor; lia.
  - exists b, s', c'. split; [exact E|exact Hc].
Defined.

Lemma uartinit_correct_witness : ∃ s' io', uartinit 10 (port, mkioapic 0 ∅ []) = Done tt (s', io') ∧ ua_lcr s' = 3.
Proof.
  destruct (uartinit_correct 10 port (mkioapic 0 ∅ [])) as [_ H2]; [lia|].
  destruct (H2 eq_refl) as (s'&io'&E&_&_&Hl&_); [cbn; lia|]. exists s', io'. split; [exact E|exact Hl].
Defined.
End Demo.
