(* ===== verification/Sh.v ===== *)
(** * The shell's parser (sh.c)

    A command line is a buffer that holds a C string.  The parser keeps its
    place in it ([*ps]) and builds a tree whose strings are pairs of positions,
    [q] and [eq] in the source; [nulterminate] then cuts the buffer into C
    strings in place.  The shell's [panic] prints its message and exits.  The
    nodes come from [malloc], which is taken to succeed. *)

From S2P Require Import Prelude Params Str.

(** ** Commands *)

(** A parsed command, over what stands for a string. *)
Inductive cmd (A : Type) :=
  | EXEC (argv : list A)
  | REDIR (c : cmd A) (file : A) (mode fd : Z)
  | PIPE (left right : cmd A)
  | LIST (left right : cmd A)
  | BACK (c : cmd A).
Arguments EXEC {A}.
Arguments REDIR {A}.
Arguments PIPE {A}.
Arguments LIST {A}.
Arguments BACK {A}.

Definition MAXARGS : Z := 10.

(** Characters of the shell's syntax. *)
Definition LPAR : Z := 40.
Definition RPAR : Z := 41.
Definition BAR : Z := 124.
Definition AMP : Z := 38.
Definition SEMI : Z := 59.
Definition LT : Z := 60.
Definition GT : Z := 62.
Definition PLUS : Z := 43.
Definition WORD : Z := 97.

Definition whitespace : list Z := [32; 9; 13; 10; 11].
Definition symbols : list Z := [LT; BAR; GT; AMP; SEMI; LPAR; RPAR].
Definition is_in (set : list Z) (c : Z) : bool := bool_decide (is_Some (strchr set c)).
Definition is_ws (c : Z) : bool := is_in whitespace c.
Definition is_word (c : Z) : bool := negb (is_ws c) && negb (is_in symbols c).

(** [cmd->argv[argc] = q; cmd->eargv[argc] = eq] where [cmd] is the [EXEC]
    node under the redirections [ret] has got so far. *)
Fixpoint add_arg {A} (a : A) (ret : cmd A) : cmd A :=
  match ret with
  | EXEC argv => EXEC (argv ++ [a])
  | REDIR c file mode fd => REDIR (add_arg a c) file mode fd
  | c => c
  end.

Section parser.
(** The buffer and the position of its NUL. *)
Context (buf : list Z) (es : nat).
Notation word := (nat * nat)%type.
Abbreviation P := (M nat).

(** [*s]. *)
Definition ch (s : nat) : P Z := match buf !! s with Some c => mret c | None => undef end.

(** [while(s < es && f( *s )) s++] with [n = es - s]. *)
Fixpoint scan (f : Z → bool) (n s : nat) : nat :=
  match n with
  | O => s
  | S n' => if f (buf !!! s) then scan f n' (S s) else s
  end.
Definition skip (f : Z → bool) (s : nat) : nat := scan f (es - s) s.

(** The token, and where its text starts and ends. *)
Definition gettoken : P (Z * nat * nat) :=
  s ← gets id;
  let q := skip is_ws s in
  c ← ch q;
  t ← (if c =? 0 then mret (c, q)
       else if is_in [BAR; LPAR; RPAR; SEMI; AMP; LT] c then mret (c, S q)
       else if c =? GT then
         c' ← ch (S q);
         mret (if c' =? GT then (PLUS, S (S q)) else (c, S q))
       else mret (WORD, skip is_word q));
  modify (λ _, skip is_ws t.2);;
  mret (t.1, q, t.2).

Definition peek (toks : list Z) : P bool :=
  s ← gets id;
  let s := skip is_ws s in
  modify (λ _, s);;
  c ← ch s;
  mret (negb (c =? 0) && is_in toks c).

Fixpoint redirs_loop (fuel : nat) (c : cmd word) : P (cmd word) :=
  match fuel with
  | O => diverge
  | S fuel' =>
      b ← peek [LT; GT];
      if (b : bool) then
        t ← gettoken;
        w ← gettoken;
        if negb (w.1.1 =? WORD) then panic "missing file for redirection"
        else
          let file := (w.1.2, w.2) in
          redirs_loop fuel'
            (if t.1.1 =? LT then REDIR c file O_RDONLY 0
             else if (t.1.1 =? GT) || (t.1.1 =? PLUS) then REDIR c file (Z.lor O_WRONLY O_CREATE) 1
             else c)
      else mret c
  end.
Definition parseredirs (c : cmd word) : P (cmd word) := redirs_loop (S es) c.

(** The loop of [parseexec]. *)
Fixpoint args_loop (fuel : nat) (argc : Z) (ret : cmd word) : P (cmd word) :=
  match fuel with
  | O => diverge
  | S fuel' =>
      b ← peek [BAR; RPAR; AMP; SEMI];
      if (b : bool) then mret ret
      else
        t ← gettoken;
        if t.1.1 =? 0 then mret ret
        else if negb (t.1.1 =? WORD) then panic "syntax"
        else
          let ret := add_arg (t.1.2, t.2) ret in
          let argc := argc + 1 in
          if MAXARGS <=? argc then panic "too many args"
          else
            ret ← parseredirs ret;
            args_loop fuel' argc ret
  end.

(** The loop of [parseline]. *)
Fixpoint back_loop (fuel : nat) (c : cmd word) : P (cmd word) :=
  match fuel with
  | O => diverge
  | S fuel' =>
      b ← peek [AMP];
      if (b : bool) then
        gettoken;;
        back_loop fuel' (BACK c)
      else mret c
  end.

(** [fuel] bounds the depth of the recursion. *)
Fixpoint parseline (fuel : nat) : P (cmd word) :=
  match fuel with
  | O => diverge
  | S fuel' =>
      c ← parsepipe fuel';
      c ← back_loop (S es) c;
      b ← peek [SEMI];
      if (b : bool) then
        gettoken;;
        r ← parseline fuel';
        mret (LIST c r)
      else mret c
  end
with parsepipe (fuel : nat) : P (cmd word) :=
  match fuel with
  | O => diverge
  | S fuel' =>
      c ← parseexec fuel';
      b ← peek [BAR];
      if (b : bool) then
        gettoken;;
        r ← parsepipe fuel';
        mret (PIPE c r)
      else mret c
  end
with parseexec (fuel : nat) : P (cmd word) :=
  match fuel with
  | O => diverge
  | S fuel' =>
      b ← peek [LPAR];
      if (b : bool) then parseblock fuel'
      else
        ret ← parseredirs (EXEC []);
        args_loop (S es) 0 ret
  end
with parseblock (fuel : nat) : P (cmd word) :=
  match fuel with
  | O => diverge
  | S fuel' =>
      b ← peek [LPAR];
      if negb b then panic "parseblock"
      else
        gettoken;;
        c ← parseline fuel';
        b ← peek [RPAR];
        if negb b then panic "syntax - missing )"
        else
          gettoken;;
          parseredirs c
  end.
End parser.

Definition cut (buf : list Z) (w : nat * nat) : list Z := <[w.2:=0]> buf.
Fixpoint nulterminate (c : cmd (nat * nat)) (buf : list Z) : list Z :=
  match c with
  | EXEC argv => foldl cut buf argv
  | REDIR c file _ _ => cut (nulterminate c buf) file
  | PIPE l r | LIST l r => nulterminate r (nulterminate l buf)
  | BACK c => nulterminate c buf
  end.

(** The tree and the buffer its strings are in. *)
Definition parsecmd (buf : list Z) : outcome nat (cmd (nat * nat) * list Z) :=
  let es := Z.to_nat (strlen buf) in
  (c ← parseline buf es (4 * es + 4);
   peek buf es [];;
   s ← gets id;
   if negb (s =? es)%nat then panic "syntax"
   else mret (c, nulterminate c buf)) 0%nat.

(** ** Termination and bounds *)

(** [m] comes to an end: it returns, with [Q], or prints an error and exits. *)
Definition ends {A} (m : M nat A) (Q : A → nat → Prop) (s : nat) : Prop :=
  match m s with Done a s' => Q a s' | Panic _ => True | _ => False end.

Lemma ends_ret {A} (a : A) (Q : A → nat → Prop) s : Q a s → ends (mret a) Q s.
Proof. done. Qed.
Lemma ends_bind {A B} (m : M nat A) (f : A → M nat B) Q s :
  ends m (λ a s', ends (f a) Q s') s → ends (m ≫= f) Q s.
Proof. unfold ends, mbind, M_bind. by destruct (m s). Qed.
Lemma ends_mono {A} (m : M nat A) (Q Q' : A → nat → Prop) s :
  ends m Q s → (∀ a s', Q a s' → Q' a s') → ends m Q' s.
Proof. unfold ends. destruct (m s); naive_solver. Qed.
Lemma ends_panic {A} msg (Q : A → nat → Prop) s : ends (panic msg) Q s.
Proof. done. Qed.

(** The strings of a command lie before [es], and its arguments fit in [argv]
    with the null pointer that ends them. *)
Fixpoint cmd_ok (es : nat) (c : cmd (nat * nat)) : Prop :=
  match c with
  | EXEC argv => Forall (λ w, w.1 ≤ w.2 ≤ es)%nat argv ∧ Z.of_nat (length argv) < MAXARGS
  | REDIR c w _ _ => cmd_ok es c ∧ (w.1 ≤ w.2 ≤ es)%nat
  | PIPE l r | LIST l r => cmd_ok es l ∧ cmd_ok es r
  | BACK c => cmd_ok es c
  end.

Fixpoint nargs {A} (c : cmd A) : nat :=
  match c with EXEC argv => length argv | REDIR c _ _ _ => nargs c | _ => O end.

Lemma add_arg_ok es w c : cmd_ok es c → (w.1 ≤ w.2 ≤ es)%nat → Z.of_nat (nargs c) + 1 < MAXARGS → cmd_ok es (add_arg w c).
Proof.
  induction c; cbn [add_arg cmd_ok nargs]; try tauto. intros [H1 H2] Hw Hn. rewrite length_app, Forall_app. simpl.
  split; [|lia]. split; [done|]. by constructor.
Qed.
Lemma add_arg_nargs {A} (w : A) c : (nargs (add_arg w c) ≤ S (nargs c))%nat.
Proof. induction c; simpl; try lia. rewrite length_app. simpl. lia. Qed.

Lemma is_in_elem set c : Forall (λ x, x ≠ 0) set → is_in set c = true ↔ c ∈ set.
Proof.
  unfold is_in. rewrite bool_decide_eq_true. induction set as [|x set IH]; simpl.
  { intros _. rewrite elem_of_nil. split; [by intros []|done]. }
  intros [Hx Hs]%Forall_cons. rewrite (proj2 (Z.eqb_neq x 0) Hx), elem_of_cons. destruct (Z.eqb_spec x c) as [->|Hne].
  - split; [by left|by eexists].
  - rewrite fmap_is_Some, (IH Hs). split; [by right|]. by intros [?|?].
Qed.

Lemma symbol_cases c : is_in symbols c = true → is_in [BAR; LPAR; RPAR; SEMI; AMP; LT] c = true ∨ c = GT.
Proof.
  rewrite !is_in_elem by (repeat constructor; done). unfold symbols. rewrite !elem_of_cons. tauto.
Qed.

Section ends.
Context (buf : list Z) (es : nat).
Hypothesis Hes : buf !! es = Some 0.
Implicit Types s : nat.

Lemma scan_spec f n : ∀ s, let r := scan buf f n s in
  (s ≤ r ≤ s + n)%nat ∧ ((r < s + n)%nat → f (buf !!! r) = false) ∧ ((0 < n)%nat → f (buf !!! s) = true → (s < r)%nat).
Proof.
  induction n as [|n IH]; intros s; cbn [scan]; [lia|]. destruct (f (buf !!! s)) eqn:E; [|split; [lia|]; split; [done|congruence]].
  destruct (IH (S s)) as (H1&H2&_). split; [lia|]. split; [intros; apply H2; lia|lia].
Qed.

Lemma skip_spec f s : (s ≤ es)%nat → let r := skip buf es f s in
  (s ≤ r ≤ es)%nat ∧ ((r < es)%nat → f (buf !!! r) = false) ∧ ((s < es)%nat → f (buf !!! s) = true → (s < r)%nat).
Proof.
  intros Hs. unfold skip. destruct (scan_spec f (es - s) s) as (H1&H2&H3). cbv zeta.
  split; [lia|]. split; [intros; apply H2; lia|intros; apply H3; [lia|done]].
Qed.

Lemma ch_eq s s0 : (s ≤ es)%nat → ch buf s s0 = Done (buf !!! s) s0.
Proof.
  intros Hs. unfold ch. destruct (lookup_lt_is_Some_2 buf s) as [c Hc].
  { apply lookup_lt_Some in Hes. lia. }
  by rewrite Hc, (list_lookup_total_correct _ _ _ Hc).
Qed.

Lemma es_nul : buf !!! es = 0.
Proof. by apply list_lookup_total_correct. Qed.

Lemma ends_ch s s0 Q : (s ≤ es)%nat → Q (buf !!! s) s0 → ends (ch buf s) Q s0.
Proof. intros Hs HQ. unfold ends. by rewrite ch_eq. Qed.

Lemma peek_ends toks s : (s ≤ es)%nat →
  ends (peek buf es toks) (λ b s', (s ≤ s' ≤ es)%nat ∧ (b = true → (s' < es)%nat ∧ is_ws (buf !!! s') = false ∧ buf !!! s' ≠ 0)) s.
Proof.
  intros Hs. destruct (skip_spec is_ws s Hs) as (H1&H2&_). apply ends_bind. cbn. apply ends_bind. cbn.
  apply ends_bind, ends_ch; [unfold id; lia|]. apply ends_ret. unfold id. split; [lia|]. intros [Hz _]%andb_true_iff.
  assert (skip buf es is_ws s ≠ es) as Hne.
  { intros E. by rewrite E, es_nul in Hz. }
  split; [lia|]. split; [apply H2; lia|]. intros E. by rewrite E in Hz.
Qed.

Lemma gettoken_ends s : (s ≤ es)%nat →
  ends (gettoken buf es) (λ t s', (s ≤ s' ≤ es)%nat ∧ (t.1.2 ≤ t.2 ≤ es)%nat ∧ (t.1.1 ≠ 0 → (s < s')%nat) ∧ ((s < es)%nat → is_ws (buf !!! s) = false → buf !!! s ≠ 0 → (s < s')%nat)) s.
Proof.
  intros Hs. destruct (skip_spec is_ws s Hs) as (H1&H2&H3). apply ends_bind. cbn [ends gets]. unfold id. cbv zeta.
  set (q := skip buf es is_ws s) in *. apply ends_bind, ends_ch; [lia|]. apply ends_bind.
  assert (∀ t, (q ≤ t.2 ≤ es)%nat → (t.1 ≠ 0 → (q < t.2)%nat) → (t.1 = 0 → buf !!! q = 0) →
    ends (modify (λ _, skip buf es is_ws t.2);; mret (t.1, q, t.2))
     (λ t s', (s ≤ s' ≤ es)%nat ∧ (t.1.2 ≤ t.2 ≤ es)%nat ∧ (t.1.1 ≠ 0 → (s < s')%nat) ∧ ((s < es)%nat → is_ws (buf !!! s) = false → buf !!! s ≠ 0 → (s < s')%nat)) s) as Hend.
  { intros [r e] He1 He2 He3. simpl in *. destruct (skip_spec is_ws e ltac:(lia)) as (G1&_).
    unfold ends, mbind, M_bind, modify, mret, M_ret. cbn [fst snd].
    split; [lia|]. split; [lia|]. split; [intros; specialize (He2 ltac:(done)); lia|]. intros Hlt Hws Hnz.
    destruct (decide (r = 0)) as [->|Hr]; [|specialize (He2 Hr); lia].
    destruct (decide (q = s)) as [E|]; [|lia]. rewrite E in He3. tauto. }
  destruct (Z.eqb_spec (buf !!! q) 0) as [Hz|Hnz]; [apply ends_ret, Hend; simpl; [lia|tauto|tauto]|].
  assert (q ≠ es) as Hqe by (intros ->; by rewrite es_nul in Hnz).
  destruct (is_in _ _) eqn:Es; [apply ends_ret, Hend; simpl; [lia|lia|tauto]|].
  destruct (Z.eqb_spec (buf !!! q) GT) as [Hgt|Hgt].
  - apply ends_bind, ends_ch; [lia|]. apply ends_ret.
    destruct (Z.eqb_spec (buf !!! S q) GT) as [Hgt2|]; [|apply Hend; simpl; [lia|lia|by rewrite Hgt]].
    assert (S q ≠ es) by (intros E; by rewrite E, es_nul in Hgt2). apply Hend; simpl; [lia|lia|done].
  - apply ends_ret. destruct (skip_spec is_word q ltac:(lia)) as (G1&_&G3). apply Hend; simpl; [lia| |done].
    intros _. apply G3; [lia|]. unfold is_word. rewrite H2 by lia. simpl.
    destruct (is_in symbols (buf !!! q)) eqn:Esy; [|done]. apply symbol_cases in Esy as [?|?]; congruence.
Qed.

(** A token that [peek] has seen. *)
Lemma peek_token toks s Q : (s ≤ es)%nat →
  (∀ s', (s ≤ s' ≤ es)%nat → Q false s') →
  (∀ s', (s ≤ s' < es)%nat →
    (∀ Q' : Z * nat * nat → nat → Prop, (∀ t s'', (s' < s'' ≤ es)%nat → Q' t s'') → ends (gettoken buf es) Q' s') → Q true s') →
  ends (peek buf es toks) Q s.
Proof.
  intros Hs Hf Ht. eapply ends_mono; [by apply peek_ends|]. intros [] s' [H1 H2]; [|by apply Hf].
  destruct (H2 eq_refl) as (H3&H4&H5). apply Ht; [lia|]. intros Q' HQ. eapply ends_mono; [apply gettoken_ends; lia|].
  intros t s'' (G1&_&_&G4). apply HQ. specialize (G4 H3 H4 H5). lia.
Qed.

Lemma redirs_loop_ends fuel : ∀ s c, (s ≤ es)%nat → (es - s < fuel)%nat → cmd_ok es c →
  ends (redirs_loop buf es fuel c) (λ c' s', (s ≤ s' ≤ es)%nat ∧ cmd_ok es c' ∧ nargs c' = nargs c) s.
Proof.
  induction fuel as [|fuel IH]; intros s c Hs Hf Hc; [lia|]. cbn [redirs_loop].
  apply ends_bind, peek_token; [done|intros; by apply ends_ret|]. intros s1 Hs1 Ht.
  apply ends_bind, Ht. intros t s2 Hs2. apply ends_bind. eapply ends_mono; [apply gettoken_ends; lia|].
  intros w s3 (Hs3&Hw&_). destruct (negb _); [apply ends_panic|].
  eapply ends_mono; [apply (IH s3); [lia|lia|]|].
  - destruct (_ =? LT); [done|]. by destruct (_ || _).
  - cbv beta. intros c' s' (H1&H2& ->). split; [lia|]. split; [done|]. destruct (_ =? LT); [done|]. by destruct (_ || _).
Qed.

Lemma parseredirs_ends s c : (s ≤ es)%nat → cmd_ok es c →
  ends (parseredirs buf es c) (λ c' s', (s ≤ s' ≤ es)%nat ∧ cmd_ok es c' ∧ nargs c' = nargs c) s.
Proof. intros. apply redirs_loop_ends; [done|lia|done]. Qed.

Lemma args_loop_ends fuel : ∀ s argc c, (s ≤ es)%nat → (es - s < fuel)%nat → cmd_ok es c → Z.of_nat (nargs c) ≤ argc →
  ends (args_loop buf es fuel argc c) (λ c' s', (s ≤ s' ≤ es)%nat ∧ cmd_ok es c') s.
Proof.
  induction fuel as [|fuel IH]; intros s argc c Hs Hf Hc Hn; [lia|]. cbn [args_loop].
  apply ends_bind. eapply ends_mono; [by apply peek_ends|]. intros b s1 [Hs1 _]. destruct b; [by apply ends_ret|].
  apply ends_bind. eapply ends_mono; [apply gettoken_ends; lia|]. intros t s2 (Hs2&Hw&Hlt&_).
  destruct (Z.eqb_spec t.1.1 0) as [|Hnz]; [apply ends_ret; split; [lia|done]|]. specialize (Hlt Hnz).
  destruct (negb _); [apply ends_panic|]. destruct (Z.leb_spec MAXARGS (argc + 1)) as [|Hm]; [apply ends_panic|].
  assert (cmd_ok es (add_arg (t.1.2, t.2) c)) as Hok by (apply add_arg_ok; [done..|lia]).
  pose proof (add_arg_nargs (t.1.2, t.2) c) as Hn'.
  apply ends_bind. eapply ends_mono; [apply parseredirs_ends; [lia|done]|]. intros c1 s3 (Hs3&Hc1&Hn1).
  eapply ends_mono; [apply (IH s3); [lia|lia|done|lia]|]. intros c' s' [? ?]. split; [lia|done].
Qed.

Lemma back_loop_ends fuel : ∀ s c, (s ≤ es)%nat → (es - s < fuel)%nat → cmd_ok es c →
  ends (back_loop buf es fuel c) (λ c' s', (s ≤ s' ≤ es)%nat ∧ cmd_ok es c') s.
Proof.
  induction fuel as [|fuel IH]; intros s c Hs Hf Hc; [lia|]. cbn [back_loop].
  apply ends_bind, peek_token; [done|intros; by apply ends_ret|]. intros s1 Hs1 Ht.
  apply ends_bind, Ht. intros t s2 Hs2. eapply ends_mono; [apply (IH s2); [lia|lia|done]|].
  intros c' s' [? ?]. split; [lia|done].
Qed.

(** Every nested command takes at least one token, every level four calls. *)
Lemma parse_ends fuel : ∀ s, (s ≤ es)%nat → let Q := λ c s', (s ≤ s' ≤ es)%nat ∧ cmd_ok es c in
  ((4 * (es - s) + 4 ≤ fuel)%nat → ends (parseline buf es fuel) Q s) ∧
  ((4 * (es - s) + 3 ≤ fuel)%nat → ends (parsepipe buf es fuel) Q s) ∧
  ((4 * (es - s) + 2 ≤ fuel)%nat → ends (parseexec buf es fuel) Q s) ∧
  ((4 * (es - s) + 1 ≤ fuel)%nat → ends (parseblock buf es fuel) Q s).
Proof.
  induction fuel as [|fuel IH]; intros s Hs; cbv zeta; [lia|]. split_and!; intros Hf.
  - cbn [parseline]. apply ends_bind. eapply ends_mono; [apply IH; lia|]. intros c s1 [Hs1 Hc].
    apply ends_bind. eapply ends_mono; [apply back_loop_ends; [lia|lia|done]|]. intros c1 s2 [Hs2 Hc1].
    apply ends_bind, peek_token; [lia|intros; apply ends_ret; split; [lia|done]|]. intros s3 Hs3 Ht.
    apply ends_bind, Ht. intros _ s4 Hs4. apply ends_bind. eapply ends_mono; [apply IH; lia|]. intros r s5 [Hs5 Hr].
    apply ends_ret. split; [lia|done].
  - cbn [parsepipe]. apply ends_bind. eapply ends_mono; [apply IH; lia|]. intros c s1 [Hs1 Hc].
    apply ends_bind, peek_token; [lia|intros; apply ends_ret; split; [lia|done]|]. intros s3 Hs3 Ht.
    apply ends_bind, Ht. intros _ s4 Hs4. apply ends_bind. eapply ends_mono; [apply IH; lia|]. intros r s5 [Hs5 Hr].
    apply ends_ret. split; [lia|done].
  - cbn [parseexec]. apply ends_bind. eapply ends_mono; [by apply peek_ends|]. intros b s1 [Hs1 _]. destruct b.
    { eapply ends_mono; [apply IH; lia|]. intros c s2 [? ?]. split; [lia|done]. }
    apply ends_bind. eapply ends_mono; [apply parseredirs_ends; [lia|by split]|]. intros c s2 (Hs2&Hc&Hn).
    eapply ends_mono; [apply args_loop_ends; [lia|lia|done|by rewrite Hn]|]. intros c' s' [? ?]. split; [lia|done].
  - cbn [parseblock]. apply ends_bind, peek_token; [lia|intros; apply ends_panic|]. intros s1 Hs1 Ht.
    apply ends_bind, Ht. intros _ s2 Hs2. apply ends_bind. eapply ends_mono; [apply IH; lia|]. intros c s3 [Hs3 Hc].
    apply ends_bind, peek_token; [lia|intros; apply ends_panic|]. intros s4 Hs4 Ht4.
    apply ends_bind, Ht4. intros _ s5 Hs5. eapply ends_mono; [apply parseredirs_ends; [lia|done]|].
    intros c' s' (?&?&_). split; [lia|done].
Qed.
End ends.

Lemma strlen_nul buf : 0 ∈ buf → buf !! Z.to_nat (strlen buf) = Some 0.
Proof.
  rewrite strlen_spec, Nat2Z.id. induction buf as [|c buf IH]; [by intros ?%elem_of_nil|]. intros Hin. simpl.
  destruct (Z.eqb_spec c 0) as [->|Hne]; [done|]. apply elem_of_cons in Hin as [E|Hin]; [congruence|]. by apply IH.
Qed.

Lemma parsecmd_ends buf : 0 ∈ buf →
  match parsecmd buf with
  | Done (c, buf') _ => cmd_ok (Z.to_nat (strlen buf)) c ∧ buf' = nulterminate c buf
  | Panic _ => True
  | _ => False
  end.
Proof.
  intros Hnul%strlen_nul. unfold parsecmd. set (es := Z.to_nat (strlen buf)) in *.
  change (ends (c ← parseline buf es (4 * es + 4);
   peek buf es [];; s ← gets id;
   if negb (s =? es)%nat then panic "syntax" else mret (c, nulterminate c buf))
   (λ r _, match r with (c, buf') => cmd_ok es c ∧ buf' = nulterminate c buf end) 0%nat).
  apply ends_bind. eapply ends_mono; [apply parse_ends; [done|lia|lia]|]. intros c s [Hs Hc].
  apply ends_bind. eapply ends_mono; [apply peek_ends; [done|lia]|]. intros b s1 _. apply ends_bind. cbn.
  destruct (negb _); [apply ends_panic|]. by apply ends_ret.
Qed.

(** C32: the parser comes to an end on every input: for a buffer that holds a
    C string, [parsecmd] returns a command or reports a syntax error.  All the
    string pointers of the command, and so all the stores of [nulterminate],
    lie within the string or on its NUL, and a command has at most 9
    arguments, so that the null pointer after them is within [argv]. *)
Theorem parsecmd_terminates buf : 0 ∈ buf →
  match parsecmd buf with
  | Done (c, buf') _ => cmd_ok (Z.to_nat (strlen buf)) c ∧ buf' = nulterminate c buf
  | Panic _ => True
  | _ => False
  end.
Proof. apply parsecmd_ends. Qed.

Lemma parsecmd_terminates_witness :
  parsecmd [97; 32; 98; 0] = Done (EXEC [(0, 1); (2, 3)]%nat, [97; 0; 98; 0]) 3%nat ∧ cmd_ok 3 (EXEC [(0, 1); (2, 3)]%nat).
Proof.
  assert (0 ∈ [97; 32; 98; 0]) as Hin by (rewrite !elem_of_cons; tauto).
  assert (parsecmd [97; 32; 98; 0] = Done (EXEC [(0, 1); (2, 3)]%nat, [97; 0; 98; 0]) 3%nat) as E by (vm_compute; reflexivity).
  pose proof (parsecmd_terminates [97; 32; 98; 0] Hin) as H. rewrite E in H. split; [exact E|exact (proj1 H)].
Defined.
