(* ===== verification/ShSpec.v ===== *)
(** * The shell's grammar

    [show] writes a command as a command line, with parentheses where the
    grammar needs them; the parser reads every such line back. *)

From S2P Require Import Prelude Params Str Sh.

(** ** Command lines *)

(** A word: not empty, and without white space, symbols or NUL. *)
Definition word (w : list Z) : Prop := w ≠ [] ∧ Forall (λ c, c ≠ 0 ∧ is_word c = true) w.
Definition tok_ok (t : list Z) : Prop := word t ∨ ∃ c, c ∈ symbols ∧ t = [c].

(** Tokens are followed by a space. *)
Definition render (ts : list (list Z)) : list Z := concat ((λ t, t ++ [32]) <$> ts).

(** The precedence of a command: a line, with [&], a pipeline, or simple. *)
Definition level {A} (c : cmd A) : nat :=
  match c with LIST _ _ => 0 | BACK _ => 1 | PIPE _ _ => 2 | _ => 3 end.
Definition redir_sym (fd : Z) : list Z := if fd =? 0 then [LT] else [GT].
Definition paren (b : bool) (ts : list (list Z)) : list (list Z) := if b then [[LPAR]] ++ ts ++ [[RPAR]] else ts.

(** The tokens of [c] where a command of level at least [lvl] is expected. *)
Fixpoint toks (lvl : nat) (c : cmd (list Z)) : list (list Z) :=
  paren (level c <? lvl)%nat
    match c with
    | EXEC argv => argv
    | REDIR c file _ fd => toks 3 c ++ [redir_sym fd; file]
    | PIPE l r => toks 3 l ++ [[BAR]] ++ toks 2 r
    | LIST l r => toks 1 l ++ [[SEMI]] ++ toks 0 r
    | BACK c => toks 1 c ++ [[AMP]]
    end.

Definition show (c : cmd (list Z)) : list Z := render (toks 0 c).

(** Commands that can be written. *)
Definition mode_ok (mode fd : Z) : Prop :=
  (mode = O_RDONLY ∧ fd = 0) ∨ (mode = Z.lor O_WRONLY O_CREATE ∧ fd = 1).
Fixpoint writable (c : cmd (list Z)) : Prop :=
  match c with
  | EXEC argv => Forall word argv ∧ Z.of_nat (length argv) < MAXARGS
  | REDIR c file mode fd => writable c ∧ word file ∧ mode_ok mode fd
  | PIPE l r | LIST l r => writable l ∧ writable r
  | BACK c => writable c
  end.

Fixpoint cmd_map {A B} (f : A → B) (c : cmd A) : cmd B :=
  match c with
  | EXEC argv => EXEC (f <$> argv)
  | REDIR c file mode fd => REDIR (cmd_map f c) (f file) mode fd
  | PIPE l r => PIPE (cmd_map f l) (cmd_map f r)
  | LIST l r => LIST (cmd_map f l) (cmd_map f r)
  | BACK c => BACK (cmd_map f c)
  end.

Lemma redir_sym_ok mode fd : mode_ok mode fd → tok_ok (redir_sym fd).
Proof.
  intros [[_ ->]|[_ ->]]; right; [exists LT|exists GT]; (split; [|done]); unfold symbols; rewrite !elem_of_cons; tauto.
Qed.

Lemma paren_ok b ts : Forall tok_ok ts → Forall tok_ok (paren b ts).
Proof.
  intros Hts. destruct b; [|done]. apply Forall_app. split; [|apply Forall_app; split; [done|]]; constructor; try done.
  - right. exists LPAR. split; [unfold symbols; rewrite !elem_of_cons; tauto|done].
  - right. exists RPAR. split; [unfold symbols; rewrite !elem_of_cons; tauto|done].
Qed.

Lemma sym_ok c : c ∈ symbols → Forall tok_ok [[c]].
Proof. intros Hc. constructor; [right; by exists c|done]. Qed.

Lemma toks_ok c : writable c → ∀ lvl, Forall tok_ok (toks lvl c).
Proof.
  induction c as [argv|c IH file mode fd|l IHl r IHr|l IHl r IHr|c IH]; cbn [toks writable]; intros H lvl; apply paren_ok.
  - destruct H as [H _]. eapply Forall_impl; [exact H|]. by left.
  - destruct H as (H1&H2&H3). apply Forall_app; split; [by apply IH|]. constructor; [by eapply redir_sym_ok|].
    constructor; [by left|done].
  - destruct H as [H1 H2]. rewrite !Forall_app. split_and!; [by apply IHl|apply sym_ok; unfold symbols; rewrite !elem_of_cons; tauto|by apply IHr].
  - destruct H as [H1 H2]. rewrite !Forall_app. split_and!; [by apply IHl|apply sym_ok; unfold symbols; rewrite !elem_of_cons; tauto|by apply IHr].
  - rewrite !Forall_app. split; [by apply IH|apply sym_ok; unfold symbols; rewrite !elem_of_cons; tauto].
Qed.

Lemma render_cons t ts : render (t :: ts) = t ++ 32 :: render ts.
Proof. unfold render. rewrite fmap_cons. simpl. by rewrite <- app_assoc. Qed.

(** The first character of a token. *)
Lemma tok_first t : tok_ok t → ∃ c t', t = c :: t' ∧ c ≠ 0 ∧ is_ws c = false.
Proof.
  intros [[Hne Hw]|(c&Hc& ->)].
  - destruct t as [|c t]; [done|]. apply Forall_cons in Hw as [[Hz Hw] _]. exists c, t. split_and!; [done..|].
    unfold is_word in Hw. apply andb_true_iff in Hw as [Hw _]. by apply negb_true_iff in Hw.
  - exists c, []. unfold symbols in Hc. rewrite !elem_of_cons, elem_of_nil in Hc. split; [done|].
    destruct Hc as [->|[->|[->|[->|[->|[->|[->|[]]]]]]]]; done.
Qed.

Lemma tok_nonzero t : tok_ok t → Forall (λ c, c ≠ 0) t.
Proof.
  intros Ht. pose proof Ht as (c&t'& ->&Hc&_)%tok_first. destruct Ht as [[_ Hw]|(c'&_&[= -> ->])]; [|by constructor].
  eapply Forall_impl; [exact Hw|]. by intros x [? _].
Qed.

Lemma render_nonzero ts : Forall tok_ok ts → Forall (λ c, c ≠ 0) (render ts).
Proof.
  induction 1 as [|t ts Ht _ IH]; [done|]. rewrite render_cons. apply Forall_app. split; [by apply tok_nonzero|by constructor].
Qed.

(** ** Tokens in the buffer *)

Section lex.
Context (buf : list Z) (es : nat).

(** The tokens [ts] are what is left from [p] on. *)
Definition at_ (p : nat) (ts : list (list Z)) : Prop :=
  (∃ rest, drop p buf = render ts ++ 0 :: rest) ∧ es = (p + length (render ts))%nat ∧ Forall tok_ok ts.

Lemma drop_lookup (p : nat) c l : drop p buf = c :: l → buf !! p = Some c ∧ drop (S p) buf = l.
Proof.
  intros E. split.
  - by rewrite <- (Nat.add_0_r p), <- lookup_drop, E.
  - replace (S p) with (p + 1)%nat by lia. by rewrite <- drop_drop, E.
Qed.

Lemma skip_at f l r : ∀ p, drop p buf = l ++ r → Forall (λ c, f c = true) l → (p + length l ≤ es)%nat →
  (p + length l)%nat = es ∨ (∃ c r', r = c :: r' ∧ f c = false) → skip buf es f p = (p + length l)%nat.
Proof.
  unfold skip. induction l as [|c l IH]; intros p Hd Hf Hle Hend; simpl in *.
  - rewrite Nat.add_0_r in *. destruct Hend as [->|(c&r'& ->&Hc)]; [by rewrite Nat.sub_diag|].
    apply drop_lookup in Hd as [Hp _]. destruct (es - p)%nat; [done|]. simpl.
    by rewrite (list_lookup_total_correct _ _ _ Hp), Hc.
  - apply drop_lookup in Hd as [Hp Hd]. apply Forall_cons in Hf as [Hc Hf].
    replace (es - p)%nat with (S (es - S p)) by lia. simpl. rewrite (list_lookup_total_correct _ _ _ Hp), Hc.
    rewrite IH; [lia|done..|lia|]. destruct Hend as [?|?]; [left; lia|by right].
Qed.

Lemma skip_none f p c l : drop p buf = c :: l → f c = false → (p ≤ es)%nat → skip buf es f p = p.
Proof. intros Hd Hf Hp. rewrite (skip_at f [] (c :: l)); simpl; [lia|done..|lia|]. right. by exists c, l. Qed.

Lemma ch_at p c l s : drop p buf = c :: l → ch buf p s = Done c s.
Proof. intros [Hp _]%drop_lookup. unfold ch. by rewrite Hp. Qed.

(** White space before the tokens has been skipped. *)
Lemma at_ws p ts : at_ p ts → skip buf es is_ws p = p ∧ (p ≤ es)%nat.
Proof.
  intros ([rest Hd]& He & Ht). split; [|lia]. destruct ts as [|t ts].
  - apply (skip_none _ _ 0 rest); [done..|lia].
  - apply Forall_cons in Ht as [(c&t'& ->&_&Hc)%tok_first _]. rewrite render_cons in Hd. eapply skip_none; [exact Hd|exact Hc|lia].
Qed.

Definition first (set : list Z) (ts : list (list Z)) : bool :=
  match ts with (c :: _) :: _ => is_in set c | _ => false end.

Lemma peek_at set p ts : at_ p ts → peek buf es set p = Done (first set ts) p.
Proof.
  intros Ha. pose proof (at_ws _ _ Ha) as [Hs _]. destruct Ha as ([rest Hd]& He & Ht).
  unfold peek, mbind, M_bind, gets, modify, mret, M_ret, id. rewrite Hs. destruct ts as [|t ts].
  - by rewrite (ch_at p 0 rest).
  - apply Forall_cons in Ht as [(c&t'& ->&Hz&Hc)%tok_first _]. rewrite render_cons in Hd.
    rewrite (ch_at p c _ _ Hd). simpl. by rewrite (proj2 (Z.eqb_neq c 0) Hz).
Qed.

(** The place after a token and its space. *)
Lemma at_next p t ts : at_ p (t :: ts) → at_ (S (p + length t)) ts ∧ skip buf es is_ws (p + length t) = S (p + length t).
Proof.
  intros ([rest Hd]& He & [Ht Hts]%Forall_cons). rewrite render_cons in Hd, He. rewrite length_app in He. simpl in He.
  rewrite <- app_assoc in Hd.
  assert (drop (p + length t) buf = 32 :: render ts ++ 0 :: rest) as Hd1.
  { rewrite <- drop_drop, Hd. by rewrite drop_app_length. }
  pose proof (drop_lookup _ _ _ Hd1) as [_ Hd2].
  assert (at_ (S (p + length t)) ts) as Ha by (split; [by exists rest|]; split; [lia|done]).
  split; [done|]. pose proof (at_ws _ _ Ha) as [Hs Hle]. rewrite (skip_at is_ws [32] (render ts ++ 0 :: rest)); simpl; [lia|done|by constructor|lia|].
  destruct ts as [|t' ts]; [left; simpl in He; lia|]. right. apply Forall_cons in Hts as [(c&t''& ->&_&Hc)%tok_first _].
  rewrite render_cons. by exists c, ((t'' ++ 32 :: render ts) ++ 0 :: rest).
Qed.

Lemma gettoken_word p w ts : word w → at_ p (w :: ts) →
  gettoken buf es p = Done (WORD, p, p + length w)%nat (S (p + length w)).
Proof.
  intros Hw Ha. pose proof (at_ws _ _ Ha) as [Hs Hle]. pose proof (at_next _ _ _ Ha) as [_ Hn].
  destruct Ha as ([rest Hd]& He &_). rewrite render_cons in Hd, He. rewrite <- app_assoc in Hd. rewrite length_app in He.
  assert (skip buf es is_word p = p + length w)%nat as Hskip.
  { apply (skip_at is_word w ((32 :: render ts) ++ 0 :: rest)); [done| |lia|].
    - eapply Forall_impl; [apply Hw|]. by intros c [_ ?].
    - right. by exists 32, (render ts ++ 0 :: rest). }
  destruct w as [|c w]; [by destruct Hw|]. destruct Hw as [_ [[Hz Hc] _]%Forall_cons].
  unfold gettoken, mbind, M_bind, gets, modify, mret, M_ret, id. rewrite Hs, (ch_at p c _ _ Hd).
  rewrite (proj2 (Z.eqb_neq c 0) Hz). unfold is_word in Hc. apply andb_true_iff in Hc as [_ Hc]. apply negb_true_iff in Hc.
  assert (∀ c', c' ∈ symbols → c ≠ c') as Hsym.
  { intros c' Hc' <-. rewrite <- is_in_elem in Hc' by (repeat constructor; done). congruence. }
  unfold symbols in Hsym. destruct (is_in [BAR; LPAR; RPAR; SEMI; AMP; LT] c) eqn:E.
  { rewrite is_in_elem in E by (repeat constructor; done). rewrite !elem_of_cons, elem_of_nil in E. exfalso.
    destruct E as [E|[E|[E|[E|[E|[E|[]]]]]]]; eapply Hsym; try exact E; rewrite !elem_of_cons; tauto. }
  destruct (Z.eqb_spec c GT) as [->|_]; [exfalso; apply (Hsym GT); [rewrite !elem_of_cons; tauto|done]|].
  cbn [fst snd]. by rewrite Hskip, Hn.
Qed.

Lemma gettoken_sym p c ts : c ∈ symbols → at_ p ([c] :: ts) → gettoken buf es p = Done (c, p, S p) (S (S p)).
Proof.
  intros Hc Ha. pose proof (at_ws _ _ Ha) as [Hs Hle]. pose proof (at_next _ _ _ Ha) as [_ Hn].
  destruct Ha as ([rest Hd]& He &_). simpl in Hn. rewrite Nat.add_comm in Hn. simpl in Hn.
  rewrite render_cons in Hd. cbn [app] in Hd. pose proof (drop_lookup _ _ _ Hd) as [_ Hd2].
  unfold gettoken, mbind, M_bind, gets, modify, mret, M_ret, id. rewrite Hs, (ch_at p c _ _ Hd).
  unfold symbols in Hc. rewrite !elem_of_cons, elem_of_nil in Hc.
  destruct Hc as [->|[->|[->|[->|[->|[->|[->|[]]]]]]]];
    lazymatch goal with |- context [is_in ?l ?c] => let b := eval vm_compute in (is_in l c) in change (is_in l c) with b end;
    cbv beta iota delta [Z.eqb LT BAR GT AMP SEMI LPAR RPAR Pos.eqb fst snd];
    rewrite ?(ch_at (S p) 32 _ _ Hd2); cbv beta iota delta [Z.eqb Pos.eqb fst snd]; rewrite Hn; reflexivity.
Qed.

Lemma gettoken_nil p : at_ p [] → gettoken buf es p = Done (0, p, p) p.
Proof.
  intros Ha. pose proof (at_ws _ _ Ha) as [Hs Hle]. destruct Ha as ([rest Hd]& He &_).
  unfold gettoken, mbind, M_bind, gets, modify, mret, M_ret, id. rewrite Hs, (ch_at p 0 _ _ Hd). cbn [fst snd Z.eqb].
  by rewrite Hs.
Qed.

Lemma wlp_peek set p ts Q : at_ p ts → Q (first set ts) p → wlp true (peek buf es set) Q p.
Proof. intros Ha HQ. unfold wlp. by rewrite (peek_at set p ts). Qed.

(** The text of a word in the buffer. *)
Definition str_at (w : nat * nat) (s : list Z) : Prop :=
  word s ∧ w.2 = (w.1 + length s)%nat ∧ ∃ rest, drop w.1 buf = s ++ 32 :: rest.

Lemma wlp_word p w ts Q : at_ p (w :: ts) → word w →
  (∀ q e p', str_at (q, e) w → at_ p' ts → Q (WORD, q, e) p') → wlp true (gettoken buf es) Q p.
Proof.
  intros Ha Hw HQ. unfold wlp. rewrite (gettoken_word p w ts Hw Ha). apply HQ; [|by apply at_next].
  split; [done|]. split; [done|]. destruct Ha as ([rest Hd]&_). rewrite render_cons, <- app_assoc in Hd.
  by exists (render ts ++ 0 :: rest).
Qed.

Lemma wlp_sym p c ts Q : at_ p ([c] :: ts) → c ∈ symbols →
  (∀ q e p', at_ p' ts → Q (c, q, e) p') → wlp true (gettoken buf es) Q p.
Proof.
  intros Ha Hc HQ. unfold wlp. rewrite (gettoken_sym p c ts Hc Ha). apply HQ. apply at_next in Ha as [Ha _].
  simpl in Ha. by rewrite Nat.add_comm in Ha.
Qed.

Lemma wlp_nil p Q : at_ p [] → Q (0, p, p) p → wlp true (gettoken buf es) Q p.
Proof. intros Ha HQ. unfold wlp. by rewrite gettoken_nil. Qed.

(** ** Parsing *)

(** The tree [pc] stands for [c]. *)
Inductive den : cmd (nat * nat) → cmd (list Z) → Prop :=
  | den_exec ws ss : Forall2 str_at ws ss → den (EXEC ws) (EXEC ss)
  | den_redir pc c w s mode fd : den pc c → str_at w s → den (REDIR pc w mode fd) (REDIR c s mode fd)
  | den_pipe pl l pr r : den pl l → den pr r → den (PIPE pl pr) (PIPE l r)
  | den_list pl l pr r : den pl l → den pr r → den (LIST pl pr) (LIST l r)
  | den_back pc c : den pc c → den (BACK pc) (BACK c).

(** What may follow. *)
Definition stops (set : list Z) (ts : list (list Z)) : Prop := ts = [] ∨ first set ts = true.

Lemma stops_first set set' ts : stops set ts → Forall (λ c, c ≠ 0) set → Forall (λ c, is_in set' c = false) set → first set' ts = false.
Proof.
  intros [->|Hf] Hz Hd; [done|]. destruct ts as [|[|c t] ts]; [done..|]. simpl in *. rewrite is_in_elem in Hf by done.
  by eapply Forall_forall in Hd.
Qed.
Lemma stops_sub set set' ts : stops set ts → Forall (λ c, c ≠ 0) set → Forall (λ c, is_in set' c = true) set → stops set' ts.
Proof.
  intros [->|Hf] Hz Hd; [by left|]. destruct ts as [|[|c t] ts]; [done..|]. right. simpl in *. rewrite is_in_elem in Hf by done.
  by eapply Forall_forall in Hd.
Qed.
Lemma first_word set w ts : word w → Forall (λ c, c ≠ 0 ∧ c ∈ symbols) set → first set (w :: ts) = false.
Proof.
  intros [Hne Hw] Hset. destruct w as [|c w]; [done|]. simpl. apply Forall_cons in Hw as [[_ Hc] _].
  destruct (is_in set c) eqn:E; [|done]. rewrite is_in_elem in E by (eapply Forall_impl; [exact Hset|]; by intros ? []).
  eapply Forall_forall in Hset as [_ Hs]; [|exact E]. rewrite <- is_in_elem in Hs by (repeat constructor; done).
  unfold is_word in Hc. by rewrite Hs, andb_false_r in Hc.
Qed.

Definition wrap_redirs {A} (c : cmd A) (rs : list (A * Z * Z)) : cmd A := foldl (λ c r, REDIR c r.1.1 r.1.2 r.2) c rs.
Definition redir_toks (rs : list (list Z * Z * Z)) : list (list Z) := concat ((λ r, [redir_sym r.2; r.1.1]) <$> rs).
Definition redir_ok (r : list Z * Z * Z) : Prop := word r.1.1 ∧ mode_ok r.1.2 r.2.

Lemma redirs_loop_wlp fuel rest : first [LT; GT] rest = false → ∀ rs pc c p,
  den pc c → Forall redir_ok rs → at_ p (redir_toks rs ++ rest) →
  wlp true (redirs_loop buf es fuel pc) (λ pc' p', den pc' (wrap_redirs c rs) ∧ at_ p' rest) p.
Proof.
  intros Hrest. induction fuel as [|fuel IH]; intros rs pc c p Hd Hrs Ha; [done|]. cbn [redirs_loop].
  apply wlp_bind. eapply wlp_peek; [exact Ha|]. destruct rs as [|[[f m] fd] rs].
  { simpl app. rewrite Hrest. by apply wlp_ret. }
  apply Forall_cons in Hrs as [[Hf Hm] Hrs]. simpl in Hf, Hm. unfold redir_toks in Ha |- *. rewrite fmap_cons in Ha |- *. simpl in Ha |- *.
  assert (∃ y, redir_sym fd = [y] ∧ y ∈ symbols ∧ is_in [LT; GT] y = true ∧
    (∀ w, (if y =? LT then REDIR pc w O_RDONLY 0 else if (y =? GT) || (y =? PLUS) then REDIR pc w (Z.lor O_WRONLY O_CREATE) 1 else pc) = REDIR pc w m fd))
    as (y&Ey&Hy&Hin&Hc).
  { destruct Hm as [[-> ->]|[-> ->]]; [exists LT|exists GT]; (split_and!; [done| |done|done]); unfold symbols; rewrite !elem_of_cons; tauto. }
  rewrite Ey in Ha |- *. simpl. rewrite Hin.
  apply wlp_bind. eapply wlp_sym; [exact Ha|done|]. intros q e p1 Ha1. apply wlp_bind. eapply wlp_word; [exact Ha1|done|].
  intros q' e' p2 Hs Ha2. cbn [fst snd]. rewrite Z.eqb_refl. cbn [negb]. rewrite Hc.
  apply IH; [by constructor|done|exact Ha2].
Qed.

Lemma args_wlp rs rest : Forall redir_ok rs → stops [BAR; RPAR; AMP; SEMI] rest → ∀ ws fuel pre ppre p,
  Forall2 str_at ppre pre → Forall word ws → Z.of_nat (length pre + length ws) < MAXARGS →
  at_ p (ws ++ redir_toks rs ++ rest) →
  wlp true (ret ← parseredirs buf es (EXEC ppre); args_loop buf es fuel (Z.of_nat (length pre)) ret)
    (λ pc p', den pc (wrap_redirs (EXEC (pre ++ ws)) rs) ∧ at_ p' rest) p.
Proof.
  intros Hrs Hstop. assert (first [LT; GT] rest = false) as Hrest by (eapply stops_first; [exact Hstop|repeat constructor; done..]).
  induction ws as [|w ws IH]; intros fuel pre ppre p Hpre Hws Hlen Ha; apply wlp_bind.
  - rewrite app_nil_r. eapply wlp_mono; [apply (redirs_loop_wlp _ rest Hrest rs); [by constructor|done|exact Ha]|].
    intros pc p1 [Hd Ha1]. destruct fuel as [|fuel]; [done|]. cbn [args_loop]. apply wlp_bind. eapply wlp_peek; [exact Ha1|].
    destruct Hstop as [->|Hf]; [|rewrite Hf; by apply wlp_ret]. simpl first. apply wlp_bind, wlp_nil; [done|]. by apply wlp_ret.
  - apply Forall_cons in Hws as [Hw Hws].
    eapply wlp_mono; [apply (redirs_loop_wlp _ (w :: ws ++ redir_toks rs ++ rest)) with (rs := []) (c := EXEC pre)|].
    + apply first_word; [done|]. repeat (constructor; [split; [done|unfold symbols; rewrite !elem_of_cons; tauto]|]). constructor.
    + by constructor.
    + done.
    + exact Ha.
    + intros pc p1 [Hd Ha1]. inversion Hd as [ws0 ss0 H1 H2 H3| | | |]; subst. destruct fuel as [|fuel]; [done|]. cbn [args_loop].
      apply wlp_bind. eapply wlp_peek; [exact Ha1|]. rewrite first_word;
        [|done|repeat (constructor; [split; [done|unfold symbols; rewrite !elem_of_cons; tauto]|]); constructor].
      apply wlp_bind. eapply wlp_word; [exact Ha1|done|]. intros q e p2 Hs Ha2. cbn [fst snd]. change (WORD =? 0) with false.
      rewrite Z.eqb_refl. cbn [negb]. cbn [length] in Hlen.
      destruct (Z.leb_spec MAXARGS (Z.of_nat (length pre) + 1)) as [|_]; [lia|]. cbn [add_arg].
      replace (Z.of_nat (length pre) + 1) with (Z.of_nat (length (pre ++ [w]))) by (rewrite length_app; simpl; lia).
      replace (pre ++ w :: ws) with ((pre ++ [w]) ++ ws) by (by rewrite <- app_assoc).
      apply IH; [by apply Forall2_app; [|constructor]|done|rewrite length_app; simpl; lia|exact Ha2].
Qed.

Lemma back_loop_wlp fuel rest : first [AMP] rest = false → ∀ k pc c p,
  den pc c → at_ p (replicate k [AMP] ++ rest) →
  wlp true (back_loop buf es fuel pc) (λ pc' p', den pc' (Nat.iter k BACK c) ∧ at_ p' rest) p.
Proof.
  intros Hrest. induction fuel as [|fuel IH]; intros k pc c p Hd Ha; [done|]. cbn [back_loop].
  apply wlp_bind. eapply wlp_peek; [exact Ha|]. destruct k as [|k]; simpl replicate; simpl app.
  { rewrite Hrest. by apply wlp_ret. }
  change (first [AMP] ([AMP] :: replicate k [AMP] ++ rest)) with true. cbn [replicate app] in Ha.
  apply wlp_bind. eapply wlp_sym; [exact Ha|unfold symbols; rewrite !elem_of_cons; tauto|]. intros q e p1 Ha1.
  rewrite Nat.iter_succ_r. apply IH; [by constructor|exact Ha1].
Qed.

(** A command under its redirections, and under its ampersands. *)
Fixpoint unredir (c : cmd (list Z)) : cmd (list Z) * list (list Z * Z * Z) :=
  match c with
  | REDIR c f m fd => ((unredir c).1, (unredir c).2 ++ [(f, m, fd)])
  | c => (c, [])
  end.
Fixpoint unback (c : cmd (list Z)) : cmd (list Z) * nat :=
  match c with BACK c => ((unback c).1, S (unback c).2) | c => (c, O) end.

Lemma unredir_spec c : writable c →
  c = wrap_redirs (unredir c).1 (unredir c).2 ∧ toks 3 c = toks 3 (unredir c).1 ++ redir_toks (unredir c).2 ∧
  writable (unredir c).1 ∧ Forall redir_ok (unredir c).2 ∧ (∀ c' f m fd, (unredir c).1 ≠ REDIR c' f m fd).
Proof.
  induction c as [argv|c IH f m fd|l _ r _|l _ r _|c _]; intros Hc;
    try (cbn [unredir fst snd]; split_and!; [done|by rewrite app_nil_r|done..]; fail).
  destruct Hc as (Hc&Hf&Hm). destruct (IH Hc) as (H1&H2&H3&H4&H5). cbn [unredir fst snd]. split_and!.
  - unfold wrap_redirs. rewrite foldl_app. simpl. f_equal. exact H1.
  - cbn [toks paren level Nat.ltb Nat.leb]. rewrite H2. unfold redir_toks. rewrite fmap_app, concat_app. simpl. by rewrite <- app_assoc.
  - done.
  - apply Forall_app. split; [done|]. by constructor.
  - exact H5.
Qed.

Lemma unback_spec c : writable c →
  c = Nat.iter (unback c).2 BACK (unback c).1 ∧ toks 1 c = toks 2 (unback c).1 ++ replicate (unback c).2 [AMP] ∧ writable (unback c).1.
Proof.
  induction c as [argv|c _ f m fd|l _ r _|l _ r _|c IH]; intros Hc;
    try (cbn [unback fst snd]; split_and!; [done|by rewrite app_nil_r|done]; fail).
  destruct (IH Hc) as (H1&H2&H3). cbn [unback fst snd]. split_and!; [|cbn [toks paren level Nat.ltb Nat.leb]|done].
  - simpl. by rewrite <- H1.
  - rewrite H2, <- app_assoc. f_equal. by rewrite <- replicate_cons_app.
Qed.

Ltac in_symbols := unfold symbols; rewrite !elem_of_cons; tauto.

(** What the four parsers make of the tokens of a command. *)
Definition line_ok (fuel : nat) : Prop := ∀ c p rest, writable c → stops [RPAR] rest → at_ p (toks 0 c ++ rest) →
  wlp true (parseline buf es fuel) (λ pc p', den pc c ∧ at_ p' rest) p.
Definition pipe_ok (fuel : nat) : Prop := ∀ c p rest, writable c → stops [RPAR; AMP; SEMI] rest → at_ p (toks 2 c ++ rest) →
  wlp true (parsepipe buf es fuel) (λ pc p', den pc c ∧ at_ p' rest) p.
Definition exec_ok (fuel : nat) : Prop := ∀ c p rest, writable c → stops [BAR; RPAR; AMP; SEMI] rest → at_ p (toks 3 c ++ rest) →
  wlp true (parseexec buf es fuel) (λ pc p', den pc c ∧ at_ p' rest) p.
Definition block_ok (fuel : nat) : Prop := ∀ c rs p rest, writable c → Forall redir_ok rs → stops [BAR; RPAR; AMP; SEMI] rest →
  at_ p (paren true (toks 0 c) ++ redir_toks rs ++ rest) →
  wlp true (parseblock buf es fuel) (λ pc p', den pc (wrap_redirs c rs) ∧ at_ p' rest) p.

Lemma back_wlp fuel c p rest : pipe_ok fuel → writable c → first [AMP] rest = false → stops [RPAR; AMP; SEMI] rest →
  at_ p (toks 1 c ++ rest) →
  wlp true (parsepipe buf es fuel) (λ c1, wlp true (back_loop buf es (S es) c1) (λ pc p', den pc c ∧ at_ p' rest)) p.
Proof.
  intros IH Hc Hamp Hstop Ha. destruct (unback_spec c Hc) as (Ec&Et&Hb). rewrite Et, <- app_assoc in Ha.
  eapply wlp_mono; [apply (IH (unback c).1); [exact Hb| |exact Ha]|].
  - destruct (unback c).2; [exact Hstop|by right].
  - intros pc p1 [Hd Ha1]. rewrite Ec. by apply back_loop_wlp.
Qed.

Lemma line_step fuel : pipe_ok fuel → line_ok fuel → line_ok (S fuel).
Proof.
  intros IHp IHl c p rest Hc Hstop Ha. cbn [parseline]. apply wlp_bind.
  assert ((∃ l r, c = LIST l r) ∨ toks 0 c = toks 1 c) as [(l&r& ->)|Et] by (destruct c; eauto).
  - destruct Hc as [Hl Hr]. cbn [toks paren level Nat.ltb Nat.leb] in Ha. rewrite <- !app_assoc in Ha.
    eapply wlp_mono; [apply (back_wlp fuel l); [exact IHp|exact Hl| | |exact Ha]; [done|by right]|].
    intros c1 p1 H1. apply wlp_bind. eapply wlp_mono; [exact H1|]. intros pc p2 [Hd Ha2].
    apply wlp_bind. eapply wlp_peek; [exact Ha2|]. change (first _ _) with true. cbv iota.
    apply wlp_bind. eapply wlp_sym; [exact Ha2|in_symbols|]. intros _ _ p3 Ha3. apply wlp_bind.
    eapply wlp_mono; [apply (IHl r); [exact Hr|exact Hstop|exact Ha3]|]. intros pr p4 [Hd4 Ha4].
    apply wlp_ret. split; [by constructor|done].
  - rewrite Et in Ha. assert (stops [RPAR; AMP; SEMI] rest) as Hstop' by (eapply stops_sub; [exact Hstop|repeat constructor; done..]).
    eapply wlp_mono; [apply (back_wlp fuel c); [exact IHp|exact Hc| |done|exact Ha]|].
    + eapply stops_first; [exact Hstop|repeat constructor; done..].
    + intros c1 p1 H1. apply wlp_bind. eapply wlp_mono; [exact H1|]. intros pc p2 [Hd Ha2].
      apply wlp_bind. eapply wlp_peek; [exact Ha2|]. rewrite (stops_first [RPAR] [SEMI]) by (first [exact Hstop|repeat constructor; done]).
      by apply wlp_ret.
Qed.

Lemma pipe_step fuel : exec_ok fuel → pipe_ok fuel → pipe_ok (S fuel).
Proof.
  intros IHe IHp c p rest Hc Hstop Ha. cbn [parsepipe]. apply wlp_bind.
  assert ((∃ l r, c = PIPE l r) ∨ toks 2 c = toks 3 c) as [(l&r& ->)|Et] by (destruct c; eauto).
  - destruct Hc as [Hl Hr]. cbn [toks paren level Nat.ltb Nat.leb] in Ha. rewrite <- !app_assoc in Ha.
    eapply wlp_mono; [apply (IHe l); [exact Hl| |exact Ha]; by right|]. intros pc p2 [Hd Ha2].
    apply wlp_bind. eapply wlp_peek; [exact Ha2|]. change (first _ _) with true. cbv iota.
    apply wlp_bind. eapply wlp_sym; [exact Ha2|in_symbols|]. intros _ _ p3 Ha3. apply wlp_bind.
    eapply wlp_mono; [apply (IHp r); [exact Hr|exact Hstop|exact Ha3]|]. intros pr p4 [Hd4 Ha4].
    apply wlp_ret. split; [by constructor|done].
  - rewrite Et in Ha. eapply wlp_mono; [apply (IHe c); [exact Hc| |exact Ha]|].
    + eapply stops_sub; [exact Hstop|repeat constructor; done..].
    + intros pc p2 [Hd Ha2]. apply wlp_bind. eapply wlp_peek; [exact Ha2|].
      rewrite (stops_first [RPAR; AMP; SEMI] [BAR]) by (first [exact Hstop|repeat constructor; done]). by apply wlp_ret.
Qed.

Lemma exec_step fuel : block_ok fuel → exec_ok (S fuel).
Proof.
  intros IHb c p rest Hc Hstop Ha. cbn [parseexec]. destruct (unredir_spec c Hc) as (Ec&Et&Hb&Hrs&Hno).
  rewrite Et, <- app_assoc in Ha. rewrite Ec. clear Ec Et Hc. apply wlp_bind. eapply wlp_peek; [exact Ha|].
  assert ((∃ argv, (unredir c).1 = EXEC argv) ∨ toks 3 (unredir c).1 = paren true (toks 0 (unredir c).1)) as [[argv Eb]|Eb].
  { destruct (unredir c).1; [left; eauto|by edestruct Hno|right; reflexivity..]. }
  - rewrite Eb in *. destruct Hb as [Hw Hlen]. cbn [toks paren level Nat.ltb Nat.leb] in Ha |- *.
    assert (first [LPAR] (argv ++ redir_toks (unredir c).2 ++ rest) = false) as ->.
    { destruct argv as [|w argv]; [|apply Forall_cons in Hw as [Hw _]; apply first_word; [done|by repeat (constructor; [split; [done|in_symbols]|])]].
      destruct (unredir c).2 as [|[[f m] fd] rs]; [eapply stops_first; [exact Hstop|repeat constructor; done..]|].
      apply Forall_cons in Hrs as [[_ Hm] _]. by destruct Hm as [[_ Hm]|[_ Hm]]; simpl in Hm; subst fd. }
    exact (args_wlp _ rest Hrs Hstop argv (S es) [] [] p (List.Forall2_nil _) Hw Hlen Ha).
  - rewrite Eb in *. change (first _ _) with true. by apply IHb.
Qed.

Lemma block_step fuel : line_ok fuel → block_ok (S fuel).
Proof.
  intros IHl c rs p rest Hc Hrs Hstop Ha. cbn [parseblock]. unfold paren in Ha. rewrite <- !app_assoc in Ha.
  apply wlp_bind. eapply wlp_peek; [exact Ha|]. change (first _ _) with true. cbn [negb].
  apply wlp_bind. eapply wlp_sym; [exact Ha|in_symbols|]. intros _ _ p1 Ha1. apply wlp_bind.
  eapply wlp_mono; [apply (IHl c); [exact Hc| |exact Ha1]; by right|]. intros pc p2 [Hd Ha2].
  apply wlp_bind. eapply wlp_peek; [exact Ha2|]. change (first _ _) with true. cbn [negb].
  apply wlp_bind. eapply wlp_sym; [exact Ha2|in_symbols|]. intros _ _ p3 Ha3.
  apply redirs_loop_wlp; [eapply stops_first; [exact Hstop|repeat constructor; done..]|done..].
Qed.

Lemma parse_ok fuel : line_ok fuel ∧ pipe_ok fuel ∧ exec_ok fuel ∧ block_ok fuel.
Proof.
  induction fuel as [|fuel (IH1&IH2&IH3&IH4)]; [by split_and!|].
  split_and!; [by apply line_step|by apply pipe_step|by apply exec_step|by apply block_step].
Qed.
End lex.

(** ** Cutting the buffer *)

(** The ends of the strings of a command. *)
Fixpoint str_ends (c : cmd (nat * nat)) : list nat :=
  match c with
  | EXEC argv => argv.*2
  | REDIR c w _ _ => str_ends c ++ [w.2]
  | PIPE l r | LIST l r => str_ends l ++ str_ends r
  | BACK c => str_ends c
  end.

Definition cut_all (l : list nat) (buf : list Z) : list Z := foldl (λ b e, <[e:=0]> b) buf l.

Lemma nulterminate_cuts c : ∀ buf, nulterminate c buf = cut_all (str_ends c) buf.
Proof.
  induction c as [argv|c IH w m fd|l IHl r IHr|l IHl r IHr|c IH]; intros buf; cbn [nulterminate str_ends];
    unfold cut_all in *; rewrite ?foldl_app, ?IHl, ?IHr, ?IH; [|done..].
  revert buf. induction argv as [|w argv IH]; intros buf; [done|]. apply IH.
Qed.

Lemma cut_all_lookup l : ∀ buf (i : nat), (i < length buf)%nat →
  cut_all l buf !! i = if decide (i ∈ l) then Some 0 else buf !! i.
Proof.
  unfold cut_all. induction l as [|e l IH]; intros buf i Hi; cbn [foldl]; [by rewrite decide_False by apply not_elem_of_nil|].
  rewrite IH by (by rewrite length_insert). destruct (decide (i ∈ l)) as [Hin|Hin]; [by rewrite decide_True by (by right)|].
  destruct (decide (i = e)) as [->|Hne].
  - rewrite decide_True by left. by apply list_lookup_insert_eq.
  - rewrite decide_False by (by rewrite not_elem_of_cons). by rewrite list_lookup_insert_ne.
Qed.

(** A string survives the cuts, as those are all on spaces. *)
Lemma cut_str buf l w s : Forall (λ e, buf !! e = Some 32) l → w.2 ∈ l → str_at buf w s → cstr (drop w.1 (cut_all l buf)) = s.
Proof.
  intros Hl Hin ([_ Hs]&Hw&[rest Hd]).
  assert (w.1 + length s < length buf)%nat as Hlen.
  { apply (f_equal length) in Hd. rewrite length_drop, length_app in Hd. simpl in Hd. lia. }
  assert (length (cut_all l buf) = length buf) as El.
  { clear. revert buf. unfold cut_all. induction l as [|e l IH]; intros buf; [done|]. simpl. rewrite IH. apply length_insert. }
  assert (∀ i, (i < length s)%nat → drop w.1 (cut_all l buf) !! i = s !! i) as Hsame.
  { intros i Hi. assert (buf !! (w.1 + i)%nat = s !! i) as Hb by (by rewrite <- lookup_drop, Hd, lookup_app_l).
    rewrite lookup_drop, cut_all_lookup by lia. rewrite decide_False, Hb; [done|]. intros Hi'.
    eapply Forall_forall in Hi'; [|exact Hl]. cbv beta in Hi'. rewrite Hb in Hi'. eapply Forall_lookup_1 in Hi'; [|exact Hs]. by destruct Hi' as [_ ?]. }
  rewrite <- (take_drop (length s) (drop w.1 (cut_all l buf))). rewrite cstr_app_zero.
  - apply list_eq. intros i. destruct (decide (i < length s)%nat) as [Hi|Hi].
    + by rewrite lookup_take_lt, Hsame.
    + rewrite !lookup_ge_None_2; [done|lia|]. rewrite length_take. lia.
  - apply Forall_lookup_2. intros i x Hx. assert (i < length s)%nat as Hi by (apply lookup_lt_Some in Hx; rewrite length_take in Hx; lia).
    rewrite lookup_take_lt, Hsame in Hx by done. eapply Forall_lookup_1 in Hx; [|exact Hs]. by destruct Hx.
  - rewrite drop_drop. assert (cut_all l buf !! (w.1 + length s)%nat = Some 0) as Hz.
    { rewrite cut_all_lookup by lia. by rewrite decide_True by (by rewrite <- Hw). }
    destruct (drop (w.1 + length s) (cut_all l buf)) as [|x r] eqn:E; [done|].
    rewrite <- (Nat.add_0_r (w.1 + length s)), <- lookup_drop, E in Hz. simpl in Hz. by injection Hz.
Qed.

Lemma str_at_end buf w s : str_at buf w s → buf !! w.2 = Some 32.
Proof.
  intros (_&Hw&[rest Hd]). rewrite Hw, <- lookup_drop, Hd, lookup_app_r by lia. by rewrite Nat.sub_diag.
Qed.

Lemma den_ends buf pc c : den buf pc c → Forall (λ e, buf !! e = Some 32) (str_ends pc).
Proof.
  induction 1 as [ws ss H|pc c w s m fd _ IH H|pl l pr r _ IHl _ IHr|pl l pr r _ IHl _ IHr|pc c _ IH]; cbn [str_ends];
    rewrite ?Forall_app; try tauto.
  - induction H; simpl; [done|]. constructor; [by eapply str_at_end|done].
  - split; [done|]. constructor; [by eapply str_at_end|done].
Qed.

Lemma den_map buf pc c l : den buf pc c → Forall (λ e, buf !! e = Some 32) l → (∀ e, e ∈ str_ends pc → e ∈ l) →
  cmd_map (λ w, cstr (drop w.1 (cut_all l buf))) pc = c.
Proof.
  intros Hd Hl. induction Hd as [ws ss H|pc c w s m fd _ IH H|pl l' pr r _ IHl _ IHr|pl l' pr r _ IHl _ IHr|pc c _ IH];
    cbn [str_ends cmd_map]; intros Hin; rewrite ?IH, ?IHl, ?IHr; try done; try (intros e He; apply Hin, elem_of_app; tauto).
  - f_equal. induction H as [|w s ws ss Hw _ IH]; [done|]. simpl. f_equal; [|apply IH; intros e He; apply Hin; by right].
    apply cut_str; [done|apply Hin; left|done].
  - f_equal. apply cut_str; [done|apply Hin, elem_of_app; right; left|done].
Qed.

(** C31: the parser reads back what can be written: for every command with at
    most 9 arguments per program, built from programs, redirections,
    pipelines, lists and background commands in any nesting, [parsecmd] of its
    command line returns that command, its strings being C strings in the
    buffer that [nulterminate] has cut. *)
Theorem parse_show c rest : writable c →
  ∃ pc buf' p, parsecmd (show c ++ 0 :: rest) = Done (pc, buf') p ∧ cmd_map (λ w, cstr (drop w.1 buf')) pc = c.
Proof.
  intros Hc. pose proof (toks_ok c Hc 0) as Hok. set (buf := show c ++ 0 :: rest).
  assert (Z.to_nat (strlen buf) = length (show c)) as Hlen.
  { rewrite strlen_spec, Nat2Z.id. unfold buf. by rewrite cstr_app_zero by (first [by apply render_nonzero|done]). }
  assert (0 ∈ buf) as Hnul by (apply elem_of_app; right; left).
  assert (wlp true (pc ← parseline buf (length (show c)) (4 * length (show c) + 4);
     peek buf (length (show c)) [];; s ← gets id;
     if negb (s =? length (show c))%nat then panic "syntax" else mret (pc, nulterminate pc buf))
    (λ r _, cmd_map (λ w, cstr (drop w.1 r.2)) r.1 = c) 0%nat) as Hwlp.
  { apply wlp_bind. eapply wlp_mono.
    - apply (proj1 (parse_ok buf (length (show c)) _) c 0%nat []); [done|by left|]. rewrite app_nil_r. by split; [exists rest|].
    - intros pc p [Hd Ha]. apply wlp_bind. eapply wlp_peek; [exact Ha|]. destruct Ha as (_&He&_). simpl in He. rewrite Nat.add_0_r in He.
      wlp_steps. unfold id. rewrite He, Nat.eqb_refl. apply wlp_ret. cbn [fst snd]. rewrite nulterminate_cuts.
      apply den_map; [done|by eapply den_ends|done]. }
  pose proof (parsecmd_ends buf Hnul) as Hends. unfold parsecmd in *. rewrite Hlen in *. unfold wlp in Hwlp.
  match type of Hwlp with match ?m with _ => _ end => destruct m as [[pc buf'] p|msg| | |]; [|done|done|done|done] end. by exists pc, buf', p.
Qed.

Lemma word_check w : w ≠ [] → forallb (λ c, negb (c =? 0) && is_word c) w = true → word w.
Proof.
  intros Hne Hw. split; [done|]. rewrite forallb_forall in Hw. apply Forall_forall. intros c Hc%list_elem_of_In.
  specialize (Hw c Hc). apply andb_true_iff in Hw as [Hz ?]. split; [|done]. by apply negb_true_iff, Z.eqb_neq in Hz.
Qed.

Module Demo.
(** ls -l | wc > f & ; ( wc & ) < g *)
Definition ls : list Z := [108; 115].
Definition dash_l : list Z := [45; 108].
Definition wc : list Z := [119; 99].
Definition f : list Z := [102].
Definition g : list Z := [103].
Definition line : cmd (list Z) :=
  LIST (BACK (PIPE (EXEC [ls; dash_l]) (REDIR (EXEC [wc]) f (Z.lor O_WRONLY O_CREATE) 1)))
       (REDIR (BACK (EXEC [wc])) g O_RDONLY 0).
End Demo.

Lemma parse_show_witness :
  ∃ pc buf' p, parsecmd (show Demo.line ++ [0]) = Done (pc, buf') p ∧ cmd_map (λ w, cstr (drop w.1 buf')) pc = Demo.line.
Proof.
  apply parse_show. cbn [writable Demo.line]. rewrite !Forall_cons, !Forall_nil.
  split_and!; try (by apply word_check); try done; [by right|by left].
Defined.
