(* ===== verification/ShRun.v ===== *)
(** * Running commands (sh.c)

    What the shell does with a command, as the tree of the system calls it
    makes: a node per call, with a branch for every result the code looks at.
    A [fork] has a branch for the child and one for the parent. *)

From S2P Require Import Prelude Params Str Sh ShSpec.

Notation str := (list Z).

Inductive prog :=
  | Exit
  | Exec (argv : list str) (fail : prog)
  | Open (path : str) (mode : Z) (k : option nat → prog)
  | Close (fd : nat) (k : prog)
  | Dup (fd : nat) (k : prog)
  | Pipe (k : option (nat * nat) → prog)
  | Fork (child parent fail : prog)
  | Wait (k : prog)
  | Chdir (path : str) (k : bool → prog)
  | Print (msg : string) (arg : str) (k : prog).

(** ** The shell *)

Definition sh_panic (msg : string) : prog := Print msg [] Exit.
Definition fork1 (child parent : prog) : prog := Fork child parent (sh_panic "fork").

Fixpoint runcmd (c : cmd str) : prog :=
  match c with
  | EXEC [] => Exit
  | EXEC (a :: argv) => Exec (a :: argv) (Print "exec %s failed" a Exit)
  | REDIR c file mode fd =>
      Close (Z.to_nat fd)
        (Open file mode (λ r,
           match r with
           | None => Print "open %s failed" file Exit
           | Some _ => runcmd c
           end))
  | LIST l r => fork1 (runcmd l) (Wait (runcmd r))
  | PIPE l r =>
      Pipe (λ p,
        match p with
        | None => sh_panic "pipe"
        | Some (p0, p1) =>
            fork1 (Close 1 (Dup p1 (Close p0 (Close p1 (runcmd l)))))
              (fork1 (Close 0 (Dup p0 (Close p0 (Close p1 (runcmd r)))))
                (Close p0 (Close p1 (Wait (Wait Exit)))))
        end)
  | BACK c => fork1 (runcmd c) Exit
  end.

(** A line of input, up to its newline; the rest of it if it is longer. *)
Definition BUFSIZE : Z := 100.
Definition getcmd (input : str) : option (str * str) :=
  let (l, rest) := ugets BUFSIZE input in
  if at0 l =? 0 then None else Some (l ++ replicate (Z.to_nat BUFSIZE - length l) 0, rest).

(** [runcmd(parsecmd(buf))]. *)
Definition run_line (buf : str) : prog :=
  match parsecmd buf with
  | Done (c, buf') _ => runcmd (cmd_map (λ w, cstr (drop w.1 buf')) c)
  | Panic msg => sh_panic msg
  | _ => Exit
  end.

(** "cd " at the start of the line. *)
Definition is_cd (buf : str) : bool := (buf !!! 0%nat =? 99) && (buf !!! 1%nat =? 100) && (buf !!! 2%nat =? 32).

Fixpoint sh_loop (fuel : nat) (input : str) : prog :=
  match fuel with
  | O => Exit
  | S fuel' =>
      match getcmd input with
      | None => Exit
      | Some (buf, rest) =>
          if is_cd buf then
            let path := cstr (drop 3 (<[Z.to_nat (strlen buf - 1):=0]> buf)) in
            Chdir path (λ ok, if (ok : bool) then sh_loop fuel' rest else Print "cannot cd %s" path (sh_loop fuel' rest))
          else fork1 (run_line buf) (Wait (sh_loop fuel' rest))
      end
  end.

(** Open the console until three descriptors are in use. *)
Definition console : str := [99; 111; 110; 115; 111; 108; 101].
Fixpoint open_console (fuel : nat) (k : prog) : prog :=
  match fuel with
  | O => k
  | S fuel' =>
      Open console O_RDWR (λ r,
        match r with
        | None => k
        | Some fd => if (3 <=? fd)%nat then Close fd k else open_console fuel' k
        end)
  end.
Definition sh_main (input : str) : prog := open_console (S NOFILE) (sh_loop (S (length input)) input).

(** ** Descriptors *)

Inductive obj := Console | PipeR (n : nat) | PipeW (n : nat) | FileObj (path : str) (mode : Z).
Abbreviation table := (list (option obj)).

(** The lowest free descriptor, as [fdalloc] gives it. *)
Definition alloc (t : table) (o : obj) : option (nat * table) :=
  match list_find (λ x, x = None) t with
  | Some (i, _) => Some (i, <[i:=Some o]> t)
  | None => None
  end.

Section run.
(** The files that can be opened. *)
Context (can_open : str → bool).
Implicit Types (t : table) (i j : nat) (o : obj).

(** The programs that get executed with the descriptors each of them has, when
    no [fork] or [exec] fails; [n] numbers the pipes.  A child is followed to
    its end before its parent: each has descriptors of its own. *)
Fixpoint run (p : prog) (t : table) (n : nat) : list (list str * table) * nat :=
  match p with
  | Exit => ([], n)
  | Exec argv _ => ([(argv, t)], n)
  | Open path mode k =>
      if can_open path then
        match alloc t (FileObj path mode) with
        | Some (fd, t') => run (k (Some fd)) t' n
        | None => run (k None) t n
        end
      else run (k None) t n
  | Close fd k => run k (<[fd:=None]> t) n
  | Dup fd k =>
      match t !! fd with
      | Some (Some o) => match alloc t o with Some (_, t') => run k t' n | None => run k t n end
      | _ => run k t n
      end
  | Pipe k =>
      match alloc t (PipeR n) with
      | Some (p0, t') =>
          match alloc t' (PipeW n) with
          | Some (p1, t'') => run (k (Some (p0, p1))) t'' (S n)
          | None => run (k None) t n
          end
      | None => run (k None) t n
      end
  | Fork child parent _ =>
      let (e1, n1) := run child t n in
      let (e2, n2) := run parent t n1 in
      (e1 ++ e2, n2)
  | Wait k => run k t n
  | Chdir _ k => run (k true) t n
  | Print _ _ k => run k t n
  end.

(** What a command means: the programs it runs and their descriptors. *)
Fixpoint meaning (c : cmd str) (t : table) (n : nat) : list (list str * table) * nat :=
  match c with
  | EXEC [] => ([], n)
  | EXEC argv => ([(argv, t)], n)
  | REDIR c file mode fd =>
      if can_open file then meaning c (<[Z.to_nat fd:=Some (FileObj file mode)]> t) n else ([], n)
  | LIST l r =>
      let (e1, n1) := meaning l t n in
      let (e2, n2) := meaning r t n1 in
      (e1 ++ e2, n2)
  | PIPE l r =>
      let (e1, n1) := meaning l (<[1%nat:=Some (PipeW n)]> t) (S n) in
      let (e2, n2) := meaning r (<[0%nat:=Some (PipeR n)]> t) n1 in
      (e1 ++ e2, n2)
  | BACK c => meaning c t n
  end.

(** Standard input and output are open, and two descriptors are free. *)
Definition std (t : table) : Prop :=
  (∃ x y l, t = Some x :: Some y :: l) ∧
  ∃ i j, (i < j)%nat ∧ t !! i = Some None ∧ t !! j = Some None.

Lemma alloc_at t o i : t !! i = Some None → (∀ k, (k < i)%nat → t !! k ≠ Some None) → alloc t o = Some (i, <[i:=Some o]> t).
Proof.
  intros Hi Hlt. unfold alloc.
  assert (list_find (λ x, x = None) t = Some (i, None)) as ->; [|done].
  apply list_find_Some. split; [done|]. split; [done|]. intros k x Hk Hki ->. by apply (Hlt k).
Qed.

Lemma first_free t i : t !! i = Some None → ∃ i', (i' ≤ i)%nat ∧ t !! i' = Some None ∧ ∀ k, (k < i')%nat → t !! k ≠ Some None.
Proof.
  intros Hi. destruct (list_find_elem_of (λ x, x = None) t None) as [[i' x] Hf]; [by eapply list_elem_of_lookup_2|done|].
  apply list_find_Some in Hf as (H1& -> &H3). exists i'. split_and!; [|done|].
  - destruct (decide (i < i')%nat) as [Hlt|]; [|lia]. by destruct (H3 i None Hi Hlt).
  - intros k Hk E. by apply (H3 k None).
Qed.

(** The two descriptors that [pipe] returns. *)
Lemma std_free t : std t → ∃ i j, (2 ≤ i < j)%nat ∧ t !! i = Some None ∧ t !! j = Some None ∧
  ∀ k, (k < j)%nat → k ≠ i → t !! k ≠ Some None.
Proof.
  intros ((x&y&l& ->)&i0&j0&Hlt&Hi&Hj). destruct (first_free _ _ Hi) as (i&Hii&Hi'&Hmin).
  assert (2 ≤ i)%nat as H2 by (destruct i as [|[|i]]; [done..|lia]).
  destruct (first_free (<[i:=Some Console]> (Some x :: Some y :: l)) j0) as (j&_&Hj'&Hjmin); [by rewrite list_lookup_insert_ne by lia|].
  assert (i ≠ j) as Hne. { intros <-. rewrite list_lookup_insert_eq in Hj'; [done|]. by eapply lookup_lt_Some. }
  rewrite list_lookup_insert_ne in Hj' by done.
  assert (i < j)%nat as Hij. { destruct (decide (j < i)%nat) as [Hji|]; [|lia]. by destruct (Hmin j Hji). }
  exists i, j. split_and!; [lia|lia|done|done|]. intros k Hk Hki. specialize (Hjmin k Hk). by rewrite list_lookup_insert_ne in Hjmin by done.
Qed.

Lemma std_insert t (fd : nat) o : std t → (fd ≤ 1)%nat → std (<[fd:=Some o]> t).
Proof.
  intros ((x&y&l& ->)&i&j&Hlt&Hi&Hj) Hfd. split; [destruct fd as [|[|fd]]; [by eexists _, _, _..|lia]|].
  exists i, j. assert (∀ k, (Some x :: Some y :: l) !! k = Some None → fd ≠ k) as Hne.
  { intros k Hk ->. destruct k as [|[|k]]; [done..|lia]. }
  split; [done|]. by rewrite !list_lookup_insert_ne by (by apply Hne).
Qed.

(** The lowest free descriptor after closing one of the standard ones. *)
Lemma alloc_closed t (fd : nat) o : (∃ x y l, t = Some x :: Some y :: l) → (fd ≤ 1)%nat → alloc (<[fd:=None]> t) o = Some (fd, <[fd:=Some o]> t).
Proof.
  intros (x&y&l& ->) Hfd. rewrite (alloc_at _ _ fd).
  - by rewrite list_insert_insert_eq.
  - apply list_lookup_insert_eq. simpl. lia.
  - intros k Hk. destruct fd as [|[|fd]]; [lia| |lia]. by destruct k; [|lia].
Qed.

(** A child of a pipeline: [fd] is now the end [e] of the pipe, and the
    descriptors of the pipe are closed. *)
Lemma pipe_child t i j (fd e : nat) oi oj oe k n : (∃ x y l, t = Some x :: Some y :: l) → (fd ≤ 1)%nat → (2 ≤ i < j)%nat →
  t !! i = Some None → t !! j = Some None → <[j:=Some oj]> (<[i:=Some oi]> t) !! e = Some (Some oe) → (2 ≤ e)%nat →
  run (Close fd (Dup e (Close i (Close j k)))) (<[j:=Some oj]> (<[i:=Some oi]> t)) n = run k (<[fd:=Some oe]> t) n.
Proof.
  intros Ht Hfd Hij Hi Hj He He2. cbn [run]. rewrite list_lookup_insert_ne, He by lia. rewrite alloc_closed; [|destruct Ht as (x&y&l& ->)|done].
  2:{ destruct i as [|[|i]]; [lia..|]. destruct j as [|[|j]]; [lia..|]. by eexists _, _, _. }
  f_equal. apply list_eq. intros m. destruct Ht as (x&y&l&Et).
  destruct (decide (m = j)) as [->|Hmj].
  { rewrite list_lookup_insert_eq by (rewrite !length_insert; by eapply lookup_lt_Some). by rewrite list_lookup_insert_ne, Hj by lia. }
  rewrite list_lookup_insert_ne by done. destruct (decide (m = i)) as [->|Hmi].
  { rewrite list_lookup_insert_eq by (rewrite !length_insert; by eapply lookup_lt_Some). by rewrite list_lookup_insert_ne, Hi by lia. }
  rewrite list_lookup_insert_ne by done. destruct (decide (m = fd)) as [->|Hmf].
  { assert (fd < length t)%nat by (rewrite Et; simpl; lia). by rewrite !list_lookup_insert_eq by (by rewrite ?length_insert). }
  by rewrite !list_lookup_insert_ne by done.
Qed.

Lemma run_fork child parent fail t n : run (Fork child parent fail) t n =
  let (e1, n1) := run child t n in let (e2, n2) := run parent t n1 in (e1 ++ e2, n2).
Proof. done. Qed.

(** A [pipe] that finds its two descriptors. *)
Lemma run_pipe k t n i j : (i < j)%nat → t !! i = Some None → t !! j = Some None →
  (∀ m, (m < j)%nat → m ≠ i → t !! m ≠ Some None) →
  run (Pipe k) t n = run (k (Some (i, j))) (<[j:=Some (PipeW n)]> (<[i:=Some (PipeR n)]> t)) (S n).
Proof.
  intros Hij Hi Hj Hmin. cbn [run]. rewrite (alloc_at _ _ i) by (first [exact Hi|intros m Hm; apply Hmin; lia]).
  rewrite (alloc_at _ _ j); [done|by rewrite list_lookup_insert_ne by lia|]. intros m Hm.
  destruct (decide (m = i)) as [->|Hne]; [by rewrite list_lookup_insert_eq by (by eapply lookup_lt_Some)|].
  rewrite list_lookup_insert_ne by done. by apply Hmin.
Qed.

End run.

Module Demo.
(** Three descriptors for the console, and the rest free. *)
Definition fds : table := replicate 3 (Some Console) ++ replicate 13 None.
(** ls | wc > f *)
Definition pipeline : cmd str := PIPE (EXEC [ShSpec.Demo.ls]) (REDIR (EXEC [ShSpec.Demo.wc]) ShSpec.Demo.f (Z.lor O_WRONLY O_CREATE) 1).
End Demo.

