(* ===== verification/Umalloc.v ===== *)
(** * The user-level allocator (umalloc.c)

    Blocks of memory start with a header of 8 bytes, which is the unit they
    are measured in.  Free blocks form a circular list in the order of their
    addresses, which starts at the static header [base].  Memory is seen as
    the headers stored at each address; memory never written is zero. *)

From stdpp Require Import sorting.
From S2P Require Import Prelude.

Definition HDR : Z := 8.

Record heap := mkheap {
  h_hdr : gmap Z (Z * Z);       (** [ptr] and [size] of the header at an address *)
  h_freep : Z;                  (** 0 before the first call *)
  h_brk : Z                     (** the end of the process's memory *)
}.

Definition set_hdr (a : Z) (v : Z * Z) (s : heap) : heap := mkheap (<[a:=v]> (h_hdr s)) (h_freep s) (h_brk s).
Definition set_freep (v : Z) (s : heap) : heap := mkheap (h_hdr s) v (h_brk s).
Definition set_brk (v : Z) (s : heap) : heap := mkheap (h_hdr s) (h_freep s) v.

#[global] Instance header_inhabited : Inhabited (Z * Z) := populate (0, 0).

(** [p->s.ptr] and [p->s.size]. *)
Definition ptr (p : Z) : M heap Z := gets (λ s, (h_hdr s !!! p).1).
Definition size_ (p : Z) : M heap Z := gets (λ s, (h_hdr s !!! p).2).
Definition set_ptr (p v : Z) : M heap unit := modify (λ s, set_hdr p (v, (h_hdr s !!! p).2) s).
Definition set_size (p v : Z) : M heap unit := modify (λ s, set_hdr p ((h_hdr s !!! p).1, v) s).

Section umalloc.
(** The address of [base], and whether the kernel gives [n] more bytes to a
    process of size [brk]. *)
Context (base : Z) (can_grow : Z → Z → bool).

(** [sbrk(n)] for a positive [n]. *)
Definition sbrk (n : Z) : M heap Z :=
  s ← gets id;
  if can_grow (h_brk s) n then modify (set_brk (h_brk s + n));; mret (h_brk s) else mret (-1).

(** The loop of [free]; there are no more free blocks than bytes. *)
Fixpoint free_search (fuel : nat) (p bp : Z) : M heap Z :=
  match fuel with
  | O => diverge
  | S fuel' =>
      q ← ptr p;
      if (p <? bp) && (bp <? q) then mret p
      else if (q <=? p) && ((p <? bp) || (bp <? q)) then mret p
      else free_search fuel' q bp
  end.

(** The two [if]s of [free]: join with the next block, and with the one before. *)
Definition join_next (bp p : Z) : M heap unit :=
  q ← ptr p;
  n ← size_ bp;
  if u32 (bp + HDR * n) =? q then
    qn ← size_ q;
    set_size bp (u32 (n + qn));;
    qq ← ptr q;
    set_ptr bp qq
  else set_ptr bp q.
Definition join_prev (bp p : Z) : M heap unit :=
  m ← size_ p;
  if u32 (p + HDR * m) =? bp then
    n ← size_ bp;
    set_size p (u32 (m + n));;
    q ← ptr bp;
    set_ptr p q
  else set_ptr p bp.

Definition search_fuel (s : heap) : nat := 2 * Z.to_nat (h_brk s - base) + 4.

Definition free (ap : Z) : M heap unit :=
  let bp := u32 (ap - HDR) in
  s ← gets id;
  p ← free_search (search_fuel s) (h_freep s) bp;
  join_next bp p;;
  join_prev bp p;;
  modify (set_freep p).

Definition morecore (nu : Z) : M heap Z :=
  let nu := if nu <? 4096 then 4096 else nu in
  p ← sbrk (u32 (nu * HDR));
  if p =? -1 then mret 0
  else
    set_size p nu;;
    free (u32 (p + HDR));;
    gets h_freep.

(** Take [nunits] off the block [p] of size [n]: all of it, or its end. *)
Definition take_block (nunits n prevp p : Z) : M heap Z :=
  if n =? nunits then
    q ← ptr p;
    set_ptr prevp q;;
    mret p
  else
    set_size p (u32 (n - nunits));;
    let p' := u32 (p + HDR * (n - nunits)) in
    set_size p' nunits;;
    mret p'.

Fixpoint malloc_loop (fuel : nat) (nunits prevp p : Z) : M heap Z :=
  match fuel with
  | O => diverge
  | S fuel' =>
      n ← size_ p;
      if nunits <=? n then
        p ← take_block nunits n prevp p;
        modify (set_freep prevp);;
        mret (u32 (p + HDR))
      else
        f ← gets h_freep;
        if p =? f then
          p ← morecore nunits;
          if p =? 0 then mret 0
          else q ← ptr p; malloc_loop fuel' nunits p q
        else q ← ptr p; malloc_loop fuel' nunits p q
  end.

Definition units_of (nbytes : Z) : Z := u32 (nbytes + HDR - 1) / HDR + 1.

Definition malloc (nbytes : Z) : M heap Z :=
  let nunits := units_of nbytes in
  f ← gets h_freep;
  (if f =? 0 then
     set_ptr base base;;
     modify (set_freep base);;
     set_size base 0
   else mret tt);;
  prevp ← gets h_freep;
  p ← ptr prevp;
  s ← gets id;
  malloc_loop (search_fuel s) nunits prevp p.

(** ** The free list *)

Abbreviation block := (Z * Z)%type.
Implicit Types (N l pre post cs fl live : list block) (hdr : gmap Z block) (p m bp n k : Z).

(** The address after a list of blocks: the next one, or [d]. *)
Definition next l (d : Z) : Z := match l with [] => d | b :: _ => b.1 end.
Fixpoint links hdr l (d : Z) : Prop :=
  match l with
  | [] => True
  | b :: l' => hdr !!! b.1 = (next l' d, b.2) ∧ links hdr l' d
  end.

Lemma links_app hdr l1 l2 d : links hdr (l1 ++ l2) d ↔ links hdr l1 (next l2 d) ∧ links hdr l2 d.
Proof.
  induction l1 as [|b l1 IH]; simpl; [tauto|]. rewrite IH. assert (next (l1 ++ l2) d = next l1 (next l2 d)) as -> by (by destruct l1). tauto.
Qed.

Lemma links_ext hdr hdr' l d : (∀ a, a ∈ l.*1 → hdr' !!! a = hdr !!! a) → links hdr l d → links hdr' l d.
Proof.
  induction l as [|b l IH]; intros E; [done|]. intros [H1 H2]. split; [rewrite E by left; done|].
  apply IH; [|done]. intros a Ha. apply E. by right.
Qed.

Abbreviation asc l := (StronglySorted Z.lt l.*1).

Lemma asc_length (a : Z) (l : list Z) (b : Z) : StronglySorted Z.lt (a :: l) → Forall (λ x, x < b) (a :: l) → Z.of_nat (length (a :: l)) ≤ b - a.
Proof.
  revert a. induction l as [|a' l IH]; intros a Hs [Ha Hl]%Forall_cons; [simpl; lia|].
  apply StronglySorted_inv in Hs as [Hs [Haa _]%Forall_cons]. specialize (IH a' Hs Hl). cbn [length] in *. lia.
Qed.

(** ** The search of [free] *)

(** The place of [bp] in the list is after [p]. *)
Definition found N (bp p : Z) : Prop :=
  ∃ pre m post, N = pre ++ (p, m) :: post ∧ p < bp ∧ Forall (λ b, bp < b.1) post.

Section search.
Context (s : heap) (fl : list block) (bp : Z).
Abbreviation N := ((base, 0) :: fl).
Hypothesis Hlinks : links (h_hdr s) N base.
Hypothesis Hasc : asc N.
Hypothesis Hbase : base < bp.
Hypothesis Hbp : bp ∉ N.*1.

Lemma node_base pre b post : N = pre ++ b :: post → base ≤ b.1.
Proof.
  intros E. destruct pre as [|c pre]; simplify_eq/=; [lia|]. rewrite fmap_app in Hasc. simpl in Hasc.
  apply StronglySorted_inv in Hasc as [_ Hall]. apply Forall_app in Hall as [_ [? _]%Forall_cons]. lia.
Qed.

Lemma node_next pre b post : N = pre ++ b :: post → ptr b.1 s = Done (next post base) s ∧ Forall (λ c, b.1 < c.1) post.
Proof.
  intros E. pose proof Hlinks as Hl. pose proof Hasc as Ha. rewrite E in Hl, Ha. apply links_app in Hl as [_ [Hl _]].
  split; [unfold ptr, gets; by rewrite Hl|]. rewrite fmap_app in Ha. apply StronglySorted_app_1_r in Ha. simpl in Ha.
  apply StronglySorted_inv in Ha as [_ Ha]. by rewrite Forall_fmap in Ha.
Qed.

Lemma search_forward post : ∀ pre p m fuel, N = pre ++ (p, m) :: post → p < bp → (length post < fuel)%nat →
  ∃ k, free_search fuel p bp s = Done k s ∧ found N bp k.
Proof.
  induction post as [|[a n] post IH]; intros pre p m fuel E Hp Hf; (destruct fuel as [|fuel]; [lia|]);
    destruct (node_next _ _ _ E) as [Hq Hlt]; pose proof (node_base _ _ _ E) as Hge; cbn [fst next] in *;
    cbn [free_search]; unfold mbind, M_bind; rewrite Hq.
  - exists p. rewrite (proj2 (Z.ltb_lt p bp) Hp), (proj2 (Z.ltb_ge bp base)) by lia. cbn [andb orb].
    rewrite (proj2 (Z.leb_le base p)) by lia. cbn. split; [done|]. by exists pre, m, [].
  - rewrite (proj2 (Z.ltb_lt p bp) Hp). cbn [andb orb]. destruct (Z.ltb_spec bp a) as [Ha|Ha].
    + exists p. split; [done|]. exists pre, m, ((a, n) :: post). split; [done|]. split; [done|]. constructor; [done|].
      destruct (node_next (pre ++ [(p, m)]) (a, n) post) as [_ H2]; [by rewrite <- app_assoc|]. eapply Forall_impl; [exact H2|]. simpl. lia.
    + apply Forall_cons in Hlt as [Hpa _]. cbn [fst] in Hpa. rewrite (proj2 (Z.leb_gt a p)) by lia. cbn [andb].
      apply (IH (pre ++ [(p, m)]) a n); [by rewrite <- app_assoc| |simpl in Hf; lia].
      assert (bp ≠ a); [|lia]. intros ->. apply Hbp. rewrite E, fmap_app. apply elem_of_app. right. right. left.
Qed.

Lemma search_round post : ∀ pre p m fuel, N = pre ++ (p, m) :: post → (length post + length N < fuel)%nat →
  ∃ k, free_search fuel p bp s = Done k s ∧ found N bp k.
Proof.
  induction post as [|[a n] post IH]; intros pre p m fuel E Hf;
    (destruct (decide (p < bp)) as [Hp|Hp]; [by eapply search_forward; [exact E|done|simpl in *; lia]|]);
    (destruct fuel as [|fuel]; [lia|]); destruct (node_next _ _ _ E) as [Hq Hlt]; cbn [fst next] in *;
    assert (p ≠ bp) by (intros ->; apply Hbp; rewrite E, fmap_app; apply elem_of_app; right; left);
    cbn [free_search]; unfold mbind, M_bind; rewrite Hq, (proj2 (Z.ltb_ge p bp)) by lia; cbn [andb orb].
  - rewrite (proj2 (Z.ltb_ge bp base)), andb_false_r by lia. apply (search_forward fl [] base 0); [done|done|simpl in Hf; lia].
  - apply Forall_cons in Hlt as [Hpa _]. cbn [fst] in Hpa. rewrite (proj2 (Z.leb_gt a p)) by lia. cbn [andb].
    apply (IH (pre ++ [(p, m)]) a n); [by rewrite <- app_assoc|simpl in *; lia].
Qed.
End search.

(** ** The heap *)

(** The addresses of the units of a block. *)
Definition units (b : block) : list Z := (λ i, b.1 + HDR * i) <$> seqZ 0 b.2.

Lemma elem_of_units u b : u ∈ units b ↔ ∃ i, 0 ≤ i < b.2 ∧ u = b.1 + HDR * i.
Proof. unfold units. rewrite list_elem_of_fmap. setoid_rewrite elem_of_seqZ. naive_solver lia. Qed.

Lemma units_head b : 1 ≤ b.2 → b.1 ∈ units b.
Proof. intros. apply elem_of_units. exists 0. lia. Qed.

Lemma units_split a n m : 0 ≤ n → 0 ≤ m → units (a, n + m) = units (a, n) ++ units (a + HDR * n, m).
Proof.
  intros Hn Hm. unfold units. cbn [fst snd]. rewrite seqZ_app by lia. rewrite fmap_app. f_equal.
  rewrite Z.add_0_l. replace (seqZ n m) with (Z.add n <$> seqZ 0 m) by (by rewrite fmap_add_seqZ, Z.add_0_r).
  rewrite <- list_fmap_compose. apply list_fmap_ext. intros i x _. simpl. unfold HDR. lia.
Qed.

Record heap_ok (s : heap) (fl live : list block) : Prop := {
  ok_links : links (h_hdr s) ((base, 0) :: fl) base;
  ok_asc : asc ((base, 0) :: fl);
  ok_freep : h_freep s ∈ ((base, 0) :: fl).*1;
  ok_nodup : NoDup ((fl ++ live) ≫= units);
  ok_range : ∀ u, u ∈ (fl ++ live) ≫= units → base + HDR ≤ u ∧ u + HDR ≤ h_brk s ∧ u mod HDR = 0;
  ok_pos : Forall (λ b, 1 ≤ b.2) (fl ++ live);
  ok_live : ∀ b, b ∈ live → (h_hdr s !!! b.1).2 = b.2;
  ok_brk : 0 < base ∧ base + HDR ≤ h_brk s ∧ h_brk s ≤ 2 ^ 31 ∧ h_brk s mod HDR = 0
}.

Lemma ok_block s fl live b : heap_ok s fl live → b ∈ fl ++ live →
  1 ≤ b.2 ∧ base + HDR ≤ b.1 ∧ b.1 + HDR * b.2 ≤ h_brk s ∧ b.1 mod HDR = 0.
Proof.
  intros [] Hb. assert (1 ≤ b.2) as Hp by (by eapply Forall_forall in ok_pos0). split; [done|].
  assert (∀ u, u ∈ units b → base + HDR ≤ u ∧ u + HDR ≤ h_brk s ∧ u mod HDR = 0) as Hu.
  { intros u Hu. apply ok_range0. apply list_elem_of_bind. eauto. }
  destruct (Hu b.1) as (H1&_&H3); [by apply units_head|]. split; [done|]. split; [|done].
  destruct (Hu (b.1 + HDR * (b.2 - 1))) as (_&H2&_); [apply elem_of_units; exists (b.2 - 1); lia|]. unfold HDR in *. lia.
Qed.

Lemma length_fl s fl live : heap_ok s fl live → (S (length fl) ≤ Z.to_nat (h_brk s - base))%nat.
Proof.
  intros Hok. assert (Z.of_nat (length (base :: fl.*1)) ≤ h_brk s - base) as H.
  { apply asc_length; [apply Hok|]. constructor; [destruct (ok_brk _ _ _ Hok); unfold HDR in *; lia|]. rewrite Forall_fmap. apply Forall_forall. intros b Hb.
    destruct (ok_block s fl live b Hok) as (H1&H2&H3&_); [apply elem_of_app; by left|]. unfold HDR in *. simpl. lia. }
  simpl in *. rewrite length_fmap in H. lia.
Qed.

(** A block that is not in the list has an address of its own. *)
Lemma fresh_head s fl live b : heap_ok s fl (b :: live) → b.1 ∉ ((base, 0) :: fl).*1.
Proof.
  intros Hok [E|Hin]%elem_of_cons.
  - destruct (ok_block _ _ _ b Hok) as (_&H2&_); [apply elem_of_app; right; left|]. unfold HDR in H2. simpl in E. lia.
  - apply list_elem_of_fmap in Hin as (c&Ec&Hc). pose proof (ok_nodup _ _ _ Hok) as Hnd.
    rewrite bind_app in Hnd. apply NoDup_app in Hnd as (_&Hnd&_). apply (Hnd b.1).
    + apply list_elem_of_bind. exists c. split; [|done]. rewrite Ec. apply units_head.
      apply (ok_block _ _ _ c Hok). apply elem_of_app. by left.
    + apply list_elem_of_bind. exists b. split; [|left]. apply units_head. apply (ok_block _ _ _ b Hok). apply elem_of_app. right. left.
Qed.

Lemma free_search_ok s fl live b : heap_ok s fl (b :: live) →
  ∃ k, free_search (search_fuel s) (h_freep s) b.1 s = Done k s ∧ found ((base, 0) :: fl) b.1 k.
Proof.
  intros Hok. pose proof (ok_freep _ _ _ Hok) as Hf. apply list_elem_of_fmap in Hf as ([p m]&Hp&Hin).
  apply list_elem_of_split in Hin as (pre&post&E). rewrite Hp. eapply (search_round s fl b.1); [apply Hok|apply Hok| |by eapply fresh_head|exact E|].
  - destruct (ok_block _ _ _ b Hok) as (_&H2&_); [apply elem_of_app; right; left|]. unfold HDR in H2. lia.
  - pose proof (length_fl _ _ _ Hok) as Hl. apply (f_equal length) in E. rewrite length_app in E. unfold search_fuel. simpl in *. lia.
Qed.

(** The same units in other blocks. *)
Lemma heap_rebuild s s' fl fl' live live' : heap_ok s fl live → h_brk s' = h_brk s →
  (fl' ++ live') ≫= units ≡ₚ (fl ++ live) ≫= units →
  links (h_hdr s') ((base, 0) :: fl') base → asc ((base, 0) :: fl') → h_freep s' ∈ ((base, 0) :: fl').*1 →
  Forall (λ b, 1 ≤ b.2) (fl' ++ live') → (∀ b, b ∈ live' → (h_hdr s' !!! b.1).2 = b.2) → heap_ok s' fl' live'.
Proof.
  intros [] Hbrk Hu Hl Ha Hf Hp Hlive. split; rewrite ?Hbrk; try done.
  - by rewrite Hu.
  - intros u. rewrite Hu. apply ok_range0.
Qed.

Lemma hdr_insert_eq hdr (a : Z) (v : block) : <[a:=v]> hdr !!! a = v.
Proof. apply lookup_total_insert_eq. Qed.
Lemma hdr_insert_ne hdr (a a' : Z) (v : block) : a ≠ a' → <[a:=v]> hdr !!! a' = hdr !!! a'.
Proof. apply lookup_total_insert_ne. Qed.

(** [post1] and [n1] are the list after the block at [bp] and its size. *)
Definition joined (bp n : Z) (post : list block) (n1 : Z) (post1 : list block) : Prop :=
  (n1 = n ∧ post1 = post) ∨ ∃ c, post = c :: post1 ∧ n1 = n + c.2 ∧ c.1 = bp + HDR * n.

Lemma joined_units bp n post n1 post1 : joined bp n post n1 post1 → 0 ≤ n → Forall (λ b, 1 ≤ b.2) post →
  units (bp, n1) ++ (post1 ≫= units) = units (bp, n) ++ (post ≫= units).
Proof.
  intros [[-> ->]|([a m]& -> & -> &Hc)] Hn Hp; [done|]. apply Forall_cons in Hp as [Hm _]. cbn [fst snd] in *. subst a.
  rewrite units_split by lia. cbn [mbind list_bind]. by rewrite <- app_assoc.
Qed.

Lemma join_next_ok s bp p n m post : h_hdr s !!! p = (next post base, m) → (h_hdr s !!! bp).2 = n → 1 ≤ n →
  links (h_hdr s) post base → 0 < base → base < bp → bp ∉ post.*1 →
  Forall (λ b, 1 ≤ b.2 ∧ b.1 + HDR * b.2 ≤ 2 ^ 31) post → Forall (λ b, bp < b.1) post → bp + HDR * n ≤ 2 ^ 31 →
  ∃ n1 post1 s1, join_next bp p s = Done tt s1 ∧ joined bp n post n1 post1 ∧
    h_hdr s1 !!! bp = (next post1 base, n1) ∧ (∀ a, a ≠ bp → h_hdr s1 !!! a = h_hdr s !!! a) ∧
    h_freep s1 = h_freep s ∧ h_brk s1 = h_brk s.
Proof.
  intros Hp Hn Hn1 Hl Hb0 Hbp Hnot Hpost Hgt Hle. unfold join_next, mbind, M_bind, ptr, size_, set_ptr, set_size, gets, modify.
  rewrite Hp, Hn. cbn [fst snd]. unfold HDR in *. rewrite u32_small by lia. destruct (Z.eqb_spec (bp + 8 * n) (next post base)) as [E|E].
  - destruct post as [|[a k] post]; cbn [next fst] in E; [lia|]. destruct Hl as [Ha Hl]. cbn [fst snd] in Ha.
    apply Forall_cons in Hpost as [[Hk1 Hk2] _]. cbn [fst snd] in *. eexists (n + k), post, _. split_and!; [reflexivity|..].
    + right. exists (a, k). split; [done|]. cbn [fst snd]. unfold HDR. lia.
    + cbn [set_hdr h_hdr next fst snd]. rewrite Ha. cbn [fst snd]. rewrite u32_small by lia. rewrite hdr_insert_eq. cbn [fst snd].
      rewrite hdr_insert_ne, Ha by lia. by rewrite hdr_insert_eq.
    + intros x Hx. cbn [set_hdr h_hdr]. by rewrite !hdr_insert_ne by done.
    + done.
    + done.
  - eexists n, post, _. split_and!; [reflexivity|by left|..]; cbn [set_hdr h_hdr h_freep h_brk]; try done.
    + rewrite hdr_insert_eq. by rewrite <- Hn.
    + intros x Hx. by rewrite hdr_insert_ne.
Qed.

Lemma join_prev_ok s bp p n1 m (q : Z) : (h_hdr s !!! p).2 = m → h_hdr s !!! bp = (q, n1) → p ≠ bp → 0 ≤ m → 0 ≤ p →
  p + HDR * m ≤ 2 ^ 31 → 0 ≤ n1 < 2 ^ 31 → m + n1 < 2 ^ 32 →
  ∃ s1, join_prev bp p s = Done tt s1 ∧
    ((bp ≠ p + HDR * m ∧ h_hdr s1 !!! p = (bp, m)) ∨ (bp = p + HDR * m ∧ h_hdr s1 !!! p = (q, m + n1))) ∧
    (∀ a, a ≠ p → h_hdr s1 !!! a = h_hdr s !!! a) ∧ h_freep s1 = h_freep s ∧ h_brk s1 = h_brk s.
Proof.
  intros Hp Hbp Hne Hm Hp0 Hle Hn1 Hsum. unfold join_prev, mbind, M_bind, ptr, size_, set_ptr, set_size, gets, modify.
  rewrite Hp. unfold HDR in *. rewrite u32_small by lia. destruct (Z.eqb_spec (p + 8 * m) bp) as [E|E].
  - eexists. split; [reflexivity|]. cbn [set_hdr h_hdr h_freep h_brk]. split_and!; try done.
    + right. split; [done|]. rewrite hdr_insert_eq, hdr_insert_ne, Hbp by done. cbn [fst snd]. rewrite hdr_insert_eq. cbn [snd].
      by rewrite u32_small by lia.
    + intros x Hx. by rewrite !hdr_insert_ne by done.
  - eexists. split; [reflexivity|]. cbn [set_hdr h_hdr h_freep h_brk]. split_and!; try done.
    + left. split; [done|]. rewrite hdr_insert_eq. by rewrite <- Hp.
    + intros x Hx. by rewrite hdr_insert_ne.
Qed.

(** The list with the block at [bp] after [p], or as a part of it; [cs] is
    what it has been joined with. *)
Lemma asc_insert pre p m cs post bp n k : asc (pre ++ (p, m) :: cs ++ post) → p < bp → Forall (λ b, bp < b.1) (cs ++ post) →
  asc (pre ++ (p, m) :: (bp, n) :: post) ∧ asc (pre ++ (p, k) :: post).
Proof.
  rewrite !fmap_app. cbn [fmap list_fmap fst]. rewrite !fmap_app. intros Ha Hp Hb. apply Forall_app in Hb as [_ Hb].
  apply StronglySorted_app in Ha as (H1&H2&H3). apply StronglySorted_inv in H3 as [H3 H4].
  pose proof (StronglySorted_app_1_r _ _ _ H3) as H5. apply Forall_app in H4 as [_ H4].
  assert (Forall (λ x, bp < x) post.*1) as Hb' by (by rewrite Forall_fmap). split; apply StronglySorted_app; (split; [|split; [done|]]).
  - intros x y Hx Hy. rewrite !elem_of_cons in Hy. assert (x < p) by (apply H1; [done|left]). destruct Hy as [->|[->|Hy]]; [done|lia|].
    apply H1; [done|]. right. apply elem_of_app. by right.
  - constructor; [by constructor|]. by constructor.
  - intros x y Hx Hy. rewrite !elem_of_cons in Hy. destruct Hy as [->|Hy]; apply H1; [done|left|done|]. right. apply elem_of_app. by right.
  - by constructor.
Qed.

Lemma asc_distinct pre p m post : asc (pre ++ (p, m) :: post) → p ∉ pre.*1 ∧ p ∉ post.*1.
Proof.
  rewrite fmap_app. cbn [fmap list_fmap fst]. intros (H1&_&H3)%StronglySorted_app. apply StronglySorted_inv in H3 as [_ H4]. split; intros Hin.
  - assert (p < p); [|lia]. apply H1; [done|left].
  - eapply Forall_forall in H4; [|exact Hin]. lia.
Qed.

Lemma links_insert hdr hdr' pre p m cs post bp n : links hdr (pre ++ (p, m) :: cs ++ post) base →
  asc (pre ++ (p, m) :: cs ++ post) → bp ∉ (pre ++ (p, m) :: cs ++ post).*1 →
  (∀ a, a ≠ p → a ≠ bp → hdr' !!! a = hdr !!! a) →
  (hdr' !!! bp = (next post base, n) → hdr' !!! p = (bp, m) → links hdr' (pre ++ (p, m) :: (bp, n) :: post) base) ∧
  (∀ k, hdr' !!! p = (next post base, k) → links hdr' (pre ++ (p, k) :: post) base).
Proof.
  intros Hl Ha Hbp E. apply asc_distinct in Ha as [Hd1 Hd2]. rewrite fmap_app in Hbp. cbn [fmap list_fmap fst] in Hbp.
  rewrite fmap_app in Hd2, Hbp. rewrite not_elem_of_app, not_elem_of_cons, not_elem_of_app in Hbp. destruct Hbp as (Hb1&Hb2&_&Hb3).
  rewrite not_elem_of_app in Hd2. destruct Hd2 as [_ Hd2]. apply links_app in Hl as (Hl1&_&Hl2). apply links_app in Hl2 as [_ Hl2].
  assert (links hdr' pre p) as Hpre by (eapply links_ext; [|exact Hl1]; intros a Hin; apply E; intros ->; done).
  assert (links hdr' post base) as Hpost by (eapply links_ext; [|exact Hl2]; intros a Hin; apply E; intros ->; done).
  split; [intros H1 H2|intros k H2]; apply links_app; by repeat split.
Qed.

Lemma perm_insert {A} (a b c d : list A) : a ++ b ++ c ++ d ≡ₚ (a ++ b ++ d) ++ c.
Proof. rewrite <- !app_assoc. do 2 apply Permutation_app_head. apply Permutation_app_comm. Qed.

Lemma node_range s fl live c : heap_ok s fl live → c ∈ (base, 0) :: fl → 0 < c.1 ∧ 0 ≤ c.2 ∧ c.1 + HDR * c.2 ≤ h_brk s ∧ h_brk s ≤ 2 ^ 31.
Proof.
  intros Hok Hc. destruct (ok_brk _ _ _ Hok) as (H1&H2&H3&_). apply elem_of_cons in Hc as [->|Hc]; unfold HDR in *; cbn [fst snd]; [lia|].
  destruct (ok_block _ _ _ c Hok) as (H4&H5&H6&_); [apply elem_of_app; by left|]. unfold HDR in *. lia.
Qed.

(** What [free] has made of the list: a block at [bp] of [n1] units after [p],
    or [p] with [n1] more units. *)
Lemma free_rebuild s s' fl live bp n p m pre cs post n1 N' : heap_ok s fl ((bp, n) :: live) →
  (base, 0) :: fl = pre ++ (p, m) :: cs ++ post → p < bp → Forall (λ b, bp < b.1) (cs ++ post) → 1 ≤ n ≤ n1 →
  units (bp, n1) ++ (post ≫= units) = units (bp, n) ++ ((cs ++ post) ≫= units) →
  (N' = pre ++ (p, m) :: (bp, n1) :: post ∨ (N' = pre ++ (p, m + n1) :: post ∧ bp = p + HDR * m)) →
  links (h_hdr s') N' base → h_freep s' = p → h_brk s' = h_brk s → (∀ b, b ∈ live → (h_hdr s' !!! b.1).2 = b.2) →
  ∃ fl', heap_ok s' fl' live ∧ (length fl' ≤ S (length fl))%nat ∧ ∃ c, c ∈ fl' ∧ n ≤ c.2.
Proof.
  intros Hok E Hp Hgt Hn Hu HN Hl Hf Hbrk Hlive.
  pose proof (ok_asc _ _ _ Hok) as Ha. rewrite E in Ha. destruct (asc_insert _ _ _ _ _ bp n1 (m + n1) Ha Hp Hgt) as [Ha1 Ha2].
  destruct (node_range s fl _ (p, m) Hok) as (_&Hm&_); [rewrite E; apply elem_of_app; right; left|]. cbn [snd] in Hm.
  assert (N' ≫= units ≡ₚ (fl ≫= units) ++ units (bp, n)) as HU.
  { replace (fl ≫= units) with (((base, 0) :: fl) ≫= units) by done. rewrite E, bind_app. cbn [mbind list_bind]. rewrite <- perm_insert, <- Hu.
    destruct HN as [->|[-> Hbp]]; rewrite bind_app; cbn [mbind list_bind]; [done|]. rewrite units_split, <- app_assoc by lia. by rewrite Hbp. }
  assert (Forall (λ b, 0 ≤ b.2) ((base, 0) :: fl) ∧ Forall (λ b, 1 ≤ b.2) fl) as [HF0 HF1].
  { pose proof (ok_pos _ _ _ Hok) as [H1 _]%Forall_app. split; [|done]. constructor; [done|]. eapply Forall_impl; [exact H1|]. simpl. lia. }
  assert (length N' ≤ S (S (length fl)))%nat as HlenN.
  { apply (f_equal length) in E. rewrite !length_app in E. simpl in E. rewrite length_app in E.
    destruct HN as [->|[-> _]]; rewrite length_app; simpl; lia. }
  assert (∃ fl', N' = (base, 0) :: fl' ∧ Forall (λ b, 1 ≤ b.2) fl' ∧ ∃ c, c ∈ fl' ∧ n ≤ c.2) as (fl'& -> &Hpos&Hc).
  { clear Hf HlenN. destruct pre as [|b pre]; [|assert (b = (base, 0)) as -> by (by simplify_eq/=)]; injection E as E; simplify_eq/=.
    - destruct HN as [->|[_ Hbp]]; [|unfold HDR in Hbp; lia]. eexists. split; [done|]. apply Forall_app in HF1 as [_ HF1].
      split; [constructor; [simpl; lia|done]|]. exists (bp, n1). split; [left|simpl; lia].
    - apply Forall_app in HF1 as [HF1 [HF2 [_ HF3]%Forall_app]%Forall_cons]. cbn [snd] in HF2.
      destruct HN as [->|[-> Hbp]]; (eexists; split; [done|]; split;
        [apply Forall_app; split; [done|]; repeat (constructor; [cbn [snd]; lia|]); done|]).
      + exists (bp, n1). split; [apply elem_of_app; right; right; left|simpl; lia].
      + exists (p, m + n1). split; [apply elem_of_app; right; left|simpl; lia]. }
  exists fl'. split; [|split; [simpl in HlenN; lia|done]]. apply (heap_rebuild s s' fl fl' ((bp, n) :: live)); try done.
  - rewrite !bind_app. cbn [mbind list_bind]. rewrite app_assoc. apply Permutation_app_tail. exact HU.
  - by destruct HN as [E'|[E' _]]; rewrite E'.
  - rewrite Hf. destruct HN as [E'|[E' _]]; rewrite E', fmap_app; apply elem_of_app; right; left.
  - apply Forall_app. split; [done|]. pose proof (ok_pos _ _ _ Hok) as [_ H2]%Forall_app. by apply Forall_cons in H2 as [_ ?].
Qed.

Lemma live_perm s fl live live' : live ≡ₚ live' → heap_ok s fl live → heap_ok s fl live'.
Proof.
  intros Hp Hok. apply (heap_rebuild s s fl fl live live' Hok); try apply Hok; [done|by rewrite Hp| |].
  - rewrite <- Hp. apply Hok.
  - intros b. rewrite <- Hp. apply Hok.
Qed.

Lemma live_distinct s fl live b c : heap_ok s fl (b :: live) → c ∈ live → c.1 ≠ b.1 ∧ c.1 ∉ ((base, 0) :: fl).*1.
Proof.
  intros Hok Hc. apply elem_of_Permutation in Hc as [live' Hp].
  assert (heap_ok s fl (c :: b :: live')) as Hok' by (eapply live_perm; [|exact Hok]; rewrite Hp; constructor).
  split; [|by eapply fresh_head]. intros E. pose proof (ok_nodup _ _ _ Hok') as Hnd.
  rewrite bind_app in Hnd. apply NoDup_app in Hnd as (_&_&Hnd). cbn [mbind list_bind] in Hnd. apply NoDup_app in Hnd as (_&Hnd&_).
  apply (Hnd c.1); [apply units_head|rewrite E; apply elem_of_app; left; apply units_head];
    eapply ok_block; try exact Hok'; apply elem_of_app; right; [left|right; left].
Qed.

Lemma joined_split bp n post n1 post1 : joined bp n post n1 post1 → Forall (λ b, 1 ≤ b.2 ∧ b.1 + HDR * b.2 ≤ 2 ^ 31) post → bp + HDR * n ≤ 2 ^ 31 →
  ∃ cs, post = cs ++ post1 ∧ n ≤ n1 ∧ bp + HDR * n1 ≤ 2 ^ 31.
Proof.
  intros [[-> ->]|(c& -> & -> &Hc)] Hp Hle; [by exists []|]. exists [c]. split; [done|]. apply Forall_cons in Hp as [[H1 H2] _].
  unfold HDR in *. lia.
Qed.

(** [free] puts a live block on the list. *)
Lemma free_ok s fl live b : heap_ok s fl (b :: live) →
  ∃ s' fl', free (u32 (b.1 + HDR)) s = Done tt s' ∧ heap_ok s' fl' live ∧ h_brk s' = h_brk s ∧
    (length fl' ≤ S (length fl))%nat ∧ ∃ c, c ∈ fl' ∧ b.2 ≤ c.2.
Proof.
  intros Hok. destruct (ok_block _ _ _ b Hok) as (Hb1&Hb2&Hb3&_); [apply elem_of_app; right; left|].
  destruct (ok_brk _ _ _ Hok) as (Hbase&_&Hbrk&_). pose proof (fresh_head _ _ _ _ Hok) as Hfresh.
  destruct (free_search_ok _ _ _ _ Hok) as (p&Hs&pre&m&post&E&Hp&Hgt). destruct b as [bp n]. cbn [fst snd] in *.
  destruct (node_range s fl _ (p, m) Hok) as (Hp0&Hm&Hpm&_); [rewrite E; apply elem_of_app; right; left|]. cbn [fst snd] in *.
  assert (Forall (λ b, 1 ≤ b.2 ∧ b.1 + HDR * b.2 ≤ 2 ^ 31) post) as Hpost.
  { apply Forall_forall. intros c Hc. destruct (ok_block _ _ _ c Hok) as (?&?&?&_); [|lia]. apply elem_of_app. left.
    destruct pre as [|x pre]; simplify_eq/=; [done|]. apply elem_of_app. right. by right. }
  pose proof (ok_links _ _ _ Hok) as Hl. pose proof (ok_asc _ _ _ Hok) as Ha. rewrite E in Hl, Ha, Hfresh.
  pose proof Hl as (_&Hlp&Hlpost)%links_app. cbn [fst snd] in Hlp.
  assert (bp ∉ post.*1) as Hnp by (intros Hin; apply Hfresh; rewrite fmap_app; apply elem_of_app; right; by right).
  unfold free, mbind, M_bind, gets, modify, id. replace (u32 (u32 (bp + HDR) - HDR)) with bp by (unfold u32, HDR in *; dlia). rewrite Hs.
  destruct (join_next_ok s bp p n m post) as (n1&post1&s1&E1&Hj&Hbp1&Hs1&Hf1&Hk1); try done.
  { apply (ok_live _ _ _ Hok (bp, n)). left. }
  { unfold HDR in *; lia. }
  { unfold HDR in *; lia. }
  rewrite E1. destruct (joined_split _ _ _ _ _ Hj Hpost ltac:(lia)) as (cs& -> &Hn1&Hle1).
  destruct (join_prev_ok s1 bp p n1 m (next post1 base)) as (s2&E2&Hcase&Hs2&Hf2&Hk2); try done; try (unfold HDR in *; lia).
  { rewrite Hs1 by lia. by rewrite Hlp. }
  rewrite E2. destruct (links_insert (h_hdr s) (h_hdr s2) pre p m cs post1 bp n1 Hl Ha Hfresh) as [L1 L2].
  { intros a H1 H2. by rewrite Hs2, Hs1. }
  assert (∃ N', (N' = pre ++ (p, m) :: (bp, n1) :: post1 ∨ (N' = pre ++ (p, m + n1) :: post1 ∧ bp = p + HDR * m)) ∧ links (h_hdr s2) N' base)
    as (N'&HN&HlN).
  { destruct Hcase as [[Hne Hp2]|[Hbp2 Hp2]]; eexists; (split; [|first [by apply L2|apply L1; [|done]; rewrite Hs2 by lia; done]]); tauto. }
  destruct (free_rebuild s (set_freep p s2) fl live bp n p m pre cs post1 n1 N') as (fl'&Hok'&Hlen&Hc); try done.
  - apply (joined_units bp n (cs ++ post1) n1 post1); [done|lia|]. eapply Forall_impl; [exact Hpost|]. by intros ? [? _].
  - cbn. congruence.
  - intros c Hin. destruct (live_distinct _ _ _ _ _ Hok Hin) as [H1 H2]. cbn [set_freep h_hdr]. rewrite Hs2, Hs1; [apply (ok_live _ _ _ Hok); by right|done|].
    intros Ep. apply H2. rewrite Ep, E, fmap_app. apply elem_of_app. right. left.
  - exists (set_freep p s2), fl'. split_and!; [done|done| |done|done]. cbn. congruence.
Qed.

(** ** More memory *)

(** A process stays below the kernel. *)
Hypothesis Hgrow : ∀ brk n, can_grow brk n = true → brk + n ≤ 2 ^ 31.

Lemma heap_grow s fl live nu (x : Z) : heap_ok s fl live → 1 ≤ nu → h_brk s + HDR * nu ≤ 2 ^ 31 →
  heap_ok (set_hdr (h_brk s) (x, nu) (set_brk (h_brk s + HDR * nu) s)) fl ((h_brk s, nu) :: live).
Proof.
  intros Hok Hnu Hle. destruct (ok_brk _ _ _ Hok) as (H1&H2&H3&H4).
  assert (∀ u, u ∈ units (h_brk s, nu) → h_brk s ≤ u ∧ u + HDR ≤ h_brk s + HDR * nu ∧ u mod HDR = 0) as Hnew.
  { intros u (i&Hi& ->)%elem_of_units. cbn [fst snd] in *. unfold HDR in *. split_and!; [lia|lia|].
    by rewrite Z.mul_comm, Z.mod_add, H4 by lia. }
  assert ((fl ++ (h_brk s, nu) :: live) ≫= units ≡ₚ units (h_brk s, nu) ++ ((fl ++ live) ≫= units)) as Hperm.
  { rewrite !bind_app. cbn [mbind list_bind]. rewrite !app_assoc. apply Permutation_app_tail, Permutation_app_comm. }
  assert (∀ b, b ∈ ((base, 0) :: fl) ++ live → b.1 ≠ h_brk s) as Hne.
  { intros b Hb. rewrite <- app_comm_cons in Hb. apply elem_of_cons in Hb as [->|Hb]; cbn [fst]; [unfold HDR in *; lia|].
    destruct (ok_block _ _ _ b Hok Hb) as (?&?&?&_). unfold HDR in *. lia. }
  split; cbn [set_hdr set_brk h_hdr h_freep h_brk]; try apply Hok.
  - eapply links_ext; [|apply Hok]. intros a Ha. apply list_elem_of_fmap in Ha as (b& -> &Hb). apply hdr_insert_ne.
    intros E. apply (Hne b); [apply elem_of_app; by left|done].
  - rewrite Hperm. apply NoDup_app. split_and!; [|intros u [Hu _]%Hnew Hin; apply (ok_range _ _ _ Hok) in Hin; unfold HDR in *; lia|apply Hok].
    unfold units. apply NoDup_fmap_2; [intros i j; unfold HDR; lia|apply NoDup_seqZ].
  - intros u. rewrite Hperm, elem_of_app. intros [Hu|Hu].
    + destruct (Hnew u Hu) as (?&?&?). split_and!; [lia|done|done].
    + apply (ok_range _ _ _ Hok) in Hu. unfold HDR in *. lia.
  - pose proof (ok_pos _ _ _ Hok) as [Hp1 Hp2]%Forall_app. apply Forall_app. split; [done|]. by constructor.
  - intros b [->|Hb]%elem_of_cons; [by rewrite hdr_insert_eq|]. rewrite hdr_insert_ne; [by apply (ok_live _ _ _ Hok)|].
    intros E. apply (Hne b); [apply elem_of_app; by right|done].
  - split_and!; [done|unfold HDR in *; lia|done|]. unfold HDR in *. by rewrite Z.mul_comm, Z.mod_add by lia.
Qed.

Lemma morecore_ok s fl live nu : heap_ok s fl live → 1 ≤ nu → HDR * nu < 2 ^ 31 →
  ∃ r s', morecore nu s = Done r s' ∧
    ((r = 0 ∧ s' = s) ∨
     (r ≠ 0 ∧ r = h_freep s' ∧ ∃ fl', heap_ok s' fl' live ∧ (length fl' ≤ S (length fl))%nat ∧ ∃ c, c ∈ fl' ∧ nu ≤ c.2)).
Proof.
  intros Hok Hnu Hlt. unfold morecore. set (nu' := if nu <? 4096 then 4096 else nu).
  assert (nu ≤ nu' ∧ HDR * nu' < 2 ^ 31) as [Hnu1 Hnu2] by (unfold nu', HDR in *; destruct (Z.ltb_spec nu 4096); lia).
  unfold sbrk, mbind, M_bind, gets, modify, mret, M_ret, id. rewrite (Z.mul_comm nu'), u32_small by (unfold HDR in *; lia).
  destruct (can_grow (h_brk s) (HDR * nu')) eqn:Eg; [|exists 0, s; split; [done|by left]].
  pose proof (Hgrow _ _ Eg) as Hle. destruct (ok_brk _ _ _ Hok) as (Hb1&Hb2&_).
  destruct (Z.eqb_spec (h_brk s) (-1)) as [|_]; [unfold HDR in *; lia|]. unfold set_size, modify.
  destruct (free_ok _ _ _ _ (heap_grow s fl live nu' ((h_hdr s !!! h_brk s).1) Hok ltac:(lia) Hle)) as (s'&fl'&E&Hok'&_&Hlen&c&Hc&Hcn).
  cbn [fst snd] in *. cbn [set_brk h_hdr]. rewrite E. exists (h_freep s'), s'. split; [done|]. right. split_and!; [|done|].
  - pose proof (ok_freep _ _ _ Hok') as ([a k]&Ea&Hin)%list_elem_of_fmap. destruct (node_range _ _ _ _ Hok' Hin) as [? _]. rewrite Ea. lia.
  - exists fl'. split_and!; [done|done|]. exists c. split; [done|lia].
Qed.

(** ** Taking a block *)

(** The block before [p] in the list. *)
Lemma pred_split s fl live prevp p n : heap_ok s fl live → prevp ∈ ((base, 0) :: fl).*1 → (h_hdr s !!! prevp).1 = p →
  p ≠ base → (h_hdr s !!! p).2 = n → ∃ pre k post, (base, 0) :: fl = pre ++ (prevp, k) :: (p, n) :: post.
Proof.
  intros Hok ([a k]&Ea&Hin)%list_elem_of_fmap Hp Hne Hn. cbn [fst] in Ea. subst a. apply list_elem_of_split in Hin as (pre&rest&E).
  pose proof (ok_links _ _ _ Hok) as Hl. rewrite E in Hl. apply links_app in Hl as (_&Hl1&Hl2). cbn [fst snd] in Hl1.
  rewrite Hl1 in Hp. cbn [fst] in Hp. destruct rest as [|[p' n'] post]; cbn [next fst] in Hp; [congruence|]. subst p'.
  destruct Hl2 as [Hl2 _]. cbn [fst snd] in Hl2. rewrite Hl2 in Hn. cbn [snd] in Hn. subst n'. eauto.
Qed.

Lemma asc_remove pre prevp k p n m post : asc (pre ++ (prevp, k) :: (p, n) :: post) →
  asc (pre ++ (prevp, k) :: post) ∧ asc (pre ++ (prevp, k) :: (p, m) :: post).
Proof.
  intros Ha. split; [|by rewrite fmap_app in *]. rewrite fmap_app in *. cbn [fmap list_fmap fst] in *.
  apply StronglySorted_app in Ha as (H1&H2&H3). apply StronglySorted_inv in H3 as [H3 H4]. apply StronglySorted_inv in H3 as [H3 _].
  apply Forall_cons in H4 as [_ H4]. apply StronglySorted_app. split; [|split; [done|by constructor]].
  intros x y Hx [->|Hy]%elem_of_cons; apply H1; [done|left|done|by right; right].
Qed.

(** [(p, n)] becomes live, the block before it points past it. *)
Lemma take_all s fl live prevp p n pre k post : heap_ok s fl live → (base, 0) :: fl = pre ++ (prevp, k) :: (p, n) :: post →
  ∃ fl', heap_ok (set_freep prevp (set_hdr prevp (next post base, k) s)) fl' ((p, n) :: live).
Proof.
  intros Hok E. pose proof (ok_links _ _ _ Hok) as Hl. pose proof (ok_asc _ _ _ Hok) as Ha. rewrite E in Hl, Ha.
  pose proof (asc_distinct _ _ _ _ Ha) as [Hd1 Hd2]. destruct (asc_remove _ _ _ _ _ n _ Ha) as [Ha1 _].
  apply links_app in Hl as (Hl1&Hl2&Hl3&Hl4). cbn [fst snd next] in *.
  assert (∃ fl', (base, 0) :: fl' = pre ++ (prevp, k) :: post) as (fl'&E').
  { destruct pre; simplify_eq/=; eauto. }
  assert (fl ≡ₚ (p, n) :: fl') as Hperm.
  { apply (Permutation_cons_inv (a := (base, 0))). etransitivity; [|apply Permutation_swap]. rewrite E, E'.
    rewrite (cons_middle (prevp, k) pre), (cons_middle (prevp, k) pre post), !app_assoc. symmetry. apply Permutation_middle. }
  exists fl'. apply (heap_rebuild s _ fl fl' live); try done; cbn [set_freep set_hdr h_hdr h_freep h_brk].
  - rewrite !bind_app, Hperm. cbn [mbind list_bind]. rewrite <- !app_assoc. rewrite !(app_assoc (fl' ≫= units)).
    rewrite (Permutation_app_comm (fl' ≫= units)). by rewrite <- !app_assoc.
  - rewrite E'. apply links_app. split; [|split; [cbn [fst snd]; apply hdr_insert_eq|]].
    + eapply links_ext; [|exact Hl1]. intros a Hin. apply hdr_insert_ne. by intros ->.
    + eapply links_ext; [|exact Hl4]. intros a Hin. apply hdr_insert_ne. intros ->. apply Hd2. by right.
  - by rewrite E'.
  - rewrite E', fmap_app. apply elem_of_app. right. left.
  - pose proof (ok_pos _ _ _ Hok) as [Hp1 Hp2]%Forall_app. rewrite Hperm in Hp1. apply Forall_cons in Hp1 as [? ?]. apply Forall_app. split; [done|by constructor].
  - intros b [->|Hb]%elem_of_cons.
    + cbn [fst snd]. rewrite hdr_insert_ne by (intros ->; apply Hd2; left). by rewrite Hl3.
    + rewrite hdr_insert_ne; [by apply (ok_live _ _ _ Hok)|]. intros Eb.
      apply elem_of_Permutation in Hb as [live' Hlp]. pose proof (fresh_head s fl live' b (live_perm _ _ _ _ Hlp Hok)) as Hf.
      apply Hf. rewrite E, <- Eb, fmap_app. apply elem_of_app. right. left.
Qed.

Lemma owner_unique s fl live x y u : heap_ok s fl live → x ∈ fl ++ live → y ∈ fl ++ live → u ∈ units x → u ∈ units y → x = y.
Proof.
  intros Hok Hx Hy Hux Huy. pose proof (ok_nodup _ _ _ Hok) as Hnd. apply elem_of_Permutation in Hx as [l Hl]. rewrite Hl in Hnd, Hy.
  apply elem_of_cons in Hy as [->|Hy]; [done|]. cbn [mbind list_bind] in Hnd. apply NoDup_app in Hnd as (_&Hnd&_).
  exfalso. apply (Hnd u Hux). apply list_elem_of_bind. eauto.
Qed.

(** The last [nu] units of [(p, n)] become live. *)
Lemma take_part s fl live prevp p n nu (x : Z) pre k post : heap_ok s fl live → (base, 0) :: fl = pre ++ (prevp, k) :: (p, n) :: post → 1 ≤ nu < n →
  ∃ fl', heap_ok (set_freep prevp (set_hdr (p + HDR * (n - nu)) (x, nu) (set_hdr p (next post base, n - nu) s))) fl' ((p + HDR * (n - nu), nu) :: live).
Proof.
  intros Hok E Hnu. set (b := p + HDR * (n - nu)).
  assert (∃ pre', pre ++ [(prevp, k)] = (base, 0) :: pre' ∧ fl = pre' ++ (p, n) :: post) as (pre'&Epre&Efl).
  { destruct pre as [|c pre]; simplify_eq/=; eexists; (split; [done|]); [done|]. by rewrite <- app_assoc. }
  assert ((p, n) ∈ fl) as Hin by (rewrite Efl; apply elem_of_app; right; left).
  assert (∀ c, c ∈ fl ++ live → c.1 ≠ b) as Hb.
  { intros c Hc Ec. assert (c = (p, n)) as ->.
    - apply (owner_unique s fl live c (p, n) b Hok Hc); [apply elem_of_app; by left| |].
      + rewrite <- Ec. apply units_head. apply (ok_block _ _ _ c Hok Hc).
      + apply elem_of_units. exists (n - nu). cbn. lia.
    - cbn in Ec. unfold b, HDR in Ec. lia. }
  assert (base ≠ b) as Hbb.
  { destruct (ok_block _ _ _ (p, n) Hok) as (_&H2&_); [apply elem_of_app; by left|]. cbn in H2. unfold b, HDR in *. lia. }
  pose proof (ok_links _ _ _ Hok) as Hl. pose proof (ok_asc _ _ _ Hok) as Ha.
  assert ((base, 0) :: pre' ++ (p, n - nu) :: post = pre ++ (prevp, k) :: (p, n - nu) :: post) as E'.
  { by rewrite app_comm_cons, <- Epre, <- app_assoc. }
  exists (pre' ++ (p, n - nu) :: post). apply (heap_rebuild s _ fl _ live); try done; cbn [set_freep set_hdr h_hdr h_freep h_brk].
  - rewrite Efl, !bind_app. cbn [mbind list_bind]. assert (units (p, n) = units (p, n - nu) ++ units (b, nu)) as ->.
    { unfold b. rewrite <- units_split by lia. do 2 f_equal. lia. }
    rewrite <- !app_assoc. do 2 apply Permutation_app_head. rewrite !app_assoc. apply Permutation_app_tail, Permutation_app_comm.
  - rewrite Efl in Hl. rewrite app_comm_cons in Hl |- *. apply links_app in Hl as (Hl1&Hl2&Hl3). cbn [fst snd next] in *.
    rewrite Efl, app_comm_cons in Ha. apply asc_distinct in Ha as [Hd1 Hd2].
    assert (∀ c, c ∈ (base, 0) :: fl → c.1 ≠ b) as Hb' by (intros c [->|Hc]%elem_of_cons; [done|apply Hb, elem_of_app; by left]).
    apply links_app. split; [|split].
    + eapply links_ext; [|exact Hl1]. intros a (c& -> &Hc)%list_elem_of_fmap. rewrite !hdr_insert_ne; [done| |].
      * intros Ep. apply Hd1. rewrite Ep. by apply list_elem_of_fmap_2.
      * intros Ep. apply (Hb' c); [|done]. rewrite Efl, app_comm_cons. apply elem_of_app. by left.
    + cbn [fst snd]. rewrite hdr_insert_ne by (intros Ep; apply (Hb' (p, n)); [by right|done]). apply hdr_insert_eq.
    + eapply links_ext; [|exact Hl3]. intros a (c& -> &Hc)%list_elem_of_fmap. rewrite !hdr_insert_ne; [done| |].
      * intros Ep. apply Hd2. rewrite Ep. by apply list_elem_of_fmap_2.
      * intros Ep. apply (Hb' c); [|done]. right. rewrite Efl. apply elem_of_app. right. by right.
  - rewrite E'. rewrite E in Ha. by apply (asc_remove _ _ _ _ _ (n - nu) _ Ha).
  - rewrite E', fmap_app. apply elem_of_app. right. left.
  - pose proof (ok_pos _ _ _ Hok) as [Hp1 Hp2]%Forall_app. rewrite Efl in Hp1. apply Forall_app in Hp1 as [? [? ?]%Forall_cons].
    rewrite !Forall_app. split_and!; [done|constructor; [cbn; lia|done]|constructor; [cbn; lia|done]].
  - intros c [->|Hc]%elem_of_cons; [by rewrite hdr_insert_eq|]. assert (c ∈ fl ++ live) as Hc' by (apply elem_of_app; by right).
    rewrite hdr_insert_ne by (intros Ec; by apply (Hb c)). rewrite hdr_insert_ne; [by apply (ok_live _ _ _ Hok)|].
    intros Ec. apply elem_of_Permutation in Hc as [live' Hlp]. apply (fresh_head s fl live' c (live_perm _ _ _ _ Hlp Hok)).
    rewrite <- Ec. change p with (p, n).1. apply list_elem_of_fmap_2. by right.
Qed.

Lemma take_block_ok s fl live prevp p n nu : heap_ok s fl live → prevp ∈ ((base, 0) :: fl).*1 → (h_hdr s !!! prevp).1 = p →
  p ≠ base → (h_hdr s !!! p).2 = n → 1 ≤ nu ≤ n →
  ∃ b s' fl', take_block nu n prevp p s = Done b s' ∧ heap_ok (set_freep prevp s') fl' ((b, nu) :: live).
Proof.
  intros Hok Hprev Hp Hne Hn Hnu. destruct (pred_split _ _ _ _ _ _ Hok Hprev Hp Hne Hn) as (pre&k&post&E).
  destruct (node_range s fl live (p, n) Hok) as (Hp0&_&Hpn&Hbrk); [rewrite E; apply elem_of_app; right; right; left|]. cbn [fst snd] in *.
  pose proof (ok_links _ _ _ Hok) as Hl. rewrite E in Hl. apply links_app in Hl as (_&Hl2&Hl3&_). cbn [fst snd next] in *.
  unfold take_block, mbind, M_bind, ptr, set_ptr, set_size, gets, modify, mret, M_ret. destruct (Z.eqb_spec n nu) as [->|Hlt].
  - destruct (take_all s fl live prevp p nu pre k post Hok E) as [fl' Hok']. rewrite Hl2, Hl3. cbn [fst snd]. eauto.
  - unfold HDR in *. rewrite !u32_small by lia.
    destruct (take_part s fl live prevp p n nu ((<[p:=(next post base, n - nu)]> (h_hdr s) !!! (p + HDR * (n - nu))).1) pre k post Hok E ltac:(lia)) as [fl' Hok'].
    rewrite Hl3. cbn [fst snd set_hdr h_hdr]. eexists _, _, fl'. split; [reflexivity|]. exact Hok'.
Qed.

(** ** The search of [malloc] *)

(** Addresses that follow each other in the list. *)
Fixpoint chain hdr (R : list Z) : Prop :=
  match R with
  | a :: R' => match R' with b :: _ => (hdr !!! a).1 = b | [] => True end ∧ chain hdr R'
  | [] => True
  end.

Lemma chain_app hdr (l1 : list Z) (x : Z) (l2 : list Z) : chain hdr (l1 ++ x :: l2) ↔ chain hdr (l1 ++ [x]) ∧ chain hdr (x :: l2).
Proof.
  induction l1 as [|a l1 IH]; [simpl; tauto|]. destruct l1 as [|b l1]; [simpl; tauto|]. cbn [app] in *. cbn [chain] in *. tauto.
Qed.

Lemma links_chain hdr l (d : Z) : links hdr l d → chain hdr (l.*1 ++ [d]).
Proof.
  induction l as [|[a n] l IH]; [done|]. intros [H1 H2]. cbn [fmap list_fmap fst app chain] in *. split; [|by apply IH].
  rewrite H1. by destruct l.
Qed.

Lemma sorted_nodup (l : list Z) : StronglySorted Z.lt l → NoDup l.
Proof.
  induction 1 as [|a l _ IH Ha]; [constructor|]. constructor; [|done]. intros Hin. eapply Forall_forall in Ha; [|exact Hin]. lia.
Qed.

(** The nodes in the order of the search, from the one after [freep] to [freep]. *)
Lemma round_trip s fl live : heap_ok s fl live → ∃ R, chain (h_hdr s) R ∧ head R = Some ((h_hdr s !!! h_freep s).1) ∧
  last R = Some (h_freep s) ∧ NoDup R ∧ (∀ a, a ∈ R ↔ a ∈ ((base, 0) :: fl).*1) ∧ length R = S (length fl).
Proof.
  intros Hok. pose proof (ok_freep _ _ _ Hok) as ([f k]&Ef&Hin)%list_elem_of_fmap. cbn [fst] in Ef. rewrite Ef. apply list_elem_of_split in Hin as (A&B&E).
  pose proof (ok_links _ _ _ Hok) as Hl. pose proof (ok_asc _ _ _ Hok) as Ha.
  assert (NoDup ((base, 0) :: fl).*1) as Hnd.
  { by apply sorted_nodup. }
  pose proof (links_chain _ _ _ Hl) as Hc. rewrite E in Hl, Hc, Hnd |- *. apply links_app in Hl as (_&Hl&_). cbn [fst snd] in Hl.
  assert (∃ T, A.*1 ++ [f] = base :: T) as [T ET]. 
  { destruct A as [|c A]; [exists []; cbn in E |- *; congruence|]. exists (A.*1 ++ [f]). assert (c = (base, 0)) as -> by (cbn in E; congruence). done. }
  rewrite fmap_app in Hc, Hnd |- *. cbn [fmap list_fmap fst] in Hc, Hnd |- *.
  assert (B.*1 ++ A.*1 ++ [f] ≡ₚ A.*1 ++ f :: B.*1) as Hperm.
  { rewrite Permutation_app_comm, <- app_assoc. done. }
  exists (B.*1 ++ A.*1 ++ [f]). split_and!.
  - rewrite ET. rewrite <- app_assoc in Hc. cbn [app] in Hc. apply chain_app in Hc as [Hc1 Hc2]. apply chain_app. split.
    + destruct (B.*1) as [|b B']; [done|]. by destruct Hc2.
    + by rewrite <- ET.
  - rewrite Hl. cbn [fst]. destruct B as [|[b' ?] B]; [|done]. cbn [fmap list_fmap app next]. by rewrite ET.
  - rewrite app_assoc. apply last_snoc.
  - by rewrite Hperm.
  - intros a. by rewrite Hperm.
  - rewrite (Permutation_length Hperm). apply (f_equal length) in E. rewrite !length_app in *. simpl in *. rewrite !length_fmap. lia.
Qed.

Definition allocated (s' : heap) live nu (r : Z) : Prop :=
  ∃ b fl', r = u32 (b + HDR) ∧ heap_ok s' fl' ((b, nu) :: live).

(** At a node that is large enough. *)
Lemma loop_take fuel s fl live prevp p nu : heap_ok s fl live → prevp ∈ ((base, 0) :: fl).*1 → (h_hdr s !!! prevp).1 = p →
  p ∈ ((base, 0) :: fl).*1 → 1 ≤ nu ≤ (h_hdr s !!! p).2 →
  ∃ r s', malloc_loop (S fuel) nu prevp p s = Done r s' ∧ allocated s' live nu r.
Proof.
  intros Hok Hprev Hp Hin Hnu. assert (p ≠ base) as Hne.
  { intros ->. pose proof (ok_links _ _ _ Hok) as [Hl _]. cbn [fst snd] in Hl. rewrite Hl in Hnu. cbn in Hnu. lia. }
  destruct (take_block_ok _ _ _ _ _ _ nu Hok Hprev Hp Hne eq_refl Hnu) as (b&s'&fl'&E&Hok').
  cbn [malloc_loop]. unfold size_, mbind, M_bind, gets, modify, mret, M_ret. rewrite (proj2 (Z.leb_le nu _)) by lia. rewrite E.
  eexists _, _. split; [reflexivity|]. by exists b, fl'.
Qed.

(** A round that meets a large enough node finds one. *)
Lemma loop_found nu R : ∀ s fl live prevp p fuel, 1 ≤ nu → heap_ok s fl live → prevp ∈ ((base, 0) :: fl).*1 → (h_hdr s !!! prevp).1 = p →
  chain (h_hdr s) (p :: R) → last (p :: R) = Some (h_freep s) → NoDup (p :: R) → (∀ a, a ∈ p :: R → a ∈ ((base, 0) :: fl).*1) →
  (∃ a, a ∈ p :: R ∧ nu ≤ (h_hdr s !!! a).2) → (length R < fuel)%nat →
  ∃ r s', malloc_loop fuel nu prevp p s = Done r s' ∧ allocated s' live nu r.
Proof.
  induction R as [|q R IH]; intros s fl live prevp p fuel Hnu Hok Hprev Hp Hc Hlast Hnd Hsub (a&Ha&Hbig) Hf; (destruct fuel as [|fuel]; [simpl in Hf; lia|]);
    (destruct (decide (nu ≤ (h_hdr s !!! p).2)) as [Hle|Hgt]; [eapply loop_take; try done; apply Hsub; left|]).
  - apply list_elem_of_singleton in Ha as ->. done.
  - destruct Hc as [Hq Hc]. assert (p ≠ h_freep s) as Hne.
    { intros E. rewrite last_cons_cons in Hlast. apply last_Some in Hlast as [l' El]. apply NoDup_cons in Hnd as [Hnd _]. apply Hnd.
      rewrite El, <- E. apply elem_of_app. right. left. }
    cbn [malloc_loop]. unfold size_, ptr, mbind, M_bind, gets. rewrite (proj2 (Z.leb_gt nu _)) by lia. rewrite (proj2 (Z.eqb_neq _ _) Hne).
    cbn beta iota. rewrite Hq. apply (IH s fl live p q fuel); try done.
    + apply Hsub. left.
    + by apply NoDup_cons in Hnd as [_ ?].
    + intros x Hx. apply Hsub. by right.
    + exists a. split; [|done]. apply elem_of_cons in Ha as [->|Ha]; [done|]. done.
    + simpl in Hf. lia.
Qed.

Lemma node_size hdr l (d : Z) c : links hdr l d → c ∈ l → (hdr !!! c.1).2 = c.2.
Proof.
  induction l as [|b l IH]; [by intros _ ?%elem_of_nil|]. intros [H1 H2] [->|Hc]%elem_of_cons; [by rewrite H1|by apply IH].
Qed.

(** After [morecore] one more round. *)
Lemma loop_more s fl live nu c fuel : 1 ≤ nu → heap_ok s fl live → c ∈ fl → nu ≤ c.2 → (length fl < fuel)%nat →
  ∃ r s', (q ← ptr (h_freep s); malloc_loop fuel nu (h_freep s) q) s = Done r s' ∧ allocated s' live nu r.
Proof.
  intros Hnu Hok Hc Hcn Hf. destruct (round_trip _ _ _ Hok) as (R&Hch&Hhd&Hlast&Hnd&Hin&Hlen).
  destruct R as [|p R]; [done|]. simpl in Hhd. unfold mbind, M_bind, ptr, gets. injection Hhd as Hp. rewrite <- Hp.
  eapply (loop_found nu R s fl live); try done; [apply Hok|by intros a ?%Hin| |simpl in Hlen; lia].
  exists c.1. split; [apply Hin, list_elem_of_fmap_2; by right|]. rewrite (node_size _ _ _ c (ok_links _ _ _ Hok)) by (by right). done.
Qed.

(** The search ends with a block, or without one when there is no more memory. *)
Lemma loop_round nu R : ∀ s fl live prevp p fuel, 1 ≤ nu → HDR * nu < 2 ^ 31 → heap_ok s fl live → prevp ∈ ((base, 0) :: fl).*1 → (h_hdr s !!! prevp).1 = p →
  chain (h_hdr s) (p :: R) → last (p :: R) = Some (h_freep s) → NoDup (p :: R) → (∀ a, a ∈ p :: R → a ∈ ((base, 0) :: fl).*1) →
  (length R + length fl + 2 < fuel)%nat →
  ∃ r s', malloc_loop fuel nu prevp p s = Done r s' ∧ ((r = 0 ∧ ∃ fl', heap_ok s' fl' live) ∨ allocated s' live nu r).
Proof.
  induction R as [|q R IH]; intros s fl live prevp p fuel Hnu Hnu2 Hok Hprev Hp Hc Hlast Hnd Hsub Hf; (destruct fuel as [|fuel]; [simpl in Hf; lia|]);
    (destruct (decide (nu ≤ (h_hdr s !!! p).2)) as [Hle|Hgt];
     [edestruct loop_take as (r&s'&E&H); [exact Hok|exact Hprev|exact Hp|apply Hsub; left|split; [exact Hnu|exact Hle]|]; eauto|]);
    cbn [malloc_loop]; unfold size_, mbind, M_bind, gets; rewrite (proj2 (Z.leb_gt nu _)) by lia; cbn beta iota.
  - injection Hlast as ->. rewrite Z.eqb_refl.
    destruct (morecore_ok s fl live nu Hok Hnu Hnu2) as (r&s'&E&[[-> ->]|(Hr& -> &fl'&Hok'&Hlen&c&Hcin&Hcn)]); rewrite E.
    + exists 0, s. split; [done|]. left. eauto.
    + rewrite (proj2 (Z.eqb_neq _ _) Hr). destruct (loop_more s' fl' live nu c fuel Hnu Hok' Hcin Hcn) as (r2&s2&E2&H2); [simpl in Hf; lia|].
      exists r2, s2. split; [exact E2|by right].
  - destruct Hc as [Hq Hc]. assert (p ≠ h_freep s) as Hne.
    { intros E. rewrite last_cons_cons in Hlast. apply last_Some in Hlast as [l' El]. apply NoDup_cons in Hnd as [Hnd _]. apply Hnd.
      rewrite El, <- E. apply elem_of_app. right. left. }
    rewrite (proj2 (Z.eqb_neq _ _) Hne). unfold ptr, gets. rewrite Hq. apply (IH s fl live p q fuel); try done.
    + apply Hsub. left.
    + by apply NoDup_cons in Hnd as [_ ?].
    + intros x Hx. apply Hsub. by right.
    + simpl in Hf. lia.
Qed.

Lemma malloc_ok s fl live nbytes : heap_ok s fl live → 1 ≤ units_of nbytes → HDR * units_of nbytes < 2 ^ 31 →
  ∃ r s', malloc nbytes s = Done r s' ∧ ((r = 0 ∧ ∃ fl', heap_ok s' fl' live) ∨ allocated s' live (units_of nbytes) r).
Proof.
  intros Hok Hnu Hnu2. pose proof (ok_freep _ _ _ Hok) as ([f k]&Ef&Hin)%list_elem_of_fmap. destruct (node_range _ _ _ _ Hok Hin) as (Hf0&_). cbn [fst] in *.
  destruct (round_trip _ _ _ Hok) as (R&Hch&Hhd&Hlast&Hnd&HR&Hlen). destruct R as [|p R]; [done|]. injection Hhd as Hp.
  unfold malloc, mbind, M_bind, gets, mret, M_ret, id, ptr. rewrite (proj2 (Z.eqb_neq (h_freep s) 0)) by lia. unfold gets. rewrite <- Hp.
  apply (loop_round _ R s fl live); try done; [apply Hok|by intros a ?%HR|]. pose proof (length_fl _ _ _ Hok). unfold search_fuel. simpl in Hlen. lia.
Qed.

(** The first call sets up the list. *)
Lemma malloc_first s nbytes : h_freep s = 0 → 0 < base → base + HDR ≤ h_brk s → h_brk s ≤ 2 ^ 31 → h_brk s mod HDR = 0 →
  ∃ s', heap_ok s' [] [] ∧ h_brk s' = h_brk s ∧ malloc nbytes s = malloc nbytes s'.
Proof.
  intros Hf H1 H2 H3 H4. exists (mkheap (<[base:=(base, 0)]> (h_hdr s)) base (h_brk s)). split; [|split; [done|]].
  - split; cbn [h_hdr h_freep h_brk]; try done.
    + split; [|done]. apply hdr_insert_eq.
    + by repeat constructor.
    + left.
    + constructor.
    + by intros u ?%elem_of_nil.
    + by intros u ?%elem_of_nil.
  - unfold malloc, mbind, M_bind, gets, mret, M_ret, id, ptr, set_ptr, set_size, modify. rewrite Hf. cbn [Z.eqb h_freep].
    rewrite (proj2 (Z.eqb_neq base 0)) by lia. unfold gets, set_hdr, set_freep. cbn [h_hdr h_freep h_brk].
    rewrite !lookup_total_insert_eq, insert_insert_eq. done.
Qed.

(** ** All uses of the allocator *)

Definition apart (b c : block) : Prop := b.1 + HDR * b.2 ≤ c.1 ∨ c.1 + HDR * c.2 ≤ b.1.

Lemma aligned_in (b : block) (a : Z) : b.1 mod HDR = 0 → a mod HDR = 0 → b.1 ≤ a → a < b.1 + HDR * b.2 → a ∈ units b.
Proof. intros H1 H2 H3 H4. apply elem_of_units. exists ((a - b.1) / HDR). unfold HDR in *. dlia. Qed.

Lemma live_apart s fl b c live : heap_ok s fl (b :: c :: live) → apart b c.
Proof.
  intros Hok. destruct (ok_block _ _ _ b Hok) as (Hb1&_&_&Hb4); [apply elem_of_app; right; left|].
  destruct (ok_block _ _ _ c Hok) as (Hc1&_&_&Hc4); [apply elem_of_app; right; right; left|].
  pose proof (ok_nodup _ _ _ Hok) as Hnd. rewrite bind_app in Hnd. apply NoDup_app in Hnd as (_&_&Hnd). cbn [mbind list_bind] in Hnd.
  apply NoDup_app in Hnd as (_&Hnd&_). unfold apart. destruct (decide (b.1 ≤ c.1)) as [Hle|Hgt].
  - destruct (decide (b.1 + HDR * b.2 ≤ c.1)) as [?|Hlt]; [by left|]. exfalso. apply (Hnd c.1); [apply aligned_in; lia|].
    apply elem_of_app. left. by apply units_head.
  - destruct (decide (c.1 + HDR * c.2 ≤ b.1)) as [?|Hlt]; [by right|]. exfalso. apply (Hnd b.1); [by apply units_head|].
    apply elem_of_app. left. apply aligned_in; lia.
Qed.

(** A program calls [malloc] and [free] on what it got, and writes to its blocks. *)
Inductive mstep : heap * list block → heap * list block → Prop :=
  | ms_malloc s live nbytes r s' : 0 ≤ nbytes < 2 ^ 31 - 16 → malloc nbytes s = Done r s' →
      mstep (s, live) (s', if r =? 0 then live else (r - HDR, units_of nbytes) :: live)
  | ms_free s live1 b live2 s' : free (b.1 + HDR) s = Done tt s' → mstep (s, live1 ++ b :: live2) (s', live1 ++ live2)
  | ms_write s live b hdr' : b ∈ live → (∀ a, a ≤ b.1 ∨ b.1 + HDR * b.2 ≤ a → hdr' !!! a = h_hdr s !!! a) →
      mstep (s, live) (mkheap hdr' (h_freep s) (h_brk s), live).

Definition unused (s : heap) : Prop :=
  h_freep s = 0 ∧ 0 < base ∧ base + HDR ≤ h_brk s ∧ h_brk s ≤ 2 ^ 31 ∧ h_brk s mod HDR = 0.
Definition minv (x : heap * list block) : Prop := (unused x.1 ∧ x.2 = []) ∨ ∃ fl, heap_ok x.1 fl x.2.

Lemma units_of_range nbytes : 0 ≤ nbytes < 2 ^ 31 - 16 →
  1 ≤ units_of nbytes ∧ HDR * units_of nbytes < 2 ^ 31 ∧ nbytes ≤ HDR * (units_of nbytes - 1).
Proof. intros H. unfold units_of, HDR in *. rewrite u32_small by lia. dlia. Qed.

Lemma malloc_minv s live nbytes : minv (s, live) → 0 ≤ nbytes < 2 ^ 31 - 16 →
  ∃ r s', malloc nbytes s = Done r s' ∧ ((r = 0 ∧ minv (s', live)) ∨
    (r ≠ 0 ∧ ∃ fl', heap_ok s' fl' ((r - HDR, units_of nbytes) :: live))).
Proof.
  intros Hinv Hn. destruct (units_of_range nbytes Hn) as (H1&H2&_).
  assert (∃ s1 fl, heap_ok s1 fl live ∧ malloc nbytes s = malloc nbytes s1) as (s1&fl&Hok&E).
  { destruct Hinv as [[(U1&U2&U3&U4&U5) Hl]|[fl Hok]]; [|by exists s, fl]. cbn [fst snd] in *. subst live.
    destruct (malloc_first s nbytes U1 U2 U3 U4 U5) as (s1&Hok&_&E). by exists s1, []. }
  rewrite E. destruct (malloc_ok s1 fl live nbytes Hok H1 H2) as (r&s'&E'&[[-> [fl' Hok']]|(b&fl'& -> &Hok')]); exists r || eexists; exists s'.
  - split; [done|]. left. split; [done|]. right. by exists fl'.
  - destruct (ok_block _ _ _ (b, units_of nbytes) Hok') as (_&B1&B2&_); [apply elem_of_app; right; left|]. destruct (ok_brk _ _ _ Hok') as (B3&_&B4&_).
    cbn [fst snd] in *. assert (u32 (b + HDR) = b + HDR) as Eu by (apply u32_small; unfold HDR in *; lia). split; [done|]. right.
    rewrite Eu. split; [unfold HDR in *; lia|]. exists fl'. by rewrite Z.add_simpl_r.
Qed.

Lemma free_minv s live1 b live2 : minv (s, live1 ++ b :: live2) → ∃ s', free (b.1 + HDR) s = Done tt s' ∧ minv (s', live1 ++ live2).
Proof.
  intros [[_ Hl]|[fl Hok]]; [by destruct live1|]. cbn [fst snd] in Hok.
  assert (heap_ok s fl (b :: live1 ++ live2)) as Hok1 by (eapply live_perm; [|exact Hok]; symmetry; apply Permutation_middle).
  destruct (free_ok _ _ _ _ Hok1) as (s'&fl'&E&Hok'&_). destruct (ok_block _ _ _ b Hok1) as (B0&B1&B2&_); [apply elem_of_app; right; left|].
  destruct (ok_brk _ _ _ Hok1) as (B3&_&B4&_). rewrite u32_small in E by (unfold HDR in *; lia). exists s'. split; [done|]. right. by exists fl'.
Qed.

Lemma write_ok s fl live b hdr' : heap_ok s fl live → b ∈ live → (∀ a, a ≤ b.1 ∨ b.1 + HDR * b.2 ≤ a → hdr' !!! a = h_hdr s !!! a) →
  heap_ok (mkheap hdr' (h_freep s) (h_brk s)) fl live.
Proof.
  intros Hok Hb Hsame. assert (b ∈ fl ++ live) as Hb' by (apply elem_of_app; by right). destruct (ok_block _ _ _ b Hok Hb') as (B0&B1&B2&B3).
  assert (∀ c, c ∈ fl ++ live → hdr' !!! c.1 = h_hdr s !!! c.1) as Hc.
  { intros c Hc. apply Hsame. destruct (decide (c.1 ≤ b.1)) as [|Hgt]; [by left|]. right.
    destruct (decide (b.1 + HDR * b.2 ≤ c.1)) as [|Hlt]; [done|]. exfalso. destruct (ok_block _ _ _ c Hok Hc) as (C0&_&_&C3).
    assert (b = c) as ->; [|lia]. apply (owner_unique s fl live b c c.1 Hok Hb' Hc); [apply aligned_in; lia|by apply units_head]. }
  apply (heap_rebuild s _ fl fl live live Hok); try done; try apply Hok; cbn [h_hdr].
  - eapply links_ext; [|apply Hok]. intros a (c& -> &[->|Hin]%elem_of_cons)%list_elem_of_fmap; [|apply Hc, elem_of_app; by left].
    apply Hsame. left. cbn. unfold HDR in *. lia.
  - intros c Hin. rewrite Hc by (apply elem_of_app; by right). by apply (ok_live _ _ _ Hok).
Qed.

Lemma mstep_minv x y : minv x → mstep x y → minv y.
Proof.
  intros Hx Hs. destruct Hs as [s live n r s' Hn E|s live1 b live2 s' E|s live b hdr' Hb Hsame].
  - destruct (malloc_minv _ _ _ Hx Hn) as (r'&s1&E1&H). rewrite E in E1. injection E1 as -> ->.
    destruct H as [[-> H]|(Hr&fl'&H)]; [done|]. rewrite (proj2 (Z.eqb_neq _ _) Hr). right. by exists fl'.
  - destruct (free_minv _ _ _ _ Hx) as (s1&E1&H). rewrite E in E1. by injection E1 as ->.
  - destruct Hx as [[_ Hl]|[fl Hok]]; cbn [fst snd] in *; [subst live; by apply elem_of_nil in Hb|]. right. exists fl. by eapply write_ok.
Qed.

Lemma reach_minv x y : minv x → rtc mstep x y → minv y.
Proof. intros Hx Hr. revert Hx. induction Hr as [|x y z Hs _ IH]; [done|]. intros Hx. by eapply IH, mstep_minv. Qed.

End umalloc.

Module Demo.
(** [base] at 1000, a program of 4096 bytes, and up to a megabyte. *)
Definition grow (brk n : Z) : bool := brk + n <=? 1048576.
Definition fresh : heap := mkheap ∅ 0 4096.
Definition after_one : heap := Eval vm_compute in match malloc 1000 grow 20 fresh with Done _ s => s | _ => fresh end.
End Demo.


(** a request close to the largest number succeeds with a block that is
    far too small: the size in [malloc] wraps around, so that 4294967295 bytes
    are taken for a block of one unit, which has no room besides its header. *)
Theorem malloc_overflow : units_of 4294967295 = 1 ∧
  match malloc 1000 Demo.grow 4294967295 Demo.fresh with Done r _ => r ≠ 0 | _ => False end.
Proof. split; vm_compute; done. Qed.
